(* ===== verification/_CoqProject ===== *)
-Q . S2P
Prelude.v
Decimal.v
Cxx.v
ApkZip.v
ApkZipProps.v
ApkText.v
ApkAxml.v
ApkLaunch.v
ApkAxmlProps.v
ApkManifestProps.v
ApkPaths.v
ApkLaunchProps.v
Machine.v
Elf.v
CString.v
LnkBase.v
LnkToy.v
LnkSymbols.v
LnkDynamic.v
LnkReloc.v
Aps2.v
Rela.v
LnkLoad.v
LoadProps.v
LoadMap.v
LnkMain.v
MainProps.v
Float32.v
ShimTables.v
ShimFont.v
ShimPng.v
ShimRaster.v
ShimCanvas.v
ShimPaint.v
RasterProps.v
RasterSafe.v
ShimReach.v
ShimNatives.v
ShimRefine.v
ShimCopyProps.v
ShimPngProps.v
ShimProps.v
ShimParcel.v
ShimParcelProps.v
ShimFrame.v
ShimFrameProps.v
Numbers.v
Muplard.v
MuplardState.v
MuplardServer.v
MuplardProps.v
MuplardServerProps.v
MuplardReach.v
MuplardClient.v
MuplardClientProps.v
GuestMem.v
JniEnv.v
JniBridge.v
HostFile.v
JniOnload.v
JniProps.v
JniBridgeProps.v
JniArrays.v
JniCallProps.v
JniToy.v
RunNames.v
RunNamesProps.v
GpuStubs.v
RunSoLoad.v
RunSoReloc.v
RunSoLoadProps.v
RunSoRelocProps.v
RunToy.v
