(* ===== verification/Prelude.v ===== *)
(** * A verification of muplar's linkers, ART shim, APK reader, service daemon
    and JNI

    muplar runs Android programs in a light-weight machine.  This development
    models the parts of it that carry logic of their own and proves what makes
    them correct.

    - linker64/src (linker.c, elf.h, syscall.h; C) is a dynamic linker without
      a libc.  The guest kernel starts it in place of Android's linker: it
      reads the auxiliary vector, maps the needed libraries, resolves symbols,
      applies the relocations in their four encodings, lays out the static
      thread-local storage and jumps to the program.  It also serves dlopen,
      dlsym and dl_iterate_phdr.
    - platform/android-aarch64/art-shim (muplar_android_art_shim.c,
      muplar_font.h; C) is the library of native methods the Android framework
      classes are bound to.  Modelled are the software graphics stack
      (bitmaps, canvases, paints, filters, shaders, the rasteriser, the font,
      the PNG encoder, the frames for the host), parcels and the system
      properties.
    - platform/android-aarch64/apk (apk_envelope.cpp, apk_envelope.h; C++)
      opens an APK: it reads the ZIP archive and the manifest, in text or
      compiled, with the resource table, says what kind of program it is, and
      extracts what is needed to run it.
    - platform/android-aarch64/services (muplard.cpp, muplard_protocol.h,
      muplard_client.cpp, muplard_client.h; C++) is the daemon in place of
      Android's system services, and its clients: settings, permissions, users,
      surfaces, the state of the device, and binder transactions between
      programs.
    - platform/android-aarch64/jni (jni_env.cpp, jni_env.h, jni_bridge.cpp,
      jni_bridge.h, jni_onload.cpp, jni_onload.h; C++) is the Java side of a
      native library that runs without a Java machine: tables of functions in
      the guest's memory lead to stubs that trap into the host, which keeps
      classes, strings, arrays, members and natives under handles, copies
      between them and the guest, and calls the library's natives.
    - platform/android-aarch64/elf (guest_runner.cpp, guest_runner.h; C++)
      loads such a library itself: it looks for what the library needs, maps
      it into the guest, relocates it with stubs for what is nowhere
      (platform/commons/runtime/gpu_bridge.cpp), patches its code, and makes up
      the environment, the target and the arguments of a call.

    The host opens an APK, starts the daemon and a guest; in the guest the
    linker loads the program and the shim, whose frames and parcels go back to
    the host, and whose services are the daemon's.  A library that is run
    without a Java machine gets the JNI instead, and the guest runner in place
    of the linker.

    ** Conventions

    Integers of C and C++ are [Z] with their wrap-around written out ([u8] ...
    [s64], in this file); [ck] is signed [int] arithmetic, which has no result
    when it overflows.  Memory of the linker is a finite map from addresses to
    bytes with page protections (Machine); arrays of the shim are lists, and an
    access out of range has no result.  Effectful C code is in the monad [M] of
    Machine: a computation returns ([Done]), exits the process ([Exited]),
    does something undefined ([Fault]), or shows that a bound on a loop was
    chosen too small ([OutOfFuel]).  C++ code is in [res] of Cxx: it returns
    ([Ok]), throws ([Throw]), leaves an object ([Stray]), or has used up its
    fuel ([Spin]); the daemon adds its state and a list of what it did to its
    connections ([Srv] of MuplardServer), extraction the host's files ([IO] of
    ApkLaunch), the JNI a state ([St] of GuestMem).  Strings and vectors of bytes are lists of [Z].  Floats are
    binary32 numbers with one rounding per operation (Float32); a compiler that
    contracts a product and a sum into one operation can differ by a pixel,
    nothing proved depends on it but the reference values themselves.

    Code the repository does not hold is a class whose laws say what is relied
    on, with an instance it can be run on: [Platform] (the guest kernel, and
    the code of resolvers), [Zlib], [Host], [Files], [Os], [Net], [Guest] (the
    memory of the guest), [Disk], [Lib] (the host's allocator and the order of
    its hash tables), [Cpu] (the registers of the virtual processor), [Pages]
    (page tables, and the guest's memory as the host has it), [Dirs] (whether a
    path exists).

    ** Files

    The linker:
    - Machine: memory, protections, the monad.  Elf: elf.h.  CString: the
      string routines.  LnkBase: the object table, the state ([lstate]), the
      system calls; the kernel, IFUNC resolvers and own addresses are the
      class [Platform], and LnkToy is an instance to run the definitions on.
    - LnkSymbols: gnu_hash, lookup_gnu_hash, find_in_object, lookup_symbol,
      dlsym.  LnkDynamic: parse_dynamic.  LnkReloc: apply_rela, apply_relr,
      the packed relocations and their order.  LnkLoad: read_at, map_object,
      load_needed_so, dlopen, dl_iterate_phdr.  LnkMain: linker_main.
    - Aps2, Rela: what the relocation formats mean, and that
      the decoders implement it.  LoadProps, LoadMap: the object table, file
      reads and mappings.  MainProps: the TLS layout and its contents, the load
      base, termination and the overrun of the TLS block.

    The shim:
    - Float32: [float], and the guarded conversions to [int].  ShimTables: the
      tables of objects and their tokens ([shim] is the state).  ShimFont: the
      font.  ShimRaster: rectangles, circles, text, scaled copies.  ShimPaint,
      ShimCanvas: the natives of the classes.  ShimPng: the PNG
      encoder.  ShimParcel: android.os.Parcel.  ShimFrame: frames for the host's
      window.  ShimProps: system properties and library search, with their
      theorems.
    - RasterProps: what filling and copying do, pixel by pixel.  RasterSafe,
      ShimReach, ShimNatives: no drawing leaves an array, the invariant
      [shim_ok] of the tables, and its preservation by any sequence of
      natives.  ShimRefine: a canvas refines a stack, a table a map from
      tokens.  ShimCopyProps: copies through buffers.
      ShimPngProps: a decoder for the files the encoder writes, and
      checksums.  ShimParcelProps: a program logic for parcels.
      ShimFrameProps: frames arrive whole.

    The APK envelope:
    - Decimal, Cxx: numbers in base ten; what is used of C++ (results, loops
      with their rules, strings).  ApkZip: archives, up to extract_entry_data.
      ApkText: manifests in text.  ApkAxml: compiled manifests, string pools,
      resource tables.  ApkLaunch: classify_apk, prepare_apk_launch and the
      extraction.
    - ApkZipProps: bounds, and archives as the format writes them are read
      back.  ApkAxmlProps, ApkManifestProps: bounds and termination of the
      readers of manifests, and the two readers of string pools compared.  ApkPaths, ApkLaunchProps: where extracted files go, and what
      is in them.

    The service daemon:
    - Numbers: std::stol and its like, printing of floats.  Muplard: messages
      and the catalogue of services.  MuplardState: settings and their file,
      permissions, surfaces, the device ([store] and what it holds).
      MuplardServer: the requests, one per command, and the loop of main
      ([round], [rounds]).  MuplardClient: the clients.
    - MuplardProps: messages, settings and their file, permissions and surface
      transactions.  MuplardServerProps, MuplardReach:
      the invariant of the reachable states, and the daemon run with two
      clients.  MuplardClientProps: client and daemon together.

    The JNI:
    - GuestMem: computations with a state and a logic for them ([holds]), the
      memory of the guest.  HostFile: a file of the host.
    - JniEnv: jni_env.cpp; [jni] is the state of a JniEnv, [dispatch] its
      calls.  JniBridge: jni_bridge.cpp; [bridge] is a JniEnv with the guest's
      memory, [install] and [handle_hvc] its operations.  JniOnload:
      jni_onload.cpp; [vm] adds the processor.
    - JniProps: the invariant [jni_ok] of the tables and how they grow
      ([grows]).  JniBridgeProps: calls on any arguments are safe.
      JniArrays: arrays and strings between guest and host.  JniCallProps:
      identifiers of methods, natives, the table and the stubs, calls into the
      guest, the search for a symbol.
      JniToy: a guest to run the definitions on.

    The guest runner:
    - RunNames: merge_environment, jni_mangle and the export names, the
      signatures of methods, run's call of a native, native activities.
    - GpuStubs: the stubs ([gpu] is the state, with the guest).  RunSoLoad: the
      metadata of a file ([DirectSoObject]), map_direct_so_object,
      load_direct_so_dependencies.  RunSoReloc: lookup_direct_symbol,
      apply_direct_so_rela, apply_direct_so_relr, apply_direct_so_relocations,
      the patches, and [make_ready], the part of run that loads, relocates and
      patches.
    - RunNamesProps: environments, signatures, export names.  RunSoLoadProps:
      alignment, segments, what mapping an object does ([holds_map]), and that
      loading is contained and complete.  RunSoRelocProps: the search for
      symbols, packed relocations, tables of relocations, stubs.  RunToy: the
      theorems at a program and a library.

    ** What the theorems show

    Linker: each relocation format is applied as its specification says, and
    to nothing else; the hash lookup finds exactly the symbols filed; loading
    keeps the table in order and only maps inside its reservation; TLS
    segments do not overlap and hold their templates; start-up and dlopen end
    on every input.  Shim: any sequence of well-formed calls is safe; fills
    and copies equal their pixel-wise specification; stack and tables refine
    their abstract types; pixels survive PNG files and buffers, and values
    survive parcels; a parcel gives back every reference; frames reach the
    host whole, whatever system calls fail; properties parse and print back.
    APK envelope: whatever a file holds, reading it stays in bounds and, but
    for one kind of manifest, ends; archives are read back; nothing is
    extracted outside of the directory.  Daemon: nothing a client sends ends
    it; every binder transaction is answered once and by the owner of the
    service; services and transactions name connected clients; settings
    survive their file; permissions do not leak to other users; surface
    transactions are all or nothing; requests and replies arrive as sent.
    JNI: no sequence of calls, whatever its arguments, makes the host do
    something undefined, but for regions whose bounds wrap; handles stand for
    one object each; arrays and strings come back as they went; identifiers of
    methods are one per class, name and signature; natives are found as
    registered; each function of the table makes its call; a call into the
    guest leaves the registers as they were.  Guest runner: what a library
    needs is all loaded, one library behind the other, with the contents of
    the files and without a change elsewhere, or loading is refused; each
    relocation leaves the word it stands for, and an import that is nowhere a
    stub that ends the process with its name; signatures are taken apart as
    they are written, and no two methods have one export name.

    A number of theorems show where the code does not do what it means to: a
    TLS template past its block, a load base off by the header size, a save
    that saves nothing, a canvas taken away while in use, a copy past the
    pixels of RGBA_F16, a parcel larger than its array, a PNG without pixels
    reported as a success, property keys that are never found again, a
    manifest that is read for ever, string pools whose indices shift, built-in
    services that go with a client, a region of an array that lies outside of
    it, arrays lent out at one place.

    ** Bounds and fuel

    The recursion of the loader takes 1025 rounds at most, one per slot of the
    table and one more; the packed relocations one round per byte; a chain of
    the hash table is followed for 10000 entries, the limit of the code.
    Theorems named [_has_fuel] show that these are enough.  The drawing natives
    are safe under an allocator that refuses more than half a billion pixels,
    since pixel indices are [int]s in places, and parcels under one that
    refuses more than four terabytes; no other bound is assumed on sizes.
    The loops of the C++ parts take fuel from the size of what they read, which
    is proved to be enough; the walks over chunks of a compiled manifest take
    it as an argument, since they need not end.  Texts and files are shorter
    than 2^62 bytes, and a daemon handles fewer than 2^64 - 1 messages.  The
    JNI gives out fewer than 2^64 handles ([room]); an allocation of the host
    may fail at any size, which is an exception and not the end of a theorem's
    reach.  The guest runner loads at most one library per 2 MiB of the guest,
    which bounds its loop; its libraries have ordinary segments ([phdrs_ok]:
    apart, no more in the file than in memory, below 2^62), the code does not
    look whether they do.

    ** Not modelled

    entry.S (a jump into linker_main).  In the shim: the natives of
    MotionEvent, text measuring and line breaking, resources and surfaces, the
    socket client, diagnostic output, and the many stubs that ignore their
    arguments.  Of muplard.cpp the reading of the command line and the creation
    of the socket.  Of the guest runner the creation of the machine, its
    threads and the loop of a program that runs; of the GPU bridge the handlers.
    The host's other C++ and Objective-C parts: the runtime bring-up (android),
    the prefix manager, the supervisor, the
    command line and the applications, which mostly arrange processes, files
    and windows.  The headers of platform/android-commons and third_party are
    other projects' code. *)

From Stdlib Require Export ZArith Lia.
From stdpp Require Export base tactics list gmap fin_maps.
From stdpp Require Export strings.

#[global] Open Scope Z_scope.

(** ** Machine integers

    A C integer of width [w] is a [Z] kept in range by an explicit wrap:
    [u8], [u16], [u32], [u64] are the conversions to the unsigned types and
    [s32], [s64] those to the signed ones. *)

Definition wrap (w z : Z) : Z := z mod 2 ^ w.
Definition u8 (z : Z) : Z := z mod 256.
Definition u16 (z : Z) : Z := z mod 65536.
Definition u32 (z : Z) : Z := z mod 4294967296.
Definition u64 (z : Z) : Z := z mod 18446744073709551616.
Definition s32 (z : Z) : Z := (z + 2147483648) mod 4294967296 - 2147483648.
Definition s64 (z : Z) : Z :=
  (z + 9223372036854775808) mod 18446744073709551616 - 9223372036854775808.

Definition in_u8 (z : Z) : Prop := 0 <= z < 256.
Definition in_u16 (z : Z) : Prop := 0 <= z < 65536.
Definition in_u32 (z : Z) : Prop := 0 <= z < 4294967296.
Definition in_u64 (z : Z) : Prop := 0 <= z < 18446744073709551616.
Definition in_s32 (z : Z) : Prop := -2147483648 <= z < 2147483648.
Definition in_s64 (z : Z) : Prop :=
  -9223372036854775808 <= z < 9223372036854775808.

Declare Scope word_scope.
Delimit Scope word_scope with word.
Notation "a .& b" := (Z.land a b) (at level 40, left associativity) : word_scope.
Notation "a .| b" := (Z.lor a b) (at level 50, left associativity) : word_scope.
Notation "a .^ b" := (Z.lxor a b) (at level 45, left associativity) : word_scope.

(** Arithmetic with division and modulus: [lia] after exposing the quotients. *)
Ltac zdm := Z.to_euclidean_division_equations; lia.

Ltac words :=
  unfold wrap, u8, u16, u32, u64, s32, s64, in_u8, in_u16, in_u32, in_u64,
    in_s32, in_s64 in *.

(** Split every conjunction and existential of the context. *)
Ltac destr_hyps :=
  repeat match goal with
  | H : _ ∧ _ |- _ => destruct H
  | H : ∃ x, _ |- _ => let y := fresh x in destruct H as [y H]
  end.

(** Invert the options, tests and pairs a partial computation is made of. *)
Ltac inv_opt := repeat (progress (simpl in *;
  repeat match goal with
  | H : (_ ≫= _) = Some _ |- _ => apply bind_Some in H as (? & ? & H)
  | H : (_ <$> _) = Some _ |- _ => apply fmap_Some in H as (? & ? & H)
  | H : (if ?b then _ else _) = Some _ |- _ =>
      let E := fresh "E" in destruct b eqn:E; try discriminate H
  | H : None = Some _ |- _ => discriminate H
  | H : Some _ = Some _ |- _ => injection H as H
  | H : (_, _) = (_, _) |- _ => injection H as ? ?
  end; subst)).

(** Decide integer tests by hypotheses of the context. *)
Ltac ztest := repeat match goal with
  | |- context [?a =? ?b] =>
      first [ rewrite (proj2 (Z.eqb_neq a b)) by lia | rewrite (proj2 (Z.eqb_eq a b)) by lia ]
  | |- context [?a <? ?b] =>
      first [ rewrite (proj2 (Z.ltb_lt a b)) by lia | rewrite (proj2 (Z.ltb_ge a b)) by lia ]
  | |- context [?a <=? ?b] =>
      first [ rewrite (proj2 (Z.leb_le a b)) by lia | rewrite (proj2 (Z.leb_gt a b)) by lia ]
  end.

(** Reduce the bind of the option monad and nothing else. *)
Ltac obind := cbn [mbind option_bind orb andb negb].

Create HintDb word.
Create Rewrite HintDb word_rw.

Lemma u8_range z : in_u8 (u8 z).
Proof. words; zdm. Qed.
Lemma u16_range z : in_u16 (u16 z).
Proof. words; zdm. Qed.
Lemma u32_range z : in_u32 (u32 z).
Proof. words; zdm. Qed.
Lemma u64_range z : in_u64 (u64 z).
Proof. words; zdm. Qed.
Lemma s32_range z : in_s32 (s32 z).
Proof. words; zdm. Qed.
Lemma s64_range z : in_s64 (s64 z).
Proof. words; zdm. Qed.

Lemma u8_small z : in_u8 z → u8 z = z.
Proof. words; intros; zdm. Qed.
Lemma u16_small z : in_u16 z → u16 z = z.
Proof. words; intros; zdm. Qed.
Lemma u32_small z : in_u32 z → u32 z = z.
Proof. words; intros; zdm. Qed.
Lemma u64_small z : in_u64 z → u64 z = z.
Proof. words; intros; zdm. Qed.
Lemma s32_small z : in_s32 z → s32 z = z.
Proof. words; intros; zdm. Qed.
Lemma s64_small z : in_s64 z → s64 z = z.
Proof. words; intros; zdm. Qed.

Lemma u64_idemp z : u64 (u64 z) = u64 z.
Proof. apply u64_small, u64_range. Qed.
Lemma u32_idemp z : u32 (u32 z) = u32 z.
Proof. apply u32_small, u32_range. Qed.
Lemma u64_s64 z : u64 (s64 z) = u64 z.
Proof. words; zdm. Qed.
Lemma s64_u64 z : s64 (u64 z) = s64 z.
Proof. words; zdm. Qed.
Lemma u32_s32 z : u32 (s32 z) = u32 z.
Proof. words; zdm. Qed.
Lemma s32_u32 z : s32 (u32 z) = s32 z.
Proof. words; zdm. Qed.
Lemma u64_add_l a b : u64 (u64 a + b) = u64 (a + b).
Proof. words. apply Zplus_mod_idemp_l. Qed.
Lemma u64_add_r a b : u64 (a + u64 b) = u64 (a + b).
Proof. words. apply Zplus_mod_idemp_r. Qed.
Lemma u32_add_l a b : u32 (u32 a + b) = u32 (a + b).
Proof. words. apply Zplus_mod_idemp_l. Qed.
Lemma u32_add_r a b : u32 (a + u32 b) = u32 (a + b).
Proof. words. apply Zplus_mod_idemp_r. Qed.
Lemma u32_mul_l a b : u32 (u32 a * b) = u32 (a * b).
Proof. words. apply Zmult_mod_idemp_l. Qed.

#[export] Hint Resolve u8_range u16_range u32_range u64_range s32_range s64_range : word.
#[export] Hint Rewrite u64_idemp u32_idemp u64_s64 s64_u64 u32_s32 s32_u32
  u64_add_l u64_add_r u32_add_l u32_add_r : word_rw.

(** ** Bit-level reasoning *)

(** A number below [2^n] has no bit at or above [n]. *)
Lemma testbit_high a n i : 0 <= a < 2 ^ n → 0 <= n <= i → Z.testbit a i = false.
Proof.
  intros Ha Hi. rewrite <- (Z.mod_small a (2 ^ n)) by lia.
  apply Z.mod_pow2_bits_high; lia.
Qed.

(** Disjoint bits: [lor] of a low part and a shifted high part is a sum. *)
Lemma lor_shiftl_add a b n :
  0 <= a < 2 ^ n → 0 <= n → Z.lor a (Z.shiftl b n) = a + b * 2 ^ n.
Proof.
  intros Ha Hn. rewrite <- Z.shiftl_mul_pow2 by lia.
  assert (Z.land a (Z.shiftl b n) = 0) as Hz.
  { apply Z.bits_inj'. intros i Hi. rewrite Z.land_spec, Z.bits_0.
    destruct (Z.lt_ge_cases i n).
    - rewrite (Z.shiftl_spec_low b n i) by lia. apply andb_false_r.
    - rewrite (testbit_high a n i) by lia. reflexivity. }
  rewrite <- Z.add_lor_land, Hz. lia.
Qed.

(** Clearing the low [k] bits of a 64-bit word. *)
Lemma land_low_mask x k :
  in_u64 x → 0 <= k <= 64 → Z.land x (Z.shiftl (Z.ones (64 - k)) k) = x - x mod 2 ^ k.
Proof.
  intros Hx Hk. unfold in_u64 in Hx.
  assert (Z.land x (Z.shiftl (Z.ones (64 - k)) k) = Z.shiftl (Z.shiftr x k) k) as ->.
  { apply Z.bits_inj'. intros i Hi. rewrite Z.land_spec.
    destruct (Z.lt_ge_cases i k).
    - rewrite !Z.shiftl_spec_low by lia. apply andb_false_r.
    - rewrite !Z.shiftl_spec, Z.shiftr_spec by lia. replace (i - k + k) with i by lia.
      destruct (Z.lt_ge_cases i 64).
      + rewrite Z.ones_spec_low by lia. apply andb_true_r.
      + rewrite (testbit_high x 64 i) by (try lia; exact Hx). done. }
  rewrite Z.shiftl_mul_pow2, Z.shiftr_div_pow2 by lia.
  pose proof (Z.div_mod x (2 ^ k) ltac:(lia)). lia.
Qed.

Lemma land_ones_mod a n : 0 <= n → Z.land a (Z.ones n) = a mod 2 ^ n.
Proof. apply Z.land_ones. Qed.

(** ** Little- and big-endian integers as lists of bytes *)

Fixpoint le_combine (bs : list Z) : Z :=
  match bs with
  | [] => 0
  | b :: bs => b + 256 * le_combine bs
  end.

Fixpoint le_split (n : nat) (z : Z) : list Z :=
  match n with
  | O => []
  | S n => u8 z :: le_split n (z / 256)
  end.

Definition bytes (bs : list Z) : Prop := Forall in_u8 bs.

Lemma u8_bytes bs : bytes bs → u8 <$> bs = bs.
Proof.
  induction 1 as [|b bs Hb _ IH]; [done|]. cbn. rewrite u8_small by done. f_equal. exact IH.
Qed.

Lemma length_le_split n z : length (le_split n z) = n.
Proof. revert z; induction n; simpl; auto. Qed.

Lemma le_split_bytes n z : bytes (le_split n z).
Proof. revert z; induction n; intros; constructor; [apply u8_range | apply IHn]. Qed.

Lemma le_combine_split n z : le_combine (le_split n z) = z mod 256 ^ Z.of_nat n.
Proof.
  revert z. induction n as [|n IH]; intros z.
  { simpl. rewrite Z.mod_1_r. done. }
  cbn [le_split le_combine]. rewrite IH.
  rewrite Nat2Z.inj_succ, Z.pow_succ_r by lia.
  rewrite Z.rem_mul_r by (try apply Z.pow_nonzero; lia). reflexivity.
Qed.

Lemma le_combine_range bs : bytes bs → 0 <= le_combine bs < 256 ^ Z.of_nat (length bs).
Proof.
  induction 1 as [|b bs Hb _ IH]; [cbn; lia|].
  cbn [le_combine length]. rewrite Nat2Z.inj_succ, Z.pow_succ_r by lia.
  unfold in_u8 in Hb. lia.
Qed.

Lemma le_split_combine bs : bytes bs → le_split (length bs) (le_combine bs) = bs.
Proof.
  induction 1 as [|b bs Hb _ IH]; [done|].
  cbn [le_combine length le_split]. unfold u8. unfold in_u8 in Hb. f_equal.
  - rewrite Z.mul_comm, Z.mod_add, Z.mod_small; lia.
  - rewrite Z.mul_comm, Z.div_add, Z.div_small, Z.add_0_l by lia. exact IH.
Qed.

#[export] Hint Rewrite length_le_split : word_rw.
#[export] Hint Resolve le_split_bytes : word.

(** ** Strings

    A C string is the list of its bytes before the terminating NUL.  String
    literals of the source are written as Rocq strings and converted. *)

Fixpoint cs (s : string) : list Z :=
  match s with
  | EmptyString => []
  | String c s => Z.of_N (Ascii.N_of_ascii c) :: cs s
  end.

Definition cstring (s : list Z) : Prop := Forall (λ b, 1 <= b < 256) s.

Lemma cstring_bytes s : cstring s → bytes s.
Proof. intros H. eapply Forall_impl; [exact H|]. unfold in_u8; simpl; lia. Qed.

(** ** Lists *)

(** The first element that satisfies a test, with its position. *)
Fixpoint find_idx {A} (f : A → bool) (l : list A) : option nat :=
  match l with
  | [] => None
  | x :: l => if f x then Some 0%nat else S <$> find_idx f l
  end.

Lemma find_idx_Some {A} (f : A → bool) l i :
  find_idx f l = Some i ↔
  (∃ x, l !! i = Some x ∧ f x = true) ∧ (∀ j y, (j < i)%nat → l !! j = Some y → f y = false).
Proof.
  revert i. induction l as [|a l IH]; intros i; simpl.
  { split; [done|]. intros [[x [Hx _]] _]. by rewrite lookup_nil in Hx. }
  destruct (f a) eqn:Ha.
  - split.
    + intros [= <-]. split; [by exists a | lia].
    + intros [_ H]. destruct i; [done|].
      specialize (H 0%nat a ltac:(lia) eq_refl). congruence.
  - rewrite fmap_Some. split.
    + intros (j & Hj & ->). apply IH in Hj as [Hx Hlt]. split; [done|].
      intros [|k] y Hk Hy; simpl in *; [congruence|]. apply (Hlt k); [lia|done].
    + intros [(x & Hx & Hf) Hlt]. destruct i as [|i]; simpl in Hx; [congruence|].
      exists i. split; [|done]. apply IH. split; [by exists x|].
      intros j y Hj Hy. apply (Hlt (S j)); [lia|done].
Qed.

Lemma find_idx_None {A} (f : A → bool) l :
  find_idx f l = None ↔ ∀ x, x ∈ l → f x = false.
Proof.
  induction l as [|a l IH]; simpl; [split; [set_solver|done]|].
  destruct (f a) eqn:Ha.
  - split; [done|]. intros H. specialize (H a ltac:(set_solver)). congruence.
  - rewrite fmap_None, IH. set_solver.
Qed.

Lemma find_idx_insert_same {A} (f : A → bool) l i x y :
  l !! i = Some x → f y = f x → find_idx f (<[i := y]> l) = find_idx f l.
Proof.
  revert i. induction l as [|a l IH]; intros [|i] Hl Hf; cbn in *; [done..| |].
  - injection Hl as ->. by rewrite Hf.
  - destruct (f a); [done|]. f_equal. by apply (IH i).
Qed.

(** ** Words and parts of byte arrays *)

(** The bytes of an array of words, and back. *)
Definition word_bytes (n : nat) (ws : list Z) : list Z := concat (le_split n <$> ws).
Fixpoint words_of (n : nat) (count : nat) (bs : list Z) : list Z :=
  match count with
  | O => []
  | S count => le_combine (take n bs) :: words_of n count (drop n bs)
  end.

(** Read or write [n] bytes at [start]; outside of the memory it is undefined. *)
Definition slice (mem : list Z) (start n : Z) : option (list Z) :=
  if (0 <=? start) && (start + n <=? Z.of_nat (length mem))
  then Some (take (Z.to_nat n) (drop (Z.to_nat start) mem)) else None.
Definition splice (mem : list Z) (start : Z) (bs : list Z) : option (list Z) :=
  if (0 <=? start) && (start + Z.of_nat (length bs) <=? Z.of_nat (length mem))
  then Some (take (Z.to_nat start) mem ++ bs ++ drop (Z.to_nat start + length bs) mem) else None.

Lemma length_word_bytes n ws : length (word_bytes n ws) = (n * length ws)%nat.
Proof.
  unfold word_bytes. induction ws as [|w ws IH]; cbn; [lia|].
  rewrite length_app, length_le_split, IH. lia.
Qed.
Lemma length_words_of n count bs : length (words_of n count bs) = count.
Proof. revert bs. induction count as [|c IH]; intros bs; cbn; [done|]. by rewrite IH. Qed.

Lemma bytes_take n bs : bytes bs → bytes (take n bs).
Proof. apply Forall_take. Qed.
Lemma bytes_drop n bs : bytes bs → bytes (drop n bs).
Proof. apply Forall_drop. Qed.

Lemma word_bytes_of n count bs :
  bytes bs → length bs = (n * count)%nat → word_bytes n (words_of n count bs) = bs.
Proof.
  revert bs. induction count as [|c IH]; intros bs Hb Hl.
  { destruct bs; [done|]. cbn in Hl. lia. }
  unfold word_bytes in *. cbn [words_of fmap list_fmap concat]. rewrite IH; [|by apply bytes_drop|rewrite length_drop; lia].
  assert (length (take n bs) = n) as Ht by (rewrite length_take; lia).
  rewrite <- Ht at 1. rewrite le_split_combine by (by apply bytes_take). by rewrite take_drop.
Qed.

Lemma words_of_range n count bs :
  bytes bs → length bs = (n * count)%nat → Forall (λ w, 0 <= w < 256 ^ Z.of_nat n) (words_of n count bs).
Proof.
  revert bs. induction count as [|c IH]; intros bs Hb Hl; [constructor|]. cbn [words_of]. constructor.
  - assert (length (take n bs) = n) as Ht by (rewrite length_take; lia).
    rewrite <- Ht at 3. by apply le_combine_range, bytes_take.
  - apply IH; [by apply bytes_drop|rewrite length_drop; lia].
Qed.

Lemma slice_eq mem start n bs : slice mem start n = Some bs → 0 <= n →
  length bs = Z.to_nat n ∧ (bytes mem → bytes bs).
Proof.
  unfold slice. destruct (_ && _) eqn:E; [|done]. intros [= <-] Hn. split.
  - rewrite length_take, length_drop. lia.
  - intros Hb. by apply bytes_take, bytes_drop.
Qed.

Lemma slice_Some mem start n bs :
  slice mem start n = Some bs ↔
  0 <= start ∧ start + n <= Z.of_nat (length mem) ∧ bs = take (Z.to_nat n) (drop (Z.to_nat start) mem).
Proof.
  unfold slice. destruct (_ && _) eqn:E.
  - split; [intros [= <-]; split_and!; [lia|lia|done]|intros (_ & _ & ->); done].
  - split; [done|lia].
Qed.

Lemma splice_Some mem start bs :
  0 <= start → start + Z.of_nat (length bs) <= Z.of_nat (length mem) →
  ∃ mem', splice mem start bs = Some mem' ∧ length mem' = length mem ∧
    slice mem' start (Z.of_nat (length bs)) = Some bs ∧
    ∀ off n xs, 0 <= n → off + n <= start → slice mem off n = Some xs → slice mem' off n = Some xs.
Proof.
  intros H0 Hn. unfold splice. rewrite (proj2 (Z.leb_le _ _)) by lia. rewrite (proj2 (Z.leb_le _ _)) by lia.
  cbn [andb]. eexists. split; [reflexivity|].
  assert (length (take (Z.to_nat start) mem) = Z.to_nat start) as Ht by (rewrite length_take; lia).
  split; [rewrite !length_app, Ht, length_drop; lia|]. split.
  - apply slice_Some. rewrite !length_app, Ht, length_drop. split; [done|]. split; [lia|].
    rewrite Nat2Z.id, (drop_app_length' _ _ _ (eq_sym Ht)). by rewrite take_app_length.
  - intros off n xs Hn0 Hoff Hs. apply slice_Some in Hs as (H1 & H2 & ->). apply slice_Some.
    rewrite !length_app, Ht, length_drop. split; [done|]. split; [lia|].
    rewrite drop_app_le by lia. rewrite take_app_le by (rewrite length_drop; lia).
    rewrite skipn_firstn_comm, take_take. f_equal. lia.
Qed.

Lemma slice_app mem more start n bs :
  slice mem start n = Some bs → 0 <= n → slice (mem ++ more) start n = Some bs.
Proof.
  intros Hs Hn. apply slice_Some in Hs as (H1 & H2 & ->). apply slice_Some. rewrite length_app.
  split; [done|]. split; [lia|]. rewrite drop_app_le by lia. by rewrite take_app_le by (rewrite length_drop; lia).
Qed.

(** A fixed-size array all of whose cells a size bound [n] keeps. *)
Lemma size_seq_keys {A} (m : gmap Z A) a (s : Z) n :
  0 < s → (∀ k, (k < n)%nat → is_Some (m !! (a + s * Z.of_nat k))) → (n <= size m)%nat.
Proof.
  intros Hs H.
  pose (l := (λ k, a + s * Z.of_nat k) <$> seq 0 n).
  assert (NoDup l) as Hnd.
  { apply NoDup_fmap_2; [|apply NoDup_seq]. intros x y Hxy. nia. }
  assert (list_to_set l ⊆ dom m) as Hsub.
  { intros x Hx. apply elem_of_list_to_set, list_elem_of_fmap in Hx as (k & -> & Hk).
    apply elem_of_dom, H. apply elem_of_seq in Hk. lia. }
  apply subseteq_size in Hsub. rewrite size_list_to_set in Hsub by done.
  unfold l in Hsub. rewrite length_fmap, length_seq, size_dom in Hsub. done.
Qed.

Lemma take_take_app {A} n (l k : list A) : take n (take n l ++ k) = take n (l ++ k).
Proof.
  destruct (decide (length l <= n)%nat).
  - by rewrite (take_ge l) by lia.
  - rewrite !take_app_le by (rewrite ?length_take; lia). by rewrite take_take, Nat.min_id.
Qed.

(** A test that holds of all 256 bytes. *)
Lemma forall_byte (P : Z → bool) :
  forallb P (seqZ 0 256) = true → ∀ b, in_u8 b → P b = true.
Proof.
  intros H b Hb. rewrite forallb_forall in H. apply H.
  apply list_elem_of_In, elem_of_seqZ. unfold in_u8 in Hb. lia.
Qed.

Lemma filter_none {A} (P : A → Prop) `{!∀ x, Decision (P x)} (l : list A) :
  (∀ x, x ∈ l → ¬ P x) → filter P l = [].
Proof.
  induction l as [|x l IH]; intros Hl; [done|].
  rewrite filter_cons_False by (apply Hl, list_elem_of_here).
  apply IH. intros y Hy. apply Hl. by apply list_elem_of_further.
Qed.
