(* ===== verification/Decimal.v ===== *)
(** * Decimal numbers

    Reading and printing numbers in base ten, as strtol of the C library and
    std::to_string and the std::sto* functions of C++ do, and that what is
    printed is read back. *)

From S2P Require Import Prelude.

(** ** Reading *)

(** strtol of the C library, base 10 and a 64-bit result: the blanks, the
    sign, the digits, and what follows the number. *)
Definition is_space (b : Z) : bool := (b =? 32) || ((9 <=? b) && (b <=? 13)).
Definition is_digit (b : Z) : bool := (48 <=? b) && (b <=? 57).
Fixpoint skip_space (s : list Z) : list Z :=
  match s with b :: s' => if is_space b then skip_space s' else s | [] => [] end.
Fixpoint read_digits (s : list Z) (acc : Z) : Z * list Z :=
  match s with
  | b :: s' => if is_digit b then read_digits s' (acc * 10 + (b - 48)) else (acc, s)
  | [] => (acc, s)
  end.
Definition clamp64 (z : Z) : Z :=
  Z.max (-9223372036854775808) (Z.min 9223372036854775807 z).
Definition strtol (value : list Z) : Z * list Z :=
  let s := skip_space value in
  let '(neg, s) := match s with
                   | b :: s' => if b =? 45 then (true, s') else if b =? 43 then (false, s') else (false, s)
                   | [] => (false, s)
                   end in
  match s with
  | b :: _ =>
      if is_digit b then
        let '(n, rest) := read_digits s 0 in (clamp64 (if (neg : bool) then - n else n), rest)
      else (0, value)
  | [] => (0, value)
  end.

(** ** Printing *)

(** The decimal digits of a number, in front of [acc]. *)
Fixpoint digits (fuel : nat) (n : Z) (acc : list Z) : list Z :=
  match fuel with
  | O => acc
  | S fuel => if n <? 10 then (48 + n) :: acc else digits fuel (n / 10) ((48 + n mod 10) :: acc)
  end.
(** A number in decimal. *)
Definition decimal (z : Z) : list Z :=
  if z <? 0 then 45 :: digits 20 (- z) [] else digits 20 z [].

Lemma read_digits_spec fuel n acc v :
  0 <= n < 10 ^ Z.of_nat fuel → 0 <= v →
  ∃ k, 0 <= k ∧ n < 10 ^ k ∧ read_digits (digits fuel n acc) v = read_digits acc (v * 10 ^ k + n).
Proof.
  revert n acc v. induction fuel as [|fuel IH]; intros n acc v Hn Hv; cbn [digits].
  { exists 0. simpl in *. split_and!; [lia|lia|]. f_equal. lia. }
  rewrite Nat2Z.inj_succ, Z.pow_succ_r in Hn by lia.
  destruct (Z.ltb_spec n 10).
  - exists 1. split_and!; [lia|lia|]. cbn [read_digits]. unfold is_digit.
    rewrite (proj2 (Z.leb_le 48 _)), (proj2 (Z.leb_le _ 57)) by lia. cbn [andb]. f_equal. lia.
  - destruct (IH (n / 10) ((48 + n mod 10) :: acc) v) as (k & Hk & Hnk & E); [zdm|done|].
    exists (Z.succ k). split_and!; [lia|rewrite Z.pow_succ_r by done; zdm|]. rewrite E. cbn [read_digits].
    unfold is_digit. pose proof (Z.mod_pos_bound n 10 ltac:(lia)).
    rewrite (proj2 (Z.leb_le 48 _)), (proj2 (Z.leb_le _ 57)) by lia. cbn [andb]. f_equal.
    rewrite Z.pow_succ_r by done. pose proof (Z.div_mod n 10 ltac:(lia)). lia.
Qed.

Lemma digits_head fuel n acc :
  0 <= n → (0 < fuel)%nat → n < 10 ^ Z.of_nat fuel →
  ∃ b l, digits fuel n acc = b :: l ∧ is_digit b = true.
Proof.
  revert n acc. induction fuel as [|fuel IH]; intros n acc Hn Hf Hlt; [lia|]. cbn [digits].
  rewrite Nat2Z.inj_succ, Z.pow_succ_r in Hlt by lia.
  destruct (Z.ltb_spec n 10).
  - eexists _, _. split; [reflexivity|]. unfold is_digit.
    by rewrite (proj2 (Z.leb_le 48 _)), (proj2 (Z.leb_le _ 57)) by lia.
  - apply IH; [zdm| |zdm]. destruct fuel; [simpl in Hlt|]; lia.
Qed.

Lemma strtol_decimal z : in_s64 z → strtol (decimal z) = (z, []) ∧ decimal z ≠ [].
Proof.
  intros Hz. unfold in_s64 in Hz. unfold strtol, decimal.
  assert (∀ n, 0 <= n <= 9223372036854775808 →
    ∃ b l, digits 20 n [] = b :: l ∧ is_digit b = true ∧ read_digits (b :: l) 0 = (n, [])) as Hd.
  { intros n Hn. destruct (digits_head 20 n []) as (b & l & E & Hb); [lia|lia|simpl; lia|].
    destruct (read_digits_spec 20 n [] 0) as (k & _ & _ & Er); [simpl; lia|lia|].
    exists b, l. split_and!; [done|done|]. rewrite <- E, Er. reflexivity. }
  destruct (Z.ltb_spec z 0).
  - destruct (Hd (- z)) as (b & l & E & Hb & Hr); [lia|]. rewrite E.
    change (skip_space (45 :: b :: l)) with (45 :: b :: l). cbn [Z.eqb Pos.eqb].
    rewrite Hb, Hr. split; [|done]. f_equal. unfold clamp64. lia.
  - destruct (Hd z) as (b & l & E & Hb & Hr); [lia|]. rewrite E. unfold is_digit in Hb.
    apply andb_true_iff in Hb as [Hb1%Z.leb_le Hb2%Z.leb_le].
    cbn [skip_space]. unfold is_space. rewrite (proj2 (Z.eqb_neq b 32)), (proj2 (Z.leb_gt b 13)) by lia.
    rewrite andb_false_r. cbn [orb].
    rewrite (proj2 (Z.eqb_neq b 45)), (proj2 (Z.eqb_neq b 43)) by lia. unfold is_digit at 1.
    rewrite (proj2 (Z.leb_le 48 b)), (proj2 (Z.leb_le b 57)) by lia. cbn [andb]. rewrite Hr.
    split; [|done]. f_equal. unfold clamp64. lia.
Qed.
