(* ===== verification/Cxx.v ===== *)
(** * C++: exceptions, loops and strings

    What the C++ parts of the program use of the language and its library.  A
    computation of type [res A] returns ([Ok]), throws ([Throw]), touches an
    object out of its bounds ([Stray]), or shows that the fuel of a loop was
    too little ([Spin]).  A loop is [loop] over its body; [wp] is the program
    logic the safety theorems are proved in.  A [std::string] and a
    [std::vector<uint8_t>] are lists of bytes, a [size_t] is a 64-bit [Z]. *)

From stdpp Require Export sorting.
From S2P Require Import Prelude Decimal.

#[global] Open Scope Z_scope.

(** A decidable fact about concrete lists. *)
Ltac decides := apply (bool_decide_unpack _); vm_compute; exact I.

(** ** Results *)

Inductive exn :=
  | runtime_error (what : list Z)
  | out_of_range
  | invalid_argument
  | bad_alloc.

Inductive res (A : Type) :=
  | Ok (a : A)
  | Throw (e : exn)
  | Stray
  | Spin.
Arguments Ok {A} a.
Arguments Throw {A} e.
Arguments Stray {A}.
Arguments Spin {A}.

#[global] Instance res_ret : MRet res := @Ok.
#[global] Instance res_bind : MBind res := λ A B f m,
  match m with Ok a => f a | Throw e => Throw e | Stray => Stray | Spin => Spin end.
#[global] Instance res_fmap : FMap res := λ A B f m,
  match m with Ok a => Ok (f a) | Throw e => Throw e | Stray => Stray | Spin => Spin end.

(** [try { m } catch (const std::exception &) { h }] *)
Definition catch {A} (m h : res A) : res A :=
  match m with Throw _ => h | _ => m end.
(** [if (c) throw e;] *)
Definition throw_if (c : bool) (e : exn) : res () := if c then Throw e else Ok ().
Definition fail (what : string) : exn := runtime_error (cs what).

(** [m] returns a value of [Q] or throws; it stays in bounds, and if it does
    not end then [P] holds. *)
Definition wps {A} (P : Prop) (m : res A) (Q : A → Prop) : Prop :=
  match m with Ok a => Q a | Throw _ => True | Stray => False | Spin => P end.
(** It ends. *)
Abbreviation wp := (wps False).

Section wp.
Context {A B : Type} (P : Prop).
Implicit Types (m : res A) (Q : A → Prop).

Lemma wp_ret (a : A) Q : Q a → wps P (Ok a) Q.
Proof. done. Qed.
Lemma wp_bind m (f : A → res B) (Q : B → Prop) : wps P m (λ a, wps P (f a) Q) → wps P (m ≫= f) Q.
Proof. by destruct m. Qed.
Lemma wp_fmap m (f : A → B) (Q : B → Prop) : wps P m (λ a, Q (f a)) → wps P (f <$> m) Q.
Proof. by destruct m. Qed.
Lemma wp_mono m Q Q' : wps P m Q → (∀ a, Q a → Q' a) → wps P m Q'.
Proof. destruct m; naive_solver. Qed.
Lemma wp_weaken m Q : wp m Q → wps P m Q.
Proof. by destruct m. Qed.
Lemma wp_catch m h Q : wps P m Q → wps P h Q → wps P (catch m h) Q.
Proof. by destruct m. Qed.
Lemma wp_throw_if c e (Q : () → Prop) : (c = false → Q ()) → wps P (throw_if c e) Q.
Proof. destruct c; naive_solver. Qed.
Lemma wp_Ok m a Q : wps P m Q → m = Ok a → Q a.
Proof. by intros H ->. Qed.
End wp.

Lemma bind_Ok {A B} (m : res A) (f : A → res B) b : m ≫= f = Ok b ↔ ∃ a, m = Ok a ∧ f a = Ok b.
Proof. destruct m; naive_solver. Qed.
Lemma fmap_Ok {A B} (m : res A) (f : A → B) b : f <$> m = Ok b ↔ ∃ a, m = Ok a ∧ f a = b.
Proof. destruct m; naive_solver. Qed.

(** ** Loops *)

(** What one pass of a loop decides: go on with [s], or leave with [r]. *)
Inductive ctl (S R : Type) := Next (s : S) | Stop (r : R).
Arguments Next {S R} s.
Arguments Stop {S R} r.

Fixpoint loop {S R} (fuel : nat) (body : S → res (ctl S R)) (s : S) : res R :=
  match fuel with
  | O => Spin
  | S fuel => c ← body s; match c with Next s => loop fuel body s | Stop r => Ok r end
  end.

(** [for (i = from; i < from + n; ++i)]; the result is [Next] when the count
    runs out. *)
Fixpoint upto {S R} (n : nat) (from : Z) (body : Z → S → res (ctl S R)) (s : S) : res (ctl S R) :=
  match n with
  | O => Ok (Next s)
  | S n => c ← body from s; match c with Next s => upto n (from + 1) body s | Stop r => Ok (Stop r) end
  end.

Section loops.
Context {S R : Type}.
Implicit Types (body : S → res (ctl S R)).

(** An invariant and a measure that each pass makes smaller, unless [P]. *)
Lemma wps_loop P body (I : S → Prop) (m : S → Z) (Q : R → Prop) fuel s :
  (∀ s, I s → wps P (body s) (λ c,
    match c with Next s' => I s' ∧ (P ∨ 0 <= m s' < m s) | Stop r => Q r end)) →
  I s → P ∨ (Z.to_nat (m s) < fuel)%nat → wps P (loop fuel body s) Q.
Proof.
  intros Hb. revert s. induction fuel as [|fuel IH]; intros s Hs Hf; [destruct Hf; [done|lia]|].
  cbn [loop]. apply wp_bind. eapply wp_mono; [by apply Hb|]. intros [s'|r]; [|done].
  intros [Hs' Hm]. apply IH; [done|]. destruct Hf, Hm; try by left. right. lia.
Qed.
Lemma wp_loop body (I : S → Prop) (m : S → Z) (Q : R → Prop) fuel s :
  (∀ s, I s → wp (body s) (λ c,
    match c with Next s' => I s' ∧ 0 <= m s' < m s | Stop r => Q r end)) →
  I s → (Z.to_nat (m s) < fuel)%nat → wp (loop fuel body s) Q.
Proof.
  intros Hb Hs Hf. apply (wps_loop _ _ I m); [|done|by right]. intros s' Hs'.
  eapply wp_mono; [by apply Hb|]. intros [s2|r]; [|done]. intros [? ?]. split; [done|by right].
Qed.

(** The same for the fuel alone: a result other than [Spin]. *)
Lemma loop_ends body (I : S → Prop) (m : S → Z) fuel s :
  (∀ s, I s → match body s with Ok (Next s') => I s' ∧ 0 <= m s' < m s | Spin => False | _ => True end) →
  I s → (Z.to_nat (m s) < fuel)%nat → loop fuel body s ≠ Spin.
Proof.
  intros Hb. revert s. induction fuel as [|fuel IH]; intros s Hs Hf; [lia|]. cbn [loop].
  specialize (Hb s Hs). destruct (body s) as [[s'|r]| | |]; [|done..].
  destruct Hb as [Hs' Hm]. apply IH; [done|]. lia.
Qed.

(** A loop that has ended needs no more fuel. *)
Lemma loop_more body fuel k s : loop fuel body s ≠ Spin → loop (fuel + k) body s = loop fuel body s.
Proof.
  revert s. induction fuel as [|fuel IH]; intros s H; [done|]. cbn [loop Nat.add] in *.
  destruct (body s) as [[s'|r]| | |]; [|done..]. cbn [mbind res_bind] in *. by apply IH.
Qed.

(** A pass that leaves the state as it is never ends. *)
Lemma loop_stuck body s : body s = Ok (Next s) → ∀ fuel, loop fuel body s = Spin.
Proof. intros H fuel. induction fuel as [|fuel IH]; [done|]. cbn [loop]. by rewrite H. Qed.

Lemma loop_next body fuel s s' :
  body s = Ok (Next s') → loop (Datatypes.S fuel) body s = loop fuel body s'.
Proof. intros H. cbn [loop]. by rewrite H. Qed.
Lemma loop_stop body fuel s r : body s = Ok (Stop r) → loop (Datatypes.S fuel) body s = Ok r.
Proof. intros H. cbn [loop]. by rewrite H. Qed.

Lemma wp_upto P (body : Z → S → res (ctl S R)) (I : Z → S → Prop) (Q : R → Prop) n from s :
  (∀ i s, from <= i < from + Z.of_nat n → I i s →
    wps P (body i s) (λ c, match c with Next s' => I (i + 1) s' | Stop r => Q r end)) →
  I from s →
  wps P (upto n from body s) (λ c, match c with Next s' => I (from + Z.of_nat n) s' | Stop r => Q r end).
Proof.
  revert from s. induction n as [|n IH]; intros from s Hb Hs; cbn [upto].
  { cbn. by rewrite Z.add_0_r. }
  apply wp_bind. eapply wp_mono; [apply Hb; [lia|done]|]. intros [s'|r]; [|done]. intros Hs'.
  replace (from + Z.of_nat (Datatypes.S n)) with (from + 1 + Z.of_nat n) by lia.
  apply IH; [|done]. intros i s1 Hi. apply Hb. lia.
Qed.
End loops.

(** ** Strings *)

Definition npos : Z := 18446744073709551615.
Definition size (s : list Z) : Z := Z.of_nat (length s).

Fixpoint is_prefix (p s : list Z) : bool :=
  match p, s with
  | [], _ => true
  | a :: p, b :: s => (a =? b) && is_prefix p s
  | _, _ => false
  end.

(** [s.find(p, pos)] *)
Fixpoint find_at (p s : list Z) (i : Z) : Z :=
  if is_prefix p s then i else match s with [] => npos | _ :: s => find_at p s (i + 1) end.
Definition str_find (s p : list Z) (pos : Z) : Z :=
  if size s <? pos then npos else find_at p (drop (Z.to_nat pos) s) pos.

(** [s.find_first_of(set, pos)] *)
Fixpoint first_of_at (set s : list Z) (i : Z) : Z :=
  match s with
  | [] => npos
  | b :: s => if existsb (Z.eqb b) set then i else first_of_at set s (i + 1)
  end.
Definition str_find_first_of (s set : list Z) (pos : Z) : Z :=
  if size s <? pos then npos else first_of_at set (drop (Z.to_nat pos) s) pos.

(** [s.find_last_of(c)] *)
Fixpoint last_of_at (c : Z) (s : list Z) (i last : Z) : Z :=
  match s with
  | [] => last
  | b :: s => last_of_at c s (i + 1) (if b =? c then i else last)
  end.
Definition str_find_last_of (s : list Z) (c : Z) : Z := last_of_at c s 0 npos.

(** [s.substr(pos, n)] *)
Definition substr (s : list Z) (pos n : Z) : res (list Z) :=
  if size s <? pos then Throw out_of_range
  else Ok (take (Z.to_nat (Z.min n (size s - pos))) (drop (Z.to_nat pos) s)).

(** [v[i]] of a string or a vector *)
Definition at_ {A} (v : list A) (i : Z) : res A :=
  if 0 <=? i then match v !! Z.to_nat i with Some b => Ok b | None => Stray end else Stray.

(** [std::string(p + pos, p + pos + n)] of the bytes of a vector *)
Definition range (v : list Z) (pos n : Z) : res (list Z) :=
  if (0 <=? pos) && (0 <=? n) && (pos + n <=? size v)
  then Ok (take (Z.to_nat n) (drop (Z.to_nat pos) v)) else Stray.

(** [s == "..."] *)
Definition eq_str (s t : list Z) : bool := bool_decide (s = t).
(** [s.find(p) != std::string::npos] *)
Definition contains (s p : list Z) : bool := negb (str_find s p 0 =? npos).

(** The classes of <cctype> in the C locale. *)
Definition is_upper (b : Z) : bool := (65 <=? b) && (b <=? 90).
Definition is_lower (b : Z) : bool := (97 <=? b) && (b <=? 122).
Definition is_alnum (b : Z) : bool := is_upper b || is_lower b || is_digit b.
Definition to_lower (b : Z) : Z := if is_upper b then b + 32 else b.

(** Strings are ordered as [std::string::compare] does, byte by byte. *)
Fixpoint str_leb (s t : list Z) : bool :=
  match s, t with
  | [], _ => true
  | _ :: _, [] => false
  | a :: s, b :: t => (a <? b) || ((a =? b) && str_leb s t)
  end.
Definition str_le (s t : list Z) : Prop := Is_true (str_leb s t).
#[global] Instance str_le_dec : RelDecision str_le := λ s t, decide (Is_true (str_leb s t)).
Definition sort_strings : list (list Z) → list (list Z) := merge_sort str_le.

(** A vector or a string the allocator can give: at most half the address
    space, so that sums of positions do not wrap. *)
Definition fits (v : list Z) : Prop := bytes v ∧ size v < 4611686018427387904.

(** ** What the string functions find *)

Lemma size_nonneg v : 0 <= size v.
Proof. unfold size. lia. Qed.
Lemma size_app v w : size (v ++ w) = size v + size w.
Proof. unfold size. rewrite length_app. lia. Qed.
Lemma size_cons b v : size (b :: v) = 1 + size v.
Proof. unfold size. cbn [length]. lia. Qed.
Lemma size_nil : size [] = 0.
Proof. done. Qed.
Lemma size_le_split n z : size (le_split n z) = Z.of_nat n.
Proof. unfold size. by rewrite length_le_split. Qed.
Create Rewrite HintDb size.
#[export] Hint Rewrite size_app size_cons size_nil size_le_split : size.
Ltac sizes := autorewrite with size in *.

Lemma drop_size_app (v w : list Z) : drop (Z.to_nat (size v)) (v ++ w) = w.
Proof. unfold size. rewrite Nat2Z.id. apply drop_app_length. Qed.
Lemma take_size_app (v w : list Z) : take (Z.to_nat (size v)) (v ++ w) = v.
Proof. unfold size. rewrite Nat2Z.id. apply take_app_length. Qed.
(** A position inside of a string cuts it in two. *)
Lemma split_size (v : list Z) k : 0 <= k <= size v → ∃ a b, v = a ++ b ∧ size a = k.
Proof.
  intros Hk. exists (take (Z.to_nat k) v), (drop (Z.to_nat k) v). split; [by rewrite take_drop|].
  unfold size in *. rewrite length_take. lia.
Qed.

Lemma is_prefix_spec p s : is_prefix p s = true ↔ ∃ t, s = p ++ t.
Proof.
  revert s. induction p as [|a p IH]; intros s; cbn [is_prefix].
  { split; [by exists s|done]. }
  destruct s as [|b s]; [split; [done|]; by intros [t ?]|].
  rewrite andb_true_iff, Z.eqb_eq, IH. split.
  - intros [-> [t ->]]. by exists t.
  - intros [t [= -> ->]]. split; [done|]. by exists t.
Qed.
Lemma is_prefix_app p t : is_prefix p (p ++ t) = true.
Proof. apply is_prefix_spec. by exists t. Qed.

(** The least match of a pattern, or that there is none. *)
Lemma find_at_spec p s i :
  (find_at p s i = npos ∧ ∀ a b, s ≠ a ++ p ++ b) ∨
  ∃ a b, s = a ++ p ++ b ∧ find_at p s i = i + size a ∧
    (∀ a' b', s = a' ++ p ++ b' → size a <= size a').
Proof.
  revert i. induction s as [|x s IH]; intros i; cbn [find_at].
  - destruct (is_prefix p []) eqn:E.
    + apply is_prefix_spec in E as [t E]. right. exists [], t. split_and!; [done|sizes; lia|].
      intros. apply size_nonneg.
    + left. split; [done|]. intros a b Hab. symmetry in Hab.
      apply app_eq_nil in Hab as [-> Hp]. by rewrite <- Hp, is_prefix_app in E.
  - destruct (is_prefix p (x :: s)) eqn:E.
    + apply is_prefix_spec in E as [t E]. right. exists [], t. split_and!; [done|sizes; lia|].
      intros. apply size_nonneg.
    + assert (∀ a b, x :: s = a ++ p ++ b → ∃ a', a = x :: a' ∧ s = a' ++ p ++ b) as Hc.
      { intros [|y a] b Hab; [cbn [app] in Hab; by rewrite Hab, is_prefix_app in E|]. injection Hab as <- Hab.
        by exists a. }
      destruct (IH (i + 1)) as [[Hn Hno]|(a & b & -> & Hf & Hl)].
      * left. split; [done|]. intros a b Hab. apply Hc in Hab as (a' & _ & ->). by eapply Hno.
      * right. exists (x :: a), b. split_and!; [done|rewrite Hf; sizes; lia|].
        intros a' b' Hab. apply Hc in Hab as (a2 & -> & Hab). apply Hl in Hab. sizes. lia.
Qed.

(** What [find] answers: nothing, or the place of a match. *)
Lemma str_find_cases s p pos : 0 <= pos →
  str_find s p pos = npos ∨
  ∃ a b, s = a ++ p ++ b ∧ str_find s p pos = size a ∧ pos <= size a.
Proof.
  intros Hp. unfold str_find. destruct (Z.ltb_spec (size s) pos); [by left|].
  destruct (split_size s pos) as (u & w & -> & <-); [lia|]. rewrite drop_size_app.
  destruct (find_at_spec p w (size u)) as [[-> _]|(a & b & -> & -> & _)]; [by left|]. right.
  exists (u ++ a), b. rewrite <- app_assoc, size_app. pose proof (size_nonneg a). split_and!; [done|done|lia].
Qed.
Lemma first_of_at_spec set s i :
  first_of_at set s i = npos ∨ i <= first_of_at set s i < i + size s.
Proof.
  revert i. induction s as [|b s IH]; intros i; cbn [first_of_at]; [by left|].
  pose proof (size_nonneg s). rewrite size_cons. destruct (existsb _ _); [right; lia|].
  destruct (IH (i + 1)); [by left|right; lia].
Qed.
Lemma str_find_first_of_cases s set pos : 0 <= pos →
  str_find_first_of s set pos = npos ∨ pos <= str_find_first_of s set pos < size s.
Proof.
  intros Hp. unfold str_find_first_of. destruct (Z.ltb_spec (size s) pos); [by left|].
  destruct (split_size s pos) as (u & w & -> & <-); [lia|]. rewrite drop_size_app.
  destruct (first_of_at_spec set w (size u)); [by left|right]. rewrite size_app. lia.
Qed.

(** [find] from a position [size u] of [u ++ s]. *)
Lemma str_find_app u s p :
  str_find (u ++ s) p (size u) = find_at p s (size u).
Proof.
  unfold str_find. rewrite drop_size_app. sizes. pose proof (size_nonneg s).
  by rewrite (proj2 (Z.ltb_ge _ _)) by lia.
Qed.

(** Finding a byte: the first field of what follows the position, if a
    separator ends it. *)
Lemma find_char u s c :
  (str_find (u ++ s) [c] (size u) = npos ∧ c ∉ s) ∨
  ∃ f r, s = f ++ c :: r ∧ c ∉ f ∧ str_find (u ++ s) [c] (size u) = size u + size f.
Proof.
  rewrite str_find_app. destruct (find_at_spec [c] s (size u)) as [[-> Hno]|(a & b & -> & Hf & Hl)].
  - left. split; [done|]. intros (a & b & ->)%list_elem_of_split. by eapply (Hno a b).
  - right. exists a, b. split_and!; [done| |done]. intros (a1 & a2 & ->)%list_elem_of_split.
    specialize (Hl a1 (a2 ++ c :: b)). simplify_list_eq. specialize (Hl eq_refl). sizes.
    pose proof (size_nonneg a2). lia.
Qed.

(** [substr] at a position [size u]. *)
Lemma substr_app u s n : 0 <= n →
  substr (u ++ s) (size u) n = Ok (take (Z.to_nat (Z.min n (size s))) s).
Proof.
  intros Hn. unfold substr. sizes. pose proof (size_nonneg s).
  rewrite (proj2 (Z.ltb_ge _ _)) by lia. rewrite drop_size_app.
  by replace (size u + size s - size u) with (size s) by lia.
Qed.
Lemma substr_all u s n : size s <= n → substr (u ++ s) (size u) n = Ok s.
Proof.
  intros Hn. pose proof (size_nonneg s). rewrite substr_app, Z.min_r by lia. f_equal.
  apply take_ge. unfold size. lia.
Qed.
Lemma wp_substr P s pos n (Q : list Z → Prop) :
  (∀ t, (bytes s → bytes t) → size t <= size s → Q t) → wps P (substr s pos n) Q.
Proof.
  intros HQ. unfold substr. destruct (_ <? _); [done|]. apply HQ.
  - intros Hb. by apply Forall_take, Forall_drop.
  - unfold size. rewrite length_take, length_drop. lia.
Qed.
Lemma substr_field u f r : substr (u ++ f ++ r) (size u) (size f) = Ok f.
Proof.
  pose proof (size_nonneg f). pose proof (size_nonneg r).
  rewrite substr_app, Z.min_l by (sizes; lia). by rewrite take_size_app.
Qed.

Lemma at_app {A} (u : list A) x w : at_ (u ++ x :: w) (Z.of_nat (length u)) = Ok x.
Proof.
  unfold at_. rewrite (proj2 (Z.leb_le _ _)) by lia. rewrite Nat2Z.id.
  rewrite lookup_app_r by lia. by rewrite Nat.sub_diag.
Qed.
Lemma at_Ok {A} (v : list A) i : 0 <= i < Z.of_nat (length v) → ∃ x, at_ v i = Ok x ∧ v !! Z.to_nat i = Some x.
Proof.
  intros Hi. destruct (lookup_lt_is_Some_2 v (Z.to_nat i)) as [x Hx]; [lia|]. exists x.
  unfold at_. by rewrite (proj2 (Z.leb_le _ _)), Hx by lia.
Qed.
Lemma range_app u s w : range (u ++ s ++ w) (size u) (size s) = Ok s.
Proof.
  unfold range. pose proof (size_nonneg u). pose proof (size_nonneg s). pose proof (size_nonneg w).
  rewrite !(proj2 (Z.leb_le _ _)) by (sizes; lia). cbn [andb].
  by rewrite drop_size_app, take_size_app.
Qed.
Lemma wp_range P v pos n (Q : list Z → Prop) :
  0 <= pos → 0 <= n → pos + n <= size v →
  Q (take (Z.to_nat n) (drop (Z.to_nat pos) v)) → wps P (range v pos n) Q.
Proof. intros. unfold range. by rewrite !(proj2 (Z.leb_le _ _)) by lia. Qed.
Lemma wp_at {A} P (v : list A) i (Q : A → Prop) :
  0 <= i < Z.of_nat (length v) → (∀ x, v !! Z.to_nat i = Some x → Q x) → wps P (at_ v i) Q.
Proof. intros Hi HQ. destruct (at_Ok v i Hi) as (x & -> & Hx). by apply HQ. Qed.

(** ** Splitting *)

(** The fields of a string between separators. *)
Fixpoint split_on (c : Z) (s : list Z) : list (list Z) :=
  match s with
  | [] => [[]]
  | b :: s => if b =? c then [] :: split_on c s
              else match split_on c s with f :: fs => (b :: f) :: fs | [] => [[b]] end
  end.

Lemma split_on_none c s : c ∉ s → split_on c s = [s].
Proof.
  induction s as [|b s IH]; [done|]. intros [Hb Hs]%not_elem_of_cons. cbn [split_on].
  rewrite (proj2 (Z.eqb_neq b c)) by congruence. by rewrite IH.
Qed.
Lemma split_on_field c f r : c ∉ f → split_on c (f ++ c :: r) = f :: split_on c r.
Proof.
  induction f as [|b f IH]; cbn [app split_on]; [by rewrite Z.eqb_refl|].
  intros [Hb Hf]%not_elem_of_cons. rewrite (proj2 (Z.eqb_neq b c)) by congruence. by rewrite IH.
Qed.
Lemma split_on_nonempty c s : split_on c s ≠ [].
Proof. destruct s as [|b s]; cbn [split_on]; [done|]. destruct (b =? c); [done|]. by destruct (split_on c s). Qed.
Lemma split_on_no_sep c s f : f ∈ split_on c s → c ∉ f.
Proof.
  revert f. induction s as [|b s IH]; intros f; cbn [split_on].
  { intros ->%list_elem_of_singleton. set_solver. }
  destruct (Z.eqb_spec b c) as [->|Hne].
  - intros [->|Hf]%elem_of_cons; [set_solver|by apply IH].
  - destruct (split_on c s) as [|g gs] eqn:E; [by apply split_on_nonempty in E|].
    intros [->|Hf]%elem_of_cons.
    + specialize (IH g ltac:(set_solver)). set_solver.
    + apply IH. set_solver.
Qed.

(** The field at a position and where the next one starts, as loops over
    separators compute them. *)
Lemma next_field u s c : size (u ++ s) < 4611686018427387904 →
  let end_ := str_find (u ++ s) [c] (size u) in
  let field := substr (u ++ s) (size u) (u64 (end_ - size u)) in
  (end_ = npos ∧ field = Ok s ∧ split_on c s = [s]) ∨
  ∃ f r, s = f ++ c :: r ∧ end_ ≠ npos ∧ field = Ok f ∧ u64 (end_ + 1) = size (u ++ f ++ [c]) ∧
    split_on c s = f :: split_on c r.
Proof.
  intros Hs. cbv zeta. pose proof (size_nonneg u). pose proof (size_nonneg s). sizes.
  destruct (find_char u s c) as [[-> Hn]|(f & r & -> & Hf & ->)].
  - left. rewrite substr_all by (unfold npos; rewrite u64_small by (unfold in_u64; lia); lia).
    by rewrite split_on_none.
  - right. exists f, r. pose proof (size_nonneg f). pose proof (size_nonneg r). sizes.
    replace (size u + size f - size u) with (size f) by lia.
    rewrite (u64_small (size f)), substr_field, u64_small by (unfold in_u64; lia).
    rewrite split_on_field by done. split_and!; try done; [unfold npos; lia|lia].
Qed.

(** ** Sorted names *)

#[global] Instance str_le_total : Total str_le.
Proof.
  intros s t. unfold str_le. revert t. induction s as [|a s IH]; intros [|b t]; cbn; [tauto..|].
  destruct (Z.lt_trichotomy a b) as [H|[->|H]].
  - left. by rewrite (proj2 (Z.ltb_lt a b)).
  - rewrite Z.ltb_irrefl, Z.eqb_refl. cbn. apply IH.
  - right. by rewrite (proj2 (Z.ltb_lt b a)).
Qed.
#[global] Instance str_le_trans : Transitive str_le.
Proof.
  unfold str_le. intros s t u. revert t u. induction s as [|a s IH]; intros [|b t] [|c u]; cbn; try done.
  rewrite !Is_true_true, !orb_true_iff, !andb_true_iff, !Z.ltb_lt, !Z.eqb_eq.
  intros [H|[-> H]] [H'|[-> H']]; [lia| lia|lia|]. right. split; [done|].
  rewrite <- Is_true_true in *. by eapply IH.
Qed.
#[global] Instance str_le_antisymm : AntiSymm eq str_le.
Proof.
  unfold str_le. intros s t. revert t. induction s as [|a s IH]; intros [|b t]; cbn; try done.
  rewrite !Is_true_true, !orb_true_iff, !andb_true_iff, !Z.ltb_lt, !Z.eqb_eq.
  intros [H|[-> H]] [H'|[H1 H']]; try lia. f_equal. apply IH; by apply Is_true_true.
Qed.
Lemma sort_strings_Permutation l : sort_strings l ≡ₚ l.
Proof. apply merge_sort_Permutation. Qed.
Lemma sort_strings_Sorted l : StronglySorted str_le (sort_strings l).
Proof. apply StronglySorted_merge_sort; apply _. Qed.
(** The order of the names given does not matter. *)
Lemma sort_strings_unique l k : l ≡ₚ k → sort_strings l = sort_strings k.
Proof.
  intros H. eapply StronglySorted_unique; [apply _|apply sort_strings_Sorted..|].
  by rewrite !sort_strings_Permutation.
Qed.
