(* ===== verification/ApkZip.v ===== *)
(** * APK files as ZIP archives

    platform/android-aarch64/apk/apk_envelope.cpp:19-243: the central
    directory is found from the end of the file and read entry by entry; the
    data of an entry is found by its local header and stored or deflated.
    zlib is a parameter.  At the end, paths of the host. *)

From S2P Require Import Prelude Decimal Cxx.

(** Raw inflation of [src] into a buffer of [avail_out] bytes with Z_FINISH:
    the result code and the bytes written. *)
Class Zlib := {
  inflateInit2 : Z;
  inflate : list Z → Z → Z * list Z;
}.
(** What zlib promises: it writes bytes, and not past the buffer. *)
Class ZlibLaws (z : Zlib) := {
  inflate_bytes src n : bytes (inflate src n).2;
  inflate_bound src n : 0 <= n → size (inflate src n).2 <= n;
}.

Definition Z_OK : Z := 0.
Definition Z_STREAM_END : Z := 1.

(** platform/android-aarch64/apk/apk_envelope.cpp:20-27 (ZipEntry) *)
Record ZipEntry := Entry {
  ze_name : list Z;
  ze_flags : Z;
  ze_method : Z;
  ze_compressed_size : Z;
  ze_uncompressed_size : Z;
  ze_local_header_offset : Z;
}.

(** platform/android-aarch64/apk/apk_envelope.cpp:29-34 (read_u16) *)
Definition read_u16 (data : list Z) (off : Z) : res Z :=
  _ ← throw_if (size data <? u64 (off + 2)) (fail "APK zip header truncated");
  b0 ← at_ data off;
  b1 ← at_ data (u64 (off + 1));
  Ok (u16 (Z.lor b0 (Z.shiftl b1 8))).

(** platform/android-aarch64/apk/apk_envelope.cpp:36-44 (read_u32) *)
Definition read_u32 (data : list Z) (off : Z) : res Z :=
  _ ← throw_if (size data <? u64 (off + 4)) (fail "APK zip header truncated");
  b0 ← at_ data off;
  b1 ← at_ data (u64 (off + 1));
  b2 ← at_ data (u64 (off + 2));
  b3 ← at_ data (u64 (off + 3));
  Ok (Z.lor (Z.lor (Z.lor b0 (Z.shiftl b1 8)) (Z.shiftl b2 16)) (Z.shiftl b3 24)).

(** ** The central directory *)

(** platform/android-aarch64/apk/apk_envelope.cpp:68-71 (read_zip_entries) *)
Definition EOCD_SIG : Z := 0x06054b50.
Definition CEN_SIG : Z := 0x02014b50.
Definition EOCD_MIN_SIZE : Z := 22.
Definition EOCD_MAX_COMMENT : Z := 65535.

(** platform/android-aarch64/apk/apk_envelope.cpp:80-85 (read_zip_entries)
    One pass of the search from the end; [npos] when it is over. *)
Definition eocd_body (apk : list Z) (search_start off : Z) : res (ctl Z Z) :=
  if search_start <? off then
    let off := off - 1 in
    sig ← read_u32 apk off;
    Ok (if sig =? EOCD_SIG then Stop off else Next off)
  else Ok (Stop npos).

(** platform/android-aarch64/apk/apk_envelope.cpp:76-85 (read_zip_entries) *)
Definition find_eocd (apk : list Z) : res Z :=
  let search_start :=
    if EOCD_MIN_SIZE + EOCD_MAX_COMMENT <? size apk
    then size apk - (EOCD_MIN_SIZE + EOCD_MAX_COMMENT) else 0 in
  loop (S (length apk)) (eocd_body apk search_start) (size apk - EOCD_MIN_SIZE + 1).

(** platform/android-aarch64/apk/apk_envelope.cpp:98-121 (read_zip_entries)
    One entry of the central directory. *)
Definition entry_body (apk : list Z) (i : Z) (st : Z * list ZipEntry)
  : res (ctl (Z * list ZipEntry) (list ZipEntry)) :=
  let '(off, entries) := st in
  let invalid := fail "APK central directory entry is invalid" in
  _ ← throw_if (size apk <? u64 (off + 46)) invalid;
  sig ← read_u32 apk off;
  _ ← throw_if (negb (sig =? CEN_SIG)) invalid;
  name_len ← read_u16 apk (u64 (off + 28));
  extra_len ← read_u16 apk (u64 (off + 30));
  comment_len ← read_u16 apk (u64 (off + 32));
  let next := u64 (off + 46 + name_len + extra_len + comment_len) in
  _ ← throw_if (size apk <? next) (fail "APK central directory entry is truncated");
  flags ← read_u16 apk (u64 (off + 8));
  method ← read_u16 apk (u64 (off + 10));
  compressed_size ← read_u32 apk (u64 (off + 20));
  uncompressed_size ← read_u32 apk (u64 (off + 24));
  local_header_offset ← read_u32 apk (u64 (off + 42));
  name ← range apk (u64 (off + 46)) name_len;
  Ok (Next (next, entries ++ [Entry name flags method compressed_size uncompressed_size
                                local_header_offset])).

(** platform/android-aarch64/apk/apk_envelope.cpp:66-123 (read_zip_entries) *)
Definition read_zip_entries (apk : list Z) : res (list ZipEntry) :=
  _ ← throw_if (size apk <? EOCD_MIN_SIZE) (fail "APK is too small to be a zip file");
  eocd ← find_eocd apk;
  _ ← throw_if (eocd =? npos) (fail "APK zip end-of-central-directory not found");
  entry_count ← read_u16 apk (u64 (eocd + 10));
  central_size ← read_u32 apk (u64 (eocd + 12));
  central_off ← read_u32 apk (u64 (eocd + 16));
  _ ← throw_if ((central_off =? 0xffffffff) || (central_size =? 0xffffffff))
        (fail "ZIP64 APKs are not supported yet");
  _ ← throw_if (size apk <? central_off + central_size)
        (fail "APK central directory is out of bounds");
  c ← upto (Z.to_nat entry_count) 0 (entry_body apk) (central_off, []);
  Ok (match c with Next (_, entries) => entries | Stop entries => entries end).

(** ** The data of an entry *)

(** platform/android-aarch64/apk/apk_envelope.cpp:128 (LOC_SIG) *)
Definition LOC_SIG : Z := 0x04034b50.

Section Extract.
Context `{Zlib}.

(** platform/android-aarch64/apk/apk_envelope.cpp:125-166 (extract_entry_data) *)
Definition extract_entry_data (apk : list Z) (entry : ZipEntry) : res (list Z) :=
  let off := ze_local_header_offset entry in
  let invalid := runtime_error (cs "APK local zip header is invalid for " ++ ze_name entry) in
  _ ← throw_if (size apk <? u64 (off + 30)) invalid;
  sig ← read_u32 apk off;
  _ ← throw_if (negb (sig =? LOC_SIG)) invalid;
  name_len ← read_u16 apk (u64 (off + 26));
  extra_len ← read_u16 apk (u64 (off + 28));
  let data_off := u64 (off + 30 + name_len + extra_len) in
  _ ← throw_if (size apk <? u64 (data_off + ze_compressed_size entry))
        (runtime_error (cs "APK entry data is truncated for " ++ ze_name entry));
  src ← range apk data_off (ze_compressed_size entry);
  if ze_method entry =? 0 then Ok src
  else
    _ ← throw_if (negb (ze_method entry =? 8))
          (runtime_error (cs "unsupported APK zip compression method " ++
             decimal (ze_method entry) ++ cs " for " ++ ze_name entry));
    _ ← throw_if (negb (inflateInit2 =? Z_OK)) (fail "zlib inflateInit2 failed");
    let '(rc, out) := inflate src (ze_uncompressed_size entry) in
    _ ← throw_if (negb (rc =? Z_STREAM_END) || negb (size out =? ze_uncompressed_size entry))
          (runtime_error (cs "zlib inflate failed for " ++ ze_name entry));
    Ok out.
End Extract.

(** ** Names *)

(** platform/android-aarch64/apk/apk_envelope.cpp:168-171 (starts_with)
    [value.rfind(prefix, 0) == 0] *)
Definition starts_with (value prefix : list Z) : bool := is_prefix prefix value.

(** platform/android-aarch64/apk/apk_envelope.cpp:173-178 (ends_with) *)
Definition ends_with (value suffix : list Z) : bool :=
  (size suffix <=? size value) &&
  eq_str (take (length suffix) (drop (length value - length suffix) value)) suffix.

(** platform/android-aarch64/apk/apk_envelope.cpp:180-186 (is_root_dex) *)
Definition is_root_dex (path : list Z) : bool :=
  if negb (str_find path (cs "/") 0 =? npos) then false
  else eq_str path (cs "classes.dex") ||
       (starts_with path (cs "classes") && ends_with path (cs ".dex")).

(** platform/android-aarch64/apk/apk_envelope.cpp:197-206 (safe_zip_path)
    One component of the path. *)
Definition safe_body (path : list Z) (start : Z) : res (ctl Z bool) :=
  if start <=? size path then
    let end_ := str_find path (cs "/") start in
    part ← substr path start (if end_ =? npos then npos else u64 (end_ - start));
    Ok (if eq_str part (cs "..") then Stop false
        else if end_ =? npos then Stop true
        else Next (u64 (end_ + 1)))
  else Ok (Stop true).

(** platform/android-aarch64/apk/apk_envelope.cpp:188-208 (safe_zip_path) *)
Definition safe_zip_path (path : list Z) : res bool :=
  if eq_str path [] || starts_with path (cs "/") ||
     negb (str_find path (cs "\") 0 =? npos) || negb (str_find path (cs ":") 0 =? npos)
  then Ok false
  else loop (S (length path)) (safe_body path) 0.

(** platform/android-aarch64/apk/apk_envelope.cpp:210-214 (filename_from_zip_path) *)
Definition filename_from_zip_path (path : list Z) : res (list Z) :=
  let slash := str_find_last_of path 47 in
  if slash =? npos then Ok path else substr path (u64 (slash + 1)) npos.

(** platform/android-aarch64/apk/apk_envelope.cpp:216-224 (lib_base_name) *)
Definition lib_base_name (filename : list Z) : res (list Z) :=
  base ← filename_from_zip_path filename;
  if starts_with base (cs "lib") && ends_with base (cs ".so")
  then substr base 3 (u64 (size base - 6))
  else if ends_with base (cs ".so") then substr base 0 (u64 (size base - 3))
  else Ok base.

(** platform/android-aarch64/apk/apk_envelope.cpp:226-231 (lib_name_matches) *)
Definition lib_name_matches (entry_name requested : list Z) : res bool :=
  filename ← filename_from_zip_path entry_name;
  if eq_str requested filename then Ok true
  else base ← lib_base_name filename; Ok (eq_str requested base).

(** platform/android-aarch64/apk/apk_envelope.cpp:233-243 (sanitize_path_component) *)
Definition sanitize_path_component (value : list Z) : list Z :=
  let value := (λ c, if negb (is_alnum c) && negb (c =? 45) && negb (c =? 95) && negb (c =? 46)
                     then 95 else c) <$> value in
  if eq_str value [] then cs "apk" else value.

(** ** Paths of the host

    std::filesystem::path on the host, as far as the program joins and takes
    apart paths: strings with slashes. *)

(** [a / b] *)
Definition path_join (a b : list Z) : list Z :=
  if starts_with b (cs "/") || eq_str a [] then b
  else if ends_with a (cs "/") then a ++ b else a ++ cs "/" ++ b.
(** platform/android-aarch64/elf/guest_runner.cpp:627-630 (path_filename) [path.filename()] *)
Definition path_filename (p : list Z) : list Z :=
  let i := str_find_last_of p 47 in if i =? npos then p else drop (Z.to_nat (i + 1)) p.
(** [path.stem()], [path.parent_path()] *)
Definition path_stem (p : list Z) : list Z :=
  let f := path_filename p in
  let i := str_find_last_of f 46 in
  if eq_str f (cs ".") || eq_str f (cs "..") || (i =? npos) || (i =? 0) then f
  else take (Z.to_nat i) f.
Fixpoint strip_slashes (rev_p : list Z) : list Z :=
  match rev_p with b :: r => if b =? 47 then strip_slashes r else rev_p | [] => [] end.
Definition path_parent (p : list Z) : list Z :=
  let i := str_find_last_of p 47 in
  if i =? npos then []
  else let d := reverse (strip_slashes (reverse (take (Z.to_nat i) p))) in
       if eq_str d [] then cs "/" else d.
