(* ===== verification/ApkZipProps.v ===== *)
(** * Reading ZIP archives: bounds and round trip

    The readers of ApkZip stay inside of the file and end, whatever it
    holds; an archive written as the ZIP format says is read back, entry by
    entry, with the data of each; and a path that passes [safe_zip_path] stays
    below the directory it is put in. *)

From S2P Require Import Prelude Decimal Cxx ApkZip.

(** ** Fields *)

Lemma fits_app u v : fits (u ++ v) ↔ bytes u ∧ bytes v ∧ size u + size v < 4611686018427387904.
Proof. unfold fits, bytes. rewrite Forall_app, size_app. tauto. Qed.
Lemma fits_take n v : fits v → fits (take n v).
Proof. intros [Hb Hs]. split; [by apply bytes_take|]. unfold size in *. rewrite length_take. lia. Qed.

(** Sums of positions in a vector do not wrap. *)
Ltac unwrap := repeat match goal with
  | |- context [u64 ?z] =>
      lazymatch z with context [u64 _] => fail | _ => rewrite (u64_small z) by (words; lia) end
  end.

(** The number in [n] bytes at a position. *)
Definition field (n : nat) (data : list Z) (off : Z) : Z :=
  le_combine (take n (drop (Z.to_nat off) data)).

Lemma field_range n data off :
  bytes data → 0 <= field n data off < 256 ^ Z.of_nat n.
Proof.
  intros Hb. unfold field.
  pose proof (le_combine_range _ (bytes_take n _ (bytes_drop (Z.to_nat off) _ Hb))) as H.
  rewrite length_take in H. split; [lia|]. eapply Z.lt_le_trans; [apply H|].
  apply Z.pow_le_mono_r; lia.
Qed.
Lemma field_skip n u x off : size u <= off → field n (u ++ x) off = field n x (off - size u).
Proof.
  intros H. unfold field, size in *. do 2 f_equal. rewrite drop_app_ge by lia. f_equal. lia.
Qed.
Lemma field_here n z x : field n (le_split n z ++ x) 0 = z mod 256 ^ Z.of_nat n.
Proof.
  unfold field. change (drop (Z.to_nat 0) ?l) with l.
  replace (take n (le_split n z ++ x)) with (le_split n z); [apply le_combine_split|].
  rewrite take_app_le by (rewrite length_le_split; lia). rewrite take_ge; [done|].
  rewrite length_le_split. lia.
Qed.

(** The bytes from a position on. *)
Lemma drop_at data off : 0 <= off < size data →
  ∃ b, at_ data off = Ok b ∧ drop (Z.to_nat off) data = b :: drop (Z.to_nat (off + 1)) data ∧
    (bytes data → in_u8 b).
Proof.
  intros H. destruct (at_Ok data off) as (b & E & Hl); [unfold size in H; lia|].
  exists b. split_and!; [done| |intros Hb; by eapply Forall_lookup_1].
  rewrite (drop_S _ _ _ Hl). f_equal. f_equal. lia.
Qed.

Ltac byte_at data off b D R :=
  let E := fresh "E" in
  destruct (drop_at data off) as (b & E & D & R); [lia|]; rewrite E; cbn [mbind res_bind].

Lemma read_u16_eq data off : fits data → 0 <= off < 9223372036854775808 →
  read_u16 data off = if size data <? off + 2 then Throw (fail "APK zip header truncated")
                      else Ok (field 2 data off).
Proof.
  intros [Hb Hs] Ho. unfold read_u16. unwrap.
  destruct (Z.ltb_spec (size data) (off + 2)); [done|]. cbn [throw_if mbind res_bind]. unwrap.
  byte_at data off b D R. byte_at data (off + 1) b0 D0 R0. f_equal. unfold field. rewrite D, D0. cbn [take le_combine].
  rewrite take_0. cbn [le_combine].
  specialize (R Hb). specialize (R0 Hb). words. rewrite lor_shiftl_add by (change (2 ^ 8) with 256; lia).
  change (2 ^ 8) with 256. rewrite Z.mod_small by lia. lia.
Qed.

Lemma read_u32_eq data off : fits data → 0 <= off < 9223372036854775808 →
  read_u32 data off = if size data <? off + 4 then Throw (fail "APK zip header truncated")
                      else Ok (field 4 data off).
Proof.
  intros [Hb Hs] Ho. unfold read_u32. unwrap.
  destruct (Z.ltb_spec (size data) (off + 4)); [done|]. cbn [throw_if mbind res_bind]. unwrap.
  replace (off + 2) with (off + 1 + 1) by lia. replace (off + 3) with (off + 1 + 1 + 1) by lia.
  byte_at data off b D R. byte_at data (off + 1) b0 D0 R0.
  byte_at data (off + 1 + 1) b1 D1 R1. byte_at data (off + 1 + 1 + 1) b2 D2 R2. f_equal. unfold field. rewrite D, D0, D1, D2. cbn [take le_combine].
  rewrite take_0. cbn [le_combine].
  specialize (R Hb). specialize (R0 Hb). specialize (R1 Hb). specialize (R2 Hb). words.
  pose proof eq_refl : 2 ^ 8 = 256. pose proof eq_refl : 2 ^ 16 = 65536.
  pose proof eq_refl : 2 ^ 24 = 16777216.
  rewrite (lor_shiftl_add b), (lor_shiftl_add _ _ 16), (lor_shiftl_add _ _ 24) by lia. lia.
Qed.

Lemma wp_read_u16 P data off (Q : Z → Prop) : fits data → 0 <= off < 9223372036854775808 →
  (off + 2 <= size data → in_u16 (field 2 data off) → Q (field 2 data off)) → wps P (read_u16 data off) Q.
Proof.
  intros Hf Ho HQ. rewrite read_u16_eq by done. destruct (Z.ltb_spec (size data) (off + 2)); [done|].
  apply HQ; [lia|]. apply (field_range 2). apply Hf.
Qed.
Lemma wp_read_u32 P data off (Q : Z → Prop) : fits data → 0 <= off < 9223372036854775808 →
  (off + 4 <= size data → in_u32 (field 4 data off) → Q (field 4 data off)) → wps P (read_u32 data off) Q.
Proof.
  intros Hf Ho HQ. rewrite read_u32_eq by done. destruct (Z.ltb_spec (size data) (off + 4)); [done|].
  apply HQ; [lia|]. apply (field_range 4). apply Hf.
Qed.

(** One step of a safety proof; positions do not wrap. *)
Ltac wp_step :=
  lazymatch goal with
  | |- wps _ (_ ≫= _) _ => apply wp_bind
  | |- wps _ (throw_if (_ <? _) _) _ => apply wp_throw_if; intros ?%Z.ltb_ge
  | |- wps _ (throw_if _ _) _ => apply wp_throw_if; intros ?
  | |- wps _ (read_u16 _ _) _ => apply wp_read_u16; [done|words; lia|intros ? ?]
  | |- wps _ (read_u32 _ _) _ => apply wp_read_u32; [done|words; lia|intros ? ?]
  | |- wps _ (range _ _ _) _ => apply wp_range; [words; lia|words; lia|words; lia|]
  | |- wps _ (Ok _) _ => apply wp_ret
  | |- wps _ (if ?c then _ else _) _ => destruct c eqn:?
  end; unwrap.
Ltac wp_steps := repeat wp_step.

(** ** No read leaves the archive *)

Definition entry_ok (e : ZipEntry) : Prop :=
  bytes (ze_name e) ∧ size (ze_name e) < 65536 ∧ in_u16 (ze_flags e) ∧ in_u16 (ze_method e) ∧
  in_u32 (ze_compressed_size e) ∧ in_u32 (ze_uncompressed_size e) ∧
  in_u32 (ze_local_header_offset e).

Lemma wp_find_eocd apk : fits apk → 22 <= size apk →
  wp (find_eocd apk) (λ e, e = npos ∨ 0 <= e ∧ e + 22 <= size apk).
Proof.
  intros Hf Hs. pose proof (proj2 Hf). unfold find_eocd, EOCD_MIN_SIZE, EOCD_MAX_COMMENT.
  set (start := if _ <? _ then _ else _).
  assert (0 <= start <= size apk) as Hst by (unfold start; destruct (_ <? _) eqn:?; lia).
  apply (wp_loop _ (λ off, 0 <= off <= size apk - 21) (λ off, off)); [|lia|unfold size; lia].
  intros off Ho. unfold eocd_body. destruct (Z.ltb_spec start off); wp_steps; [|by left].
  destruct (_ =? _); lia.
Qed.

Lemma wp_entry_body apk i off es : fits apk → 0 <= off <= size apk → Forall entry_ok es →
  wp (entry_body apk i (off, es)) (λ c, match c with
    | Next (off', es') => 0 <= off' <= size apk ∧ Forall entry_ok es' | Stop es' => Forall entry_ok es' end).
Proof.
  intros Hf Ho He. pose proof Hf as [Hb Hs]. unfold entry_body. wp_steps.
  split; [words; lia|]. apply Forall_app. split; [done|]. apply Forall_singleton.
  set (name := take _ _). assert (size name < 65536) by (unfold size, name; rewrite length_take; words; lia).
  unfold entry_ok. cbn. split_and!; try done. by apply bytes_take, bytes_drop.
Qed.

Lemma wp_read_zip_entries apk : fits apk → wp (read_zip_entries apk) (Forall entry_ok).
Proof.
  intros Hf. pose proof Hf as [Hb Hs]. unfold read_zip_entries, EOCD_MIN_SIZE.
  do 2 wp_step. wp_step. eapply wp_mono; [by apply wp_find_eocd|]. intros e He.
  apply wp_bind, wp_throw_if. intros Hn%Z.eqb_neq. destruct He as [->|He]; [done|].
  unwrap. do 8 wp_step. do 2 wp_step.
  wp_step. eapply wp_mono; [apply (wp_upto _ _ (λ _ st, 0 <= st.1 <= size apk ∧ Forall entry_ok st.2) (Forall entry_ok))|].
  - intros j [off es] _ [Ho He']. eapply wp_mono; [by apply wp_entry_body|]. by intros [[] |].
  - cbn. words. split; [lia|constructor].
  - intros [[off es]|es]; [by intros [_ ?]|done].
Qed.

Lemma wp_extract `{ZlibLaws} apk e : fits apk → entry_ok e → wp (extract_entry_data apk e) bytes.
Proof.
  intros Hf (_ & _ & _ & _ & Hc & Hu & Ho). pose proof Hf as [Hb Hs]. unfold extract_entry_data.
  wp_steps; [by apply bytes_take, bytes_drop|].
  destruct (inflate _ _) as [rc out] eqn:E. wp_steps.
  by rewrite <- (f_equal snd E : (inflate _ _).2 = out); apply inflate_bytes.
Qed.

(** ** The ZIP format

    An archive as the format describes it: for each member a local header and
    its data, then the central directory, then its end record with a comment.
    Fields the reader skips are arbitrary. *)

Record member := Member {
  m_name : list Z;
  m_payload : list Z;
  m_flags : Z;
  m_method : Z;
  m_usize : Z;
  m_local_extra : list Z;
  m_extra : list Z;
  m_comment : list Z;
  m_version : Z;
  m_time : Z;
  m_crc : Z;
  m_attributes : Z;
}.

Definition local_header (m : member) : list Z :=
  le_split 4 LOC_SIG ++ le_split 2 (m_version m) ++ le_split 2 (m_flags m) ++
  le_split 2 (m_method m) ++ le_split 4 (m_time m) ++ le_split 4 (m_crc m) ++
  le_split 4 (size (m_payload m)) ++ le_split 4 (m_usize m) ++
  le_split 2 (size (m_name m)) ++ le_split 2 (size (m_local_extra m)) ++
  m_name m ++ m_local_extra m.
Definition local_file (m : member) : list Z := local_header m ++ m_payload m.

Definition central (m : member) (off : Z) : list Z :=
  le_split 4 CEN_SIG ++ le_split 4 (m_version m) ++ le_split 2 (m_flags m) ++
  le_split 2 (m_method m) ++ le_split 4 (m_time m) ++ le_split 4 (m_crc m) ++
  le_split 4 (size (m_payload m)) ++ le_split 4 (m_usize m) ++
  le_split 2 (size (m_name m)) ++ le_split 2 (size (m_extra m)) ++
  le_split 2 (size (m_comment m)) ++ le_split 8 (m_attributes m) ++ le_split 4 off ++
  m_name m ++ m_extra m ++ m_comment m.

Fixpoint locals (ms : list member) : list Z :=
  match ms with [] => [] | m :: ms => local_file m ++ locals ms end.
Fixpoint directory (off : Z) (ms : list member) : list Z :=
  match ms with [] => [] | m :: ms => central m off ++ directory (off + size (local_file m)) ms end.
Definition end_record (count dsize doff : Z) (comment : list Z) : list Z :=
  le_split 4 EOCD_SIG ++ le_split 4 0 ++ le_split 2 count ++ le_split 2 count ++
  le_split 4 dsize ++ le_split 4 doff ++ le_split 2 (size comment) ++ comment.
Definition archive (ms : list member) (comment : list Z) : list Z :=
  let d := directory 0 ms in
  locals ms ++ d ++ end_record (Z.of_nat (length ms)) (size d) (size (locals ms)) comment.

(** What the reader should give for the members. *)
Definition entry_of (m : member) (off : Z) : ZipEntry :=
  Entry (m_name m) (m_flags m) (m_method m) (size (m_payload m)) (m_usize m) off.
Fixpoint entries_of (off : Z) (ms : list member) : list ZipEntry :=
  match ms with [] => [] | m :: ms => entry_of m off :: entries_of (off + size (local_file m)) ms end.

Definition member_ok (m : member) : Prop :=
  bytes (m_name m) ∧ bytes (m_payload m) ∧ bytes (m_local_extra m) ∧ bytes (m_extra m) ∧
  bytes (m_comment m) ∧ size (m_name m) < 65536 ∧ size (m_local_extra m) < 65536 ∧
  size (m_extra m) < 65536 ∧ size (m_comment m) < 65536 ∧ in_u16 (m_flags m) ∧
  in_u16 (m_method m) ∧ in_u32 (m_usize m).

(** No end record is seen in the comment. *)
Definition quiet (r : list Z) : Prop :=
  ∀ k, 0 < k <= size r - 22 → field 4 r k ≠ EOCD_SIG.
Definition archive_ok (ms : list member) (comment : list Z) : Prop :=
  Forall member_ok ms ∧ bytes comment ∧ size comment < 65536 ∧
  Z.of_nat (length ms) < 65536 ∧ size (archive ms comment) < 4294967295 ∧
  let d := directory 0 ms in
  quiet (end_record (Z.of_nat (length ms)) (size d) (size (locals ms)) comment).

(** Read one field of concatenated fields. *)
Lemma field_now n z x off : off = 0 → field n (le_split n z ++ x) off = z mod 256 ^ Z.of_nat n.
Proof. intros ->. apply field_here. Qed.
Ltac read_field :=
  match goal with
  | |- context [field ?n ?l ?o] =>
      let z := fresh "z" in let E := fresh "E" in
      evar (z : Z); assert (field n l o = z) as E;
      [ repeat rewrite field_skip by (sizes; lia); rewrite field_now by (sizes; lia); subst z; reflexivity
      | rewrite E; subst z; clear E ]
  end.
Lemma mod_u16 z : in_u16 z → z mod 256 ^ Z.of_nat 2 = z.
Proof. intros H. apply Z.mod_small. exact H. Qed.
Lemma mod_u32 z : in_u32 z → z mod 256 ^ Z.of_nat 4 = z.
Proof. intros H. apply Z.mod_small. exact H. Qed.

Lemma range_at v pos n u s w :
  v = u ++ s ++ w → pos = size u → n = size s → range v pos n = Ok s.
Proof. intros -> -> ->. apply range_app. Qed.

Lemma size_central m off :
  size (central m off) = 46 + size (m_name m) + size (m_extra m) + size (m_comment m).
Proof. unfold central. sizes. lia. Qed.
Lemma size_local m :
  size (local_file m) = 30 + size (m_name m) + size (m_local_extra m) + size (m_payload m).
Proof. unfold local_file, local_header. sizes. lia. Qed.
#[local] Hint Rewrite size_central size_local : size.

Ltac size_facts m :=
  pose proof (size_nonneg (m_name m)); pose proof (size_nonneg (m_payload m));
  pose proof (size_nonneg (m_local_extra m)); pose proof (size_nonneg (m_extra m));
  pose proof (size_nonneg (m_comment m)).

(** One entry of the directory is read as it was written. *)
Lemma entry_body_central u m off post i es :
  fits (u ++ central m off ++ post) → member_ok m → in_u32 off → in_u32 (size (m_payload m)) →
  entry_body (u ++ central m off ++ post) i (size u, es) =
    Ok (Next (size u + size (central m off), es ++ [entry_of m off])).
Proof.
  intros Hf (? & ? & ? & ? & ? & ? & ? & ? & ? & ? & ? & ?) Ho Hp.
  pose proof (proj2 Hf) as Hs. size_facts m. pose proof (size_nonneg u). pose proof (size_nonneg post).
  sizes. remember (u ++ central m off ++ post) as apk eqn:Eapk.
  assert (size apk = size u + (46 + size (m_name m) + size (m_extra m) + size (m_comment m) + size post)) as Esz.
  { subst apk. sizes. lia. }
  unfold entry_body. unwrap. rewrite Esz, (proj2 (Z.ltb_ge _ _)) by lia. cbn [throw_if mbind res_bind].
  rewrite !read_u16_eq, !read_u32_eq by (first [done|lia]). rewrite Esz.
  rewrite !(proj2 (Z.ltb_ge _ _)) by lia. cbn [throw_if mbind res_bind].
  assert (∀ n k, 0 <= k → field n apk (size u + k) = field n (central m off ++ post) k) as Efld.
  { intros n k Hk. subst apk. rewrite field_skip by lia. f_equal. lia. }
  rewrite <- (Z.add_0_r (size u)) at 1. rewrite !Efld by lia.
  unfold central. rewrite <- !app_assoc.
  repeat read_field.
  rewrite !mod_u16, !mod_u32 by (first [done|words; lia|cbv; done]). unwrap.
  rewrite Z.eqb_refl, (proj2 (Z.ltb_ge _ _)) by lia. cbn [negb throw_if mbind res_bind].
  rewrite (range_at apk (size u + 46) _ (u ++ take 46 (central m off)) (m_name m)
    (m_extra m ++ m_comment m ++ post)); [cbn [mbind res_bind]; do 3 f_equal; lia| |sizes; done|done].
  subst apk. unfold central. by rewrite <- !app_assoc.
Qed.

(** So is the whole directory. *)
Lemma upto_directory u off ms post i es :
  fits (u ++ directory off ms ++ post) → Forall member_ok ms → 0 <= off →
  off + size (locals ms) < 4294967295 →
  upto (length ms) i (entry_body (u ++ directory off ms ++ post)) (size u, es) =
    Ok (Next (size u + size (directory off ms), es ++ entries_of off ms)).
Proof.
  revert u off i es. induction ms as [|m ms IH]; intros u off i es Hf Hm Ho Hl.
  { cbn. sizes. do 3 f_equal; [lia|]. by rewrite app_nil_r. }
  inversion Hm as [|? ? Hm1 Hms]; subst. cbn [directory locals entries_of length upto] in *.
  pose proof (size_nonneg (locals ms)). size_facts m. sizes.
  rewrite <- app_assoc in *. rewrite entry_body_central; [|done|done|words; lia|words; lia].
  cbn [mbind res_bind].
  replace (size u + size (central m off)) with (size (u ++ central m off)) by (sizes; lia).
  rewrite (app_assoc u) in Hf |- *. rewrite IH; [|done|done|sizes; lia|sizes; lia].
  do 3 f_equal; [sizes; lia|]. by rewrite <- app_assoc.
Qed.

(** The search finds the end record. *)
Lemma find_eocd_archive u r :
  fits (u ++ le_split 4 EOCD_SIG ++ r) → 18 <= size r <= 18 + 65535 →
  quiet (le_split 4 EOCD_SIG ++ r) → find_eocd (u ++ le_split 4 EOCD_SIG ++ r) = Ok (size u).
Proof.
  intros Hf Hr Hq. pose proof (proj2 Hf) as Hs. unfold find_eocd, EOCD_MIN_SIZE, EOCD_MAX_COMMENT.
  remember (u ++ le_split 4 EOCD_SIG ++ r) as apk eqn:Eapk.
  assert (size apk = size u + 4 + size r) as Esz by (subst apk; sizes; lia).
  set (start := if _ <? _ then _ else _). pose proof (size_nonneg u).
  assert (0 <= start <= size u) as Hst by (unfold start; destruct (Z.ltb_spec (22 + 65535) (size apk)); lia).
  assert (∀ k, 0 <= k <= size r - 18 →
    eocd_body apk start (size u + k + 1) = Ok (if k =? 0 then Stop (size u) else Next (size u + k))) as Hbody.
  { intros k Hk. unfold eocd_body. rewrite (proj2 (Z.ltb_lt _ _)) by lia.
    replace (size u + k + 1 - 1) with (size u + k) by lia.
    rewrite read_u32_eq, Esz, (proj2 (Z.ltb_ge _ _)) by (first [done|lia]). cbn [mbind res_bind].
    assert (field 4 apk (size u + k) = field 4 (le_split 4 EOCD_SIG ++ r) k) as ->.
    { subst apk. rewrite field_skip by lia. f_equal. lia. }
    destruct (Z.eqb_spec k 0) as [->|Hne].
    - rewrite field_here. change (EOCD_SIG mod 256 ^ Z.of_nat 4 =? EOCD_SIG) with true. cbn. do 2 f_equal. lia.
    - by rewrite (proj2 (Z.eqb_neq _ _)) by (apply Hq; sizes; lia). }
  assert (∀ fuel k, Z.of_nat fuel > k → 0 <= k <= size r - 18 →
    loop fuel (eocd_body apk start) (size u + k + 1) = Ok (size u)) as Hloop.
  { induction fuel as [|fuel IH]; intros k Hk1 Hk2; [lia|]. cbn [loop]. rewrite Hbody by done.
    destruct (Z.eqb_spec k 0) as [->|Hne]; [done|]. cbn [mbind res_bind].
    replace (size u + k) with (size u + (k - 1) + 1) by lia. apply IH; lia. }
  replace (size apk - 22 + 1) with (size u + (size r - 18) + 1) by lia.
  apply Hloop; [|lia]. unfold size in *. lia.
Qed.

Lemma bytes_directory off ms : Forall member_ok ms → bytes (directory off ms).
Proof.
  intros H. revert off. induction H as [|m ms Hm _ IH]; intros off; cbn [directory]; [constructor|].
  apply Forall_app. split; [|apply IH]. destruct Hm as (? & _ & _ & ? & ? & _).
  unfold central. rewrite !Forall_app. split_and!; try apply le_split_bytes; done.
Qed.
Lemma bytes_locals ms : Forall member_ok ms → bytes (locals ms).
Proof.
  induction 1 as [|m ms Hm _ IH]; cbn [locals]; [constructor|].
  apply Forall_app. split; [|apply IH]. destruct Hm as (? & ? & ? & _).
  unfold local_file, local_header. rewrite !Forall_app. split_and!; try apply le_split_bytes; done.
Qed.

Lemma archive_fits ms comment : archive_ok ms comment → fits (archive ms comment).
Proof.
  intros (Hm & Hc & _ & _ & Hs & _). split; [|lia]. unfold archive, end_record, bytes in *.
  rewrite !Forall_app. split_and!; try apply le_split_bytes; [by apply bytes_locals|by apply bytes_directory|done].
Qed.

Lemma read_archive ms comment : archive_ok ms comment →
  read_zip_entries (archive ms comment) = Ok (entries_of 0 ms).
Proof.
  intros Hok. pose proof (archive_fits _ _ Hok) as Hf. destruct Hok as (Hm & Hc & Hcs & Hn & Hs & Hq).
  unfold archive in *. set (d := directory 0 ms) in *. set (l := locals ms) in *.
  set (r := end_record _ _ _ _) in *. pose proof (size_nonneg l). pose proof (size_nonneg d).
  pose proof (size_nonneg comment).
  assert (size r = 22 + size comment) as Er by (unfold r, end_record; sizes; lia).
  sizes. remember (l ++ d ++ r) as apk eqn:Eapk.
  assert (size apk = size l + size d + 22 + size comment) as Esz by (subst apk; sizes; lia).
  unfold read_zip_entries, EOCD_MIN_SIZE. rewrite (proj2 (Z.ltb_ge _ _)) by lia.
  cbn [throw_if mbind res_bind].
  assert (find_eocd apk = Ok (size (l ++ d))) as ->.
  { subst apk. rewrite app_assoc in Hf |- *. unfold r, end_record in *. apply find_eocd_archive; [done|sizes; lia|done]. }
  cbn [mbind res_bind]. sizes. unfold npos at 1. ztest. cbn [throw_if mbind res_bind]. unwrap.
  rewrite !read_u16_eq, !read_u32_eq by (first [done|lia]). rewrite Esz.
  rewrite !(proj2 (Z.ltb_ge _ _)) by lia. cbn [throw_if mbind res_bind].
  assert (∀ n k, 0 <= k → field n apk (size l + size d + k) = field n r k) as Efld.
  { intros n k Hk. subst apk. rewrite app_assoc, field_skip by (sizes; lia). f_equal. sizes. lia. }
  assert (field 2 r 10 = Z.of_nat (length ms) ∧ field 4 r 12 = size d ∧ field 4 r 16 = size l) as (E1 & E2 & E3).
  { unfold r, end_record. repeat read_field. rewrite mod_u16, !mod_u32 by (words; lia). done. }
  rewrite !Efld, E1, E2, E3, Nat2Z.id by lia. ztest. cbn [orb throw_if mbind res_bind].
  subst apk. unfold l, d. rewrite upto_directory; [done|done|done|lia|fold l; lia].
Qed.

(** The data of a member is found behind its local header. *)
Lemma extract_member `{Zlib} u m post off :
  fits (u ++ local_file m ++ post) → member_ok m → off = size u → in_u32 (size (m_payload m)) →
  extract_entry_data (u ++ local_file m ++ post) (entry_of m off) =
    if m_method m =? 0 then Ok (m_payload m)
    else if negb (m_method m =? 8) then
      Throw (runtime_error (cs "unsupported APK zip compression method " ++
        decimal (m_method m) ++ cs " for " ++ m_name m))
    else if negb (inflateInit2 =? Z_OK) then Throw (fail "zlib inflateInit2 failed")
    else let '(rc, out) := inflate (m_payload m) (m_usize m) in
      if negb (rc =? Z_STREAM_END) || negb (size out =? m_usize m)
      then Throw (runtime_error (cs "zlib inflate failed for " ++ m_name m)) else Ok out.
Proof.
  intros Hf (? & ? & ? & ? & ? & ? & ? & ? & ? & ? & ? & ?) -> Hp. pose proof (proj2 Hf) as Hs.
  size_facts m. pose proof (size_nonneg u). pose proof (size_nonneg post). sizes.
  remember (u ++ local_file m ++ post) as apk eqn:Eapk.
  assert (size apk = size u + (30 + size (m_name m) + size (m_local_extra m) + size (m_payload m)) + size post) as Esz.
  { subst apk. sizes. lia. }
  assert (∀ n k, 0 <= k → field n apk (size u + k) = field n (local_header m ++ m_payload m ++ post) k) as Efld.
  { intros n k Hk. subst apk. unfold local_file. rewrite <- app_assoc, field_skip by lia. f_equal. lia. }
  assert (field 4 apk (size u) = LOC_SIG ∧ field 2 apk (size u + 26) = size (m_name m) ∧
    field 2 apk (size u + 28) = size (m_local_extra m)) as (E1 & E2 & E3).
  { rewrite <- (Z.add_0_r (size u)) at 1. rewrite !Efld by lia. unfold local_header.
    rewrite <- !app_assoc. repeat read_field. rewrite !mod_u16 by (words; lia). done. }
  unfold extract_entry_data, entry_of. cbn [ze_local_header_offset ze_compressed_size ze_method
    ze_uncompressed_size ze_name]. unwrap. rewrite !read_u16_eq, read_u32_eq by (first [done|lia]).
  rewrite Esz, !(proj2 (Z.ltb_ge _ _)) by lia. rewrite E1, E2, E3. cbn [throw_if mbind res_bind].
  rewrite Z.eqb_refl. cbn [negb throw_if mbind res_bind]. unwrap.
  rewrite (proj2 (Z.ltb_ge _ _)) by lia. cbn [throw_if mbind res_bind].
  rewrite (range_at apk _ _ (u ++ local_header m) (m_payload m) post);
    [cbn [mbind res_bind] | |unfold local_header; sizes; lia|done].
  2:{ subst apk. unfold local_file. by rewrite <- !app_assoc. }
  destruct (m_method m =? 0); [done|]. destruct (negb (m_method m =? 8)); [done|]. cbn [throw_if mbind res_bind].
  destruct (negb (inflateInit2 =? Z_OK)); [done|]. cbn [throw_if mbind res_bind].
  destruct (inflate _ _) as [rc out]. by destruct (_ || _).
Qed.

(** ** The theorems *)

(** What unpacking a member should give. *)
Definition content `{Zlib} (m : member) (d : list Z) : Prop :=
  (m_method m = 0 ∧ d = m_payload m) ∨
  (m_method m = 8 ∧ inflateInit2 = Z_OK ∧ inflate (m_payload m) (m_usize m) = (Z_STREAM_END, d) ∧
   size d = m_usize m).

Lemma entries_of_names off ms : ze_name <$> entries_of off ms = m_name <$> ms.
Proof. revert off. induction ms as [|m ms IH]; intros off; [done|]. cbn. f_equal. apply IH. Qed.

Lemma extract_content `{Zlib} u m post off d :
  fits (u ++ local_file m ++ post) → member_ok m → off = size u → in_u32 (size (m_payload m)) →
  content m d → extract_entry_data (u ++ local_file m ++ post) (entry_of m off) = Ok d.
Proof.
  intros Hf Hm Ho Hp Hd. rewrite extract_member by done.
  destruct Hd as [[-> ->]|(-> & Hz & Hi & Hn)]; [done|]. cbn [Z.eqb Pos.eqb negb].
  rewrite Hz, Hi. change (Z_STREAM_END =? Z_STREAM_END) with true. rewrite Hn, !Z.eqb_refl. reflexivity.
Qed.

Lemma extract_all `{Zlib} u ms rest ds :
  fits (u ++ locals ms ++ rest) → Forall member_ok ms → size u + size (locals ms) < 4294967295 →
  Forall2 content ms ds →
  Forall2 (λ e d, extract_entry_data (u ++ locals ms ++ rest) e = Ok d) (entries_of (size u) ms) ds.
Proof.
  intros Hf Hm Hs Hds. revert u Hf Hm Hs. induction Hds as [|m d ms ds Hd _ IH]; intros u Hf Hm Hs.
  { constructor. }
  inversion Hm as [|? ? Hm1 Hms]; subst. cbn [locals entries_of] in *. rewrite <- app_assoc in *.
  pose proof (size_nonneg u). pose proof (size_nonneg (locals ms)). size_facts m. sizes. constructor.
  - apply extract_content; [done..|words; lia|done].
  - specialize (IH (u ++ local_file m)). rewrite <- app_assoc, size_app, size_local in IH.
    apply IH; [done|done|lia].
Qed.

(** C28. Reading an archive gives one entry for each member, in order and with
    its name, and extracting an entry gives the content of its member: the
    bytes themselves if they are stored, what zlib inflates if they are
    deflated.  Extra fields, comments, times and checksums do not matter. *)
Theorem zip_roundtrip `{Zlib} ms comment ds :
  archive_ok ms comment → Forall2 content ms ds →
  ∃ es, read_zip_entries (archive ms comment) = Ok es ∧
    ze_name <$> es = m_name <$> ms ∧
    Forall2 (λ e d, extract_entry_data (archive ms comment) e = Ok d) es ds.
Proof.
  intros Hok Hds. exists (entries_of 0 ms). split_and!; [by apply read_archive|apply entries_of_names|].
  pose proof (archive_fits _ _ Hok) as Hf. destruct Hok as (Hm & _ & _ & _ & Hs & _).
  unfold archive in *. apply (extract_all [] ms); [done|done| |done].
  sizes. pose proof (size_nonneg (directory 0 ms)).
  set (r := end_record _ _ _ _) in Hs. pose proof (size_nonneg r). lia.
Qed.

(** A toy zlib whose only stream is one byte, the value to repeat. *)
Definition toy_zlib : Zlib := {|
  inflateInit2 := Z_OK;
  inflate src n := (Z_STREAM_END, replicate (Z.to_nat n) (u8 (default 0 (head src))));
|}.
Lemma toy_zlib_laws : ZlibLaws toy_zlib.
Proof.
  split; intros src n; cbn.
  - apply Forall_replicate, u8_range.
  - intros Hn. unfold size. rewrite length_replicate. lia.
Qed.

Definition toy_members : list member :=
  [ Member (cs "AndroidManifest.xml") (cs "<manifest/>") 0 0 11 [] [] (cs "main") 20 7 8 0;
    Member (cs "lib/arm64-v8a/libmain.so") [65] 2056 8 5 [1;2;3] [9] [] 20 7 8 0 ].
Definition toy_contents : list (list Z) := [cs "<manifest/>"; [65;65;65;65;65]].

(** A field of a concrete record is compared by computing. *)
Lemma quiet_dec r : forallb (λ k, negb (field 4 r (Z.of_nat k) =? EOCD_SIG)) (seq 1 (length r)) = true → quiet r.
Proof.
  intros H k Hk E. rewrite forallb_forall in H. specialize (H (Z.to_nat k)).
  rewrite Z2Nat.id, E, Z.eqb_refl in H by lia. unfold size in Hk.
  discriminate H. apply in_seq. lia.
Qed.
Lemma bytes_dec l : forallb (λ b, (0 <=? b) && (b <? 256)) l = true → bytes l.
Proof.
  intros H. apply Forall_forall. intros b Hb. rewrite forallb_forall in H.
  specialize (H b (proj1 (list_elem_of_In _ _) Hb)). words. lia.
Qed.
Lemma toy_archive_ok : archive_ok toy_members (cs "an archive").
Proof.
  split; [|split; [by apply bytes_dec|split; [by vm_compute|split; [by vm_compute|split; [by vm_compute|]]]]].
  - repeat constructor; try (apply bytes_dec; reflexivity); by vm_compute.
  - apply quiet_dec. by vm_compute.
Qed.

(** Witness of [zip_roundtrip] *)
Lemma zip_roundtrip_witness :
  archive_ok toy_members (cs "an archive") ∧
  ∃ es, read_zip_entries (archive toy_members (cs "an archive")) = Ok es ∧
    ze_name <$> es = m_name <$> toy_members ∧
    Forall2 (λ e d, @extract_entry_data toy_zlib (archive toy_members (cs "an archive")) e = Ok d)
      es toy_contents.
Proof.
  split; [apply toy_archive_ok|]. apply (@zip_roundtrip toy_zlib); [apply toy_archive_ok|].
  constructor; [by left|]. constructor; [|constructor]. right. split_and!; by vm_compute.
Defined.

(** C34. Whatever the file holds, reading its entries and extracting any of
    them ends inside of the file, with a result or an exception; the results
    are bytes and the sizes of the entries are those of their fields. *)
Theorem zip_reads_in_bounds `{ZlibLaws} apk :
  fits apk →
  wp (read_zip_entries apk) (λ es, ∀ e, e ∈ es → entry_ok e ∧ wp (extract_entry_data apk e) bytes).
Proof.
  intros Hf. eapply wp_mono; [by apply wp_read_zip_entries|]. intros es Hes e He.
  rewrite Forall_forall in Hes. split; [by apply Hes|]. by apply wp_extract, Hes.
Qed.

(** Witness of [zip_reads_in_bounds] *)
Lemma zip_reads_in_bounds_witness :
  wp (read_zip_entries (archive toy_members []))
    (λ es, ∀ e, e ∈ es → entry_ok e ∧ wp (@extract_entry_data toy_zlib (archive toy_members []) e) bytes).
Proof.
  apply (@zip_reads_in_bounds toy_zlib toy_zlib_laws). split; [apply bytes_dec; by vm_compute|by vm_compute].
Defined.
