(* ===== verification/ApkText.v ===== *)
(** * Manifests in plain text

    platform/android-aarch64/apk/apk_envelope.cpp:502-685: the attributes and
    activities of an AndroidManifest.xml that is still text, found by searching
    for substrings. *)

From S2P Require Import Prelude Decimal Cxx ApkZip.

(** [opt.value_or(std::string())] *)
Definition value_or (o : option (list Z)) : list Z := default [] o.

(** platform/android-aarch64/apk/apk_envelope.cpp:502-517 (infer_plain_manifest_lib) *)
Definition infer_plain_manifest_lib (manifest : list Z) (available_bases : list (list Z))
  : option (list Z) :=
  if negb (contains manifest (cs "android.app.lib_name")) then None
  else match find_idx (λ base, contains manifest (34 :: base ++ [34]) ||
                               contains manifest (39 :: base ++ [39])) available_bases with
       | Some i => available_bases !! i
       | None => if Z.of_nat (length available_bases) =? 1 then head available_bases else None
       end.

(** The two quotes, double and single. *)
Definition quotes : list Z := [34; 39].

(** platform/android-aarch64/apk/apk_envelope.cpp:519-544 (plain_manifest_attribute) *)
Definition plain_manifest_attribute (manifest element attr : list Z) : res (option (list Z)) :=
  let tag := str_find manifest (cs "<" ++ element) 0 in
  if tag =? npos then Ok None else
  let end_ := str_find manifest (cs ">") tag in
  if end_ =? npos then Ok None else
  let attr_pos := str_find manifest attr tag in
  if (attr_pos =? npos) || (end_ <? attr_pos) then Ok None else
  let eq := str_find manifest (cs "=") (u64 (attr_pos + size attr)) in
  if (eq =? npos) || (end_ <? eq) then Ok None else
  let quote := str_find_first_of manifest quotes (u64 (eq + 1)) in
  if (quote =? npos) || (end_ <? quote) then Ok None else
  q ← at_ manifest quote;
  let close := str_find manifest [q] (u64 (quote + 1)) in
  if (close =? npos) || (end_ <? close) then Ok None else
  Some <$> substr manifest (u64 (quote + 1)) (u64 (close - quote - 1)).

(** platform/android-aarch64/apk/apk_envelope.cpp:546-563 (tag_attribute) *)
Definition tag_attribute (tag attr : list Z) : res (option (list Z)) :=
  let attr_pos := str_find tag attr 0 in
  if attr_pos =? npos then Ok None else
  let eq := str_find tag (cs "=") (u64 (attr_pos + size attr)) in
  if eq =? npos then Ok None else
  let quote := str_find_first_of tag quotes (u64 (eq + 1)) in
  if quote =? npos then Ok None else
  q ← at_ tag quote;
  let close := str_find tag [q] (u64 (quote + 1)) in
  if close =? npos then Ok None else
  Some <$> substr tag (u64 (quote + 1)) (u64 (close - quote - 1)).

(** platform/android-aarch64/apk/apk_envelope.cpp:565-576 (normalize_activity_name) *)
Definition normalize_activity_name (package_name activity_name : list Z) : list Z :=
  match activity_name with
  | [] => activity_name
  | c :: _ =>
      if negb (eq_str package_name []) && (c =? 46) then package_name ++ activity_name
      else if negb (eq_str package_name []) && negb (contains activity_name (cs "."))
      then package_name ++ cs "." ++ activity_name
      else activity_name
  end.

(** platform/android-aarch64/apk/apk_envelope.cpp:578-582 (infer_plain_manifest_package) *)
Definition infer_plain_manifest_package (manifest : list Z) : res (option (list Z)) :=
  plain_manifest_attribute manifest (cs "manifest") (cs "package").

(** [android:name], or [name] without it, of a tag
    (platform/android-aarch64/apk/apk_envelope.cpp:606-608 and 676-678). *)
Definition name_attribute (tag : list Z) : res (option (list Z)) :=
  name ← tag_attribute tag (cs "android:name");
  match name with Some _ => Ok name | None => tag_attribute tag (cs "name") end.

(** platform/android-aarch64/apk/apk_envelope.cpp:588-591 (ActivityCandidate) *)
Record ActivityCandidate := Candidate { ac_name : list Z; ac_is_launcher : bool }.

(** platform/android-aarch64/apk/apk_envelope.cpp:595-633 (infer_plain_manifest_launch_activity)
    One activity: its opening tag and the text up to the next closing tag. *)
Definition activity_body (manifest : list Z) (package_name : option (list Z))
    (st : Z * list ActivityCandidate) : res (ctl (Z * list ActivityCandidate) (list ActivityCandidate)) :=
  let '(pos, candidates) := st in
  let activity_start := str_find manifest (cs "<activity") pos in
  if activity_start =? npos then Ok (Stop candidates) else
  let open_end := str_find manifest (cs ">") activity_start in
  if open_end =? npos then Ok (Stop candidates) else
  tag ← substr manifest activity_start (u64 (open_end - activity_start + 1));
  name ← name_attribute tag;
  let activity_end := str_find manifest (cs "</activity>") open_end in
  let block_end := if activity_end =? npos then open_end
                   else u64 (activity_end + size (cs "</activity>")) in
  block ← substr manifest activity_start (u64 (block_end - activity_start));
  Ok (Next (block_end,
    match name with
    | Some n =>
        candidates ++ [Candidate (normalize_activity_name (value_or package_name) n)
          (contains block (cs "android.intent.action.MAIN") &&
           (contains block (cs "android.intent.category.LAUNCHER") ||
            contains block (cs "android.intent.category.HOME") ||
            contains block (cs "android.intent.category.SECONDARY_HOME")))]
    | None => candidates
    end)).

(** platform/android-aarch64/apk/apk_envelope.cpp:637-645 (infer_plain_manifest_launch_activity)
    The names preferred among launchers (also 965-973). *)
Definition main_name (name : list Z) : bool :=
  let lower := to_lower <$> name in
  contains lower (cs "mainactivity") ||
  (contains lower (cs "main") && negb (contains lower (cs "panic")) && negb (contains lower (cs "calc"))).

(** platform/android-aarch64/apk/apk_envelope.cpp:635-654 (infer_plain_manifest_launch_activity) *)
Definition choose_candidate (candidates : list ActivityCandidate) : option (list Z) :=
  match find_idx (λ c, ac_is_launcher c && main_name (ac_name c)) candidates with
  | Some i => ac_name <$> candidates !! i
  | None =>
      match find_idx ac_is_launcher candidates with
      | Some i => ac_name <$> candidates !! i
      | None => ac_name <$> head candidates
      end
  end.

(** platform/android-aarch64/apk/apk_envelope.cpp:584-655 (infer_plain_manifest_launch_activity) *)
Definition infer_plain_manifest_launch_activity (manifest : list Z) (package_name : option (list Z))
  : res (option (list Z)) :=
  choose_candidate <$>
    loop (S (length manifest)) (activity_body manifest package_name) (0, []).

(** platform/android-aarch64/apk/apk_envelope.cpp:662-684 (infer_plain_manifest_widget_provider) *)
Definition receiver_body (manifest : list Z) (package_name : option (list Z)) (pos : Z)
  : res (ctl Z (option (list Z))) :=
  let start := str_find manifest (cs "<receiver") pos in
  if start =? npos then Ok (Stop None) else
  let open_end := str_find manifest (cs ">") start in
  if open_end =? npos then Ok (Stop None) else
  let found := str_find manifest (cs "</receiver>") open_end in
  let end_ := if found =? npos then open_end else found in
  tag ← substr manifest start (u64 (open_end - start + 1));
  block ← substr manifest start (u64 (end_ - start));
  if contains block (cs "android.appwidget.action.APPWIDGET_UPDATE") then
    name ← name_attribute tag;
    Ok (match name with
        | Some n => Stop (Some (normalize_activity_name (value_or package_name) n))
        | None => Next (u64 (end_ + 1))
        end)
  else Ok (Next (u64 (end_ + 1))).

(** platform/android-aarch64/apk/apk_envelope.cpp:657-685 (infer_plain_manifest_widget_provider) *)
Definition infer_plain_manifest_widget_provider (manifest : list Z) (package_name : option (list Z))
  : res (option (list Z)) :=
  loop (S (length manifest)) (receiver_body manifest package_name) 0.

Example self_closed_takes_next :
  infer_plain_manifest_launch_activity
    (cs "<activity name='.A'/><activity name='.B'><action name='android.intent.action.MAIN'/><category name='android.intent.category.LAUNCHER'/></activity>")
    (Some (cs "p")) = Ok (Some (cs "p.A")).
Proof. vm_compute. reflexivity. Qed.
