(* ===== verification/ApkAxml.v ===== *)
(** * Binary XML manifests and resource tables

    platform/android-aarch64/apk/apk_envelope.cpp:270-500 and 687-1063: string
    pools, the chunks of a compiled AndroidManifest.xml, the attributes the
    launcher asks for, and the look-up of a string resource.  The [while]
    loops over chunks take their fuel as an argument: a chunk may say that its
    size is zero. *)

From S2P Require Import Prelude Decimal Cxx ApkZip ApkText.

(** ** Strings of a pool *)

(** platform/android-aarch64/apk/apk_envelope.cpp:272-281 (read_len) *)
Definition read_len8 (data : list Z) (pos : Z) : res (Z * Z) :=
  _ ← throw_if (size data <=? pos) (fail "AXML string length is truncated");
  first ← at_ data pos;
  let pos := u64 (pos + 1) in
  if Z.land first 0x80 =? 0 then Ok (first, pos)
  else
    _ ← throw_if (size data <=? pos) (fail "AXML string length is truncated");
    second ← at_ data pos;
    Ok (Z.lor (Z.shiftl (Z.land first 0x7f) 8) second, u64 (pos + 1)).

(** platform/android-aarch64/apk/apk_envelope.cpp:270-290 (utf8_length_string) *)
Definition utf8_length_string (data : list Z) (off : Z) : res (list Z) :=
  '(_, pos) ← read_len8 data off;
  '(byte_len, pos) ← read_len8 data pos;
  _ ← throw_if (size data <? u64 (pos + byte_len)) (fail "AXML UTF-8 string is truncated");
  range data pos byte_len.

(** platform/android-aarch64/apk/apk_envelope.cpp:294-302 (read_len) *)
Definition read_len16 (data : list Z) (pos : Z) : res (Z * Z) :=
  first ← read_u16 data pos;
  let pos := u64 (pos + 2) in
  if Z.land first 0x8000 =? 0 then Ok (first, pos)
  else
    second ← read_u16 data pos;
    Ok (Z.lor (Z.shiftl (Z.land first 0x7fff) 16) second, u64 (pos + 2)).

(** platform/android-aarch64/apk/apk_envelope.cpp:308-316 (utf16_length_string)
    One character; [len] characters are asked for, and the memory reserved for
    them is there. *)
Definition utf16_body (data : list Z) (len : Z) (st : Z * Z * list Z)
  : res (ctl (Z * Z * list Z) (list Z)) :=
  let '(i, pos, out) := st in
  if i <? len then
    ch ← read_u16 data pos;
    Ok (Next (i + 1, u64 (pos + 2), out ++ [if ch <? 0x80 then ch else 63]))
  else Ok (Stop out).

(** platform/android-aarch64/apk/apk_envelope.cpp:292-318 (utf16_length_string)
    The loop ends with the data, at two bytes a character. *)
Definition utf16_length_string (data : list Z) (off : Z) : res (list Z) :=
  '(len, pos) ← read_len16 data off;
  loop (S (S (length data))) (utf16_body data len) (0, pos, []).

(** platform/android-aarch64/apk/apk_envelope.cpp:322-323 (RES_STRING_POOL_TYPE) *)
Definition RES_STRING_POOL_TYPE : Z := 0x0001.
Definition UTF8_FLAG : Z := 0x00000100.

(** [utf8 ? utf8_length_string(...) : utf16_length_string(...)] *)
Definition pool_string (utf8 : bool) (data : list Z) (pos : Z) : res (list Z) :=
  if utf8 then utf8_length_string data pos else utf16_length_string data pos.

(** platform/android-aarch64/apk/apk_envelope.cpp:352-364 (axml_string_pool)
    One string: an offset out of the chunk gives no string at all, a string
    that cannot be read gives an empty one. *)
Definition axml_string_body (manifest : list Z) (off header_size chunk_size strings_start : Z)
    (utf8 : bool) (string_count : Z) (st : Z * list (list Z))
  : res (ctl (Z * list (list Z)) (list (list Z))) :=
  let '(i, strings) := st in
  if i <? string_count then
    string_off ← read_u32 manifest (u64 (off + header_size + u32 (i * 4)));
    let string_pos := u64 (off + strings_start + string_off) in
    if u64 (off + chunk_size) <=? string_pos then Ok (Next (i + 1, strings))
    else
      s ← catch (pool_string utf8 manifest string_pos) (Ok []);
      Ok (Next (i + 1, strings ++ [s]))
  else Ok (Stop strings).

(** platform/android-aarch64/apk/apk_envelope.cpp:330-366 (axml_string_pool)
    One chunk; the string pool is the first of its type. *)
Definition axml_pool_body (fuel : nat) (manifest : list Z) (off : Z)
  : res (ctl Z (list (list Z))) :=
  if u64 (off + 28) <=? size manifest then
    type ← read_u16 manifest off;
    header_size ← read_u16 manifest (u64 (off + 2));
    chunk_size ← read_u32 manifest (u64 (off + 4));
    if (chunk_size <? header_size) || (size manifest <? u64 (off + chunk_size)) then Ok (Stop [])
    else if negb (type =? RES_STRING_POOL_TYPE) then Ok (Next (u64 (off + chunk_size)))
    else
      string_count ← read_u32 manifest (u64 (off + 8));
      flags ← read_u32 manifest (u64 (off + 16));
      strings_start ← read_u32 manifest (u64 (off + 20));
      let utf8 := negb (Z.land flags UTF8_FLAG =? 0) in
      if (chunk_size <? u32 (header_size + u32 (string_count * 4))) || (chunk_size <=? strings_start)
      then Ok (Stop [])
      else
        Stop <$> loop fuel (axml_string_body manifest off header_size chunk_size strings_start utf8
                              string_count) (0, [])
  else Ok (Stop []).

(** The position of the first chunk, after the file header if there is one
    (platform/android-aarch64/apk/apk_envelope.cpp:326-328). *)
Definition first_chunk (manifest : list Z) : res Z :=
  if 8 <=? size manifest then
    t ← read_u16 manifest 0; Ok (if t =? 0x0003 then 8 else 0)
  else Ok 0.

(** platform/android-aarch64/apk/apk_envelope.cpp:320-367 (axml_string_pool) *)
Definition axml_string_pool (fuel : nat) (manifest : list Z) : res (list (list Z)) :=
  off ← first_chunk manifest;
  loop fuel (axml_pool_body fuel manifest) off.

(** platform/android-aarch64/apk/apk_envelope.cpp:389-404 (string_pool_at)
    One string of a resource table's pool: each index gives a string. *)
Definition pool_at_body (data : list Z) (off header_size chunk_size strings_start flags string_count : Z)
    (st : Z * list (list Z)) : res (ctl (Z * list (list Z)) (list (list Z))) :=
  let '(i, strings) := st in
  if i <? string_count then
    string_off ← read_u32 data (u64 (off + header_size + u32 (i * 4)));
    let string_pos := u64 (off + strings_start + string_off) in
    if u64 (off + chunk_size) <=? string_pos then Ok (Next (i + 1, strings ++ [[]]))
    else
      s ← catch (pool_string (negb (Z.land flags UTF8_FLAG =? 0)) data string_pos) (Ok []);
      Ok (Next (i + 1, strings ++ [s]))
  else Ok (Stop strings).

(** platform/android-aarch64/apk/apk_envelope.cpp:369-406 (string_pool_at) *)
Definition string_pool_at (data : list Z) (off : Z) : res (list (list Z)) :=
  if size data <? u64 (off + 28) then Ok []
  else
  type ← read_u16 data off;
  if negb (type =? RES_STRING_POOL_TYPE) then Ok []
  else
  header_size ← read_u16 data (u64 (off + 2));
  chunk_size ← read_u32 data (u64 (off + 4));
  string_count ← read_u32 data (u64 (off + 8));
  flags ← read_u32 data (u64 (off + 16));
  strings_start ← read_u32 data (u64 (off + 20));
  if (chunk_size <? header_size) || (size data <? u64 (off + chunk_size)) ||
     (chunk_size <? u64 (header_size + u64 (string_count * 4))) || (chunk_size <=? strings_start)
  then Ok []
  else loop (S (length data)) (pool_at_body data off header_size chunk_size strings_start flags
                                 string_count) (0, []).

(** ** Attributes of an element *)

(** platform/android-aarch64/apk/apk_envelope.cpp:714-716 (RES_XML_START_ELEMENT_TYPE) *)
Definition RES_XML_START_ELEMENT_TYPE : Z := 0x0102.
Definition RES_XML_END_ELEMENT_TYPE : Z := 0x0103.
Definition NO_INDEX : Z := 0xffffffff.
Definition TYPE_STRING : Z := 0x03.
(** platform/android-aarch64/apk/apk_envelope.cpp:826-827 (TYPE_REFERENCE) *)
Definition TYPE_REFERENCE : Z := 0x01.
Definition TYPE_DYNAMIC_REFERENCE : Z := 0x07.

(** [idx < strings.size() && strings[idx] == s] *)
Definition names (strings : list (list Z)) (idx : Z) (s : list Z) : bool :=
  (idx <? Z.of_nat (length strings)) && eq_str (default [] (strings !! Z.to_nat idx)) s.
Definition string_at (strings : list (list Z)) (idx : Z) : list Z :=
  default [] (strings !! Z.to_nat idx).

(** platform/android-aarch64/apk/apk_envelope.cpp:744-759 (infer_binary_manifest_package)
    One attribute: its value if it is the one wanted and a string, by its raw
    text or by its typed value.  The same statements are at 800-813, 889-902
    and 1003-1014. *)
Definition attribute_body (manifest : list Z) (strings : list (list Z)) (wanted : list Z)
    (limit attrs attr_size : Z) (i : Z) (_ : ()) : res (ctl () (option (list Z))) :=
  let a := u64 (attrs + u64 (i * attr_size)) in
  if limit <? u64 (a + 20) then Ok (Stop None)
  else
    name_idx ← read_u32 manifest (u64 (a + 4));
    if negb (names strings name_idx wanted) then Ok (Next ())
    else
      raw_idx ← read_u32 manifest (u64 (a + 8));
      if negb (raw_idx =? NO_INDEX) && (raw_idx <? Z.of_nat (length strings))
      then Ok (Stop (Some (string_at strings raw_idx)))
      else
        data_type ← at_ manifest (u64 (a + 15));
        data ← read_u32 manifest (u64 (a + 16));
        Ok (if (data_type =? TYPE_STRING) && (data <? Z.of_nat (length strings))
            then Stop (Some (string_at strings data)) else Next ()).

(** platform/android-aarch64/apk/apk_envelope.cpp:879-905 (attribute_value)
    The attribute of the element whose chunk is at [element_off]; also
    739-760, 795-814 and 993-1016. *)
Definition attribute_value (manifest : list Z) (strings : list (list Z)) (element_off : Z)
    (wanted : list Z) : res (option (list Z)) :=
  chunk_size ← read_u32 manifest (u64 (element_off + 4));
  attr_start ← read_u16 manifest (u64 (element_off + 24));
  attr_size ← read_u16 manifest (u64 (element_off + 26));
  attr_count ← read_u16 manifest (u64 (element_off + 28));
  let attrs := u64 (element_off + 16 + attr_start) in
  c ← upto (Z.to_nat attr_count) 0
        (attribute_body manifest strings wanted (u64 (element_off + chunk_size)) attrs attr_size) ();
  Ok (match c with Next _ => None | Stop v => v end).

(** platform/android-aarch64/apk/apk_envelope.cpp:846-859 (infer_binary_manifest_resource_attribute)
    One attribute, if it is a reference. *)
Definition reference_body (manifest : list Z) (strings : list (list Z)) (attribute : list Z)
    (limit attrs attr_size : Z) (i : Z) (_ : ()) : res (ctl () (option Z)) :=
  let a := u64 (attrs + u64 (i * attr_size)) in
  if limit <? u64 (a + 20) then Ok (Stop None)
  else
    name_idx ← read_u32 manifest (u64 (a + 4));
    if names strings name_idx attribute then
      data_type ← at_ manifest (u64 (a + 15));
      if (data_type =? TYPE_REFERENCE) || (data_type =? TYPE_DYNAMIC_REFERENCE)
      then data ← read_u32 manifest (u64 (a + 16)); Ok (Stop (Some data))
      else Ok (Next ())
    else Ok (Next ()).

(** platform/android-aarch64/apk/apk_envelope.cpp:841-860 (infer_binary_manifest_resource_attribute) *)
Definition attribute_reference (manifest : list Z) (strings : list (list Z)) (element_off : Z)
    (attribute : list Z) : res (option Z) :=
  chunk_size ← read_u32 manifest (u64 (element_off + 4));
  attr_start ← read_u16 manifest (u64 (element_off + 24));
  attr_size ← read_u16 manifest (u64 (element_off + 26));
  attr_count ← read_u16 manifest (u64 (element_off + 28));
  let attrs := u64 (element_off + 16 + attr_start) in
  c ← upto (Z.to_nat attr_count) 0
        (reference_body manifest strings attribute (u64 (element_off + chunk_size)) attrs attr_size) ();
  Ok (match c with Next _ => None | Stop v => v end).

(** ** Walking the chunks *)

(** platform/android-aarch64/apk/apk_envelope.cpp:726-763 (infer_binary_manifest_package)
    The loop the readers of the manifest share (also 782-816, 832-863,
    914-962 and 1020-1061): [visit off type st] is what one of them does with
    a chunk, and [done_ st] what it answers after the last one. *)
Definition chunk_body {S R} (manifest : list Z) (visit : Z → Z → S → res (ctl S R)) (done_ : S → R)
    (st : Z * S) : res (ctl (Z * S) R) :=
  let '(off, s) := st in
  if u64 (off + 8) <=? size manifest then
    type ← read_u16 manifest off;
    header_size ← read_u16 manifest (u64 (off + 2));
    chunk_size ← read_u32 manifest (u64 (off + 4));
    if (chunk_size <? header_size) || (size manifest <? u64 (off + chunk_size))
    then Ok (Stop (done_ s))
    else
      c ← visit off type s;
      Ok (match c with Next s => Next (u64 (off + chunk_size), s) | Stop r => Stop r end)
  else Ok (Stop (done_ s)).

Definition walk {S R} (fuel : nat) (manifest : list Z) (visit : Z → Z → S → res (ctl S R))
    (done_ : S → R) (s : S) : res R :=
  off ← first_chunk manifest;
  loop fuel (chunk_body manifest visit done_) (off, s).

(** A chunk that starts an element, long enough to be read. *)
Definition starts_element (manifest : list Z) (off type : Z) : bool :=
  (type =? RES_XML_START_ELEMENT_TYPE) && (u64 (off + 36) <=? size manifest).
Definition ends_element (manifest : list Z) (off type : Z) : bool :=
  (type =? RES_XML_END_ELEMENT_TYPE) && (u64 (off + 24) <=? size manifest).

(** platform/android-aarch64/apk/apk_envelope.cpp:790-815 (infer_binary_manifest_string_attribute) *)
Definition string_attribute_visit (manifest : list Z) (strings : list (list Z))
    (element attribute : list Z) (off type : Z) (_ : ()) : res (ctl () (option (list Z))) :=
  if starts_element manifest off type then
    element_idx ← read_u32 manifest (u64 (off + 20));
    if names strings element_idx element then
      v ← attribute_value manifest strings off attribute;
      Ok (match v with Some _ => Stop v | None => Next () end)
    else Ok (Next ())
  else Ok (Next ()).

(** platform/android-aarch64/apk/apk_envelope.cpp:767-818 (infer_binary_manifest_string_attribute) *)
Definition infer_binary_manifest_string_attribute (fuel : nat) (manifest element attribute : list Z)
  : res (option (list Z)) :=
  strings ← axml_string_pool fuel manifest;
  if bool_decide (strings = []) then Ok None
  else walk fuel manifest (string_attribute_visit manifest strings element attribute) (λ _, None) ().

(** platform/android-aarch64/apk/apk_envelope.cpp:711-765 (infer_binary_manifest_package) *)
Definition infer_binary_manifest_package (fuel : nat) (manifest : list Z) : res (option (list Z)) :=
  infer_binary_manifest_string_attribute fuel manifest (cs "manifest") (cs "package").

(** platform/android-aarch64/apk/apk_envelope.cpp:838-861 (infer_binary_manifest_resource_attribute) *)
Definition reference_visit (manifest : list Z) (strings : list (list Z)) (element attribute : list Z)
    (off type : Z) (_ : ()) : res (ctl () (option Z)) :=
  if starts_element manifest off type then
    element_idx ← read_u32 manifest (u64 (off + 20));
    if names strings element_idx element then
      v ← attribute_reference manifest strings off attribute;
      Ok (match v with Some _ => Stop v | None => Next () end)
    else Ok (Next ())
  else Ok (Next ()).

(** platform/android-aarch64/apk/apk_envelope.cpp:820-865 (infer_binary_manifest_resource_attribute) *)
Definition infer_binary_manifest_resource_attribute (fuel : nat) (manifest element attribute : list Z)
  : res (option Z) :=
  strings ← axml_string_pool fuel manifest;
  if bool_decide (strings = []) then Ok None
  else walk fuel manifest (reference_visit manifest strings element attribute) (λ _, None) ().

(** platform/android-aarch64/apk/apk_envelope.cpp:687-709 (infer_binary_manifest_lib) *)
Definition infer_binary_manifest_lib (fuel : nat) (manifest : list Z) (available_bases : list (list Z))
  : res (option (list Z)) :=
  strings ← axml_string_pool fuel manifest;
  Ok (if negb (existsb (λ v, eq_str v (cs "android.app.lib_name")) strings) then None
      else match find_idx (λ base, existsb (eq_str base) strings) available_bases with
           | Some i => available_bases !! i
           | None => if Z.of_nat (length available_bases) =? 1 then head available_bases else None
           end).

(** ** Launcher activity and widget provider *)

(** What is known while the elements are read. *)
Record launch_state := Launch {
  ls_first_activity : option (list Z);
  ls_current_activity : option (list Z);
  ls_launcher_activities : list (list Z);
  ls_has_main_action : bool;
  ls_has_launcher_category : bool;
}.

Definition is_some_str (v : option (list Z)) (s : string) : bool := bool_decide (v = Some (cs s)).

(** platform/android-aarch64/apk/apk_envelope.cpp:922-960 (infer_binary_manifest_launch_activity) *)
Definition launch_visit (manifest : list Z) (strings : list (list Z)) (package_name : option (list Z))
    (off type : Z) (s : launch_state) : res (ctl launch_state (option (list Z))) :=
  if starts_element manifest off type then
    name_idx ← read_u32 manifest (u64 (off + 20));
    let element := if name_idx <? Z.of_nat (length strings) then string_at strings name_idx else [] in
    if eq_str element (cs "activity") then
      name ← attribute_value manifest strings off (cs "name");
      Ok (Next (match name with
          | Some n =>
              let current := Some (normalize_activity_name (value_or package_name) n) in
              Launch (match ls_first_activity s with Some _ => ls_first_activity s | None => current end)
                current (ls_launcher_activities s) false false
          | None => s
          end))
    else if bool_decide (is_Some (ls_current_activity s)) && eq_str element (cs "action") then
      main ← (if ls_has_main_action s then Ok true
              else v ← attribute_value manifest strings off (cs "name");
                   Ok (is_some_str v "android.intent.action.MAIN"));
      Ok (Next (Launch (ls_first_activity s) (ls_current_activity s) (ls_launcher_activities s) main
                  (ls_has_launcher_category s)))
    else if bool_decide (is_Some (ls_current_activity s)) && eq_str element (cs "category") then
      category ← attribute_value manifest strings off (cs "name");
      Ok (Next (Launch (ls_first_activity s) (ls_current_activity s) (ls_launcher_activities s)
                  (ls_has_main_action s)
                  (ls_has_launcher_category s ||
                   is_some_str category "android.intent.category.LAUNCHER" ||
                   is_some_str category "android.intent.category.HOME" ||
                   is_some_str category "android.intent.category.SECONDARY_HOME")))
    else Ok (Next s)
  else if ends_element manifest off type then
    name_idx ← read_u32 manifest (u64 (off + 20));
    Ok (Next (match ls_current_activity s with
        | Some act =>
            if names strings name_idx (cs "activity") then
              Launch (ls_first_activity s) None
                (if ls_has_main_action s && ls_has_launcher_category s
                 then ls_launcher_activities s ++ [act] else ls_launcher_activities s)
                (ls_has_main_action s) (ls_has_launcher_category s)
            else s
        | None => s
        end))
  else Ok (Next s).

(** platform/android-aarch64/apk/apk_envelope.cpp:963-977 (infer_binary_manifest_launch_activity) *)
Definition launch_choice (s : launch_state) : option (list Z) :=
  match ls_launcher_activities s with
  | [] => ls_first_activity s
  | act :: _ =>
      match find_idx main_name (ls_launcher_activities s) with
      | Some i => ls_launcher_activities s !! i
      | None => Some act
      end
  end.

(** platform/android-aarch64/apk/apk_envelope.cpp:867-978 (infer_binary_manifest_launch_activity) *)
Definition infer_binary_manifest_launch_activity (fuel : nat) (manifest : list Z)
    (package_name : option (list Z)) : res (option (list Z)) :=
  strings ← axml_string_pool fuel manifest;
  if bool_decide (strings = []) then Ok None
  else walk fuel manifest (launch_visit manifest strings package_name) launch_choice
         (Launch None None [] false false).

(** platform/android-aarch64/apk/apk_envelope.cpp:1027-1059 (infer_binary_manifest_widget_provider) *)
Definition widget_visit (manifest : list Z) (strings : list (list Z)) (package_name : option (list Z))
    (off type : Z) (receiver : option (list Z)) : res (ctl (option (list Z)) (option (list Z))) :=
  if starts_element manifest off type then
    name ← read_u32 manifest (u64 (off + 20));
    let element := if name <? Z.of_nat (length strings) then string_at strings name else [] in
    if eq_str element (cs "receiver") then
      value ← attribute_value manifest strings off (cs "name");
      Ok (Next (match value with
                | Some v => Some (normalize_activity_name (value_or package_name) v)
                | None => None
                end))
    else if bool_decide (is_Some receiver) && eq_str element (cs "action") then
      v ← attribute_value manifest strings off (cs "name");
      Ok (if is_some_str v "android.appwidget.action.APPWIDGET_UPDATE" then Stop receiver
          else Next receiver)
    else Ok (Next receiver)
  else if ends_element manifest off type then
    name ← read_u32 manifest (u64 (off + 20));
    Ok (Next (if bool_decide (is_Some receiver) && names strings name (cs "receiver")
              then None else receiver))
  else Ok (Next receiver).

(** platform/android-aarch64/apk/apk_envelope.cpp:980-1063 (infer_binary_manifest_widget_provider) *)
Definition infer_binary_manifest_widget_provider (fuel : nat) (manifest : list Z)
    (package_name : option (list Z)) : res (option (list Z)) :=
  strings ← axml_string_pool fuel manifest;
  if bool_decide (strings = []) then Ok None
  else walk fuel manifest (widget_visit manifest strings package_name) (λ _, None) None.

(** ** String resources *)

(** platform/android-aarch64/apk/apk_envelope.cpp:412-418 (resolve_resource_string) *)
Definition RES_TABLE_TYPE : Z := 0x0002.
Definition RES_TABLE_PACKAGE_TYPE : Z := 0x0200.
Definition RES_TABLE_TYPE_TYPE : Z := 0x0201.
Definition NO_ENTRY : Z := 0xffffffff.
Definition FLAG_COMPLEX : Z := 0x0001.
Definition FLAG_SPARSE : Z := 0x01.

(** platform/android-aarch64/apk/apk_envelope.cpp:457-468 (resolve_resource_string)
    The offset of an entry in a sparse type. *)
Definition sparse_body (resources : list Z) (child child_header_size child_size wanted entry_count : Z)
    (i : Z) : res (ctl Z Z) :=
  if i <? entry_count then
    let sparse := u64 (child + child_header_size + u32 (i * 4)) in
    if u64 (child + child_size) <? u64 (sparse + 4) then Ok (Stop NO_ENTRY)
    else
      idx ← read_u16 resources sparse;
      if idx =? wanted then
        o ← read_u16 resources (u64 (sparse + 2));
        Ok (Stop (u32 (o * 4)))
      else Ok (Next (i + 1))
  else Ok (Stop NO_ENTRY).

(** platform/android-aarch64/apk/apk_envelope.cpp:455-474 (resolve_resource_string) *)
Definition entry_offset_of (fuel : nat) (resources : list Z) (child child_header_size child_size resource_id : Z)
  : res Z :=
  type_flags ← at_ resources (u64 (child + 9));
  entry_count ← read_u32 resources (u64 (child + 12));
  let wanted := Z.land resource_id 0xffff in
  if negb (Z.land type_flags FLAG_SPARSE =? 0) then
    loop fuel (sparse_body resources child child_header_size child_size wanted entry_count) 0
  else if wanted <? entry_count then
    let offset_pos := u64 (child + child_header_size + u32 (wanted * 4)) in
    if u64 (offset_pos + 4) <=? u64 (child + child_size) then read_u32 resources offset_pos
    else Ok NO_ENTRY
  else Ok NO_ENTRY.

(** platform/android-aarch64/apk/apk_envelope.cpp:476-493 (resolve_resource_string)
    The string an entry stands for, if it is one. *)
Definition entry_string (resources : list Z) (global_strings : list (list Z))
    (child child_size entries_start entry_offset : Z) : res (option (list Z)) :=
  if entry_offset =? NO_ENTRY then Ok None else
  let entry := u64 (child + entries_start + entry_offset) in
  if negb (u64 (entry + 8) <=? u64 (child + child_size)) then Ok None else
  entry_size ← read_u16 resources entry;
  entry_flags ← read_u16 resources (u64 (entry + 2));
  let value := u64 (entry + entry_size) in
  if (Z.land entry_flags FLAG_COMPLEX =? 0) && (u64 (value + 8) <=? u64 (child + child_size)) then
    value_type ← at_ resources (u64 (value + 3));
    if value_type =? TYPE_STRING then
      string_index ← read_u32 resources (u64 (value + 4));
      Ok (if string_index <? Z.of_nat (length global_strings)
          then Some (string_at global_strings string_index) else None)
    else Ok None
  else Ok None.

(** platform/android-aarch64/apk/apk_envelope.cpp:441-496 (resolve_resource_string)
    One chunk of a package; it goes on behind one that does not answer. *)
Definition child_body (fuel : nat) (resources : list Z) (global_strings : list (list Z))
    (package_end resource_id : Z) (child : Z) : res (ctl Z (option (list Z))) :=
  if u64 (child + 20) <=? package_end then
    child_type ← read_u16 resources child;
    child_header_size ← read_u16 resources (u64 (child + 2));
    child_size ← read_u32 resources (u64 (child + 4));
    if (child_size <? child_header_size) || (package_end <? u64 (child + child_size))
    then Ok (Stop None)
    else
      answer ← (if child_type =? RES_TABLE_TYPE_TYPE then
                  id ← at_ resources (u64 (child + 8));
                  if id =? Z.land (Z.shiftr resource_id 16) 0xff then
                    entry_offset ← entry_offset_of fuel resources child child_header_size child_size resource_id;
                    entries_start ← read_u32 resources (u64 (child + 16));
                    entry_string resources global_strings child child_size entries_start entry_offset
                  else Ok None
                else Ok None);
      Ok (match answer with Some _ => Stop answer | None => Next (u64 (child + child_size)) end)
  else Ok (Stop None).

(** platform/android-aarch64/apk/apk_envelope.cpp:429-498 (resolve_resource_string)
    One chunk of the table: the global strings, or the package asked for. *)
Definition table_body (fuel : nat) (resources : list Z) (table_size resource_id : Z)
    (st : Z * list (list Z)) : res (ctl (Z * list (list Z)) (option (list Z))) :=
  let '(off, global_strings) := st in
  if u64 (off + 8) <=? table_size then
    type ← read_u16 resources off;
    header_size ← read_u16 resources (u64 (off + 2));
    chunk_size ← read_u32 resources (u64 (off + 4));
    if (chunk_size <? header_size) || (table_size <? u64 (off + chunk_size)) then Ok (Stop None)
    else if (type =? 0x0001) && bool_decide (global_strings = []) then
      strings ← string_pool_at resources off;
      Ok (Next (u64 (off + chunk_size), strings))
    else
      here ← (if (type =? RES_TABLE_PACKAGE_TYPE) && (284 <=? header_size) then
                id ← read_u32 resources (u64 (off + 8)); Ok (id =? Z.shiftr resource_id 24)
              else Ok false);
      answer ← (if (here : bool) then
                  loop fuel (child_body fuel resources global_strings (u64 (off + chunk_size)) resource_id)
                    (u64 (off + header_size))
                else Ok None);
      Ok (match answer with Some _ => Stop answer | None => Next (u64 (off + chunk_size), global_strings) end)
  else Ok (Stop None).

(** platform/android-aarch64/apk/apk_envelope.cpp:408-500 (resolve_resource_string) *)
Definition resolve_resource_string (fuel : nat) (resources : list Z) (resource_id : Z)
  : res (option (list Z)) :=
  if size resources <? 12 then Ok None else
  type ← read_u16 resources 0;
  if negb (type =? RES_TABLE_TYPE) then Ok None else
  table_header_size ← read_u16 resources 2;
  table_size ← read_u32 resources 4;
  if (table_size <? table_header_size) || (size resources <? table_size) then Ok None
  else loop fuel (table_body fuel resources table_size resource_id) (table_header_size, []).
