(* ===== verification/ApkLaunch.v ===== *)
(** * Classifying an APK and preparing its launch

    platform/android-aarch64/apk/apk_envelope.cpp:46-64, 233-268 and
    1065-1424, and the structures of apk_envelope.h: what the manifest says,
    what kind of program the archive holds, and the extraction of its native
    libraries and assets to a directory.  The file system is a parameter that
    decides the outcome of each operation from those before it. *)

From S2P Require Import Prelude Decimal Cxx ApkZip ApkText ApkAxml.

(** ** The file system *)

(** What was done to the file system, and with what outcome: the bytes a file
    was left with. *)
Inductive effect :=
  | CreateDirs (path : list Z) (ok : bool)
  | WriteFile (path stored : list Z).

Class Host := {
  (** The size [tellg] answers and the bytes [read] gives. *)
  host_open : list Z → option (Z * option (list Z));
  host_mkdirs : list effect → list Z → bool;
  (** What is stored and the state of the stream; none if it does not open. *)
  host_write : list effect → list Z → list Z → option (list Z * bool);
  host_absolute : list Z → list Z;
  host_file_size : list Z → option Z;
  host_mtime : list Z → option Z;
  host_hash : list Z → Z;
  host_cwd : list Z;
}.

(** Computations on the file system; what was done stays done when they throw. *)
Definition IO (A : Type) : Type := list effect → list effect * res A.
#[global] Instance IO_ret : MRet IO := λ A a l, (l, Ok a).
#[global] Instance IO_bind : MBind IO := λ A B f m l,
  match m l with
  | (l, Ok a) => f a l
  | (l, Throw e) => (l, Throw e)
  | (l, Stray) => (l, Stray)
  | (l, Spin) => (l, Spin)
  end.
Definition pure {A} (r : res A) : IO A := λ l, (l, r).

(** [for (x : l)] with a state *)
Fixpoint for_io {A S} (f : A → S → IO S) (l : list A) (s : S) : IO S :=
  match l with [] => mret s | x :: l => s ← f x s; for_io f l s end.

Section Launch.
Context `{Zlib} `{Host}.

Definition create_directories (path : list Z) : IO () := λ l,
  let ok := host_mkdirs l path in
  (l ++ [CreateDirs path ok], if ok then Ok () else Throw (fail "filesystem error")).

(** platform/android-aarch64/apk/apk_envelope.cpp:46-64 (read_file) *)
Definition read_file (path : list Z) : res (list Z) :=
  match host_open path with
  | None => Throw (runtime_error (cs "unable to open APK: " ++ path))
  | Some (sz, data) =>
      if sz <? 0 then Throw (runtime_error (cs "unable to size APK: " ++ path))
      else if sz =? 0 then Ok []
      else match data with
           | Some d => Ok d
           | None => Throw (runtime_error (cs "unable to read APK: " ++ path))
           end
  end.

(** A number in base sixteen, as [std::hex] prints it. *)
Fixpoint hex_digits (fuel : nat) (n : Z) (acc : list Z) : list Z :=
  match fuel with
  | O => acc
  | S fuel =>
      let d := n mod 16 in
      let acc := (if d <? 10 then 48 + d else 87 + d) :: acc in
      if n <? 16 then acc else hex_digits fuel (n / 16) acc
  end.

(** platform/android-aarch64/apk/apk_envelope.cpp:245-268 (default_extract_dir) *)
Definition default_extract_dir (apk_path base_dir : list Z) : list Z :=
  let seed := host_absolute apk_path in
  let seed :=
    match host_file_size apk_path with
    | None => seed
    | Some n =>
        let seed := seed ++ cs ":" ++ decimal n in
        match host_mtime apk_path with None => seed | Some t => seed ++ cs ":" ++ decimal t end
    end in
  let dir := sanitize_path_component (path_stem apk_path) ++ cs "-" ++
             hex_digits 16 (host_hash seed) [] in
  let base := if eq_str base_dir [] then path_join (path_join host_cwd (cs "build")) (cs "apk")
              else base_dir in
  path_join base dir.

(** ** What the manifest says *)

(** platform/android-aarch64/apk/apk_envelope.cpp:1065-1075 (ManifestInfo) *)
Record ManifestInfo := Info {
  mi_lib_name : option (list Z);
  mi_package_name : option (list Z);
  mi_application_label : option (list Z);
  mi_application_label_resource : option Z;
  mi_application_icon : option (list Z);
  mi_application_icon_resource : option Z;
  mi_application_class : option (list Z);
  mi_launch_activity : option (list Z);
  mi_widget_provider : option (list Z);
}.

(** An attribute of the application, with its prefix or without
    (platform/android-aarch64/apk/apk_envelope.cpp:1077-1089). *)
Definition application_attribute (text : list Z) (prefixed plain : string) : res (option (list Z)) :=
  v ← plain_manifest_attribute text (cs "application") (cs prefixed);
  match v with Some _ => Ok v | None => plain_manifest_attribute text (cs "application") (cs plain) end.

(** platform/android-aarch64/apk/apk_envelope.cpp:1072-1102 (infer_manifest_info) *)
Definition plain_manifest_info (text : list Z) (available_bases : list (list Z)) : res ManifestInfo :=
  package_name ← infer_plain_manifest_package text;
  application_label ← application_attribute text "android:label" "label";
  application_icon ← application_attribute text "android:icon" "icon";
  application_class ← application_attribute text "android:name" "name";
  launch_activity ← infer_plain_manifest_launch_activity text package_name;
  widget_provider ← infer_plain_manifest_widget_provider text package_name;
  Ok (Info (infer_plain_manifest_lib text available_bases) package_name application_label None
        application_icon None
        (option_map (normalize_activity_name (value_or package_name)) application_class)
        launch_activity widget_provider).

(** platform/android-aarch64/apk/apk_envelope.cpp:1104-1124 (infer_manifest_info) *)
Definition binary_manifest_info (fuel : nat) (manifest : list Z) (available_bases : list (list Z))
  : res ManifestInfo :=
  let app := cs "application" in
  package_name ← infer_binary_manifest_package fuel manifest;
  lib_name ← infer_binary_manifest_lib fuel manifest available_bases;
  label ← infer_binary_manifest_string_attribute fuel manifest app (cs "label");
  label_resource ← infer_binary_manifest_resource_attribute fuel manifest app (cs "label");
  icon ← infer_binary_manifest_string_attribute fuel manifest app (cs "icon");
  icon_resource ← infer_binary_manifest_resource_attribute fuel manifest app (cs "icon");
  class ← infer_binary_manifest_string_attribute fuel manifest app (cs "name");
  launch_activity ← infer_binary_manifest_launch_activity fuel manifest package_name;
  widget_provider ← infer_binary_manifest_widget_provider fuel manifest package_name;
  Ok (Info lib_name package_name label label_resource icon icon_resource
        (option_map (normalize_activity_name (value_or package_name)) class) launch_activity
        widget_provider).

(** platform/android-aarch64/apk/apk_envelope.cpp:1065-1125 (infer_manifest_info) *)
Definition infer_manifest_info (fuel : nat) (manifest : list Z) (available_bases : list (list Z))
  : res ManifestInfo :=
  match skip_space manifest with
  | 60 :: _ => plain_manifest_info manifest available_bases
  | _ => binary_manifest_info fuel manifest available_bases
  end.

(** ** What the archive holds *)

(** platform/android-aarch64/apk/apk_envelope.cpp:1127-1136 (join_libs) *)
Fixpoint join_libs_from (first : bool) (libs : list (list Z)) (out : list Z) : res (list Z) :=
  match libs with
  | [] => Ok out
  | lib :: libs =>
      name ← filename_from_zip_path lib;
      join_libs_from false libs ((if first then out else out ++ cs ", ") ++ name)
  end.
Definition join_libs (libs : list (list Z)) : res (list Z) := join_libs_from true libs [].

(** platform/android-aarch64/apk/apk_envelope.h:11-16 (ApkRuntimeKind) *)
Inductive ApkRuntimeKind := Empty | NativeOnly | JavaOnly | Mixed.

(** platform/android-aarch64/apk/apk_envelope.cpp:1138-1148 (runtime_kind_for) *)
Definition runtime_kind_for (arm64_libs dex_files : list (list Z)) : ApkRuntimeKind :=
  match arm64_libs, dex_files with
  | _ :: _, _ :: _ => Mixed
  | _ :: _, [] => NativeOnly
  | [], _ :: _ => JavaOnly
  | [], [] => Empty
  end.

(** platform/android-aarch64/apk/apk_envelope.cpp:1224-1237 (to_string) *)
Definition to_string (kind : ApkRuntimeKind) : list Z :=
  match kind with
  | Empty => cs "empty"
  | NativeOnly => cs "native-only"
  | JavaOnly => cs "java-only"
  | Mixed => cs "mixed"
  end.

(** platform/android-aarch64/apk/apk_envelope.h:42-57 (ApkClassification) *)
Record ApkClassification := Classification {
  ac_apk_path : list Z;
  ac_runtime_kind : ApkRuntimeKind;
  ac_has_manifest : bool;
  ac_manifest_lib : option (list Z);
  ac_manifest_package : option (list Z);
  ac_manifest_application_label : option (list Z);
  ac_manifest_application_icon : option (list Z);
  ac_manifest_application_icon_resource : option Z;
  ac_manifest_application_class : option (list Z);
  ac_manifest_launch_activity : option (list Z);
  ac_manifest_widget_provider : option (list Z);
  ac_arm64_libs : list (list Z);
  ac_dex_files : list (list Z);
  ac_asset_entries : list (list Z);
}.

(** platform/android-aarch64/apk/apk_envelope.cpp:1157-1174 (classify_entries)
    The entries by what they are: manifest, resources, libraries, dex files
    and assets.  The last manifest and the last resources count. *)
Record sorting := Sorting {
  so_manifest : option ZipEntry;
  so_resources : option ZipEntry;
  so_libs : list (list Z);
  so_dex : list (list Z);
  so_assets : list (list Z);
}.
Definition is_arm64_lib (name : list Z) : bool :=
  starts_with name (cs "lib/arm64-v8a/") && ends_with name (cs ".so").
Definition is_asset (name : list Z) : res bool :=
  if starts_with name (cs "assets/") && negb (ends_with name (cs "/"))
  then safe_zip_path name else Ok false.
Definition sort_entry (s : sorting) (entry : ZipEntry) : res sorting :=
  let name := ze_name entry in
  if eq_str name (cs "AndroidManifest.xml") then
    Ok (Sorting (Some entry) (so_resources s) (so_libs s) (so_dex s) (so_assets s))
  else if eq_str name (cs "resources.arsc") then
    Ok (Sorting (so_manifest s) (Some entry) (so_libs s) (so_dex s) (so_assets s))
  else if is_arm64_lib name then
    Ok (Sorting (so_manifest s) (so_resources s) (so_libs s ++ [name]) (so_dex s) (so_assets s))
  else if is_root_dex name then
    Ok (Sorting (so_manifest s) (so_resources s) (so_libs s) (so_dex s ++ [name]) (so_assets s))
  else
    asset ← is_asset name;
    Ok (if (asset : bool)
        then Sorting (so_manifest s) (so_resources s) (so_libs s) (so_dex s) (so_assets s ++ [name])
        else s).
Fixpoint sort_entries (entries : list ZipEntry) (s : sorting) : res sorting :=
  match entries with [] => Ok s | e :: entries => s ← sort_entry s e; sort_entries entries s end.

Fixpoint base_names (libs : list (list Z)) : res (list (list Z)) :=
  match libs with
  | [] => Ok []
  | lib :: libs => b ← lib_base_name lib; bs ← base_names libs; Ok (b :: bs)
  end.

(** A resource that is asked for, if there is a table
    (platform/android-aarch64/apk/apk_envelope.cpp:1187-1192). *)
Definition resolve_in (fuel : nat) (apk : list Z) (resources_entry : option ZipEntry)
    (resource : option Z) (otherwise : option (list Z)) : res (option (list Z)) :=
  match resource, resources_entry with
  | Some id, Some e => data ← extract_entry_data apk e; resolve_resource_string fuel data id
  | _, _ => Ok otherwise
  end.

(** platform/android-aarch64/apk/apk_envelope.cpp:1150-1220 (classify_entries) *)
Definition classify_entries (fuel : nat) (apk_path apk : list Z) (entries : list ZipEntry)
  : res ApkClassification :=
  s ← sort_entries entries (Sorting None None [] [] []);
  available_bases ← base_names (so_libs s);
  let libs := sort_strings (so_libs s) in
  let dex := sort_strings (so_dex s) in
  let assets := sort_strings (so_assets s) in
  let kind := runtime_kind_for libs dex in
  match so_manifest s with
  | None =>
      Ok (Classification apk_path kind false None None None None None None None None libs dex assets)
  | Some manifest_entry =>
      manifest ← extract_entry_data apk manifest_entry;
      info ← infer_manifest_info fuel manifest available_bases;
      label ← match mi_application_label info with
              | Some _ => Ok (mi_application_label info)
              | None => resolve_in fuel apk (so_resources s) (mi_application_label_resource info) None
              end;
      by_resource ← match mi_application_icon info with
                    | None => Ok true
                    | Some icon => c ← at_ icon 0; Ok (c =? 64)
                    end;
      icon ← (if (by_resource : bool)
              then resolve_in fuel apk (so_resources s) (mi_application_icon_resource info)
                     (mi_application_icon info)
              else Ok (mi_application_icon info));
      Ok (Classification apk_path kind true (mi_lib_name info) (mi_package_name info) label icon
            (mi_application_icon_resource info) (mi_application_class info)
            (mi_launch_activity info) (mi_widget_provider info) libs dex assets)
  end.

(** platform/android-aarch64/apk/apk_envelope.cpp:1239-1247 (classify_apk) *)
Definition classify_apk (fuel : nat) (apk_path : list Z) : res ApkClassification :=
  _ ← throw_if (eq_str apk_path []) (fail "APK path is empty");
  apk ← read_file apk_path;
  entries ← read_zip_entries apk;
  classify_entries fuel apk_path apk entries.

(** platform/android-aarch64/apk/apk_envelope.cpp:1263-1272 (extract_apk_entry)
    The directory and the file of an entry; the state of the stream is the
    answer. *)
Definition write_entry (output_path data : list Z) : IO bool := λ l,
  let dir := path_parent output_path in
  let ok := host_mkdirs l dir in
  let l := l ++ [CreateDirs dir ok] in
  if negb ok then (l, Ok false)
  else match host_write l output_path data with
       | None => (l, Ok false)
       | Some (stored, good) => (l ++ [WriteFile output_path stored], Ok good)
       end.

(** platform/android-aarch64/apk/apk_envelope.cpp:1249-1273 (extract_apk_entry) *)
Definition extract_apk_entry (apk_path entry_path output_path : list Z) : IO bool :=
  safe ← pure (safe_zip_path entry_path);
  if negb safe then mret false else
  apk ← pure (read_file apk_path);
  entries ← pure (read_zip_entries apk);
  match find_idx (λ e, eq_str (ze_name e) entry_path) entries ≫= λ i, entries !! i with
  | None => mret false
  | Some found =>
      data ← pure (extract_entry_data apk found);
      write_entry output_path data
  end.

(** ** Preparing a launch *)

(** platform/android-aarch64/apk/apk_envelope.h:18-23 (ApkLaunchConfig) *)
Record ApkLaunchConfig := Config {
  cfg_apk_path : list Z;
  cfg_lib_name : option (list Z);
  cfg_output_base_dir : list Z;
  cfg_output_dir : list Z;
}.

(** platform/android-aarch64/apk/apk_envelope.h:25-40 (ApkLaunchResult)
    The seven answers about the manifest are those of the classification. *)
Record ApkLaunchResult := Launched {
  lr_apk_path : list Z;
  lr_extract_dir : list Z;
  lr_so_path : list Z;
  lr_assets_dir : list Z;
  lr_selected_lib : list Z;
  lr_manifest : ApkClassification;
  lr_extracted_libs : list (list Z);
  lr_extracted_assets : list (list Z);
}.

(** platform/android-aarch64/apk/apk_envelope.cpp:1286-1297 (prepare_apk_launch) *)
Fixpoint launch_entries (entries : list ZipEntry) : res (list ZipEntry * list ZipEntry) :=
  match entries with
  | [] => Ok ([], [])
  | e :: entries =>
      asset ← (if is_arm64_lib (ze_name e) then Ok false else is_asset (ze_name e));
      '(libs, assets) ← launch_entries entries;
      Ok (if is_arm64_lib (ze_name e) then (e :: libs, assets)
          else if (asset : bool) then (libs, e :: assets) else (libs, assets))
  end.

(** The first library that goes by a name. *)
Fixpoint first_match (libs : list ZipEntry) (name : list Z) : res (option ZipEntry) :=
  match libs with
  | [] => Ok None
  | lib :: libs =>
      m ← lib_name_matches (ze_name lib) name;
      if (m : bool) then Ok (Some lib) else first_match libs name
  end.

(** platform/android-aarch64/apk/apk_envelope.cpp:1326-1356 (prepare_apk_launch) *)
Definition select_lib (lib_name manifest_lib : option (list Z)) (libs : list ZipEntry)
    (available_bases : list (list Z)) : res (option ZipEntry) :=
  match lib_name with
  | Some name =>
      selected ← first_match libs name;
      match selected with
      | Some _ => Ok selected
      | None =>
          available ← join_libs available_bases;
          Throw (runtime_error (cs "APK does not contain requested arm64 lib '" ++ name ++
                                cs "'; available: " ++ available))
      end
  | None =>
      match manifest_lib with
      | Some name => first_match libs name
      | None =>
          match libs with
          | [lib] => Ok (Some lib)
          | _ => first_match libs (cs "main")
          end
      end
  end.

(** [std::ofstream out(path, std::ios::binary | std::ios::trunc)] and
    [out.write], whose failure is not looked at. *)
Definition write_extracted (path data : list Z) (what : string) : IO () := λ l,
  match host_write l path data with
  | None => (l, Throw (runtime_error (cs what ++ path)))
  | Some (stored, _) => (l ++ [WriteFile path stored], Ok ())
  end.

(** platform/android-aarch64/apk/apk_envelope.cpp:1389-1403 (prepare_apk_launch) *)
Definition extract_lib (apk lib_dir : list Z) (selected lib : ZipEntry)
    (st : list (list Z) * list Z) : IO (list (list Z) * list Z) :=
  data ← pure (extract_entry_data apk lib);
  filename ← pure (filename_from_zip_path (ze_name lib));
  let out_path := path_join lib_dir filename in
  _ ← write_extracted out_path data "unable to write extracted lib: ";
  mret (st.1 ++ [out_path], if eq_str (ze_name lib) (ze_name selected) then out_path else st.2).

(** platform/android-aarch64/apk/apk_envelope.cpp:1405-1418 (prepare_apk_launch) *)
Definition extract_asset (apk extract_dir : list Z) (asset : ZipEntry) (st : list (list Z))
  : IO (list (list Z)) :=
  data ← pure (extract_entry_data apk asset);
  let out_path := path_join extract_dir (ze_name asset) in
  _ ← create_directories (path_parent out_path);
  _ ← write_extracted out_path data "unable to write extracted asset: ";
  mret (st ++ [out_path]).

(** platform/android-aarch64/apk/apk_envelope.cpp:1275-1424 (prepare_apk_launch) *)
Definition prepare_apk_launch (fuel : nat) (config : ApkLaunchConfig) : IO ApkLaunchResult :=
  let apk_path := cfg_apk_path config in
  _ ← pure (throw_if (eq_str apk_path []) (fail "APK path is empty"));
  apk ← pure (read_file apk_path);
  entries ← pure (read_zip_entries apk);
  classification ← pure (classify_entries fuel apk_path apk entries);
  '(arm64_libs, asset_entries) ← pure (launch_entries entries);
  let java_only := match ac_runtime_kind classification with JavaOnly => true | _ => false end in
  _ ← pure (throw_if (bool_decide (arm64_libs = []) && java_only)
        (fail "APK runtime kind is java-only; Java/ART APK launch is not implemented yet"));
  _ ← pure (throw_if (bool_decide (arm64_libs = []))
        (fail "APK has no lib/arm64-v8a/*.so entries"));
  available_bases ← pure (base_names (ze_name <$> arm64_libs));
  chosen ← pure (select_lib (cfg_lib_name config) (ac_manifest_lib classification) arm64_libs
                   available_bases);
  match chosen with
  | None =>
      available ← pure (join_libs available_bases);
      pure (Throw (runtime_error (cs "APK has multiple arm64 native libraries and no clear NativeActivity lib_name; use --apk-lib. Available: " ++ available)))
  | Some selected =>
      let extract_dir :=
        if eq_str (cfg_output_dir config) []
        then default_extract_dir apk_path (cfg_output_base_dir config)
        else cfg_output_dir config in
      let lib_dir := path_join (path_join extract_dir (cs "lib")) (cs "arm64-v8a") in
      let assets_dir := path_join extract_dir (cs "assets") in
      _ ← create_directories lib_dir;
      _ ← (if bool_decide (asset_entries = []) then mret () else create_directories assets_dir);
      selected_lib ← pure (lib_base_name (ze_name selected));
      '(libs, so_path) ← for_io (extract_lib apk lib_dir selected) arm64_libs ([], []);
      assets ← for_io (extract_asset apk extract_dir) asset_entries [];
      _ ← pure (throw_if (eq_str so_path []) (fail "internal APK extraction error: selected lib missing"));
      mret (Launched apk_path extract_dir so_path assets_dir selected_lib classification libs assets)
  end.
End Launch.
