(* ===== verification/ApkAxmlProps.v ===== *)
(** * Reading manifests and resource tables: bounds and termination

    No reader of a compiled manifest or a resource table leaves the bytes it
    is given, and each one ends unless a chunk on its way has the size zero;
    then it never does.  The two readers of string pools differ. *)

From S2P Require Import Prelude Decimal Cxx ApkZip ApkZipProps ApkText ApkAxml.

(** Case analysis on the test a computation starts with. *)
Ltac wp_if E :=
  match goal with |- wps _ (if ?b then _ else _) _ => destruct b eqn:E end.

(** ** Chunks *)

(** The positions a walk over chunks can come to, from [first] and below
    [lim]. *)
Inductive reached (m : list Z) (lim first : Z) : Z → Prop :=
  | reached_first : reached m lim first first
  | reached_next off : reached m lim first off → off + 8 <= lim →
      field 2 m (off + 2) <= field 4 m (off + 4) → off + field 4 m (off + 4) <= lim →
      reached m lim first (off + field 4 m (off + 4)).
(** One of them holds a chunk of size zero. *)
Definition stuck_chunk (m : list Z) (lim first : Z) : Prop :=
  ∃ off, reached m lim first off ∧ off + 8 <= lim ∧ field 4 m (off + 4) = 0.
(** The first chunk of a manifest: after the header of the file. *)
Definition axml_first (m : list Z) : Z :=
  if (8 <=? size m) && (field 2 m 0 =? 3) then 8 else 0.

(** The walk over a manifest comes to an empty chunk. *)
Definition stuck_manifest (m : list Z) : Prop := stuck_chunk m (size m) (axml_first m).

Lemma first_chunk_eq m : fits m → first_chunk m = Ok (axml_first m).
Proof.
  intros Hf. unfold first_chunk, axml_first. destruct (Z.leb_spec 8 (size m)); [|done].
  rewrite read_u16_eq, (proj2 (Z.ltb_ge _ _)) by (first [done|lia]). done.
Qed.
Lemma axml_first_range m : fits m → 0 <= axml_first m <= size m.
Proof.
  intros Hf. pose proof (size_nonneg m). unfold axml_first.
  destruct (Z.leb_spec 8 (size m)); cbn; [destruct (_ =? _)|]; lia.
Qed.
Lemma reached_range m lim first off :
  bytes m → 0 <= first <= lim → reached m lim first off → 0 <= off <= lim.
Proof.
  intros Hb Hr. induction 1 as [|off _ IH ? ? ?]; [done|].
  pose proof (field_range 4 m (off + 4) Hb). lia.
Qed.

(** ** Strings *)

Section Strings.
Context (m : list Z) (Hf : fits m).

Lemma wp_read_len8 P pos (Q : Z * Z → Prop) : 0 <= pos < 9223372036854775808 →
  (∀ n pos', 0 <= n < 32768 → pos < pos' <= size m → Q (n, pos')) → wps P (read_len8 m pos) Q.
Proof.
  intros Hp HQ. pose proof Hf as [Hb Hs]. unfold read_len8.
  apply wp_bind, wp_throw_if. intros H%Z.leb_gt. apply wp_bind, wp_at; [unfold size in H; lia|].
  intros first Hl. pose proof (Forall_lookup_1 _ _ _ _ Hb Hl) as Hfirst. unwrap.
  pose proof (Z.land_nonneg first 0x7f) as Hn.
  assert (Z.land first 0x7f < 128) as Hl7.
  { change 0x7f with (Z.ones 7). rewrite land_ones_mod by lia. change (2 ^ 7) with 128. zdm. }
  destruct (_ =? 0); [apply wp_ret, HQ; words; lia|].
  apply wp_bind, wp_throw_if. intros H'%Z.leb_gt. apply wp_bind, wp_at; [unfold size in H'; lia|].
  intros second Hl2. pose proof (Forall_lookup_1 _ _ _ _ Hb Hl2) as Hsecond. unwrap.
  apply wp_ret, HQ; [|lia]. rewrite Z.lor_comm, lor_shiftl_add by (change (2 ^ 8) with 256; words; lia).
  change (2 ^ 8) with 256. words. lia.
Qed.

Lemma wp_utf8 P off (Q : list Z → Prop) : 0 <= off < 4611686018427387904 →
  (∀ s, bytes s → Q s) → wps P (utf8_length_string m off) Q.
Proof.
  intros Ho HQ. pose proof Hf as [Hb Hs]. unfold utf8_length_string.
  apply wp_bind, wp_read_len8; [lia|]. intros n pos ? ?. apply wp_bind, wp_read_len8; [lia|].
  intros n2 pos2 ? ?. unwrap. apply wp_bind, wp_throw_if. intros ?%Z.ltb_ge.
  apply wp_range; [lia..|]. apply HQ. by apply bytes_take, bytes_drop.
Qed.

Lemma wp_utf16 P off (Q : list Z → Prop) : 0 <= off < 4611686018427387904 →
  (∀ s, bytes s → Q s) → wps P (utf16_length_string m off) Q.
Proof.
  intros Ho HQ. pose proof Hf as [Hb Hs]. unfold utf16_length_string, read_len16. apply wp_weaken.
  apply wp_bind, wp_bind, wp_read_u16; [done|lia|]. intros H1 H2. unwrap.
  assert (∀ len pos, 0 <= pos <= size m →
    wp (loop (S (S (length m))) (utf16_body m len) (0, pos, [])) Q) as Hloop.
  { intros len pos Hpos.
    apply (wp_loop _ (λ st, 0 <= st.1.2 <= size m ∧ bytes st.2) (λ st, size m - st.1.2)).
    - intros [[i p] out] [Hp Hout]. unfold utf16_body. destruct (i <? len); [|by apply wp_ret, HQ].
      cbn [fst snd] in *. wp_steps. cbn [fst snd]. split; [|words; lia]. split; [words; lia|].
      apply Forall_app. split; [done|]. constructor; [|constructor].
      destruct (Z.ltb_spec (field 2 m p) 128); words; lia.
    - cbn. split; [lia|constructor].
    - cbn. unfold size in *. lia. }
  destruct (_ =? 0).
  - apply wp_ret. apply Hloop. lia.
  - apply wp_bind, wp_read_u16; [done|lia|]. intros H3 H4. unwrap. apply wp_ret. apply Hloop. lia.
Qed.

Lemma wp_pool_string P utf8 off (Q : list Z → Prop) : 0 <= off < 4611686018427387904 →
  (∀ s, bytes s → Q s) → wps P (pool_string utf8 m off) Q.
Proof. intros. unfold pool_string. destruct utf8; [by apply wp_utf8|by apply wp_utf16]. Qed.

Context (Hsmall : size m < 4294967296).

(** The loops over the strings of a pool, of a manifest or of a table: each
    pass reads an offset that is there. *)
Lemma wp_axml_strings P fuel off hs csz ss utf8 count :
  0 <= off <= size m → in_u16 hs → in_u32 ss → in_u32 csz → (length m < fuel)%nat →
  wps P (loop fuel (axml_string_body m off hs csz ss utf8 count) (0, [])) (λ l, Forall bytes l).
Proof.
  intros. pose proof Hf as [Hb Hs]. apply wp_weaken.
  apply (wp_loop _ (λ st, 0 <= 4 * st.1 <= size m ∧ Forall bytes st.2) (λ st, size m - 4 * st.1)).
  - intros [i l] [Hi Hl]. unfold axml_string_body. destruct (i <? count); [|done].
    cbn [fst snd] in *. rewrite (u32_small (i * 4)) by (words; lia). wp_steps; cbn [fst snd].
    + split; [split; [words; lia|done]|words; lia].
    + apply wp_catch; [apply wp_pool_string; [words; lia|]|].
      * intros s Hbs. apply wp_ret. cbn [fst snd]. split; [split; [words; lia|]|words; lia].
        apply Forall_app. split; [done|]. by constructor.
      * apply wp_ret, wp_ret. cbn [fst snd]. split; [split; [words; lia|]|words; lia].
        apply Forall_app. split; [done|]. by repeat constructor.
  - cbn. split; [split; [lia|apply size_nonneg]|constructor].
  - cbn. unfold size in *. lia.
Qed.
Lemma wp_pool_strings P off hs csz ss flags count :
  0 <= off <= size m → in_u16 hs → in_u32 ss → in_u32 csz →
  wps P (loop (S (length m)) (pool_at_body m off hs csz ss flags count) (0, [])) (λ l, Forall bytes l).
Proof.
  intros. pose proof Hf as [Hb Hs]. apply wp_weaken.
  apply (wp_loop _ (λ st, 0 <= 4 * st.1 <= size m ∧ Forall bytes st.2) (λ st, size m - 4 * st.1)).
  - intros [i l] [Hi Hl]. unfold pool_at_body. destruct (i <? count); [|done].
    cbn [fst snd] in *. rewrite (u32_small (i * 4)) by (words; lia). wp_steps; cbn [fst snd].
    + split; [split; [words; lia|]|words; lia]. apply Forall_app. split; [done|]. by repeat constructor.
    + apply wp_catch; [apply wp_pool_string; [words; lia|]|].
      * intros s Hbs. apply wp_ret. cbn [fst snd]. split; [split; [words; lia|]|words; lia].
        apply Forall_app. split; [done|]. by constructor.
      * apply wp_ret, wp_ret. cbn [fst snd]. split; [split; [words; lia|]|words; lia].
        apply Forall_app. split; [done|]. by repeat constructor.
  - cbn. split; [split; [lia|apply size_nonneg]|constructor].
  - cbn. unfold size in *. lia.
Qed.

Lemma wp_string_pool_at P off : 0 <= off <= size m → wps P (string_pool_at m off) (Forall bytes).
Proof.
  intros Ho. pose proof Hf as [Hb Hs]. unfold string_pool_at. unwrap.
  destruct (Z.ltb_spec (size m) (off + 28)); [apply wp_ret; constructor|]. wp_steps; [constructor..|].
  apply wp_pool_strings; done.
Qed.

(** ** The walks *)

Context (fuel : nat) (Hfuel : (length m < fuel)%nat).

(** A step of a walk goes to the next chunk, which is further on unless the
    chunk is empty. *)
Lemma walk_step lim first off :
  0 <= first → reached m lim first off → 0 <= off → off + 8 <= lim →
  field 2 m (off + 2) <= field 4 m (off + 4) → off + field 4 m (off + 4) <= lim →
  reached m lim first (off + field 4 m (off + 4)) ∧
  (stuck_chunk m lim first ∨ 0 <= lim - (off + field 4 m (off + 4)) < lim - off).
Proof.
  intros H0 Hr Ho ? ? ?. split; [by apply reached_next|].
  destruct (Z.eq_dec (field 4 m (off + 4)) 0); [left; by exists off|]. right.
  pose proof (field_range 4 m (off + 4) (proj1 Hf)). lia.
Qed.

Lemma wp_axml_pool :
  wps (stuck_manifest m) (axml_string_pool fuel m) (Forall bytes).
Proof.
  pose proof Hf as [Hb Hs]. pose proof (axml_first_range m Hf) as Hfirst.
  unfold axml_string_pool. rewrite first_chunk_eq by done. cbn [mbind res_bind].
  apply (wps_loop _ _ (λ off, reached m (size m) (axml_first m) off) (λ off, size m - off)).
  - intros off Hr. pose proof (reached_range _ _ _ _ Hb Hfirst Hr) as Ho. unfold axml_pool_body.
    unwrap. destruct (Z.leb_spec (off + 28) (size m)); [|apply wp_ret; constructor].
    do 6 wp_step. destruct (_ || _) eqn:E.
    { apply wp_ret. constructor. }
    apply orb_false_iff in E as [E1%Z.ltb_ge E2%Z.ltb_ge]. destruct (negb _).
    { apply wp_ret. unwrap. apply walk_step; (done || lia). }
    wp_steps; [constructor|]. apply wp_fmap, wp_axml_strings; done.
  - constructor.
  - right. unfold size in *. lia.
Qed.

Lemma wp_walk {S R} (visit : Z → Z → S → res (ctl S R)) (done_ : S → R) (I : S → Prop) (Q : R → Prop) s :
  (∀ off type s, 0 <= off → off + 8 <= size m → off + field 4 m (off + 4) <= size m → I s →
    wp (visit off type s) (λ c, match c with Next s' => I s' | Stop r => Q r end)) →
  (∀ s, I s → Q (done_ s)) → I s →
  wps (stuck_manifest m) (walk fuel m visit done_ s) Q.
Proof.
  intros Hv Hd Hi. pose proof Hf as [Hb Hs]. pose proof (axml_first_range m Hf) as Hfirst.
  unfold walk. rewrite first_chunk_eq by done. cbn [mbind res_bind].
  apply (wps_loop _ _ (λ st, reached m (size m) (axml_first m) st.1 ∧ I st.2) (λ st, size m - st.1)).
  - intros [off s'] [Hr Hs']. pose proof (reached_range _ _ _ _ Hb Hfirst Hr) as Ho.
    cbn [fst snd] in *. unfold chunk_body. unwrap.
    destruct (Z.leb_spec (off + 8) (size m)); [|by apply wp_ret, Hd].
    do 6 wp_step. destruct (_ || _) eqn:E; [by apply wp_ret, Hd|].
    apply orb_false_iff in E as [E1%Z.ltb_ge E2%Z.ltb_ge]. apply wp_bind, wp_weaken. eapply wp_mono; [apply Hv; (lia || done)|].
    intros [s2|r] Hc; [|done]. apply wp_ret. cbn [fst snd]. unwrap.
    destruct (walk_step (size m) (axml_first m) off) as [Hr2 Hm2]; done || lia || auto.
  - split; [constructor|done].
  - right. cbn. unfold size in *. lia.
Qed.

(** The attributes of an element whose chunk is in bounds. *)
Lemma wp_attribute_value strings off wanted (Q : option (list Z) → Prop) :
  0 <= off → off + 36 <= size m → off + field 4 m (off + 4) <= size m →
  (∀ v, (∀ s, v = Some s → s ∈ strings) → Q v) → wp (attribute_value m strings off wanted) Q.
Proof.
  intros Ho H36 Hc HQ. pose proof Hf as [Hb Hs]. unfold attribute_value. unwrap. do 8 wp_step.
  apply wp_bind. eapply wp_mono.
  - apply (wp_upto _ _ (λ _ _, True) (λ v, ∀ s, v = Some s → s ∈ strings)); [|done].
    intros i [] Hi _. unfold attribute_body. rewrite Z2Nat.id in Hi by (words; lia).
    assert (0 <= i * field 2 m (off + 26) < 4294967296) by (words; nia). unwrap.
    destruct (Z.ltb_spec (off + field 4 m (off + 4))
      (off + 16 + field 2 m (off + 24) + i * field 2 m (off + 26) + 20)); [by intros ? [=]|].
    assert (∀ k, 0 <= k → (k <? Z.of_nat (length strings)) = true → string_at strings k ∈ strings) as Hin.
    { intros k Hk0 Hk%Z.ltb_lt. unfold string_at. destruct (lookup_lt_is_Some_2 strings (Z.to_nat k)) as [x E]; [lia|].
      rewrite E. by eapply list_elem_of_lookup_2. }
    wp_step. wp_step. destruct (negb (names _ _ _)); [done|]. wp_step. wp_step.
    destruct (_ && _) eqn:E.
    { apply andb_true_iff in E as [_ E]. apply wp_ret. intros s [= <-]. apply Hin; [words; lia|done]. }
    apply wp_bind, wp_at; [words; unfold size in *; lia|]. intros ty _. wp_step. wp_step.
    apply wp_ret.
    destruct (ty =? TYPE_STRING); [cbn [andb]|exact I].
    match goal with |- context [?k <? ?n] => destruct (k <? n) eqn:E2 end; [|exact I]. intros s [= <-]. apply Hin; [words; lia|done].
  - intros [u|v] Hv; apply wp_ret, HQ; [done|done].
Qed.

Lemma wp_attribute_reference strings off wanted (Q : option Z → Prop) :
  0 <= off → off + 36 <= size m → off + field 4 m (off + 4) <= size m →
  (∀ v, (∀ n, v = Some n → in_u32 n) → Q v) → wp (attribute_reference m strings off wanted) Q.
Proof.
  intros Ho H36 Hc HQ. pose proof Hf as [Hb Hs]. unfold attribute_reference. unwrap. do 8 wp_step.
  apply wp_bind. eapply wp_mono.
  - apply (wp_upto _ _ (λ _ _, True) (λ v, ∀ n, v = Some n → in_u32 n)); [|done].
    intros i [] Hi _. unfold reference_body. rewrite Z2Nat.id in Hi by (words; lia).
    assert (0 <= i * field 2 m (off + 26) < 4294967296) by (words; nia). unwrap.
    destruct (Z.ltb_spec (off + field 4 m (off + 4))
      (off + 16 + field 2 m (off + 24) + i * field 2 m (off + 26) + 20)); [by intros ? [=]|].
    wp_step. wp_step. destruct (names _ _ _); [|done].
    apply wp_bind, wp_at; [words; unfold size in *; lia|]. intros ty _.
    destruct (_ || _); [|done]. wp_steps. by intros n [= <-].
  - intros [u|v] Hv; apply wp_ret, HQ; [done|done].
Qed.

(** ** The readers of the manifest *)

Lemma wp_string_attribute element attribute :
  wps (stuck_manifest m) (infer_binary_manifest_string_attribute fuel m element attribute)
    (λ v, ∀ s, v = Some s → bytes s).
Proof.
  unfold infer_binary_manifest_string_attribute. pose proof Hf as [Hb Hs].
  apply wp_bind. eapply wp_mono; [apply wp_axml_pool|]. intros strings Hst.
  case_bool_decide; [by intros ? [=]|].
  apply (wp_walk _ _ (λ _, True)); [|done|done]. intros off type [] H1 H2 H3 _.
  unfold string_attribute_visit, starts_element. unwrap. wp_if E; [|exact I].
  apply andb_true_iff in E as [_ H4%Z.leb_le]. wp_step. wp_step. destruct (names _ _ _); [|done].
  apply wp_bind, wp_attribute_value; [lia..|]. intros v Hv. apply wp_ret.
  destruct v as [v|]; [|done]. intros s [= <-].
  rewrite Forall_forall in Hst. by apply Hst, Hv.
Qed.

Lemma wp_resource_attribute element attribute :
  wps (stuck_manifest m) (infer_binary_manifest_resource_attribute fuel m element attribute)
    (λ v, ∀ n, v = Some n → in_u32 n).
Proof.
  unfold infer_binary_manifest_resource_attribute. pose proof Hf as [Hb Hs].
  apply wp_bind. eapply wp_mono; [apply wp_axml_pool|]. intros strings Hst.
  case_bool_decide; [by intros ? [=]|].
  apply (wp_walk _ _ (λ _, True)); [|done|done]. intros off type [] H1 H2 H3 _.
  unfold reference_visit, starts_element. unwrap. wp_if E; [|exact I].
  apply andb_true_iff in E as [_ H4%Z.leb_le]. wp_step. wp_step. destruct (names _ _ _); [|done].
  apply wp_bind, wp_attribute_reference; [lia..|]. intros v Hv. apply wp_ret. by destruct v.
Qed.

Lemma wp_manifest_lib bases :
  wps (stuck_manifest m) (infer_binary_manifest_lib fuel m bases) (λ v, ∀ s, v = Some s → s ∈ bases).
Proof.
  unfold infer_binary_manifest_lib. apply wp_bind. eapply wp_mono; [apply wp_axml_pool|].
  intros strings _. apply wp_ret. intros s. destruct (negb _); [done|].
  destruct (find_idx _ _) as [i|].
  - apply list_elem_of_lookup_2.
  - destruct (_ =? 1); [|done]. destruct bases; [done|]. intros [= <-]. set_solver.
Qed.

(** A visit of an element reads its attributes inside of its chunk. *)
Ltac wp_visit :=
  repeat match goal with
  | |- wps _ (_ ≫= _) _ => apply wp_bind
  | |- wps _ (attribute_value _ _ _ _) _ => apply wp_attribute_value; [lia..|intros ? _]
  | |- wps _ (Ok _) _ => apply wp_ret
  | |- wps _ (if ?b then _ else _) _ => destruct b
  | |- True => exact I
  | _ => case_match
  end.
Lemma wp_launch_activity package :
  wps (stuck_manifest m) (infer_binary_manifest_launch_activity fuel m package) (λ _, True).
Proof.
  unfold infer_binary_manifest_launch_activity. pose proof Hf as [Hb Hs].
  apply wp_bind. eapply wp_mono; [apply wp_axml_pool|]. intros strings Hst.
  case_bool_decide; [done|].
  apply (wp_walk _ _ (λ _, True)); [|done|done]. intros off type s H1 H2 H3 _.
  unfold launch_visit, starts_element, ends_element. unwrap. wp_if E.
  - apply andb_true_iff in E as [_ H4%Z.leb_le]. wp_step. wp_step.
    wp_visit.
  - wp_if E2; [|exact I]. apply andb_true_iff in E2 as [_ H4%Z.leb_le]. by wp_steps.
Qed.

Lemma wp_widget_provider package :
  wps (stuck_manifest m) (infer_binary_manifest_widget_provider fuel m package) (λ _, True).
Proof.
  unfold infer_binary_manifest_widget_provider. pose proof Hf as [Hb Hs].
  apply wp_bind. eapply wp_mono; [apply wp_axml_pool|]. intros strings Hst.
  case_bool_decide; [done|].
  apply (wp_walk _ _ (λ _, True)); [|done|done]. intros off type s H1 H2 H3 _.
  unfold widget_visit, starts_element, ends_element. unwrap. wp_if E.
  - apply andb_true_iff in E as [_ H4%Z.leb_le]. wp_step. wp_step.
    wp_visit.
  - wp_if E2; [|exact I]. apply andb_true_iff in E2 as [_ H4%Z.leb_le]. by wp_steps.
Qed.

(** ** The resource table *)

(** The walk over the chunks of the table, or over those of a package, comes
    to an empty chunk. *)
Definition stuck_resources : Prop :=
  stuck_chunk m (field 4 m 4) (field 2 m 2) ∨
  ∃ off, reached m (field 4 m 4) (field 2 m 2) off ∧
    stuck_chunk m (off + field 4 m (off + 4)) (off + field 2 m (off + 2)).

Lemma string_at_in (strings : list (list Z)) k :
  0 <= k → (k <? Z.of_nat (length strings)) = true → string_at strings k ∈ strings.
Proof.
  intros Hk0 Hk%Z.ltb_lt. unfold string_at.
  destruct (lookup_lt_is_Some_2 strings (Z.to_nat k)) as [x E]; [lia|].
  rewrite E. by eapply list_elem_of_lookup_2.
Qed.

Lemma wp_entry_offset child hs csz id :
  0 <= child → in_u16 hs → in_u32 csz → child + csz <= size m → child + 20 <= size m → in_u32 id →
  wp (entry_offset_of fuel m child hs csz id) in_u32.
Proof.
  intros Hc Hh Hz Hl H20 Hid. pose proof Hf as [Hb Hs]. unfold entry_offset_of. unwrap.
  apply wp_bind, wp_at; [words; unfold size in *; lia|]. intros flags _. wp_step. wp_step.
  set (wanted := Z.land id 65535).
  assert (0 <= wanted < 65536) as Hw.
  { unfold wanted. change 65535 with (Z.ones 16). rewrite land_ones_mod by lia.
    change (2 ^ 16) with 65536. zdm. }
  wp_if E.
  - apply (wp_loop _ (λ i, 0 <= 4 * i <= size m) (λ i, size m - 4 * i)).
    + intros i Hi. unfold sparse_body. wp_if Ei; [|by apply wp_ret].
      rewrite (u32_small (i * 4)) by (words; lia). unwrap. wp_if E2; [by apply wp_ret|].
      apply Z.ltb_ge in E2. wp_step. wp_step. wp_if E3.
      * wp_steps. apply u32_range.
      * apply wp_ret. words. lia.
    + pose proof (size_nonneg m). lia.
    + unfold size in *. lia.
  - wp_if E1; [|by apply wp_ret]. rewrite (u32_small (wanted * 4)) by (words; lia). unwrap.
    wp_if E2; [|by apply wp_ret]. by apply wp_read_u32; [|words; lia|].
Qed.

Lemma wp_entry_string strings child csz start eo :
  0 <= child → in_u32 csz → child + csz <= size m → in_u32 start → in_u32 eo →
  wp (entry_string m strings child csz start eo) (λ v, ∀ s, v = Some s → s ∈ strings).
Proof.
  intros Hc Hz Hl Hst Heo. pose proof Hf as [Hb Hs]. unfold entry_string.
  wp_if E; [by intros ? [=]|]. unwrap. wp_if E1; [by intros ? [=]|].
  apply negb_false_iff, Z.leb_le in E1. do 4 wp_step. unwrap. wp_if E2; [|by intros ? [=]].
  apply andb_true_iff in E2 as [_ E2%Z.leb_le].
  apply wp_bind, wp_at; [words; unfold size in *; lia|]. intros ty _.
  wp_if E3; [|by intros ? [=]]. wp_step. wp_step. apply wp_ret. intros s.
  destruct (_ <? _) eqn:E4; [|done]. intros [= <-]. apply string_at_in; [words; lia|done].
Qed.

Lemma wp_package strings lim first id :
  0 <= first <= lim → lim <= size m → in_u32 id →
  wps (stuck_chunk m lim first) (loop fuel (child_body fuel m strings lim id) first)
    (λ v, ∀ s, v = Some s → s ∈ strings).
Proof.
  intros Hfirst Hlim Hid. pose proof Hf as [Hb Hs].
  apply (wps_loop _ _ (λ off, reached m lim first off) (λ off, lim - off)).
  - intros off Hr. pose proof (reached_range _ _ _ _ Hb Hfirst Hr) as Ho. unfold child_body. unwrap.
    wp_if E; [|by intros ? [=]]. apply Z.leb_le in E. do 6 wp_step. wp_if E1; [by intros ? [=]|].
    apply orb_false_iff in E1 as [E1%Z.ltb_ge E2%Z.ltb_ge].
    assert (∀ v : option (list Z), (∀ s, v = Some s → s ∈ strings) →
      match (match v with Some _ => Stop v | None => Next (off + field 4 m (off + 4)) end) with
      | Next s' => reached m lim first s' ∧ (stuck_chunk m lim first ∨ 0 <= lim - s' < lim - off)
      | Stop r => ∀ s, r = Some s → s ∈ strings end) as Hgo.
    { intros [v|] Hv; [done|]. apply walk_step; done || lia. }
    apply wp_bind. wp_if E3; [|apply wp_ret, wp_ret, (Hgo None); by intros ? [=]].
    apply wp_bind, wp_at; [words; unfold size in *; lia|]. intros b _.
    wp_if E4; [|apply wp_ret, wp_ret, (Hgo None); by intros ? [=]].
    apply wp_bind, wp_weaken. eapply wp_mono; [apply wp_entry_offset; (done || lia)|].
    intros eo Heo. wp_step. wp_step. apply wp_weaken.
    eapply wp_mono; [apply wp_entry_string; (done || lia)|]. intros v Hv. by apply wp_ret, (Hgo v).
  - constructor.
  - right. unfold size in *. lia.
Qed.

Lemma wp_resolve id : in_u32 id →
  wps stuck_resources (resolve_resource_string fuel m id) (λ v, ∀ s, v = Some s → bytes s).
Proof.
  intros Hid. pose proof Hf as [Hb Hs]. unfold resolve_resource_string.
  wp_if E; [by intros ? [=]|]. apply Z.ltb_ge in E. wp_step. wp_step. wp_if E1; [by intros ? [=]|].
  do 4 wp_step. wp_if E2; [by intros ? [=]|]. apply orb_false_iff in E2 as [E2%Z.ltb_ge E3%Z.ltb_ge].
  set (lim := field 4 m 4) in *. set (first := field 2 m 2) in *.
  assert (0 <= first <= lim) as Hfirst by (words; lia).
  apply (wps_loop _ _ (λ st, reached m lim first st.1 ∧ Forall bytes st.2) (λ st, lim - st.1)).
  - intros [off strings] [Hr Hst]. cbn [fst snd] in *.
    pose proof (reached_range _ _ _ _ Hb Hfirst Hr) as Ho. unfold table_body. unwrap.
    wp_if E4; [|by intros ? [=]]. apply Z.leb_le in E4. do 6 wp_step. wp_if E5; [by intros ? [=]|].
    apply orb_false_iff in E5 as [E5%Z.ltb_ge E6%Z.ltb_ge].
    assert (reached m lim first (off + field 4 m (off + 4)) ∧
      (stuck_resources ∨ 0 <= lim - (off + field 4 m (off + 4)) < lim - off)) as Hgo.
    { destruct (walk_step lim first off) as [H1' [H2'|H2']]; try done; try lia; split; auto.
      left. by left. }
    wp_if E7.
    { apply wp_bind. eapply wp_mono; [by apply wp_string_pool_at; lia|]. intros l Hl.
      apply wp_ret. cbn [fst snd]. naive_solver. }
    apply wp_bind. eapply wp_mono with (Q := λ _, True).
    { wp_if E8; [|done]. apply andb_true_iff in E8 as [_ E8%Z.leb_le].
      apply wp_bind, wp_read_u32; [done|lia|]. done. }
    intros here _. apply wp_bind. eapply wp_mono with (Q := λ v, ∀ s, v = Some s → s ∈ strings).
    { destruct here; [|by intros ? [=]]. unwrap.
      pose proof (wp_package strings (off + field 4 m (off + 4)) (off + field 2 m (off + 2)) id) as Hp.
      destruct (loop _ _ _) as [v|e| |]; cbn in *; [|done| |]; try (apply Hp; (words; lia) || done).
      right. exists off. split; [done|]. apply Hp; [words; lia|lia|done]. }
    intros v Hv. apply wp_ret. destruct v as [v|]; [|cbn [fst snd]; naive_solver].
    intros s [= <-]. rewrite Forall_forall in Hst. by apply Hst, Hv.
  - split; constructor.
  - right. cbn. unfold size in *. lia.
Qed.
End Strings.
