(* ===== verification/ApkManifestProps.v ===== *)
(** * Manifests: bounds, termination, and where the readers go wrong

    What is read of a manifest stays inside of it and comes to an end, for
    text always and for compiled XML unless a chunk of size zero is met; such
    a manifest is never done with.  The two readers of string pools agree as
    long as every string is inside of its chunk. *)

From S2P Require Import Prelude Decimal Cxx ApkZip ApkZipProps ApkText ApkAxml ApkLaunch ApkAxmlProps.

(** ** Text *)

Lemma at_size P (t : list Z) i (Q : Z → Prop) :
  bytes t → 0 <= i < size t → (∀ b, in_u8 b → Q b) → wps P (at_ t i) Q.
Proof.
  intros Hb Hi HQ. apply wp_at; [done|]. intros b Hl. apply HQ. by eapply Forall_lookup_1.
Qed.

Lemma wp_tag_attribute P tag attr (Q : option (list Z) → Prop) :
  bytes tag → size tag < 4611686018427387904 → size attr < 4611686018427387904 →
  (∀ v, (∀ t, v = Some t → bytes t) → Q v) → wps P (tag_attribute tag attr) Q.
Proof.
  intros Hb Hs Ha HQ. unfold tag_attribute. pose proof (size_nonneg attr).
  assert (Q None) by (apply HQ; by intros ? [=]).
  destruct (str_find_cases tag attr 0) as [->|(a & b & E & -> & _)]; [lia|done|].
  pose proof (size_nonneg a). pose proof (size_nonneg b).
  assert (size a + size attr <= size tag) by (rewrite E; sizes; lia).
  wp_if E1; [done|]. unwrap.
  destruct (str_find_cases tag (cs "=") (size a + size attr)) as [->|(a1 & b1 & Eq & -> & ?)]; [lia|done|].
  assert (size a1 < size tag) by (rewrite Eq; pose proof (size_nonneg b1); sizes;
    change (size (cs "=")) with 1; lia).
  wp_if E2; [done|]. unwrap.
  destruct (str_find_first_of_cases tag quotes (size a1 + 1)) as [->|Hq]; [lia|done|].
  set (quote := str_find_first_of _ _ _) in *. wp_if E3; [done|]. apply wp_bind, at_size; [done|lia|].
  intros q Hq8. unwrap. wp_if E4; [done|]. apply wp_fmap, wp_substr. intros t Ht _. apply HQ.
  intros ? [= <-]. by apply Ht.
Qed.

Lemma wp_name_attribute P tag (Q : option (list Z) → Prop) :
  bytes tag → size tag < 4611686018427387904 →
  (∀ v, (∀ t, v = Some t → bytes t) → Q v) → wps P (name_attribute tag) Q.
Proof.
  intros Hb Hs HQ. unfold name_attribute.
  apply wp_bind, wp_tag_attribute; [done..|]. intros [v|] Hv; [by apply wp_ret, HQ|].
  by apply wp_tag_attribute.
Qed.

Section Text.
Context (text : list Z) (Hf : fits text).

(** A match, by its place. *)
Ltac find_case p pos a b E :=
  let H := fresh "F" in
  destruct (str_find_cases text p pos) as [H|(a & b & E & H & ?)]; [lia| |]; rewrite H.

Lemma wp_plain_attribute P element attr (Q : option (list Z) → Prop) :
  (size attr <? 4611686018427387904) = true →
  (∀ v, (∀ t, v = Some t → bytes t) → Q v) → wps P (plain_manifest_attribute text element attr) Q.
Proof.
  intros Ha%Z.ltb_lt HQ. destruct Hf as [Hb Hs]. unfold plain_manifest_attribute.
  pose proof (size_nonneg attr). assert (Q None) by (apply HQ; by intros ? [=]).
  find_case (cs "<" ++ element) 0 a0 b0 E0; [done|]. wp_if T0; [done|].
  find_case (cs ">") (size a0) a1 b1 E1; [done|]. wp_if T1; [done|].
  find_case attr (size a0) a2 b2 E2; [done|]. wp_if T2; [done|].
  assert (size a2 + size attr <= size text) by (rewrite E2; pose proof (size_nonneg b2); sizes; lia).
  pose proof (size_nonneg a2). unwrap.
  find_case (cs "=") (size a2 + size attr) a3 b3 E3; [done|]. wp_if T3; [done|].
  assert (size a3 < size text) by (rewrite E3; pose proof (size_nonneg b3); sizes;
    change (size (cs "=")) with 1; lia). unwrap.
  destruct (str_find_first_of_cases text quotes (size a3 + 1)) as [->|Hq]; [lia|done|].
  set (quote := str_find_first_of _ _ _) in *. wp_if T4; [done|]. apply wp_bind, at_size; [done|lia|].
  intros q Hq8. unwrap. wp_if T5; [done|]. apply wp_fmap, wp_substr. intros t Ht _. apply HQ.
  intros ? [= <-]. by apply Ht.
Qed.

(** Two different bytes are not at one place. *)
Lemma other_place (a a' p p' b b' : list Z) x y :
  a ++ (x :: p) ++ b = a' ++ (y :: p') ++ b' → x ≠ y → size a <= size a' → size a < size a'.
Proof.
  intros E Hne Hle. destruct (Z.eq_dec (size a) (size a')) as [Es|]; [|lia].
  apply app_inj_1 in E as [_ E]; [by injection E|]. unfold size in Es. lia.
Qed.

Lemma wp_activities package :
  wp (infer_plain_manifest_launch_activity text package) (λ _, True).
Proof.
  destruct Hf as [Hb Hs]. unfold infer_plain_manifest_launch_activity. apply wp_fmap.
  apply (wp_loop _ (λ st, 0 <= st.1 <= size text) (λ st, size text - st.1)).
  - intros [pos l] Hpos. cbn [fst] in *. unfold activity_body.
    find_case (cs "<activity") pos a0 b0 E0; [done|]. wp_if T0; [done|].
    pose proof (size_nonneg a0).
    find_case (cs ">") (size a0) a1 b1 E1; [done|]. wp_if T1; [done|].
    assert (size a0 < size a1) by exact (other_place a0 a1 (cs "activity") [] b0 b1 60 62 (eq_trans (eq_sym E0) E1) ltac:(lia) ltac:(lia)).
    assert (size a1 <= size text) by (rewrite E1; pose proof (size_nonneg b1); sizes;
      change (size (cs ">")) with 1; lia). unwrap.
    apply wp_bind, wp_substr. intros tag Ht Hts. apply wp_bind, wp_name_attribute; [auto|lia|].
    intros name _. find_case (cs "</activity>") (size a1) a2 b2 E2.
    + change (npos =? npos) with true. cbn [negb]. unwrap. apply wp_bind, wp_substr. intros block _ _.
      apply wp_ret. cbn [fst]. lia.
    + assert (size a2 + 11 <= size text) by (rewrite E2; pose proof (size_nonneg b2); sizes;
        change (size (cs "</activity>")) with 11; lia).
      rewrite (proj2 (Z.eqb_neq (size a2) npos)) by (unfold npos; lia).
      change (size (cs "</activity>")) with 11. unwrap. apply wp_bind, wp_substr. intros block _ _.
      apply wp_ret. cbn [fst]. lia.
  - pose proof (size_nonneg text). cbn. lia.
  - cbn. unfold size. lia.
Qed.

Lemma wp_receivers package :
  wp (infer_plain_manifest_widget_provider text package) (λ _, True).
Proof.
  destruct Hf as [Hb Hs]. unfold infer_plain_manifest_widget_provider.
  apply (wp_loop _ (λ pos, 0 <= pos <= size text) (λ pos, size text - pos)).
  - intros pos Hpos. unfold receiver_body.
    find_case (cs "<receiver") pos a0 b0 E0; [done|]. wp_if T0; [done|].
    pose proof (size_nonneg a0).
    find_case (cs ">") (size a0) a1 b1 E1; [done|]. wp_if T1; [done|].
    assert (size a1 < size text) by (rewrite E1; pose proof (size_nonneg b1); sizes;
      change (size (cs ">")) with 1; lia). unwrap.
    set (found := str_find text (cs "</receiver>") (size a1)).
    assert (size a1 <= (if found =? npos then size a1 else found) < size text) as Hend.
    { unfold found. find_case (cs "</receiver>") (size a1) a2 b2 E2.
      - change (npos =? npos) with true. cbn. lia.
      - destruct (size a2 =? npos); [lia|]. rewrite E2; pose proof (size_nonneg b2); sizes.
        change (size (cs "</receiver>")) with 11. lia. }
    set (end_ := if found =? npos then size a1 else found) in *. unwrap.
    apply wp_bind, wp_substr. intros tag Ht Hts. apply wp_bind, wp_substr. intros block _ _.
    wp_if T2; [|apply wp_ret; lia]. apply wp_bind, wp_name_attribute; [auto|lia|].
    intros name _. apply wp_ret. destruct name; [done|lia].
  - pose proof (size_nonneg text). lia.
  - unfold size. lia.
Qed.

Lemma wp_plain_info bases :
  wp (plain_manifest_info text bases) (λ i, ∀ b, mi_lib_name i = Some b → b ∈ bases).
Proof.
  unfold plain_manifest_info, infer_plain_manifest_package, application_attribute.
  assert (∀ (m : res (option (list Z))) a (f : option (list Z) → res ManifestInfo) Q,
    (size (cs a) <? 4611686018427387904) = true → wp m (λ _, True) → (∀ v, wp (f v) Q) →
    wp ((v ← m; match v with Some _ => Ok v | None =>
      plain_manifest_attribute text (cs "application") (cs a) end) ≫= f) Q) as Hone.
  { intros m a f Q Ha Hm Hfv. apply wp_bind, wp_bind. eapply wp_mono; [exact Hm|].
    intros [v|] _; [apply wp_ret, Hfv|]. apply wp_plain_attribute; [done|]. intros v _. apply Hfv. }
  apply wp_bind, wp_plain_attribute; [done|]. intros package _.
  do 3 (apply Hone; [done|by apply wp_plain_attribute|intros ?]).
  apply wp_bind. eapply wp_mono; [apply wp_activities|]. intros ? _.
  apply wp_bind. eapply wp_mono; [apply wp_receivers|]. intros ? _.
  apply wp_ret. cbn [mi_lib_name]. unfold infer_plain_manifest_lib. intros b.
  destruct (negb _); [done|]. destruct (find_idx _ _).
  - apply list_elem_of_lookup_2.
  - destruct (_ =? 1); [|done]. destruct bases; [done|]. intros [= <-]. set_solver.
Qed.
End Text.

(** ** Compiled manifests *)

Lemma wp_binary_info m fuel bases :
  fits m → size m < 4294967296 → (length m < fuel)%nat →
  wps (stuck_manifest m) (binary_manifest_info fuel m bases)
    (λ i, ∀ b, mi_lib_name i = Some b → b ∈ bases).
Proof.
  intros Hf Hs Hl. unfold binary_manifest_info, infer_binary_manifest_package.
  apply wp_bind. eapply wp_mono; [by apply wp_string_attribute|]. intros package _.
  apply wp_bind. eapply wp_mono; [by apply wp_manifest_lib|]. intros lib Hlib.
  do 2 (apply wp_bind; eapply wp_mono; [by apply wp_string_attribute|]; intros ? _;
        apply wp_bind; eapply wp_mono; [by apply wp_resource_attribute|]; intros ? _).
  apply wp_bind. eapply wp_mono; [by apply wp_string_attribute|]. intros ? _.
  apply wp_bind. eapply wp_mono; [by apply wp_launch_activity|]. intros ? _.
  apply wp_bind. eapply wp_mono; [by apply wp_widget_provider|]. intros ? _.
  by apply wp_ret.
Qed.

Definition is_text (manifest : list Z) : bool :=
  match skip_space manifest with 60 :: _ => true | _ => false end.

(** The kind of a manifest is decided by its first byte that is not blank. *)
Lemma infer_manifest_info_eq fuel m bases :
  infer_manifest_info fuel m bases =
  if is_text m then plain_manifest_info m bases else binary_manifest_info fuel m bases.
Proof. unfold infer_manifest_info, is_text. repeat case_match; congruence. Qed.

(** C35. Reading a manifest, of any bytes, never leaves it.  For a text it
    ends; for compiled XML fuel for every byte is enough unless the walk
    over its chunks meets one that says it is empty.  A library it names is
    one of those the archive has. *)
Theorem manifest_reads_in_bounds fuel m bases :
  fits m → size m < 4294967296 → (length m < fuel)%nat →
  wps (is_text m = false ∧ stuck_manifest m) (infer_manifest_info fuel m bases)
    (λ i, ∀ b, mi_lib_name i = Some b → b ∈ bases).
Proof.
  intros Hf Hs Hl. rewrite infer_manifest_info_eq. destruct (is_text m).
  - by apply wp_weaken, wp_plain_info.
  - pose proof (wp_binary_info m fuel bases Hf Hs Hl) as H.
    by destruct (binary_manifest_info _ _ _).
Qed.

(** A manifest with one element and its pool. *)
Definition toy_manifest : list Z :=
  le_split 2 3 ++ le_split 2 8 ++ le_split 4 88 ++
  le_split 2 1 ++ le_split 2 28 ++ le_split 4 44 ++ le_split 4 1 ++ le_split 4 0 ++
  le_split 4 256 ++ le_split 4 32 ++ le_split 4 0 ++ le_split 4 0 ++
  [8; 8] ++ cs "manifest" ++ [0; 0] ++
  le_split 2 0x0102 ++ le_split 2 16 ++ le_split 4 36 ++ le_split 8 0 ++
  le_split 4 NO_INDEX ++ le_split 4 0 ++ le_split 2 20 ++ le_split 2 20 ++ le_split 2 0 ++ le_split 6 0.

(** Witness of [manifest_reads_in_bounds] *)
Lemma manifest_reads_in_bounds_witness :
  wps (is_text toy_manifest = false ∧ stuck_manifest toy_manifest)
    (infer_manifest_info 100 toy_manifest [cs "main"])
    (λ i, ∀ b, mi_lib_name i = Some b → b ∈ [cs "main"]).
Proof.
  apply manifest_reads_in_bounds; [split; [apply bytes_dec; by vm_compute|by vm_compute]|by vm_compute|].
  vm_compute. lia.
Defined.

(** A chunk of size zero at the start keeps the reader of the pool where it is. *)
Lemma axml_pool_stuck m :
  fits m → axml_first m + 28 <= size m → field 2 m (axml_first m) ≠ 1 →
  field 2 m (axml_first m + 2) = 0 → field 4 m (axml_first m + 4) = 0 →
  ∀ fuel, axml_string_pool fuel m = Spin.
Proof.
  intros Hf H28 Hty Hh Hc fuel. unfold axml_string_pool. rewrite first_chunk_eq by done.
  cbn [mbind res_bind]. pose proof (axml_first_range m Hf). pose proof (proj2 Hf).
  apply loop_stuck. unfold axml_pool_body. unwrap. rewrite (proj2 (Z.leb_le _ _)) by lia.
  rewrite !read_u16_eq, !read_u32_eq, !(proj2 (Z.ltb_ge _ _)) by (done || lia). cbn [mbind res_bind].
  rewrite Hh, Hc. rewrite !Z.add_0_r, (proj2 (Z.ltb_ge (size m) _)) by (rewrite u64_small; words; lia).
  cbn [Z.ltb Z.compare orb]. rewrite (proj2 (Z.eqb_neq _ _)) by done. cbn [negb].
  by rewrite u64_small by (words; lia).
Qed.

(** C39. A compiled manifest whose first chunk says it has no bytes is read for
    ever: no fuel is enough. *)
Theorem manifest_hangs m bases :
  fits m → is_text m = false → axml_first m + 28 <= size m → field 2 m (axml_first m) ≠ 1 →
  field 2 m (axml_first m + 2) = 0 → field 4 m (axml_first m + 4) = 0 →
  ∀ fuel, infer_manifest_info fuel m bases = Spin.
Proof.
  intros Hf Ht H28 Hty Hh Hc fuel. rewrite infer_manifest_info_eq, Ht.
  unfold binary_manifest_info, infer_binary_manifest_package, infer_binary_manifest_string_attribute.
  by rewrite axml_pool_stuck.
Qed.

(** Witness of [manifest_hangs] *)
Lemma manifest_hangs_witness :
  infer_manifest_info 1000 (le_split 2 3 ++ replicate 34 0) [] = Spin.
Proof.
  apply manifest_hangs; [split; [apply bytes_dec; by vm_compute|by vm_compute]|by vm_compute..].
Defined.

(** ** The two readers of string pools

    apk_envelope.cpp reads string pools twice: [axml_string_pool] for
    manifests and [string_pool_at] for resource tables.  On a pool both accept
    they see the same strings, but the first leaves out those whose offset is
    outside of the chunk, so that the strings behind them are found under the
    index before; and its test of the size of the pool can wrap. *)

Section Pools.
Context (m : list Z) (Hf : fits m) (Hsmall : size m < 4294967296).

(** The [i]th string of the pool at [off]: none if its offset is outside of
    the chunk, the empty string if it cannot be read. *)
Definition pool_entry (off : Z) (i : Z) : option (list Z) :=
  let hs := field 2 m (off + 2) in
  let csz := field 4 m (off + 4) in
  let pos := off + field 4 m (off + 20) + field 4 m (off + hs + i * 4) in
  if off + csz <=? pos then None
  else match pool_string (negb (Z.land (field 4 m (off + 16)) UTF8_FLAG =? 0)) m pos with
       | Ok s => Some s
       | _ => Some []
       end.
Definition pool_entries (off : Z) : list (option (list Z)) :=
  (λ i, pool_entry off (Z.of_nat i)) <$> seq 0 (Z.to_nat (field 4 m (off + 8))).

Lemma catch_pool_string utf8 pos : 0 <= pos < 4611686018427387904 →
  catch (pool_string utf8 m pos) (Ok []) = Ok (match pool_string utf8 m pos with Ok s => s | _ => [] end).
Proof.
  intros Hp. pose proof (wp_pool_string m Hf False utf8 pos (λ _, True) Hp (λ _ _, I)) as H.
  by destruct (pool_string _ _ _).
Qed.

(** What a pool needs to be read by both. *)
Definition pool_ok (off : Z) : Prop :=
  0 <= off ∧ off + 28 <= size m ∧ field 2 m off = RES_STRING_POOL_TYPE ∧
  off + field 4 m (off + 4) <= size m ∧
  field 2 m (off + 2) + 4 * field 4 m (off + 8) <= field 4 m (off + 4) ∧
  field 4 m (off + 20) < field 4 m (off + 4).

Context (off : Z) (Hok : pool_ok off).

Lemma pool_bounds :
  in_u16 (field 2 m (off + 2)) ∧ in_u32 (field 4 m (off + 4)) ∧ in_u32 (field 4 m (off + 8)) ∧
  in_u32 (field 4 m (off + 16)) ∧ in_u32 (field 4 m (off + 20)) ∧ field 2 m (off + 2) <= field 4 m (off + 4).
Proof.
  destruct Hok as (? & ? & ? & ? & Hc & ?). pose proof (proj1 Hf) as Hb.
  pose proof (field_range 4 m (off + 8) Hb).
  split_and!; [by apply (field_range 2)|by apply (field_range 4)..|lia].
Qed.

(** The offset of a string is read, at a place that does not wrap. *)
Lemma string_offset i : 0 <= i < field 4 m (off + 8) →
  read_u32 m (u64 (off + field 2 m (off + 2) + u32 (i * 4))) =
    Ok (field 4 m (off + field 2 m (off + 2) + i * 4)) ∧
  in_u32 (field 4 m (off + field 2 m (off + 2) + i * 4)).
Proof.
  intros Hi. destruct pool_bounds as (? & ? & ? & ? & ? & ?). destruct Hok as (? & ? & ? & ? & Hc & ?).
  pose proof (proj2 Hf). rewrite u32_small by (words; lia). rewrite u64_small by (words; lia).
  split; [|by apply (field_range 4), Hf].
  rewrite read_u32_eq, (proj2 (Z.ltb_ge _ _)) by (done || words; lia). done.
Qed.

Lemma pool_at_loop k fuel i acc :
  0 <= i → i + Z.of_nat k = field 4 m (off + 8) → (k < fuel)%nat →
  loop fuel (pool_at_body m off (field 2 m (off + 2)) (field 4 m (off + 4)) (field 4 m (off + 20))
              (field 4 m (off + 16)) (field 4 m (off + 8))) (i, acc) =
  Ok (acc ++ ((λ j, default [] (pool_entry off (Z.of_nat j))) <$> seq (Z.to_nat i) k)).
Proof.
  destruct pool_bounds as (? & ? & ? & ? & ? & ?). pose proof Hok as (? & ? & ? & ? & Hc & ?).
  pose proof (proj2 Hf). revert fuel i acc. induction k as [|k IH]; intros [|fuel] i acc Hi Hk Hfu; try lia.
  { rewrite (loop_stop _ fuel _ acc); [cbn; by rewrite app_nil_r|].
    unfold pool_at_body. by rewrite (proj2 (Z.ltb_ge _ _)) by lia. }
  destruct (string_offset i) as [Er Hr]; [lia|].
  assert (pool_at_body m off (field 2 m (off + 2)) (field 4 m (off + 4)) (field 4 m (off + 20))
    (field 4 m (off + 16)) (field 4 m (off + 8)) (i, acc) =
    Ok (Next (i + 1, acc ++ [default [] (pool_entry off i)]))) as ->%(loop_next _ fuel).
  { unfold pool_at_body, pool_entry. rewrite (proj2 (Z.ltb_lt _ _)), Er by lia. cbn [mbind res_bind].
    rewrite !u64_small by (words; lia). destruct (_ <=? _); [done|].
    rewrite catch_pool_string by (words; lia). cbn [mbind res_bind]. do 4 f_equal.
    by destruct (pool_string _ _ _). }
  rewrite IH by lia. cbn [seq fmap list_fmap]. rewrite <- app_assoc. cbn [app].
  rewrite Z2Nat.id by lia. by replace (Z.to_nat (i + 1)) with (S (Z.to_nat i)) by lia.
Qed.

Lemma axml_loop k fuel i acc :
  0 <= i → i + Z.of_nat k = field 4 m (off + 8) → (k < fuel)%nat →
  loop fuel (axml_string_body m off (field 2 m (off + 2)) (field 4 m (off + 4)) (field 4 m (off + 20))
              (negb (Z.land (field 4 m (off + 16)) UTF8_FLAG =? 0)) (field 4 m (off + 8))) (i, acc) =
  Ok (acc ++ omap id ((λ j, pool_entry off (Z.of_nat j)) <$> seq (Z.to_nat i) k)).
Proof.
  destruct pool_bounds as (? & ? & ? & ? & ? & ?). pose proof Hok as (? & ? & ? & ? & Hc & ?).
  pose proof (proj2 Hf). revert fuel i acc. induction k as [|k IH]; intros [|fuel] i acc Hi Hk Hfu; try lia.
  { rewrite (loop_stop _ fuel _ acc); [cbn; by rewrite app_nil_r|].
    unfold axml_string_body. by rewrite (proj2 (Z.ltb_ge _ _)) by lia. }
  destruct (string_offset i) as [Er Hr]; [lia|].
  assert (axml_string_body m off (field 2 m (off + 2)) (field 4 m (off + 4)) (field 4 m (off + 20))
    (negb (Z.land (field 4 m (off + 16)) UTF8_FLAG =? 0)) (field 4 m (off + 8)) (i, acc) =
    Ok (Next (i + 1, acc ++ omap id [pool_entry off i]))) as ->%(loop_next _ fuel).
  { unfold axml_string_body, pool_entry. rewrite (proj2 (Z.ltb_lt _ _)), Er by lia. cbn [mbind res_bind].
    rewrite !u64_small by (words; lia). destruct (_ <=? _); [cbn; by rewrite app_nil_r|].
    rewrite catch_pool_string by (words; lia). cbn [mbind res_bind]. do 4 f_equal.
    by destruct (pool_string _ _ _). }
  rewrite IH by lia. cbn [seq]. rewrite fmap_cons, <- app_assoc.
  rewrite Z2Nat.id by lia. replace (Z.to_nat (i + 1)) with (S (Z.to_nat i)) by lia.
  do 2 f_equal. cbn. by destruct (pool_entry off i).
Qed.
End Pools.

(** On a string pool that is in bounds the reader of resource tables gives
    one string for each index, an empty one if it is unreadable or outside of
    the chunk; the reader of manifests gives the same strings less those
    outside of the chunk.  So the two agree on pools whose strings are all
    inside, and only then are the indices of the manifest right. *)
Theorem pool_readers m off fuel :
  fits m → size m < 4294967296 → pool_ok m off → (length m < fuel)%nat →
  string_pool_at m off = Ok (default [] <$> pool_entries m off) ∧
  axml_pool_body fuel m off = Ok (Stop (omap id (pool_entries m off))) ∧
  length (pool_entries m off) = Z.to_nat (field 4 m (off + 8)).
Proof.
  intros Hf Hs Hok Hl. destruct (pool_bounds m Hf off Hok) as (? & ? & ? & ? & ? & ?).
  pose proof (pool_at_loop m Hf Hs off Hok (Z.to_nat (field 4 m (off + 8))) (S (length m)) 0 []) as Ha.
  pose proof (axml_loop m Hf Hs off Hok (Z.to_nat (field 4 m (off + 8))) fuel 0 []) as Hx.
  pose proof Hok as (? & ? & Hty & ? & Hc & Hss). pose proof (proj2 Hf).
  assert (Z.of_nat (length m) = size m) by done.
  specialize (Ha ltac:(lia) ltac:(words; lia) ltac:(words; lia)).
  specialize (Hx ltac:(lia) ltac:(words; lia) ltac:(words; lia)).
  split_and!.
  - unfold string_pool_at. unwrap. rewrite !read_u16_eq, !read_u32_eq by (done || lia).
    repeat rewrite (proj2 (Z.ltb_ge (size m) _)) by lia. cbn [mbind res_bind]. rewrite Hty.
    change (negb (RES_STRING_POOL_TYPE =? RES_STRING_POOL_TYPE)) with false.
    rewrite (proj2 (Z.leb_gt _ _)) by lia. unwrap.
    repeat rewrite (proj2 (Z.ltb_ge _ _)) by lia. cbn [orb]. rewrite Ha.
    unfold pool_entries.
    by rewrite <- (list_fmap_compose (λ i, pool_entry m off (Z.of_nat i)) (default [])).
  - unfold axml_pool_body. unwrap. rewrite (proj2 (Z.leb_le _ _)) by lia.
    rewrite !read_u16_eq, !read_u32_eq by (done || lia).
    repeat rewrite (proj2 (Z.ltb_ge (size m) _)) by lia. cbn [mbind res_bind]. rewrite Hty.
    change (negb (RES_STRING_POOL_TYPE =? RES_STRING_POOL_TYPE)) with false.
    rewrite (proj2 (Z.leb_gt _ _)), (u32_small (_ * _)), u32_small by (words; lia). unwrap.
    repeat rewrite (proj2 (Z.ltb_ge _ _)) by lia. cbn [orb]. rewrite Hx.
    reflexivity.
  - unfold pool_entries. by rewrite length_fmap, length_seq.
Qed.

(** A pool of three strings, the first of them outside of the chunk. *)
Definition toy_pool : list Z :=
  le_split 2 1 ++ le_split 2 28 ++ le_split 4 46 ++ le_split 4 3 ++ le_split 4 0 ++
  le_split 4 256 ++ le_split 4 40 ++ le_split 4 0 ++
  le_split 4 99 ++ le_split 4 0 ++ le_split 4 3 ++ [1; 1; 65] ++ [1; 1; 66].

(** Witness of [pool_readers] *)
Lemma pool_readers_witness :
  string_pool_at toy_pool 0 = Ok [[]; [65]; [66]] ∧
  axml_pool_body 60 toy_pool 0 = Ok (Stop [[65]; [66]]).
Proof.
  destruct (pool_readers toy_pool 0 60) as (H1 & H2 & _).
  - split; [apply bytes_dec; by vm_compute|by vm_compute].
  - by vm_compute.
  - split_and!; by vm_compute.
  - vm_compute. lia.
  - rewrite H1, H2. split; by vm_compute.
Defined.
