(* ===== verification/ApkPaths.v ===== *)
(** * Where extracted files go

    What [safe_zip_path] accepts, what the names of libraries come to, and
    that a path made of the extraction directory and such a name is resolved
    by the system to a place below that directory: no component leads up,
    whatever bytes the name holds (a NUL cuts it short). *)

From S2P Require Import Prelude Decimal Cxx ApkZip ApkLaunch.

(** ** Safe paths *)

Definition slash : Z := 47.
Definition dotdot : list Z := cs "..".

Definition safe_path (path : list Z) : Prop :=
  path ≠ [] ∧ head path ≠ Some slash ∧ (92 ∉ path) ∧ (58 ∉ path) ∧ (dotdot ∉ split_on slash path).
#[global] Instance safe_path_dec path : Decision (safe_path path).
Proof. unfold safe_path. apply _. Defined.

Lemma find_none s c : size s < npos → (str_find s [c] 0 =? npos) = bool_decide (c ∉ s).
Proof.
  intros Hs. destruct (find_char [] s c) as [[E Hn]|(f & r & E & Hf & Er)];
    cbn [app] in *; change (size []) with 0 in *.
  - rewrite E. symmetry. by apply bool_decide_eq_true.
  - rewrite Er, bool_decide_eq_false_2 by (rewrite E; set_solver). apply Z.eqb_neq.
    subst s. sizes. pose proof (size_nonneg r). lia.
Qed.

Lemma safe_loop u s fuel :
  size (u ++ s) < 4611686018427387904 → (length s < fuel)%nat →
  loop fuel (safe_body (u ++ s)) (size u) = Ok (bool_decide (dotdot ∉ split_on slash s)).
Proof.
  revert u s. induction fuel as [|fuel IH]; intros u s Hs Hl; [lia|].
  pose proof (size_nonneg u). pose proof (size_nonneg s). sizes.
  destruct (find_char u s slash) as [[En Hn]|(f & r & -> & Hf & Er)].
  - rewrite (loop_stop _ fuel _ (bool_decide (dotdot ∉ split_on slash s))); [done|].
    unfold safe_body. sizes. rewrite (proj2 (Z.leb_le _ _)) by lia. change (cs "/") with [slash].
    rewrite En. change (npos =? npos) with true. cbn [mbind res_bind].
    rewrite substr_all by (unfold npos; lia). cbn [mbind res_bind].
    rewrite split_on_none by done. unfold eq_str. f_equal.
    case_bool_decide as E; case_bool_decide as E2; try done; [set_solver|]. f_equal.
    exfalso. apply list_elem_of_singleton in E2. by symmetry in E2.
  - pose proof (size_nonneg f). pose proof (size_nonneg r). sizes.
    assert (safe_body (u ++ f ++ slash :: r) (size u) =
      Ok (if eq_str f dotdot then Stop false else Next (size (u ++ f ++ [slash])))) as Eb.
    { unfold safe_body. sizes. rewrite (proj2 (Z.leb_le _ _)) by lia. change (cs "/") with [slash].
      rewrite Er. rewrite (proj2 (Z.eqb_neq _ npos)) by (unfold npos; lia).
      replace (size u + size f - size u) with (size f) by lia.
      rewrite (u64_small (size f)) by (words; lia). rewrite substr_field. cbn [mbind res_bind].
      fold dotdot. destruct (eq_str f dotdot); [done|]. rewrite u64_small by (words; lia).
      do 2 f_equal. sizes. lia. }
    rewrite split_on_field by done. unfold eq_str in Eb. case_bool_decide as E.
    + rewrite (loop_stop _ fuel _ false Eb). rewrite bool_decide_eq_false_2; [done|]. set_solver.
    + rewrite (loop_next _ fuel _ _ Eb).
      replace (u ++ f ++ slash :: r) with ((u ++ f ++ [slash]) ++ r) by by rewrite <- !app_assoc.
      rewrite IH; [|sizes; lia|rewrite length_app in Hl; cbn in Hl; lia].
      f_equal. apply bool_decide_ext. set_solver.
Qed.

(** A path is accepted just when it is relative, has no backslash and no
    colon, and none of its components is [..]. *)
Lemma safe_zip_path_spec path : size path < 4611686018427387904 →
  safe_zip_path path = Ok (bool_decide (safe_path path)).
Proof.
  intros Hs. unfold safe_zip_path. change (cs "\") with [92]. change (cs ":") with [58].
  rewrite !find_none by (unfold npos; lia). rewrite !bool_decide_not, !negb_involutive.
  unfold eq_str, starts_with. change (cs "/") with [slash].
  assert (is_prefix [slash] path = bool_decide (head path = Some slash)) as ->.
  { destruct path as [|b path]; [done|].
    change (is_prefix [slash] (b :: path)) with ((slash =? b) && true). cbn [head]. rewrite andb_true_r.
    destruct (Z.eqb_spec slash b) as [->|Hne]; symmetry; [by apply bool_decide_eq_true|].
    apply bool_decide_eq_false. congruence. }
  pose proof (safe_loop [] path (S (length path)) Hs ltac:(lia)) as Hl. cbn [app] in Hl.
  change (size []) with 0 in Hl. rewrite Hl. unfold safe_path.
  repeat case_bool_decide; cbn; try done; tauto.
Qed.

(** ** File names *)

Lemma last_of_at_spec c s i last :
  (last_of_at c s i last = last ∧ c ∉ s) ∨
  ∃ a b, s = a ++ c :: b ∧ c ∉ b ∧ last_of_at c s i last = i + size a.
Proof.
  revert i last. induction s as [|b s IH]; intros i last; cbn [last_of_at]; [left; set_solver|].
  destruct (IH (i + 1) (if b =? c then i else last)) as [[-> Hn]|(a & t & -> & Hn & ->)].
  - destruct (Z.eqb_spec b c) as [->|Hne]; [|left; set_solver].
    right. exists [], s. split_and!; [done|done|]. sizes. lia.
  - right. exists (b :: a), t. split_and!; [done|done|]. sizes. lia.
Qed.

Lemma split_on_app c f r : split_on c (f ++ c :: r) = split_on c f ++ split_on c r.
Proof.
  induction f as [|b f IH]; cbn [app split_on].
  { by rewrite Z.eqb_refl. }
  destruct (b =? c); [by rewrite IH|]. rewrite IH.
  by destruct (split_on c f) as [|g gs] eqn:E; [apply split_on_nonempty in E|].
Qed.

(** The part after the last slash. *)
Definition basename (path : list Z) : list Z := default [] (last (split_on slash path)).

Lemma basename_slash a b : slash ∉ b → basename (a ++ slash :: b) = b.
Proof.
  intros Hb. unfold basename. rewrite split_on_app, (split_on_none _ b) by done. by rewrite last_snoc.
Qed.
Lemma basename_plain b : slash ∉ b → basename b = b.
Proof. intros Hb. unfold basename. by rewrite split_on_none. Qed.
Lemma basename_no_slash p : slash ∉ basename p.
Proof.
  unfold basename. destruct (last _) as [f|] eqn:E; cbn; [|set_solver].
  eapply split_on_no_sep. apply last_Some_elem_of. exact E.
Qed.

Lemma filename_from_zip_path_eq path : size path < 4611686018427387904 →
  filename_from_zip_path path = Ok (basename path).
Proof.
  intros Hs. unfold filename_from_zip_path, str_find_last_of.
  destruct (last_of_at_spec slash path 0 npos) as [[E Hn]|(a & b & -> & Hn & E)];
    change 47 with slash; rewrite E.
  - change (npos =? npos) with true. by rewrite basename_plain.
  - pose proof (size_nonneg a). pose proof (size_nonneg b). sizes.
    rewrite (proj2 (Z.eqb_neq _ npos)) by (unfold npos; lia). rewrite u64_small by (words; lia).
    rewrite basename_slash by done.
    replace (a ++ slash :: b) with ((a ++ [slash]) ++ b) by by rewrite <- app_assoc.
    replace (0 + size a + 1) with (size (a ++ [slash])) by (sizes; lia).
    apply substr_all. unfold npos. lia.
Qed.

Lemma starts_with_spec v p : starts_with v p = true ↔ ∃ t, v = p ++ t.
Proof. apply is_prefix_spec. Qed.
Lemma ends_with_spec v p : ends_with v p = true ↔ ∃ t, v = t ++ p.
Proof.
  unfold ends_with, eq_str. rewrite andb_true_iff, Z.leb_le, bool_decide_eq_true. split.
  - intros [Hs E]. exists (take (length v - length p) v).
    rewrite <- (take_drop (length v - length p) v) at 1. f_equal.
    transitivity (take (length p) (drop (length v - length p) v)); [|exact E].
    rewrite take_ge; [done|]. rewrite length_drop. unfold size in Hs. lia.
  - intros [t ->]. unfold size. rewrite length_app. split; [lia|].
    replace (length t + length p - length p)%nat with (length t) by lia.
    by rewrite drop_app_length, take_ge.
Qed.

(** ** Where the system takes a path *)

(** What the system sees of a path: its bytes up to a NUL. *)
Fixpoint c_str (p : list Z) : list Z :=
  match p with b :: p => if b =? 0 then [] else b :: c_str p | [] => [] end.
(** One component: up, or into a directory. *)
Definition enter (dir : list (list Z)) (c : list Z) : list (list Z) :=
  if decide (c = [] ∨ c = cs ".") then dir
  else if decide (c = dotdot) then take (length dir - 1) dir
  else dir ++ [c].
Definition resolve (p : list Z) : list (list Z) := foldl enter [] (split_on slash (c_str p)).
(** A path leads to a place at or below a directory. *)
Definition below (d p : list Z) : Prop := ∃ rest, resolve p = resolve d ++ rest.

Lemma c_str_id p : 0 ∉ p → c_str p = p.
Proof.
  induction p as [|b p IH]; [done|]. intros [Hb Hp]%not_elem_of_cons. cbn.
  rewrite (proj2 (Z.eqb_neq b 0)) by done. by rewrite IH.
Qed.
Lemma c_str_app a b : 0 ∉ a → c_str (a ++ b) = a ++ c_str b.
Proof.
  induction a as [|x a IH]; [done|]. intros [Hx Ha]%not_elem_of_cons. cbn.
  rewrite (proj2 (Z.eqb_neq x 0)) by done. by rewrite IH.
Qed.

Lemma enter_name dir c : c ≠ [] → c ≠ cs "." → c ≠ dotdot → enter dir c = dir ++ [c].
Proof. intros. unfold enter. by rewrite !decide_False by tauto. Qed.
Lemma enter_grows dir c : c ≠ dotdot → ∃ r, enter dir c = dir ++ r.
Proof.
  intros. unfold enter. destruct (decide _); [exists []; by rewrite app_nil_r|].
  rewrite decide_False by done. by eexists.
Qed.
Lemma foldl_enter_grows dir l : Forall (.≠ dotdot) l → ∃ r, foldl enter dir l = dir ++ r.
Proof.
  intros Hl. revert dir. induction Hl as [|c l Hc _ IH]; intros dir; cbn.
  { exists []. by rewrite app_nil_r. }
  destruct (enter_grows dir c Hc) as [r ->]. destruct (IH (dir ++ r)) as [r' ->].
  exists (r ++ r'). by rewrite app_assoc.
Qed.

(** What follows a text only adds to its last component and behind it. *)
Lemma split_on_front c a t :
  ∃ l x y ys, split_on c a = l ++ [x] ∧ split_on c (a ++ t) = l ++ y :: ys.
Proof.
  induction a as [|b a IH]; cbn [app split_on].
  { destruct (split_on c t) as [|y ys] eqn:E; [by apply split_on_nonempty in E|].
    by exists [], [], y, ys. }
  destruct IH as (l & x & y & ys & E1 & E2). rewrite E1, E2. destruct (b =? c).
  - exists ([] :: l), x, y, ys. done.
  - destruct l as [|h l]; cbn [app]; [by exists [], (b :: x), (b :: y), ys|].
    by exists ((b :: h) :: l), x, y, ys.
Qed.

(** A NUL cuts the last component seen; those before it are whole. *)
Lemma split_c_str c p :
  ∃ l x, split_on c (c_str p) = l ++ [x] ∧ (∀ y, y ∈ l → y ∈ split_on c p).
Proof.
  assert (∃ t, p = c_str p ++ t) as [t Et].
  { induction p as [|b p [t IH]]; [by exists []|]. cbn. destruct (b =? 0); [by exists (b :: p)|].
    exists t. cbn. by rewrite <- IH. }
  destruct (split_on_front c (c_str p) t) as (l & x & y & ys & E1 & E2). exists l, x.
  split; [done|]. intros z Hz. rewrite Et, E2. set_solver.
Qed.

(** Entering a directory by its name and then components of which only the
    last may lead up. *)
Lemma enter_inside dir g l x : g ≠ [] → g ≠ cs "." → g ≠ dotdot → Forall (.≠ dotdot) l →
  ∃ r, foldl enter dir (g :: l ++ [x]) = dir ++ r.
Proof.
  intros H1 H2 H3 Hl. cbn [foldl]. rewrite enter_name, foldl_app by done.
  destruct (foldl_enter_grows (dir ++ [g]) l Hl) as [r ->]. cbn [foldl]. unfold enter.
  destruct (decide _); [exists ([g] ++ r); by rewrite <- app_assoc|].
  destruct (decide _); [|eexists; by rewrite <- !app_assoc].
  exists (take (length r) (g :: r)). rewrite <- app_assoc.
  replace (length (dir ++ [g] ++ r) - 1)%nat with (length dir + length r)%nat
    by (rewrite !length_app; cbn; lia).
  by rewrite take_app_add.
Qed.

Definition plain_dir (d : list Z) : Prop := d ≠ [] ∧ 0 ∉ d.

(** Joining resolves in the directory. *)
Lemma resolve_join d b : plain_dir d → head b ≠ Some slash →
  resolve (path_join d b) = foldl enter (resolve d) (split_on slash (c_str b)).
Proof.
  intros [Hd H0] Hb. unfold resolve, path_join.
  assert (starts_with b (cs "/") = false) as ->.
  { destruct (starts_with b (cs "/")) eqn:E; [|done]. apply starts_with_spec in E as [t ->]. done. }
  unfold eq_str. rewrite bool_decide_eq_false_2 by done. cbn [orb]. rewrite (c_str_id d H0).
  destruct (ends_with d (cs "/")) eqn:E.
  - apply ends_with_spec in E as [t ->]. rewrite c_str_app by done. change (cs "/") with [slash].
    rewrite <- app_assoc. cbn [app]. rewrite split_on_app, foldl_app.
    f_equal. rewrite split_on_app, foldl_app. done.
  - rewrite c_str_app by done. change (cs "/" ++ b) with ([slash] ++ b). rewrite c_str_app by set_solver.
    cbn [app]. by rewrite split_on_app, foldl_app.
Qed.

(** A path made of a directory and a name that starts with an ordinary
    component and has no [..] leads below the directory. *)
Lemma join_below d g t : plain_dir d → g ≠ [] → g ≠ cs "." → g ≠ dotdot → slash ∉ g → 0 ∉ g →
  dotdot ∉ split_on slash t →
  below d (path_join d (g ++ slash :: t)) ∧ below d (path_join d g).
Proof.
  intros Hd H1 H2 H3 H4 H5 Ht. unfold below. rewrite !resolve_join; [|done| |done|].
  2:{ destruct g; [done|]. cbn. set_solver. }
  2:{ destruct g; [done|]. cbn. set_solver. }
  split.
  - change (g ++ slash :: t) with (g ++ [slash] ++ t). rewrite c_str_app by done.
    rewrite (c_str_app [slash]) by set_solver. cbn [app]. rewrite split_on_field by done.
    destruct (split_c_str slash t) as (l & x & -> & Hl). apply enter_inside; try done.
    apply Forall_forall. intros y Hy ->. by apply Ht, Hl.
  - rewrite c_str_id, split_on_none by done. cbn. rewrite enter_name by done. by eexists.
Qed.

(** The parent of such a path. *)
Lemma strip_slashes_spec l : ∃ k, l = replicate k slash ++ strip_slashes l.
Proof.
  induction l as [|b l [k IH]]; cbn; [by exists 0%nat|]. destruct (Z.eqb_spec b 47) as [->|].
  - exists (S k). cbn. by rewrite <- IH.
  - by exists 0%nat.
Qed.

(** Slashes at the end do not matter. *)
Lemma resolve_slash p : resolve (p ++ [slash]) = resolve p.
Proof.
  unfold resolve. destruct (decide (0 ∈ p)) as [(a & b & -> & Ha)%list_elem_of_split_l|Hn].
  - rewrite <- app_assoc. by rewrite !(c_str_app a).
  - rewrite c_str_app, (c_str_id p) by done. change (c_str [slash]) with [slash].
    rewrite split_on_app, foldl_app. done.
Qed.
Lemma resolve_slashes p k : resolve (p ++ replicate k slash) = resolve p.
Proof.
  induction k as [|k IH]; [by rewrite app_nil_r|]. rewrite replicate_S_end, app_assoc.
  by rewrite resolve_slash.
Qed.

Lemma resolve_parent x f : slash ∉ f → size (x ++ slash :: f) < npos →
  resolve (path_parent (x ++ slash :: f)) = resolve x.
Proof.
  intros Hf Hs. unfold path_parent, str_find_last_of. change 47 with slash.
  destruct (last_of_at_spec slash (x ++ slash :: f) 0 npos) as [[_ Hn]|(a & b & E & Hb & ->)].
  { exfalso. set_solver. }
  assert (a = x ∧ b = f) as [-> ->].
  { assert (basename (x ++ slash :: f) = basename (a ++ slash :: b)) as Hbn by by rewrite E.
    rewrite !basename_slash in Hbn by done. subst b.
    apply (f_equal reverse) in E. rewrite !reverse_app, !reverse_cons, <- !app_assoc in E.
    apply app_inv_head in E. cbn in E. injection E as E. by apply (inj reverse) in E. }
  pose proof (size_nonneg x). pose proof (size_nonneg f). sizes.
  rewrite (proj2 (Z.eqb_neq _ npos)) by lia.
  rewrite Z.add_0_l, take_size_app.
  destruct (strip_slashes_spec (reverse x)) as [k Ek]. set (y := strip_slashes (reverse x)) in *.
  apply (f_equal reverse) in Ek. rewrite reverse_involutive, reverse_app, reverse_replicate in Ek.
  rewrite Ek, resolve_slashes. unfold eq_str. case_bool_decide as Ey; [|done]. by rewrite Ey.
Qed.

(** Joining twice. *)
Lemma path_join_app d a b : plain_dir d → a ≠ [] → head a ≠ Some slash → last a ≠ Some slash →
  head b ≠ Some slash → path_join (path_join d a) b = path_join d (a ++ slash :: b).
Proof.
  intros [Hd H0] Ha Hha Hla Hhb.
  assert (∀ t, head t ≠ Some slash → starts_with t (cs "/") = false) as Hst.
  { intros t Ht. destruct (starts_with t (cs "/")) eqn:E; [|done].
    by apply starts_with_spec in E as [u ->]. }
  assert (head (a ++ slash :: b) ≠ Some slash) as Hhab by by destruct a.
  assert (∃ d', d' ≠ [] ∧ ∀ t, head t ≠ Some slash → path_join d t = d' ++ t) as (d' & Hd' & Hj).
  { destruct (ends_with d (cs "/")) eqn:E.
    - exists d. split; [done|]. intros t Ht. unfold path_join. rewrite Hst, E by done. unfold eq_str.
      by rewrite bool_decide_eq_false_2.
    - exists (d ++ cs "/"). split; [by destruct d|]. intros t Ht. unfold path_join.
      rewrite Hst, E by done. unfold eq_str. rewrite bool_decide_eq_false_2 by done. by rewrite <- app_assoc. }
  rewrite !Hj by done. unfold path_join at 1. rewrite Hst by done. unfold eq_str.
  rewrite bool_decide_eq_false_2 by (by destruct d'). cbn [orb].
  destruct (ends_with (d' ++ a) (cs "/")) eqn:E; [|by rewrite <- !app_assoc].
  exfalso. apply ends_with_spec in E as [t E]. apply Hla.
  assert (last (d' ++ a) = last a) as <-.
  { rewrite last_app. by destruct (last a) eqn:El; [|apply last_None in El]. }
  rewrite E. change (cs "/") with [slash]. by rewrite last_snoc.
Qed.

Lemma path_join_snoc d a f : a ≠ [] → head a ≠ Some slash →
  path_join d (a ++ slash :: f) = path_join d a ++ slash :: f ∧ size (path_join d a) <= size d + 1 + size a.
Proof.
  intros Ha Hh. unfold path_join. assert (∀ t, head t ≠ Some slash → starts_with t (cs "/") = false) as Hst.
  { intros t Ht. destruct (starts_with t (cs "/")) eqn:E; [|done].
    by apply starts_with_spec in E as [u ->]. }
  rewrite !Hst by (by destruct a). pose proof (size_nonneg d). change (cs "/") with [slash].
  destruct (_ || _); [split; [done|lia]|].
  destruct (ends_with _ _); rewrite <- ?app_assoc; (split; [done|sizes; lia]).
Qed.

(** The parent of an extracted file. *)
Lemma parent_below d g t : plain_dir d → size d + size (g ++ slash :: t) < 9223372036854775808 →
  g ≠ [] → g ≠ cs "." → g ≠ dotdot → slash ∉ g → 0 ∉ g → dotdot ∉ split_on slash t →
  below d (path_parent (path_join d (g ++ slash :: t))).
Proof.
  intros Hd Hs H1 H2 H3 H4 H5 Ht.
  assert (∃ a f, g ++ slash :: t = a ++ slash :: f ∧ slash ∉ f ∧ a ≠ [] ∧ head a ≠ Some slash ∧
    below d (path_join d a)) as (a & f & E & Hf & Ha & Hh & Hb).
  { assert (head g ≠ Some slash) as Hg by (destruct g; [done|]; cbn; set_solver).
    destruct (last_of_at_spec slash t 0 0) as [[_ Hn]|(t' & f & -> & Hn & _)].
    - exists g, t. split_and!; try done. by apply (join_below d g []); try done; cbn; set_solver.
    - exists (g ++ slash :: t'), f. rewrite <- app_assoc. split_and!; try done; [by destruct g|by destruct g|].
      apply (join_below d g t'); try done. rewrite split_on_app in Ht. set_solver. }
  rewrite E in *. destruct (path_join_snoc d a f Ha Hh) as [-> Hsz]. unfold below.
  rewrite resolve_parent; [exact Hb|done|]. sizes. pose proof (size_nonneg f). unfold npos. lia.
Qed.
