(* ===== verification/ApkLaunchProps.v ===== *)
(** * Launching an APK: extraction stays in its directory

    Whatever the archive holds, the files and directories [prepare_apk_launch]
    writes are below the extraction directory; and the library it says it
    selected is the one whose bytes are at the path it gives, unless another
    library has the same file name. *)

From S2P Require Import Prelude Decimal Cxx ApkZip ApkZipProps ApkText ApkAxml ApkAxmlProps ApkLaunch ApkPaths.

(** What the host promises: files are made of bytes and can be held in memory. *)
Class HostLaws (h : Host) := {
  host_open_fits p n d : host_open p = Some (n, Some d) → fits d;
}.

(** ** Computations on the file system *)

Section Launch.
Context `{ZlibLaws} `{HostLaws}.

(** [m] keeps a property of what was done, and its value has another one. *)
Definition io_wp {A} (I : list effect → Prop) (m : IO A) (Q : A → Prop) : Prop :=
  ∀ l, I l → I (m l).1 ∧ ∀ a, (m l).2 = Ok a → Q a.

Lemma io_ret {A} I (a : A) (Q : A → Prop) : Q a → io_wp I (mret a) Q.
Proof. intros HQ l Hl. split; [done|]. by intros ? [= <-]. Qed.
Lemma io_bind {A B} I (m : IO A) (f : A → IO B) Q :
  io_wp I m (λ a, io_wp I (f a) Q) → io_wp I (m ≫= f) Q.
Proof.
  intros Hm l Hl. destruct (Hm l Hl) as [H1 H2]. unfold mbind, IO_bind.
  destruct (m l) as [l' [a|e| |]]; cbn in *; [|done..]. by apply H2.
Qed.
Lemma io_pure {A} I (r : res A) (Q : A → Prop) : (∀ a, r = Ok a → Q a) → io_wp I (pure r) Q.
Proof. intros HQ l Hl. split; [done|exact HQ]. Qed.
Lemma io_mono {A} I (m : IO A) (Q Q' : A → Prop) : io_wp I m Q → (∀ a, Q a → Q' a) → io_wp I m Q'.
Proof. intros Hm HQ l Hl. destruct (Hm l Hl) as [H1 H2]. split; [done|]. intros a Ha. by apply HQ, H2. Qed.
Lemma io_for {A S} I (f : A → S → IO S) (l : list A) (s : S) (J : S → Prop) :
  (∀ a s, a ∈ l → J s → io_wp I (f a s) J) → J s → io_wp I (for_io f l s) J.
Proof.
  intros Hf. revert s. induction l as [|a l IH]; intros s Hs; cbn; [by apply io_ret|].
  apply io_bind. eapply io_mono; [apply Hf; [set_solver|done]|]. intros s' Hs'.
  apply IH; [|done]. intros b s2 Hb. apply Hf. set_solver.
Qed.

Definition effect_path (e : effect) : list Z :=
  match e with CreateDirs p _ => p | WriteFile p _ => p end.
Definition inside (d : list Z) (l : list effect) : Prop := Forall (λ e, below d (effect_path e)) l.

Lemma io_create d p (Q : () → Prop) : below d p → Q () → io_wp (inside d) (create_directories p) Q.
Proof.
  intros Hp HQ l Hl. cbn. split; [|by intros []].
  apply Forall_app. split; [done|]. by constructor.
Qed.
Lemma io_write d p data what (Q : () → Prop) : below d p → Q () →
  io_wp (inside d) (write_extracted p data what) Q.
Proof.
  intros Hp HQ l Hl. unfold write_extracted. destruct (host_write _ _ _) as [[stored good]|]; cbn.
  - split; [|by intros []]. apply Forall_app. split; [done|]. by constructor.
  - split; done.
Qed.

(** ** What the names of the entries lead to *)

Definition small_names (es : list ZipEntry) : Prop := ∀ e, e ∈ es → size (ze_name e) < 65536.

Lemma is_asset_Ok name b : size name < 65536 → is_asset name = Ok b →
  b = true → ∃ t, name = cs "assets" ++ slash :: t ∧ (dotdot ∉ split_on slash t).
Proof.
  intros Hs Ha ->. unfold is_asset in Ha. destruct (starts_with name _) eqn:E; [|done].
  destruct (negb _); [|done]. cbn [andb] in Ha. rewrite safe_zip_path_spec in Ha by lia.
  injection Ha as Ha%bool_decide_eq_true.
  apply starts_with_spec in E as [t ->]. exists t. split; [done|].
  destruct Ha as (_ & _ & _ & _ & Hd). change (cs "assets/" ++ t) with (cs "assets" ++ slash :: t) in Hd.
  rewrite split_on_app in Hd. set_solver.
Qed.

Lemma launch_entries_Ok es libs assets : small_names es → launch_entries es = Ok (libs, assets) →
  libs = filter (λ e, is_arm64_lib (ze_name e) = true) es ∧
  Forall (λ e, ∃ t, ze_name e = cs "assets" ++ slash :: t ∧ (dotdot ∉ split_on slash t)) assets ∧
  (∀ e, e ∈ assets → e ∈ es).
Proof.
  revert libs assets. induction es as [|e es IH]; intros libs assets Hs Hl.
  { injection Hl as <- <-. by split_and!. }
  cbn [launch_entries] in Hl. apply bind_Ok in Hl as (asset & Ha & Hl).
  apply bind_Ok in Hl as ([libs' assets'] & Hr & Hl).
  assert (small_names es) as Hs' by (intros x Hx; apply Hs; by right).
  destruct (IH libs' assets' Hs' Hr) as (H1' & H2' & H3'). rewrite filter_cons.
  assert (∀ x, x ∈ assets' → x ∈ e :: es) as H3'' by (intros x Hx; right; auto).
  destruct (is_arm64_lib (ze_name e)) eqn:E.
  - injection Hl as <- <-. rewrite decide_True by done. subst libs'. by split_and!.
  - rewrite decide_False by done. destruct asset; injection Hl as <- <-; split_and!; try done.
    + constructor; [|done]. eapply is_asset_Ok; [apply Hs; by left|exact Ha|done].
    + intros x [->|Hx]%elem_of_cons; [by left|auto].
Qed.

Lemma lib_file_name name : is_arm64_lib name = true →
  basename name ≠ [] ∧ basename name ≠ dotdot ∧ head (basename name) ≠ Some slash.
Proof.
  intros [_ He]%andb_true_iff. apply ends_with_spec in He as [t ->].
  pose proof (basename_no_slash (t ++ cs ".so")) as Hns.
  assert (∃ u, basename (t ++ cs ".so") = u ++ cs ".so") as [u Eu].
  { destruct (last_of_at_spec slash t 0 0) as [[_ Hn]|(a & b & -> & Hn & _)].
    - exists t. apply basename_plain. set_solver.
    - exists b. rewrite <- app_assoc. cbn [app]. apply basename_slash. set_solver. }
  rewrite Eu in *. split_and!; [by destruct u|by intros E; repeat (destruct u as [|? u]; try done)|].
  destruct (u ++ cs ".so") as [|c r] eqn:Ec; [done|]. cbn. intros [= ->]. set_solver.
Qed.

Definition lib_dir_of (d : list Z) : list Z := path_join (path_join d (cs "lib")) (cs "arm64-v8a").

Lemma lib_path d name : plain_dir d → is_arm64_lib name = true →
  path_join (lib_dir_of d) (basename name) = path_join d (cs "lib" ++ slash :: cs "arm64-v8a" ++ slash :: basename name).
Proof.
  intros Hd Hn. destruct (lib_file_name name Hn) as (H1' & H2' & H3'). unfold lib_dir_of.
  rewrite (path_join_app d (cs "lib")) by (done || by vm_compute).
  by rewrite path_join_app by (done || by vm_compute).
Qed.

(** ** The theorem *)

(** The extraction directory of a configuration. *)
Definition extract_dir_of (config : ApkLaunchConfig) : list Z :=
  if eq_str (cfg_output_dir config) []
  then default_extract_dir (cfg_apk_path config) (cfg_output_base_dir config)
  else cfg_output_dir config.

Lemma read_file_fits p d : read_file p = Ok d → fits d.
Proof.
  unfold read_file. destruct (host_open p) as [[n o]|] eqn:E; [|done].
  destruct (n <? 0); [done|]. destruct (n =? 0).
  - intros [= <-]. split; [constructor|by vm_compute].
  - destruct o as [data|]; [|done]. intros [= <-]. by eapply host_open_fits.
Qed.

Lemma read_names apk es : fits apk → read_zip_entries apk = Ok es → small_names es.
Proof.
  intros Hf He. pose proof (wp_Ok _ _ _ _ (wp_read_zip_entries apk Hf) He) as Hall.
  intros e Hin. rewrite Forall_forall in Hall. by apply Hall.
Qed.

Lemma io_extract_lib d apk selected lib st : plain_dir d → size (ze_name lib) < 65536 →
  is_arm64_lib (ze_name lib) = true →
  io_wp (inside d) (extract_lib apk (lib_dir_of d) selected lib st) (λ _, True).
Proof.
  intros Hd Hs Hl. unfold extract_lib. apply io_bind, io_pure. intros data _.
  apply io_bind, io_pure. rewrite filename_from_zip_path_eq by lia. intros f [= <-].
  apply io_bind, io_write; [|by apply io_ret]. rewrite lib_path by done.
  destruct (lib_file_name _ Hl) as (H1' & H2' & _).
  destruct (join_below d (cs "lib") (cs "arm64-v8a" ++ slash :: basename (ze_name lib))) as [Hb _];
    try done; try decides.
  rewrite split_on_app, (split_on_none _ (basename _)) by apply basename_no_slash.
  rewrite not_elem_of_app, list_elem_of_singleton. split; [decides|done].
Qed.

Lemma io_extract_asset d apk asset st t : plain_dir d → size d < 4611686018427387904 →
  size (ze_name asset) < 65536 →
  ze_name asset = cs "assets" ++ slash :: t → dotdot ∉ split_on slash t →
  io_wp (inside d) (extract_asset apk d asset st) (λ _, True).
Proof.
  intros Hd Hds Hs En Ht. unfold extract_asset. apply io_bind, io_pure. intros data _. rewrite En in *.
  assert (slash ∉ cs "assets" ∧ 0 ∉ cs "assets") as [Ha1 Ha2] by (split; decides).
  apply io_bind, io_create; [apply parent_below; try done; lia|].
  apply io_bind, io_write; [apply join_below; done|]. by apply io_ret.
Qed.

(** C25. Whatever the archive and its manifest hold, and however the host fails,
    each directory and each file that preparing a launch makes is at or below
    the extraction directory. *)
Theorem launch_contained fuel config l r :
  let d := extract_dir_of config in
  plain_dir d → size d < 4611686018427387904 →
  prepare_apk_launch fuel config [] = (l, r) → inside d l.
Proof.
  intros d Hd Hds Hr. assert (io_wp (inside d) (prepare_apk_launch fuel config) (λ _, True)) as Hio.
  2:{ destruct (Hio [] ltac:(constructor)) as [Hl _]. by rewrite Hr in Hl. }
  assert (slash ∉ cs "lib" ∧ 0 ∉ cs "lib" ∧ slash ∉ cs "assets" ∧ 0 ∉ cs "assets") as (? & ? & ? & ?)
    by (split_and!; decides).
  unfold prepare_apk_launch. fold (extract_dir_of config). fold d. fold (lib_dir_of d).
  apply io_bind, io_pure. intros _ _. apply io_bind, io_pure. intros apk Hapk%read_file_fits.
  apply io_bind, io_pure. intros es Hes%read_names; [|done].
  apply io_bind, io_pure. intros cl _. apply io_bind, io_pure. intros [libs assets] Hl.
  destruct (launch_entries_Ok _ _ _ Hes Hl) as (-> & Has & Hin).
  do 3 (apply io_bind, io_pure; intros ? _). apply io_bind, io_pure. intros [selected|] _.
  2:{ apply io_bind, io_pure. intros ? _. by apply io_pure. }
  apply io_bind, io_create.
  { unfold lib_dir_of. rewrite path_join_app by (done || by vm_compute).
    apply join_below; try done. decides. }
  apply io_bind. eapply io_mono with (Q := λ _, True).
  { case_bool_decide; [by apply io_ret|]. apply io_create; [|done].
    by apply (join_below d (cs "assets") []); try done; decides. }
  intros _ _. apply io_bind, io_pure. intros base _. apply io_bind.
  eapply io_mono; [apply (io_for _ _ _ _ (λ _, True)); [|done]|].
  { intros lib st [Hlib Hin']%list_elem_of_filter _. apply io_extract_lib; [done|by apply Hes|done]. }
  intros [exl so] _. apply io_bind. eapply io_mono; [apply (io_for _ _ _ _ (λ _, True)); [|done]|].
  { intros asset st Ha _. rewrite Forall_forall in Has. destruct (Has asset Ha) as (t & En & Ht).
    apply (io_extract_asset d apk asset st t); try done. by apply Hes, Hin. }
  intros exa _. apply io_bind, io_pure. intros _ _. by apply io_ret.
Qed.

(** ** Which library is run *)

(** What a file holds after a series of operations. *)
Definition file_at (l : list effect) (p : list Z) : option (list Z) :=
  foldl (λ o e, match e with WriteFile q s => if decide (q = p) then Some s else o
                           | CreateDirs _ _ => o end) None l.
(** A host that stores what is written. *)
Definition honest : Prop := ∀ l p data, host_write l p data = Some (data, true).

Lemma file_at_app l k p : file_at (l ++ k) p =
  match file_at k p with Some s => Some s | None => file_at l p end.
Proof.
  unfold file_at. rewrite foldl_app. generalize (foldl (λ o e, match e with
    WriteFile q s => if decide (q = p) then Some s else o | CreateDirs _ _ => o end) None l) as o.
  intros o. revert o. induction k as [|e k IH] using rev_ind; intros o; [done|].
  rewrite !foldl_app. cbn [foldl]. destruct e as [|q s]; [apply IH|].
  destruct (decide _); [done|apply IH].
Qed.

Lemma path_join_inj d a b : head a ≠ Some slash → head b ≠ Some slash →
  path_join d a = path_join d b → a = b.
Proof.
  intros Ha Hb. unfold path_join. assert (∀ t, head t ≠ Some slash → starts_with t (cs "/") = false) as Hst.
  { intros t Ht. destruct (starts_with t (cs "/")) eqn:E; [|done].
    by apply starts_with_spec in E as [u ->]. }
  rewrite !Hst by done. destruct (_ || _); [done|]. destruct (ends_with _ _).
  - apply app_inv_head.
  - intros E%app_inv_head. by apply app_inv_head in E.
Qed.

(** The run of the loop over the libraries. *)
Lemma libs_loop (Hh : honest) d apk selected libs st l l' st' :
  Forall (λ lib, size (ze_name lib) < 65536) libs →
  for_io (extract_lib apk (lib_dir_of d) selected) libs st l = (l', Ok st') →
  ∃ datas, Forall2 (λ lib data, extract_entry_data apk lib = Ok data) libs datas ∧
    l' = l ++ zip_with (λ lib data, WriteFile (path_join (lib_dir_of d) (basename (ze_name lib))) data) libs datas ∧
    st'.2 = (if decide (ze_name selected ∈ ze_name <$> libs)
             then path_join (lib_dir_of d) (basename (ze_name selected)) else st.2).
Proof.
  intros Hs. revert st l. induction Hs as [|lib libs Hlib _ IH]; intros st l Hr; cbn [for_io] in Hr.
  { injection Hr as <- <-. exists []. split_and!; [constructor|by rewrite app_nil_r|].
    rewrite decide_False; [done|]. by intros ?%elem_of_nil. }
  unfold extract_lib, mbind, IO_bind, pure, mret, IO_ret, write_extracted in Hr.
  destruct (extract_entry_data apk lib) as [data|e| |] eqn:Ed; try discriminate Hr.
  rewrite filename_from_zip_path_eq, Hh in Hr by lia.
  apply IH in Hr as (datas & Hd & -> & ->). exists (data :: datas).
  split_and!; [by constructor|by rewrite <- app_assoc|]. cbn [fmap list_fmap snd]. unfold eq_str.
  destruct (decide (ze_name selected ∈ ze_name <$> libs)) as [Hin|Hin].
  - by rewrite decide_True by by right.
  - case_bool_decide as E.
    + rewrite decide_True by (rewrite E; by left). by rewrite E.
    + rewrite decide_False; [done|]. intros [?|?]%elem_of_cons; [congruence|done].
Qed.

(** The last library by a file name is what its file holds. *)
Lemma file_at_libs d apk libs datas f : head f ≠ Some slash →
  Forall (λ lib, head (basename (ze_name lib)) ≠ Some slash) libs →
  Forall2 (λ lib data, extract_entry_data apk lib = Ok data) libs datas →
  ∀ lib, last (filter (λ e, basename (ze_name e) = f) libs) = Some lib →
  ∃ data, extract_entry_data apk lib = Ok data ∧
    file_at (zip_with (λ lib data, WriteFile (path_join (lib_dir_of d) (basename (ze_name lib))) data) libs datas)
      (path_join (lib_dir_of d) f) = Some data.
Proof.
  intros Hf Hh Hd. induction Hd as [|e data es datas He Hd IH]; intros lib; [done|].
  inversion Hh as [|? ? Hh1 Hh2]; subst. cbn [zip_with].
  change (WriteFile ?p data :: ?k) with ([WriteFile p data] ++ k). rewrite filter_cons, file_at_app.
  specialize (IH Hh2). destruct (last (filter _ es)) as [lib'|] eqn:El.
  - intros Hl. assert (lib' = lib) as ->.
    { destruct (decide _); [|congruence]. rewrite last_cons, El in Hl. by injection Hl. }
    destruct (IH lib eq_refl) as (data' & H1' & ->). by exists data'.
  - apply last_None in El. destruct (decide (basename (ze_name e) = f)) as [<-|]; [|by rewrite El].
    rewrite El. intros [= <-]. exists data. split; [done|].
    assert (file_at (zip_with (λ lib data, WriteFile (path_join (lib_dir_of d) (basename (ze_name lib))) data) es datas)
      (path_join (lib_dir_of d) (basename (ze_name e))) = None) as ->; [|unfold file_at; cbn; by rewrite decide_True].
    clear IH Hh Hh1. revert El Hh2. induction Hd as [|x y xs ys _ _ IH]; [done|].
    rewrite filter_cons. destruct (decide _) as [|Hne]; [done|]. intros El Hh. inversion Hh as [|? ? Hx Hxs]; subst.
    cbn [zip_with]. change (WriteFile ?p y :: ?k) with ([WriteFile p y] ++ k). rewrite file_at_app, IH by done.
    unfold file_at. cbn. rewrite decide_False; [done|]. intros E%path_join_inj; [done|done|done].
Qed.

(** Extracting an asset leaves the libraries alone. *)
Lemma assets_keep_libs (Hh : honest) d apk name data asset st t : plain_dir d →
  is_arm64_lib name = true → ze_name asset = cs "assets" ++ slash :: t →
  io_wp (λ l, file_at l (path_join (lib_dir_of d) (basename name)) = Some data)
    (extract_asset apk d asset st) (λ _, True).
Proof.
  intros Hd Hn En. unfold extract_asset. apply io_bind, io_pure. intros bytes _. apply io_bind.
  intros l Hl. split; [unfold create_directories; cbn [fst]; by rewrite file_at_app|]. intros _ _. apply io_bind. clear l Hl.
  intros l Hl. unfold write_extracted. rewrite Hh. cbn [fst snd]. split.
  - rewrite file_at_app. unfold file_at at 1. cbn. rewrite decide_False; [done|].
    rewrite lib_path, En by done. intros E%path_join_inj; [discriminate E|done|done].
  - intros _ _. by apply io_ret.
Qed.

(** [first_match] answers one of the libraries. *)
Lemma first_match_in libs name lib : first_match libs name = Ok (Some lib) → lib ∈ libs.
Proof.
  induction libs as [|l libs IH]; cbn; [done|]. intros H'. apply bind_Ok in H' as (m & _ & H').
  destruct m; [injection H' as ->; by left|]. right. auto.
Qed.
Lemma select_lib_in name mname libs bases lib :
  select_lib name mname libs bases = Ok (Some lib) → lib ∈ libs.
Proof.
  unfold select_lib. destruct name as [n|].
  - intros H'. apply bind_Ok in H' as (o & H' & E). destruct o as [x|].
    + injection E as ->. by apply first_match_in in H'.
    + by apply bind_Ok in E as (? & _ & ?).
  - destruct mname as [n|]; [apply first_match_in|]. destruct libs as [|x [|y l]]; [done|intros [= ->]; by left|].
    apply first_match_in.
Qed.

Lemma io_Ok {A B} (m : IO A) (f : A → IO B) l l' b :
  (m ≫= f) l = (l', Ok b) → ∃ l1 a, m l = (l1, Ok a) ∧ f a l1 = (l', Ok b).
Proof. unfold mbind, IO_bind. destruct (m l) as [l1 [a|e| |]]; [eauto|done..]. Qed.
Lemma pure_Ok {A} (r : res A) l l' a : pure r l = (l', Ok a) → l' = l ∧ r = Ok a.
Proof. by intros [= -> ->]. Qed.

(** When a launch is prepared, on a host that stores what is written, the
    path it gives for the selected library holds the contents of the last
    library of the archive with the same file name.  With distinct file names
    that is the selected one; otherwise the program that is run may be
    another one. *)
Theorem launch_runs_last fuel config l r :
  let d := extract_dir_of config in
  honest → plain_dir d →
  prepare_apk_launch fuel config [] = (l, Ok r) →
  ∃ apk es selected lib data,
    read_file (cfg_apk_path config) = Ok apk ∧ read_zip_entries apk = Ok es ∧
    selected ∈ es ∧ lib_base_name (ze_name selected) = Ok (lr_selected_lib r) ∧
    last (filter (λ e, is_arm64_lib (ze_name e) = true ∧
                       basename (ze_name e) = basename (ze_name selected)) es) = Some lib ∧
    extract_entry_data apk lib = Ok data ∧ file_at l (lr_so_path r) = Some data.
Proof.
  intros d Hh Hd Hr. unfold prepare_apk_launch in Hr.
  fold (extract_dir_of config) in Hr. fold d in Hr. fold (lib_dir_of d) in Hr.
  apply io_Ok in Hr as (? & ? & [-> _]%pure_Ok & Hr).
  apply io_Ok in Hr as (? & apk & [-> Hapk]%pure_Ok & Hr).
  apply io_Ok in Hr as (? & es & [-> Hes]%pure_Ok & Hr).
  apply io_Ok in Hr as (? & cl & [-> _]%pure_Ok & Hr).
  apply io_Ok in Hr as (? & [libs assets] & [-> Hl]%pure_Ok & Hr).
  pose proof (read_names _ _ (read_file_fits _ _ Hapk) Hes) as Hn.
  destruct (launch_entries_Ok _ _ _ Hn Hl) as (Elibs & Has & Hin).
  do 2 apply io_Ok in Hr as (? & ? & [-> _]%pure_Ok & Hr).
  apply io_Ok in Hr as (? & bases & [-> _]%pure_Ok & Hr).
  apply io_Ok in Hr as (? & [selected|] & [-> Hsel]%pure_Ok & Hr).
  2:{ by apply io_Ok in Hr as (? & ? & _ & [_ ?]%pure_Ok). }
  apply select_lib_in in Hsel.
  apply io_Ok in Hr as (l1 & ? & _ & Hr). apply io_Ok in Hr as (l2 & ? & _ & Hr).
  apply io_Ok in Hr as (? & base & [-> Hbase]%pure_Ok & Hr).
  apply io_Ok in Hr as (l3 & [exl so] & Hlibs & Hr).
  apply io_Ok in Hr as (l4 & exa & Hassets & Hr).
  apply io_Ok in Hr as (? & ? & [-> _]%pure_Ok & Hr). injection Hr as <- <-. cbn [lr_selected_lib lr_so_path].
  assert (∀ e, e ∈ libs → is_arm64_lib (ze_name e) = true ∧ e ∈ es) as Hlib.
  { intros e He. rewrite Elibs in He. by apply list_elem_of_filter in He. }
  destruct (libs_loop Hh d apk selected libs _ _ _ _ ltac:(apply Forall_forall; intros e He; by apply Hn, Hlib) Hlibs)
    as (datas & Hdatas & -> & Hso). cbn [snd] in Hso.
  rewrite decide_True in Hso by (apply list_elem_of_fmap; eauto). subst so.
  destruct (last (filter (λ e, basename (ze_name e) = basename (ze_name selected)) libs)) as [lib|] eqn:Elast.
  2:{ exfalso. apply last_None in Elast. apply (not_elem_of_nil selected). rewrite <- Elast.
      by apply list_elem_of_filter. }
  destruct (Hlib _ Hsel) as [Hsn Hse]. destruct (lib_file_name _ Hsn) as (_ & _ & Hhead).
  destruct (file_at_libs d apk libs datas _ Hhead
    ltac:(apply Forall_forall; intros e He; apply lib_file_name, Hlib, He) Hdatas lib Elast) as (data & Hdata & Hfile).
  exists apk, es, selected, lib, data. split_and!; try done.
  - rewrite <- Elast, Elibs, list_filter_filter. f_equal. apply list_filter_iff. tauto.
  - assert (io_wp (λ l, file_at l (path_join (lib_dir_of d) (basename (ze_name selected))) = Some data)
      (for_io (extract_asset apk d) assets []) (λ _, True)) as Hio.
    { apply io_for; [|done]. intros asset st Ha _. rewrite Forall_forall in Has.
      destruct (Has asset Ha) as (t & En & _). by eapply assets_keep_libs. }
    pose proof (file_at_app l2 (zip_with (λ lib data, WriteFile (path_join (lib_dir_of d)
      (basename (ze_name lib))) data) libs datas) (path_join (lib_dir_of d) (basename (ze_name selected)))) as Hpre.
    rewrite Hfile in Hpre. destruct (Hio _ Hpre) as [Hfin _]. rewrite Hassets in Hfin. exact Hfin.
Qed.
End Launch.

(** ** A host to run it on *)

(** A host with one file, where every operation succeeds. *)
Definition toy_host (apk : list Z) : Host := {|
  host_open p := if eq_str p (cs "a.apk") then Some (size apk, Some apk) else None;
  host_mkdirs l p := true;
  host_write l p data := Some (data, true);
  host_absolute p := p;
  host_file_size p := None;
  host_mtime p := None;
  host_hash s := 0;
  host_cwd := cs "/";
|}.
Lemma toy_host_laws apk : fits apk → HostLaws (toy_host apk).
Proof. intros Hf. split. intros p n d. cbn. destruct (eq_str _ _); [|done]. by intros [= <- <-]. Qed.

Definition stored (name : string) (data : list Z) : member :=
  Member (cs name) data 0 0 (size data) [] [] [] 0 0 0 0.
(** Two libraries by one file name, and a name that tries to leave. *)
Definition toy_apk : list Z := archive
  [ stored "lib/arm64-v8a/libmain.so" [1]; stored "lib/arm64-v8a/other/libmain.so" [2];
    stored "assets/../../etc/x" [3]; stored "assets/a/b" [4] ] [].
Definition toy_config : ApkLaunchConfig := Config (cs "a.apk") (Some (cs "main")) [] (cs "/out").
Definition toy_launch := @prepare_apk_launch toy_zlib (toy_host toy_apk) 100 toy_config [].
Definition toy_result : ApkLaunchResult :=
  match toy_launch.2 with
  | Ok r => r
  | _ => Launched [] [] [] [] [] (Classification [] Empty false None None None None None None None None [] [] []) [] []
  end.
Lemma toy_launch_eq : toy_launch = (toy_launch.1, Ok toy_result).
Proof. vm_compute. reflexivity. Qed.
Lemma toy_apk_fits : fits toy_apk.
Proof. split; [apply bytes_dec; by vm_compute|by vm_compute]. Qed.

(** Witness of [launch_contained] *)
Lemma launch_contained_witness : inside (cs "/out") toy_launch.1 ∧ length toy_launch.1 = 6%nat.
Proof.
  split; [|by vm_compute].
  apply (@launch_contained toy_zlib toy_zlib_laws (toy_host toy_apk) (toy_host_laws _ toy_apk_fits) 100 toy_config _ (Ok toy_result)).
  - split; [done|decides].
  - by vm_compute.
  - exact toy_launch_eq.
Defined.

(** Witness of [launch_runs_last]: the library selected is not the one run. *)
Lemma launch_runs_last_witness :
  lr_selected_lib toy_result = cs "main" ∧ file_at toy_launch.1 (lr_so_path toy_result) = Some [2] ∧
  ∃ apk es selected lib data,
    @read_file (toy_host toy_apk) (cs "a.apk") = Ok apk ∧ read_zip_entries apk = Ok es ∧
    selected ∈ es ∧ lib_base_name (ze_name selected) = Ok (lr_selected_lib toy_result) ∧
    last (filter (λ e, is_arm64_lib (ze_name e) = true ∧
                       basename (ze_name e) = basename (ze_name selected)) es) = Some lib ∧
    @extract_entry_data toy_zlib apk lib = Ok data ∧ file_at toy_launch.1 (lr_so_path toy_result) = Some data.
Proof.
  split; [by vm_compute|]. split; [by vm_compute|].
  apply (@launch_runs_last toy_zlib toy_zlib_laws (toy_host toy_apk) (toy_host_laws _ toy_apk_fits) 100 toy_config).
  - done.
  - split; [done|decides].
  - exact toy_launch_eq.
Defined.
