(* ===== verification/Machine.v ===== *)
(** * Byte-addressed memory and the effect monad

    A process image is a finite map from addresses to cells, a cell being a
    byte with the protection bits of its page.  An access to an address with
    no cell, or one the protection forbids, has no defined behaviour: loads
    and stores are partial.  Effectful C code is a function in the monad [M]:
    it returns a value, exits the process, or faults. *)

From S2P Require Import Prelude.

(** ** Memory *)

(** linker64/src/syscall.h:25-28 (PROT_READ) The bits of a protection. *)
Definition PROT_NONE : Z := 0.
Definition PROT_READ : Z := 1.
Definition PROT_WRITE : Z := 2.
Definition PROT_EXEC : Z := 4.

Record cell := Cell { c_byte : Z; c_prot : Z }.
Abbreviation memory := (gmap Z cell).

Definition can_read (c : cell) : bool := negb (Z.land (c_prot c) PROT_READ =? 0).
Definition can_write (c : cell) : bool := negb (Z.land (c_prot c) PROT_WRITE =? 0).

Definition load8 (m : memory) (a : Z) : option Z :=
  c ← m !! a; if can_read c then Some (c_byte c) else None.

Definition store8 (m : memory) (a v : Z) : option memory :=
  c ← m !! a;
  if can_write c then Some (<[a := Cell (u8 v) (c_prot c)]> m) else None.

Fixpoint load_bytes (m : memory) (a : Z) (n : nat) : option (list Z) :=
  match n with
  | O => Some []
  | S n => b ← load8 m a; bs ← load_bytes m (a + 1) n; Some (b :: bs)
  end.

Fixpoint store_bytes (m : memory) (a : Z) (bs : list Z) : option memory :=
  match bs with
  | [] => Some m
  | b :: bs => m' ← store8 m a b; store_bytes m' (a + 1) bs
  end.

(** An [n]-byte little-endian load and store. *)
Definition load (n : nat) (m : memory) (a : Z) : option Z :=
  le_combine <$> load_bytes m a n.
Definition store (n : nat) (m : memory) (a v : Z) : option memory :=
  store_bytes m a (le_split n v).

Definition load16 := load 2.
Definition load32 := load 4.
Definition load64 := load 8.
Definition store32 := store 4.
Definition store64 := store 8.

(** Address ranges. *)
Definition in_range (a : Z) (n : nat) (x : Z) : Prop := a <= x < a + Z.of_nat n.
Definition disjoint_ranges (a : Z) (n : nat) (b : Z) (k : nat) : Prop :=
  a + Z.of_nat n <= b ∨ b + Z.of_nat k <= a.
(** Arithmetic about ranges. *)
Ltac range := unfold in_range, disjoint_ranges in *; simpl in *; lia.
Definition readable (m : memory) (a : Z) (n : nat) : Prop :=
  ∀ x, in_range a n x → ∃ c, m !! x = Some c ∧ can_read c = true.
Definition writable (m : memory) (a : Z) (n : nat) : Prop :=
  ∀ x, in_range a n x → ∃ c, m !! x = Some c ∧ can_write c = true.
Definition mem_ok (m : memory) : Prop := ∀ a c, m !! a = Some c → in_u8 (c_byte c).
(** [m'] differs from [m] at most in the bytes of the range. *)
Definition same_but (a : Z) (n : nat) (m m' : memory) : Prop :=
  (∀ x, ¬ in_range a n x → m' !! x = m !! x) ∧
  (∀ x, c_prot <$> m' !! x = c_prot <$> m !! x).

Lemma load8_Some m a b :
  load8 m a = Some b ↔ ∃ c, m !! a = Some c ∧ can_read c = true ∧ c_byte c = b.
Proof.
  unfold load8. destruct (m !! a) as [c|] eqn:E; simpl.
  - destruct (can_read c) eqn:Hc; split.
    + intros [= <-]. by exists c.
    + by intros (c' & [= <-] & _ & ->).
    + done.
    + intros (c' & [= <-] & ? & _). congruence.
  - split; [done|]. by intros (? & ? & _).
Qed.

Lemma load_bytes_length m a n bs : load_bytes m a n = Some bs → length bs = n.
Proof.
  revert a bs. induction n as [|n IH]; simpl; intros a bs H.
  - by injection H as <-.
  - inv_opt. simpl. f_equal. eapply IH. eassumption.
Qed.

Lemma load_bytes_app m a n k :
  load_bytes m a (n + k) =
  (bs ← load_bytes m a n; cs ← load_bytes m (a + Z.of_nat n) k; Some (bs ++ cs)).
Proof.
  revert a. induction n as [|n IH]; intros a.
  { simpl. rewrite Z.add_0_r. by destruct (load_bytes m a k). }
  cbn [Nat.add load_bytes]. destruct (load8 m a) as [b|]; simpl; [|done].
  rewrite IH. replace (a + 1 + Z.of_nat n) with (a + Z.of_nat (S n)) by lia.
  destruct (load_bytes m (a + 1) n) as [bs|]; simpl; [|done].
  by destruct (load_bytes m (a + Z.of_nat (S n)) k).
Qed.

Lemma load_bytes_readable m a n :
  readable m a n ↔ is_Some (load_bytes m a n).
Proof.
  revert a. induction n as [|n IH]; intros a; simpl.
  { split; [by eexists|]. intros _ x Hx. range. }
  split.
  - intros H. destruct (H a) as (c & Hc & Hr); [range|].
    assert (load8 m a = Some (c_byte c)) as -> by (apply load8_Some; eauto). simpl.
    destruct (proj1 (IH (a + 1))) as [bs ->]; [|simpl; eauto].
    intros x Hx. apply H. range.
  - intros [bs H]. inv_opt. apply load8_Some in H0 as (c & Hc & Hr & <-).
    intros x Hx. destruct (Z.eq_dec x a) as [->|Hne]; [eauto|].
    apply (proj2 (IH (a + 1))); [eauto|]. range.
Qed.

Lemma load_bytes_ext m m' a n :
  (∀ x, in_range a n x → m' !! x = m !! x) → load_bytes m' a n = load_bytes m a n.
Proof.
  revert a. induction n as [|n IH]; intros a H; simpl; [done|].
  unfold load8. rewrite (H a) by range.
  destruct (m !! a ≫= _); simpl; [|done].
  rewrite IH; [done|]. intros x Hx. apply H. range.
Qed.

Lemma load_bytes_ok m a n bs : mem_ok m → load_bytes m a n = Some bs → bytes bs.
Proof.
  intros Hm. revert a bs. induction n as [|n IH]; simpl; intros a bs H.
  - injection H as <-. constructor.
  - inv_opt. constructor; [|by eapply IH].
    apply load8_Some in H0 as (c & Hc & _ & <-). by eapply Hm.
Qed.

Lemma store8_spec m a v m' :
  store8 m a v = Some m' →
  ∃ c, m !! a = Some c ∧ can_write c = true ∧ m' = <[a := Cell (u8 v) (c_prot c)]> m.
Proof. unfold store8. intros H. inv_opt. eauto. Qed.

(** What a successful store did: every cell in range holds the byte written
    with the protection it had, every other cell is untouched. *)
Lemma store_bytes_lookup m a bs m' :
  store_bytes m a bs = Some m' → ∀ x,
  m' !! x = match (if decide (a <= x) then bs !! Z.to_nat (x - a) else None) with
            | Some b => Cell (u8 b) ∘ c_prot <$> m !! x
            | None => m !! x
            end.
Proof.
  revert m a. induction bs as [|b bs IH]; intros m a H x; cbn [store_bytes] in H.
  { injection H as ->. rewrite lookup_nil. by case_decide. }
  destruct (store8 m a b) as [m1|] eqn:H1; simpl in H; [|done].
  apply store8_spec in H1 as (c & Hc & Hw & ->).
  rewrite (IH _ _ H x). clear IH H. destruct (decide (a + 1 <= x)), (decide (a <= x)); try lia.
  - replace (Z.to_nat (x - a)) with (S (Z.to_nat (x - (a + 1)))) by lia. cbn.
    rewrite lookup_insert_ne by lia. done.
  - assert (x = a) as -> by lia. rewrite Z.sub_diag. simpl.
    by rewrite lookup_insert_eq, Hc.
  - simpl. by rewrite lookup_insert_ne by lia.
Qed.

Lemma store_bytes_writable m a bs :
  writable m a (length bs) ↔ is_Some (store_bytes m a bs).
Proof.
  revert m a. induction bs as [|b bs IH]; intros m a; cbn [store_bytes length].
  { split; [by eexists|]. intros _ x Hx. range. }
  split.
  - intros H. destruct (H a) as (c & Hc & Hw); [range|].
    unfold store8. rewrite Hc. simpl. rewrite Hw. simpl.
    apply IH. intros x Hx. rewrite lookup_insert_ne by range.
    apply H. range.
  - intros [m' H]. destruct (store8 m a b) as [m1|] eqn:H1; simpl in H; [|done].
    apply store8_spec in H1 as (c & Hc & Hw & ->).
    assert (writable (<[a:=Cell (u8 b) (c_prot c)]> m) (a + 1) (length bs)) as Hr
      by (apply IH; eauto).
    intros x Hx. destruct (Z.eq_dec x a) as [->|Hne]; [eauto|].
    destruct (Hr x) as (c' & Hc' & Hw'); [range|].
    rewrite lookup_insert_ne in Hc' by range. eauto.
Qed.

Lemma store_bytes_same_but m a bs m' :
  store_bytes m a bs = Some m' → same_but a (length bs) m m'.
Proof.
  intros H. pose proof (store_bytes_lookup _ _ _ _ H) as Hl. split; intros x.
  - intros Hx. rewrite Hl. case_decide; [|done].
    rewrite lookup_ge_None_2; [done|]. range.
  - rewrite Hl. destruct (if decide _ then _ else _); [|done].
    by destruct (m !! x).
Qed.

Lemma store_bytes_ok m a bs m' : mem_ok m → store_bytes m a bs = Some m' → mem_ok m'.
Proof.
  intros Hm H x c Hc. rewrite (store_bytes_lookup _ _ _ _ H x) in Hc.
  destruct (if decide _ then _ else _) as [b|]; [|by eapply Hm].
  destruct (m !! x); simpl in Hc; [|done]. injection Hc as <-. apply u8_range.
Qed.

Lemma same_but_disjoint a n (m m' : memory) b k :
  same_but a n m m' → disjoint_ranges a n b k → load_bytes m' b k = load_bytes m b k.
Proof.
  intros [H _] Hd. apply load_bytes_ext. intros x Hx. apply H.
  range.
Qed.

(** A store keeps every range as readable and as writable as it was. *)
Lemma same_but_readable a n (m m' : memory) b k :
  same_but a n m m' → readable m b k → readable m' b k.
Proof.
  intros [_ Hp] Hr x Hx. destruct (Hr x Hx) as (c & Hc & Hcr).
  specialize (Hp x). rewrite Hc in Hp. simpl in Hp.
  apply fmap_Some in Hp as (c' & Hc' & Hpr). exists c'. split; [done|].
  unfold can_read in *. by rewrite <- Hpr.
Qed.

Lemma same_but_writable a n (m m' : memory) b k :
  same_but a n m m' → writable m b k → writable m' b k.
Proof.
  intros [_ Hp] Hr x Hx. destruct (Hr x Hx) as (c & Hc & Hcr).
  specialize (Hp x). rewrite Hc in Hp. simpl in Hp.
  apply fmap_Some in Hp as (c' & Hc' & Hpr). exists c'. split; [done|].
  unfold can_write in *. by rewrite <- Hpr.
Qed.

Lemma load_store_bytes_same m a bs m' :
  store_bytes m a bs = Some m' → readable m a (length bs) →
  load_bytes m' a (length bs) = Some (u8 <$> bs).
Proof.
  revert m a. induction bs as [|b bs IH]; intros m a H Hr; [done|].
  pose proof (store_bytes_lookup _ _ _ _ H a) as Ha.
  rewrite decide_True, Z.sub_diag in Ha by lia. simpl in Ha.
  destruct (Hr a) as (c & Hc & Hcr); [range|].
  rewrite Hc in Ha. simpl in Ha.
  cbn [length load_bytes fmap list_fmap]. unfold load8. rewrite Ha. simpl.
  replace (can_read (Cell (u8 b) (c_prot c))) with (can_read c) by done.
  rewrite Hcr. simpl. cbn [store_bytes] in H.
  destruct (store8 m a b) as [m1|] eqn:H1; simpl in H; [|done].
  rewrite (IH _ _ H); [done|].
  assert (same_but a 1 m m1) as Hs.
  { apply (store_bytes_same_but m a [b]). simpl. by rewrite H1. }
  eapply same_but_readable; [exact Hs|]. intros x Hx. apply Hr. range.
Qed.

Lemma store_same_but n m a v m' : store n m a v = Some m' → same_but a n m m'.
Proof.
  intros H. apply store_bytes_same_but in H. by rewrite length_le_split in H.
Qed.

Lemma load_store_same n m a v m' :
  store n m a v = Some m' → readable m a n → load n m' a = Some (v mod 256 ^ Z.of_nat n).
Proof.
  intros H Hr. unfold load. pose proof (load_store_bytes_same _ _ _ _ H) as Hl.
  rewrite length_le_split in Hl. rewrite (Hl Hr). simpl. f_equal.
  rewrite <- le_combine_split. f_equal.
  rewrite <- (list_fmap_id (le_split n v)) at 2. apply list_fmap_ext. intros i x Hx.
  apply u8_small. eapply (proj1 (Forall_lookup _ _) (le_split_bytes n v)). exact Hx.
Qed.

Lemma load_store_disjoint n m a v m' b k :
  store n m a v = Some m' → disjoint_ranges a n b k → load k m' b = load k m b.
Proof.
  intros H Hd. unfold load. f_equal. eapply same_but_disjoint; [|exact Hd].
  by apply store_same_but in H.
Qed.

Lemma store_writable n m a v : writable m a n ↔ is_Some (store n m a v).
Proof.
  unfold store. rewrite <- store_bytes_writable. by rewrite length_le_split.
Qed.

Lemma load_readable n m a : readable m a n ↔ is_Some (load n m a).
Proof. unfold load. by rewrite fmap_is_Some, load_bytes_readable. Qed.

(** Permissions of a concrete range, by computation. *)
Fixpoint range_check (ok : cell → bool) (m : memory) (a : Z) (n : nat) : bool :=
  match n with
  | O => true
  | S n => match m !! a with Some c => ok c | None => false end && range_check ok m (a + 1) n
  end.

Lemma range_check_spec ok m a n :
  range_check ok m a n = true →
  ∀ x, in_range a n x → ∃ c, m !! x = Some c ∧ ok c = true.
Proof.
  revert a. induction n as [|n IH]; intros a H x Hx; [range|].
  cbn [range_check] in H. apply andb_true_iff in H as [H1 H2].
  destruct (decide (x = a)) as [->|Hn].
  - destruct (m !! a) as [c|]; [by exists c|done].
  - apply (IH (a + 1)); [done|]. range.
Qed.

Lemma readable_check m a n : range_check can_read m a n = true → readable m a n.
Proof. intros H x Hx. by apply (range_check_spec _ _ _ _ H). Qed.

Lemma writable_check m a n : range_check can_write m a n = true → writable m a n.
Proof. intros H x Hx. by apply (range_check_spec _ _ _ _ H). Qed.

Lemma store_ok n m a v m' : mem_ok m → store n m a v = Some m' → mem_ok m'.
Proof. apply store_bytes_ok. Qed.

Lemma load_range n m a v : mem_ok m → load n m a = Some v → 0 <= v < 256 ^ Z.of_nat n.
Proof.
  unfold load. intros Hm H. apply fmap_Some in H as (bs & Hbs & ->).
  pose proof (load_bytes_length _ _ _ _ Hbs) as <-.
  apply le_combine_range. by eapply load_bytes_ok.
Qed.

(** ** Effects *)

(** The result of running C code: a value with the new state, the exit of the
    process, an access or an operation with no defined behaviour, or fuel
    that ran out (a theorem of its own rules that out for each loop). *)
Inductive outcome (S A : Type) : Type :=
| Done (a : A) (s : S)
| Exited (code : Z) (s : S)
| Fault
| OutOfFuel.
Arguments Done {S A} _ _.
Arguments Exited {S A} _ _.
Arguments Fault {S A}.
Arguments OutOfFuel {S A}.

Definition M (S A : Type) : Type := S → outcome S A.

#[export] Instance M_ret S : MRet (M S) := λ A a s, Done a s.
#[export] Instance M_bind S : MBind (M S) := λ A B f m s,
  match m s with
  | Done a s => f a s
  | Exited c s => Exited c s
  | Fault => Fault
  | OutOfFuel => OutOfFuel
  end.

Definition get {S} : M S S := λ s, Done s s.
Definition put {S} (s : S) : M S () := λ _, Done () s.
Definition modify {S} (f : S → S) : M S () := λ s, Done () (f s).
Definition fault {S A} : M S A := λ _, Fault.
Definition out_of_fuel {S A} : M S A := λ _, OutOfFuel.
Definition exit {S A} (code : Z) : M S A := λ s, Exited code s.
(** A partial pure computation: no result is a fault. *)
Definition lift {S A} (o : option A) : M S A :=
  λ s, match o with Some a => Done a s | None => Fault end.

Fixpoint for_each {S A} (f : A → M S ()) (l : list A) : M S () :=
  match l with
  | [] => mret ()
  | x :: l => f x ≫= λ _, for_each f l
  end.

Lemma bind_Done {S A B} (m : M S A) (f : A → M S B) s b s' :
  (m ≫= f) s = Done b s' ↔ ∃ a s1, m s = Done a s1 ∧ f a s1 = Done b s'.
Proof.
  unfold mbind, M_bind. destruct (m s) as [a s1| | |] eqn:E.
  - split; [eauto|]. by intros (? & ? & [= <- <-] & ?).
  - split; [done|]. by intros (? & ? & ? & _).
  - split; [done|]. by intros (? & ? & ? & _).
  - split; [done|]. by intros (? & ? & ? & _).
Qed.

Lemma bind_step {S A B} (m : M S A) (f : A → M S B) s a s1 :
  m s = Done a s1 → (m ≫= f) s = f a s1.
Proof. unfold mbind, M_bind. by intros ->. Qed.

Lemma for_each_app {S A} (f : A → M S ()) l1 l2 s :
  for_each f (l1 ++ l2) s = (for_each f l1 ≫= λ _, for_each f l2) s.
Proof.
  revert s. induction l1 as [|x l1 IH]; intros s; [done|]. cbn [app for_each].
  unfold mbind, M_bind in *. destruct (f x s) as [[] s'| | |]; done || apply IH.
Qed.

(** A computation preserves [R] when every state it stops in, normally or by
    exiting, is related to the start state. *)
Definition preserves {S A} (R : S → S → Prop) (m : M S A) : Prop :=
  ∀ s, match m s with
       | Done _ s' | Exited _ s' => R s s'
       | Fault | OutOfFuel => True
       end.

Section Preserves.
Context {S : Type} (R : S → S → Prop) `{!PreOrder R}.

Lemma preserves_ret {A} (a : A) : preserves R (mret a : M S A).
Proof. intros s. simpl. reflexivity. Qed.

Lemma preserves_bind {A B} (m : M S A) (f : A → M S B) :
  preserves R m → (∀ a, preserves R (f a)) → preserves R (m ≫= f).
Proof.
  intros Hm Hf s. specialize (Hm s). unfold mbind, M_bind.
  destruct (m s) as [a s1|c s1| |]; try done.
  specialize (Hf a s1). destruct (f a s1); try done; by etransitivity.
Qed.

Lemma preserves_for_each {A} (f : A → M S ()) l :
  (∀ x, preserves R (f x)) → preserves R (for_each f l).
Proof.
  intros Hf. induction l as [|x l IH]; simpl; [apply preserves_ret|].
  apply preserves_bind; [apply Hf|intros _; apply IH].
Qed.

Lemma preserves_get {A} (f : S → M S A) :
  (∀ s, preserves R (f s)) → preserves R (get ≫= f).
Proof. intros Hf. apply preserves_bind; [|done]. intros s. simpl. reflexivity. Qed.

Lemma preserves_lift {A} (o : option A) : preserves R (lift o : M S A).
Proof. intros s. unfold lift. destruct o; simpl; [reflexivity|done]. Qed.

Lemma preserves_fault {A} : preserves R (fault : M S A).
Proof. intros s. done. Qed.

Lemma preserves_exit {A} c : preserves R (exit c : M S A).
Proof. intros s. simpl. reflexivity. Qed.

Lemma preserves_fuel {A} : preserves R (out_of_fuel : M S A).
Proof. intros s. done. Qed.
End Preserves.

(** The state a computation ends in, when it returns. *)
Definition final {S A} (r : outcome S A) (d : S) : S :=
  match r with Done _ s => s | _ => d end.

Lemma final_Done {S A} `{EqDecision A} (r : outcome S A) a d :
  match r with Done b _ => bool_decide (b = a) | _ => false end = true → r = Done a (final r d).
Proof. destruct r; try done. intros H. by apply bool_decide_eq_true in H as ->. Qed.

(** Never out of fuel, on states that satisfy [P]. *)
Definition has_fuel {S A} (m : M S A) (s : S) : Prop := m s ≠ OutOfFuel.

Lemma has_fuel_bind {S A B} (m : M S A) (f : A → M S B) s :
  has_fuel m s → (∀ a s', m s = Done a s' → has_fuel (f a) s') → has_fuel (m ≫= f) s.
Proof.
  unfold has_fuel, mbind, M_bind. intros Hm Hf. destruct (m s) eqn:E; try done.
  by apply Hf.
Qed.

(** An image that holds the bytes [bs] from [a] on, under one protection. *)
Fixpoint image (a prot : Z) (bs : list Z) : memory :=
  match bs with
  | [] => ∅
  | b :: bs => <[a := Cell b prot]> (image (a + 1) prot bs)
  end.

(** Cells of a range laid over an image. *)
Fixpoint lay (a prot : Z) (bs : list Z) (m : memory) : memory :=
  match bs with
  | [] => m
  | b :: bs => <[a := Cell b prot]> (lay (a + 1) prot bs m)
  end.

Lemma lay_lookup a prot bs m x :
  lay a prot bs m !! x =
  match (if decide (a <= x) then bs !! Z.to_nat (x - a) else None) with
  | Some b => Some (Cell b prot)
  | None => m !! x
  end.
Proof.
  revert a. induction bs as [|b bs IH]; intros a; simpl.
  { rewrite lookup_nil. by destruct (decide (a <= x)). }
  destruct (Z.eq_dec a x) as [->|Hne].
  - by rewrite lookup_insert_eq, decide_True, Z.sub_diag by lia.
  - rewrite lookup_insert_ne, IH by done.
    destruct (decide (a + 1 <= x)), (decide (a <= x)); try lia; [|done].
    by replace (Z.to_nat (x - a)) with (S (Z.to_nat (x - (a + 1)))) by lia.
Qed.

Lemma image_ok a prot bs : bytes bs → mem_ok (image a prot bs).
Proof.
  intros Hb. revert a. induction Hb as [|b bs Hb _ IH]; intros a x c Hx; cbn [image] in Hx; [done|].
  destruct (decide (x = a)) as [->|Hn].
  - rewrite lookup_insert_eq in Hx. by injection Hx as <-.
  - rewrite lookup_insert_ne in Hx by done. by eapply IH.
Qed.

Lemma union_ok (m1 m2 : memory) : mem_ok m1 → mem_ok m2 → mem_ok (m1 ∪ m2).
Proof.
  intros H1 H2 x c Hx. apply lookup_union_Some_raw in Hx as [Hx|[_ Hx]]; [by eapply H1|by eapply H2].
Qed.

(** A cell of one of three images laid side by side. *)
Lemma union3_lookup (a b c : memory) x v :
  a !! x = Some v ∨ (a !! x = None ∧ b !! x = Some v) ∨
  (a !! x = None ∧ b !! x = None ∧ c !! x = Some v) →
  (a ∪ b ∪ c) !! x = Some v.
Proof.
  intros H. rewrite !lookup_union.
  destruct H as [H|[[H1 H2]|(H1 & H2 & H3)]]; rewrite ?H, ?H1, ?H2, ?H3; [|by destruct (c !! x)|done].
  by destruct (b !! x), (c !! x).
Qed.
