(* ===== verification/Elf.v ===== *)
(** * ELF64 and AArch64 definitions of the linker (linker64/src/elf.h)

    The constants the linker compares against and the structures it reads.
    A structure of a mapped image stays in memory and is read field by field
    through its address; a structure read from a file is decoded from its
    bytes. *)

From S2P Require Import Prelude Machine.

(** ** Constants *)

(** linker64/src/elf.h:18-23 (PT_LOAD) Segment types. *)
Definition PT_LOAD : Z := 1.
Definition PT_DYNAMIC : Z := 2.
Definition PT_INTERP : Z := 3.
Definition PT_PHDR : Z := 6.
Definition PT_TLS : Z := 7.
Definition PT_GNU_RELRO : Z := 0x6474e552.

(** linker64/src/elf.h:25-42 (DT_NULL) Dynamic tags; the packed relative
    tags are the ones linker.c defines when the toolchain does not. *)
Definition DT_NULL : Z := 0.
Definition DT_NEEDED : Z := 1.
Definition DT_PLTRELSZ : Z := 2.
Definition DT_STRTAB : Z := 5.
Definition DT_SYMTAB : Z := 6.
Definition DT_RELA : Z := 7.
Definition DT_RELASZ : Z := 8.
Definition DT_STRSZ : Z := 10.
Definition DT_JMPREL : Z := 23.
Definition DT_ANDROID_RELA : Z := 0x60000011.
Definition DT_ANDROID_RELASZ : Z := 0x60000012.
(** linker64/src/linker.c:15-20 (DT_RELR) *)
Definition DT_RELR : Z := 0x6fffe000.
Definition DT_RELRSZ : Z := 0x6fffe001.
Definition DT_GNU_HASH : Z := 0x6ffffef5.

(** linker64/src/elf.h:44-51 (R_AARCH64_NONE) Relocation types. *)
Definition R_AARCH64_NONE : Z := 0.
Definition R_AARCH64_ABS64 : Z := 257.
Definition R_AARCH64_GLOB_DAT : Z := 1025.
Definition R_AARCH64_JUMP_SLOT : Z := 1026.
Definition R_AARCH64_RELATIVE : Z := 1027.
Definition R_AARCH64_TLS_TPREL64 : Z := 1030.
Definition R_AARCH64_TLSDESC : Z := 1031.
Definition R_AARCH64_IRELATIVE : Z := 1032.

(** linker64/src/elf.h:56-58 (SHN_UNDEF) *)
Definition SHN_UNDEF : Z := 0.
Definition STT_GNU_IFUNC : Z := 10.
Definition ELF64_ST_TYPE (i : Z) : Z := Z.land i 15.

(** linker64/src/elf.h:60-62 (PF_X) *)
Definition PF_X : Z := 1.
Definition PF_W : Z := 2.
Definition PF_R : Z := 4.

(** linker64/src/elf.h:64-73 (AT_NULL) Auxiliary vector types. *)
Definition AT_NULL : Z := 0.
Definition AT_PHDR : Z := 3.
Definition AT_PHENT : Z := 4.
Definition AT_PHNUM : Z := 5.
Definition AT_ENTRY : Z := 9.
Definition AT_HWCAP : Z := 16.

(** linker64/src/elf.h:109-110 (ELF64_R_SYM) *)
Definition ELF64_R_SYM (i : Z) : Z := u32 (Z.shiftr i 32).
Definition ELF64_R_TYPE (i : Z) : Z := u32 (Z.land i 0xffffffff).

(** ** Structures read from a file *)

(** The little-endian field of [n] bytes at offset [off] of a structure. *)
Definition field (off n : nat) (bs : list Z) : Z := le_combine (take n (drop off bs)).

(** linker64/src/elf.h:75-83 (Elf64_Ehdr) The fields the linker uses. *)
Record Elf64_Ehdr := { e_phoff : Z; e_phnum : Z }.
Definition sizeof_Ehdr : Z := 64.
Definition ehdr_of_bytes (bs : list Z) : Elf64_Ehdr :=
  {| e_phoff := field 32 8 bs; e_phnum := field 56 2 bs |}.

(** linker64/src/elf.h:85-89 (Elf64_Phdr) *)
Record Elf64_Phdr := {
  p_type : Z; p_flags : Z; p_offset : Z; p_vaddr : Z; p_paddr : Z;
  p_filesz : Z; p_memsz : Z; p_align : Z
}.
Definition sizeof_Phdr : Z := 56.
Definition phdr_of_bytes (bs : list Z) : Elf64_Phdr :=
  {| p_type := field 0 4 bs; p_flags := field 4 4 bs; p_offset := field 8 8 bs;
     p_vaddr := field 16 8 bs; p_paddr := field 24 8 bs; p_filesz := field 32 8 bs;
     p_memsz := field 40 8 bs; p_align := field 48 8 bs |}.

(** The [n] program headers of a table of consecutive entries. *)
Fixpoint phdrs_of_bytes (n : nat) (bs : list Z) : list Elf64_Phdr :=
  match n with
  | O => []
  | S n => phdr_of_bytes (take 56 bs) :: phdrs_of_bytes n (drop 56 bs)
  end.

(** ** Structures read through a pointer *)

(** linker64/src/elf.h:85-89 (Elf64_Phdr) *)
Definition load_phdr (m : memory) (a : Z) : option Elf64_Phdr :=
  phdr_of_bytes <$> load_bytes m a 56.

(** linker64/src/elf.h:91-94 (Elf64_Dyn) [d_tag] is signed, compared only
    against non-negative constants. *)
Definition sizeof_Dyn : Z := 16.
Definition d_tag (m : memory) (a : Z) : option Z := load64 m a.
Definition d_val (m : memory) (a : Z) : option Z := load64 m (a + 8).

(** linker64/src/elf.h:96-101 (Elf64_Sym) *)
Definition sizeof_Sym : Z := 24.
Definition st_name (m : memory) (a : Z) : option Z := load32 m a.
Definition st_info (m : memory) (a : Z) : option Z := load8 m (a + 4).
Definition st_shndx (m : memory) (a : Z) : option Z := load16 m (a + 6).
Definition st_value (m : memory) (a : Z) : option Z := load64 m (a + 8).

(** linker64/src/elf.h:103-107 (Elf64_Rela) *)
Definition sizeof_Rela : Z := 24.
Record Elf64_Rela := { r_offset : Z; r_info : Z; r_addend : Z }.
Definition load_rela (m : memory) (a : Z) : option Elf64_Rela :=
  info ← load64 m (a + 8);
  offset ← load64 m a;
  addend ← load64 m (a + 16);
  Some {| r_offset := offset; r_info := info; r_addend := s64 addend |}.

(** linker64/src/elf.h:112-115 (Elf64_auxv_t) *)
Definition sizeof_auxv : Z := 16.
Definition a_type (m : memory) (a : Z) : option Z := load64 m a.
Definition a_val (m : memory) (a : Z) : option Z := load64 m (a + 8).

Lemma R_SYM_TYPE_split i :
  in_u64 i → i = ELF64_R_SYM i * 4294967296 + ELF64_R_TYPE i.
Proof.
  intros H. unfold ELF64_R_SYM, ELF64_R_TYPE.
  rewrite Z.shiftr_div_pow2 by lia. change 0xffffffff with (Z.ones 32).
  rewrite Z.land_ones by lia. words. change (2 ^ 32) with 4294967296.
  rewrite Z.mod_mod by lia. zdm.
Qed.
