(* ===== verification/CString.v ===== *)
(** * The freestanding string routines of the linker

    linker64/src/linker.c:39-60 and :262-271.  A [char] array is the list of
    its bytes, terminator and slack included; a routine that would run past
    the end of an array has no result. *)

From S2P Require Import Prelude Machine.

(** The content of a buffer: its bytes before the first NUL. *)
Fixpoint cstr_of (b : list Z) : option (list Z) :=
  match b with
  | [] => None
  | c :: b => if c =? 0 then Some [] else cons c <$> cstr_of b
  end.

(** A literal of the source as a buffer. *)
Definition lit (s : string) : list Z := cs s ++ [0].

(** linker64/src/linker.c:39-41 (lnk_strlen) *)
Fixpoint lnk_strlen (s : list Z) : option Z :=
  match s with
  | [] => None
  | c :: s => if c =? 0 then Some 0 else n ← lnk_strlen s; Some (n + 1)
  end.

(** linker64/src/linker.c:42-45 (lnk_strcmp) *)
Fixpoint lnk_strcmp (a b : list Z) : option Z :=
  match a, b with
  | x :: a', y :: b' =>
      if negb (x =? 0) && (x =? y) then lnk_strcmp a' b' else Some (x - y)
  | _, _ => None
  end.

(** linker64/src/linker.c:42-45 (lnk_strcmp) The same loop when the first
    operand is read through a pointer into an image. *)
Fixpoint lnk_strcmp_mem (m : memory) (a : Z) (b : list Z) : option Z :=
  match b with
  | y :: b' =>
      x ← load8 m a;
      if negb (x =? 0) && (x =? y) then lnk_strcmp_mem m (a + 1) b' else Some (x - y)
  | [] => None
  end.

(** linker64/src/linker.c:46-48 (lnk_strcpy) [d] is the destination array;
    the bytes after the copied terminator keep their values. *)
Fixpoint lnk_strcpy (d s : list Z) : option (list Z) :=
  match s, d with
  | c :: s', _ :: d' =>
      if c =? 0 then Some (0 :: d') else r ← lnk_strcpy d' s'; Some (c :: r)
  | _, _ => None
  end.

(** linker64/src/linker.c:49-51 (lnk_strcat) *)
Fixpoint lnk_strcat (d s : list Z) : option (list Z) :=
  match d with
  | [] => None
  | x :: d' =>
      if x =? 0 then lnk_strcpy d s else r ← lnk_strcat d' s; Some (x :: r)
  end.

(** linker64/src/linker.c:52-54 (lnk_memset) *)
Definition lnk_memset (m : memory) (a c n : Z) : option memory :=
  store_bytes m a (replicate (Z.to_nat n) (u8 c)).

(** linker64/src/linker.c:60-71 (lnk_print_hex) The 18 characters written:
    "0x" and the sixteen nibbles from the highest. *)
Definition hex_digit (nibble : Z) : Z := if nibble <? 10 then 48 + nibble else 97 + (nibble - 10).
Definition print_hex (val : Z) : list Z :=
  cs "0x" ++ ((λ i, hex_digit (Z.land (Z.shiftr val ((15 - Z.of_nat i) * 4)) 15)) <$> seq 0 16).

(** linker64/src/linker.c:251-259 (lnk_basename)
    the suffix after the last slash.  [path] is a buffer, the result the
    buffer from the returned pointer on. *)
Fixpoint basename_go (base path : list Z) : option (list Z) :=
  match path with
  | [] => None
  | c :: p => if c =? 0 then Some base else basename_go (if c =? 47 then p else base) p
  end.
Definition lnk_basename (path : list Z) : option (list Z) := basename_go path path.
(** linker64/src/linker.c:342-351 (get_basename) *)
Definition get_basename (path : list Z) : option (list Z) := basename_go path path.

(** A string read through a pointer, up to and with its terminator.  One more
    unit of fuel than there are mapped bytes is enough: see
    [mem_cstr_complete]. *)
Fixpoint cstr_go (fuel : nat) (m : memory) (a : Z) : option (list Z) :=
  match fuel with
  | O => None
  | S fuel =>
      b ← load8 m a;
      if b =? 0 then Some [0] else bs ← cstr_go fuel m (a + 1); Some (b :: bs)
  end.
Definition mem_cstr (m : memory) (a : Z) : option (list Z) := cstr_go (S (size m)) m a.

(** ** What they compute *)

Lemma cstr_of_app s rest : Forall (λ c, c ≠ 0) s → cstr_of (s ++ 0 :: rest) = Some s.
Proof.
  induction 1 as [|c s Hc _ IH]; [done|]. simpl.
  destruct (Z.eqb_spec c 0); [done|]. by rewrite IH.
Qed.

Lemma cstr_of_split b s :
  cstr_of b = Some s → ∃ rest, b = s ++ 0 :: rest ∧ Forall (λ c, c ≠ 0) s.
Proof.
  revert s. induction b as [|c b IH]; intros s H; simpl in H; [done|].
  destruct (Z.eqb_spec c 0) as [->|Hc].
  - injection H as <-. by exists b.
  - inv_opt. destruct (IH _ H0) as (rest & -> & Hf). exists rest. split; [done|by constructor].
Qed.

Lemma lnk_strlen_cstr s : lnk_strlen s = (λ x, Z.of_nat (length x)) <$> cstr_of s.
Proof.
  induction s as [|c s IH]; simpl; [done|]. destruct (c =? 0); [done|].
  rewrite IH. destruct (cstr_of s); simpl; [f_equal; lia|done].
Qed.

Lemma cstr_of_cons c b x :
  cstr_of (c :: b) = Some x ↔
  (c = 0 ∧ x = []) ∨ (c ≠ 0 ∧ ∃ y, cstr_of b = Some y ∧ x = c :: y).
Proof.
  simpl. destruct (Z.eqb_spec c 0) as [->|Hc].
  - split; [intros [= <-]; auto|]. intros [[_ ->]|[? _]]; [done|lia].
  - rewrite fmap_Some. split; [intros (y & ? & ->); right; eauto|].
    intros [[? _]|(_ & y & ? & ->)]; [lia|eauto].
Qed.

Lemma lnk_strcmp_eq_iff a b x y :
  cstr_of a = Some x → cstr_of b = Some y → lnk_strcmp a b = Some 0 ↔ x = y.
Proof.
  revert b x y. induction a as [|c a IH]; intros [|d b] x y Hx Hy; try done.
  apply cstr_of_cons in Hx as [[-> ->]|(Hc & x' & Hx & ->)];
    apply cstr_of_cons in Hy as [[-> ->]|(Hd & y' & Hy & ->)]; simpl.
  - done.
  - split; [intros [= ?]; lia | done].
  - destruct (Z.eqb_spec c 0), (Z.eqb_spec c 0); simpl; try lia.
    split; [intros [= ?]; lia | done].
  - destruct (Z.eqb_spec c 0), (Z.eqb_spec c d) as [->|]; simpl; try lia.
    + rewrite (IH b _ _ Hx Hy). split; [by intros -> | by intros [=]].
    + split; [intros [= ?]; lia | intros [=]; lia].
Qed.

(** A first operand that compares equal to a terminated string is the same
    string. *)
Lemma lnk_strcmp_0_inv a b y : lnk_strcmp a b = Some 0 → cstr_of b = Some y → cstr_of a = Some y.
Proof.
  revert b y. induction a as [|c a IH]; intros [|d b] y Hc Hy; try done.
  cbn [lnk_strcmp] in Hc. destruct (Z.eqb_spec c 0) as [Hc0|Hc0].
  - cbn [negb andb] in Hc. assert (d = c) as -> by (injection Hc; lia).
    by subst c.
  - destruct (Z.eqb_spec c d) as [<-|Hcd]; cbn [negb andb] in Hc; [|injection Hc; lia].
    apply cstr_of_cons in Hy as [[? _]|(_ & z & Hz & ->)]; [done|].
    apply cstr_of_cons. right. eauto.
Qed.

(** A comparison of two terminated strings always has a result. *)
Lemma lnk_strcmp_total a b x y :
  cstr_of a = Some x → cstr_of b = Some y → is_Some (lnk_strcmp a b).
Proof.
  revert b x y. induction a as [|c a IH]; intros [|d b] x y Hx Hy; try done.
  apply cstr_of_cons in Hx as [[-> ->]|(Hc & x' & Hx & ->)];
    apply cstr_of_cons in Hy as [[-> ->]|(Hd & y' & Hy & ->)]; simpl; eauto.
  all: case_match; eauto. destruct (Z.eqb_spec c 0); done.
Qed.

Lemma lnk_strcmp_mem_load m a b k bs s t :
  load_bytes m a k = Some bs → cstr_of bs = Some s → cstr_of b = Some t →
  lnk_strcmp_mem m a b = lnk_strcmp bs b.
Proof.
  revert m a k bs s t. induction b as [|y b IH]; intros m a k bs s t Hl Hs Ht; [done|].
  destruct k as [|k]; cbn [load_bytes] in Hl; [by injection Hl as <-|].
  apply bind_Some in Hl as (x & Hx & Hl). apply bind_Some in Hl as (bs' & Hl & [= <-]).
  simpl. rewrite Hx. simpl.
  destruct (negb (x =? 0) && (x =? y)) eqn:E; [|done].
  apply andb_prop in E as [E1 E2%Z.eqb_eq]. subst y. apply negb_true_iff in E1.
  simpl in Hs, Ht. rewrite E1 in Hs, Ht. inv_opt. by eapply IH.
Qed.

Lemma lnk_strcpy_spec d s x :
  cstr_of s = Some x →
  lnk_strcpy d s =
    if decide (length x < length d)%nat then Some (x ++ 0 :: drop (S (length x)) d) else None.
Proof.
  revert d x. induction s as [|c s IH]; intros d x H; simpl in H; [done|].
  destruct d as [|y d]; simpl; [done|].
  destruct (Z.eqb_spec c 0) as [->|Hc].
  - injection H as <-. done.
  - inv_opt. erewrite IH by eauto. simpl.
    destruct (decide (length x0 < length d)%nat), (decide (S (length x0) < S (length d))%nat);
      try lia; done.
Qed.

Lemma lnk_strcat_spec d s x y :
  cstr_of d = Some x → cstr_of s = Some y →
  lnk_strcat d s =
    if decide (length x + length y < length d)%nat
    then Some (x ++ y ++ 0 :: drop (S (length x + length y)) d) else None.
Proof.
  revert x. induction d as [|c d IH]; intros x Hd Hs; [done|].
  apply cstr_of_cons in Hd as [[-> ->]|(Hc & x' & Hd & ->)]; cbn [lnk_strcat].
  - by apply (lnk_strcpy_spec (0 :: d)) in Hs.
  - destruct (Z.eqb_spec c 0); [done|]. rewrite (IH _ Hd Hs). simpl.
    destruct (decide (length x' + length y < length d)%nat),
      (decide (S (length x' + length y) < S (length d))%nat); try lia; done.
Qed.

Lemma lnk_strcpy_length d s r : lnk_strcpy d s = Some r → length r = length d.
Proof.
  revert d r. induction s as [|c s IH]; intros [|y d] r H; simpl in *; try done.
  destruct (c =? 0); inv_opt; simpl; [done|]. by rewrite (IH _ _ H0).
Qed.

Lemma cstr_go_S f m a :
  cstr_go (S f) m a =
  (b ← load8 m a; if b =? 0 then Some [0] else bs ← cstr_go f m (a + 1); Some (b :: bs)).
Proof. done. Qed.

Lemma cstr_go_more f m a b : cstr_go f m a = Some b → cstr_go (S f) m a = Some b.
Proof.
  revert a b. induction f as [|f IH]; intros a b H; [done|].
  rewrite cstr_go_S in H |- *. apply bind_Some in H as (x & -> & H).
  cbn [mbind option_bind] in *. destruct (x =? 0); [done|].
  apply bind_Some in H as (bs & Hbs & H). by rewrite (IH _ _ Hbs).
Qed.

Lemma cstr_go_mono f g m a b : (f <= g)%nat → cstr_go f m a = Some b → cstr_go g m a = Some b.
Proof. induction 1; [done|]. intros Hb. apply cstr_go_more. auto. Qed.

Lemma cstr_go_sound f m a b :
  cstr_go f m a = Some b →
  load_bytes m a (length b) = Some b ∧ ∃ s, b = s ++ [0] ∧ Forall (λ c, c ≠ 0) s.
Proof.
  revert a b. induction f as [|f IH]; intros a b H; [done|].
  rewrite cstr_go_S in H. apply bind_Some in H as (x & Hx & H).
  destruct (Z.eqb_spec x 0) as [->|Hne].
  - injection H as <-. simpl. rewrite Hx. simpl. split; [done|]. by exists [].
  - apply bind_Some in H as (bs & Hbs & [= <-]).
    destruct (IH _ _ Hbs) as (Hl & s & -> & Hs). split.
    + cbn [length load_bytes]. rewrite Hx. simpl. by rewrite Hl.
    + exists (x :: s). split; [done|by constructor].
Qed.

(** Every terminated string of an image is read: the fuel is enough. *)
Lemma mem_cstr_complete m a s :
  load_bytes m a (length s + 1) = Some (s ++ [0]) → Forall (λ c, c ≠ 0) s →
  mem_cstr m a = Some (s ++ [0]).
Proof.
  intros Hl Hs.
  assert (length s + 1 <= size m)%nat as Hsz.
  { apply (size_seq_keys m a 1); [lia|]. intros k Hk.
    destruct (proj2 (load_bytes_readable m a (length s + 1)) ltac:(eauto) (a + 1 * Z.of_nat k))
      as (c & Hc & _); [range | eauto]. }
  apply (cstr_go_mono (length s + 1)); [lia|].
  clear Hsz. revert a Hl. induction Hs as [|c s Hc _ IH]; intros a Hl.
  - cbn in Hl |- *. apply bind_Some in Hl as (x & -> & [= ->]). done.
  - change (load_bytes m a (length (c :: s) + 1)) with (load_bytes m a (S (length s + 1))) in Hl.
    cbn [load_bytes] in Hl. apply bind_Some in Hl as (x & Hx & Hl).
    apply bind_Some in Hl as (bs & Hbs & [= -> ->]).
    change (cstr_go (length (c :: s) + 1) m a) with (cstr_go (S (length s + 1)) m a).
    rewrite cstr_go_S, Hx. cbn [mbind option_bind].
    destruct (Z.eqb_spec c 0); [done|]. by rewrite (IH _ Hbs).
Qed.

(** ** Printed numbers read back *)

Definition hex_value (c : Z) : Z := if c <? 58 then c - 48 else c - 87.
Definition parse_hex (ds : list Z) : Z := foldl (λ acc c, acc * 16 + hex_value c) 0 ds.

Lemma hex_value_digit n : 0 <= n < 16 → hex_value (hex_digit n) = n.
Proof.
  intros H. unfold hex_value, hex_digit.
  destruct (Z.ltb_spec n 10); case (Z.ltb_spec); lia.
Qed.

(** The digits are those of the value, from the highest. *)
Lemma parse_hex_digits val k :
  0 <= val →
  foldl (λ acc c, acc * 16 + hex_value c) 0
    ((λ i, hex_digit (Z.land (Z.shiftr val ((Z.of_nat k - Z.of_nat i) * 4)) 15)) <$> seq 0 (S k))
  = val mod 16 ^ (Z.of_nat k + 1).
Proof.
  intros Hv.
  assert (∀ j, (j <= k)%nat →
    foldl (λ acc c, acc * 16 + hex_value c) 0
      ((λ i, hex_digit (Z.land (Z.shiftr val ((Z.of_nat k - Z.of_nat i) * 4)) 15)) <$> seq 0 (S j))
    = (val / 16 ^ (Z.of_nat k - Z.of_nat j)) mod 16 ^ (Z.of_nat j + 1)) as H.
  { induction j as [|j IH]; intros Hj.
    - simpl. change 15 with (Z.ones 4).
      rewrite Z.land_ones, hex_value_digit, Z.shiftr_div_pow2 by (try apply Z.mod_pos_bound; lia).
      rewrite (Z.mul_comm _ 4), Z.pow_mul_r by lia. done.
    - rewrite (seq_S (S j) 0), fmap_app, foldl_app, IH by lia. cbn [foldl fmap list_fmap].
      change 15 with (Z.ones 4).
      rewrite Z.land_ones, hex_value_digit, Z.shiftr_div_pow2 by (try apply Z.mod_pos_bound; lia).
      rewrite (Z.mul_comm _ 4), Z.pow_mul_r by lia. change (2 ^ 4) with 16.
      replace (Z.of_nat k - Z.of_nat j) with (Z.of_nat k - Z.of_nat (0 + S j) + 1) by lia.
      set (e := Z.of_nat k - Z.of_nat (0 + S j)).
      replace (Z.of_nat k - Z.of_nat (S j)) with e by lia.
      replace (Z.of_nat (S j) + 1) with (1 + (Z.of_nat j + 1)) by lia.
      rewrite (Z.pow_add_r 16 1), (Z.pow_add_r 16 e 1) by lia.
      rewrite <- Z.div_div by (try apply Z.pow_nonzero; lia).
      rewrite Z.rem_mul_r by (try apply Z.pow_nonzero; lia).
      change (16 ^ 1) with 16. lia. }
  rewrite H by lia. by rewrite Z.sub_diag, Z.div_1_r.
Qed.

Lemma length_print_hex v : length (print_hex v) = 18%nat.
Proof. done. Qed.
