(* ===== verification/LnkBase.v ===== *)
(** * State of the dynamic linker and its system calls

    linker64/src/linker.c:22-133 and linker64/src/syscall.h.  The kernel, the
    code of the loaded images that the linker calls (IFUNC resolvers) and the
    addresses the static linker gave to the linker's own symbols are not part
    of the sources: they are the [Platform] parameter. *)

From S2P Require Import Prelude Machine Elf CString.

(** linker64/src/linker.c:26-27 (MAX_OBJECTS) *)
Definition MAX_OBJECTS : nat := 1024.
Definition MAX_NEEDED : nat := 256.

(** linker64/src/linker.c:29-33 (PAGE_ALIGN_UP) On [uint64_t]. *)
Definition PAGE_SIZE : Z := 4096.
Definition PAGE_MASK : Z := 18446744073709551615 - 4095.
Definition PAGE_ALIGN_UP (x : Z) : Z := Z.land (u64 (x + PAGE_SIZE - 1)) PAGE_MASK.
Definition PAGE_ALIGN_DOWN (x : Z) : Z := Z.land x PAGE_MASK.

(** linker64/src/syscall.h:28-36 (MAP_PRIVATE) *)
Definition MAP_PRIVATE : Z := 2.
Definition MAP_FIXED : Z := 16.
Definition MAP_ANONYMOUS : Z := 32.
Definition AT_FDCWD : Z := -100.
Definition O_RDONLY : Z := 0.

(** The linker's own symbols whose address the code takes. *)
Inductive own_symbol :=
| lnk_libc_init_fn | loader_shared_globals_fn | lnk_dlopen_fn | lnk_dlsym_fn
| lnk_dlclose_fn | lnk_dlerror_fn | lnk_dl_iterate_phdr_fn
| tlsdesc_static_resolver_fn | g_tls_block | g_main_thread | g_shared_globals.

Class Platform := {
  kstate : Type;
  (** openat: path up to its NUL; a descriptor or a negative error *)
  k_openat : list Z → kstate → Z * kstate;
  k_close : Z → kstate → kstate;
  (** lseek(fd, offset, SEEK_SET) *)
  k_lseek : Z → Z → kstate → Z * kstate;
  (** read(fd, len): the result and the bytes put in the buffer *)
  k_read : Z → Z → kstate → Z * list Z * kstate;
  (** mmap(addr, len, prot, flags, fd, off): the result and the new image *)
  k_mmap : Z → Z → Z → Z → Z → Z → memory → kstate → Z * memory * kstate;
  (** mprotect(addr, len, prot): the new image (the linker ignores the result) *)
  k_mprotect : Z → Z → Z → memory → memory;
  k_gettid : kstate → Z;
  (** resolver(hwcap, auxv) at an address: its result and the image it leaves *)
  run_resolver : Z → Z → Z → memory → option (Z * memory);
  own_address : own_symbol → Z;
}.

(** linker64/src/linker.c:100-119 (Object) [needed_off] holds the first
    [needed_count] entries; [path] and [soname] are the whole arrays; a null
    pointer is 0. *)
Record Object := {
  load_base : Z;
  strtab : Z;
  strsz : Z;
  symtab : Z;
  rela : Z; rela_count : Z;
  jmprel : Z; jmprel_count : Z;
  relr : Z; relr_count : Z;
  android_rela : Z;
  android_rela_size : Z;
  gnu_hash_tab : Z;
  needed_off : list Z;
  path : list Z;
  soname : list Z;
  tls_offset : Z;
  tls_vaddr : Z;
  tls_filesz : Z;
  tls_memsz : Z
}.

Definition needed_count (o : Object) : nat := length (needed_off o).

(** The object after [lnk_memset(obj, 0, sizeof( *obj))]. *)
Definition object_zero : Object := {|
  load_base := 0; strtab := 0; strsz := 0; symtab := 0; rela := 0; rela_count := 0;
  jmprel := 0; jmprel_count := 0; relr := 0; relr_count := 0; android_rela := 0;
  android_rela_size := 0; gnu_hash_tab := 0; needed_off := [];
  path := replicate 256 0; soname := replicate 128 0;
  tls_offset := 0; tls_vaddr := 0; tls_filesz := 0; tls_memsz := 0 |}.

(** Assignments to the fields of an object. *)
Definition with_base (o : Object) (v : Z) : Object := {|
  load_base := v; strtab := strtab o; strsz := strsz o; symtab := symtab o; rela := rela o;
  rela_count := rela_count o; jmprel := jmprel o; jmprel_count := jmprel_count o;
  relr := relr o; relr_count := relr_count o; android_rela := android_rela o;
  android_rela_size := android_rela_size o; gnu_hash_tab := gnu_hash_tab o;
  needed_off := needed_off o; path := path o; soname := soname o; tls_offset := tls_offset o;
  tls_vaddr := tls_vaddr o; tls_filesz := tls_filesz o; tls_memsz := tls_memsz o |}.
Definition with_strtab (o : Object) (v : Z) : Object := {|
  load_base := load_base o; strtab := v; strsz := strsz o; symtab := symtab o; rela := rela o;
  rela_count := rela_count o; jmprel := jmprel o; jmprel_count := jmprel_count o;
  relr := relr o; relr_count := relr_count o; android_rela := android_rela o;
  android_rela_size := android_rela_size o; gnu_hash_tab := gnu_hash_tab o;
  needed_off := needed_off o; path := path o; soname := soname o; tls_offset := tls_offset o;
  tls_vaddr := tls_vaddr o; tls_filesz := tls_filesz o; tls_memsz := tls_memsz o |}.
Definition with_strsz (o : Object) (v : Z) : Object := {|
  load_base := load_base o; strtab := strtab o; strsz := v; symtab := symtab o; rela := rela o;
  rela_count := rela_count o; jmprel := jmprel o; jmprel_count := jmprel_count o;
  relr := relr o; relr_count := relr_count o; android_rela := android_rela o;
  android_rela_size := android_rela_size o; gnu_hash_tab := gnu_hash_tab o;
  needed_off := needed_off o; path := path o; soname := soname o; tls_offset := tls_offset o;
  tls_vaddr := tls_vaddr o; tls_filesz := tls_filesz o; tls_memsz := tls_memsz o |}.
Definition with_symtab (o : Object) (v : Z) : Object := {|
  load_base := load_base o; strtab := strtab o; strsz := strsz o; symtab := v; rela := rela o;
  rela_count := rela_count o; jmprel := jmprel o; jmprel_count := jmprel_count o;
  relr := relr o; relr_count := relr_count o; android_rela := android_rela o;
  android_rela_size := android_rela_size o; gnu_hash_tab := gnu_hash_tab o;
  needed_off := needed_off o; path := path o; soname := soname o; tls_offset := tls_offset o;
  tls_vaddr := tls_vaddr o; tls_filesz := tls_filesz o; tls_memsz := tls_memsz o |}.
Definition with_rela (o : Object) (v : Z) : Object := {|
  load_base := load_base o; strtab := strtab o; strsz := strsz o; symtab := symtab o;
  rela := v; rela_count := rela_count o; jmprel := jmprel o; jmprel_count := jmprel_count o;
  relr := relr o; relr_count := relr_count o; android_rela := android_rela o;
  android_rela_size := android_rela_size o; gnu_hash_tab := gnu_hash_tab o;
  needed_off := needed_off o; path := path o; soname := soname o; tls_offset := tls_offset o;
  tls_vaddr := tls_vaddr o; tls_filesz := tls_filesz o; tls_memsz := tls_memsz o |}.
Definition with_rela_count (o : Object) (v : Z) : Object := {|
  load_base := load_base o; strtab := strtab o; strsz := strsz o; symtab := symtab o;
  rela := rela o; rela_count := v; jmprel := jmprel o; jmprel_count := jmprel_count o;
  relr := relr o; relr_count := relr_count o; android_rela := android_rela o;
  android_rela_size := android_rela_size o; gnu_hash_tab := gnu_hash_tab o;
  needed_off := needed_off o; path := path o; soname := soname o; tls_offset := tls_offset o;
  tls_vaddr := tls_vaddr o; tls_filesz := tls_filesz o; tls_memsz := tls_memsz o |}.
Definition with_jmprel (o : Object) (v : Z) : Object := {|
  load_base := load_base o; strtab := strtab o; strsz := strsz o; symtab := symtab o;
  rela := rela o; rela_count := rela_count o; jmprel := v; jmprel_count := jmprel_count o;
  relr := relr o; relr_count := relr_count o; android_rela := android_rela o;
  android_rela_size := android_rela_size o; gnu_hash_tab := gnu_hash_tab o;
  needed_off := needed_off o; path := path o; soname := soname o; tls_offset := tls_offset o;
  tls_vaddr := tls_vaddr o; tls_filesz := tls_filesz o; tls_memsz := tls_memsz o |}.
Definition with_jmprel_count (o : Object) (v : Z) : Object := {|
  load_base := load_base o; strtab := strtab o; strsz := strsz o; symtab := symtab o;
  rela := rela o; rela_count := rela_count o; jmprel := jmprel o; jmprel_count := v;
  relr := relr o; relr_count := relr_count o; android_rela := android_rela o;
  android_rela_size := android_rela_size o; gnu_hash_tab := gnu_hash_tab o;
  needed_off := needed_off o; path := path o; soname := soname o; tls_offset := tls_offset o;
  tls_vaddr := tls_vaddr o; tls_filesz := tls_filesz o; tls_memsz := tls_memsz o |}.
Definition with_relr (o : Object) (v : Z) : Object := {|
  load_base := load_base o; strtab := strtab o; strsz := strsz o; symtab := symtab o;
  rela := rela o; rela_count := rela_count o; jmprel := jmprel o;
  jmprel_count := jmprel_count o; relr := v; relr_count := relr_count o;
  android_rela := android_rela o; android_rela_size := android_rela_size o;
  gnu_hash_tab := gnu_hash_tab o; needed_off := needed_off o; path := path o;
  soname := soname o; tls_offset := tls_offset o; tls_vaddr := tls_vaddr o;
  tls_filesz := tls_filesz o; tls_memsz := tls_memsz o |}.
Definition with_relr_count (o : Object) (v : Z) : Object := {|
  load_base := load_base o; strtab := strtab o; strsz := strsz o; symtab := symtab o;
  rela := rela o; rela_count := rela_count o; jmprel := jmprel o;
  jmprel_count := jmprel_count o; relr := relr o; relr_count := v;
  android_rela := android_rela o; android_rela_size := android_rela_size o;
  gnu_hash_tab := gnu_hash_tab o; needed_off := needed_off o; path := path o;
  soname := soname o; tls_offset := tls_offset o; tls_vaddr := tls_vaddr o;
  tls_filesz := tls_filesz o; tls_memsz := tls_memsz o |}.
Definition with_android_rela (o : Object) (v : Z) : Object := {|
  load_base := load_base o; strtab := strtab o; strsz := strsz o; symtab := symtab o;
  rela := rela o; rela_count := rela_count o; jmprel := jmprel o;
  jmprel_count := jmprel_count o; relr := relr o; relr_count := relr_count o;
  android_rela := v; android_rela_size := android_rela_size o; gnu_hash_tab := gnu_hash_tab o;
  needed_off := needed_off o; path := path o; soname := soname o; tls_offset := tls_offset o;
  tls_vaddr := tls_vaddr o; tls_filesz := tls_filesz o; tls_memsz := tls_memsz o |}.
Definition with_android_rela_size (o : Object) (v : Z) : Object := {|
  load_base := load_base o; strtab := strtab o; strsz := strsz o; symtab := symtab o;
  rela := rela o; rela_count := rela_count o; jmprel := jmprel o;
  jmprel_count := jmprel_count o; relr := relr o; relr_count := relr_count o;
  android_rela := android_rela o; android_rela_size := v; gnu_hash_tab := gnu_hash_tab o;
  needed_off := needed_off o; path := path o; soname := soname o; tls_offset := tls_offset o;
  tls_vaddr := tls_vaddr o; tls_filesz := tls_filesz o; tls_memsz := tls_memsz o |}.
Definition with_gnu_hash (o : Object) (v : Z) : Object := {|
  load_base := load_base o; strtab := strtab o; strsz := strsz o; symtab := symtab o;
  rela := rela o; rela_count := rela_count o; jmprel := jmprel o;
  jmprel_count := jmprel_count o; relr := relr o; relr_count := relr_count o;
  android_rela := android_rela o; android_rela_size := android_rela_size o; gnu_hash_tab := v;
  needed_off := needed_off o; path := path o; soname := soname o; tls_offset := tls_offset o;
  tls_vaddr := tls_vaddr o; tls_filesz := tls_filesz o; tls_memsz := tls_memsz o |}.
Definition with_tls_offset (o : Object) (v : Z) : Object := {|
  load_base := load_base o; strtab := strtab o; strsz := strsz o; symtab := symtab o;
  rela := rela o; rela_count := rela_count o; jmprel := jmprel o;
  jmprel_count := jmprel_count o; relr := relr o; relr_count := relr_count o;
  android_rela := android_rela o; android_rela_size := android_rela_size o;
  gnu_hash_tab := gnu_hash_tab o; needed_off := needed_off o; path := path o;
  soname := soname o; tls_offset := v; tls_vaddr := tls_vaddr o; tls_filesz := tls_filesz o;
  tls_memsz := tls_memsz o |}.
Definition with_needed (o : Object) (l : list Z) : Object := {|
  load_base := load_base o; strtab := strtab o; strsz := strsz o; symtab := symtab o;
  rela := rela o; rela_count := rela_count o; jmprel := jmprel o;
  jmprel_count := jmprel_count o; relr := relr o; relr_count := relr_count o;
  android_rela := android_rela o; android_rela_size := android_rela_size o;
  gnu_hash_tab := gnu_hash_tab o; needed_off := l; path := path o; soname := soname o;
  tls_offset := tls_offset o; tls_vaddr := tls_vaddr o; tls_filesz := tls_filesz o;
  tls_memsz := tls_memsz o |}.
Definition with_path (o : Object) (p : list Z) : Object := {|
  load_base := load_base o; strtab := strtab o; strsz := strsz o; symtab := symtab o;
  rela := rela o; rela_count := rela_count o; jmprel := jmprel o;
  jmprel_count := jmprel_count o; relr := relr o; relr_count := relr_count o;
  android_rela := android_rela o; android_rela_size := android_rela_size o;
  gnu_hash_tab := gnu_hash_tab o; needed_off := needed_off o; path := p; soname := soname o;
  tls_offset := tls_offset o; tls_vaddr := tls_vaddr o; tls_filesz := tls_filesz o;
  tls_memsz := tls_memsz o |}.
Definition with_soname (o : Object) (n : list Z) : Object := {|
  load_base := load_base o; strtab := strtab o; strsz := strsz o; symtab := symtab o;
  rela := rela o; rela_count := rela_count o; jmprel := jmprel o;
  jmprel_count := jmprel_count o; relr := relr o; relr_count := relr_count o;
  android_rela := android_rela o; android_rela_size := android_rela_size o;
  gnu_hash_tab := gnu_hash_tab o; needed_off := needed_off o; path := path o; soname := n;
  tls_offset := tls_offset o; tls_vaddr := tls_vaddr o; tls_filesz := tls_filesz o;
  tls_memsz := tls_memsz o |}.
Definition with_tls (o : Object) (vaddr : Z) (filesz : Z) (memsz : Z) : Object := {|
  load_base := load_base o; strtab := strtab o; strsz := strsz o; symtab := symtab o;
  rela := rela o; rela_count := rela_count o; jmprel := jmprel o;
  jmprel_count := jmprel_count o; relr := relr o; relr_count := relr_count o;
  android_rela := android_rela o; android_rela_size := android_rela_size o;
  gnu_hash_tab := gnu_hash_tab o; needed_off := needed_off o; path := path o;
  soname := soname o; tls_offset := tls_offset o; tls_vaddr := vaddr; tls_filesz := filesz;
  tls_memsz := memsz |}.

(** What the linker asked of the kernel, for the properties of the sequence
    of calls. *)
Inductive event :=
| EvWrite (fd : Z) (bs : list Z)
| EvOpen (path : list Z) (ret : Z)
| EvClose (fd : Z)
| EvMmap (addr len prot flags fd off : Z) (ret : Z)
| EvMprotect (addr len prot : Z)
| EvTpidr (tp : Z)
| EvClearCache (addr : Z).

Section Linker.
Context `{Platform}.

(** linker64/src/linker.c:121-122 (g_objects) and, at lines 79-80,
    g_hwcap and g_auxv.  [l_objs] is the prefix of [g_objects] that is in use,
    so [g_nobjects] is its length; [l_trace] has the newest call first. *)
Record lstate := {
  l_mem : memory;
  l_ks : kstate;
  l_objs : list Object;
  l_hwcap : Z;
  l_auxv : Z;
  l_trace : list event
}.

Definition L := M lstate.

Definition g_nobjects (s : lstate) : nat := length (l_objs s).

Definition set_mem (m : memory) (s : lstate) : lstate :=
  {| l_mem := m; l_ks := l_ks s; l_objs := l_objs s; l_hwcap := l_hwcap s;
     l_auxv := l_auxv s; l_trace := l_trace s |}.
Definition set_ks (k : kstate) (s : lstate) : lstate :=
  {| l_mem := l_mem s; l_ks := k; l_objs := l_objs s; l_hwcap := l_hwcap s;
     l_auxv := l_auxv s; l_trace := l_trace s |}.
Definition set_objs (os : list Object) (s : lstate) : lstate :=
  {| l_mem := l_mem s; l_ks := l_ks s; l_objs := os; l_hwcap := l_hwcap s;
     l_auxv := l_auxv s; l_trace := l_trace s |}.
Definition set_env (hwcap auxv : Z) (s : lstate) : lstate :=
  {| l_mem := l_mem s; l_ks := l_ks s; l_objs := l_objs s; l_hwcap := hwcap;
     l_auxv := auxv; l_trace := l_trace s |}.
Definition log (e : event) (s : lstate) : lstate :=
  {| l_mem := l_mem s; l_ks := l_ks s; l_objs := l_objs s; l_hwcap := l_hwcap s;
     l_auxv := l_auxv s; l_trace := e :: l_trace s |}.

(** A computation over the image only. *)
Definition rd {A} (f : memory → option A) : L A :=
  s ← get; lift (f (l_mem s)).
Definition wr (f : memory → option memory) : L () :=
  s ← get; m ← lift (f (l_mem s)); put (set_mem m s).

(** ** System calls (linker64/src/syscall.h:103-144) *)

(** linker64/src/syscall.h:112-114 (sys_write) Only standard error is
    written, and the result is ignored. *)
Definition sys_write (fd : Z) (bs : list Z) : L () := modify (log (EvWrite fd bs)).
(** linker64/src/syscall.h:103-106 (sys_exit) *)
Definition sys_exit {A} (code : Z) : L A := exit code.
(** linker64/src/syscall.h:116-118 (sys_openat) *)
Definition sys_openat (p : list Z) : L Z :=
  s ← get; let '(r, k) := k_openat p (l_ks s) in
  put (log (EvOpen p r) (set_ks k s)) ≫= λ _, mret r.
(** linker64/src/syscall.h:120-122 (sys_close) *)
Definition sys_close (fd : Z) : L () :=
  s ← get; put (log (EvClose fd) (set_ks (k_close fd (l_ks s)) s)).
(** linker64/src/syscall.h:124-126 (sys_read) *)
Definition sys_read (fd n : Z) : L (Z * list Z) :=
  s ← get; let '(r, bs, k) := k_read fd n (l_ks s) in
  put (set_ks k s) ≫= λ _, mret (r, bs).
(** linker64/src/syscall.h:128-130 (sys_lseek) *)
Definition sys_lseek (fd off : Z) : L Z :=
  s ← get; let '(r, k) := k_lseek fd off (l_ks s) in
  put (set_ks k s) ≫= λ _, mret r.
(** linker64/src/syscall.h:132-136 (sys_mmap) The result as [uint64_t]. *)
Definition sys_mmap (addr len prot flags fd off : Z) : L Z :=
  s ← get; let '(r, m, k) := k_mmap addr len prot flags fd off (l_mem s) (l_ks s) in
  put (log (EvMmap addr len prot flags fd off r) (set_mem m (set_ks k s))) ≫= λ _, mret r.
(** linker64/src/syscall.h:138-140 (sys_mprotect) *)
Definition sys_mprotect (addr len prot : Z) : L () :=
  s ← get;
  put (log (EvMprotect addr len prot) (set_mem (k_mprotect addr len prot (l_mem s)) s)).
(** linker64/src/syscall.h:108-110 (sys_gettid) *)
Definition sys_gettid : L Z := s ← get; mret (k_gettid (l_ks s)).

(** linker64/src/linker.c:56-58 (lnk_puts) *)
Definition lnk_puts (s : list Z) : L () :=
  c ← lift (cstr_of s); sys_write 2 c.
Definition puts (s : string) : L () := lnk_puts (lit s).
(** linker64/src/linker.c:60-71 (lnk_print_hex) *)
Definition lnk_print_hex (val : Z) : L () := lnk_puts (print_hex val ++ [0]).
(** linker64/src/linker.c:72-72 (FATAL) *)
Definition FATAL {A} (msg : string) : L A :=
  puts ("[linker64] FATAL: " +:+ msg +:+ String (Ascii.ascii_of_nat 10) "") ≫= λ _, sys_exit 127.

(** The call of an IFUNC resolver through its address. *)
Definition call_resolver (addr hwcap auxv : Z) : L Z :=
  s ← get;
  match run_resolver addr hwcap auxv (l_mem s) with
  | Some (v, m) => put (set_mem m s) ≫= λ _, mret v
  | None => fault
  end.

(** ** Auxiliary vector *)

(** linker64/src/linker.c:128-132 (auxv_get) *)
Fixpoint auxv_get_go (fuel : nat) (m : memory) (auxv type : Z) : option Z :=
  match fuel with
  | O => None
  | S fuel =>
      t ← a_type m auxv;
      if t =? AT_NULL then Some 0
      else if t =? type then a_val m auxv
      else auxv_get_go fuel m (auxv + sizeof_auxv) type
  end.
Definition auxv_get (m : memory) (auxv type : Z) : option Z :=
  auxv_get_go (S (size m)) m auxv type.

End Linker.

(** ** Page arithmetic *)

Lemma page_mask_land x : in_u64 x → Z.land x PAGE_MASK = x - x mod 4096.
Proof. intros Hx. apply (land_low_mask x 12); [done|lia]. Qed.

Lemma PAGE_ALIGN_DOWN_spec x :
  in_u64 x → PAGE_ALIGN_DOWN x mod 4096 = 0 ∧ PAGE_ALIGN_DOWN x <= x < PAGE_ALIGN_DOWN x + 4096.
Proof. intros Hx. unfold PAGE_ALIGN_DOWN. rewrite page_mask_land by done. zdm. Qed.

Lemma PAGE_ALIGN_UP_spec x :
  0 <= x <= 18446744073709551616 - 4096 →
  PAGE_ALIGN_UP x mod 4096 = 0 ∧ x <= PAGE_ALIGN_UP x < x + 4096.
Proof.
  intros Hx. unfold PAGE_ALIGN_UP, PAGE_SIZE. rewrite page_mask_land by apply u64_range.
  unfold u64. rewrite (Z.mod_small (x + 4096 - 1) 18446744073709551616) by lia. zdm.
Qed.
