(* ===== verification/LnkToy.v ===== *)
(** * A concrete platform

    A small kernel for evaluating the linker on concrete inputs: files are
    byte strings, [mmap] lays a file over the image at the address asked for
    or at the next free one, [read] delivers at most 40 bytes, and a resolver returns its argument plus one. *)

From S2P Require Import Prelude Machine Elf CString LnkBase.

Record toy_kernel := {
  tk_files : list (list Z * list Z);
  tk_pos : gmap Z Z;
  tk_next : Z
}.

Definition toy_content (fd : Z) (k : toy_kernel) : list Z :=
  match tk_files k !! Z.to_nat (fd - 3) with Some f => f.2 | None => [] end.

Definition toy_openat (p : list Z) (k : toy_kernel) : Z * toy_kernel :=
  match find_idx (λ f, bool_decide (f.1 = p)) (tk_files k) with
  | Some i => (3 + Z.of_nat i,
      {| tk_files := tk_files k; tk_pos := <[3 + Z.of_nat i := 0]> (tk_pos k);
         tk_next := tk_next k |})
  | None => (-2, k)
  end.

Definition toy_lseek (fd off : Z) (k : toy_kernel) : Z * toy_kernel :=
  (off, {| tk_files := tk_files k; tk_pos := <[fd := off]> (tk_pos k); tk_next := tk_next k |}).

Definition toy_read (fd n : Z) (k : toy_kernel) : Z * list Z * toy_kernel :=
  let pos := default 0 (tk_pos k !! fd) in
  let bs := take (Z.to_nat (Z.min n 40)) (drop (Z.to_nat pos) (toy_content fd k)) in
  (Z.of_nat (length bs), bs,
   {| tk_files := tk_files k; tk_pos := <[fd := pos + Z.of_nat (length bs)]> (tk_pos k);
      tk_next := tk_next k |}).

Definition toy_mmap (addr len prot flags fd off : Z) (m : memory) (k : toy_kernel) :
    Z * memory * toy_kernel :=
  let base := if Z.land flags MAP_FIXED =? 0 then tk_next k else addr in
  let file := if fd <? 0 then [] else drop (Z.to_nat off) (toy_content fd k) in
  let bs := take (Z.to_nat len) (file ++ replicate (Z.to_nat len) 0) in
  (base, lay base prot bs m,
   {| tk_files := tk_files k; tk_pos := tk_pos k;
      tk_next := if Z.land flags MAP_FIXED =? 0 then tk_next k + PAGE_ALIGN_UP len else tk_next k |}).

Definition toy_mprotect (addr len prot : Z) (m : memory) : memory :=
  foldr (λ i, alter (λ c, Cell (c_byte c) prot) (addr + Z.of_nat i)) m (seq 0 (Z.to_nat len)).

Definition toy_address (f : own_symbol) : Z :=
  match f with
  | lnk_libc_init_fn => 0x1000
  | loader_shared_globals_fn => 0x1010
  | lnk_dlopen_fn => 0x1020
  | lnk_dlsym_fn => 0x1030
  | lnk_dlclose_fn => 0x1040
  | lnk_dlerror_fn => 0x1050
  | lnk_dl_iterate_phdr_fn => 0x1060
  | tlsdesc_static_resolver_fn => 0x1070
  | g_tls_block => 0x100000
  | g_main_thread => 0x104000
  | g_shared_globals => 0x105000
  end.

#[export] Instance toy_platform : Platform := {|
  kstate := toy_kernel;
  k_openat := toy_openat;
  k_close := λ _ k, k;
  k_lseek := toy_lseek;
  k_read := toy_read;
  k_mmap := toy_mmap;
  k_mprotect := toy_mprotect;
  k_gettid := λ _, 42;
  run_resolver := λ a _ _ m, Some (a + 1, m);
  own_address := toy_address
|}.

(** A state with an image and registered objects. *)
Definition toy_state (m : memory) (os : list Object) : lstate :=
  {| l_mem := m; l_ks := {| tk_files := []; tk_pos := ∅; tk_next := 0x200000 |};
     l_objs := os; l_hwcap := 0; l_auxv := 0; l_trace := [] |}.
