(* ===== verification/LnkSymbols.v ===== *)
(** * Symbol lookup

    linker64/src/linker.c:293-512: the GNU hash of a name, the lookup through
    an object's hash table, the linear scan of a symbol table without one, the
    search over the loaded objects in load order behind the linker's own
    entry points, and the [dl*] functions built on it. *)

From S2P Require Import Prelude Machine Elf CString LnkBase LnkToy.

(** ** The GNU hash *)

(** linker64/src/linker.c:297-303 (gnu_hash) *)
Fixpoint gnu_hash_go (h : Z) (name : list Z) : option Z :=
  match name with
  | [] => None
  | c :: name =>
      if c =? 0 then Some h else gnu_hash_go (u32 (u32 (u32 (Z.shiftl h 5) + h) + c)) name
  end.
Definition gnu_hash (name : list Z) : option Z := gnu_hash_go 5381 name.

(** The value the hash is meant to have: the base-33 polynomial over the
    bytes of the name, from 5381, reduced once. *)
Definition gnu_hash_spec (s : list Z) : Z := u32 (foldl (λ h c, h * 33 + c) 5381 s).

(** ** Lookup in one object *)

(** linker64/src/linker.c:328-333 (lookup_gnu_hash) One test of the chain: a
    symbol whose hash and name agree. *)
Definition chain_hit (m : memory) (o : Object) (name : list Z) (hash chain_val i : Z) : option bool :=
  if Z.shiftr (Z.lxor chain_val hash) 1 =? 0 then
    n ← st_name m (symtab o + sizeof_Sym * i);
    if n <? strsz o then r ← lnk_strcmp_mem m (strtab o + n) name; Some (r =? 0)
    else Some false
  else Some false.

(** linker64/src/linker.c:325-336 (lookup_gnu_hash) The loop, [limit] steps
    at most; the result is the address of the symbol. *)
Fixpoint chain_walk (limit : nat) (m : memory) (o : Object) (name : list Z)
    (hash chains symoffset i : Z) : option (option Z) :=
  match limit with
  | O => Some None
  | S limit =>
      chain_val ← load32 m (chains + 4 * u32 (i - symoffset));
      hit ← chain_hit m o name hash chain_val i;
      if (hit : bool) then Some (Some (symtab o + sizeof_Sym * i))
      else if Z.odd chain_val then Some None
      else chain_walk limit m o name hash chains symoffset (u32 (i + 1))
  end.

Definition chain_limit : nat := Z.to_nat 10000.

(** The four words of the table header and the arrays that follow it. *)
Record gnu_table := {
  gt_nbuckets : Z; gt_symoffset : Z; gt_bloom_size : Z; gt_bloom_shift : Z;
  gt_bloom : Z; gt_buckets : Z; gt_chains : Z
}.

(** linker64/src/linker.c:309-316 (lookup_gnu_hash) *)
Definition load_gnu_table (m : memory) (a : Z) : option gnu_table :=
  nbuckets ← load32 m a;
  symoffset ← load32 m (a + 4);
  bloom_size ← load32 m (a + 8);
  bloom_shift ← load32 m (a + 12);
  Some {| gt_nbuckets := nbuckets; gt_symoffset := symoffset;
          gt_bloom_size := bloom_size; gt_bloom_shift := bloom_shift;
          gt_bloom := a + 16; gt_buckets := a + 16 + 8 * bloom_size;
          gt_chains := a + 16 + 8 * bloom_size + 4 * nbuckets |}.

(** linker64/src/linker.c:319-319 (lookup_gnu_hash) *)
Definition bloom_mask (hash shift : Z) : Z :=
  Z.lor (Z.shiftl 1 (hash mod 64)) (Z.shiftl 1 (Z.shiftr hash shift mod 64)).

(** linker64/src/linker.c:305-337 (lookup_gnu_hash) A division by a zero
    table size and a shift of 32 or more have no defined behaviour. *)
Definition lookup_gnu_hash (m : memory) (o : Object) (name : list Z) : option (option Z) :=
  if (gnu_hash_tab o =? 0) || (symtab o =? 0) || (strtab o =? 0) then Some None else
  hash ← gnu_hash name;
  t ← load_gnu_table m (gnu_hash_tab o);
  if gt_bloom_size t =? 0 then None else
  word ← load64 m (gt_bloom t + 8 * ((hash / 64) mod gt_bloom_size t));
  if 32 <=? gt_bloom_shift t then None else
  let mask := bloom_mask hash (gt_bloom_shift t) in
  if negb (Z.land word mask =? mask) then Some None else
  if gt_nbuckets t =? 0 then None else
  bucket ← load32 m (gt_buckets t + 4 * (hash mod gt_nbuckets t));
  if bucket <? gt_symoffset t then Some None else
  chain_walk chain_limit m o name hash (gt_chains t) (gt_symoffset t) bucket.

(** linker64/src/linker.c:496-508 (lookup_symbol) The scan of a symbol table
    without a hash table: [n] entries from index [j]. *)
Fixpoint scan_symtab (n : nat) (m : memory) (o : Object) (name : list Z) (j : Z) :
    option (option Z) :=
  match n with
  | O => Some None
  | S n =>
      let sym := symtab o + sizeof_Sym * j in
      shndx ← st_shndx m sym;
      if shndx =? SHN_UNDEF then scan_symtab n m o name (j + 1) else
      st ← st_name m sym;
      if strsz o <=? st then Some None else
      r ← lnk_strcmp_mem m (strtab o + st) name;
      if r =? 0 then Some (Some sym) else scan_symtab n m o name (j + 1)
  end.

Definition scan_count : nat := Z.to_nat 4095.

(** linker64/src/linker.c:484-508 (lookup_symbol) The symbol an object
    defines under a name. *)
Definition find_in_object (m : memory) (o : Object) (name : list Z) : option (option Z) :=
  if negb (gnu_hash_tab o =? 0) then lookup_gnu_hash m o name
  else if (symtab o =? 0) || (strtab o =? 0) then Some None
  else scan_symtab scan_count m o name 1.

(** ** Lookup over the loaded objects *)

(** linker64/src/linker.c:461-481 (lookup_symbol) *)
Definition builtin_symbols : list (string * own_symbol) :=
  [("__libc_init", lnk_libc_init_fn);
   ("__loader_shared_globals", loader_shared_globals_fn);
   ("dlopen", lnk_dlopen_fn);
   ("dlsym", lnk_dlsym_fn);
   ("dlclose", lnk_dlclose_fn);
   ("dlerror", lnk_dlerror_fn);
   ("dl_iterate_phdr", lnk_dl_iterate_phdr_fn)]%string.

(** linker64/src/linker.c:461-481 (lookup_symbol) The comparisons, in order. *)
Fixpoint find_builtin (l : list (string * own_symbol)) (name : list Z) : option (option own_symbol) :=
  match l with
  | [] => Some None
  | (n, f) :: l =>
      r ← lnk_strcmp name (lit n);
      if r =? 0 then Some (Some f) else find_builtin l name
  end.

Section Lookup.
Context `{Platform}.

(** linker64/src/linker.c:487-492 (lookup_symbol) The value of a symbol: its
    run-time address, or what its resolver returns. *)
Definition symbol_value (o : Object) (sym : Z) : L Z :=
  v ← rd (λ m, st_value m sym);
  info ← rd (λ m, st_info m sym);
  let sym_val := u64 (v + load_base o) in
  if ELF64_ST_TYPE info =? STT_GNU_IFUNC
  then s ← get; call_resolver sym_val (l_hwcap s) (l_auxv s)
  else mret sym_val.

(** linker64/src/linker.c:482-511 (lookup_symbol) *)
Fixpoint lookup_objects (os : list Object) (name : list Z) : L Z :=
  match os with
  | [] => mret 0
  | o :: os =>
      r ← rd (λ m, find_in_object m o name);
      match r with
      | Some sym => symbol_value o sym
      | None => lookup_objects os name
      end
  end.

(** linker64/src/linker.c:460-512 (lookup_symbol) *)
Definition lookup_symbol (name : list Z) : L Z :=
  b ← lift (find_builtin builtin_symbols name);
  match b with
  | Some f => mret (own_address f)
  | None => s ← get; lookup_objects (l_objs s) name
  end.

(** A handle of [dlopen]: null, [(void * )-1], or an element of [g_objects]. *)
Inductive handle := Hnull | Hdefault | Hobject (i : nat).
#[export] Instance handle_eq_dec : EqDecision handle.
Proof. solve_decision. Defined.

(** linker64/src/linker.c:383-419 (lnk_dlsym) *)
Definition lnk_dlsym (h : handle) (symbol : list Z) : L Z :=
  puts "[linker64] lnk_dlsym: " ≫= λ _, lnk_puts symbol ≫= λ _,
  puts (String (Ascii.ascii_of_nat 10) "") ≫= λ _,
  match h with
  | Hnull | Hdefault => lookup_symbol symbol
  | Hobject i =>
      s ← get; o ← lift (l_objs s !! i);
      r ← rd (λ m, find_in_object m o symbol);
      match r with
      | Some sym => symbol_value o sym
      | None => lookup_symbol symbol
      end
  end.

(** linker64/src/linker.c:421-424 (lnk_dlclose) *)
Definition lnk_dlclose (h : handle) : L Z :=
  puts ("[linker64] lnk_dlclose" +:+ String (Ascii.ascii_of_nat 10) "") ≫= λ _, mret 0.
(** linker64/src/linker.c:426-428 (lnk_dlerror) *)
Definition lnk_dlerror : L Z := mret 0.

End Lookup.

(** The two bounds are used through their values only. *)
Lemma chain_limit_eq : Z.of_nat chain_limit = 10000.
Proof. unfold chain_limit. lia. Qed.
Lemma scan_count_eq : Z.of_nat scan_count = 4095.
Proof. unfold scan_count. lia. Qed.
#[global] Opaque chain_limit scan_count.

(** ** The hash function *)

Lemma gnu_hash_go_spec h name s :
  cstr_of name = Some s →
  gnu_hash_go (u32 h) name = Some (u32 (foldl (λ h c, h * 33 + c) h s)).
Proof.
  revert h s. induction name as [|c name IH]; intros h s Hs; [done|].
  apply cstr_of_cons in Hs as [[-> ->]|(Hc & s' & Hs & ->)]; [done|]. cbn [gnu_hash_go foldl].
  destruct (Z.eqb_spec c 0); [done|]. rewrite <- (IH _ _ Hs). f_equal.
  rewrite Z.shiftl_mul_pow2 by lia. change (2 ^ 5) with 32.
  autorewrite with word_rw. words. zdm.
Qed.

Lemma gnu_hash_correct name s : cstr_of name = Some s → gnu_hash name = Some (gnu_hash_spec s).
Proof. apply (gnu_hash_go_spec 5381). Qed.

(** ** Names in an image *)

Lemma lnk_strcmp_mem_0 m a b s :
  cstr_of b = Some s →
  lnk_strcmp_mem m a b = Some 0 ↔ load_bytes m a (length s + 1) = Some (s ++ [0]).
Proof.
  revert a s. induction b as [|y b IH]; intros a s Hs; [done|].
  apply cstr_of_cons in Hs as [[-> ->]|(Hy & s' & Hs & ->)]; cbn [lnk_strcmp_mem].
  - simpl. destruct (load8 m a) as [x|]; simpl; [|done].
    destruct (Z.eqb_spec x 0) as [->|Hx]; simpl; [done|].
    split; [intros [= ?]; lia | intros [= ?]; lia].
  - change (load_bytes m a (length (y :: s') + 1)) with (load_bytes m a (S (length s' + 1))).
    cbn [load_bytes]. destruct (load8 m a) as [x|]; [|done]. cbn [mbind option_bind].
    destruct (Z.eqb_spec x 0) as [Hx|Hx], (Z.eqb_spec x y) as [<-|Hxy]; simpl; try lia.
    + split; [intros [= ?]; lia|]. intros Hb. apply bind_Some in Hb as (? & _ & [=]). lia.
    + rewrite (IH _ _ Hs). split; intros Hb; [by rewrite Hb|].
      apply bind_Some in Hb as (bs & -> & [= ->]). done.
    + split; [intros [= ?]; lia|]. intros Hb. apply bind_Some in Hb as (? & _ & [=]). lia.
Qed.

(** Symbol [k] of an object is named [s]. *)
Definition names_symbol (m : memory) (o : Object) (k : Z) (s : list Z) : Prop :=
  ∃ n, st_name m (symtab o + sizeof_Sym * k) = Some n ∧ n < strsz o ∧
       load_bytes m (strtab o + n) (length s + 1) = Some (s ++ [0]).

Lemma chain_hit_true m o name s h c i :
  cstr_of name = Some s →
  chain_hit m o name h c i = Some true ↔
  Z.shiftr (Z.lxor c h) 1 = 0 ∧ names_symbol m o i s.
Proof.
  intros Hs. unfold chain_hit, names_symbol.
  destruct (Z.eqb_spec (Z.shiftr (Z.lxor c h) 1) 0) as [E|E].
  2: { split; [done|]. by intros [? _]. }
  destruct (st_name m _) as [n|]; simpl.
  2: { split; [done|]. by intros (_ & ? & ? & _). }
  destruct (Z.ltb_spec n (strsz o)) as [Hn|Hn].
  - rewrite bind_Some. split.
    + intros (r & Hr & [= Er%Z.eqb_eq]). subst r. split; [done|].
      exists n. split; [done|]. split; [done|]. by apply (lnk_strcmp_mem_0 _ _ _ _ Hs).
    + intros (_ & n' & [= <-] & _ & Hl). exists 0. split; [|done].
      by apply (lnk_strcmp_mem_0 _ _ _ _ Hs).
  - split; [done|]. intros (_ & n' & [= <-] & Hlt & _). lia.
Qed.

Lemma chain_walk_sound limit m o name s h chains off i sym :
  cstr_of name = Some s →
  chain_walk limit m o name h chains off i = Some (Some sym) →
  ∃ k, sym = symtab o + sizeof_Sym * k ∧ names_symbol m o k s.
Proof.
  intros Hs. revert i. induction limit as [|limit IH]; intros i H; [done|].
  cbn [chain_walk] in H. apply bind_Some in H as (c & Hc & H).
  apply bind_Some in H as ([] & Hh & H).
  - injection H as <-. apply (chain_hit_true _ _ _ _ _ _ _ Hs) in Hh as [_ ?]. eauto.
  - destruct (Z.odd c); [done|]. eauto.
Qed.

(** The walk from the head of a bucket reaches the first entry that hits,
    when no entry before it ends the chain. *)
Lemma chain_walk_reaches limit m o name h chains off b k :
  in_u32 k → 0 <= off <= b → b <= k → k - b < Z.of_nat limit →
  (∀ i, b <= i < k → ∃ c, load32 m (chains + 4 * (i - off)) = Some c ∧
     Z.odd c = false ∧ chain_hit m o name h c i = Some false) →
  (∃ c, load32 m (chains + 4 * (k - off)) = Some c ∧ chain_hit m o name h c k = Some true) →
  chain_walk limit m o name h chains off b = Some (Some (symtab o + sizeof_Sym * k)).
Proof.
  intros Hk. revert b. induction limit as [|limit IH]; intros b Hb Hbk Hlim Hpre Hlast; [lia|].
  cbn [chain_walk]. unfold in_u32 in Hk. rewrite (u32_small (b - off)) by (words; lia).
  destruct (Z.eq_dec b k) as [->|Hne].
  - destruct Hlast as (c & -> & Hh). cbn [mbind option_bind]. by rewrite Hh.
  - destruct (Hpre b) as (c & -> & Ho & Hh); [lia|]. cbn [mbind option_bind].
    rewrite Hh. cbn [mbind option_bind]. rewrite Ho, (u32_small (b + 1)) by (words; lia).
    apply IH; try lia; [|done]. intros i Hi. apply Hpre. lia.
Qed.

(** Entry [k] of an object is filed under the hash [h] of [name]: the tables
    are usable, the Bloom word has both bits, and the bucket's chain leads to
    [k] within the step limit, past entries of other names. *)
Record filed (m : memory) (o : Object) (name : list Z) (h k : Z) : Prop := {
  fl_hash : gnu_hash name = Some h;
  fl_tabs : gnu_hash_tab o ≠ 0 ∧ symtab o ≠ 0 ∧ strtab o ≠ 0;
  fl_entry : ∃ t w b,
    load_gnu_table m (gnu_hash_tab o) = Some t ∧
    gt_bloom_size t ≠ 0 ∧ gt_nbuckets t ≠ 0 ∧ gt_bloom_shift t < 32 ∧ 0 <= gt_symoffset t ∧
    load64 m (gt_bloom t + 8 * ((h / 64) mod gt_bloom_size t)) = Some w ∧
    Z.land w (bloom_mask h (gt_bloom_shift t)) = bloom_mask h (gt_bloom_shift t) ∧
    load32 m (gt_buckets t + 4 * (h mod gt_nbuckets t)) = Some b ∧
    gt_symoffset t <= b <= k ∧ k - b < 10000 ∧ in_u32 k ∧
    (∀ i, b <= i < k → ∃ c, load32 m (gt_chains t + 4 * (i - gt_symoffset t)) = Some c ∧
       Z.odd c = false ∧ chain_hit m o name h c i = Some false) ∧
    (∃ c, load32 m (gt_chains t + 4 * (k - gt_symoffset t)) = Some c ∧
       Z.shiftr (Z.lxor c h) 1 = 0)
}.


(** What the hash lookup returns is a symbol of the object with exactly
    the name that was asked for. *)
Theorem lookup_gnu_hash_sound m o name s sym :
  cstr_of name = Some s → lookup_gnu_hash m o name = Some (Some sym) →
  ∃ k, sym = symtab o + sizeof_Sym * k ∧ names_symbol m o k s.
Proof.
  intros Hs H. unfold lookup_gnu_hash in H. destruct (_ || _); [done|].
  apply bind_Some in H as (h & _ & H). apply bind_Some in H as (t & _ & H).
  destruct (gt_bloom_size t =? 0); [done|]. apply bind_Some in H as (w & _ & H).
  destruct (32 <=? _); [done|]. cbv zeta in H. destruct (negb _); [done|].
  destruct (gt_nbuckets t =? 0); [done|]. apply bind_Some in H as (b & _ & H).
  destruct (b <? _); [done|]. by eapply chain_walk_sound.
Qed.

(** ** Lookup over the objects *)

Lemma cs_nonzero n : forallb (λ c, negb (c =? 0)) (cs n) = true → Forall (λ c, c ≠ 0) (cs n).
Proof.
  intros H. apply Forall_forall. intros c Hc. rewrite forallb_forall in H.
  specialize (H c (proj1 (list_elem_of_In _ _) Hc)). lia.
Qed.

Lemma find_builtin_Some l name s f :
  cstr_of name = Some s → Forall (λ p, forallb (λ c, negb (c =? 0)) (cs p.1) = true) l →
  find_builtin l name = Some f ↔
  match f with
  | Some f => ∃ i n, l !! i = Some (n, f) ∧ cs n = s ∧
                     ∀ j p, (j < i)%nat → l !! j = Some p → cs p.1 ≠ s
  | None => ∀ p, p ∈ l → cs p.1 ≠ s
  end.
Proof.
  intros Hs. revert f. induction l as [|[n g] l IH]; intros f Hl.
  { simpl. destruct f as [f|]; split; try done.
    - by intros (i & n & Hi & _).
    - set_solver. }
  inversion Hl as [|? ? Hn Hl']; subst. cbn [find_builtin].
  assert (cstr_of (lit n) = Some (cs n)) as Hlit by (apply cstr_of_app, cs_nonzero, Hn).
  destruct (lnk_strcmp_total _ _ _ _ Hs Hlit) as [r Hr]. rewrite Hr. obind.
  pose proof (lnk_strcmp_eq_iff _ _ _ _ Hs Hlit) as Heq. rewrite Hr in Heq.
  destruct (Z.eqb_spec r 0) as [->|Hr0].
  - assert (s = cs n) as -> by (by apply Heq).
    destruct f as [f|].
    + split.
      * intros [= <-]. exists 0%nat, n. split_and!; try done. lia.
      * intros (i & n' & Hi & Hn' & Hpre). destruct i as [|i]; [by injection Hi as -> ->|].
        by destruct (Hpre 0%nat (n, g) ltac:(lia) eq_refl).
    + split; [done|]. intros H. exfalso. apply (H (n, g)); [apply list_elem_of_here|done].
  - assert (cs n ≠ s) as Hne by (intros <-; apply Hr0; injection (proj2 Heq eq_refl); done).
    rewrite (IH f Hl'). destruct f as [f|].
    + split.
      * intros (i & n' & Hi & Hn' & Hpre). exists (S i), n'. split_and!; try done.
        intros [|j] p Hj Hp; [by injection Hp as <-|]. apply (Hpre j); [lia|done].
      * intros (i & n' & Hi & Hn' & Hpre). destruct i as [|i].
        { injection Hi as <- <-. done. }
        exists i, n'. split_and!; try done. intros j p Hj Hp. apply (Hpre (S j)); [lia|done].
    + split; intros H p Hp.
      * apply elem_of_cons in Hp as [->|Hp]; [done|]. by apply H.
      * apply H. by apply list_elem_of_further.
Qed.

Lemma builtin_names_nonzero :
  Forall (λ p, forallb (λ c, negb (c =? 0)) (cs p.1) = true) builtin_symbols.
Proof. repeat constructor. Qed.

Section LookupProofs.
Context `{Platform}.

Lemma rd_Some {A} (f : memory → option A) (s : lstate) a :
  f (l_mem s) = Some a → rd f s = Done a s.
Proof. intros Hf. unfold rd, lift, get, mbind, M_bind. by rewrite Hf. Qed.

Lemma lookup_objects_skip pre os name s :
  Forall (λ o, find_in_object (l_mem s) o name = Some None) pre →
  lookup_objects (pre ++ os) name s = lookup_objects os name s.
Proof.
  induction 1 as [|o pre Ho _ IH]; [done|]. simpl.
  rewrite (bind_step _ _ _ _ _ (rd_Some _ _ _ Ho)). done.
Qed.

Lemma symbol_value_data o sym (s : lstate) v info :
  st_value (l_mem s) sym = Some v → st_info (l_mem s) sym = Some info →
  ELF64_ST_TYPE info ≠ STT_GNU_IFUNC →
  symbol_value o sym s = Done (u64 (v + load_base o)) s.
Proof.
  intros Hv Hi Ht. unfold symbol_value.
  rewrite (bind_step _ _ _ _ _ (rd_Some _ _ _ Hv)).
  rewrite (bind_step _ _ _ _ _ (rd_Some _ _ _ Hi)).
  by rewrite (proj2 (Z.eqb_neq _ _) Ht).
Qed.

(** Search order of [lookup_symbol]: the linker's own entry points shadow
    every object; otherwise the first object in load order that defines the
    name gives the address, and a name nobody defines gives 0.  The state is
    unchanged. *)
Theorem lookup_symbol_order name s (st : lstate) :
  cstr_of name = Some s →
  (∀ n f, (n, f) ∈ builtin_symbols → cs n = s →
     lookup_symbol name st = Done (own_address f) st) ∧
  ((∀ p, p ∈ builtin_symbols → cs p.1 ≠ s) →
     (∀ pre o post sym v info,
        l_objs st = pre ++ o :: post →
        Forall (λ p, find_in_object (l_mem st) p name = Some None) pre →
        find_in_object (l_mem st) o name = Some (Some sym) →
        st_value (l_mem st) sym = Some v → st_info (l_mem st) sym = Some info →
        ELF64_ST_TYPE info ≠ STT_GNU_IFUNC →
        lookup_symbol name st = Done (u64 (v + load_base o)) st) ∧
     (Forall (λ p, find_in_object (l_mem st) p name = Some None) (l_objs st) →
        lookup_symbol name st = Done 0 st)).
Proof.
  intros Hs. pose proof builtin_names_nonzero as Hnz. unfold lookup_symbol. split.
  - intros n f Hin Hn.
    assert (find_builtin builtin_symbols name = Some (Some f)) as ->; [|done].
    apply (find_builtin_Some _ _ _ (Some f) Hs Hnz).
    apply list_elem_of_lookup in Hin as [i Hi]. exists i, n. split_and!; [done..|].
    intros j p Hj Hp Heq. subst s. clear - Hi Hj Hp Heq.
    do 7 (destruct i as [|i]; [injection Hi as <- <-;
      do 7 (destruct j as [|j]; [injection Hp as <-; first [lia | discriminate Heq]|]); lia|]).
    by destruct i.
  - intros Hno.
    assert (find_builtin builtin_symbols name = Some None) as ->
      by (by apply (find_builtin_Some _ _ _ None Hs Hnz)).
    split.
    + intros pre o post sym v info Hobjs Hpre Ho Hv Hi Ht.
      change (lookup_objects (l_objs st) name st = Done (u64 (v + load_base o)) st).
      rewrite Hobjs.
      rewrite lookup_objects_skip by done. cbn [lookup_objects].
      rewrite (bind_step _ _ _ _ _ (rd_Some _ _ _ Ho)). by apply symbol_value_data with info.
    + intros Hall. change (lookup_objects (l_objs st) name st = Done 0 st).
      rewrite <- (app_nil_r (l_objs st)).
      by rewrite lookup_objects_skip by done.
Qed.
End LookupProofs.

(** Run the read at the head of the goal, whose result the hypothesis gives. *)
Ltac rd_step Hread :=
  match type of Hread with _ = Some ?v =>
  match goal with |- context [(rd ?f ≫= ?k) ?s] =>
    let Hrd := fresh in
    assert (rd f s = Done v s) as Hrd by (apply (rd_Some f); exact Hread);
    rewrite (bind_step _ _ _ _ _ Hrd); clear Hrd
  end end.

(** ** Concrete images *)

Definition demo_sym (name info shndx value : Z) : list Z :=
  le_split 4 name ++ [info; 0] ++ le_split 2 shndx ++ le_split 8 value ++ le_split 8 0.

(** Two functions, "bar" and "foo", behind a one-bucket hash table. *)
Definition demo_hash (s : string) : Z := gnu_hash_spec (cs s).
Definition demo_mem : memory :=
  image 0x1000 1 (le_split 4 1 ++ le_split 4 1 ++ le_split 4 1 ++ le_split 4 5 ++
                  le_split 8 18446744073709551615 ++ le_split 4 1 ++
                  le_split 4 (2 * (demo_hash "bar" / 2)) ++ le_split 4 (2 * (demo_hash "foo" / 2) + 1))
  ∪ image 0x2000 1 (demo_sym 0 0 0 0 ++ demo_sym 1 2 7 0x10 ++ demo_sym 5 2 7 0x24)
  ∪ image 0x3000 1 ([0] ++ lit "bar" ++ lit "foo").
Definition demo_obj : Object := {|
  load_base := 0x4000; strtab := 0x3000; strsz := 9; symtab := 0x2000; rela := 0;
  rela_count := 0; jmprel := 0; jmprel_count := 0; relr := 0; relr_count := 0;
  android_rela := 0; android_rela_size := 0; gnu_hash_tab := 0x1000; needed_off := [];
  path := replicate 256 0; soname := replicate 128 0; tls_offset := 0; tls_vaddr := 0;
  tls_filesz := 0; tls_memsz := 0 |}.

Lemma demo_filed : filed demo_mem demo_obj (lit "foo") (demo_hash "foo") 2.
Proof.
  constructor; [reflexivity|done|].
  eexists _, _, _. split; [vm_compute; reflexivity|]. do 4 (split; [done|]).
  split; [vm_compute; reflexivity|]. split; [vm_compute; reflexivity|].
  split; [vm_compute; reflexivity|]. split; [done|]. split; [done|]. split; [done|]. split.
  - intros i Hi. assert (i = 1) as -> by (cbn in Hi; lia).
    eexists. split; [vm_compute; reflexivity|]. split; vm_compute; reflexivity.
  - eexists. split; vm_compute; reflexivity.
Qed.

Lemma demo_names : names_symbol demo_mem demo_obj 2 (cs "foo").
Proof. exists 5. split_and!; [vm_compute; reflexivity | done | vm_compute; reflexivity]. Qed.


Lemma lookup_gnu_hash_sound_witness :
  ∃ k, 0x2030 = 0x2000 + 24 * k ∧ names_symbol demo_mem demo_obj k (cs "foo").
Proof.
  apply (lookup_gnu_hash_sound demo_mem demo_obj (lit "foo")); vm_compute; reflexivity.
Defined.

Lemma lookup_symbol_order_witness :
  lookup_symbol (lit "foo") (toy_state demo_mem [object_zero; demo_obj]) =
  Done 0x4024 (toy_state demo_mem [object_zero; demo_obj]).
Proof.
  refine (proj1 (proj2 (lookup_symbol_order (lit "foo") (cs "foo")
    (toy_state demo_mem [object_zero; demo_obj]) eq_refl) _)
    [object_zero] demo_obj [] 0x2030 0x24 2 eq_refl _ _ _ _ _).
  - intros p Hp. repeat (apply elem_of_cons in Hp as [->|Hp]; [vm_compute; discriminate|]).
    by apply elem_of_nil in Hp.
  - repeat constructor.
  - vm_compute. reflexivity.
  - vm_compute. reflexivity.
  - vm_compute. reflexivity.
  - vm_compute. discriminate.
Defined.
