(* ===== verification/LnkDynamic.v ===== *)
(** * The dynamic section

    linker64/src/linker.c:157-184: [parse_dynamic] walks the table of an
    image and records what the later phases use. *)

From S2P Require Import Prelude Machine Elf CString LnkBase LnkToy.

(** linker64/src/linker.c:161-181 (parse_dynamic) The switch: how an entry of
    a known tag updates the object and the pending string table address, by
    its value; no result for a tag the switch ignores. *)
Definition dyn_switch (o : Object) (strtab_va tag : Z) : option (Z → Object * Z) :=
  let va v := u64 (v + load_base o) in
  if tag =? DT_STRTAB then Some (λ v, (o, va v))
  else if tag =? DT_STRSZ then Some (λ v, (with_strsz o v, strtab_va))
  else if tag =? DT_SYMTAB then Some (λ v, (with_symtab o (va v), strtab_va))
  else if tag =? DT_RELA then Some (λ v, (with_rela o (va v), strtab_va))
  else if tag =? DT_RELASZ then Some (λ v, (with_rela_count o (v / sizeof_Rela), strtab_va))
  else if tag =? DT_JMPREL then Some (λ v, (with_jmprel o (va v), strtab_va))
  else if tag =? DT_PLTRELSZ then Some (λ v, (with_jmprel_count o (v / sizeof_Rela), strtab_va))
  else if (tag =? 36) || (tag =? DT_RELR) then Some (λ v, (with_relr o (va v), strtab_va))
  else if (tag =? 35) || (tag =? DT_RELRSZ) then Some (λ v, (with_relr_count o (v / 8), strtab_va))
  else if tag =? DT_ANDROID_RELA then Some (λ v, (with_android_rela o (va v), strtab_va))
  else if tag =? DT_ANDROID_RELASZ then Some (λ v, (with_android_rela_size o v, strtab_va))
  else if tag =? DT_GNU_HASH then Some (λ v, (with_gnu_hash o (va v), strtab_va))
  else if tag =? DT_NEEDED then
    Some (λ v, (if bool_decide (needed_count o < MAX_NEEDED)%nat
                then with_needed o (needed_off o ++ [u32 v]) else o, strtab_va))
  else None.

(** linker64/src/linker.c:160-182 (parse_dynamic) The loop over the table. *)
Fixpoint parse_dynamic_go (fuel : nat) (m : memory) (dyn : Z) (o : Object) (strtab_va : Z) :
    option (Object * Z) :=
  match fuel with
  | O => None
  | S fuel =>
      tag ← d_tag m dyn;
      if tag =? DT_NULL then Some (o, strtab_va) else
      match dyn_switch o strtab_va tag with
      | Some f =>
          v ← d_val m dyn;
          let '(o', st) := f v in parse_dynamic_go fuel m (dyn + sizeof_Dyn) o' st
      | None => parse_dynamic_go fuel m (dyn + sizeof_Dyn) o strtab_va
      end
  end.

(** linker64/src/linker.c:157-184 (parse_dynamic) *)
Definition parse_dynamic (m : memory) (o : Object) (dyn_va : Z) : option Object :=
  '(o, strtab_va) ← parse_dynamic_go (S (size m)) m dyn_va o 0;
  Some (if strtab_va =? 0 then o else with_strtab o strtab_va).

(** ** What it records *)

(** The image has, at [a], the table of the entries [es] and its end mark. *)
Definition dyn_table (m : memory) (a : Z) (es : list (Z * Z)) : Prop :=
  (∀ i e, es !! i = Some e →
     e.1 ≠ DT_NULL ∧ d_tag m (a + sizeof_Dyn * Z.of_nat i) = Some e.1 ∧
     d_val m (a + sizeof_Dyn * Z.of_nat i) = Some e.2) ∧
  d_tag m (a + sizeof_Dyn * Z.of_nat (length es)) = Some DT_NULL.

(** The value of the last entry whose tag is one of [tags]. *)
Definition last_val (tags : list Z) (es : list (Z * Z)) : option Z :=
  last (snd <$> filter (λ e, e.1 ∈ tags) es).

Definition dyn_step (st : Object * Z) (e : Z * Z) : Object * Z :=
  match dyn_switch st.1 st.2 e.1 with Some f => f e.2 | None => st end.

Lemma dyn_table_cons m a e es :
  dyn_table m a (e :: es) →
  e.1 ≠ DT_NULL ∧ d_tag m a = Some e.1 ∧ d_val m a = Some e.2 ∧
  dyn_table m (a + sizeof_Dyn) es.
Proof.
  intros [H Hend]. destruct (H 0%nat e eq_refl) as (He & Ht & Hv).
  rewrite Z.mul_0_r, Z.add_0_r in Ht, Hv. split_and!; try done. split.
  - intros i e' He'. destruct (H (S i) e' He') as (? & ? & ?).
    unfold sizeof_Dyn in *. by replace (a + 16 + 16 * Z.of_nat i) with (a + 16 * Z.of_nat (S i)) by lia.
  - unfold sizeof_Dyn in *. simpl length in Hend.
    by replace (a + 16 + 16 * Z.of_nat (length es)) with (a + 16 * Z.of_nat (S (length es))) by lia.
Qed.

Lemma parse_dynamic_go_fold fuel m a es o st :
  dyn_table m a es → (length es < fuel)%nat →
  parse_dynamic_go fuel m a o st = Some (foldl dyn_step (o, st) es).
Proof.
  revert a o st fuel. induction es as [|e es IH]; intros a o st fuel Ht Hf;
    (destruct fuel as [|fuel]; [lia|]); cbn [parse_dynamic_go].
  - destruct Ht as [_ Hend]. rewrite Z.mul_0_r, Z.add_0_r in Hend. by rewrite Hend.
  - apply dyn_table_cons in Ht as (He & -> & Hv & Ht). obind. simpl length in Hf.
    destruct (Z.eqb_spec e.1 DT_NULL); [done|]. cbn [foldl].
    unfold dyn_step at 2. cbn [fst snd].
    destruct (dyn_switch o st e.1) as [f|].
    + rewrite Hv. obind. destruct (f e.2) as [o' st']. apply IH; [done|lia].
    + apply IH; [done|lia].
Qed.

(** The walk needs no more steps than the image has bytes. *)
Lemma dyn_table_size m a es : dyn_table m a es → (length es < S (size m))%nat.
Proof.
  intros [H Hend]. assert (length es + 1 <= size m)%nat; [|lia].
  apply (size_seq_keys m a sizeof_Dyn); [done|]. intros k Hk.
  assert (is_Some (d_tag m (a + sizeof_Dyn * Z.of_nat k))) as Hs.
  { destruct (decide (k < length es)%nat) as [Hlt|Hge].
    - destruct (lookup_lt_is_Some_2 es k Hlt) as [e He].
      destruct (H k e He) as (_ & -> & _). eauto.
    - assert (k = length es) as -> by lia. rewrite Hend. eauto. }
  unfold d_tag, load64 in Hs. apply load_readable in Hs.
  destruct (Hs (a + sizeof_Dyn * Z.of_nat k)) as (c & Hc & _); [range|eauto].
Qed.

(** A field that an entry either sets or keeps ends with its last setting. *)
Lemma fold_last {A} (f : Object * Z → A) (p : Z * Z → Prop) `{!∀ e, Decision (p e)}
    (g : Z → A) st es :
  (∀ st e, load_base (dyn_step st e).1 = load_base st.1) →
  (∀ st' e, load_base st'.1 = load_base st.1 →
     f (dyn_step st' e) = if decide (p e) then g e.2 else f st') →
  f (foldl dyn_step st es) = default (f st) (last (g ∘ snd <$> filter p es)).
Proof.
  intros Hb Hf.
  assert (∀ st', load_base st'.1 = load_base st.1 →
    f (foldl dyn_step st' es) = default (f st') (last (g ∘ snd <$> filter p es))) as Hgen; [|by apply Hgen].
  induction es as [|e es IH]; intros st' Hst'; [done|]. cbn [foldl].
  rewrite IH by (by rewrite Hb). rewrite filter_cons, (Hf st' e Hst').
  destruct (decide (p e)); [|done]. cbn [fmap list_fmap]. rewrite last_cons.
  by destruct (last (g ∘ snd <$> filter p es)).
Qed.

Lemma dyn_step_base st e : load_base (dyn_step st e).1 = load_base st.1.
Proof.
  unfold dyn_step, dyn_switch. destruct st as [o st]. cbn [fst snd].
  repeat (case_match; simplify_eq; try done).
Qed.

Lemma last_fmap_snd {A} (g : Z → A) (l : list (Z * Z)) :
  last (g ∘ snd <$> l) = g <$> last (snd <$> l).
Proof. by rewrite list_fmap_compose, fmap_last. Qed.

Ltac dyn_tags := unfold DT_STRTAB, DT_STRSZ, DT_SYMTAB, DT_RELA, DT_RELASZ, DT_JMPREL,
  DT_PLTRELSZ, DT_RELR, DT_RELRSZ, DT_ANDROID_RELA, DT_ANDROID_RELASZ, DT_GNU_HASH,
  DT_NEEDED in *.

(** The value of the field [f], which the entries with a tag in [tags] set to
    [g] of their value. *)
Ltac dyn_field f tags g :=
  rewrite (fold_last f (λ e, e.1 ∈ tags) g);
  [ by rewrite last_fmap_snd, ?option_fmap_id
  | apply dyn_step_base
  | let st' := fresh "st" in let t := fresh "t" in let Hb := fresh "Hb" in
    let Hd := fresh "Hd" in
    intros st' [t ?] Hb; destruct st' as [? ?]; cbn [fst snd] in *;
    unfold dyn_step, dyn_switch; cbn [fst snd]; dyn_tags;
    case_decide as Hd; rewrite !elem_of_cons, elem_of_nil in Hd;
    repeat (case_match; try (exfalso; lia); try done); simplify_eq; cbn; rewrite ?Hb;
    try done; try (by case_bool_decide) ].

Lemma dyn_fold_base o st es : load_base (foldl dyn_step (o, st) es).1 = load_base o.
Proof.
  change (load_base o) with (load_base (o, st).1). generalize (o, st). clear o st.
  induction es as [|e es IH]; intros st; [done|]. cbn [foldl]. by rewrite IH, dyn_step_base.
Qed.

(** The names and the string table pointer are not touched by the loop. *)
Lemma dyn_fold_names o st es :
  let r := (foldl dyn_step (o, st) es).1 in
  strtab r = strtab o ∧ soname r = soname o ∧ path r = path o.
Proof.
  cbv zeta. change o with (o, st).1 at 2 4 6. generalize (o, st). clear o st.
  induction es as [|e es IH]; intros st; [done|]. cbn [foldl].
  destruct (IH (dyn_step st e)) as (-> & -> & ->).
  unfold dyn_step, dyn_switch. destruct st as [o st]. cbn [fst snd].
  repeat (case_match; simplify_eq; try done).
Qed.

Lemma dyn_step_needed o st e :
  (length (needed_off o) <= MAX_NEEDED)%nat →
  needed_off (dyn_step (o, st) e).1 =
  if decide (e.1 = DT_NEEDED) then take MAX_NEEDED (needed_off o ++ [u32 e.2]) else needed_off o.
Proof.
  intros Hlen. unfold dyn_step, dyn_switch. cbn [fst snd]. dyn_tags.
  case_decide as Hd; repeat (case_match; try (exfalso; lia); try done); simplify_eq; try done; cbn.
  all: match goal with
  | H : bool_decide _ = true |- _ => apply bool_decide_eq_true in H
  | H : bool_decide _ = false |- _ => apply bool_decide_eq_false in H
  end; unfold needed_count, MAX_NEEDED in *.
  - rewrite take_ge; [done|]. rewrite length_app. cbn [length]. lia.
  - rewrite take_app_le, take_ge by lia. done.
Qed.

Lemma dyn_fold_needed o st es :
  (length (needed_off o) <= MAX_NEEDED)%nat →
  needed_off (foldl dyn_step (o, st) es).1 =
  take MAX_NEEDED (needed_off o ++ (u32 ∘ snd <$> filter (λ e, e.1 = DT_NEEDED) es)).
Proof.
  revert o st. induction es as [|e es IH]; intros o st Hlen.
  { simpl. by rewrite app_nil_r, take_ge by lia. }
  cbn [foldl]. pose proof (dyn_step_needed o st e Hlen) as Hn.
  destruct (dyn_step (o, st) e) as [o' st']. cbn [fst] in Hn. rewrite filter_cons.
  rewrite IH; rewrite Hn; case_decide; try done.
  - rewrite take_take_app, <- app_assoc. done.
  - rewrite length_take. lia.
Qed.

(** The object after the walk: every recorded field comes from the last
    entry of its tag (tables of the image are rebased, byte sizes become
    counts, both encodings of the packed relative table are accepted), the
    needed list gains the [DT_NEEDED] offsets in order up to 256 of them, and
    the walk ends at the mark for every well-formed table. *)
Theorem parse_dynamic_fields m o a es :
  dyn_table m a es → (length (needed_off o) <= MAX_NEEDED)%nat →
  let va v := u64 (v + load_base o) in
  ∃ o', parse_dynamic m o a = Some o' ∧
    load_base o' = load_base o ∧
    strtab o' = (let s := default 0 (va <$> last_val [DT_STRTAB] es) in
                 if s =? 0 then strtab o else s) ∧
    strsz o' = default (strsz o) (last_val [DT_STRSZ] es) ∧
    symtab o' = default (symtab o) (va <$> last_val [DT_SYMTAB] es) ∧
    rela o' = default (rela o) (va <$> last_val [DT_RELA] es) ∧
    rela_count o' = default (rela_count o) ((λ v, v / 24) <$> last_val [DT_RELASZ] es) ∧
    jmprel o' = default (jmprel o) (va <$> last_val [DT_JMPREL] es) ∧
    jmprel_count o' = default (jmprel_count o) ((λ v, v / 24) <$> last_val [DT_PLTRELSZ] es) ∧
    relr o' = default (relr o) (va <$> last_val [36; DT_RELR] es) ∧
    relr_count o' = default (relr_count o) ((λ v, v / 8) <$> last_val [35; DT_RELRSZ] es) ∧
    android_rela o' = default (android_rela o) (va <$> last_val [DT_ANDROID_RELA] es) ∧
    android_rela_size o' =
      default (android_rela_size o) (last_val [DT_ANDROID_RELASZ] es) ∧
    gnu_hash_tab o' = default (gnu_hash_tab o) (va <$> last_val [DT_GNU_HASH] es) ∧
    needed_off o' = take MAX_NEEDED
      (needed_off o ++ (u32 ∘ snd <$> filter (λ e, e.1 = DT_NEEDED) es)) ∧
    soname o' = soname o ∧ path o' = path o.
Proof.
  intros Ht Hlen va. unfold parse_dynamic.
  rewrite (parse_dynamic_go_fold _ _ _ es) by (done || by eapply dyn_table_size).
  obind. destruct (foldl dyn_step (o, 0) es) as [o' st] eqn:Er.
  eexists. split; [reflexivity|].
  assert (o' = (foldl dyn_step (o, 0) es).1) as -> by by rewrite Er.
  assert (st = (foldl dyn_step (o, 0) es).2) as -> by by rewrite Er. clear Er.
  pose proof (dyn_fold_base o 0 es) as Hbase.
  set (r := foldl dyn_step (o, 0) es) in *.
  assert (∀ A (f : Object → A), (∀ v, f (with_strtab r.1 v) = f r.1) →
    f (if r.2 =? 0 then r.1 else with_strtab r.1 r.2) = f r.1) as Hif.
  { intros A f Hf. case_match; [done|apply Hf]. }
  rewrite (Hif _ load_base), (Hif _ strsz), (Hif _ symtab), (Hif _ rela), (Hif _ rela_count),
    (Hif _ jmprel), (Hif _ jmprel_count), (Hif _ relr), (Hif _ relr_count),
    (Hif _ android_rela), (Hif _ android_rela_size), (Hif _ gnu_hash_tab),
    (Hif _ needed_off), (Hif _ soname), (Hif _ path) by done. clear Hif.
  split; [done|]. split.
  { assert (r.2 = default 0 (va <$> last_val [DT_STRTAB] es)) as <-
      by (unfold r; dyn_field (λ s : Object * Z, s.2) [DT_STRTAB] va).
    assert (strtab r.1 = strtab o) as <- by apply dyn_fold_names. by case_match. }
  split_and!; unfold r.
  - dyn_field (λ s : Object * Z, strsz s.1) [DT_STRSZ] (@id Z).
  - dyn_field (λ s : Object * Z, symtab s.1) [DT_SYMTAB] va.
  - dyn_field (λ s : Object * Z, rela s.1) [DT_RELA] va.
  - dyn_field (λ s : Object * Z, rela_count s.1) [DT_RELASZ] (λ v, v / 24).
  - dyn_field (λ s : Object * Z, jmprel s.1) [DT_JMPREL] va.
  - dyn_field (λ s : Object * Z, jmprel_count s.1) [DT_PLTRELSZ] (λ v, v / 24).
  - dyn_field (λ s : Object * Z, relr s.1) [36; DT_RELR] va.
  - dyn_field (λ s : Object * Z, relr_count s.1) [35; DT_RELRSZ] (λ v, v / 8).
  - dyn_field (λ s : Object * Z, android_rela s.1) [DT_ANDROID_RELA] va.
  - dyn_field (λ s : Object * Z, android_rela_size s.1) [DT_ANDROID_RELASZ] (@id Z).
  - dyn_field (λ s : Object * Z, gnu_hash_tab s.1) [DT_GNU_HASH] va.
  - by apply dyn_fold_needed.
  - apply dyn_fold_names.
  - apply dyn_fold_names.
Qed.

(** ** A concrete table *)

Definition demo_entries : list (Z * Z) :=
  [(DT_STRTAB, 0x300); (DT_NEEDED, 1); (DT_NEEDED, 5); (36, 0x100); (DT_RELRSZ, 16)].
Definition demo_dyn : memory :=
  image 0x1000 1 (concat ((λ e, le_split 8 e.1 ++ le_split 8 e.2) <$> demo_entries) ++ le_split 8 0).

Lemma demo_dyn_table : dyn_table demo_dyn 0x1000 demo_entries.
Proof.
  split; [|vm_compute; reflexivity]. intros i e He.
  do 5 (destruct i as [|i]; [injection He as <-; split_and!; vm_compute; (reflexivity || discriminate)|]).
  by destruct i.
Qed.

Lemma parse_dynamic_fields_witness :
  ∃ o', parse_dynamic demo_dyn (with_base object_zero 0x5000) 0x1000 = Some o' ∧
    strtab o' = 0x5300 ∧ relr_count o' = 2 ∧ needed_off o' = [1; 5].
Proof.
  destruct (parse_dynamic_fields demo_dyn (with_base object_zero 0x5000) 0x1000 demo_entries
    demo_dyn_table ltac:(cbn; lia))
    as (o' & Ho & _ & Hst & _ & _ & _ & _ & _ & _ & _ & Hrc & _ & _ & _ & Hn & _).
  exists o'. split; [exact Ho|]. rewrite Hst, Hrc, Hn. vm_compute. auto.
Defined.
