(* ===== verification/LnkReloc.v ===== *)
(** * Relocation

    linker64/src/linker.c:514-769: the relocations of one object in their
    four encodings (RELA tables, the packed relative RELR table, and
    Android's APS2 byte stream), and their order. *)

From S2P Require Import Prelude Machine Elf CString LnkBase LnkToy LnkSymbols.

Section Reloc.
Context `{Platform}.

(** linker64/src/linker.c:566-579 (apply_rela) The search for the definition
    of a thread-local name: a linear scan of every object that has a symbol
    table.  A definition at offset 0 does not end the search. *)
Fixpoint tls_search (m : memory) (os : list Object) (name : list Z) : option Z :=
  match os with
  | [] => Some 0
  | t :: os =>
      if (symtab t =? 0) || (strtab t =? 0) then tls_search m os name else
      r ← scan_symtab scan_count m t name 1;
      match r with
      | Some sym =>
          v ← st_value m sym;
          let sym_val := u64 (tls_offset t + v) in
          if sym_val =? 0 then tls_search m os name else Some sym_val
      | None => tls_search m os name
      end
  end.

(** linker64/src/linker.c:559-583 (apply_rela) The thread-pointer offset a
    TLS relocation refers to; the TLSDESC case, lines 588-612, computes the
    same. *)
Definition tls_sym_val (o : Object) (sym_idx : Z) : L Z :=
  if negb (sym_idx =? 0) && negb (symtab o =? 0) && negb (strtab o =? 0) then
    let sym := symtab o + sizeof_Sym * sym_idx in
    shndx ← rd (λ m, st_shndx m sym);
    if negb (shndx =? SHN_UNDEF) then
      v ← rd (λ m, st_value m sym); mret (u64 (tls_offset o + v))
    else
      n ← rd (λ m, st_name m sym);
      name ← rd (λ m, mem_cstr m (strtab o + n));
      s ← get; lift (tls_search (l_mem s) (l_objs s) name)
  else mret (tls_offset o).

(** linker64/src/linker.c:531-557 (apply_rela) An absolute address. *)
Definition apply_abs (o : Object) (sym_idx slot addend : Z) : L () :=
  if negb (sym_idx =? 0) && negb (symtab o =? 0) && negb (strtab o =? 0) then
    let sym := symtab o + sizeof_Sym * sym_idx in
    shndx ← rd (λ m, st_shndx m sym);
    if negb (shndx =? SHN_UNDEF) then
      sym_val ← symbol_value o sym;
      wr (λ m, store64 m slot (u64 (sym_val + addend)))
    else
      n ← rd (λ m, st_name m sym);
      name ← rd (λ m, mem_cstr m (strtab o + n));
      sym_val ← lookup_symbol name;
      if sym_val =? 0 then mret ()
      else wr (λ m, store64 m slot (u64 (sym_val + addend)))
  else wr (λ m, store64 m slot (u64 addend)).

(** linker64/src/linker.c:521-624 (apply_rela) The body of the loop. *)
Definition apply_rela_one (o : Object) (hwcap auxv : Z) (r : Elf64_Rela) : L () :=
  let sym_idx := ELF64_R_SYM (r_info r) in
  let rel_type := ELF64_R_TYPE (r_info r) in
  let slot := u64 (r_offset r + load_base o) in
  let addend := r_addend r in
  if rel_type =? R_AARCH64_RELATIVE then
    wr (λ m, store64 m slot (u64 (load_base o + addend)))
  else if (rel_type =? R_AARCH64_GLOB_DAT) || (rel_type =? R_AARCH64_JUMP_SLOT)
          || (rel_type =? R_AARCH64_ABS64) then apply_abs o sym_idx slot addend
  else if rel_type =? R_AARCH64_TLS_TPREL64 then
    v ← tls_sym_val o sym_idx; wr (λ m, store64 m slot (u64 (v + addend)))
  else if rel_type =? R_AARCH64_TLSDESC then
    v ← tls_sym_val o sym_idx;
    wr (λ m, store64 m slot (own_address tlsdesc_static_resolver_fn)) ≫= λ _,
    wr (λ m, store64 m (slot + 8) (u64 (v + addend)))
  else if rel_type =? R_AARCH64_IRELATIVE then
    v ← call_resolver (u64 (load_base o + addend)) hwcap auxv;
    wr (λ m, store64 m slot v)
  else mret ().

(** linker64/src/linker.c:520-625 (apply_rela) [n] entries of the table. *)
Fixpoint apply_rela_go (n : nat) (o : Object) (tab hwcap auxv : Z) : L () :=
  match n with
  | O => mret ()
  | S n =>
      r ← rd (λ m, load_rela m tab);
      apply_rela_one o hwcap auxv r ≫= λ _,
      apply_rela_go n o (tab + sizeof_Rela) hwcap auxv
  end.
Definition apply_rela (o : Object) (tab count hwcap auxv : Z) : L () :=
  apply_rela_go (Z.to_nat count) o tab hwcap auxv.

(** ** Packed relative relocations *)

(** linker64/src/linker.c:650-650 (apply_relr) [*slot += base] *)
Definition add_base (slot base : Z) : L () :=
  v ← rd (λ m, load64 m slot); wr (λ m, store64 m slot (u64 (v + base))).

(** linker64/src/linker.c:655-662 (apply_relr) The loop over the bits of a
    bitmap entry; 63 steps empty the shifted bitmap. *)
Fixpoint relr_bitmap (fuel : nat) (bitmap s base : Z) : L () :=
  if bitmap =? 0 then mret () else
  match fuel with
  | O => out_of_fuel
  | S fuel =>
      (if Z.odd bitmap then add_base s base else mret ()) ≫= λ _,
      relr_bitmap fuel (Z.shiftr bitmap 1) (s + 8) base
  end.

(** linker64/src/linker.c:643-666 (apply_relr) The loop over the entries,
    [uint64_t] words. *)
Fixpoint relr_go (n : nat) (tab slot base : Z) : L () :=
  match n with
  | O => mret ()
  | S n =>
      entry ← rd (λ m, load64 m tab);
      if Z.even entry then
        let slot := u64 (entry + base) in
        add_base slot base ≫= λ _, relr_go n (tab + 8) (slot + 8) base
      else
        relr_bitmap 63 (Z.shiftr (u64 entry) 1) slot base ≫= λ _,
        relr_go n (tab + 8) (slot + 8 * 63) base
  end.

(** linker64/src/linker.c:637-667 (apply_relr) *)
Definition apply_relr (o : Object) : L () :=
  if (relr o =? 0) || (relr_count o =? 0) then mret ()
  else relr_go (Z.to_nat (relr_count o)) (relr o) 0 (load_base o).

(** ** Android packed relocations *)

(** linker64/src/linker.c:669-672 (RELOCATION_GROUPED_BY_INFO_FLAG) *)
Definition RELOCATION_GROUPED_BY_INFO_FLAG : Z := 1.
Definition RELOCATION_GROUPED_BY_OFFSET_DELTA_FLAG : Z := 2.
Definition RELOCATION_GROUPED_BY_ADDEND_FLAG : Z := 4.
Definition RELOCATION_GROUP_HAS_ADDEND_FLAG : Z := 8.

(** linker64/src/linker.c:688-700 (sleb128_decoder_pop_front) The loop; a
    shift of 64 or more has no defined behaviour.  The result is the value
    so far, the shift and the sign bit of the last byte, and the position
    after it. *)
Fixpoint sleb128_go (fuel : nat) (cur end_ value shift : Z) : L (Z * Z) :=
  match fuel with
  | O => out_of_fuel
  | S fuel =>
      if end_ <=? cur then FATAL "sleb128_decoder ran out of bounds" else
      byte ← rd (λ m, load8 m cur);
      if 64 <=? shift then fault else
      let value := Z.lor value (u64 (Z.shiftl (Z.land byte 127) shift)) in
      let shift := shift + 7 in
      if negb (Z.land byte 128 =? 0) then sleb128_go fuel (cur + 1) end_ value shift
      else
        let value :=
          if (shift <? 64) && negb (Z.land byte 64 =? 0)
          then Z.lor value (u64 (- Z.shiftl 1 shift)) else value in
        mret (value, cur + 1)
  end.

(** linker64/src/linker.c:674-701 (sleb128_decoder_pop_front) The decoder is
    the current position and the end. *)
Definition sleb128_decoder_pop_front (cur end_ : Z) : L (Z * Z) :=
  sleb128_go (S (Z.to_nat (end_ - cur))) cur end_ 0 0.

(** A pop that may be absent leaves the position and gives the default. *)
Definition pop_if (b : bool) (cur end_ dflt : Z) : L (Z * Z) :=
  if b then sleb128_decoder_pop_front cur end_ else mret (dflt, cur).

Definition has_flag (flags f : Z) : bool := negb (Z.land flags f =? 0).

(** The addition of a decoded delta to a signed addend; a signed overflow has
    no defined behaviour. *)
Definition addend_add (addend delta : Z) : option Z :=
  let r := addend + s64 delta in
  if (-9223372036854775808 <=? r) && (r <=? 9223372036854775807) then Some r else None.

(** linker64/src/linker.c:738-756 (apply_android_rela) The members of a
    group: the running offset, info and addend, and the position. *)
Fixpoint aps2_members (n : nat) (o : Object) (hwcap auxv : Z) (flags delta : Z)
    (cur end_ offset info addend : Z) : L (Z * Z * Z * Z) :=
  match n with
  | O => mret (cur, offset, info, addend)
  | S n =>
      '(d, cur) ← pop_if (negb (has_flag flags RELOCATION_GROUPED_BY_OFFSET_DELTA_FLAG))
                    cur end_ delta;
      let offset := u64 (offset + d) in
      '(info, cur) ← pop_if (negb (has_flag flags RELOCATION_GROUPED_BY_INFO_FLAG)) cur end_ info;
      let each := Z.land flags (RELOCATION_GROUP_HAS_ADDEND_FLAG + RELOCATION_GROUPED_BY_ADDEND_FLAG)
                  =? RELOCATION_GROUP_HAS_ADDEND_FLAG in
      '(d, cur) ← pop_if each cur end_ 0;
      addend ← lift (if each then addend_add addend d else Some addend);
      apply_rela_one o hwcap auxv {| r_offset := offset; r_info := info; r_addend := addend |} ≫= λ _,
      aps2_members n o hwcap auxv flags delta cur end_ offset info addend
  end.

(** linker64/src/linker.c:717-759 (apply_android_rela) The loop over the
    groups.  Every group takes at least two bytes, so more fuel than there
    are bytes left is enough: see [apply_android_rela_has_fuel]. *)
Fixpoint aps2_groups (fuel : nat) (o : Object) (hwcap auxv : Z) (idx num : Z)
    (cur end_ offset info addend : Z) : L () :=
  if num <=? idx then mret () else
  match fuel with
  | O => out_of_fuel
  | S fuel =>
      '(group_size, cur) ← sleb128_decoder_pop_front cur end_;
      '(flags, cur) ← sleb128_decoder_pop_front cur end_;
      '(delta, cur) ← pop_if (has_flag flags RELOCATION_GROUPED_BY_OFFSET_DELTA_FLAG) cur end_ 0;
      '(info, cur) ← pop_if (has_flag flags RELOCATION_GROUPED_BY_INFO_FLAG) cur end_ info;
      let freloc := Z.land flags
        (RELOCATION_GROUP_HAS_ADDEND_FLAG + RELOCATION_GROUPED_BY_ADDEND_FLAG) in
      '(addend, cur) ←
        (if freloc =? RELOCATION_GROUP_HAS_ADDEND_FLAG then mret (addend, cur)
         else if freloc =? RELOCATION_GROUP_HAS_ADDEND_FLAG + RELOCATION_GROUPED_BY_ADDEND_FLAG then
           '(d, cur) ← sleb128_decoder_pop_front cur end_;
           addend ← lift (addend_add addend d); mret (addend, cur)
         else mret (0, cur));
      '(cur, offset, info, addend) ←
        aps2_members (Z.to_nat group_size) o hwcap auxv flags delta cur end_ offset info addend;
      aps2_groups fuel o hwcap auxv (u64 (idx + group_size)) num cur end_ offset info addend
  end.

(** linker64/src/linker.c:703-760 (apply_android_rela) *)
Definition apply_android_rela (o : Object) (packed size hwcap auxv : Z) : L () :=
  if size <? 4 then mret () else
  sig ← rd (λ m, load_bytes m packed 4);
  if negb (bool_decide (sig = cs "APS2")) then
    FATAL "invalid Android packed relocations signature" else
  let end_ := packed + size in
  '(num_relocs, cur) ← sleb128_decoder_pop_front (packed + 4) end_;
  '(offset, cur) ← sleb128_decoder_pop_front cur end_;
  aps2_groups (S (Z.to_nat size)) o hwcap auxv 0 num_relocs cur end_ offset 0 0.

(** ** The relocations of an object *)

(** linker64/src/linker.c:762-769 (relocate_object) *)
Definition relocate_object (o : Object) (hwcap auxv : Z) : L () :=
  apply_relr o ≫= λ _,
  (if negb (android_rela o =? 0) && negb (android_rela_size o =? 0)
   then apply_android_rela o (android_rela o) (android_rela_size o) hwcap auxv
   else mret ()) ≫= λ _,
  (if negb (rela o =? 0) && negb (rela_count o =? 0)
   then apply_rela o (rela o) (rela_count o) hwcap auxv else mret ()) ≫= λ _,
  (if negb (jmprel o =? 0) && negb (jmprel_count o =? 0)
   then apply_rela o (jmprel o) (jmprel_count o) hwcap auxv else mret ()).
End Reloc.
