(* ===== verification/Aps2.v ===== *)
(** * Packed relocations of Android

    What the APS2 format means: numbers in signed LEB128, groups of relocations
    that share fields; and that the decoder of the linker applies just the
    relocations of the stream. *)

From S2P Require Import Prelude Machine Elf CString LnkBase LnkToy LnkSymbols LnkReloc.

(** A complete encoding: every byte but the last has its high bit. *)
Fixpoint sleb_wf (bs : list Z) : bool :=
  match bs with
  | [] => false
  | [b] => (0 <=? b) && (b <? 128)
  | b :: bs => (128 <=? b) && (b <? 256) && sleb_wf bs
  end.

(** The number an encoding denotes. *)
Fixpoint sleb_value (bs : list Z) : Z :=
  match bs with
  | [] => 0
  | [b] => if b <? 64 then b else b - 128
  | b :: bs => (b - 128) + 128 * sleb_value bs
  end.

(** The shortest encoding, with [n] continuation bytes at most. *)
Fixpoint sleb_encode (n : nat) (v : Z) : list Z :=
  let b := v mod 128 in
  match n with
  | O => [b]
  | S n =>
      if ((v / 128 =? 0) && (b <? 64)) || ((v / 128 =? -1) && (64 <=? b)) then [b]
      else (b + 128) :: sleb_encode n (v / 128)
  end.
Definition sleb (v : Z) : list Z := sleb_encode 9 v.

Lemma sleb_wf_cons b bs : bs ≠ [] →
  sleb_wf (b :: bs) = (128 <=? b) && (b <? 256) && sleb_wf bs.
Proof. by destruct bs. Qed.
Lemma sleb_value_cons b bs : bs ≠ [] → sleb_value (b :: bs) = (b - 128) + 128 * sleb_value bs.
Proof. by destruct bs. Qed.
Lemma sleb_wf_nonempty bs : sleb_wf bs = true → bs ≠ [].
Proof. by destruct bs. Qed.

Lemma sleb_encode_nonempty n v : sleb_encode n v ≠ [].
Proof. destruct n; simpl; [done|]. by case_match. Qed.

Lemma sleb_encode_wf n v : sleb_wf (sleb_encode n v) = true.
Proof.
  revert v. induction n as [|n IH]; intros v; cbn [sleb_encode].
  { cbn [sleb_wf]. assert (0 <= v mod 128 < 128) by (apply Z.mod_pos_bound; lia). lia. }
  assert (0 <= v mod 128 < 128) by (apply Z.mod_pos_bound; lia).
  case_match; [cbn [sleb_wf]; lia|].
  rewrite sleb_wf_cons by apply sleb_encode_nonempty. rewrite IH. lia.
Qed.

Lemma sleb_encode_length n v : (length (sleb_encode n v) <= S n)%nat.
Proof.
  revert v. induction n as [|n IH]; intros v; cbn [sleb_encode]; [done|].
  case_match; cbn [length]; [lia|]. specialize (IH (v / 128)). lia.
Qed.

Lemma sleb_value_encode n v :
  - 64 * 128 ^ Z.of_nat n <= v < 64 * 128 ^ Z.of_nat n → sleb_value (sleb_encode n v) = v.
Proof.
  revert v. induction n as [|n IH]; intros v Hv; cbn [sleb_encode].
  { simpl in Hv. simpl. destruct (Z.ltb_spec (v mod 128) 64); zdm. }
  destruct (_ || _) eqn:E.
  - simpl. destruct (Z.ltb_spec (v mod 128) 64); zdm.
  - rewrite sleb_value_cons by apply sleb_encode_nonempty.
    rewrite IH; [zdm|]. rewrite Nat2Z.inj_succ, Z.pow_succ_r in Hv by lia.
    set (p := 128 ^ Z.of_nat n) in *. clearbody p. zdm.
Qed.

Lemma sleb_value_sleb v : in_s64 v → sleb_value (sleb v) = v.
Proof.
  intros H. apply sleb_value_encode. change (128 ^ Z.of_nat 9) with 9223372036854775808.
  unfold in_s64 in H. lia.
Qed.

(** ** The accumulator *)

Lemma byte_masks b :
  in_u8 b →
  Z.land b 127 = b mod 128 ∧ (Z.land b 128 =? 0) = (b <? 128) ∧
  (b < 128 → (Z.land b 64 =? 0) = (b <? 64)).
Proof.
  intros Hb.
  pose proof (forall_byte (λ b, (Z.land b 127 =? b mod 128) &&
    Bool.eqb (Z.land b 128 =? 0) (b <? 128) &&
    (negb (b <? 128) || Bool.eqb (Z.land b 64 =? 0) (b <? 64))) ltac:(by vm_compute) b Hb) as H.
  simpl in H. apply andb_prop in H as [[H1 H2]%andb_prop H3].
  apply Z.eqb_eq in H1. apply Bool.eqb_prop in H2. split_and!; try done.
  intros Hlt. apply orb_true_iff in H3 as [H3|H3]; [lia|]. by apply Bool.eqb_prop in H3.
Qed.

(** Adding a group of bits above an accumulator that fits below it. *)
Lemma sleb_accumulate value x shift :
  0 <= shift < 64 → 0 <= value < 2 ^ shift →
  Z.lor value (u64 (Z.shiftl x shift)) = u64 (value + x * 2 ^ shift).
Proof.
  intros Hs Hv. unfold u64. change 18446744073709551616 with (2 ^ 64).
  assert (Z.shiftl x shift mod 2 ^ 64 = Z.shiftl (x mod 2 ^ (64 - shift)) shift) as ->.
  { rewrite !Z.shiftl_mul_pow2 by lia. replace (2 ^ 64) with (2 ^ (64 - shift) * 2 ^ shift)
      by (rewrite <- Z.pow_add_r by lia; f_equal; lia).
    by rewrite Zmult_mod_distr_r. }
  rewrite lor_shiftl_add by lia.
  replace (2 ^ 64) with (2 ^ (64 - shift) * 2 ^ shift)
    by (rewrite <- Z.pow_add_r by lia; f_equal; lia).
  assert (0 < 2 ^ shift) by (apply Z.pow_pos_nonneg; lia).
  assert (0 < 2 ^ (64 - shift)) by (apply Z.pow_pos_nonneg; lia).
  set (q := 2 ^ (64 - shift)) in *. set (r := 2 ^ shift) in *. clearbody q r.
  pose proof (Z.mod_pos_bound x q ltac:(lia)) as Hx.
  apply (Z.mod_unique_pos _ _ (x / q)); [nia|].
  rewrite (Z.div_mod x q) at 1 by lia. ring.
Qed.

(** The sign extension: the bits from [shift] up are set. *)
Lemma sleb_sign value shift :
  0 <= shift < 64 → 0 <= value < 2 ^ shift →
  Z.lor value (u64 (- Z.shiftl 1 shift)) = u64 (value - 2 ^ shift).
Proof.
  intros Hs Hv.
  replace (- Z.shiftl 1 shift) with (Z.shiftl (-1) shift)
    by (rewrite !Z.shiftl_mul_pow2 by lia; lia).
  rewrite sleb_accumulate by done. f_equal; lia.
Qed.

Section Decoder.
Context `{Platform}.

Lemma sleb128_go_spec bs fuel cur end_ value shift (s : lstate) :
  sleb_wf bs = true → load_bytes (l_mem s) cur (length bs) = Some bs →
  cur + Z.of_nat (length bs) <= end_ → (length bs <= fuel)%nat →
  0 <= shift → shift + 7 * (Z.of_nat (length bs) - 1) < 64 → 0 <= value < 2 ^ shift →
  sleb128_go fuel cur end_ value shift s =
  Done (u64 (value + 2 ^ shift * sleb_value bs), cur + Z.of_nat (length bs)) s.
Proof.
  revert fuel cur value shift. induction bs as [|b bs IH];
    intros fuel cur value shift Hwf Hl Hend Hfuel Hs0 Hs Hv; [done|].
  destruct fuel as [|fuel]; [simpl in Hfuel; lia|]. cbn [sleb128_go length] in *.
  cbn [load_bytes] in Hl. apply bind_Some in Hl as (b' & Hb & Hl).
  apply bind_Some in Hl as (bs' & Hbs & [= -> ->]).
  rewrite (proj2 (Z.leb_gt end_ cur)) by lia.
  rewrite (bind_step _ _ _ _ _ (rd_Some _ _ _ Hb)).
  rewrite (proj2 (Z.leb_gt 64 shift)) by lia.
  destruct (decide (bs = [])) as [->|Hne].
  - cbn [sleb_wf] in Hwf. assert (in_u8 b) as Hu by (unfold in_u8; lia).
    destruct (byte_masks b Hu) as (-> & -> & H64). specialize (H64 ltac:(lia)).
    rewrite (proj2 (Z.ltb_lt b 128)) by lia. cbn [negb]. rewrite H64.
    rewrite sleb_accumulate, (Z.mod_small b 128) by lia. cbn [sleb_value length].
    change (Z.of_nat 1) with 1. unfold mret, M_ret. f_equal. f_equal.
    assert (2 ^ (shift + 7) = 128 * 2 ^ shift) as Hp by (rewrite Z.pow_add_r by lia; lia).
    destruct (Z.ltb_spec b 64); cbn [negb].
    { rewrite andb_false_r. f_equal. lia. }
    rewrite andb_true_r. destruct (Z.ltb_spec (shift + 7) 64).
    + assert (2 ^ (shift + 7) <= 2 ^ 64) by (apply Z.pow_le_mono_r; lia).
      assert (u64 (value + b * 2 ^ shift) = value + b * 2 ^ shift) as ->.
      { apply u64_small. unfold in_u64. change 18446744073709551616 with (2 ^ 64). nia. }
      rewrite sleb_sign by nia. f_equal. lia.
    + replace (value + 2 ^ shift * (b - 128))
        with (value + b * 2 ^ shift + (- 2 ^ (shift + 7 - 64)) * 2 ^ 64).
      2: { rewrite Z.mul_opp_l, <- Z.pow_add_r by lia.
           replace (shift + 7 - 64 + 64) with (shift + 7) by lia. lia. }
      unfold u64. change 18446744073709551616 with (2 ^ 64). by rewrite Z.mod_add by lia.
  - rewrite sleb_wf_cons in Hwf by done. apply andb_prop in Hwf as [Hb2 Hwf].
    assert (in_u8 b) as Hu by (unfold in_u8; lia).
    destruct (byte_masks b Hu) as (-> & -> & _).
    rewrite (proj2 (Z.ltb_ge b 128)) by lia. cbn [negb].
    assert (b mod 128 = b - 128) as -> by zdm.
    assert (0 < Z.of_nat (length bs)) by (destruct bs; [done|simpl length; lia]).
    rewrite sleb_accumulate by lia.
    assert (2 ^ (shift + 7) = 128 * 2 ^ shift) as Hp by (rewrite Z.pow_add_r by lia; lia).
    assert (2 ^ (shift + 7) <= 2 ^ 64) by (apply Z.pow_le_mono_r; lia).
    assert (u64 (value + (b - 128) * 2 ^ shift) = value + (b - 128) * 2 ^ shift) as ->.
    { apply u64_small. unfold in_u64. change 18446744073709551616 with (2 ^ 64). nia. }
    rewrite IH; try done; try lia; try nia.
    rewrite sleb_value_cons by done. f_equal. f_equal; [f_equal; rewrite Hp; lia|lia].
Qed.

(** A complete encoding of at most ten bytes is read as the number it
    denotes, reduced to 64 bits. *)
Lemma pop_spec bs cur end_ (s : lstate) :
  sleb_wf bs = true → (length bs <= 10)%nat →
  load_bytes (l_mem s) cur (length bs) = Some bs → cur + Z.of_nat (length bs) <= end_ →
  sleb128_decoder_pop_front cur end_ s =
  Done (u64 (sleb_value bs), cur + Z.of_nat (length bs)) s.
Proof.
  intros Hwf Hlen Hl Hend. unfold sleb128_decoder_pop_front.
  rewrite (sleb128_go_spec bs); try done; try lia.
  by rewrite Z.add_0_l, Z.mul_1_l.
Qed.

Lemma pop_sleb v cur end_ (s : lstate) :
  in_s64 v → load_bytes (l_mem s) cur (length (sleb v)) = Some (sleb v) →
  cur + Z.of_nat (length (sleb v)) <= end_ →
  sleb128_decoder_pop_front cur end_ s = Done (u64 v, cur + Z.of_nat (length (sleb v))) s.
Proof.
  intros Hv Hl Hend. rewrite (pop_spec (sleb v)); try done.
  - by rewrite sleb_value_sleb.
  - apply sleb_encode_wf.
  - apply sleb_encode_length.
Qed.

(** Round trip of the packed-relocation integers: the decoder reads the
    encoding of any 64-bit signed number back as that number and stops right
    after it, whatever follows. *)
Theorem sleb128_roundtrip v cur end_ (s : lstate) :
  in_s64 v → load_bytes (l_mem s) cur (length (sleb v)) = Some (sleb v) →
  cur + Z.of_nat (length (sleb v)) <= end_ →
  ∃ w, sleb128_decoder_pop_front cur end_ s = Done (w, cur + Z.of_nat (length (sleb v))) s ∧
       in_u64 w ∧ s64 w = v.
Proof.
  intros Hv Hl Hend. exists (u64 v). split; [by apply pop_sleb|]. split; [apply u64_range|].
  by rewrite s64_u64, s64_small.
Qed.

(** ** Termination and bounds of a pop *)

Lemma sleb128_go_result fuel cur end_ value shift (s : lstate) :
  (Z.to_nat (end_ - cur) < fuel)%nat →
  match sleb128_go fuel cur end_ value shift s with
  | Done (_, cur') s' => s' = s ∧ cur < cur' <= end_
  | Exited code _ => code = 127
  | Fault => True
  | OutOfFuel => False
  end.
Proof.
  revert cur value shift. induction fuel as [|fuel IH]; intros cur value shift Hf; [lia|].
  cbn [sleb128_go]. destruct (Z.leb_spec end_ cur); [done|].
  unfold mbind at 1, M_bind at 1.
  destruct (rd (λ m, load8 m cur) s) as [b s1| | |] eqn:E; unfold rd, get, lift, mbind, M_bind in E;
    try (destruct (load8 (l_mem s) cur); discriminate); [|done].
  destruct (load8 (l_mem s) cur) as [b0|]; [|done]. injection E as <- <-.
  destruct (64 <=? shift); [done|]. destruct (negb _).
  - specialize (IH (cur + 1) (Z.lor value (u64 (Z.shiftl (Z.land b0 127) shift))) (shift + 7)
      ltac:(lia)).
    destruct (sleb128_go _ _ _ _ _ _) as [[v c] s'|? ?| |]; try done.
    destruct IH as [-> ?]. split; [done|lia].
  - cbn. split; [done|lia].
Qed.

Lemma pop_result cur end_ (s : lstate) :
  match sleb128_decoder_pop_front cur end_ s with
  | Done (_, cur') s' => s' = s ∧ cur < cur' <= end_
  | Exited code _ => code = 127
  | Fault => True
  | OutOfFuel => False
  end.
Proof. apply sleb128_go_result. lia. Qed.
End Decoder.

Definition demo_sleb : list Z := sleb (-123456).

Lemma sleb128_roundtrip_witness :
  ∃ w, sleb128_decoder_pop_front 0x1000 0x1010 (toy_state (image 0x1000 1 (demo_sleb ++ [7])) []) =
       Done (w, 0x1003) (toy_state (image 0x1000 1 (demo_sleb ++ [7])) []) ∧
       in_u64 w ∧ s64 w = -123456.
Proof.
  apply (sleb128_roundtrip (-123456) 0x1000 0x1010 (toy_state (image 0x1000 1 (demo_sleb ++ [7])) []));
    [unfold in_s64; lia | vm_compute; reflexivity | vm_compute; discriminate].
Defined.

(** ** Android packed relocations

    The format of the APS2 stream as the serialization of a list of groups,
    its meaning as a list of relocations, and the proof that
    [apply_android_rela] applies exactly these, in order, for every
    combination of group flags. *)

(** ** The format *)

(** One relocation of a group; a field that the group shares is not encoded. *)
Record member := { am_offset : Z; am_info : Z; am_addend : Z }.
Record group := {
  ag_flags : Z; ag_delta : Z; ag_info : Z; ag_addend : Z; ag_members : list member
}.

Definition shares_offset (f : Z) : bool := has_flag f RELOCATION_GROUPED_BY_OFFSET_DELTA_FLAG.
Definition shares_info (f : Z) : bool := has_flag f RELOCATION_GROUPED_BY_INFO_FLAG.
Definition addend_bits (f : Z) : Z :=
  Z.land f (RELOCATION_GROUP_HAS_ADDEND_FLAG + RELOCATION_GROUPED_BY_ADDEND_FLAG).
(** Each member has an addend delta, or the group has one. *)
Definition each_addend (f : Z) : bool := addend_bits f =? RELOCATION_GROUP_HAS_ADDEND_FLAG.
Definition one_addend (f : Z) : bool :=
  addend_bits f =? RELOCATION_GROUP_HAS_ADDEND_FLAG + RELOCATION_GROUPED_BY_ADDEND_FLAG.

Definition opt (b : bool) (v : Z) : list Z := if b then sleb v else [].

Definition member_bytes (f : Z) (m : member) : list Z :=
  opt (negb (shares_offset f)) (am_offset m) ++ opt (negb (shares_info f)) (am_info m) ++
  opt (each_addend f) (am_addend m).

Definition group_bytes (g : group) : list Z :=
  sleb (Z.of_nat (length (ag_members g))) ++ sleb (ag_flags g) ++
  opt (shares_offset (ag_flags g)) (ag_delta g) ++ opt (shares_info (ag_flags g)) (ag_info g) ++
  opt (one_addend (ag_flags g)) (ag_addend g) ++
  concat (member_bytes (ag_flags g) <$> ag_members g).

Definition total (gs : list group) : nat := sum_list (length ∘ ag_members <$> gs).

Definition stream_bytes (gs : list group) (r0 : Z) : list Z :=
  cs "APS2" ++ sleb (Z.of_nat (total gs)) ++ sleb r0 ++ concat (group_bytes <$> gs).

(** ** Its meaning *)

Definition add_s64 (a d : Z) : option Z :=
  if (-9223372036854775808 <=? a + d) && (a + d <=? 9223372036854775807) then Some (a + d) else None.

(** The relocations of the members, with the running values after them;
    none when an addend overflows. *)
Fixpoint members_relocs (f delta offset info addend : Z) (ms : list member) :
    option (list Elf64_Rela * (Z * Z * Z)) :=
  match ms with
  | [] => Some ([], (offset, info, addend))
  | m :: ms =>
      let offset := u64 (offset + (if shares_offset f then delta else am_offset m)) in
      let info := if shares_info f then info else u64 (am_info m) in
      addend ← (if each_addend f then add_s64 addend (am_addend m) else Some addend);
      '(rs, st) ← members_relocs f delta offset info addend ms;
      Some ({| r_offset := offset; r_info := info; r_addend := addend |} :: rs, st)
  end.

Fixpoint groups_relocs (offset info addend : Z) (gs : list group) : option (list Elf64_Rela) :=
  match gs with
  | [] => Some []
  | g :: gs =>
      let f := ag_flags g in
      let info := if shares_info f then u64 (ag_info g) else info in
      addend ← (if each_addend f then Some addend
                else if one_addend f then add_s64 addend (ag_addend g) else Some 0);
      '(rs, (offset, info, addend)) ← members_relocs f (ag_delta g) offset info addend (ag_members g);
      rs' ← groups_relocs offset info addend gs;
      Some (rs ++ rs')
  end.

Definition stream_relocs (gs : list group) (r0 : Z) : option (list Elf64_Rela) :=
  groups_relocs (u64 r0) 0 0 gs.

(** The numbers of the stream are 64-bit. *)
Definition member_ok (m : member) : Prop :=
  in_s64 (am_offset m) ∧ in_s64 (am_info m) ∧ in_s64 (am_addend m).
Definition group_ok (g : group) : Prop :=
  in_s64 (ag_flags g) ∧ 0 <= ag_flags g ∧ in_s64 (ag_delta g) ∧ in_s64 (ag_info g) ∧
  in_s64 (ag_addend g) ∧ Forall member_ok (ag_members g).

(** ** The decoder reads the format *)

Lemma addend_add_spec a d : in_s64 d → addend_add a (u64 d) = add_s64 a d.
Proof. intros Hd. unfold addend_add, add_s64. by rewrite s64_u64, s64_small. Qed.

Lemma group_bytes_nonempty g : (0 < length (group_bytes g))%nat.
Proof.
  unfold group_bytes. rewrite length_app.
  pose proof (sleb_encode_nonempty 9 (Z.of_nat (length (ag_members g)))) as H.
  unfold sleb. destruct (sleb_encode 9 _); [done|simpl; lia].
Qed.

Lemma groups_bytes_length gs : (length gs <= length (concat (group_bytes <$> gs)))%nat.
Proof.
  induction gs as [|g gs IH]; [done|]. cbn [fmap list_fmap concat].
  rewrite length_app. pose proof (group_bytes_nonempty g). simpl length. simpl in IH. lia.
Qed.

Lemma total_zero_relocs offset info addend gs rs :
  total gs = 0%nat → groups_relocs offset info addend gs = Some rs → rs = [].
Proof.
  revert offset info addend rs. induction gs as [|g gs IH]; intros offset info addend rs Ht H.
  { by injection H as <-. }
  unfold total in Ht. cbn in Ht.
  assert (ag_members g = []) as Hm by (apply nil_length_inv; lia).
  cbn [groups_relocs] in H. rewrite Hm in H. cbn [members_relocs] in H.
  apply bind_Some in H as (a & _ & H). obind.
  apply bind_Some in H as ([rs1 [[o1 i1] a1]] & [= <- <- <- <-] & H).
  apply bind_Some in H as (rs' & Hrs & [= <-]). cbn.
  eapply IH; [|exact Hrs]. unfold total. lia.
Qed.

Section Stream.
Context `{Platform}.
Variables (o : Object) (hwcap auxv packed : Z) (whole : list Z).

(** The bytes of the stream are in the image. *)
Definition stream_at (s : lstate) : Prop :=
  load_bytes (l_mem s) packed (length whole) = Some whole.
(** A relocation does not overwrite the stream it comes from. *)
Definition keeps_stream (r : Elf64_Rela) : Prop :=
  ∀ s s', stream_at s → apply_rela_one o hwcap auxv r s = Done () s' → stream_at s'.

Let pos (pre : list Z) : Z := packed + Z.of_nat (length pre).
Let end_ : Z := packed + Z.of_nat (length whole).

Lemma pos_app pre bs : pos pre + Z.of_nat (length bs) = pos (pre ++ bs).
Proof. unfold pos. rewrite length_app. lia. Qed.

Lemma stream_load s pre bs post :
  stream_at s → whole = pre ++ bs ++ post →
  load_bytes (l_mem s) (pos pre) (length bs) = Some bs.
Proof.
  intros Hs Hw. unfold stream_at in Hs. rewrite Hw in Hs.
  rewrite !length_app, !load_bytes_app in Hs.
  apply bind_Some in Hs as (b1 & H1 & Hs). apply bind_Some in Hs as (b2 & H2 & Hs).
  apply bind_Some in H2 as (b3 & H3 & H2). apply bind_Some in H2 as (b4 & H4 & [= <-]).
  injection Hs as Hs.
  apply app_inj_1 in Hs as [-> Hs]; [|by eapply load_bytes_length].
  apply app_inj_1 in Hs as [-> _]; [done|by eapply load_bytes_length].
Qed.

Lemma stream_pop s pre v post :
  stream_at s → whole = pre ++ sleb v ++ post → in_s64 v →
  sleb128_decoder_pop_front (pos pre) end_ s = Done (u64 v, pos (pre ++ sleb v)) s.
Proof.
  intros Hs Hw Hv. rewrite <- pos_app. apply pop_sleb; [done|by eapply stream_load|].
  rewrite pos_app. unfold pos, end_. rewrite Hw, !length_app. lia.
Qed.

Lemma stream_pop_if s pre b v post dflt :
  stream_at s → whole = pre ++ opt b v ++ post → in_s64 v →
  pop_if b (pos pre) end_ dflt s = Done (if b then u64 v else dflt, pos (pre ++ opt b v)) s.
Proof.
  intros Hs Hw Hv. destruct b; cbn [pop_if opt] in *; [by eapply stream_pop|].
  by rewrite app_nil_r.
Qed.

(** A shared offset delta is read only when the flag says so. *)
Lemma aps2_members_delta n f d cur offset info addend s :
  aps2_members n o hwcap auxv f (if shares_offset f then d else 0) cur end_ offset info addend s =
  aps2_members n o hwcap auxv f d cur end_ offset info addend s.
Proof.
  revert cur offset info addend s. induction n as [|n IH]; intros cur offset info addend s; [done|].
  cbn [aps2_members]. fold (shares_offset f). unfold mbind, M_bind.
  destruct (shares_offset f) eqn:Ef; cbn [negb pop_if]; [done|].
  repeat (case_match; try done); rewrite <- IH; done.
Qed.

Lemma members_spec f delta ms rs offset info addend offset' info' addend' s pre post :
  stream_at s → whole = pre ++ concat (member_bytes f <$> ms) ++ post → Forall member_ok ms →
  members_relocs f delta offset info addend ms = Some (rs, (offset', info', addend')) →
  Forall keeps_stream rs →
  aps2_members (length ms) o hwcap auxv f (u64 delta) (pos pre) end_ offset info addend s =
  (for_each (apply_rela_one o hwcap auxv) rs ≫= λ _,
   mret (pos (pre ++ concat (member_bytes f <$> ms)), offset', info', addend')) s ∧
  (∀ s', for_each (apply_rela_one o hwcap auxv) rs s = Done () s' → stream_at s').
Proof.
  revert rs offset info addend s pre.
  induction ms as [|m ms IH]; intros rs offset info addend s pre Hs Hw Hok Hd Hk.
  { injection Hd as <- <- <- <-. cbn. rewrite app_nil_r. split; [done|]. by intros s' [= <-]. }
  inversion Hok as [|? ? (Ho & Hi & Ha) Hok']; subst.
  cbn [members_relocs] in Hd.
  apply bind_Some in Hd as (ad & Had & Hd). apply bind_Some in Hd as ([rs1 st1] & Hd1 & [= <- ->]).
  inversion Hk as [|? ? Hk1 Hk']; subst.
  cbn [fmap list_fmap concat] in Hw |- *. rewrite <- app_assoc in Hw.
  unfold member_bytes in Hw at 1. rewrite <- !app_assoc in Hw.
  set (b1 := opt (negb (shares_offset f)) (am_offset m)) in *.
  set (b2 := opt (negb (shares_info f)) (am_info m)) in *.
  set (b3 := opt (each_addend f) (am_addend m)) in *.
  cbn [length aps2_members].
  rewrite (bind_step _ _ _ _ _ (stream_pop_if s pre _ _ _ (u64 delta) Hs Hw Ho)).
  assert (whole = (pre ++ b1) ++ b2 ++ b3 ++ concat (member_bytes f <$> ms) ++ post) as Hw2
    by (by rewrite <- app_assoc).
  rewrite (bind_step _ _ _ _ _ (stream_pop_if s (pre ++ b1) _ _ _ info Hs Hw2 Hi)).
  assert (whole = ((pre ++ b1) ++ b2) ++ b3 ++ concat (member_bytes f <$> ms) ++ post) as Hw3
    by (by rewrite <- app_assoc).
  rewrite (bind_step _ _ _ _ _ (stream_pop_if s ((pre ++ b1) ++ b2) _ _ _ 0 Hs Hw3 Ha)).
  assert (lift (if each_addend f then addend_add addend (u64 (am_addend m)) else Some addend) s
          = Done ad s) as Hlift.
  { rewrite addend_add_spec by done. by rewrite Had. }
  fold (addend_bits f) (each_addend f).
  assert ((if each_addend f
           then addend_add addend (if each_addend f then u64 (am_addend m) else 0)
           else Some addend) =
          (if each_addend f then addend_add addend (u64 (am_addend m)) else Some addend)) as ->
    by (by destruct (each_addend f)).
  rewrite (bind_step _ _ _ _ _ Hlift).
  set (off1 := u64 (offset + (if shares_offset f then delta else am_offset m))) in *.
  set (inf1 := if shares_info f then info else u64 (am_info m)) in *.
  assert (u64 (offset + (if negb (shares_offset f) then u64 (am_offset m) else u64 delta)) = off1)
    as -> by (unfold off1; destruct (shares_offset f); cbn [negb]; by rewrite u64_add_r).
  assert ((if negb (shares_info f) then u64 (am_info m) else info) = inf1)
    as -> by (unfold inf1; by destruct (shares_info f)).
  cbn [for_each].
  set (r := {| r_offset := off1; r_info := inf1; r_addend := ad |}) in *.
  unfold mbind, M_bind. destruct (apply_rela_one o hwcap auxv r s) as [[] s1| | |] eqn:E;
    try (split; [done|by intros]).
  pose proof (Hk1 _ _ Hs E) as Hs1.
  assert (whole = (((pre ++ b1) ++ b2) ++ b3) ++ concat (member_bytes f <$> ms) ++ post) as Hw4
    by (by rewrite <- app_assoc).
  destruct (IH _ _ _ _ s1 _ Hs1 Hw4 Hok' Hd1 Hk') as [IHe IHs].
  fold b3. unfold mbind, M_bind in IHe. rewrite IHe. split; [|exact IHs].
  replace (pre ++ member_bytes f m ++ concat (member_bytes f <$> ms))
    with ((((pre ++ b1) ++ b2) ++ b3) ++ concat (member_bytes f <$> ms)); [done|].
  unfold member_bytes. by rewrite <- !app_assoc.
Qed.

(** The pop of the addend a group shares. *)
Definition group_addend (f addend cur : Z) : L (Z * Z) :=
  if each_addend f then mret (addend, cur)
  else if one_addend f then
    '(d, cur) ← sleb128_decoder_pop_front cur end_;
    addend ← lift (addend_add addend d); mret (addend, cur)
  else mret (0, cur).

Lemma group_addend_spec s pre f a addend ad post :
  stream_at s → whole = pre ++ opt (one_addend f) a ++ post → in_s64 a →
  (if each_addend f then Some addend
   else if one_addend f then add_s64 addend a else Some 0) = Some ad →
  group_addend f addend (pos pre) s = Done (ad, pos (pre ++ opt (one_addend f) a)) s.
Proof.
  intros Hs Hw Ha Had. unfold group_addend.
  assert (each_addend f = true → one_addend f = false) as Hex
    by (unfold each_addend, one_addend; intros ->%Z.eqb_eq; done).
  destruct (each_addend f).
  { rewrite (Hex eq_refl). cbn [opt]. rewrite app_nil_r. by injection Had as <-. }
  destruct (one_addend f); cbn [opt] in *.
  - rewrite (bind_step _ _ _ _ _ (stream_pop _ _ _ _ Hs Hw Ha)).
    rewrite (bind_step _ _ s ad s); [done|]. by rewrite addend_add_spec, Had.
  - injection Had as <-. by rewrite app_nil_r.
Qed.

Lemma groups_spec fuel gs rs idx num offset info addend s pre post :
  stream_at s → whole = pre ++ concat (group_bytes <$> gs) ++ post → Forall group_ok gs →
  groups_relocs offset info addend gs = Some rs → Forall keeps_stream rs →
  (length gs <= fuel)%nat → 0 <= idx → idx + Z.of_nat (total gs) = num →
  num < 9223372036854775808 →
  aps2_groups fuel o hwcap auxv idx num (pos pre) end_ offset info addend s =
  for_each (apply_rela_one o hwcap auxv) rs s.
Proof.
  revert fuel rs idx offset info addend s pre.
  induction gs as [|g gs IH]; intros fuel rs idx offset info addend s pre
    Hs Hw Hok Hd Hk Hfuel Hidx Htot Hnum.
  { injection Hd as <-. cbn in Htot. destruct fuel; cbn [aps2_groups];
      by rewrite (proj2 (Z.leb_le num idx)) by lia. }
  destruct (Z.leb_spec num idx) as [Hle|Hlt].
  { assert (total (g :: gs) = 0)%nat as Hz by lia.
    rewrite (total_zero_relocs _ _ _ _ _ Hz Hd).
    destruct fuel; cbn [aps2_groups]; by rewrite (proj2 (Z.leb_le num idx)) by lia. }
  destruct fuel as [|fuel]; [simpl in Hfuel; lia|]. cbn [aps2_groups].
  rewrite (proj2 (Z.leb_gt num idx)) by lia.
  inversion Hok as [|? ? (Hf & Hf0 & Hdl & Hi & Ha & Hms) Hok']; subst.
  assert (total (g :: gs) = length (ag_members g) + total gs)%nat as Ht by done.
  cbn [groups_relocs] in Hd. set (f := ag_flags g) in *. set (ms := ag_members g) in *.
  set (info1 := if shares_info f then u64 (ag_info g) else info) in *.
  apply bind_Some in Hd as (ad & Had & Hd).
  apply bind_Some in Hd as ([rs1 [[off2 info2] ad2]] & Hd1 & Hd).
  apply bind_Some in Hd as (rs2 & Hd2 & [= <-]). apply Forall_app in Hk as [Hk1 Hk2].
  cbn [fmap list_fmap concat] in Hw. unfold group_bytes in Hw at 1.
  fold f ms in Hw. rewrite <- !app_assoc in Hw.
  assert (in_s64 (Z.of_nat (length ms))) as Hlen by (unfold in_s64; lia).
  set (c1 := sleb (Z.of_nat (length ms))) in *. set (c2 := sleb f) in *.
  set (c3 := opt (shares_offset f) (ag_delta g)) in *.
  set (c4 := opt (shares_info f) (ag_info g)) in *.
  set (c5 := opt (one_addend f) (ag_addend g)) in *.
  set (c6 := concat (member_bytes f <$> ms)) in *.
  set (rest := concat (group_bytes <$> gs) ++ post) in *.
  rewrite (bind_step _ _ _ _ _ (stream_pop s pre _ _ Hs Hw Hlen)). fold c1.
  assert (whole = (pre ++ c1) ++ c2 ++ c3 ++ c4 ++ c5 ++ c6 ++ rest) as Hw2
    by (by rewrite Hw, <- !app_assoc).
  rewrite (bind_step _ _ _ _ _ (stream_pop s (pre ++ c1) _ _ Hs Hw2 Hf)). fold c2.
  rewrite (u64_small f) by (unfold in_u64, in_s64 in *; lia).
  rewrite (u64_small (Z.of_nat (length ms))), Nat2Z.id by (unfold in_u64, in_s64 in *; lia).
  assert (whole = ((pre ++ c1) ++ c2) ++ c3 ++ c4 ++ c5 ++ c6 ++ rest) as Hw3
    by (by rewrite Hw, <- !app_assoc).
  rewrite (bind_step _ _ _ _ _ (stream_pop_if s _ (shares_offset f) _ _ 0 Hs Hw3 Hdl)). fold c3.
  assert (whole = (((pre ++ c1) ++ c2) ++ c3) ++ c4 ++ c5 ++ c6 ++ rest) as Hw4
    by (by rewrite Hw, <- !app_assoc).
  rewrite (bind_step _ _ _ _ _ (stream_pop_if s _ (shares_info f) _ _ info Hs Hw4 Hi)). fold c4 info1.
  assert (whole = ((((pre ++ c1) ++ c2) ++ c3) ++ c4) ++ c5 ++ c6 ++ rest) as Hw5
    by (by rewrite Hw, <- !app_assoc).
  fold (addend_bits f) (each_addend f) (one_addend f).
  rewrite (bind_step _ _ _ _ _ (group_addend_spec s _ f _ addend ad _ Hs Hw5 Ha Had)). fold c5.
  set (pre6 := ((((pre ++ c1) ++ c2) ++ c3) ++ c4) ++ c5) in *.
  assert (whole = pre6 ++ c6 ++ rest) as Hw6
    by (unfold pre6; by rewrite Hw, <- !app_assoc).
  assert (aps2_members (length ms) o hwcap auxv f
            (if shares_offset f then u64 (ag_delta g) else 0) (pos pre6) end_ offset info1 ad s =
          aps2_members (length ms) o hwcap auxv f (u64 (ag_delta g)) (pos pre6) end_ offset info1 ad s)
    as Hdelta by apply aps2_members_delta.
  unfold mbind, M_bind. rewrite Hdelta.
  destruct (members_spec f (ag_delta g) ms rs1 offset info1 ad off2 info2 ad2 s pre6 rest
    Hs Hw6 Hms Hd1 Hk1) as [He Hst]. rewrite He. clear He. rewrite for_each_app.
  unfold mbind, M_bind.
  destruct (for_each (apply_rela_one o hwcap auxv) rs1 s) as [[] s1| | |] eqn:E; try done.
  cbn [mret M_ret]. specialize (Hst _ eq_refl).
  rewrite u64_small by (unfold in_u64; lia).
  apply IH; try done; try lia.
  - unfold rest in Hw6. by rewrite <- app_assoc.
  - simpl in Hfuel. lia.
Qed.
End Stream.

(** ** The table is applied *)

Lemma wr_Done `{Platform} f (s s' : lstate) :
  wr f s = Done () s' ↔ ∃ m, f (l_mem s) = Some m ∧ s' = set_mem m s.
Proof.
  unfold wr, get, lift, put, mbind, M_bind. destruct (f (l_mem s)) as [m|]; split; try done.
  - intros [= <-]. eauto.
  - by intros (? & [= <-] & ->).
  - by intros (? & ? & _).
Qed.

(** A RELATIVE relocation of a slot outside the stream keeps it. *)
Lemma relative_keeps_stream `{Platform} o hwcap auxv packed whole r :
  ELF64_R_TYPE (r_info r) = R_AARCH64_RELATIVE →
  disjoint_ranges (u64 (r_offset r + load_base o)) 8 packed (length whole) →
  keeps_stream o hwcap auxv packed whole r.
Proof.
  intros Ht Hd s s' Hs Ha. unfold apply_rela_one in Ha. rewrite Ht in Ha. cbn in Ha.
  apply wr_Done in Ha as (m & Hm & ->). unfold stream_at. cbn.
  rewrite <- Hs. eapply same_but_disjoint; [|exact Hd]. exact (store_same_but 8 _ _ _ _ Hm).
Qed.

(** C36. Android's packed relocations: on the serialization of any list of
    groups, with any mix of shared and per-member fields, the decoder applies
    exactly the relocations the groups denote, in order, and stops. *)
Theorem apply_android_rela_stream `{Platform} o hwcap auxv packed gs r0 rs (s : lstate) :
  let whole := stream_bytes gs r0 in
  load_bytes (l_mem s) packed (length whole) = Some whole →
  Forall group_ok gs → in_s64 r0 → Z.of_nat (total gs) < 9223372036854775808 →
  stream_relocs gs r0 = Some rs → Forall (keeps_stream o hwcap auxv packed whole) rs →
  apply_android_rela o packed (Z.of_nat (length whole)) hwcap auxv s =
  for_each (apply_rela_one o hwcap auxv) rs s.
Proof.
  intros whole Hs Hok Hr0 Htot Hrs Hk.
  assert (whole = cs "APS2" ++ sleb (Z.of_nat (total gs)) ++
    sleb r0 ++ concat (group_bytes <$> gs) ++ []) as Hw by (by rewrite app_nil_r).
  assert (4 <= length whole)%nat as Hlen by (unfold whole, stream_bytes; rewrite length_app; simpl; lia).
  unfold apply_android_rela. rewrite (proj2 (Z.ltb_ge _ 4)) by lia.
  pose proof (stream_load packed whole s [] _ _ Hs Hw) as Hsig. cbn [length] in Hsig.
  rewrite Z.add_0_r in Hsig.
  assert (rd (λ m, load_bytes m packed 4) s = Done (cs "APS2") s) as Hrd
    by (apply rd_Some; exact Hsig).
  rewrite (bind_step _ _ _ _ _ Hrd).
  rewrite bool_decide_eq_true_2 by done. cbn [negb].
  assert (in_s64 (Z.of_nat (total gs))) as Ht by (unfold in_s64; lia).
  pose proof (stream_pop packed whole s (cs "APS2") _ _ Hs Hw Ht) as P1.
  rewrite (bind_step _ _ _ _ _ P1).
  assert (whole = (cs "APS2" ++ sleb (Z.of_nat (total gs))) ++
    sleb r0 ++ concat (group_bytes <$> gs) ++ []) as Hw2 by (by rewrite Hw, <- !app_assoc).
  pose proof (stream_pop packed whole s _ _ _ Hs Hw2 Hr0) as P2.
  rewrite (bind_step _ _ _ _ _ P2).
  rewrite (u64_small (Z.of_nat (total gs))) by (unfold in_u64; lia).
  eapply groups_spec; try done.
  - by rewrite Hw, <- !app_assoc.
  - pose proof (groups_bytes_length gs) as Hg. rewrite Nat2Z.id. unfold whole, stream_bytes.
    rewrite !length_app. lia.
Qed.

(** ** It ends on every input *)

Section Fuel.
Context `{Platform}.

Lemma rd_fuel {A} (f : memory → option A) s : has_fuel (rd f) s.
Proof. unfold has_fuel, rd, get, lift, mbind, M_bind. by destruct (f (l_mem s)). Qed.
Lemma wr_fuel f s : has_fuel (wr f) s.
Proof. unfold has_fuel, wr, get, lift, put, mbind, M_bind. by destruct (f (l_mem s)). Qed.
Lemma lift_fuel {A} (x : option A) (s : lstate) : has_fuel (lift x) s.
Proof. unfold has_fuel, lift. by destruct x. Qed.
Lemma ret_fuel {A} (x : A) (s : lstate) : has_fuel (mret x : L A) s.
Proof. done. Qed.
Lemma resolver_fuel a h x s : has_fuel (call_resolver a h x) s.
Proof.
  unfold has_fuel, call_resolver, get, put, mbind, M_bind.
  by destruct (run_resolver _ _ _ _) as [[]|].
Qed.
Lemma symbol_value_fuel o sym s : has_fuel (symbol_value o sym) s.
Proof.
  unfold symbol_value. apply has_fuel_bind; [apply rd_fuel|intros].
  apply has_fuel_bind; [apply rd_fuel|intros]. case_match; [|done].
  apply has_fuel_bind; [done|intros]. apply resolver_fuel.
Qed.
Lemma lookup_symbol_fuel name s : has_fuel (lookup_symbol name) s.
Proof.
  unfold lookup_symbol. apply has_fuel_bind; [apply lift_fuel|intros [f|] s' _]; [done|].
  apply has_fuel_bind; [done|]. intros a s1 _. generalize (l_objs a). intros os. revert s1.
  induction os as [|ob os IH]; intros s1; [done|]. cbn [lookup_objects].
  apply has_fuel_bind; [apply rd_fuel|]. intros [sym|] s2 _; [apply symbol_value_fuel|apply IH].
Qed.
Lemma tls_sym_val_fuel o i s : has_fuel (tls_sym_val o i) s.
Proof.
  unfold tls_sym_val. case_match; [|done].
  apply has_fuel_bind; [apply rd_fuel|intros]. case_match.
  - apply has_fuel_bind; [apply rd_fuel|done].
  - apply has_fuel_bind; [apply rd_fuel|intros]. apply has_fuel_bind; [apply rd_fuel|intros].
    apply has_fuel_bind; [done|intros]. apply lift_fuel.
Qed.
Lemma apply_abs_fuel o i slot ad s : has_fuel (apply_abs o i slot ad) s.
Proof.
  unfold apply_abs. case_match; [|apply wr_fuel].
  apply has_fuel_bind; [apply rd_fuel|intros]. case_match.
  - apply has_fuel_bind; [apply symbol_value_fuel|intros]. apply wr_fuel.
  - apply has_fuel_bind; [apply rd_fuel|intros]. apply has_fuel_bind; [apply rd_fuel|intros].
    apply has_fuel_bind; [apply lookup_symbol_fuel|intros]. case_match; [done|apply wr_fuel].
Qed.
Lemma apply_rela_one_fuel o h x r s : has_fuel (apply_rela_one o h x r) s.
Proof.
  unfold apply_rela_one. repeat case_match; try apply wr_fuel; try done.
  - apply apply_abs_fuel.
  - apply has_fuel_bind; [apply tls_sym_val_fuel|intros]. apply wr_fuel.
  - apply has_fuel_bind; [apply tls_sym_val_fuel|intros].
    apply has_fuel_bind; [apply wr_fuel|intros]. apply wr_fuel.
  - apply has_fuel_bind; [apply resolver_fuel|intros]. apply wr_fuel.
Qed.

(** A computation that has fuel and only moves the position forward, by at
    least [k] and never past the end. *)
Definition advances {A} (k : Z) (cur end_ : Z) (c : A → Z) (m : L A) : Prop :=
  ∀ s, match m s with
       | Done a _ => cur + k <= c a ∧ (cur = c a ∨ c a <= end_)
       | OutOfFuel => False
       | _ => True
       end.

Lemma advances_pop cur end_ : advances 1 cur end_ snd (sleb128_decoder_pop_front cur end_).
Proof.
  intros s. pose proof (pop_result cur end_ s) as Hp.
  destruct (sleb128_decoder_pop_front cur end_ s) as [[v c] s'| | |]; try done. simpl. lia.
Qed.

Lemma advances_pop_if b cur end_ d : advances 0 cur end_ snd (pop_if b cur end_ d).
Proof.
  intros s. destruct b; cbn [pop_if].
  - pose proof (advances_pop cur end_ s) as Hp.
    destruct (sleb128_decoder_pop_front cur end_ s) as [[v c] s'| | |]; try done. simpl in *. lia.
  - simpl. lia.
Qed.

Lemma advances_bind {A B} k1 k2 cur end_ (c1 : A → Z) (c2 : B → Z) (m : L A) (f : A → L B) :
  advances k1 cur end_ c1 m → 0 <= k1 → 0 <= k2 →
  (∀ a, advances k2 (c1 a) end_ c2 (f a)) →
  advances (k1 + k2) cur end_ c2 (m ≫= f).
Proof.
  intros Hm Hk1 Hk2 Hf s. specialize (Hm s). unfold mbind, M_bind.
  destruct (m s) as [a s1| | |]; try done. specialize (Hf a s1).
  destruct (f a s1) as [b s2| | |]; try done. lia.
Qed.

Lemma advances_skip {A B} k cur end_ (c2 : B → Z) (m : L A) (f : A → L B) :
  (∀ s, has_fuel m s) → (∀ a, advances k cur end_ c2 (f a)) → advances k cur end_ c2 (m ≫= f).
Proof.
  intros Hm Hf s. specialize (Hm s). unfold mbind, M_bind, has_fuel in *.
  destruct (m s) as [a s1| | |]; try done. apply Hf.
Qed.

Lemma advances_ret {A} cur end_ (c : A → Z) (a : A) : c a = cur → advances 0 cur end_ c (mret a).
Proof. intros <- s. simpl. lia. Qed.

Lemma advances_members n o h x f d cur end_ offset info addend :
  advances 0 cur end_ (λ r, r.1.1.1) (aps2_members n o h x f d cur end_ offset info addend).
Proof.
  revert cur offset info addend. induction n as [|n IH]; intros cur offset info addend;
    cbn [aps2_members]; [by apply advances_ret|].
  change 0 with (0 + 0) at 1. eapply advances_bind; [apply advances_pop_if|lia|lia|intros [v1 c1]].
  change 0 with (0 + 0) at 1. eapply advances_bind; [apply advances_pop_if|lia|lia|intros [v2 c2]].
  change 0 with (0 + 0) at 1. eapply advances_bind; [apply advances_pop_if|lia|lia|intros [v3 c3]].
  cbn [snd]. apply advances_skip; [intros; apply lift_fuel|intros ad].
  apply advances_skip; [intros; apply apply_rela_one_fuel|intros _]. apply IH.
Qed.

Lemma aps2_groups_fuel fuel o h x idx num cur end_ offset info addend s :
  (Z.to_nat (end_ - cur) < fuel)%nat →
  has_fuel (aps2_groups fuel o h x idx num cur end_ offset info addend) s.
Proof.
  revert idx cur offset info addend s. induction fuel as [|fuel IH];
    intros idx cur offset info addend s Hf; [lia|].
  cbn [aps2_groups]. destruct (num <=? idx); [done|].
  pose proof (pop_result cur end_ s) as P1.
  apply has_fuel_bind; [intros E; by rewrite E in P1|].
  intros [gsz c1] s1 E. rewrite E in P1. destruct P1 as [-> P1]. clear E.
  assert (∀ {A} (m : L A) (k : A → L ()) (c : A → Z) cur1 (s1 : lstate), cur < cur1 →
    advances 0 cur1 end_ c m →
    (∀ a s', cur < c a → has_fuel (k a) s') → has_fuel (m ≫= k) s1) as Hstep.
  { intros A m k c cur1 s1 Hcur Hadv Hk. apply has_fuel_bind.
    - intros Eo. specialize (Hadv s1). by rewrite Eo in Hadv.
    - intros a s' Eo. apply Hk. specialize (Hadv s1). rewrite Eo in Hadv. lia. }
  eapply (Hstep _ _ _ snd c1); [lia| |intros [flags c2] s2 Hc2].
  { intros s'. pose proof (advances_pop c1 end_ s') as Ha.
    destruct (sleb128_decoder_pop_front c1 end_ s') as [[? ?] ?| | |]; try done. simpl in *. lia. }
  cbn [snd] in Hc2. eapply (Hstep _ _ _ snd c2); [lia|apply advances_pop_if|intros [dl c3] s3 Hc3].
  cbn [snd] in Hc3. eapply (Hstep _ _ _ snd c3); [lia|apply advances_pop_if|intros [inf c4] s4 Hc4].
  cbn [snd] in Hc4. cbv zeta. eapply (Hstep _ _ _ snd c4); [lia| |intros [ad c5] s5 Hc5].
  { case_match; [by apply advances_ret|]. case_match; [|by apply advances_ret].
    intros s'. pose proof (advances_pop c4 end_ s') as Ha. unfold mbind, M_bind, lift.
    destruct (sleb128_decoder_pop_front c4 end_ s') as [[? ?] ?| | |]; try done.
    destruct (addend_add addend _); [simpl in *; lia|done]. }
  cbn [snd] in Hc5. eapply (Hstep _ _ _ (λ r, r.1.1.1) c5); [lia|apply advances_members|].
  intros [[[c6 off6] inf6] ad6] s6 Hc6. cbn [fst] in Hc6. apply IH. lia.
Qed.

Lemma android_body_fuel o packed size hwcap auxv (s : lstate) :
  has_fuel ('(num_relocs, cur) ← sleb128_decoder_pop_front (packed + 4) (packed + size);
            '(offset, cur) ← sleb128_decoder_pop_front cur (packed + size);
            aps2_groups (S (Z.to_nat size)) o hwcap auxv 0 num_relocs cur (packed + size) offset 0 0) s.
Proof.
  unfold has_fuel, mbind, M_bind.
  pose proof (pop_result (packed + 4) (packed + size) s) as P1.
  destruct (sleb128_decoder_pop_front _ _ s) as [[num c1] s2| | |]; try done.
  destruct P1 as [-> P1].
  pose proof (pop_result c1 (packed + size) s) as P2.
  destruct (sleb128_decoder_pop_front c1 _ s) as [[off c2] s2| | |]; try done.
  destruct P2 as [-> P2]. apply aps2_groups_fuel. lia.
Qed.

(** Termination of [apply_android_rela] on arbitrary bytes: the loop over
    the groups never runs out of the fuel [size + 1], since every group takes
    at least one byte of the stream or stops the process. *)
Theorem apply_android_rela_has_fuel o packed size hwcap auxv (s : lstate) :
  has_fuel (apply_android_rela o packed size hwcap auxv) s.
Proof.
  unfold apply_android_rela. destruct (size <? 4); [done|].
  apply has_fuel_bind; [apply rd_fuel|]. intros sig s1 _. case_match; [done|].
  apply android_body_fuel.
Qed.
End Fuel.

(** ** A concrete stream *)

Definition demo_groups : list group :=
  [{| ag_flags := 11; ag_delta := 8; ag_info := 1027; ag_addend := 0;
      ag_members := [{| am_offset := 0; am_info := 0; am_addend := 0x40 |};
                     {| am_offset := 0; am_info := 0; am_addend := -8 |}] |};
   {| ag_flags := 0; ag_delta := 0; ag_info := 0; ag_addend := 0;
      ag_members := [{| am_offset := 0x10; am_info := 1027; am_addend := 0 |}] |}].

Definition demo_relocs : list Elf64_Rela :=
  [{| r_offset := 0x208; r_info := 1027; r_addend := 0x40 |};
   {| r_offset := 0x210; r_info := 1027; r_addend := 0x38 |};
   {| r_offset := 0x220; r_info := 1027; r_addend := 0 |}].

Definition demo_aps2_state : lstate :=
  toy_state (image 0x1000 1 (stream_bytes demo_groups 0x200) ∪ image 0x5200 3 (replicate 64 0)) [].

Lemma apply_android_rela_stream_witness :
  apply_android_rela (with_base object_zero 0x5000) 0x1000
    (Z.of_nat (length (stream_bytes demo_groups 0x200))) 0 0 demo_aps2_state =
  for_each (apply_rela_one (with_base object_zero 0x5000) 0 0) demo_relocs demo_aps2_state.
Proof.
  apply (apply_android_rela_stream (with_base object_zero 0x5000) 0 0 0x1000 demo_groups 0x200
    demo_relocs demo_aps2_state).
  - vm_compute. reflexivity.
  - repeat constructor; unfold in_s64; simpl; lia.
  - unfold in_s64. lia.
  - vm_compute. reflexivity.
  - vm_compute. reflexivity.
  - repeat constructor; apply relative_keeps_stream; (vm_compute; first [reflexivity | right; discriminate]).
Defined.
