(* ===== verification/Rela.v ===== *)
(** * Relocations

    What the RELR format and the entries of a RELA table mean, and that the
    linker applies them, to their slots and to nothing else. *)

From S2P Require Import Prelude Machine Elf CString LnkBase LnkToy LnkSymbols LnkReloc Aps2.

(** ** The format *)

(** The slots of a bitmap entry: bit [k + 1] stands for the [k]th word after
    the window's start. *)
Definition bitmap_slots (entry start : Z) : list Z :=
  (λ k, start + 8 * k) <$> filter (λ k, Z.testbit entry (k + 1) = true) (seqZ 0 63).

(** The slots of a table loaded at [base]; [slot] is where the next bitmap's
    window starts. *)
Fixpoint relr_slots (base slot : Z) (entries : list Z) : list Z :=
  match entries with
  | [] => []
  | e :: es =>
      if Z.even e then u64 (e + base) :: relr_slots base (u64 (e + base) + 8) es
      else bitmap_slots e slot ++ relr_slots base (slot + 8 * 63) es
  end.

(** Adding the base to a list of slots, in order. *)
Fixpoint add_all (base : Z) (slots : list Z) (m : memory) : option memory :=
  match slots with
  | [] => Some m
  | a :: slots => v ← load64 m a; m' ← store64 m a (u64 (v + base)); add_all base slots m'
  end.

Lemma add_all_app base l1 l2 m :
  add_all base (l1 ++ l2) m = m' ← add_all base l1 m; add_all base l2 m'.
Proof.
  revert m. induction l1 as [|a l1 IH]; intros m; [done|]. cbn [app add_all].
  destruct (load64 m a); [|done]. obind. destruct (store64 m a _); [|done]. apply IH.
Qed.

(** The bits of a bitmap from bit [i] up, as the loop meets them. *)
Lemma filter_seqZ_shift (f : Z → Prop) `{!∀ k, Decision (f k)} (i n : Z) :
  0 < n → filter f (seqZ i n) =
  (if decide (f i) then [i] else []) ++ filter f (seqZ (i + 1) (n - 1)).
Proof.
  intros Hn. rewrite seqZ_cons by lia. rewrite filter_cons.
  replace (Z.succ i) with (i + 1) by lia. replace (Z.pred n) with (n - 1) by lia.
  by case_decide.
Qed.

Section Relr.
Context `{Platform}.

Lemma add_base_spec slot base (s : lstate) :
  add_base slot base s =
  match add_all base [slot] (l_mem s) with
  | Some m => Done () (set_mem m s)
  | None => Fault
  end.
Proof.
  unfold add_base, rd, wr, get, lift, put, mbind, M_bind. cbn [add_all].
  destruct (load64 (l_mem s) slot) as [v|]; [|done]. obind.
  by destruct (store64 (l_mem s) slot _).
Qed.

Lemma set_mem_id (s : lstate) : set_mem (l_mem s) s = s.
Proof. by destruct s. Qed.
Lemma set_mem_mem m m' (s : lstate) : set_mem m' (set_mem m s) = set_mem m' s.
Proof. by destruct s. Qed.

(** The bitmap loop, from bit [i] of the entry. *)
Lemma relr_bitmap_spec fuel e i start base (s : lstate) :
  in_u64 e → 0 <= i → i + Z.of_nat fuel = 63 →
  relr_bitmap fuel (Z.shiftr e (i + 1)) (start + 8 * i) base s =
  match add_all base ((λ k, start + 8 * k) <$>
          filter (λ k, Z.testbit e (k + 1) = true) (seqZ i (63 - i))) (l_mem s) with
  | Some m => Done () (set_mem m s)
  | None => Fault
  end.
Proof.
  intros He. revert i s. induction fuel as [|fuel IH]; intros i s Hi Hf; cbn [relr_bitmap].
  - assert (Z.shiftr e (i + 1) = 0) as ->.
    { rewrite Z.shiftr_div_pow2 by lia. replace (i + 1) with 64 by lia. apply Z.div_small. exact He. }
    replace (63 - i) with 0 by lia.
    change (Done () s = Done () (set_mem (l_mem s) s)). by rewrite set_mem_id.
  - destruct (Z.eqb_spec (Z.shiftr e (i + 1)) 0) as [Hz|Hz].
    { assert (filter (λ k, Z.testbit e (k + 1) = true) (seqZ i (63 - i)) = []) as ->.
      { apply filter_none. intros k Hk Hb. apply elem_of_seqZ in Hk.
        assert (Z.testbit (Z.shiftr e (i + 1)) (k - i) = true) as Hb'.
        { rewrite Z.shiftr_spec by lia. by replace (k - i + (i + 1)) with (k + 1) by lia. }
        rewrite Hz, Z.bits_0 in Hb'. done. }
      change (Done () s = Done () (set_mem (l_mem s) s)). by rewrite set_mem_id. }
    rewrite (filter_seqZ_shift _ i (63 - i)) by lia. rewrite fmap_app, add_all_app.
    assert (Z.odd (Z.shiftr e (i + 1)) = Z.testbit e (i + 1)) as ->
      by (rewrite <- Z.bit0_odd, Z.shiftr_spec by lia; f_equal; lia).
    rewrite Z.shiftr_shiftr by lia.
    replace (start + 8 * i + 8) with (start + 8 * (i + 1)) by lia.
    replace (63 - i - 1) with (63 - (i + 1)) by lia.
    unfold mbind at 1, M_bind at 1. destruct (Z.testbit e (i + 1)) eqn:Eb.
    + rewrite add_base_spec. rewrite decide_True by done. cbn [fmap list_fmap].
      destruct (add_all base [start + 8 * i] (l_mem s)) as [m|]; [|done]. obind.
      rewrite IH by lia. cbn [l_mem set_mem].
      destruct (add_all base _ m); [|done]. by rewrite set_mem_mem.
    + cbn [mret M_ret]. rewrite decide_False by done. cbn [fmap list_fmap]. obind.
      cbn [add_all]. obind. rewrite IH by lia. done.
Qed.

(** The table [es] is at [tab]. *)
Definition table_at (m : memory) (tab : Z) (es : list Z) : Prop :=
  ∀ i e, es !! i = Some e → load64 m (tab + 8 * Z.of_nat i) = Some e.

Lemma table_at_cons m tab e es :
  table_at m tab (e :: es) → load64 m tab = Some e ∧ table_at m (tab + 8) es.
Proof.
  intros Ht. split.
  - specialize (Ht 0%nat e eq_refl). by rewrite Z.mul_0_r, Z.add_0_r in Ht.
  - intros i e' He. specialize (Ht (S i) e' He).
    by replace (tab + 8 + 8 * Z.of_nat i) with (tab + 8 * Z.of_nat (S i)) by lia.
Qed.

Lemma add_all_frame base slots m m' b k :
  add_all base slots m = Some m' → Forall (λ a, disjoint_ranges a 8 b k) slots →
  load_bytes m' b k = load_bytes m b k.
Proof.
  revert m. induction slots as [|a slots IH]; intros m Ha Hd; [by injection Ha as ->|].
  apply Forall_cons in Hd as [Hd Hds]. cbn [add_all] in Ha.
  apply bind_Some in Ha as (v & _ & Ha). apply bind_Some in Ha as (m1 & Hm & Ha).
  rewrite (IH _ Ha Hds). eapply same_but_disjoint; [|exact Hd]. exact (store_same_but 8 _ _ _ _ Hm).
Qed.

Lemma table_frame base slots m m' tab es :
  add_all base slots m = Some m' →
  Forall (λ a, disjoint_ranges a 8 tab (8 * length es)) slots →
  table_at m tab es → table_at m' tab es.
Proof.
  intros Ha Hd Ht i e He. rewrite <- (Ht i e He). unfold load64, load. f_equal.
  eapply add_all_frame; [exact Ha|]. apply lookup_lt_Some in He.
  eapply Forall_impl; [exact Hd|]. intros a Hr. range.
Qed.

Lemma disjoint_tail (tab : Z) (es : list Z) (e : Z) (slots : list Z) :
  Forall (λ a, disjoint_ranges a 8 tab (8 * length (e :: es))) slots →
  Forall (λ a, disjoint_ranges a 8 (tab + 8) (8 * length es)) slots.
Proof. intros Hd. eapply Forall_impl; [exact Hd|]. intros a Hr. range. Qed.

Lemma relr_go_spec es tab slot base (s : lstate) :
  table_at (l_mem s) tab es → Forall in_u64 es →
  Forall (λ a, disjoint_ranges a 8 tab (8 * length es)) (relr_slots base slot es) →
  relr_go (length es) tab slot base s =
  match add_all base (relr_slots base slot es) (l_mem s) with
  | Some m => Done () (set_mem m s)
  | None => Fault
  end.
Proof.
  revert tab slot s. induction es as [|e es IH]; intros tab slot s Ht Hr Hd.
  { change (Done () s = Done () (set_mem (l_mem s) s)). by rewrite set_mem_id. }
  apply table_at_cons in Ht as [He Ht]. apply Forall_cons in Hr as [Hre Hr].
  apply disjoint_tail in Hd. cbn [length relr_go relr_slots] in *.
  rd_step He.
  destruct (Z.even e).
  - apply Forall_cons in Hd as [Hd1 Hd]. cbv zeta. unfold mbind, M_bind.
    pose proof (add_all_app base [u64 (e + base)] (relr_slots base (u64 (e + base) + 8) es)
      (l_mem s)) as Ha. cbn [app] in Ha. rewrite Ha, add_base_spec. clear Ha.
    destruct (add_all base [u64 (e + base)] (l_mem s)) as [m|] eqn:Em; [|done]. obind.
    rewrite IH; [|by eapply table_frame; eauto|done|done]. cbn [l_mem set_mem].
    destruct (add_all base _ m); [|done]. by rewrite set_mem_mem.
  - apply Forall_app in Hd as [Hd1 Hd]. unfold mbind, M_bind. rewrite add_all_app.
    rewrite (u64_small e) by done.
    pose proof (relr_bitmap_spec 63 e 0 slot base s Hre ltac:(lia) ltac:(lia)) as Hb.
    rewrite Z.mul_0_r, !Z.add_0_r, Z.add_0_l, Z.sub_0_r in Hb. fold (bitmap_slots e slot) in Hb.
    rewrite Hb. clear Hb.
    destruct (add_all base (bitmap_slots e slot) (l_mem s)) as [m|] eqn:Em; [|done]. obind.
    rewrite IH; [|by eapply table_frame; eauto|done|done]. cbn [l_mem set_mem].
    destruct (add_all base _ m); [|done]. by rewrite set_mem_mem.
Qed.

(** Slots that do not overlap. *)
Definition separated (slots : list Z) : Prop :=
  ∀ i j a b, i ≠ j → slots !! i = Some a → slots !! j = Some b → disjoint_ranges a 8 b 8.

Lemma separated_cons a slots :
  separated (a :: slots) → Forall (λ b, disjoint_ranges a 8 b 8) slots ∧ separated slots.
Proof.
  intros Hs. split.
  - apply Forall_lookup. intros i b Hb. by apply (Hs 0%nat (S i) a b).
  - intros i j b c Hij Hb Hc. apply (Hs (S i) (S j) b c); [congruence|done|done].
Qed.

Lemma add_all_spec base slots m :
  separated slots → Forall (λ a, readable m a 8 ∧ writable m a 8) slots →
  ∃ m', add_all base slots m = Some m' ∧
    (∀ a v, a ∈ slots → load64 m a = Some v → load64 m' a = Some (u64 (v + base))) ∧
    (∀ x, (∀ a, a ∈ slots → ¬ in_range a 8 x) → m' !! x = m !! x).
Proof.
  revert m. induction slots as [|a slots IH]; intros m Hs Hrw.
  { exists m. split_and!; try done. intros a v Ha. by apply elem_of_nil in Ha. }
  apply separated_cons in Hs as [Ha Hs]. apply Forall_cons in Hrw as [[Hr Hw] Hrw].
  destruct (proj1 (load_readable 8 m a) Hr) as [v Hv].
  destruct (proj1 (store_writable 8 m a (u64 (v + base))) Hw) as [m1 Hm1].
  pose proof (store_same_but 8 _ _ _ _ Hm1) as Hsb.
  destruct (IH m1 Hs) as (m' & Hm' & Hval & Hsame).
  { eapply Forall_impl; [exact Hrw|]. intros b [Hbr Hbw]. split;
      [by eapply same_but_readable|by eapply same_but_writable]. }
  exists m'. cbn [add_all]. unfold load64, store64. rewrite Hv. obind. rewrite Hm1. obind.
  split; [done|]. split.
  - intros b w Hb Hw'. apply elem_of_cons in Hb as [->|Hb].
    + assert (load 8 m' a = load 8 m1 a) as ->.
      { unfold load. f_equal. eapply add_all_frame; [exact Hm'|].
        eapply Forall_impl; [exact Ha|]. intros b Hb. range. }
      rewrite (load_store_same _ _ _ _ _ Hm1 Hr). unfold load64 in Hw'.
      rewrite Hv in Hw'. injection Hw' as ->. f_equal.
      change (256 ^ Z.of_nat 8) with 18446744073709551616. apply u64_idemp.
    + apply Hval; [done|]. rewrite <- Hw'. unfold load64.
      apply (load_store_disjoint 8 _ _ _ _ _ 8 Hm1). rewrite Forall_forall in Ha. by apply Ha.
  - intros x Hx. rewrite Hsame by (intros b Hb; apply Hx; by apply list_elem_of_further).
    apply Hsb. apply Hx, list_elem_of_here.
Qed.

(** C37. [apply_relr] adds the load base, once, to the word of every slot the
    packed table encodes, and changes no other byte of the image; nothing but
    the image changes. *)
Theorem apply_relr_correct o es (s : lstate) :
  let slots := relr_slots (load_base o) 0 es in
  relr o ≠ 0 → relr_count o = Z.of_nat (length es) →
  table_at (l_mem s) (relr o) es → Forall in_u64 es →
  Forall (λ a, disjoint_ranges a 8 (relr o) (8 * length es)) slots → separated slots →
  Forall (λ a, readable (l_mem s) a 8 ∧ writable (l_mem s) a 8) slots →
  ∃ m', apply_relr o s = Done () (set_mem m' s) ∧
    (∀ a v, a ∈ slots → load64 (l_mem s) a = Some v →
       load64 m' a = Some (u64 (v + load_base o))) ∧
    (∀ x, (∀ a, a ∈ slots → ¬ in_range a 8 x) → m' !! x = l_mem s !! x).
Proof.
  intros slots Hr Hc Ht Hes Hd Hs Hrw.
  destruct (add_all_spec (load_base o) slots (l_mem s) Hs Hrw) as (m' & Hm & Hval & Hsame).
  exists m'. split; [|done]. unfold apply_relr.
  rewrite (proj2 (Z.eqb_neq _ _) Hr). cbn [orb].
  destruct (Z.eqb_spec (relr_count o) 0) as [Hz|Hz].
  - destruct es; [|simpl in Hc; lia]. injection Hm as <-. by rewrite set_mem_id.
  - rewrite Hc, Nat2Z.id, relr_go_spec by done. fold slots. by rewrite Hm.
Qed.
End Relr.

(** ** A concrete table *)

Definition demo_relr_obj : Object :=
  with_relr_count (with_relr (with_base object_zero 0x5000) 0x1000) 2.
Definition demo_relr_entries : list Z := [0x10; 7].
Definition demo_relr_state : lstate :=
  toy_state (image 0x1000 1 (concat (le_split 8 <$> demo_relr_entries))
             ∪ image 0x5000 3 (replicate 64 1)) [].

Lemma apply_relr_correct_witness :
  ∃ m', apply_relr demo_relr_obj demo_relr_state = Done () (set_mem m' demo_relr_state) ∧
    load64 m' 0x5020 = Some (u64 (0x0101010101010101 + 0x5000)).
Proof.
  destruct (apply_relr_correct demo_relr_obj demo_relr_entries demo_relr_state)
    as (m' & Hm & Hv & _).
  - done.
  - reflexivity.
  - intros i e He. do 2 (destruct i as [|i]; [injection He as <-; vm_compute; reflexivity|]).
    by destruct i.
  - repeat constructor; unfold in_u64; lia.
  - change (relr_slots _ _ _) with [0x5010; 0x5018; 0x5020]. unfold disjoint_ranges. cbn.
    repeat (apply Forall_cons; split; [lia|]). constructor.
  - change (relr_slots _ _ _) with [0x5010; 0x5018; 0x5020].
    intros i j a b Hij Ha Hb. unfold disjoint_ranges.
    do 3 (destruct i as [|i]; [do 3 (destruct j as [|j];
      [cbn in Ha, Hb; injection Ha as <-; injection Hb as <-; first [done | lia]|]); by destruct j|]).
    by destruct i.
  - change (relr_slots _ _ _) with [0x5010; 0x5018; 0x5020].
    repeat (apply Forall_cons; split; [split;
      [apply readable_check | apply writable_check]; vm_compute; reflexivity|]). constructor.
  - exists m'. split; [exact Hm|]. apply Hv.
    + change (relr_slots _ _ _) with [0x5010; 0x5018; 0x5020]. rewrite !elem_of_cons. auto.
    + vm_compute. reflexivity.
Defined.

(** ** RELA relocation tables

    The words each relocation type stores, as a function of the image and the
    loaded objects, and the proof that [apply_rela] run over a whole table
    leaves exactly these words in the slots, although the entries are applied
    one after the other to the image they are read from. *)

(** ** The words of a relocation *)

Section Words.
Context `{Platform}.

(** The address of a symbol that is not an IFUNC. *)
Definition data_address (m : memory) (o : Object) (sym : Z) : option Z :=
  v ← st_value m sym; info ← st_info m sym;
  if ELF64_ST_TYPE info =? STT_GNU_IFUNC then None else Some (u64 (v + load_base o)).

(** The address a name is bound to: an entry point of the linker, else the
    first definition in load order, else 0. *)
Fixpoint objects_address (m : memory) (os : list Object) (name : list Z) : option Z :=
  match os with
  | [] => Some 0
  | o :: os =>
      r ← find_in_object m o name;
      match r with Some sym => data_address m o sym | None => objects_address m os name end
  end.
Definition name_address (m : memory) (os : list Object) (name : list Z) : option Z :=
  b ← find_builtin builtin_symbols name;
  match b with Some f => Some (own_address f) | None => objects_address m os name end.

(** The symbol of a relocation: its table entry, when there is one. *)
Definition reloc_sym (o : Object) (i : Z) : option Z :=
  if negb (i =? 0) && negb (symtab o =? 0) && negb (strtab o =? 0)
  then Some (symtab o + sizeof_Sym * i) else None.

(** S of an absolute relocation; [Some None] when the name is unresolved. *)
Definition abs_value (m : memory) (os : list Object) (o : Object) (i : Z) : option (option Z) :=
  match reloc_sym o i with
  | None => Some (Some 0)
  | Some sym =>
      shndx ← st_shndx m sym;
      if negb (shndx =? SHN_UNDEF) then Some <$> data_address m o sym
      else n ← st_name m sym; name ← mem_cstr m (strtab o + n);
           v ← name_address m os name; Some (if v =? 0 then None else Some v)
  end.

(** The thread-pointer offset of a thread-local relocation. *)
Definition tp_offset (m : memory) (os : list Object) (o : Object) (i : Z) : option Z :=
  match reloc_sym o i with
  | None => Some (tls_offset o)
  | Some sym =>
      shndx ← st_shndx m sym;
      if negb (shndx =? SHN_UNDEF) then v ← st_value m sym; Some (u64 (tls_offset o + v))
      else n ← st_name m sym; name ← mem_cstr m (strtab o + n); tls_search m os name
  end.

Definition reloc_slot (o : Object) (r : Elf64_Rela) : Z := u64 (r_offset r + load_base o).

(** The words stored from the slot on: B + A, S + A, the offset + A, or the
    descriptor's function and argument. *)
Definition reloc_words (m : memory) (os : list Object) (o : Object) (r : Elf64_Rela) :
    option (list Z) :=
  let i := ELF64_R_SYM (r_info r) in
  let t := ELF64_R_TYPE (r_info r) in
  let a := r_addend r in
  if t =? R_AARCH64_RELATIVE then Some [u64 (load_base o + a)]
  else if (t =? R_AARCH64_GLOB_DAT) || (t =? R_AARCH64_JUMP_SLOT) || (t =? R_AARCH64_ABS64) then
    v ← abs_value m os o i;
    Some (match v with Some v => [u64 (v + a)] | None => [] end)
  else if t =? R_AARCH64_TLS_TPREL64 then
    v ← tp_offset m os o i; Some [u64 (v + a)]
  else if t =? R_AARCH64_TLSDESC then
    v ← tp_offset m os o i; Some [own_address tlsdesc_static_resolver_fn; u64 (v + a)]
  else if t =? R_AARCH64_IRELATIVE then None
  else Some [].

(** The bytes from the slot on that a relocation may store to. *)
Definition reloc_width (r : Elf64_Rela) : nat :=
  if ELF64_R_TYPE (r_info r) =? R_AARCH64_TLSDESC then 16 else 8.

Fixpoint store_words (m : memory) (a : Z) (ws : list Z) : option memory :=
  match ws with
  | [] => Some m
  | w :: ws => m' ← store64 m a w; store_words m' (a + 8) ws
  end.

Lemma reloc_words_width m os o r ws :
  reloc_words m os o r = Some ws → (8 * length ws <= reloc_width r)%nat.
Proof.
  unfold reloc_words, reloc_width. intros Hw.
  repeat first [case_match | apply bind_Some in Hw as (? & _ & Hw)];
    simplify_eq; simpl; first [lia | congruence].
Qed.

(** ** One relocation *)

Lemma wr_run f (s : lstate) :
  wr f s = match f (l_mem s) with Some m => Done () (set_mem m s) | None => Fault end.
Proof. unfold wr, get, lift, put, mbind, M_bind. by destruct (f (l_mem s)). Qed.

Lemma objects_address_run os name v (s : lstate) :
  objects_address (l_mem s) os name = Some v → lookup_objects os name s = Done v s.
Proof.
  induction os as [|o os IH]; intros Hv; cbn [objects_address lookup_objects] in *.
  { by injection Hv as <-. }
  apply bind_Some in Hv as (r & Hr & Hv). rd_step Hr. destruct r as [sym|]; [|by apply IH].
  unfold data_address in Hv. apply bind_Some in Hv as (w & Hw & Hv).
  apply bind_Some in Hv as (info & Hi & Hv).
  destruct (Z.eqb_spec (ELF64_ST_TYPE info) STT_GNU_IFUNC); simplify_eq.
  by apply symbol_value_data with info.
Qed.

Lemma name_address_run name v (s : lstate) :
  name_address (l_mem s) (l_objs s) name = Some v → lookup_symbol name s = Done v s.
Proof.
  unfold name_address, lookup_symbol. intros Hv. apply bind_Some in Hv as (b & Hb & Hv).
  rewrite Hb. destruct b as [f|]; [by injection Hv as <-|].
  change (lookup_objects (l_objs s) name s = Done v s). by apply objects_address_run.
Qed.

Lemma tp_offset_run o i v (s : lstate) :
  tp_offset (l_mem s) (l_objs s) o i = Some v → tls_sym_val o i s = Done v s.
Proof.
  unfold tp_offset, tls_sym_val, reloc_sym. destruct (_ && _); [|by intros [= <-]].
  intros Hv. apply bind_Some in Hv as (x & Hx & Hv). cbv zeta. rd_step Hx.
  destruct (negb (x =? SHN_UNDEF)).
  - apply bind_Some in Hv as (w & Hw & [= <-]). by rd_step Hw.
  - apply bind_Some in Hv as (n & Hn & Hv). rd_step Hn.
    apply bind_Some in Hv as (name & Hname & Hv). rd_step Hname.
    unfold get, mbind, M_bind, lift. by rewrite Hv.
Qed.

Lemma apply_abs_run o i slot a v (s : lstate) :
  abs_value (l_mem s) (l_objs s) o i = Some v →
  apply_abs o i slot a s =
  match store_words (l_mem s) slot (match v with Some v => [u64 (v + a)] | None => [] end) with
  | Some m => Done () (set_mem m s)
  | None => Fault
  end.
Proof.
  unfold abs_value, apply_abs, reloc_sym. destruct (_ && _).
  2: { intros [= <-]. rewrite wr_run. cbn [store_words]. by destruct (store64 _ _ _). }
  intros Hv. apply bind_Some in Hv as (x & Hx & Hv). cbv zeta. rd_step Hx.
  destruct (negb (x =? SHN_UNDEF)).
  - apply fmap_Some in Hv as (w & Hw & ->). unfold data_address in Hw.
    apply bind_Some in Hw as (sv & Hsv & Hw). apply bind_Some in Hw as (info & Hi & Hw).
    destruct (Z.eqb_spec (ELF64_ST_TYPE info) STT_GNU_IFUNC) as [|Ht]; simplify_eq.
    rewrite (bind_step _ _ _ _ _ (symbol_value_data _ _ _ _ _ Hsv Hi Ht)), wr_run.
    cbn [store_words]. by destruct (store64 _ _ _).
  - apply bind_Some in Hv as (n & Hn & Hv). rd_step Hn.
    apply bind_Some in Hv as (name & Hname & Hv). rd_step Hname.
    apply bind_Some in Hv as (w & Hw & [= <-]).
    rewrite (bind_step _ _ _ _ _ (name_address_run _ _ _ Hw)).
    destruct (w =? 0); [cbn [store_words]; by rewrite set_mem_id|].
    rewrite wr_run. cbn [store_words]. by destruct (store64 _ _ _).
Qed.

(** One entry stores its words. *)
Lemma apply_rela_one_words o hwcap auxv r ws (s : lstate) :
  reloc_words (l_mem s) (l_objs s) o r = Some ws →
  apply_rela_one o hwcap auxv r s =
  match store_words (l_mem s) (reloc_slot o r) ws with
  | Some m => Done () (set_mem m s)
  | None => Fault
  end.
Proof.
  unfold reloc_words, apply_rela_one, reloc_slot. cbv zeta. intros Hws.
  destruct (_ =? R_AARCH64_RELATIVE).
  { injection Hws as <-. rewrite wr_run. cbn [store_words]. by destruct (store64 _ _ _). }
  destruct (_ || _ || _).
  { apply bind_Some in Hws as (v & Hv & [= <-]). by apply apply_abs_run. }
  destruct (_ =? R_AARCH64_TLS_TPREL64).
  { apply bind_Some in Hws as (v & Hv & [= <-]).
    rewrite (bind_step _ _ _ _ _ (tp_offset_run _ _ _ _ Hv)), wr_run.
    cbn [store_words]. by destruct (store64 _ _ _). }
  destruct (_ =? R_AARCH64_TLSDESC).
  { apply bind_Some in Hws as (v & Hv & [= <-]).
    rewrite (bind_step _ _ _ _ _ (tp_offset_run _ _ _ _ Hv)).
    unfold mbind, M_bind. rewrite wr_run. cbn [store_words].
    destruct (store64 (l_mem s) _ _) as [m|]; [|done]. obind. rewrite wr_run. cbn [l_mem set_mem].
    destruct (store64 m _ _); [|done]. obind. by rewrite set_mem_mem. }
  destruct (_ =? R_AARCH64_IRELATIVE); [done|]. injection Hws as <-. cbn [store_words].
  by rewrite set_mem_id.
Qed.

(** ** Stores of words *)

Lemma store_words_same_but m a ws m' :
  store_words m a ws = Some m' → same_but a (8 * length ws) m m'.
Proof.
  revert m a. induction ws as [|w ws IH]; intros m a Hm; cbn [store_words] in Hm.
  { injection Hm as <-. split; by intros. }
  apply bind_Some in Hm as (m1 & H1 & Hm). apply (store_same_but 8) in H1 as [Ha Hb].
  apply IH in Hm as [Ha' Hb']. split.
  - intros x Hx. rewrite Ha', Ha; [done|range|range].
  - intros x. by rewrite Hb'.
Qed.

Lemma store_words_total m a ws k :
  writable m a k → (8 * length ws <= k)%nat → is_Some (store_words m a ws).
Proof.
  revert m a k. induction ws as [|w ws IH]; intros m a k Hw Hk; cbn [store_words]; [by eexists|].
  simpl in Hk.
  destruct (proj1 (store_writable 8 m a w)) as [m1 Hm1].
  { intros x Hx. apply Hw. range. }
  unfold store64. rewrite Hm1. obind. apply (IH _ _ (k - 8)%nat); [|simpl in Hk; lia].
  apply (same_but_writable _ _ _ _ _ _ (store_same_but 8 _ _ _ _ Hm1)).
  intros x Hx. apply Hw. range.
Qed.

Lemma store_words_load m a ws m' i w :
  store_words m a ws = Some m' → readable m a (8 * length ws) → ws !! i = Some w →
  load64 m' (a + 8 * Z.of_nat i) = Some (u64 w).
Proof.
  revert m a i. induction ws as [|v ws IH]; intros m a i Hm Hr Hi; [done|].
  cbn [store_words] in Hm. apply bind_Some in Hm as (m1 & H1 & Hm).
  destruct i as [|i].
  - injection Hi as ->. rewrite Z.mul_0_r, Z.add_0_r. unfold load64.
    assert (load 8 m' a = load 8 m1 a) as ->.
    { unfold load. f_equal. apply load_bytes_ext. intros x Hx.
      apply (store_words_same_but _ _ _ _ Hm). range. }
    apply (load_store_same 8 _ _ _ _ H1). intros x Hx. apply Hr. range.
  - replace (a + 8 * Z.of_nat (S i)) with (a + 8 + 8 * Z.of_nat i) by lia.
    apply (IH _ _ _ Hm); [|done].
    apply (same_but_readable _ _ _ _ _ _ (store_same_but 8 _ _ _ _ H1)).
    intros x Hx. apply Hr. range.
Qed.
End Words.

(** ** A table *)

Section Table.
Context `{Platform}.
Variables (o : Object) (os : list Object).

(** [m'] agrees with [m] outside the slots of the entries. *)
Definition same_outside (rws : list (Elf64_Rela * list Z)) (m m' : memory) : Prop :=
  ∀ x, (∀ e, e ∈ rws → ¬ in_range (reloc_slot o e.1) (reloc_width e.1) x) → m' !! x = m !! x.

(** The entries [rws] of a table at [tab], each with the words its type
    stands for.  The slots are usable and apart, and the entries and the
    tables their words come from are not in a slot: they do not change when
    slots are overwritten. *)
Record rela_table (m : memory) (tab : Z) (rws : list (Elf64_Rela * list Z)) : Prop := {
  rt_entry : ∀ i e m', rws !! i = Some e → same_outside rws m m' →
    load_rela m' (tab + sizeof_Rela * Z.of_nat i) = Some e.1;
  rt_words : ∀ e m', e ∈ rws → same_outside rws m m' → reloc_words m' os o e.1 = Some e.2;
  rt_apart : ∀ i j d e, i ≠ j → rws !! i = Some d → rws !! j = Some e →
    disjoint_ranges (reloc_slot o d.1) (reloc_width d.1) (reloc_slot o e.1) (reloc_width e.1);
  rt_slots : ∀ e, e ∈ rws → readable m (reloc_slot o e.1) (reloc_width e.1) ∧
    writable m (reloc_slot o e.1) (reloc_width e.1)
}.

(** The words [ws] are in the image from [a] on. *)
Definition holds_words (m : memory) (a : Z) (ws : list Z) : Prop :=
  ∀ i w, ws !! i = Some w → load64 m (a + 8 * Z.of_nat i) = Some (u64 w).

Lemma holds_words_ext m m' a ws :
  (∀ x, in_range a (8 * length ws) x → m' !! x = m !! x) →
  holds_words m a ws → holds_words m' a ws.
Proof.
  intros Hx Hh i w Hi. rewrite <- (Hh i w Hi). unfold load64, load. f_equal.
  apply load_bytes_ext. intros x Hr. apply Hx. apply lookup_lt_Some in Hi. range.
Qed.

Lemma same_outside_slot rws e m m' :
  e ∈ rws → same_but (reloc_slot o e.1) (8 * length e.2) m m' →
  (8 * length e.2 <= reloc_width e.1)%nat → same_outside rws m m'.
Proof. intros He [Hs _] Hw x Hx. apply Hs. specialize (Hx e He). range. Qed.

(** The entry at the head is applied; the rest of the table still stands. *)
Lemma rela_table_step m tab e rws m1 :
  rela_table m tab (e :: rws) → store_words m (reloc_slot o e.1) e.2 = Some m1 →
  rela_table m1 (tab + sizeof_Rela) rws.
Proof.
  intros [Hent Hwd Hap Hsl] Hm1. pose proof (store_words_same_but _ _ _ _ Hm1) as Hsb.
  assert ((8 * length e.2 <= reloc_width e.1)%nat) as Hwidth.
  { eapply reloc_words_width, (Hwd e m); [apply list_elem_of_here|]. by intros x. }
  assert (∀ m', same_outside rws m1 m' → same_outside (e :: rws) m m') as Htr.
  { intros m' Hm' x Hx. rewrite Hm'; [|intros d Hd; apply Hx; by apply list_elem_of_further].
    apply Hsb. specialize (Hx e (list_elem_of_here _ _)). range. }
  constructor.
  - intros i d m' Hi Hm'. rewrite <- (Hent (S i) d m' Hi (Htr _ Hm')). f_equal.
    unfold sizeof_Rela. lia.
  - intros d m' Hd Hm'. apply Hwd; [by apply list_elem_of_further|by apply Htr].
  - intros i j d d' Hij Hd Hd'. by apply (Hap (S i) (S j)); [congruence|..].
  - intros d Hd. destruct (Hsl d) as [Hr Hw]; [by apply list_elem_of_further|]. split.
    + by apply (same_but_readable _ _ _ _ _ _ Hsb).
    + by apply (same_but_writable _ _ _ _ _ _ Hsb).
Qed.

Lemma apply_rela_go_table hwcap auxv rws tab (s : lstate) :
  l_objs s = os → rela_table (l_mem s) tab rws →
  ∃ m', apply_rela_go (length rws) o tab hwcap auxv s = Done () (set_mem m' s) ∧
    same_outside rws (l_mem s) m' ∧
    ∀ e, e ∈ rws → holds_words m' (reloc_slot o e.1) e.2.
Proof.
  revert tab s. induction rws as [|e rws IH]; intros tab s Hos Ht.
  { exists (l_mem s). rewrite set_mem_id. split_and!; [done|by intros x|].
    intros e He. by apply elem_of_nil in He. }
  pose proof (Ht.(rt_entry _ _ _) 0%nat e (l_mem s) eq_refl (λ _ _, eq_refl)) as Hl.
  rewrite Z.mul_0_r, Z.add_0_r in Hl.
  pose proof (Ht.(rt_words _ _ _) e (l_mem s) (list_elem_of_here _ _) (λ _ _, eq_refl)) as Hw.
  destruct (Ht.(rt_slots _ _ _) e (list_elem_of_here _ _)) as [Hrd Hwr].
  pose proof (reloc_words_width _ _ _ _ _ Hw) as Hwidth.
  destruct (store_words_total _ _ _ _ Hwr Hwidth) as [m1 Hm1].
  pose proof (store_words_same_but _ _ _ _ Hm1) as Hsb.
  destruct (IH (tab + sizeof_Rela) (set_mem m1 s) Hos) as (m' & Hrun & Hout & Hall).
  { by eapply rela_table_step. }
  exists m'. split_and!.
  - cbn [length apply_rela_go]. rd_step Hl. rewrite <- Hos in Hw.
    pose proof (apply_rela_one_words o hwcap auxv e.1 e.2 s Hw) as Hone. rewrite Hm1 in Hone.
    by rewrite (bind_step _ _ _ _ _ Hone), Hrun, set_mem_mem.
  - intros x Hx. rewrite Hout; [|intros d Hd; apply Hx; by apply list_elem_of_further].
    apply Hsb. specialize (Hx e (list_elem_of_here _ _)). range.
  - intros d Hd. apply elem_of_cons in Hd as [->|Hd]; [|by apply Hall].
    apply (holds_words_ext m1).
    + intros x Hx. apply Hout. intros d Hd.
      apply list_elem_of_lookup in Hd as [j Hj].
      pose proof (Ht.(rt_apart _ _ _) 0%nat (S j) e d (Nat.neq_0_succ j) eq_refl Hj). range.
    + intros i w Hi. apply (store_words_load _ _ _ _ _ _ Hm1); [|done].
      intros x Hx. apply Hrd. range.
Qed.

End Table.

(** ** A concrete table *)

Definition rela_bytes (r : Elf64_Rela) : list Z :=
  le_split 8 (r_offset r) ++ le_split 8 (r_info r) ++ le_split 8 (r_addend r).

(** A relative relocation, the address of "foo" through the symbol table of
    [demo_obj], and a thread-local descriptor. *)
Definition demo_rela : list (Elf64_Rela * list Z) :=
  [({| r_offset := 0x1000; r_info := 1027; r_addend := 0x30 |}, [0x4030]);
   ({| r_offset := 0x1008; r_info := 2 * 4294967296 + 257; r_addend := 4 |}, [0x4028]);
   ({| r_offset := 0x1010; r_info := 1031; r_addend := 8 |}, [0x1070; 8])].
Definition demo_rela_state : lstate :=
  toy_state (demo_mem ∪ image 0x6000 1 (concat (rela_bytes ∘ fst <$> demo_rela))
             ∪ image 0x5000 3 (replicate 32 0)) [demo_obj].


Lemma demo_rela_slots :
  Forall (λ e, 0x5000 <= reloc_slot demo_obj e.1 ∧
               reloc_slot demo_obj e.1 + Z.of_nat (reloc_width e.1) <= 0x5020) demo_rela.
Proof. repeat (apply Forall_cons; split; [vm_compute; split; discriminate|]). constructor. Qed.

Lemma demo_load n m' a :
  same_outside demo_obj demo_rela (l_mem demo_rela_state) m' → disjoint_ranges 0x5000 32 a n →
  load n m' a = load n (l_mem demo_rela_state) a.
Proof.
  intros Hm Hd. unfold load. f_equal. apply load_bytes_ext. intros x Hx. apply Hm. intros e He.
  pose proof (proj1 (Forall_forall _ _) demo_rela_slots e He). cbv beta in *. clear Hm.
  unfold in_range, disjoint_ranges in *. lia.
Qed.

Lemma demo_rela_entries i e m' :
  demo_rela !! i = Some e → same_outside demo_obj demo_rela (l_mem demo_rela_state) m' →
  load_rela m' (0x6000 + sizeof_Rela * Z.of_nat i) = Some e.1.
Proof.
  intros Hi Hm. unfold load_rela, load64.
  assert (i < 3)%nat by (apply lookup_lt_Some in Hi; exact Hi).
  rewrite !(demo_load 8 m') by first [exact Hm | unfold sizeof_Rela, disjoint_ranges; lia].
  do 3 (destruct i as [|i]; [injection Hi as <-; vm_compute; reflexivity|]). lia.
Qed.

Lemma demo_rela_symbol m' :
  same_outside demo_obj demo_rela (l_mem demo_rela_state) m' →
  st_shndx m' 0x2030 = Some 7 ∧ st_value m' 0x2030 = Some 0x24 ∧ st_info m' 0x2030 = Some 2.
Proof.
  intros Hm. unfold st_shndx, st_value, st_info, load16, load64.
  rewrite !(demo_load _ m') by first [exact Hm | unfold disjoint_ranges; lia].
  split_and!; [vm_compute; reflexivity..|].
  assert (load 1 m' 0x2034 = Some 2) as H1.
  { rewrite demo_load by first [exact Hm | unfold disjoint_ranges; lia]. vm_compute. reflexivity. }
  unfold load in H1. cbn [load_bytes] in H1. change (0x2030 + 4) with 0x2034.
  destruct (load8 m' 0x2034) as [b|]; [|done]. cbn in H1. injection H1 as H1. f_equal. lia.
Qed.

Lemma demo_rela_words e m' :
  e ∈ demo_rela → same_outside demo_obj demo_rela (l_mem demo_rela_state) m' →
  reloc_words m' (l_objs demo_rela_state) demo_obj e.1 = Some e.2.
Proof.
  intros He Hm. apply demo_rela_symbol in Hm as (Hx & Hv & Hi).
  repeat (apply elem_of_cons in He as [->|He]; [|]); [..|by apply elem_of_nil in He].
  - reflexivity.
  - change ((v ← abs_value m' (l_objs demo_rela_state) demo_obj 2;
             Some (match v with Some v => [u64 (v + 4)] | None => [] end)) = Some [0x4028]).
    unfold abs_value. change (reloc_sym demo_obj 2) with (Some 0x2030). cbv iota.
    rewrite Hx. obind. change (negb (7 =? SHN_UNDEF)) with true. cbv iota.
    unfold data_address. rewrite Hv. obind. rewrite Hi. reflexivity.
  - reflexivity.
Qed.

Lemma demo_rela_table :
  rela_table demo_obj (l_objs demo_rela_state) (l_mem demo_rela_state) 0x6000 demo_rela.
Proof.
  constructor; [apply demo_rela_entries|apply demo_rela_words|..].
  - intros i j d e Hij Hd He.
    do 3 (destruct i as [|i]; [do 3 (destruct j as [|j];
      [first [done | injection Hd as <-; injection He as <-; vm_compute; (left; discriminate) || (right; discriminate)]|]); done|]).
    done.
  - intros e He. pose proof (proj1 (Forall_forall _ _) demo_rela_slots e He) as Hs. cbv beta in Hs.
    split; intros x Hx.
    + apply (readable_check _ 0x5000 32); [vm_compute; reflexivity|unfold in_range in *; lia].
    + apply (writable_check _ 0x5000 32); [vm_compute; reflexivity|unfold in_range in *; lia].
Qed.

