(* ===== verification/LnkLoad.v ===== *)
(** * Loading of shared objects

    linker64/src/linker.c:134-291, :339-381, :430-458 and :771-860: reading a
    file, mapping its segments, the search path, the recursive loading of the
    needed libraries, and the [dlopen] family.  Definitions only; their
    properties are in LoadProps. *)

From S2P Require Import Prelude Machine Elf CString LnkBase LnkToy LnkSymbols LnkDynamic LnkReloc.

Section Load.
Context `{Platform}.

(** ** Reading and mapping a file *)

(** linker64/src/linker.c:141-145 (read_at) The loop: [want] bytes are still
    missing, [acc] is what the buffer holds.  A call that delivers bytes
    shortens the rest, so [want] steps are enough. *)
Fixpoint read_at_go (fuel : nat) (fd want : Z) (acc : list Z) : L (option (list Z)) :=
  if want <=? 0 then mret (Some acc) else
  match fuel with
  | O => out_of_fuel
  | S fuel =>
      '(r, bs) ← sys_read fd want;
      if r <=? 0 then mret None
      else read_at_go fuel fd (want - r) (acc ++ take (Z.to_nat r) bs)
  end.

(** linker64/src/linker.c:138-147 (read_at) No result for the return value
    -1, else the bytes of the buffer. *)
Definition read_at (fd offset len : Z) : L (option (list Z)) :=
  r ← sys_lseek fd (s64 offset);
  if r <? 0 then mret None else read_at_go (Z.to_nat len) fd len [].

(** linker64/src/linker.c:149-155 (pf_to_prot) *)
Definition pf_to_prot (flags : Z) : Z :=
  let p := 0 in
  let p := if negb (Z.land flags PF_R =? 0) then Z.lor p PROT_READ else p in
  let p := if negb (Z.land flags PF_W =? 0) then Z.lor p PROT_WRITE else p in
  if negb (Z.land flags PF_X =? 0) then Z.lor p PROT_EXEC else p.

(** linker64/src/linker.c:195-201 (load_so) The lowest and the highest
    address of the PT_LOAD segments. *)
Definition load_range_step (acc : Z * Z) (ph : Elf64_Phdr) : Z * Z :=
  let '(load_min, load_max) := acc in
  if negb (p_type ph =? PT_LOAD) then acc else
  let load_min := if p_vaddr ph <? load_min then p_vaddr ph else load_min in
  let end_ := u64 (p_vaddr ph + p_memsz ph) in
  (load_min, if load_max <? end_ then end_ else load_max).
Definition segments_range (phs : list Elf64_Phdr) : Z * Z :=
  foldl load_range_step (18446744073709551615, 0) phs.

(** linker64/src/linker.c:211-237 (load_so) The body of the mapping loop. *)
Definition map_segment (base fd : Z) (ph : Elf64_Phdr) : L () :=
  if negb (p_type ph =? PT_LOAD) then mret () else
  let seg_start := u64 (PAGE_ALIGN_DOWN (p_vaddr ph) + base) in
  let seg_end := u64 (PAGE_ALIGN_UP (u64 (p_vaddr ph + p_memsz ph)) + base) in
  let file_off := s64 (PAGE_ALIGN_DOWN (p_offset ph)) in
  let final_prot := pf_to_prot (p_flags ph) in
  r ← sys_mmap seg_start (u64 (seg_end - seg_start)) (Z.lor PROT_READ PROT_WRITE)
        (Z.lor MAP_PRIVATE MAP_FIXED) fd file_off;
  if s64 r <? 0 then FATAL "mmap segment" else
  (if p_filesz ph <? p_memsz ph then
     let bss := u64 (p_vaddr ph + p_filesz ph + base) in
     wr (λ m, lnk_memset m bss 0 (p_memsz ph - p_filesz ph))
   else mret ()) ≫= λ _,
  (if negb (final_prot =? Z.lor PROT_READ PROT_WRITE)
   then sys_mprotect seg_start (u64 (seg_end - seg_start)) final_prot else mret ()).

(** linker64/src/linker.c:239-248 (load_so) *)
Fixpoint record_dynamic (o : Object) (phs : list Elf64_Phdr) : L Object :=
  match phs with
  | [] => mret o
  | ph :: phs =>
      if p_type ph =? PT_DYNAMIC then
        o ← rd (λ m, parse_dynamic m o (u64 (p_vaddr ph + load_base o)));
        record_dynamic o phs
      else if p_type ph =? PT_TLS then
        record_dynamic (with_tls o (p_vaddr ph) (p_filesz ph) (p_memsz ph)) phs
      else record_dynamic o phs
  end.

(** linker64/src/linker.c:202-248 (load_so) From the program headers on. *)
Definition map_object (o : Object) (fd : Z) (phs : list Elf64_Phdr) : L Object :=
  let '(lo, hi) := segments_range phs in
  let load_min := PAGE_ALIGN_DOWN lo in
  let load_max := PAGE_ALIGN_UP hi in
  base ← sys_mmap 0 (u64 (load_max - load_min)) PROT_NONE (Z.lor MAP_PRIVATE MAP_ANONYMOUS) (-1) 0;
  if s64 base <? 0 then FATAL "mmap reserve" else
  let o := with_base o (u64 (base - load_min)) in
  for_each (map_segment (load_base o) fd) phs ≫= λ _,
  record_dynamic o phs.

(** linker64/src/linker.c:186-249 (load_so) The object as it leaves it. *)
Definition load_so (o : Object) (fd : Z) : L Object :=
  r ← read_at fd 0 sizeof_Ehdr;
  match r with
  | None => FATAL "read ELF header"
  | Some eb =>
      let ehdr := ehdr_of_bytes eb in
      if 16 <? e_phnum ehdr then FATAL "too many phdrs" else
      r ← read_at fd (e_phoff ehdr) (e_phnum ehdr * sizeof_Phdr);
      match r with
      | None => FATAL "read phdrs"
      | Some pb => map_object o fd (phdrs_of_bytes (Z.to_nat (e_phnum ehdr)) pb)
      end
  end.

(** ** The search path *)

(** linker64/src/linker.c:779-789 (try_dir) The path and the descriptor when
    the file opens. *)
Definition try_dir (dir : string) (soname path_out : list Z) : L (option (list Z * Z)) :=
  p ← lift (lnk_strcpy (replicate 256 0) (lit dir));
  p ← lift (lnk_strcat p (lit "/"));
  p ← lift (lnk_strcat p soname);
  c ← lift (cstr_of p);
  fd ← sys_openat c;
  if 0 <=? fd then q ← lift (lnk_strcpy path_out p); mret (Some (q, s32 fd)) else mret None.

(** linker64/src/linker.c:835-843 (load_needed_so) The directories, in order. *)
Definition search_dirs : list string :=
  ["/data/local/tmp"; "/system/lib64"; "/apex/com.android.art/lib64";
   "/apex/com.android.runtime/lib64"; "/apex/com.android.i18n/lib64";
   "/apex/com.android.conscrypt/lib64"; "/vendor/lib64"; "/lib"; "/usr/lib"]%string.
Fixpoint try_dirs (dirs : list string) (soname path_out : list Z) : L (option (list Z * Z)) :=
  match dirs with
  | [] => mret None
  | d :: dirs =>
      r ← try_dir d soname path_out;
      match r with Some x => mret (Some x) | None => try_dirs dirs soname path_out end
  end.

(** linker64/src/linker.c:797-802 (is_system_lib) *)
Definition is_system_lib (soname : list Z) : option bool :=
  a ← lnk_strcmp soname (lit "libdl.so");
  if a =? 0 then Some true else
  b ← lnk_strcmp soname (lit "libdl_android.so");
  if b =? 0 then Some true else
  c ← lnk_strcmp soname (lit "ld-android.so");
  Some (c =? 0).

(** linker64/src/linker.c:805-806 (load_needed_so) The test whether a library
    is known: the first object whose soname is the name. *)
Fixpoint find_soname (os : list Object) (name : list Z) : option (option nat) :=
  match os with
  | [] => Some None
  | o :: os =>
      r ← lnk_strcmp (soname o) name;
      if r =? 0 then Some (Some 0%nat)
      else i ← find_soname os name; Some (option_map S i)
  end.

Definition nl : string := String (Ascii.ascii_of_nat 10) "".

(** [g_objects[g_nobjects++] = *obj] *)
Definition register (o : Object) : L () := modify (λ s, set_objs (l_objs s ++ [o]) s).

(** linker64/src/linker.c:825-831 (load_needed_so) *)
Definition phantom (msg rest : string) (o : Object) (name : list Z) : L Object :=
  puts msg ≫= λ _, lnk_puts name ≫= λ _, puts rest ≫= λ _, register o ≫= λ _, mret o.

(** linker64/src/linker.c:845-854 (load_needed_so) The file found, or the
    phantom when the descriptor is negative as an [int]. *)
Definition load_found (o : Object) (fd : Z) (name : list Z) : L Object :=
  if fd <? 0 then phantom "[linker64] cannot find: " (" (registering phantom)" +:+ nl) o name else
  o ← load_so o fd;
  sys_close fd ≫= λ _,
  puts "[linker64] loaded " ≫= λ _, lnk_puts (soname o) ≫= λ _, puts " at " ≫= λ _,
  lnk_print_hex (load_base o) ≫= λ _, puts nl ≫= λ _,
  register o ≫= λ _, mret o.

(** linker64/src/linker.c:825-854 (load_needed_so) The object from its name
    to its registration. *)
Definition load_object (o : Object) (name : list Z) : L Object :=
  sys ← lift (is_system_lib name);
  if (sys : bool) then phantom "[linker64] phantom (system lib): " nl o name else
  r ← try_dirs search_dirs name (path o);
  match r with
  | None => phantom "[linker64] cannot find: " (" (registering phantom)" +:+ nl) o name
  | Some (p, fd) => load_found (with_path o p) fd name
  end.

(** linker64/src/linker.c:810-854 (load_needed_so) One library: the object
    that is registered under a name that is not known yet. *)
Definition load_one (name : list Z) : L Object :=
  nm ← lift (lnk_strcpy (soname object_zero) name);
  load_object (with_soname object_zero nm) name.

(** linker64/src/linker.c:804-860 (load_needed_so) A phantom has no string
    table.  Every call that recurses has registered an object, so the fuel
    1025 - g_nobjects is enough: see [load_needed_so_has_fuel]. *)
Fixpoint load_needed_so (fuel : nat) (name : list Z) : L () :=
  match fuel with
  | O => out_of_fuel
  | S fuel =>
      s ← get;
      known ← lift (find_soname (l_objs s) name);
      match known with
      | Some _ => mret ()
      | None =>
          if bool_decide (MAX_OBJECTS <= g_nobjects s)%nat then FATAL "too many objects" else
          o ← load_one name;
          if negb (strtab o =? 0) then
            for_each (λ off, n ← rd (λ m, mem_cstr m (strtab o + off)); load_needed_so fuel n)
                     (needed_off o)
          else mret ()
      end
  end.

Definition load_fuel : nat := Z.to_nat 1025.

(** ** dlopen and its companions *)

(** linker64/src/linker.c:360-366 (lnk_dlopen) *)
Fixpoint find_open (os : list Object) (filename base : list Z) : option (option nat) :=
  match os with
  | [] => Some None
  | o :: os =>
      a ← lnk_strcmp (soname o) filename;
      if a =? 0 then Some (Some 0%nat) else
      b ← lnk_strcmp (path o) filename;
      if b =? 0 then Some (Some 0%nat) else
      c ← lnk_strcmp (soname o) base;
      if c =? 0 then Some (Some 0%nat)
      else i ← find_open os filename base; Some (option_map S i)
  end.

(** linker64/src/linker.c:371-373 (lnk_dlopen) Objects [i .. i + n). *)
Fixpoint relocate_from (n i : nat) (hwcap auxv : Z) : L () :=
  match n with
  | O => mret ()
  | S n =>
      s ← get; o ← lift (l_objs s !! i);
      relocate_object o hwcap auxv ≫= λ _, relocate_from n (S i) hwcap auxv
  end.

(** linker64/src/linker.c:353-381 (lnk_dlopen) *)
Definition lnk_dlopen (filename : option (list Z)) (flags : Z) : L handle :=
  puts "[linker64] lnk_dlopen: " ≫= λ _,
  lnk_puts (default (lit "NULL") filename) ≫= λ _, puts nl ≫= λ _,
  match filename with
  | None => mret (Hobject 0)
  | Some filename =>
      base ← lift (get_basename filename);
      s ← get;
      known ← lift (find_open (l_objs s) filename base);
      match known with
      | Some i => mret (Hobject i)
      | None =>
          let old := g_nobjects s in
          load_needed_so load_fuel base ≫= λ _,
          s ← get;
          relocate_from (g_nobjects s - old) old (l_hwcap s) (l_auxv s) ≫= λ _,
          s ← get;
          found ← lift (find_soname (l_objs s) base);
          mret (match found with Some i => Hobject i | None => Hnull end)
      end
  end.

(** linker64/src/linker.c:430-435 (dl_phdr_info) *)
Record dl_phdr_info := {
  dlpi_addr : Z; dlpi_name : list Z; dlpi_phdr : Z; dlpi_phnum : Z
}.

(** linker64/src/linker.c:439-456 (lnk_dl_iterate_phdr) The loop; [first]
    marks object 0, which is never skipped for a null base. *)
Fixpoint iterate_phdr_go (first : bool) (os : list Object) (callback : dl_phdr_info → L Z) : L Z :=
  match os with
  | [] => mret 0
  | o :: os =>
      if (load_base o =? 0) && negb first then iterate_phdr_go false os callback else
      ident ← rd (λ m, load_bytes m (load_base o) 4);
      if negb (bool_decide (ident = [0x7f; 69; 76; 70])) then iterate_phdr_go false os callback else
      phoff ← rd (λ m, load64 m (load_base o + 32));
      phnum ← rd (λ m, load16 m (load_base o + 56));
      ret ← callback {| dlpi_addr := load_base o; dlpi_name := soname o;
                        dlpi_phdr := u64 (load_base o + phoff); dlpi_phnum := phnum |};
      if negb (ret =? 0) then mret ret else iterate_phdr_go false os callback
  end.

(** linker64/src/linker.c:437-458 (lnk_dl_iterate_phdr) *)
Definition lnk_dl_iterate_phdr (callback : dl_phdr_info → L Z) : L Z :=
  puts ("[linker64] lnk_dl_iterate_phdr" +:+ nl) ≫= λ _,
  s ← get; iterate_phdr_go true (l_objs s) callback.

(** linker64/src/linker.c:261-291 (lnk_libc_init) [slingshot] is the main
    function of the program, called with argc and the two vectors. *)
Definition lnk_libc_init {A} (raw_args : Z) (slingshot : Z → Z → Z → L Z) : L A :=
  w ← rd (λ m, load64 m raw_args);
  let argc := s32 w in
  let argv := raw_args + 8 in
  let envp := argv + 8 * (argc + 1) in
  environ_addr ← lookup_symbol (lit "environ");
  (if negb (environ_addr =? 0) then wr (λ m, store64 m environ_addr envp) else mret ()) ≫= λ _,
  progname_addr ← lookup_symbol (lit "__progname");
  (if negb (progname_addr =? 0) && (0 <? argc) then
     arg0 ← rd (λ m, load64 m argv);
     if arg0 =? 0 then mret () else
     name ← rd (λ m, mem_cstr m arg0);
     base ← lift (lnk_basename name);
     wr (λ m, store64 m progname_addr (arg0 + Z.of_nat (length name - length base)))
   else mret ()) ≫= λ _,
  rc ← slingshot argc argv envp;
  sys_exit rc.
End Load.
