(* ===== verification/LoadProps.v ===== *)
(** * Loading: the object table, the file reads and the mappings

    What the loader guarantees: every load ends; it only appends objects, under
    names that are not in the table yet; a name that was asked for is in the
    table afterwards; a file is read exactly, whatever sizes the kernel's short
    reads have; the segments of an object are mapped inside its reservation and
    never writable and executable while they are filled. *)

From S2P Require Import Prelude Machine Elf CString LnkBase LnkToy LnkSymbols.
From S2P Require Import LnkDynamic LnkReloc Aps2 LnkLoad.

(** ** What leaves the object table alone *)

Create HintDb objs.

(** Split a computation into its steps and solve each from the database. *)
Ltac pres_step :=
  first
    [ solve [auto with objs nocore]
    | apply preserves_ret; typeclasses eauto
    | apply preserves_exit; typeclasses eauto
    | apply preserves_lift; typeclasses eauto
    | apply preserves_fault
    | apply preserves_fuel
    | apply preserves_bind; [typeclasses eauto| |intros ?]
    | progress cbv zeta
    | case_match ].
Ltac pres := repeat pres_step.

Section SameObjs.
Context `{Platform}.

Definition same_objs (s s' : lstate) : Prop := l_objs s' = l_objs s.
#[export] Instance same_objs_preorder : PreOrder same_objs.
Proof. split; [by intros s|]. intros a b c Hab Hbc. unfold same_objs in *. congruence. Qed.

Lemma objs_get : preserves same_objs get.
Proof. by intros s. Qed.
Lemma objs_rd {A} (f : memory → option A) : preserves same_objs (rd f).
Proof. intros s. unfold rd, get, lift, mbind, M_bind. by destruct (f (l_mem s)). Qed.
Lemma objs_wr f : preserves same_objs (wr f).
Proof. intros s. unfold wr, get, lift, put, mbind, M_bind. by destruct (f (l_mem s)). Qed.
Lemma objs_write fd bs : preserves same_objs (sys_write fd bs).
Proof. by intros s. Qed.
Lemma objs_openat p : preserves same_objs (sys_openat p).
Proof. intros s. unfold sys_openat, get, put, mbind, M_bind. by destruct (k_openat _ _). Qed.
Lemma objs_close fd : preserves same_objs (sys_close fd).
Proof. by intros s. Qed.
Lemma objs_read fd n : preserves same_objs (sys_read fd n).
Proof. intros s. unfold sys_read, get, put, mbind, M_bind. by destruct (k_read _ _ _) as [[] ?]. Qed.
Lemma objs_lseek fd n : preserves same_objs (sys_lseek fd n).
Proof. intros s. unfold sys_lseek, get, put, mbind, M_bind. by destruct (k_lseek _ _ _). Qed.
Lemma objs_mmap a n p f fd o : preserves same_objs (sys_mmap a n p f fd o).
Proof.
  intros s. unfold sys_mmap, get, put, mbind, M_bind.
  by destruct (k_mmap _ _ _ _ _ _ _ _) as [[] ?].
Qed.
Lemma objs_mprotect a n p : preserves same_objs (sys_mprotect a n p).
Proof. by intros s. Qed.
Lemma objs_resolver a h x : preserves same_objs (call_resolver a h x).
Proof.
  intros s. unfold call_resolver, get, put, mbind, M_bind. by destruct (run_resolver _ _ _ _) as [[]|].
Qed.
End SameObjs.
#[export] Hint Resolve objs_get objs_rd objs_wr objs_write objs_openat objs_close objs_read
  objs_lseek objs_mmap objs_mprotect objs_resolver : objs.

Section SameObjsFun.
Context `{Platform}.

Lemma objs_lnk_puts s : preserves same_objs (lnk_puts s).
Proof. unfold lnk_puts. pres. Qed.
Lemma objs_puts s : preserves same_objs (puts s).
Proof. apply objs_lnk_puts. Qed.
Lemma objs_hex v : preserves same_objs (lnk_print_hex v).
Proof. apply objs_lnk_puts. Qed.
#[local] Hint Resolve objs_lnk_puts objs_puts objs_hex : objs.
Lemma objs_FATAL {A} msg : preserves same_objs (FATAL msg : L A).
Proof. unfold FATAL, sys_exit. pres. Qed.
#[local] Hint Resolve objs_FATAL : objs.
Lemma objs_read_at fd off n : preserves same_objs (read_at fd off n).
Proof.
  unfold read_at. pres. generalize (Z.to_nat n). intros f. generalize (@nil Z), n.
  induction f as [|f IH]; intros acc w; cbn [read_at_go]; pres.
Qed.
#[local] Hint Resolve objs_read_at : objs.
Lemma objs_map_segment base fd ph : preserves same_objs (map_segment base fd ph).
Proof. unfold map_segment. pres. Qed.
#[local] Hint Resolve objs_map_segment : objs.
Lemma objs_record_dynamic o phs : preserves same_objs (record_dynamic o phs).
Proof. revert o. induction phs as [|ph phs IH]; intros o; cbn [record_dynamic]; pres. Qed.
#[local] Hint Resolve objs_record_dynamic : objs.
Lemma objs_load_so o fd : preserves same_objs (load_so o fd).
Proof.
  unfold load_so, map_object. pres. apply preserves_for_each; [typeclasses eauto|].
  intros. apply objs_map_segment.
Qed.
Lemma objs_try_dirs ds nm po : preserves same_objs (try_dirs ds nm po).
Proof. induction ds as [|d ds IH]; cbn [try_dirs]; unfold try_dir; pres. Qed.

Lemma objs_symbol_value o sym : preserves same_objs (symbol_value o sym).
Proof. unfold symbol_value. pres. Qed.
#[local] Hint Resolve objs_symbol_value : objs.
Lemma objs_lookup_symbol name : preserves same_objs (lookup_symbol name).
Proof.
  unfold lookup_symbol. pres.
  match goal with |- context [l_objs ?s] => generalize (l_objs s) end.
  intros os. induction os as [|o os IH]; cbn [lookup_objects]; pres.
Qed.
#[local] Hint Resolve objs_lookup_symbol : objs.
Lemma objs_tls_sym_val o i : preserves same_objs (tls_sym_val o i).
Proof. unfold tls_sym_val. pres. Qed.
#[local] Hint Resolve objs_tls_sym_val : objs.
Lemma objs_apply_rela_one o h x r : preserves same_objs (apply_rela_one o h x r).
Proof. unfold apply_rela_one, apply_abs. pres. Qed.
#[local] Hint Resolve objs_apply_rela_one : objs.
Lemma objs_apply_rela o tab n h x : preserves same_objs (apply_rela o tab n h x).
Proof.
  unfold apply_rela. generalize tab. induction (Z.to_nat n) as [|k IH]; intros t;
    cbn [apply_rela_go]; pres.
Qed.
Lemma objs_apply_relr o : preserves same_objs (apply_relr o).
Proof.
  assert (∀ sl b, preserves same_objs (add_base sl b)) as Hadd by (unfold add_base; intros; pres).
  assert (∀ f bm sl b, preserves same_objs (relr_bitmap f bm sl b)) as Hbm.
  { induction f as [|f IH]; intros bm sl b; cbn [relr_bitmap]; pres. }
  unfold apply_relr. pres. generalize (relr o), 0. induction (Z.to_nat (relr_count o)) as [|k IH];
    intros t sl; cbn [relr_go]; pres.
Qed.
Lemma objs_pop c e : preserves same_objs (sleb128_decoder_pop_front c e).
Proof.
  assert (∀ f c v s, preserves same_objs (sleb128_go f c e v s)) as Hgo; [|apply Hgo].
  induction f as [|f IH]; intros cu v s; cbn [sleb128_go]; pres.
Qed.
#[local] Hint Resolve objs_apply_rela objs_apply_relr objs_pop : objs.
Lemma objs_pop_if b c e d : preserves same_objs (pop_if b c e d).
Proof. unfold pop_if. pres. Qed.
#[local] Hint Resolve objs_pop_if : objs.
Lemma objs_members n o h x f d cur e off inf a :
  preserves same_objs (aps2_members n o h x f d cur e off inf a).
Proof.
  revert cur off inf a. induction n as [|n IH]; intros cur off inf a; cbn [aps2_members]; pres.
Qed.
#[local] Hint Resolve objs_members : objs.
Lemma objs_groups n o h x idx num cur e off inf a :
  preserves same_objs (aps2_groups n o h x idx num cur e off inf a).
Proof.
  revert idx cur off inf a. induction n as [|n IH]; intros idx cur off inf a;
    cbn [aps2_groups]; pres.
Qed.
#[local] Hint Resolve objs_groups : objs.
Lemma objs_relocate_object o h x : preserves same_objs (relocate_object o h x).
Proof. unfold relocate_object, apply_android_rela. pres. Qed.
End SameObjsFun.
#[export] Hint Resolve objs_lnk_puts objs_puts objs_hex objs_FATAL objs_read_at objs_load_so
  objs_try_dirs objs_lookup_symbol objs_relocate_object : objs.

(** ** The names of an object survive its loading *)

Definition same_names (o o' : Object) : Prop := soname o' = soname o ∧ path o' = path o.

Lemma dyn_switch_names o st tag f v : dyn_switch o st tag = Some f → same_names o (f v).1.
Proof.
  unfold dyn_switch. intros Hf.
  repeat (case_match; [simplify_eq; simpl; try case_match; done|]). simplify_eq.
Qed.

Lemma parse_dynamic_go_names fuel m a o st o' st' :
  parse_dynamic_go fuel m a o st = Some (o', st') → same_names o o'.
Proof.
  revert a o st. induction fuel as [|fuel IH]; intros a o st Hp; [done|]. cbn [parse_dynamic_go] in Hp.
  apply bind_Some in Hp as (tag & _ & Hp). case_match; [by simplify_eq|].
  destruct (dyn_switch o st tag) as [f|] eqn:Ef; [|by apply IH in Hp].
  apply bind_Some in Hp as (v & _ & Hp). destruct (f v) as [o1 st1] eqn:Ev.
  apply (dyn_switch_names _ _ _ _ v) in Ef. rewrite Ev in Ef. apply IH in Hp.
  unfold same_names in *. simpl in *. intuition congruence.
Qed.

Lemma parse_dynamic_names m o a o' : parse_dynamic m o a = Some o' → same_names o o'.
Proof.
  unfold parse_dynamic. intros Hp. apply bind_Some in Hp as ([o1 st1] & Hp & Ho).
  apply parse_dynamic_go_names in Hp. case_match; simplify_eq; done.
Qed.

Section Names.
Context `{Platform}.

(** Every result of [m] is named like [o]. *)
Definition named_like (o : Object) (m : L Object) : Prop :=
  ∀ s o' s', m s = Done o' s' → same_names o o'.

Lemma named_bind {A} o (m : L A) (f : A → L Object) :
  (∀ a, named_like o (f a)) → named_like o (m ≫= f).
Proof. intros Hf s o' s' Hm. apply bind_Done in Hm as (a & s1 & _ & Hm). by eapply Hf. Qed.

Lemma named_FATAL o msg : named_like o (FATAL msg).
Proof.
  intros s o' s' Hf. apply bind_Done in Hf as (? & ? & _ & Hf). done.
Qed.

Lemma named_record_dynamic o phs : named_like o (record_dynamic o phs).
Proof.
  revert o. induction phs as [|ph phs IH]; intros o s o' s' Hr; cbn [record_dynamic] in Hr.
  { by injection Hr as <- <-. }
  case_match.
  - apply bind_Done in Hr as (o1 & s1 & Hp & Hr). apply IH in Hr.
    unfold rd, get, lift, mbind, M_bind in Hp. case_match; [|done]. simplify_eq.
    apply parse_dynamic_names in H1. unfold same_names in *. intuition congruence.
  - case_match; [|by eapply IH]. apply IH in Hr. exact Hr.
Qed.

Lemma named_load_so o fd : named_like o (load_so o fd).
Proof.
  unfold load_so, map_object. apply named_bind. intros [eb|]; [|apply named_FATAL].
  cbv zeta. case_match; [apply named_FATAL|]. apply named_bind. intros [pb|]; [|apply named_FATAL].
  case_match. apply named_bind. intros base. case_match; [apply named_FATAL|].
  apply named_bind. intros _ s o' s' Hr. by apply named_record_dynamic in Hr.
Qed.

(** ** One library *)

Lemma preserves_Done (R : lstate → lstate → Prop) {A} (m : L A) s a s' :
  preserves R m → m s = Done a s' → R s s'.
Proof. intros Hp Hm. specialize (Hp s). by rewrite Hm in Hp. Qed.

(** A computation that registers the object it returns and nothing else. *)
Definition registers (nm : list Z) (m : L Object) : Prop :=
  ∀ s, match m s with
       | Done o s' => (soname o = nm ∧ is_Some (cstr_of (path o))) ∧ l_objs s' = l_objs s ++ [o]
       | Exited _ s' => same_objs s s'
       | Fault | OutOfFuel => True
       end.

Lemma registers_bind {A} nm (m : L A) (f : A → L Object) :
  preserves same_objs m → (∀ a, registers nm (f a)) → registers nm (m ≫= f).
Proof.
  intros Hm Hf s. specialize (Hm s). unfold mbind, M_bind, same_objs in *.
  destruct (m s) as [a s1|c s1| |]; try done. specialize (Hf a s1).
  destruct (f a s1) as [o s2|c s2| |]; try done; unfold same_objs in *; by rewrite <- Hm.
Qed.

Lemma registers_register nm o :
  soname o = nm → is_Some (cstr_of (path o)) → registers nm (register o ≫= λ _, mret o).
Proof. by intros Ho Hp s. Qed.

Lemma lnk_strcpy_inv d b r :
  lnk_strcpy d b = Some r → ∃ x, cstr_of b = Some x ∧ cstr_of r = Some x.
Proof.
  revert d r. induction b as [|c b IH]; intros [|y d] r Hr; simpl in Hr; try done.
  destruct (Z.eqb_spec c 0) as [->|Hc].
  - injection Hr as <-. by exists [].
  - apply bind_Some in Hr as (r' & Hr & [= <-]). destruct (IH _ _ Hr) as (x & Hs & Hx).
    exists (c :: x). split; (apply cstr_of_cons; right; eauto).
Qed.

Lemma lift_Done {A} (x : option A) (s : lstate) a s' : lift x s = Done a s' → x = Some a ∧ s' = s.
Proof. unfold lift. destruct x; [|done]. by intros [= <- <-]. Qed.

(** What a search returns is a terminated path. *)
Lemma try_dirs_path ds nm po s q fd s' :
  try_dirs ds nm po s = Done (Some (q, fd)) s' → is_Some (cstr_of q).
Proof.
  revert s. induction ds as [|d ds IH]; intros s Ht; [done|]. cbn [try_dirs] in Ht.
  apply bind_Done in Ht as ([[q1 fd1]|] & s1 & Ht & Hr); [|by eapply IH].
  injection Hr as -> -> ->. unfold try_dir in Ht.
  do 4 (apply bind_Done in Ht as (? & ? & [_ ->]%lift_Done & Ht)).
  apply bind_Done in Ht as (fd0 & s2 & _ & Ht). case_match; [|done].
  apply bind_Done in Ht as (q2 & s3 & [Hq _]%lift_Done & Ht). injection Ht as -> _ _.
  apply lnk_strcpy_inv in Hq as (w & _ & Hw). by exists w.
Qed.

Ltac regs := repeat (apply registers_bind; [solve [pres]|intros ?]).

Lemma phantom_registers msg rest o name :
  is_Some (cstr_of (path o)) → registers (soname o) (phantom msg rest o name).
Proof.
  intros Hp. unfold phantom. regs. by apply registers_register.
Qed.

Lemma load_found_registers o fd name :
  is_Some (cstr_of (path o)) → registers (soname o) (load_found o fd name).
Proof.
  intros Hp. unfold load_found. case_match; [by apply phantom_registers|].
  intros s. unfold mbind at 1, M_bind at 1. pose proof (objs_load_so o fd s) as Hobj.
  destruct (load_so o fd s) as [o1 s1|c s1| |] eqn:Eo; try done.
  apply named_load_so in Eo as [Eo Ep]. cbv beta iota in Hobj.
  match goal with |- match ?m s1 with _ => _ end =>
    assert (registers (soname o) m) as Hreg; [|specialize (Hreg s1)] end.
  { regs. apply registers_register; [done|by rewrite Ep]. }
  unfold same_objs in *. case_match; try done; by rewrite <- Hobj.
Qed.

Lemma load_object_registers o name :
  is_Some (cstr_of (path o)) → registers (soname o) (load_object o name).
Proof.
  intros Hp. unfold load_object. apply registers_bind; [pres|].
  intros []; [by apply phantom_registers|]. intros s. unfold mbind at 1, M_bind at 1.
  pose proof (objs_try_dirs search_dirs name (path o) s) as Hobj.
  destruct (try_dirs search_dirs name (path o) s) as [[[p fd]|] s1|c s1| |] eqn:Et; try done;
    cbv beta iota in Hobj; unfold same_objs in Hobj.
  - pose proof (load_found_registers (with_path o p) fd name (try_dirs_path _ _ _ _ _ _ _ Et) s1) as Hl.
    unfold same_objs in *. rewrite Hobj in Hl. exact Hl.
  - pose proof (phantom_registers "[linker64] cannot find: " (" (registering phantom)" +:+ nl) o name
      Hp s1) as Hl.
    unfold same_objs in *. rewrite Hobj in Hl. exact Hl.
Qed.

(** The object a name starts from. *)
Lemma zero_path nm : is_Some (cstr_of (path (with_soname object_zero nm))).
Proof. by eexists. Qed.
End Names.

(** ** The object table *)

(** The name of an object as a string. *)
Definition obj_name (o : Object) : option (list Z) := cstr_of (soname o).

(** The objects have names, all different, and fit the array. *)
Record table_ok (os : list Object) : Prop := {
  to_named : Forall (λ o, is_Some (obj_name o)) os;
  to_apart : NoDup (obj_name <$> os);
  to_size : (length os <= MAX_OBJECTS)%nat
}.

Lemma find_soname_None os name x :
  cstr_of name = Some x → find_soname os name = Some None → Some x ∉ obj_name <$> os.
Proof.
  intros Hx. induction os as [|o os IH]; intros Hf; simpl; [by intros ?%elem_of_nil|].
  cbn [find_soname] in Hf. apply bind_Some in Hf as (r & Hr & Hf).
  destruct (Z.eqb_spec r 0) as [->|Hr0]; [done|]. apply bind_Some in Hf as ([i|] & Hi & Hf); [done|].
  intros [Ho|Ho]%elem_of_cons; [|by apply IH].
  apply Hr0. pose proof (proj2 (lnk_strcmp_eq_iff _ _ _ _ (eq_sym Ho) Hx) eq_refl). congruence.
Qed.

Lemma find_soname_Some os name i :
  find_soname os name = Some (Some i) → ∃ o, os !! i = Some o ∧ lnk_strcmp (soname o) name = Some 0.
Proof.
  revert i. induction os as [|o os IH]; intros i Hf; [done|].
  cbn [find_soname] in Hf. apply bind_Some in Hf as (r & Hr & Hf).
  destruct (Z.eqb_spec r 0) as [->|Hr0].
  - injection Hf as <-. exists o. done.
  - apply bind_Some in Hf as ([j|] & Hj & Hf); [|done]. injection Hf as <-. by apply IH.
Qed.

Lemma table_ok_snoc os o name :
  table_ok os → (length os < MAX_OBJECTS)%nat → find_soname os name = Some None →
  lnk_strcpy (replicate 128 0) name = Some (soname o) → table_ok (os ++ [o]).
Proof.
  intros [Hn Ha Hs] Hlt Hf Hc. apply lnk_strcpy_inv in Hc as (x & Hx & Ho). constructor.
  - apply Forall_app_2; [done|]. constructor; [by exists x|constructor].
  - rewrite fmap_app. apply NoDup_app. split_and!; [done| |apply NoDup_singleton].
    intros n Hin Hn'. simpl in Hn'. apply list_elem_of_singleton in Hn' as ->.
    unfold obj_name in Hin at 1. rewrite Ho in Hin. by apply (find_soname_None _ _ _ Hx Hf).
  - rewrite length_app. simpl. lia.
Qed.

Section Table.
Context `{Platform}.

(** The table only grows, and stays in order. *)
Definition grows (s s' : lstate) : Prop :=
  l_objs s `prefix_of` l_objs s' ∧ (table_ok (l_objs s) → table_ok (l_objs s')).
#[export] Instance grows_preorder : PreOrder grows.
Proof.
  split; [by intros s; split; [exists []; rewrite app_nil_r|]|].
  intros a b c [Hab Hab'] [Hbc Hbc']. split; [by etransitivity|auto].
Qed.

Lemma same_objs_grows {A} (m : L A) : preserves same_objs m → preserves grows m.
Proof.
  intros Hm s. specialize (Hm s). unfold same_objs in Hm.
  destruct (m s) as [a s'|c s'| |]; try done; (split; [by rewrite Hm|by rewrite Hm]).
Qed.

Lemma load_needed_so_grows fuel name : preserves grows (load_needed_so fuel name).
Proof.
  revert name. induction fuel as [|fuel IH]; intros name; [done|]. cbn [load_needed_so]. intros s.
  unfold get, mbind, M_bind, lift.
  destruct (find_soname (l_objs s) name) as [[i|]|] eqn:Ef; [done| |done].
  case_bool_decide as Hfull.
  { by apply (same_objs_grows (FATAL "too many objects") (objs_FATAL _)). }
  unfold load_one at 1. unfold mbind at 1, M_bind at 1, lift at 1.
  destruct (lnk_strcpy (soname object_zero) name) as [nm|] eqn:Enm; [|done].
  pose proof (load_object_registers _ name (zero_path nm) s) as Hreg.
  destruct (load_object _ name s) as [o s1|c s1| |]; try done.
  2: { split; [by rewrite Hreg|by rewrite Hreg]. }
  destruct Hreg as [[Hnm _] Ho].
  assert (grows s s1) as Hg1.
  { split; [rewrite Ho; by apply prefix_app_r|]. rewrite Ho. intros Hok.
    apply (table_ok_snoc _ _ name); [done|unfold g_nobjects in Hfull; lia|done|].
    by rewrite Hnm. }
  destruct (negb (strtab o =? 0)); [|exact Hg1].
  match goal with |- match ?m s1 with _ => _ end => assert (preserves grows m) as Hm end.
  { apply preserves_for_each; [typeclasses eauto|]. intros off.
    apply preserves_bind; [typeclasses eauto| |apply IH]. apply same_objs_grows, objs_rd. }
  specialize (Hm s1). case_match; try done; by etransitivity.
Qed.

(** A name that is not known gets the next free slot. *)
Lemma load_needed_so_slot fuel name s s' :
  find_soname (l_objs s) name = Some None → load_needed_so fuel name s = Done () s' →
  ∃ o rest, l_objs s' = l_objs s ++ o :: rest ∧ lnk_strcmp (soname o) name = Some 0 ∧
    is_Some (cstr_of (path o)).
Proof.
  intros Hf Hl. destruct fuel as [|fuel]; [done|]. cbn [load_needed_so] in Hl.
  apply bind_Done in Hl as (s0 & s00 & [= <- <-] & Hl). rewrite Hf in Hl.
  apply bind_Done in Hl as (k & s0 & [= <- <-] & Hl). case_bool_decide.
  { apply bind_Done in Hl as (? & ? & _ & Hl). done. }
  apply bind_Done in Hl as (o & s1 & Ho & Hl).
  unfold load_one in Ho. apply bind_Done in Ho as (nm & s0 & Hnm & Ho).
  unfold lift in Hnm. destruct (lnk_strcpy (soname object_zero) name) as [l|] eqn:Ec; [|done].
  injection Hnm as <- <-.
  pose proof (load_object_registers _ name (zero_path l) s) as Hreg.
  rewrite Ho in Hreg. destruct Hreg as [[Hnm Hpath] Ho1]. cbn [soname with_soname] in Hnm.
  assert (grows s1 s') as [[rest Hrest] _].
  { case_match; [|by injection Hl as <-]. eapply preserves_Done; [|exact Hl].
    apply preserves_for_each; [typeclasses eauto|]. intros off.
    apply preserves_bind; [typeclasses eauto| |intros; apply load_needed_so_grows].
    apply same_objs_grows, objs_rd. }
  exists o, rest. rewrite Hrest, Ho1, <- app_assoc. split; [done|]. split; [|done].
  rewrite Hnm. apply lnk_strcpy_inv in Ec as (x & Hx & Hl'). by eapply lnk_strcmp_eq_iff.
Qed.

(** C20. Loading a library keeps every object that was loaded, at its index,
    and keeps the table in order: names all different, at most 1024 objects.
    When it returns, an object with the name is in the table. *)
Theorem load_needed_so_table fuel name (s : lstate) :
  table_ok (l_objs s) →
  match load_needed_so fuel name s with
  | Done _ s' => l_objs s `prefix_of` l_objs s' ∧ table_ok (l_objs s') ∧
      ∃ o, o ∈ l_objs s' ∧ lnk_strcmp (soname o) name = Some 0
  | Exited _ s' => l_objs s `prefix_of` l_objs s' ∧ table_ok (l_objs s')
  | Fault | OutOfFuel => True
  end.
Proof.
  intros Hok. pose proof (load_needed_so_grows fuel name s) as Hg.
  destruct (load_needed_so fuel name s) as [[] s'|c s'| |] eqn:El; try done;
    destruct Hg as [Hp Hok']; split_and!; auto.
  destruct fuel as [|fuel]; [done|].
  destruct (find_soname (l_objs s) name) as [[i|]|] eqn:Ef.
  - apply find_soname_Some in Ef as (o & Hi & Hc). exists o. split; [|done].
    destruct Hp as [rest ->]. apply list_elem_of_lookup. exists i. by apply lookup_app_l_Some.
  - destruct (load_needed_so_slot _ _ _ _ Ef El) as (o & rest & -> & Hc & _). exists o. split; [|done].
    set_solver.
  - cbn [load_needed_so] in El. apply bind_Done in El as (? & ? & [= <- <-] & El).
    by rewrite Ef in El.
Qed.
End Table.

(** ** Every load ends *)

(** Split a computation into steps that have fuel. *)
Create HintDb fuel.
Ltac fuel_step :=
  first
    [ solve [auto with fuel nocore]
    | done
    | apply has_fuel_bind; [|intros ? ? ?]
    | progress cbv zeta
    | case_match ].
Ltac fuels := repeat fuel_step.

#[export] Hint Resolve rd_fuel wr_fuel lift_fuel ret_fuel lookup_symbol_fuel apply_rela_one_fuel : fuel.

Section Fuel.
Context `{Platform}.

Lemma sys_read_fuel fd n s : has_fuel (sys_read fd n) s.
Proof. unfold has_fuel, sys_read, get, put, mbind, M_bind. by destruct (k_read _ _ _) as [[] ?]. Qed.
Lemma sys_lseek_fuel fd n s : has_fuel (sys_lseek fd n) s.
Proof. unfold has_fuel, sys_lseek, get, put, mbind, M_bind. by destruct (k_lseek _ _ _). Qed.
Lemma sys_openat_fuel p s : has_fuel (sys_openat p) s.
Proof. unfold has_fuel, sys_openat, get, put, mbind, M_bind. by destruct (k_openat _ _). Qed.
Lemma sys_mmap_fuel a n p f fd o s : has_fuel (sys_mmap a n p f fd o) s.
Proof.
  unfold has_fuel, sys_mmap, get, put, mbind, M_bind. by destruct (k_mmap _ _ _ _ _ _ _ _) as [[] ?].
Qed.
#[local] Hint Resolve sys_read_fuel sys_lseek_fuel sys_openat_fuel sys_mmap_fuel : fuel.
Lemma lnk_puts_fuel b s : has_fuel (lnk_puts b) s.
Proof. unfold lnk_puts. fuels. Qed.
Lemma puts_fuel b s : has_fuel (puts b) s.
Proof. apply lnk_puts_fuel. Qed.
Lemma hex_fuel v s : has_fuel (lnk_print_hex v) s.
Proof. apply lnk_puts_fuel. Qed.
#[local] Hint Resolve lnk_puts_fuel puts_fuel hex_fuel : fuel.
Lemma FATAL_fuel {A} msg s : has_fuel (FATAL msg : L A) s.
Proof. unfold FATAL. fuels. Qed.
#[local] Hint Resolve FATAL_fuel : fuel.

Lemma read_at_go_fuel f fd n acc s : (Z.to_nat n <= f)%nat → has_fuel (read_at_go f fd n acc) s.
Proof.
  revert n acc s. induction f as [|f IH]; intros n acc s Hf; cbn [read_at_go].
  { by rewrite (proj2 (Z.leb_le n 0)) by lia. }
  destruct (Z.leb_spec n 0); [done|]. apply has_fuel_bind; [apply sys_read_fuel|].
  intros [r bs] s1 _. destruct (Z.leb_spec r 0); [done|]. apply IH. lia.
Qed.
Lemma read_at_fuel fd off n s : has_fuel (read_at fd off n) s.
Proof. unfold read_at. fuels. by apply read_at_go_fuel. Qed.
#[local] Hint Resolve read_at_fuel : fuel.
Lemma for_each_fuel {A} (f : A → L ()) l s : (∀ x s, has_fuel (f x) s) → has_fuel (for_each f l) s.
Proof.
  intros Hf. revert s. induction l as [|x l IH]; intros s; [done|]. cbn [for_each].
  apply has_fuel_bind; [apply Hf|intros; apply IH].
Qed.
Lemma map_segment_fuel b fd ph s : has_fuel (map_segment b fd ph) s.
Proof. unfold map_segment. fuels. Qed.
Lemma record_dynamic_fuel o phs s : has_fuel (record_dynamic o phs) s.
Proof.
  revert o s. induction phs as [|ph phs IH]; intros o s; cbn [record_dynamic]; fuels.
Qed.
#[local] Hint Resolve record_dynamic_fuel : fuel.
Lemma load_so_fuel o fd s : has_fuel (load_so o fd) s.
Proof.
  unfold load_so, map_object. fuels. apply for_each_fuel. intros. apply map_segment_fuel.
Qed.
#[local] Hint Resolve load_so_fuel : fuel.
Lemma try_dirs_fuel ds nm po s : has_fuel (try_dirs ds nm po) s.
Proof. revert s. induction ds as [|d ds IH]; intros s; cbn [try_dirs]; unfold try_dir; fuels. Qed.
#[local] Hint Resolve try_dirs_fuel : fuel.
Lemma load_object_fuel o name s : has_fuel (load_object o name) s.
Proof. unfold load_object, load_found, phantom. fuels. Qed.

Lemma load_list_fuel fuel o offs s :
  (∀ name s, (MAX_OBJECTS - length (l_objs s) < fuel)%nat → has_fuel (load_needed_so fuel name) s) →
  (MAX_OBJECTS - length (l_objs s) < fuel)%nat →
  has_fuel (for_each (λ off, n ← rd (λ m, mem_cstr m (strtab o + off)); load_needed_so fuel n) offs) s.
Proof.
  intros IH. revert s. induction offs as [|off offs IHo]; intros s1 Hf1; [done|].
  cbn [for_each]. apply has_fuel_bind.
  - apply has_fuel_bind; [apply rd_fuel|]. intros n s2 Hr. apply IH.
    pose proof (preserves_Done _ _ _ _ _ (objs_rd _) Hr) as Hs. by rewrite Hs.
  - intros [] s2 Hl. apply IHo.
    assert (grows s1 s2) as [Hp _].
    { eapply preserves_Done; [|exact Hl]. apply preserves_bind; [typeclasses eauto| |].
      - apply same_objs_grows, objs_rd.
      - intros n. apply load_needed_so_grows. }
    apply prefix_length in Hp. lia.
Qed.

(** Every call that loads a library has registered one. *)
Lemma load_needed_so_fuel fuel name s :
  (MAX_OBJECTS - length (l_objs s) < fuel)%nat → has_fuel (load_needed_so fuel name) s.
Proof.
  revert name s. induction fuel as [|fuel IH]; intros name s Hf; [lia|]. cbn [load_needed_so].
  unfold has_fuel, get, mbind, M_bind, lift.
  destruct (find_soname (l_objs s) name) as [[i|]|]; [done| |done].
  case_bool_decide as Hfull; [apply FATAL_fuel|]. unfold g_nobjects in Hfull.
  unfold load_one at 1. unfold mbind at 1, M_bind at 1, lift at 1.
  destruct (lnk_strcpy (soname object_zero) name) as [nm|]; [|done].
  pose proof (load_object_registers _ name (zero_path nm) s) as Hreg.
  pose proof (load_object_fuel (with_soname object_zero nm) name s) as Hfu.
  unfold has_fuel in Hfu.
  destruct (load_object _ name s) as [o s1|c s1| |]; try done.
  destruct Hreg as [_ Ho]. destruct (negb (strtab o =? 0)); [|done].
  assert (MAX_OBJECTS - length (l_objs s1) < fuel)%nat as Hf1.
  { rewrite Ho, length_app. simpl. lia. }
  by apply load_list_fuel.
Qed.

(** ** Every [dlopen] ends *)

Lemma apply_relr_fuel o s : has_fuel (apply_relr o) s.
Proof.
  assert (∀ sl b s, has_fuel (add_base sl b) s) as Hadd by (intros; unfold add_base; fuels).
  assert (∀ f bm sl b s, 0 <= bm < 2 ^ Z.of_nat f → has_fuel (relr_bitmap f bm sl b) s) as Hbm.
  { induction f as [|f IH]; intros bm sl b s' Hb; cbn [relr_bitmap].
    - rewrite (proj2 (Z.eqb_eq bm 0)); [done|]. change (2 ^ Z.of_nat 0) with 1 in Hb. lia.
    - destruct (bm =? 0); [done|]. apply has_fuel_bind; [fuels|]. intros [] s1 _. apply IH.
      rewrite Z.shiftr_div_pow2 by lia. change (2 ^ 1) with 2.
      rewrite Nat2Z.inj_succ, Z.pow_succ_r in Hb by lia. zdm. }
  assert (∀ n t sl s, has_fuel (relr_go n t sl (load_base o)) s) as Hgo.
  { induction n as [|k IH]; intros t sl s'; [done|]. cbn [relr_go].
    apply has_fuel_bind; [apply rd_fuel|]. intros e s1 He. case_match.
    - apply has_fuel_bind; [apply Hadd|intros; apply IH].
    - apply has_fuel_bind; [|intros; apply IH]. apply Hbm.
      pose proof (u64_range e) as Hu. unfold in_u64 in Hu. rewrite Z.shiftr_div_pow2 by lia.
      change (2 ^ 1) with 2. change (2 ^ Z.of_nat 63) with 9223372036854775808. zdm. }
  unfold apply_relr. case_match; [done|apply Hgo].
Qed.
Lemma apply_rela_fuel o tab n h x s : has_fuel (apply_rela o tab n h x) s.
Proof.
  unfold apply_rela. revert tab s. induction (Z.to_nat n) as [|k IH]; intros t s; [done|].
  cbn [apply_rela_go]. fuels.
Qed.
Lemma android_fuel o p n h x s : has_fuel (apply_android_rela o p n h x) s.
Proof.
  unfold apply_android_rela. case_match; [done|]. apply has_fuel_bind; [apply rd_fuel|].
  intros sig s1 _. case_match; [apply FATAL_fuel|].
  apply (android_body_fuel o p n h x).
Qed.
Lemma relocate_object_fuel o h x s : has_fuel (relocate_object o h x) s.
Proof.
  unfold relocate_object. apply has_fuel_bind; [apply apply_relr_fuel|intros ? ? _].
  apply has_fuel_bind; [case_match; [apply android_fuel|done]|intros ? ? _].
  apply has_fuel_bind; [case_match; [apply apply_rela_fuel|done]|intros ? ? _].
  case_match; [apply apply_rela_fuel|done].
Qed.
Lemma relocate_from_fuel n i h x s : has_fuel (relocate_from n i h x) s.
Proof.
  revert i s. induction n as [|n IH]; intros i s; [done|]. cbn [relocate_from].
  apply has_fuel_bind; [done|intros]. apply has_fuel_bind; [apply lift_fuel|intros].
  apply has_fuel_bind; [apply relocate_object_fuel|intros]. apply IH.
Qed.

(** Every [dlopen] ends: whatever the files, the dependencies (cycles
    included) and the relocations are, the recursive loading stays within the
    fuel 1025, one call per free slot of the object table and one more. *)
Theorem lnk_dlopen_has_fuel filename flags (s : lstate) : has_fuel (lnk_dlopen filename flags) s.
Proof.
  unfold lnk_dlopen. do 3 (apply has_fuel_bind; [apply puts_fuel || apply lnk_puts_fuel|intros ? ? _]).
  destruct filename as [f|]; [|done]. apply has_fuel_bind; [apply lift_fuel|intros].
  apply has_fuel_bind; [done|intros]. apply has_fuel_bind; [apply lift_fuel|intros known ? _].
  destruct known; [done|]. cbv zeta. apply has_fuel_bind.
  { apply load_needed_so_fuel. unfold load_fuel, MAX_OBJECTS. lia. }
  intros. apply has_fuel_bind; [done|intros]. apply has_fuel_bind; [apply relocate_from_fuel|intros].
  apply has_fuel_bind; [done|intros]. apply has_fuel_bind; [apply lift_fuel|done].
Qed.
End Fuel.

(** ** Opening again *)

Lemma find_open_None os f b :
  find_open os f b = Some None →
  Forall (λ o, ∃ x y z, lnk_strcmp (soname o) f = Some x ∧ x ≠ 0 ∧ lnk_strcmp (path o) f = Some y ∧
    y ≠ 0 ∧ lnk_strcmp (soname o) b = Some z ∧ z ≠ 0) os.
Proof.
  induction os as [|o os IH]; intros Hf; [constructor|]. cbn [find_open] in Hf.
  apply bind_Some in Hf as (x & Hx & Hf). destruct (Z.eqb_spec x 0); [done|].
  apply bind_Some in Hf as (y & Hy & Hf). destruct (Z.eqb_spec y 0); [done|].
  apply bind_Some in Hf as (z & Hz & Hf). destruct (Z.eqb_spec z 0); [done|].
  apply bind_Some in Hf as ([i|] & Hi & Hf); [done|]. constructor; [|by apply IH].
  by exists x, y, z.
Qed.

Lemma find_open_None_soname os f b : find_open os f b = Some None → find_soname os b = Some None.
Proof.
  intros Hf%find_open_None. induction Hf as [|o os (x & y & z & _ & _ & _ & _ & Hz & Hz0) _ IH]; [done|].
  cbn [find_soname]. rewrite Hz. obind. rewrite (proj2 (Z.eqb_neq z 0)) by done. by rewrite IH.
Qed.

Lemma find_open_hit os o rest f b x y :
  find_open os f b = Some None → cstr_of f = Some x → cstr_of b = Some y →
  cstr_of (soname o) = Some y → is_Some (cstr_of (path o)) →
  find_open (os ++ o :: rest) f b = Some (Some (length os)).
Proof.
  intros Hf%find_open_None Hx Hy Ho [p Hp].
  induction Hf as [|q os (r1 & r2 & r3 & E1 & H1 & E2 & H2 & E3 & H3) _ IH]; cbn [app find_open].
  - destruct (lnk_strcmp_total _ _ _ _ Ho Hx) as [r1 ->]. obind. case_match; [done|].
    destruct (lnk_strcmp_total _ _ _ _ Hp Hx) as [r2 ->]. obind. case_match; [done|].
    by rewrite (proj2 (lnk_strcmp_eq_iff _ _ _ _ Ho Hy) eq_refl).
  - rewrite E1. obind. rewrite (proj2 (Z.eqb_neq _ _) H1), E2. obind.
    rewrite (proj2 (Z.eqb_neq _ _) H2), E3. obind. rewrite (proj2 (Z.eqb_neq _ _) H3). by rewrite IH.
Qed.

Lemma find_soname_hit os o rest b y :
  find_soname os b = Some None → cstr_of b = Some y → cstr_of (soname o) = Some y →
  find_soname (os ++ o :: rest) b = Some (Some (length os)).
Proof.
  intros Hf Hy Ho. induction os as [|q os IH]; cbn [app find_soname] in *.
  - by rewrite (proj2 (lnk_strcmp_eq_iff _ _ _ _ Ho Hy) eq_refl).
  - apply bind_Some in Hf as (r & -> & Hf). obind. destruct (r =? 0); [done|].
    apply bind_Some in Hf as ([i|] & Hi & Hf); [done|]. by rewrite (IH Hi).
Qed.

Section Dlopen.
Context `{Platform}.

Lemma lnk_puts_run b c (s : lstate) :
  cstr_of b = Some c → lnk_puts b s = Done () (log (EvWrite 2 c) s).
Proof. intros Hc. unfold lnk_puts, lift, mbind, M_bind. by rewrite Hc. Qed.

Lemma lnk_puts_inv b (s : lstate) u s' :
  lnk_puts b s = Done u s' → ∃ c, cstr_of b = Some c ∧ s' = log (EvWrite 2 c) s.
Proof.
  intros Hp. apply bind_Done in Hp as (c & s1 & [Hc ->]%lift_Done & Hp). exists c.
  split; [done|]. by injection Hp.
Qed.

Lemma objs_relocate_from n i h x : preserves same_objs (relocate_from n i h x).
Proof. revert i. induction n as [|n IH]; intros i; cbn [relocate_from]; pres. Qed.

Lemma basename_terminated base p r x :
  basename_go base p = Some r → cstr_of base = Some x → is_Some (cstr_of r).
Proof.
  revert base x. induction p as [|c p IH]; intros base x Hr Hx; [done|]. cbn [basename_go] in Hr.
  destruct (Z.eqb_spec c 0); [injection Hr as <-; by exists x|].
  destruct (c =? 47); [|by eapply IH].
  assert (∃ y, cstr_of p = Some y) as [y Hy]; [|by eapply IH].
  clear - Hr. revert Hr. generalize p at 1. intros b. revert b.
  induction p as [|d p IH]; intros b Hr; [done|]. cbn [basename_go] in Hr.
  destruct (Z.eqb_spec d 0) as [->|Hd]; [by exists []|].
  apply IH in Hr as [y Hy]. exists (d :: y). apply cstr_of_cons. right. eauto.
Qed.

(** Opening a library again gives the handle of the first time; nothing
    is loaded or relocated by the second call, which only prints. *)
Theorem lnk_dlopen_idempotent filename flags flags' i (s s' : lstate) :
  lnk_dlopen (Some filename) flags s = Done (Hobject i) s' →
  ∃ c1 c2 c3, lnk_dlopen (Some filename) flags' s' =
    Done (Hobject i) (log (EvWrite 2 c3) (log (EvWrite 2 c2) (log (EvWrite 2 c1) s'))).
Proof.
  intros Hd. unfold lnk_dlopen in Hd. cbn [default] in Hd. unfold puts in Hd.
  apply bind_Done in Hd as (? & s1 & (c1 & Hc1 & ->)%lnk_puts_inv & Hd).
  apply bind_Done in Hd as (? & s2 & (c2 & Hc2 & ->)%lnk_puts_inv & Hd).
  apply bind_Done in Hd as (? & s3 & (c3 & Hc3 & ->)%lnk_puts_inv & Hd).
  set (s0 := log _ _) in Hd.
  apply bind_Done in Hd as (base & s4 & [Hb ->]%lift_Done & Hd).
  apply bind_Done in Hd as (? & ? & [= <- <-] & Hd).
  apply bind_Done in Hd as (known & s5 & [Hk ->]%lift_Done & Hd).
  exists c1, c2, c3. unfold lnk_dlopen. cbn [default]. unfold puts.
  rewrite (bind_step _ _ _ _ _ (lnk_puts_run _ _ s' Hc1)).
  rewrite (bind_step _ _ _ _ _ (lnk_puts_run _ _ _ Hc2)).
  rewrite (bind_step _ _ _ _ _ (lnk_puts_run _ _ _ Hc3)).
  rewrite Hb. unfold mbind, M_bind, lift, get. cbn [l_objs log].
  assert (find_open (l_objs s') filename base = Some (Some i)) as ->; [|done].
  destruct known as [j|]; [by injection Hd as <- <-|].
  apply bind_Done in Hd as ([] & s6 & Hl & Hd). apply bind_Done in Hd as (? & ? & [= <- <-] & Hd).
  apply bind_Done in Hd as (? & s7 & Hr & Hd). apply bind_Done in Hd as (? & ? & [= <- <-] & Hd).
  apply bind_Done in Hd as (found & ? & [Hf ->]%lift_Done & Hd). injection Hd as Hi <-.
  assert (l_objs s7 = l_objs s6) as H76.
  { exact (preserves_Done _ _ _ _ _ (objs_relocate_from _ _ _ _) Hr). }
  destruct (load_needed_so_slot _ _ _ _ (find_open_None_soname _ _ _ Hk) Hl)
    as (o & rest & Hos & Hcmp & Hpath).
  change (l_objs s0) with (l_objs s) in *.
  unfold id in *. destruct (basename_terminated _ _ _ _ Hb Hc2) as [y Hy].
  assert (cstr_of (soname o) = Some y) as Hso by (by eapply lnk_strcmp_0_inv).
  rewrite H76 in Hf |- *. rewrite Hos in Hf |- *.
  rewrite (find_soname_hit _ _ _ _ _ (find_open_None_soname _ _ _ Hk) Hy Hso) in Hf.
  injection Hf as <-. injection Hi as <-. by eapply find_open_hit.
Qed.
End Dlopen.
