(* ===== verification/LoadMap.v ===== *)
(** * Loading: file reads and mappings

    The interface a kernel's file descriptors satisfy, under which [read_at]
    returns exactly the bytes asked for however the kernel splits them; and
    the system calls of [map_object]: one reservation, and inside it the
    segments, writable while they are filled and never writable and
    executable unless the file asks for it. *)

From S2P Require Import Prelude Machine Elf CString LnkBase LnkToy LnkSymbols.
From S2P Require Import LnkDynamic LnkReloc Aps2 LnkLoad LoadProps.

(** ** Reading a file *)

(** What [lseek] and [read] do on a regular file: [fk_file] is the content and
    the position behind a descriptor. *)
Class FileKernel `{Platform} := {
  fk_file : kstate → Z → option (list Z * Z);
  fk_lseek k fd c p off :
    fk_file k fd = Some (c, p) → 0 <= off →
    ∃ k', k_lseek fd off k = (off, k') ∧ fk_file k' fd = Some (c, off);
  fk_read k fd c p n :
    fk_file k fd = Some (c, p) → 0 <= p → 0 < n →
    ∃ j k', k_read fd n k = (Z.of_nat j, take j (drop (Z.to_nat p) c), k') ∧
      Z.of_nat j <= n ∧ Z.of_nat j <= Z.max 0 (Z.of_nat (length c) - p) ∧
      (p < Z.of_nat (length c) → (0 < j)%nat) ∧
      fk_file k' fd = Some (c, p + Z.of_nat j)
}.

Section Read.
Context `{FileKernel}.

Lemma read_at_go_exact fuel fd c p n acc (s : lstate) :
  fk_file (l_ks s) fd = Some (c, p) → 0 <= p → (Z.to_nat n <= fuel)%nat →
  ∃ k', read_at_go fuel fd n acc s =
    Done (if (n <=? 0) || (p + n <=? Z.of_nat (length c))
          then Some (acc ++ take (Z.to_nat n) (drop (Z.to_nat p) c)) else None) (set_ks k' s).
Proof.
  revert p n acc s. induction fuel as [|fuel IH]; intros p n acc s Hk Hp Hf; cbn [read_at_go];
    destruct (Z.leb_spec n 0) as [Hn|Hn].
  1,3: exists (l_ks s); replace (Z.to_nat n) with 0%nat by lia; rewrite take_0, app_nil_r;
    by destruct s.
  { lia. }
  destruct (fk_read _ _ _ _ n Hk Hp Hn) as (j & k' & Hr & Hjn & Hjl & Hj0 & Hk').
  assert (sys_read fd n s = Done (Z.of_nat j, take j (drop (Z.to_nat p) c)) (set_ks k' s)) as Hs.
  { unfold sys_read, get, put, mbind, M_bind. by rewrite Hr. }
  rewrite (bind_step _ _ _ _ _ Hs). cbn [orb]. destruct (Z.leb_spec (Z.of_nat j) 0) as [Hj|Hj].
  { exists k'. rewrite (proj2 (Z.leb_gt _ _)) by lia. done. }
  destruct (IH (p + Z.of_nat j) (n - Z.of_nat j)
    (acc ++ take (Z.to_nat (Z.of_nat j)) (take j (drop (Z.to_nat p) c))) (set_ks k' s))
    as [k2 Hk2]; [done|lia|lia|].
  exists k2. rewrite Hk2. f_equal.
  replace (p + Z.of_nat j + (n - Z.of_nat j)) with (p + n) by lia.
  assert ((n - Z.of_nat j <=? 0) || (p + n <=? Z.of_nat (length c)) =
          (p + n <=? Z.of_nat (length c))) as ->.
  { destruct (Z.leb_spec (n - Z.of_nat j) 0), (Z.leb_spec (p + n) (Z.of_nat (length c))); try done. lia. }
  clear Hk2. destruct (p + n <=? _); [f_equal|reflexivity]. rewrite <- app_assoc. f_equal.
  rewrite Nat2Z.id, take_take, Nat.min_id.
  replace (Z.to_nat (p + Z.of_nat j)) with (Z.to_nat p + j)%nat by lia.
  rewrite <- drop_drop, take_take_drop. f_equal. lia.
Qed.

(** [read_at] reads exactly the bytes at the offset, whatever short
    reads the kernel makes, and reports a file that ends before them. *)
Theorem read_at_exact fd c p off len (s : lstate) :
  fk_file (l_ks s) fd = Some (c, p) → 0 <= off < 9223372036854775808 → 0 <= len →
  ∃ k', read_at fd off len s =
    Done (if (len =? 0) || (off + len <=? Z.of_nat (length c))
          then Some (take (Z.to_nat len) (drop (Z.to_nat off) c)) else None) (set_ks k' s).
Proof.
  intros Hk Ho Hl. unfold read_at. rewrite s64_small by (words; lia).
  destruct (fk_lseek _ _ _ _ off Hk ltac:(lia)) as (k1 & Hs & Hk1).
  assert (sys_lseek fd off s = Done off (set_ks k1 s)) as Hs'.
  { unfold sys_lseek, get, put, mbind, M_bind. by rewrite Hs. }
  rewrite (bind_step _ _ _ _ _ Hs'). rewrite (proj2 (Z.ltb_ge off 0)) by lia.
  destruct (read_at_go_exact (Z.to_nat len) fd c off len [] (set_ks k1 s)) as [k2 Hk2];
    [done|lia|lia|].
  exists k2. rewrite Hk2. f_equal.
  by replace (len <=? 0) with (len =? 0) by (destruct (Z.eqb_spec len 0), (Z.leb_spec len 0); lia || done).
Qed.
End Read.

(** The concrete kernel is one. *)
#[export] Program Instance toy_file_kernel : FileKernel := {
  fk_file k fd :=
    if 3 <=? fd then Some (toy_content fd k, default 0 (tk_pos k !! fd)) else None
}.
Next Obligation.
  intros k fd c p off Hf Ho. cbn in Hf. destruct (3 <=? fd) eqn:E; [|done]. simplify_eq.
  eexists. split; [done|]. cbn. by rewrite E, lookup_insert_eq.
Qed.
Next Obligation.
  intros k fd c p n Hf Hp Hn. cbn in Hf. destruct (3 <=? fd) eqn:E; [|done].
  injection Hf as Hc Hpos. cbn [k_read toy_platform]. unfold toy_read. rewrite Hc, Hpos.
  eexists (length (take (Z.to_nat (Z.min n 40)) (drop (Z.to_nat p) c))), _.
  split.
  { do 2 f_equal. set (l := drop (Z.to_nat p) c). set (k' := Z.to_nat (Z.min n 40)).
    rewrite <- (take_app_length (take k' l) (drop k' l)) at 1. by rewrite take_drop. }
  rewrite length_take, length_drop. split_and!; try lia.
  cbn. rewrite E, lookup_insert_eq. cbn. f_equal. f_equal. exact Hc.
Qed.

(** ** The mapping of the segments *)

Create HintDb trace.
Ltac trace_step :=
  first
    [ solve [auto with trace nocore]
    | apply preserves_ret; typeclasses eauto
    | apply preserves_exit; typeclasses eauto
    | apply preserves_lift; typeclasses eauto
    | apply preserves_fault
    | apply preserves_fuel
    | apply preserves_bind; [typeclasses eauto| |intros ?]
    | progress cbv zeta
    | case_match ].
Ltac traces := repeat trace_step.

Lemma preserves_for_each_in {S A} (R : S → S → Prop) `{!PreOrder R} (f : A → M S ()) l :
  (∀ x, x ∈ l → preserves R (f x)) → preserves R (for_each f l).
Proof.
  intros Hf. induction l as [|x l IH]; cbn [for_each]; [by apply preserves_ret|].
  apply preserves_bind; [done|apply Hf, list_elem_of_here|].
  intros _. apply IH. intros y Hy. by apply Hf, list_elem_of_further.
Qed.

Section Trace.
Context `{Platform} (P : event → Prop).

(** The calls made from [s] to [s'] all satisfy [P]. *)
Definition adds (s s' : lstate) : Prop := ∃ evs, l_trace s' = evs ++ l_trace s ∧ Forall P evs.
#[export] Instance adds_preorder : PreOrder adds.
Proof.
  split; [by intros s; exists []|]. intros a b c (e1 & H1 & F1) (e2 & H2 & F2).
  exists (e2 ++ e1). split; [by rewrite H2, H1, app_assoc|]. by apply Forall_app_2.
Qed.

Lemma trace_same {A} (m : L A) :
  (∀ s, match m s with Done _ s' | Exited _ s' => l_trace s' = l_trace s | _ => True end) →
  preserves adds m.
Proof.
  intros Hm s. specialize (Hm s). destruct (m s); try done; by (exists []).
Qed.
Lemma trace_rd {A} (f : memory → option A) : preserves adds (rd f).
Proof. apply trace_same. intros s. unfold rd, get, lift, mbind, M_bind. by destruct (f (l_mem s)). Qed.
Lemma trace_wr f : preserves adds (wr f).
Proof. apply trace_same. intros s. unfold wr, get, lift, put, mbind, M_bind. by destruct (f (l_mem s)). Qed.
#[local] Hint Resolve trace_rd trace_wr : trace.
Lemma trace_write fd bs : P (EvWrite fd bs) → preserves adds (sys_write fd bs).
Proof. intros Hp s. exists [EvWrite fd bs]. split; [done|]. by constructor. Qed.
Lemma trace_mprotect a n p : P (EvMprotect a n p) → preserves adds (sys_mprotect a n p).
Proof. intros Hp s. eexists [_]. split; [done|]. by constructor. Qed.
Lemma trace_mmap a n p f fd o : (∀ r, P (EvMmap a n p f fd o r)) → preserves adds (sys_mmap a n p f fd o).
Proof.
  intros Hp s. unfold sys_mmap, get, put, mbind, M_bind.
  destruct (k_mmap _ _ _ _ _ _ _ _) as [[r m] k]. eexists [_]. split; [done|]. by constructor.
Qed.
Lemma trace_FATAL {A} msg : (∀ bs, P (EvWrite 2 bs)) → preserves adds (FATAL msg : L A).
Proof.
  intros Hp. unfold FATAL, puts, lnk_puts, sys_exit. traces. by apply trace_write.
Qed.
Lemma trace_record_dynamic o phs : preserves adds (record_dynamic o phs).
Proof.
  revert o. induction phs as [|ph phs IH]; intros o; cbn [record_dynamic]; traces.
Qed.
End Trace.

(** The segments of a file that do not wrap around the address space. *)
Definition seg_ok (ph : Elf64_Phdr) : Prop :=
  p_type ph = PT_LOAD →
  0 <= p_vaddr ph ∧ 0 <= p_memsz ph ∧ p_vaddr ph + p_memsz ph <= 9223372036854775808 - 4096.

Lemma segments_range_bounds phs :
  Forall seg_ok phs →
  let '(lo, hi) := segments_range phs in
  0 <= lo <= 18446744073709551615 ∧ 0 <= hi <= 9223372036854775808 - 4096 ∧
  ∀ ph, ph ∈ phs → p_type ph = PT_LOAD → lo <= p_vaddr ph ∧ p_vaddr ph + p_memsz ph <= hi.
Proof.
  intros Hok. unfold segments_range.
  assert (∀ l phs', Forall seg_ok phs' → 
    0 <= l.1 <= 18446744073709551615 ∧ 0 <= l.2 <= 9223372036854775808 - 4096 →
    let '(lo, hi) := foldl load_range_step l phs' in
    (0 <= lo <= l.1 ∧ l.2 <= hi <= 9223372036854775808 - 4096) ∧
    ∀ ph, ph ∈ phs' → p_type ph = PT_LOAD → lo <= p_vaddr ph ∧ p_vaddr ph + p_memsz ph <= hi) as Hgen.
  { clear. intros l phs. revert l. induction phs as [|ph phs IH]; intros [lo hi] Hok Hl; cbn [foldl].
    { split; [simpl in *; lia|]. intros ph Hph. by apply elem_of_nil in Hph. }
    inversion Hok as [|? ? Hph Hok']; subst. specialize (IH (load_range_step (lo, hi) ph) Hok').
    unfold load_range_step in *. destruct (Z.eqb_spec (p_type ph) PT_LOAD) as [Ht|Ht]; cbn [negb] in *.
    - specialize (Hph Ht). rewrite (u64_small (p_vaddr ph + p_memsz ph)) in * by (words; lia).
      destruct (foldl _ _ phs) as [lo' hi']. cbn [fst snd] in *.
      destruct IH as [Hb Hall]; [repeat case_match; lia|]. split; [repeat case_match; lia|].
      intros q Hq Hqt. apply elem_of_cons in Hq as [->|Hq]; [|by apply Hall].
      repeat case_match; lia.
    - destruct (foldl _ _ phs) as [lo' hi']. destruct (IH Hl) as [Hb Hall]. split; [done|].
      intros q Hq Hqt. apply elem_of_cons in Hq as [->|Hq]; [done|by apply Hall]. }
  specialize (Hgen (18446744073709551615, 0) phs Hok ltac:(simpl; lia)).
  destruct (foldl _ _ phs) as [lo hi]. cbn [fst snd] in Hgen. destruct Hgen as [Hb Hall].
  split_and!; try done; lia.
Qed.

(** A call of the mapping loop: inside the reservation [r, r + len), and
    writable without execution, or with the flags of a segment. *)
Definition seg_event (phs : list Elf64_Phdr) (r len : Z) (e : event) : Prop :=
  match e with
  | EvMmap a n prot flags _ _ _ =>
      r <= a ∧ 0 <= n ∧ a + n <= r + len ∧ prot = Z.lor PROT_READ PROT_WRITE ∧
      flags = Z.lor MAP_PRIVATE MAP_FIXED
  | EvMprotect a n prot =>
      r <= a ∧ 0 <= n ∧ a + n <= r + len ∧
      ∃ ph, ph ∈ phs ∧ p_type ph = PT_LOAD ∧ prot = pf_to_prot (p_flags ph)
  | EvWrite _ _ => True
  | _ => False
  end.

Lemma PAGE_ALIGN_DOWN_u64 x : in_u64 x → PAGE_ALIGN_DOWN x = x - x mod 4096.
Proof. apply page_mask_land. Qed.
Lemma PAGE_ALIGN_UP_small x :
  0 <= x <= 18446744073709551616 - 4096 → PAGE_ALIGN_UP x = (x + 4095) - (x + 4095) mod 4096.
Proof.
  intros Hx. unfold PAGE_ALIGN_UP, PAGE_SIZE. rewrite page_mask_land by apply u64_range.
  rewrite u64_small by (words; lia). f_equal; [lia|f_equal; lia].
Qed.

Section Map.
Context `{Platform}.

Lemma map_segment_event phs lo hi r len fd ph :
  let base := u64 (r - PAGE_ALIGN_DOWN lo) in
  ph ∈ phs → seg_ok ph → 0 <= lo < 9223372036854775808 → 0 <= hi <= 9223372036854775808 - 4096 →
  (p_type ph = PT_LOAD → lo <= p_vaddr ph ∧ p_vaddr ph + p_memsz ph <= hi) →
  len = PAGE_ALIGN_UP hi - PAGE_ALIGN_DOWN lo → 0 <= r → r mod 4096 = 0 →
  r + len <= 9223372036854775808 →
  preserves (adds (seg_event phs r len)) (map_segment base fd ph).
Proof.
  intros base Hin Hok Hlo Hhi Hbound Hlen Hr Hra Hfit. unfold map_segment.
  destruct (Z.eqb_spec (p_type ph) PT_LOAD) as [Ht|Ht]; cbn [negb];
    [|apply preserves_ret; typeclasses eauto].
  destruct (Hok Ht) as (Hv & Hm & Hvm). destruct (Hbound Ht) as [Hb1 Hb2].
  set (start := u64 (PAGE_ALIGN_DOWN (p_vaddr ph) + base)).
  set (stop := u64 (PAGE_ALIGN_UP (u64 (p_vaddr ph + p_memsz ph)) + base)).
  assert (start = r + (PAGE_ALIGN_DOWN (p_vaddr ph) - PAGE_ALIGN_DOWN lo) ∧
          stop = r + (PAGE_ALIGN_UP (p_vaddr ph + p_memsz ph) - PAGE_ALIGN_DOWN lo) ∧
          PAGE_ALIGN_DOWN lo <= PAGE_ALIGN_DOWN (p_vaddr ph) ∧
          PAGE_ALIGN_DOWN (p_vaddr ph) <= PAGE_ALIGN_UP (p_vaddr ph + p_memsz ph) ∧
          PAGE_ALIGN_UP (p_vaddr ph + p_memsz ph) <= PAGE_ALIGN_UP hi) as (Es & Ee & H1 & H2 & H3).
  { subst start stop base len. rewrite u64_add_r.
    rewrite (u64_small (p_vaddr ph + p_memsz ph)) by (words; lia). rewrite u64_add_r.
    rewrite !PAGE_ALIGN_UP_small in * by lia. rewrite !PAGE_ALIGN_DOWN_u64 in * by (words; lia).
    clear - Hv Hm Hvm Hb1 Hb2 Hlo Hhi Hr Hfit. words. zdm. }
  assert (u64 (stop - start) = stop - start) as Ed by (apply u64_small; words; lia).
  rewrite Ed. cbv zeta.
  apply preserves_bind; [typeclasses eauto|apply trace_mmap; intros; simpl; lia|]. intros q.
  case_match; [by apply trace_FATAL|].
  apply preserves_bind; [typeclasses eauto|case_match; [apply trace_wr|apply preserves_ret; typeclasses eauto]|].
  intros _. case_match; [|apply preserves_ret; typeclasses eauto].
  apply trace_mprotect. simpl. split_and!; try lia. eauto.
Qed.
(** The base the kernel chose for a reservation: a page address with room for
    the length below 2^63, or an error. *)
Definition reserved_at (r len : Z) : Prop :=
  s64 r < 0 ∨ (0 <= r ∧ r mod 4096 = 0 ∧ r + len <= 9223372036854775808).

End Map.

(** ** A concrete library *)

Definition pad (n : nat) (bs : list Z) : list Z := take n (bs ++ replicate n 0).
Definition phdr_bytes (ty fl off va fsz msz : Z) : list Z :=
  le_split 4 ty ++ le_split 4 fl ++ le_split 8 off ++ le_split 8 va ++ le_split 8 va ++
  le_split 8 fsz ++ le_split 8 msz ++ le_split 8 4096.

(** "libdemo.so": one readable and executable segment with a dynamic section
    that needs "libdl.so". *)
Definition demo_file : list Z :=
  pad 64 (replicate 32 0 ++ le_split 8 64 ++ replicate 16 0 ++ le_split 2 2) ++
  phdr_bytes 1 5 0 0 0x120 0x180 ++
  pad 72 (phdr_bytes 2 4 0xc0 0xc0 64 64) ++
  concat ((λ e, le_split 8 e.1 ++ le_split 8 e.2) <$> [(5, 0x100); (10, 16); (1, 1); (0, 0)]) ++
  pad 32 ([0] ++ lit "libdl.so").

Definition demo_load_state : lstate :=
  {| l_mem := ∅;
     l_ks := {| tk_files := [(cs "/system/lib64/libdemo.so", demo_file)]; tk_pos := ∅;
                tk_next := 0x200000 |};
     l_objs := [with_soname object_zero (pad 128 (lit "main"))];
     l_hwcap := 0; l_auxv := 0; l_trace := [] |}.

Lemma read_at_exact_witness :
  ∃ k', read_at 3 64 100 demo_load_state =
    Done (Some (take 100 (drop 64 demo_file))) (set_ks k' demo_load_state).
Proof.
  destruct (read_at_exact 3 demo_file 0 64 100 demo_load_state) as [k' Hk']; [reflexivity|lia|lia|].
  exists k'. exact Hk'.
Defined.

Lemma load_needed_so_table_witness :
  ∃ s', load_needed_so load_fuel (lit "libdemo.so") demo_load_state = Done () s' ∧
    table_ok (l_objs s') ∧ ∃ o, o ∈ l_objs s' ∧ lnk_strcmp (soname o) (lit "libdemo.so") = Some 0.
Proof.
  assert (load_needed_so load_fuel (lit "libdemo.so") demo_load_state =
    Done () (final (load_needed_so load_fuel (lit "libdemo.so") demo_load_state) demo_load_state)) as Hd
    by (apply final_Done; vm_compute; reflexivity).
  pose proof (load_needed_so_table load_fuel (lit "libdemo.so") demo_load_state) as Ht.
  rewrite Hd in Ht. eexists. split; [exact Hd|]. apply Ht.
  constructor; [repeat constructor; by eexists|apply NoDup_singleton|unfold MAX_OBJECTS; simpl; lia].
Defined.

Lemma lnk_dlopen_idempotent_witness :
  ∃ s' c1 c2 c3, lnk_dlopen (Some (lit "/data/libdemo.so")) 1 s' =
    Done (Hobject 1) (log (EvWrite 2 c3) (log (EvWrite 2 c2) (log (EvWrite 2 c1) s'))).
Proof.
  eexists. apply (lnk_dlopen_idempotent _ 0 1 1 demo_load_state). apply (final_Done _ _ demo_load_state).
  vm_compute. reflexivity.
Defined.

Definition demo_phs : list Elf64_Phdr := phdrs_of_bytes 2 (drop 64 demo_file).

