(* ===== verification/LnkMain.v ===== *)
(** * The entry of the linker

    linker64/src/linker.c:862-1111: [linker_main], in its phases: the initial
    stack, the load base of the executable, the loading of the libraries, the
    static TLS block, the relocation of every object, the patch of the
    debugger hook, and the jump to the program.  Definitions only. *)

From S2P Require Import Prelude Machine Elf CString LnkBase LnkToy LnkSymbols.
From S2P Require Import LnkDynamic LnkReloc LnkLoad.

(** ** The initial stack *)

(** linker64/src/linker.c:882-882 (linker_main) Past the null pointer that ends
    the environment. *)
Fixpoint skip_env (fuel : nat) (m : memory) (ep : Z) : option Z :=
  match fuel with
  | O => None
  | S fuel => p ← load64 m ep; if p =? 0 then Some ep else skip_env fuel m (ep + 8)
  end.

(** linker64/src/linker.c:878-883 (linker_main) argc, argv and the auxiliary
    vector. *)
Definition parse_stack (m : memory) (sp : Z) : option (Z * Z * Z) :=
  w ← load64 m sp;
  let argc := s32 w in
  let argv := sp + 8 in
  let envp := argv + 8 * argc + 8 in
  ep ← skip_env (S (size m)) m envp;
  Some (argc, argv, ep + 8).

(** ** The executable *)

(** linker64/src/linker.c:917-917 (linker_main) Entry [i] of the program
    header table, and all of its entries. *)
Definition exe_ph (m : memory) (phdr ent i : Z) : option Elf64_Phdr := load_phdr m (phdr + i * ent).
Fixpoint exe_phs (m : memory) (phdr ent : Z) (n : nat) : option (list Elf64_Phdr) :=
  match n with
  | O => Some []
  | S n => ph ← load_phdr m phdr; phs ← exe_phs m (phdr + ent) ent n; Some (ph :: phs)
  end.

Definition find_ph (f : Elf64_Phdr → bool) (phs : list Elf64_Phdr) : option Elf64_Phdr :=
  i ← find_idx f phs; phs !! i.

(** linker64/src/linker.c:912-945 (linker_main) The program header segment
    first, then the PT_LOAD segment at offset 0, else no slide. *)
Definition exe_load_base (phdr : Z) (phs : list Elf64_Phdr) : Z :=
  match find_ph (λ ph, p_type ph =? PT_PHDR) phs with
  | Some ph => u64 (phdr - p_vaddr ph)
  | None =>
      match find_ph (λ ph, (p_type ph =? PT_LOAD) && (p_offset ph =? 0)) phs with
      | Some ph => u64 (phdr - p_vaddr ph)
      | None => 0
      end
  end.

(** linker64/src/linker.c:977-986 (linker_main) *)
Definition exe_range_step (base : Z) (acc : Z * Z) (ph : Elf64_Phdr) : Z * Z :=
  let '(load_min, load_max) := acc in
  if negb (p_type ph =? PT_LOAD) then acc else
  let start := u64 (PAGE_ALIGN_DOWN (p_vaddr ph) + base) in
  let end_ := u64 (PAGE_ALIGN_UP (u64 (p_vaddr ph + p_memsz ph)) + base) in
  (if start <? load_min then start else load_min, if load_max <? end_ then end_ else load_max).
Definition exe_range (base : Z) (phs : list Elf64_Phdr) : Z * Z :=
  foldl (exe_range_step base) (18446744073709551615, 0) phs.

(** ** Static TLS *)

(** linker64/src/linker.c:990-997 (linker_main) [cur] is
    [current_tls_offset]. *)
Fixpoint assign_tls (cur : Z) (os : list Object) : list Object :=
  match os with
  | [] => []
  | o :: os =>
      if 0 <? tls_memsz o then
        let off := Z.land (u64 (cur + 15)) (18446744073709551615 - 15) in
        with_tls_offset o off :: assign_tls (u64 (off + tls_memsz o)) os
      else o :: assign_tls cur os
  end.

Section Main.
Context `{Platform}.

(** linker64/src/linker.c:1005-1007 (linker_main) [n] bytes, one by one. *)
Fixpoint copy_bytes (n : nat) (dst src : Z) : L () :=
  match n with
  | O => mret ()
  | S n =>
      b ← rd (λ m, load8 m src);
      wr (λ m, store8 m dst b) ≫= λ _, copy_bytes n (dst + 1) (src + 1)
  end.

(** linker64/src/linker.c:1000-1009 (linker_main) *)
Definition copy_template (o : Object) : L () :=
  if (0 <? tls_memsz o) && (0 <? tls_vaddr o) then
    copy_bytes (Z.to_nat (tls_filesz o)) (own_address g_tls_block + tls_offset o)
      (u64 (load_base o + tls_vaddr o))
  else mret ().

(** linker64/src/linker.c:862-863 (g_tls_block) *)
Definition tls_block_size : Z := 16384.
Definition main_thread_size : Z := 1024.

(** linker64/src/linker.c:1011-1023 (linker_main) The slots of the thread
    control block, the thread structure and the thread pointer. *)
Definition init_tcb : L () :=
  let tls := own_address g_tls_block in
  let thread := own_address g_main_thread in
  wr (λ m, store64 m tls tls) ≫= λ _,
  wr (λ m, store64 m (tls + 8) thread) ≫= λ _,
  wr (λ m, lnk_memset m thread 0 main_thread_size) ≫= λ _,
  tid ← sys_gettid;
  wr (λ m, store32 m (thread + 16) (u32 tid)) ≫= λ _,
  modify (log (EvTpidr tls)).

(** linker64/src/linker.c:987-1024 (linker_main) *)
Definition init_tls : L () :=
  modify (λ s, set_objs (assign_tls 256 (l_objs s)) s) ≫= λ _,
  wr (λ m, lnk_memset m (own_address g_tls_block) 0 tls_block_size) ≫= λ _,
  s ← get; for_each copy_template (l_objs s) ≫= λ _,
  init_tcb.

(** ** Relocation *)

(** linker64/src/linker.c:1026-1035 (linker_main) *)
Definition print_object (o : Object) : L () :=
  puts "[linker64] Object: " ≫= λ _, lnk_puts (soname o) ≫= λ _,
  puts " base: " ≫= λ _, lnk_print_hex (load_base o) ≫= λ _,
  puts " relr: " ≫= λ _, lnk_print_hex (relr o) ≫= λ _,
  puts " relr_count: " ≫= λ _, lnk_print_hex (relr_count o) ≫= λ _,
  puts " gnu_hash: " ≫= λ _, lnk_print_hex (gnu_hash_tab o) ≫= λ _, puts nl.

(** linker64/src/linker.c:1042-1055 (linker_main) Segment [i] of the
    executable gets its own permissions back. *)
Definition restore_segment (phdr ent base i : Z) : L () :=
  ph ← rd (λ m, exe_ph m phdr ent i);
  if negb (p_type ph =? PT_LOAD) then mret () else
  let start := u64 (PAGE_ALIGN_DOWN (p_vaddr ph) + base) in
  let end_ := u64 (PAGE_ALIGN_UP (u64 (p_vaddr ph + p_memsz ph)) + base) in
  sys_mprotect start (u64 (end_ - start)) (pf_to_prot (p_flags ph)).

(** linker64/src/linker.c:1059-1064 (linker_main) The slot printed around the
    relocation of one library; lines 1066-1071 print it again. *)
Definition debug_got (o : Object) (msg : string) : L () :=
  r ← lift (lnk_strcmp (soname o) (lit "libandroid_runtime.so"));
  if r =? 0 then
    puts ("[linker64] libandroid_runtime.so GOT[2e37e8] " +:+ msg +:+ ": ") ≫= λ _,
    v ← rd (λ m, load64 m (u64 (load_base o + 0x2e37e8)));
    lnk_print_hex v ≫= λ _, puts nl
  else mret ().

(** linker64/src/linker.c:1057-1072 (linker_main) *)
Definition relocate_library (hwcap auxv : Z) (i : nat) : L () :=
  s ← get; o ← lift (l_objs s !! i);
  debug_got o "before" ≫= λ _, relocate_object o hwcap auxv ≫= λ _, debug_got o "after".

(** linker64/src/linker.c:1075-1101 (linker_main) *)
Definition patch_dlactivity : L () :=
  a ← lookup_symbol (lit "rtld_db_dlactivity");
  if a =? 0 then mret () else
  puts "[linker64] Patching rtld_db_dlactivity at " ≫= λ _, lnk_print_hex a ≫= λ _, puts nl ≫= λ _,
  let page := PAGE_ALIGN_DOWN a in
  sys_mprotect page PAGE_SIZE (Z.lor PROT_READ PROT_WRITE) ≫= λ _,
  wr (λ m, store32 m (u64 (a + 4)) 0xd65f03c0) ≫= λ _,
  modify (log (EvClearCache a)) ≫= λ _,
  sys_mprotect page PAGE_SIZE (Z.lor PROT_READ PROT_EXEC) ≫= λ _,
  puts ("[linker64] rtld_db_dlactivity successfully patched to ret" +:+ nl).

(** ** linker_main *)

(** linker64/src/linker.c:947-964 (linker_main) The executable as object 0. *)
Definition register_exe (argc argv base : Z) (phs : list Elf64_Phdr) : L () :=
  arg0 ← (if 0 <? argc then rd (λ m, load64 m argv) else mret 0);
  name ← (if arg0 =? 0 then mret (lit "main") else rd (λ m, mem_cstr m arg0));
  nm ← lift (lnk_strcpy (soname object_zero) name);
  let o := with_base (with_soname object_zero nm) base in
  puts "[linker64] loaded executable " ≫= λ _, lnk_puts (soname o) ≫= λ _, puts " at " ≫= λ _,
  lnk_print_hex (load_base o) ≫= λ _, puts nl ≫= λ _,
  o ← record_dynamic o phs;
  modify (set_objs [o]).

(** linker64/src/linker.c:966-970 (linker_main) *)
Definition load_needed : L () :=
  s ← get; o ← lift (l_objs s !! 0%nat);
  if negb (strtab o =? 0) then
    for_each (λ off, n ← rd (λ m, mem_cstr m (strtab o + off)); load_needed_so load_fuel n)
             (needed_off o)
  else mret ().

(** linker64/src/linker.c:1037-1072 (linker_main) *)
Definition relocate_all (phdr ent base load_min load_max hwcap auxv : Z) (phnum : nat) : L () :=
  (if negb (load_min =? 18446744073709551615)
   then sys_mprotect load_min (u64 (load_max - load_min)) (Z.lor PROT_READ PROT_WRITE)
   else mret ()) ≫= λ _,
  s ← get; exe ← lift (l_objs s !! 0%nat);
  relocate_object exe hwcap auxv ≫= λ _,
  (if negb (load_min =? 18446744073709551615)
   then for_each (restore_segment phdr ent base) (Z.of_nat <$> seq 0 phnum) else mret ()) ≫= λ _,
  s ← get; for_each (relocate_library hwcap auxv) (seq 1 (g_nobjects s - 1)).

(** linker64/src/linker.c:875-1111 (linker_main) The result is the entry point
    and the stack pointer of the final jump. *)
Definition linker_main (sp : Z) : L (Z * Z) :=
  '(argc, argv, auxv) ← rd (λ m, parse_stack m sp);
  wr (λ m, store64 m (own_address g_shared_globals + 0x418) auxv) ≫= λ _,
  hwcap ← rd (λ m, auxv_get m auxv AT_HWCAP);
  modify (set_env hwcap auxv) ≫= λ _,
  entry ← rd (λ m, auxv_get m auxv AT_ENTRY);
  phdr ← rd (λ m, auxv_get m auxv AT_PHDR);
  phnum ← rd (λ m, auxv_get m auxv AT_PHNUM);
  phent ← rd (λ m, auxv_get m auxv AT_PHENT);
  let n := Z.to_nat (u16 phnum) in
  let ent := u16 phent in
  phs ← rd (λ m, exe_phs m phdr ent n);
  let base := exe_load_base phdr phs in
  register_exe argc argv base phs ≫= λ _,
  load_needed ≫= λ _,
  phs ← rd (λ m, exe_phs m phdr ent n);
  let '(load_min, load_max) := exe_range base phs in
  init_tls ≫= λ _,
  s ← get; for_each print_object (l_objs s) ≫= λ _,
  relocate_all phdr ent base load_min load_max hwcap auxv n ≫= λ _,
  patch_dlactivity ≫= λ _,
  mret (entry, sp).
End Main.
