(* ===== verification/MainProps.v ===== *)
(** * The start of the linker

    The offsets [linker_main] gives to the TLS segments and the contents of
    the block it sets up for the main thread; the load base; that start-up and
    dlopen come to an end; and the overrun of the block. *)

From S2P Require Import Prelude Machine Elf CString LnkBase LnkToy LnkSymbols LnkDynamic LnkReloc Aps2 Rela LnkLoad LoadProps LnkMain.

(** ** The layout *)

Lemma align16 x : in_u64 x → Z.land x (18446744073709551615 - 15) = x - x mod 16.
Proof. intros Hx. apply (land_low_mask x 4); [done|lia]. Qed.

(** An upper bound of the space the segments take. *)
Definition tls_space (os : list Object) : Z := foldr (λ o n, tls_memsz o + 15 + n) 0 os.

Lemma tls_space_nonneg os : Forall (λ o, 0 <= tls_memsz o) os → 0 <= tls_space os.
Proof. induction 1; simpl; [done|]. lia. Qed.

(** Object [o'] is [o] with another offset. *)
Definition relocated_tls (o o' : Object) : Prop := o' = with_tls_offset o (tls_offset o').

Lemma relocated_fields o o' :
  relocated_tls o o' → tls_memsz o' = tls_memsz o ∧ tls_filesz o' = tls_filesz o ∧
    tls_vaddr o' = tls_vaddr o ∧ load_base o' = load_base o.
Proof. intros Hr. rewrite Hr. by destruct o. Qed.

Lemma assign_tls_gen cur os :
  Forall (λ o, 0 <= tls_memsz o) os → 0 <= cur → cur + tls_space os + 15 < 18446744073709551616 →
  Forall2 relocated_tls os (assign_tls cur os) ∧
  Forall (λ o, 0 < tls_memsz o → tls_offset o mod 16 = 0 ∧ cur <= tls_offset o ∧
      tls_offset o + tls_memsz o <= cur + tls_space os) (assign_tls cur os) ∧
  ∀ i j a b, (i < j)%nat → assign_tls cur os !! i = Some a → assign_tls cur os !! j = Some b →
    0 < tls_memsz a → 0 < tls_memsz b → tls_offset a + tls_memsz a <= tls_offset b.
Proof.
  intros Hm. revert cur. induction Hm as [|o os Ho Hos IH]; intros cur Hc Hb; [by split_and!|].
  cbn [assign_tls tls_space foldr] in *. fold (tls_space os) in *.
  pose proof (tls_space_nonneg _ Hos) as Hs.
  destruct (Z.ltb_spec 0 (tls_memsz o)) as [Hpos|Hz].
  - set (off := Z.land (u64 (cur + 15)) (18446744073709551615 - 15)).
    assert (off = cur + 15 - (cur + 15) mod 16) as Hoff.
    { subst off. rewrite align16 by apply u64_range. by rewrite u64_small by (words; lia). }
    assert (off mod 16 = 0 ∧ cur <= off <= cur + 15) as [Ha Hr] by (clear - Hoff; zdm).
    clearbody off. rewrite (u64_small (off + tls_memsz o)) by (words; lia).
    destruct (IH (off + tls_memsz o)) as (H1 & H2 & H3); [lia|lia|]. split_and!.
    + constructor; [done|exact H1].
    + constructor; [cbn; lia|]. eapply Forall_impl; [exact H2|]. cbn. intros q Hq Hq0.
      specialize (Hq Hq0). lia.
    + intros [|i] [|j] a b Hij Hi Hj Hpa Hpb; try lia.
      * injection Hi as <-. cbn [lookup list_lookup] in Hj.
        pose proof (Forall_lookup_1 _ _ _ _ H2 Hj) as Hq. cbv beta in Hq. specialize (Hq Hpb). cbn. lia.
      * apply (H3 i j); [lia|done..].
  - destruct (IH cur) as (H1 & H2 & H3); [lia|lia|]. split_and!.
    + constructor; [by destruct o|exact H1].
    + constructor; [lia|]. eapply Forall_impl; [exact H2|]. cbn. intros q Hq Hq0.
      specialize (Hq Hq0). lia.
    + intros [|i] [|j] a b Hij Hi Hj Hpa Hpb; try lia.
      * injection Hi as <-. lia.
      * apply (H3 i j); [lia|done..].
Qed.

(** C38. The TLS segments lie 16-aligned behind the 256 bytes of the thread
    control block, in load order and apart from each other; nothing but the
    offsets of the objects changes. *)
Theorem assign_tls_layout os :
  Forall (λ o, 0 <= tls_memsz o) os → 256 + tls_space os + 15 < 18446744073709551616 →
  let os' := assign_tls 256 os in
  Forall2 relocated_tls os os' ∧
  Forall (λ o, 0 < tls_memsz o → tls_offset o mod 16 = 0 ∧ 256 <= tls_offset o) os' ∧
  ∀ i j a b, (i < j)%nat → os' !! i = Some a → os' !! j = Some b →
    0 < tls_memsz a → 0 < tls_memsz b → tls_offset a + tls_memsz a <= tls_offset b.
Proof.
  intros Hm Hb. destruct (assign_tls_gen 256 os Hm ltac:(lia) Hb) as (H1 & H2 & H3).
  split_and!; [done| |done]. eapply Forall_impl; [exact H2|]. cbn. intros o Ho Hp.
  specialize (Ho Hp). lia.
Qed.

(** ** The block *)

Definition block_len : nat := Z.to_nat tls_block_size.
Definition thread_len : nat := Z.to_nat main_thread_size.
Lemma block_len_eq : Z.of_nat block_len = 16384.
Proof. unfold block_len, tls_block_size. lia. Qed.
Lemma thread_len_eq : Z.of_nat thread_len = 1024.
Proof. unfold thread_len, main_thread_size. lia. Qed.
#[global] Opaque block_len thread_len.

(** Arithmetic of ranges of the two blocks. *)
Ltac blk := pose proof block_len_eq; pose proof thread_len_eq;
  unfold in_range, disjoint_ranges in *; lia.

Section Block.
Context `{Platform}.
Abbreviation T := (own_address g_tls_block).
Abbreviation Th := (own_address g_main_thread).

Definition template_addr (o : Object) : Z := u64 (load_base o + tls_vaddr o).
Definition has_template (o : Object) : bool := (0 <? tls_memsz o) && (0 <? tls_vaddr o).

(** The bytes an object's TLS block starts with: its template, then zeros. *)
Definition tls_image (m : memory) (o : Object) : option (list Z) :=
  if has_template o then
    t ← load_bytes m (template_addr o) (Z.to_nat (tls_filesz o));
    Some (t ++ replicate (Z.to_nat (tls_memsz o) - Z.to_nat (tls_filesz o)) 0)
  else Some (replicate (Z.to_nat (tls_memsz o)) 0).

Lemma copy_bytes_run n dst src bs (s : lstate) :
  load_bytes (l_mem s) src n = Some bs → writable (l_mem s) dst n → disjoint_ranges dst n src n →
  ∃ m', copy_bytes n dst src s = Done () (set_mem m' s) ∧ store_bytes (l_mem s) dst bs = Some m'.
Proof.
  revert dst src bs s. induction n as [|n IH]; intros dst src bs s Hl Hw Hd.
  { injection Hl as <-. exists (l_mem s). split; [|done]. by rewrite set_mem_id. }
  cbn [load_bytes] in Hl. apply bind_Some in Hl as (b & Hb & Hl).
  apply bind_Some in Hl as (bs' & Hbs & [= <-]). cbn [copy_bytes]. rd_step Hb.
  destruct (proj1 (store_bytes_writable (l_mem s) dst [b])) as [m1 Hm1].
  { intros x Hx. apply Hw. range. }
  cbn [store_bytes] in Hm1. destruct (store8 (l_mem s) dst b) as [m2|] eqn:Em; [|done].
  assert (same_but dst 1 (l_mem s) m2) as Hsb.
  { apply (store_bytes_same_but _ _ [b]). cbn [store_bytes]. by rewrite Em. }
  unfold mbind, M_bind. rewrite wr_run, Em.
  destruct (IH (dst + 1) (src + 1) bs' (set_mem m2 s)) as (m' & Hrun & Hst).
  - cbn [l_mem set_mem]. rewrite <- Hbs. apply (same_but_disjoint dst 1); [done|range].
  - cbn [l_mem set_mem]. eapply same_but_writable; [exact Hsb|]. intros x Hx. apply Hw. range.
  - range.
  - exists m'. rewrite Hrun, set_mem_mem. split; [done|]. cbn [store_bytes]. rewrite Em. exact Hst.
Qed.

(** What the copying of the templates of [os] needs, and what it leaves. *)
Record sources_ok (m : memory) (os : list Object) : Prop := {
  so_fit : ∀ o, o ∈ os → has_template o = true →
    0 <= tls_filesz o <= tls_memsz o ∧ 256 <= tls_offset o ∧ tls_offset o + tls_memsz o <= 16384;
  so_src : ∀ o, o ∈ os → has_template o = true →
    readable m (template_addr o) (Z.to_nat (tls_filesz o)) ∧
    disjoint_ranges T block_len (template_addr o) (Z.to_nat (tls_filesz o));
  so_order : ∀ i j a b, (i < j)%nat → os !! i = Some a → os !! j = Some b →
    has_template a = true → has_template b = true → tls_offset a + tls_memsz a <= tls_offset b
}.

Lemma sources_ok_tail m m' o os :
  sources_ok m (o :: os) → same_but T block_len m m' → sources_ok m' os.
Proof.
  intros [Hf Hs Ho] Hsb. constructor.
  - intros p Hp. apply Hf. by apply list_elem_of_further.
  - intros p Hp Ht. destruct (Hs p) as [Hr Hd]; [by apply list_elem_of_further|done|].
    split; [|done]. by eapply same_but_readable.
  - intros i j a b Hij Ha Hb. apply (Ho (S i) (S j)); [lia|done..].
Qed.

Definition copied (os : list Object) (m m' : memory) : Prop :=
  (∀ o, o ∈ os → has_template o = true →
     load_bytes m' (T + tls_offset o) (Z.to_nat (tls_filesz o)) =
     load_bytes m (template_addr o) (Z.to_nat (tls_filesz o))) ∧
  (∀ x, (∀ o, o ∈ os → has_template o = true →
     ¬ in_range (T + tls_offset o) (Z.to_nat (tls_filesz o)) x) → m' !! x = m !! x).

Lemma copy_template_run o os (s : lstate) :
  mem_ok (l_mem s) → readable (l_mem s) T block_len → writable (l_mem s) T block_len →
  sources_ok (l_mem s) (o :: os) →
  ∃ m', copy_template o s = Done () (set_mem m' s) ∧ same_but T block_len (l_mem s) m' ∧
    mem_ok m' ∧ copied [o] (l_mem s) m'.
Proof.
  intros Hok Hr Hw [Hf Hs _]. unfold copy_template. fold (has_template o).
  destruct (has_template o) eqn:Ht.
  2: { exists (l_mem s). rewrite set_mem_id. split_and!; try done. split; [|done].
       intros p Hp%list_elem_of_singleton Hpt. congruence. }
  destruct (Hf o (list_elem_of_here _ _) Ht) as (Hfs & Ho1 & Ho2).
  destruct (Hs o (list_elem_of_here _ _) Ht) as [Hsr Hsd].
  set (n := Z.to_nat (tls_filesz o)) in *.
  destruct (proj1 (load_bytes_readable _ _ _) Hsr) as [bs Hbs].
  pose proof (load_bytes_length _ _ _ _ Hbs) as Hlen.
  destruct (copy_bytes_run n (T + tls_offset o) (template_addr o) bs s Hbs) as (m' & Hrun & Hst).
  { intros x Hx. apply Hw. blk. }
  { blk. }
  pose proof (store_bytes_same_but _ _ _ _ Hst) as [Hb1 Hb2].
  exists m'. split; [exact Hrun|]. split; [|split].
  - split; [|done]. intros x Hx. apply Hb1. blk.
  - by eapply store_bytes_ok.
  - split.
    + intros p Hp%list_elem_of_singleton _. subst p. fold n. rewrite Hbs, <- Hlen.
      rewrite (load_store_bytes_same _ _ _ _ Hst).
      * f_equal. by apply u8_bytes, (load_bytes_ok _ _ _ _ Hok Hbs).
      * rewrite Hlen. intros x Hx. apply Hr. blk.
    + intros x Hx. apply Hb1. rewrite Hlen. apply (Hx o); [apply list_elem_of_here|done].
Qed.
Lemma copied_cons o os m m1 m2 :
  sources_ok m (o :: os) → same_but T block_len m m1 → copied [o] m m1 → copied os m1 m2 →
  copied (o :: os) m m2.
Proof.
  intros [Hf Hs Ho] Hsb [Ha Hfa] [Hb Hfb]. split.
  - intros p Hp Ht. apply elem_of_cons in Hp as [->|Hp].
    + rewrite <- (Ha o (list_elem_of_here _ _) Ht). apply load_bytes_ext. intros x Hx.
      apply Hfb. intros q Hq Hqt. apply list_elem_of_lookup in Hq as [j Hj].
      destruct (Hf o (list_elem_of_here _ _) Ht) as (? & ? & ?).
      pose proof (Ho 0%nat (S j) o q ltac:(lia) eq_refl Hj Ht Hqt). blk.
    + rewrite (Hb p Hp Ht). destruct (Hs p) as [_ Hd]; [by apply list_elem_of_further|done|].
      by apply (same_but_disjoint _ _ _ _ _ _ Hsb).
  - intros x Hx. rewrite Hfb.
    + apply Hfa. intros q Hq%list_elem_of_singleton Hqt. subst q.
      apply Hx; [apply list_elem_of_here|done].
    + intros q Hq. apply Hx. by apply list_elem_of_further.
Qed.

Lemma copy_templates_run os (s : lstate) :
  mem_ok (l_mem s) → readable (l_mem s) T block_len → writable (l_mem s) T block_len →
  sources_ok (l_mem s) os →
  ∃ m', for_each copy_template os s = Done () (set_mem m' s) ∧ same_but T block_len (l_mem s) m' ∧
    mem_ok m' ∧ copied os (l_mem s) m'.
Proof.
  revert s. induction os as [|o os IH]; intros s Hok Hr Hw Hs.
  { exists (l_mem s). rewrite set_mem_id. split_and!; try done. split; [|done].
    intros p Hp. by apply elem_of_nil in Hp. }
  destruct (copy_template_run o os s Hok Hr Hw Hs) as (m1 & Hrun & Hsb & Hok1 & Hc1).
  destruct (IH (set_mem m1 s)) as (m2 & Hrun2 & Hsb2 & Hok2 & Hc2).
  - done.
  - by apply (same_but_readable _ _ _ _ _ _ Hsb).
  - by apply (same_but_writable _ _ _ _ _ _ Hsb).
  - by eapply sources_ok_tail.
  - exists m2. cbn [for_each]. rewrite (bind_step _ _ _ _ _ Hrun), Hrun2, set_mem_mem.
    split_and!; try done.
    + destruct Hsb as [A1 A2], Hsb2 as [B1 B2]. cbn [l_mem set_mem] in *.
      split; [intros x Hx; by rewrite B1, A1|intros x; by rewrite B2].
    + by eapply copied_cons.
Qed.

(** The zeroed block, and what the copies make of it. *)
Lemma memset_run a c (n : nat) (s : lstate) :
  writable (l_mem s) a n →
  ∃ m', wr (λ m, lnk_memset m a c (Z.of_nat n)) s = Done () (set_mem m' s) ∧
    store_bytes (l_mem s) a (replicate n (u8 c)) = Some m'.
Proof.
  intros Hw. rewrite wr_run. unfold lnk_memset. rewrite Nat2Z.id.
  destruct (proj1 (store_bytes_writable (l_mem s) a (replicate n (u8 c)))) as [m' Hm'].
  { by rewrite length_replicate. }
  exists m'. by rewrite Hm'.
Qed.

Lemma load_zeros m a n b k :
  load_bytes m a n = Some (replicate n 0) → a <= b → b + Z.of_nat k <= a + Z.of_nat n →
  load_bytes m b k = Some (replicate k 0).
Proof.
  intros Hl Hab Hk.
  assert (n = Z.to_nat (b - a) + (k + (n - Z.to_nat (b - a) - k)))%nat as Hn by lia.
  rewrite Hn in Hl. rewrite load_bytes_app in Hl.
  apply bind_Some in Hl as (l1 & H1 & Hl). apply bind_Some in Hl as (l2 & H2 & Hl).
  replace (a + Z.of_nat (Z.to_nat (b - a))) with b in H2 by lia.
  rewrite load_bytes_app in H2. apply bind_Some in H2 as (l3 & H3 & H2).
  apply bind_Some in H2 as (l4 & H4 & [= <-]). rewrite H3. f_equal. injection Hl as Hl.
  rewrite !replicate_add in Hl. apply load_bytes_length in H1, H3.
  apply app_inj_1 in Hl as [_ Hl]; [|by rewrite length_replicate].
  apply app_inj_1 in Hl as [Hl _]; [done|by rewrite length_replicate].
Qed.

Lemma copied_image os m0 m m' i o :
  sources_ok m os → copied os m m' →
  load_bytes m T block_len = Some (replicate block_len 0) →
  (∀ o, o ∈ os → has_template o = true →
     load_bytes m (template_addr o) (Z.to_nat (tls_filesz o)) =
     load_bytes m0 (template_addr o) (Z.to_nat (tls_filesz o))) →
  os !! i = Some o → 0 < tls_memsz o → 256 <= tls_offset o → tls_offset o + tls_memsz o <= 16384 →
  (∀ j p, j ≠ i → os !! j = Some p → has_template p = true →
     tls_offset p + tls_memsz p <= tls_offset o ∨ tls_offset o + tls_memsz o <= tls_offset p) →
  load_bytes m' (T + tls_offset o) (Z.to_nat (tls_memsz o)) = tls_image m0 o.
Proof.
  intros [Hf Hs Hord] [Hc Hframe] Hz Hsrc Hi Hpos Ho1 Ho2 Hapart.
  assert (o ∈ os) as Hin by (by eapply list_elem_of_lookup_2).
  assert (∀ b k, T + tls_offset o <= b → b + Z.of_nat k <= T + tls_offset o + tls_memsz o →
    (has_template o = true → T + tls_offset o + tls_filesz o <= b) →
    load_bytes m' b k = Some (replicate k 0)) as Hzero.
  { intros b k Hb Hk Hft. rewrite <- (load_zeros m T block_len b k Hz) by blk.
    apply load_bytes_ext. intros x Hx. apply Hframe. intros p Hp Hpt.
    apply list_elem_of_lookup in Hp as [j Hj].
    destruct (Hf p (list_elem_of_lookup_2 _ _ _ Hj) Hpt) as (? & ? & ?).
    destruct (decide (j = i)) as [->|Hji].
    - rewrite Hi in Hj. injection Hj as <-. specialize (Hft Hpt). blk.
    - pose proof (Hapart j p Hji Hj Hpt). blk. }
  unfold tls_image. destruct (has_template o) eqn:Ht.
  - destruct (Hf o Hin Ht) as (Hfs & _ & _). rewrite <- (Hsrc o Hin Ht), <- (Hc o Hin Ht).
    replace (Z.to_nat (tls_memsz o)) with
      (Z.to_nat (tls_filesz o) + (Z.to_nat (tls_memsz o) - Z.to_nat (tls_filesz o)))%nat at 1 by lia.
    rewrite load_bytes_app. destruct (load_bytes m' _ (Z.to_nat (tls_filesz o))); [|done]. obind.
    rewrite Hzero; [done|lia|lia|intros; lia].
  - apply Hzero; [lia|lia|done].
Qed.
(** What [init_tls] relies on: the two blocks of the linker's data segment are
    usable, the segments fit in the TLS block, and the templates are mapped
    outside of it. *)
Record tls_inputs (m : memory) (os : list Object) : Prop := {
  ti_mem : mem_ok m;
  ti_block : readable m T block_len ∧ writable m T block_len;
  ti_thread : readable m Th thread_len ∧ writable m Th thread_len;
  ti_apart : disjoint_ranges T block_len Th thread_len;
  ti_sizes : Forall (λ o, 0 <= tls_filesz o <= tls_memsz o) os;
  ti_fit : 256 + tls_space os <= 16384;
  ti_src : Forall (λ o, has_template o = true →
    readable m (template_addr o) (Z.to_nat (tls_filesz o)) ∧
    disjoint_ranges T block_len (template_addr o) (Z.to_nat (tls_filesz o))) os
}.

Lemma relocated_template o o' :
  relocated_tls o o' → has_template o' = has_template o ∧ template_addr o' = template_addr o.
Proof.
  intros Hr. unfold has_template, template_addr.
  by destruct (relocated_fields _ _ Hr) as (-> & _ & -> & ->).
Qed.

Lemma inputs_layout m os :
  tls_inputs m os →
  let os' := assign_tls 256 os in
  (∀ o, o ∈ os' → 0 < tls_memsz o → 256 <= tls_offset o ∧ tls_offset o + tls_memsz o <= 16384) ∧
  (∀ i j p o, j ≠ i → os' !! j = Some p → os' !! i = Some o → 0 < tls_memsz p → 0 < tls_memsz o →
     tls_offset p + tls_memsz p <= tls_offset o ∨ tls_offset o + tls_memsz o <= tls_offset p) ∧
  (∀ m', (∀ x, ¬ in_range T block_len x → m' !! x = m !! x) →
     (∀ x, c_prot <$> m' !! x = c_prot <$> m !! x) → sources_ok m' os').
Proof.
  intros [Hmem Hb Hth Hap Hsz Hfit Hsrc] os'.
  destruct (assign_tls_gen 256 os) as (H1 & H2 & H3); [|lia|lia|].
  { eapply Forall_impl; [exact Hsz|]. cbn. lia. }
  fold os' in H1, H2, H3. rewrite Forall_forall in H2.
  assert (∀ o, o ∈ os' → 0 < tls_memsz o →
    256 <= tls_offset o ∧ tls_offset o + tls_memsz o <= 16384) as Hin.
  { intros o Ho Hp. specialize (H2 o Ho Hp). lia. }
  assert (∀ o, o ∈ os' → ∃ q, q ∈ os ∧ relocated_tls q o) as Hback.
  { intros o Ho. apply list_elem_of_lookup in Ho as [k Hk].
    destruct (Forall2_lookup_r _ _ _ _ _ H1 Hk) as (q & Hq & Hr).
    exists q. split; [by eapply list_elem_of_lookup_2|done]. }
  assert (∀ o, has_template o = true → 0 < tls_memsz o) as Hpos.
  { intros o Ht. unfold has_template in Ht. apply andb_true_iff in Ht as [?%Z.ltb_lt _]. done. }
  split_and!; [done| |].
  - intros i j p o Hij Hj Hi Hp Ho. destruct (Nat.lt_ge_cases j i).
    + left. by apply (H3 j i).
    + right. apply (H3 i j); [lia|done..].
  - intros m' Hm' Hpr. constructor.
    + intros o Ho Ht. destruct (Hback o Ho) as (q & Hq & Hr).
      pose proof (proj1 (Forall_forall _ _) Hsz q Hq) as Hqs. cbv beta in Hqs.
      destruct (relocated_fields _ _ Hr) as (E1 & E2 & _). destruct (Hin o Ho (Hpos _ Ht)). lia.
    + intros o Ho Ht. destruct (Hback o Ho) as (q & Hq & Hr).
      destruct (relocated_template _ _ Hr) as [E3 E4]. destruct (relocated_fields _ _ Hr) as (_ & E2 & _).
      rewrite E3 in Ht. rewrite E4, E2.
      pose proof (proj1 (Forall_forall _ _) Hsrc q Hq) as Hqs. cbv beta in Hqs.
      destruct (Hqs Ht) as [Hrd Hd]. split; [|done]. intros x Hx.
      destruct (Hrd x Hx) as (c & Hc & Hcr). exists c. split; [|done]. rewrite Hm'; [done|blk].
    + intros i j a b Hij Ha Hb' Hta Htb. apply (H3 i j); auto.
Qed.

(** Stores keep the permissions. *)
Definition perm_same (m m' : memory) : Prop := ∀ x, c_prot <$> m' !! x = c_prot <$> m !! x.

Lemma perm_writable m m' a n : perm_same m m' → writable m a n → writable m' a n.
Proof.
  intros Hp Hw x Hx. destruct (Hw x Hx) as (c & Hc & Hcw). specialize (Hp x). rewrite Hc in Hp.
  destruct (m' !! x) as [c'|] eqn:E; [|done]. injection Hp as Hp. exists c'. split; [done|].
  unfold can_write in *. by rewrite Hp.
Qed.
Lemma perm_readable m m' a n : perm_same m m' → readable m a n → readable m' a n.
Proof.
  intros Hp Hw x Hx. destruct (Hw x Hx) as (c & Hc & Hcw). specialize (Hp x). rewrite Hc in Hp.
  destruct (m' !! x) as [c'|] eqn:E; [|done]. injection Hp as Hp. exists c'. split; [done|].
  unfold can_read in *. by rewrite Hp.
Qed.
#[local] Instance perm_same_trans : Transitive perm_same.
Proof. intros a b c H1 H2 x. by rewrite H2. Qed.

Lemma store_run n a v (s : lstate) :
  writable (l_mem s) a n →
  ∃ m', wr (λ m, store n m a v) s = Done () (set_mem m' s) ∧ store n (l_mem s) a v = Some m' ∧
    same_but a n (l_mem s) m'.
Proof.
  intros Hw. rewrite wr_run. destruct (proj1 (store_writable n (l_mem s) a v) Hw) as [m' Hm'].
  exists m'. rewrite Hm'. split_and!; try done. by eapply store_same_but.
Qed.

Lemma load_unchanged n m m' a :
  (∀ x, in_range a n x → m' !! x = m !! x) → load n m' a = load n m a.
Proof. intros Hx. unfold load. f_equal. by apply load_bytes_ext. Qed.

Lemma init_tcb_run (s : lstate) :
  readable (l_mem s) T block_len → writable (l_mem s) T block_len →
  readable (l_mem s) Th thread_len → writable (l_mem s) Th thread_len →
  disjoint_ranges T block_len Th thread_len →
  ∃ m', init_tcb s = Done () (log (EvTpidr T) (set_mem m' s)) ∧
    load64 m' T = Some (u64 T) ∧ load64 m' (T + 8) = Some (u64 Th) ∧
    load32 m' (Th + 16) = Some (u32 (k_gettid (l_ks s))) ∧
    (∀ x, ¬ in_range T 16 x → ¬ in_range Th thread_len x → m' !! x = l_mem s !! x).
Proof.
  intros Hbr Hbw Htr Htw Hap. unfold init_tcb.
  destruct (store_run 8 T T s) as (m1 & R1 & S1 & [B1 P1]).
  { intros x Hx. apply Hbw. blk. }
  rewrite (bind_step _ _ _ _ _ R1).
  destruct (store_run 8 (T + 8) Th (set_mem m1 s)) as (m2 & R2 & S2 & [B2 P2]).
  { apply (perm_writable (l_mem s)); [done|]. intros x Hx. apply Hbw. blk. }
  rewrite (bind_step _ _ _ _ _ R2). cbn [l_mem set_mem] in S2, B2, P2.
  assert (perm_same (l_mem s) m2) as P02 by (by transitivity m1).
  destruct (memset_run Th 0 thread_len (set_mem m2 (set_mem m1 s))) as (m3 & R3 & S3).
  { by apply (perm_writable (l_mem s)). }
  rewrite thread_len_eq in R3. rewrite (bind_step _ _ _ _ _ R3). cbn [l_mem set_mem] in S3.
  apply store_bytes_same_but in S3 as [B3 P3]. rewrite length_replicate in B3.
  assert (perm_same (l_mem s) m3) as P03 by (by transitivity m2).
  destruct (store_run 4 (Th + 16) (u32 (k_gettid (l_ks s))) (set_mem m3 (set_mem m2 (set_mem m1 s))))
    as (m4 & R4 & S4 & [B4 P4]).
  { apply (perm_writable (l_mem s)); [done|]. intros x Hx. apply Htw. blk. }
  cbn [l_mem set_mem] in S4, B4, P4.
  exists m4. split.
  { unfold sys_gettid, get, mbind at 1, M_bind at 1. cbn [l_ks set_mem]. unfold mbind at 1, M_bind at 1.
    cbn [mret M_ret]. by rewrite (bind_step _ _ _ _ _ R4). }
  split_and!.
  - unfold load64. rewrite (load_unchanged 8 m1).
    + rewrite (load_store_same _ _ _ _ _ S1); [done|]. intros x Hx. apply Hbr. blk.
    + intros x Hx. rewrite B4, B3, B2 by blk. done.
  - unfold load64. rewrite (load_unchanged 8 m2).
    + rewrite (load_store_same _ _ _ _ _ S2); [done|]. apply (perm_readable (l_mem s)); [done|].
      intros x Hx. apply Hbr. blk.
    + intros x Hx. rewrite B4, B3 by blk. done.
  - unfold load32. rewrite (load_store_same _ _ _ _ _ S4).
    + f_equal. apply u32_idemp.
    + apply (perm_readable (l_mem s)); [done|]. intros x Hx. apply Htr. blk.
  - intros x H1 H2. rewrite B4, B3, B2, B1 by blk. done.
Qed.

(** The static TLS block of the main thread: behind the thread control
    block, whose first two slots are itself and the thread, every object's
    bytes are its template followed by zeros; the thread's structure holds the
    kernel's thread id; nothing else changes but the recorded offsets, and the
    thread pointer is the block. *)
Theorem init_tls_correct (s : lstate) :
  tls_inputs (l_mem s) (l_objs s) →
  let os' := assign_tls 256 (l_objs s) in
  ∃ m', init_tls s = Done () (log (EvTpidr T) (set_mem m' (set_objs os' s))) ∧
    (∀ o, o ∈ os' → 0 < tls_memsz o →
       load_bytes m' (T + tls_offset o) (Z.to_nat (tls_memsz o)) = tls_image (l_mem s) o) ∧
    load64 m' T = Some (u64 T) ∧ load64 m' (T + 8) = Some (u64 Th) ∧
    load32 m' (Th + 16) = Some (u32 (k_gettid (l_ks s))) ∧
    (∀ x, ¬ in_range T block_len x → ¬ in_range Th thread_len x → m' !! x = l_mem s !! x).
Proof.
  intros Hin os'. destruct (inputs_layout _ _ Hin) as (Hfit & Hord & Hso). fold os' in Hfit, Hord, Hso.
  destruct Hin as [Hmem [Hbr Hbw] [Htr Htw] Hap _ _ Hsrc].
  set (s0 := set_objs os' s).
  destruct (memset_run T 0 block_len s0 Hbw) as (m1 & R1 & S1). rewrite block_len_eq in R1.
  pose proof (store_bytes_same_but _ _ _ _ S1) as [B1 P1]. rewrite length_replicate in B1.
  assert (load_bytes m1 T block_len = Some (replicate block_len 0)) as Z1.
  { pose proof (load_store_bytes_same _ _ _ _ S1) as Hl. rewrite length_replicate in Hl.
    rewrite Hl by exact Hbr. by rewrite fmap_replicate. }
  assert (mem_ok m1) as M1 by (by eapply store_bytes_ok).
  assert (sources_ok m1 os') as SO1 by (by apply Hso).
  destruct (copy_templates_run os' (set_mem m1 s0) M1) as (m2 & R2 & [B2 P2] & M2 & C2);
    [exact (perm_readable _ _ _ _ P1 Hbr)|exact (perm_writable _ _ _ _ P1 Hbw)|exact SO1|].
  cbn [l_mem set_mem] in B2, P2, C2.
  assert (perm_same (l_mem s) m2) as P02 by (transitivity m1; done).
  destruct (init_tcb_run (set_mem m2 (set_mem m1 s0))) as (m3 & R3 & L1 & L2 & L3 & B3);
    [exact (perm_readable _ _ _ _ P02 Hbr)|exact (perm_writable _ _ _ _ P02 Hbw)
    |exact (perm_readable _ _ _ _ P02 Htr)|exact (perm_writable _ _ _ _ P02 Htw)|exact Hap|].
  cbn [l_mem set_mem] in B3. exists m3. split_and!; [|..|done|done|done|].
  - unfold init_tls, modify. unfold mbind at 1, M_bind at 1. fold os'. fold s0.
    rewrite (bind_step _ _ _ _ _ R1). unfold get, mbind at 1, M_bind at 1.
    rewrite (bind_step _ _ _ _ _ R2). exact R3.
  - intros o Ho Hpos. apply list_elem_of_lookup in Ho as [i Hi].
    destruct (Hfit o (list_elem_of_lookup_2 _ _ _ Hi) Hpos) as [Ho1 Ho2].
    rewrite (load_bytes_ext m2) by (intros x Hx; apply B3; blk).
    apply (copied_image os' (l_mem s) m1 m2 i); try done.
    + intros p Hp Hpt. apply (same_but_disjoint T block_len); [exact (conj B1 P1)|].
      exact (proj2 (so_src _ _ SO1 p Hp Hpt)).
    + intros j p Hji Hj Hpt. apply (Hord i j); try done.
      unfold has_template in Hpt. apply andb_true_iff in Hpt as [?%Z.ltb_lt _]. done.
  - intros x H1 H2. rewrite B3, B2, B1 by blk. done.
Qed.
End Block.

(** ** A concrete block *)

Definition demo_tls_obj (base vaddr filesz memsz : Z) : Object :=
  with_tls (with_base object_zero base) vaddr filesz memsz.

Lemma assign_tls_layout_witness :
  tls_offset <$> assign_tls 256 [demo_tls_obj 0 1 4 5; demo_tls_obj 0 1 8 8; object_zero;
    demo_tls_obj 0 0 0 40] = [256; 272; 0; 288] ∧
  Forall (λ o, 0 < tls_memsz o → tls_offset o mod 16 = 0 ∧ 256 <= tls_offset o)
    (assign_tls 256 [demo_tls_obj 0 1 4 5; demo_tls_obj 0 1 8 8; object_zero; demo_tls_obj 0 0 0 40]).
Proof.
  split; [vm_compute; reflexivity|].
  apply (assign_tls_layout [demo_tls_obj 0 1 4 5; demo_tls_obj 0 1 8 8; object_zero;
    demo_tls_obj 0 0 0 40]); [|vm_compute; reflexivity].
  repeat (apply Forall_cons; split; [vm_compute; discriminate|]). constructor.
Defined.

Definition demo_tls_mem : memory :=
  image 0x5000 1 [11; 22; 33; 44] ∪ image 0x100000 3 (replicate block_len 7)
  ∪ image 0x104000 3 (replicate thread_len 7).
Definition demo_tls_state : lstate :=
  toy_state demo_tls_mem [demo_tls_obj 0x4000 0x1000 4 6; demo_tls_obj 0 0 0 8].

Lemma image_perm a prot bs x :
  in_range a (length bs) x → ∃ c, image a prot bs !! x = Some c ∧ c_prot c = prot.
Proof.
  revert a. induction bs as [|b bs IH]; intros a Hx; [range|]. cbn [image].
  destruct (decide (x = a)) as [->|Hn].
  - rewrite lookup_insert_eq. by eexists.
  - rewrite lookup_insert_ne by done. apply IH. range.
Qed.

Lemma image_outside a prot bs x : ¬ in_range a (length bs) x → image a prot bs !! x = None.
Proof.
  revert a. induction bs as [|b bs IH]; intros a Hx; [done|]. cbn [image].
  rewrite lookup_insert_ne by range. apply IH. range.
Qed.

Lemma demo_tls_lookup x :
  (in_range 0x100000 block_len x ∨ in_range 0x104000 thread_len x) →
  ∃ c, demo_tls_mem !! x = Some c ∧ c_prot c = 3.
Proof.
  intros Hx. unfold demo_tls_mem.
  assert ((image 0x5000 1 [11; 22; 33; 44] : memory) !! x = None) as H1
    by (apply image_outside; simpl length; blk).
  destruct Hx as [Hx|Hx].
  - destruct (image_perm 0x100000 3 (replicate block_len 7) x) as (c & Hc & Hp);
      [by rewrite length_replicate|]. exists c. split; [|exact Hp].
    apply union3_lookup. right. left. exact (conj H1 Hc).
  - destruct (image_perm 0x104000 3 (replicate thread_len 7) x) as (c & Hc & Hp);
      [by rewrite length_replicate|]. exists c. split; [|exact Hp].
    apply union3_lookup. right. right.
    split; [exact H1|]. split; [|exact Hc]. apply image_outside. rewrite length_replicate. blk.
Qed.

Lemma demo_tls_usable a n :
  (∀ x, in_range a n x → in_range 0x100000 block_len x ∨ in_range 0x104000 thread_len x) →
  readable demo_tls_mem a n ∧ writable demo_tls_mem a n.
Proof.
  intros Hr. split; intros x Hx; destruct (demo_tls_lookup x (Hr x Hx)) as (c & Hc & Hp);
    exists c; (split; [done|]); unfold can_read, can_write; by rewrite Hp.
Qed.

Lemma demo_tls_inputs : tls_inputs demo_tls_mem (l_objs demo_tls_state).
Proof.
  constructor.
  - apply union_ok; [apply union_ok|]; apply image_ok.
    + repeat constructor; unfold in_u8; lia.
    + apply Forall_replicate. unfold in_u8. lia.
    + apply Forall_replicate. unfold in_u8. lia.
  - apply demo_tls_usable. auto.
  - apply demo_tls_usable. auto.
  - cbn. blk.
  - repeat (apply Forall_cons; split; [cbn; lia|]). constructor.
  - cbn. lia.
  - apply Forall_cons; split.
    + intros _. change (template_addr _) with 0x5000.
      change (own_address g_tls_block) with 0x100000. cbn [tls_filesz demo_tls_obj with_tls].
      split; [|change (Z.to_nat 4) with 4%nat; blk].
      intros x Hx.
      destruct (image_perm 0x5000 1 [11; 22; 33; 44] x) as (c & Hc & Hp); [exact Hx|].
      exists c. split; [|unfold can_read; rewrite Hp; reflexivity].
      apply union3_lookup. left. exact Hc.
    + apply Forall_cons; split; [done|constructor].
Qed.

Lemma init_tls_correct_witness :
  ∃ m', init_tls demo_tls_state = Done () (log (EvTpidr 0x100000)
      (set_mem m' (set_objs (assign_tls 256 (l_objs demo_tls_state)) demo_tls_state))) ∧
    load_bytes m' 0x100100 6 = Some [11; 22; 33; 44; 0; 0].
Proof.
  destruct (init_tls_correct demo_tls_state demo_tls_inputs) as (m' & Hrun & Himg & _).
  exists m'. split; [exact Hrun|].
  refine (eq_trans (Himg (with_tls_offset (demo_tls_obj 0x4000 0x1000 4 6) 256) _ eq_refl) _).
  - apply list_elem_of_here.
  - change (tls_image (l_mem demo_tls_state) _) with
      (t ← load_bytes demo_tls_mem 0x5000 4; Some (t ++ [0; 0])).
    assert (load_bytes demo_tls_mem 0x5000 4 = Some [11; 22; 33; 44]) as ->; [|reflexivity].
    vm_compute. reflexivity.
Defined.

(** ** Properties of the entry of the linker

    The load base each strategy computes, the iteration over the program
    headers of the loaded objects, the end of [linker_main] on every input, and
    what happens when the TLS templates do not fit the static block. *)

(** ** The load base *)

Lemma find_ph_first f phs ph pre post :
  phs = pre ++ ph :: post → Forall (λ p, f p = false) pre → f ph = true → find_ph f phs = Some ph.
Proof.
  intros -> Hpre Hph. unfold find_ph.
  assert (find_idx f (pre ++ ph :: post) = Some (length pre)) as ->.
  { induction Hpre as [|p pre Hp _ IH]; cbn [app find_idx length]; [by rewrite Hph|].
    by rewrite Hp, IH. }
  obind. by apply list_lookup_middle.
Qed.

Lemma find_ph_none f phs : Forall (λ p, f p = false) phs → find_ph f phs = None.
Proof.
  intros Hf. unfold find_ph. assert (find_idx f phs = None) as ->; [|done].
  induction Hf as [|p phs Hp _ IH]; [done|]. cbn [find_idx]. by rewrite Hp, IH.
Qed.

Definition is_phdr (ph : Elf64_Phdr) : bool := p_type ph =? PT_PHDR.
Definition is_base_load (ph : Elf64_Phdr) : bool := (p_type ph =? PT_LOAD) && (p_offset ph =? 0).

(** The load base of an executable loaded with a slide.  With a PT_PHDR
    entry it is the slide.  Without one, and with the table at file offset
    [phoff] of the segment at offset 0, it is the slide plus [phoff]: the
    header size too much, since the table follows the ELF header.  With
    neither it is 0. *)
Theorem exe_load_base_strategies phdr slide phs :
  (∀ pre ph post, phs = pre ++ ph :: post → Forall (λ p, is_phdr p = false) pre → is_phdr ph = true →
     phdr = u64 (p_vaddr ph + slide) → exe_load_base phdr phs = u64 slide) ∧
  (∀ pre ph post phoff, Forall (λ p, is_phdr p = false) phs → phs = pre ++ ph :: post →
     Forall (λ p, is_base_load p = false) pre → is_base_load ph = true →
     phdr = u64 (p_vaddr ph + phoff + slide) → exe_load_base phdr phs = u64 (slide + phoff)) ∧
  (Forall (λ p, is_phdr p = false) phs → Forall (λ p, is_base_load p = false) phs →
     exe_load_base phdr phs = 0).
Proof.
  unfold exe_load_base. fold is_phdr is_base_load. split_and!.
  - intros pre ph post Hphs Hpre Hph ->. rewrite (find_ph_first _ _ _ _ _ Hphs Hpre Hph).
    words. zdm.
  - intros pre ph post phoff Hno Hphs Hpre Hph ->.
    rewrite (find_ph_none _ _ Hno), (find_ph_first _ _ _ _ _ Hphs Hpre Hph). words. zdm.
  - intros Hno Hno'. by rewrite (find_ph_none _ _ Hno), (find_ph_none _ _ Hno').
Qed.

(** ** Iterating over the objects *)

Section Iterate.
Context `{Platform}.

(** What [lnk_dl_iterate_phdr] reports about an object: nothing for a library
    without a base or when there is no ELF header at the base. *)
Definition phdr_report (m : memory) (first : bool) (o : Object) : option (option dl_phdr_info) :=
  if (load_base o =? 0) && negb first then Some None else
  ident ← load_bytes m (load_base o) 4;
  if negb (bool_decide (ident = [0x7f; 69; 76; 70])) then Some None else
  phoff ← load64 m (load_base o + 32); phnum ← load16 m (load_base o + 56);
  Some (Some {| dlpi_addr := load_base o; dlpi_name := soname o;
                dlpi_phdr := u64 (load_base o + phoff); dlpi_phnum := phnum |}).

(** The reports of all objects, in load order. *)
Fixpoint phdr_reports (m : memory) (first : bool) (os : list Object) : option (list dl_phdr_info) :=
  match os with
  | [] => Some []
  | o :: os =>
      r ← phdr_report m first o; rs ← phdr_reports m false os;
      Some (match r with Some i => i :: rs | None => rs end)
  end.

(** The first report whose callback result is not 0, or 0. *)
Definition first_nonzero (f : dl_phdr_info → Z) (infos : list dl_phdr_info) : Z :=
  default 0 (head (filter (λ r, r ≠ 0) (f <$> infos))).

Lemma iterate_phdr_go_run first os f infos (s : lstate) :
  phdr_reports (l_mem s) first os = Some infos →
  iterate_phdr_go first os (λ i, mret (f i)) s = Done (first_nonzero f infos) s.
Proof.
  revert first infos. induction os as [|o os IH]; intros first infos Hr; cbn [phdr_reports] in Hr.
  { by injection Hr as <-. }
  apply bind_Some in Hr as (r & Hr & Hinf). apply bind_Some in Hinf as (rs & Hrs & [= <-]).
  cbn [iterate_phdr_go]. unfold phdr_report in Hr. destruct (_ && _).
  { injection Hr as <-. by apply IH. }
  apply bind_Some in Hr as (ident & Hid & Hr). rd_step Hid. destruct (negb _).
  { injection Hr as <-. by apply IH. }
  apply bind_Some in Hr as (phoff & Hpo & Hr). rd_step Hpo.
  apply bind_Some in Hr as (phnum & Hpn & Hr). rd_step Hpn. injection Hr as <-.
  unfold mbind at 1, M_bind at 1. cbn [mret M_ret]. unfold first_nonzero. rewrite fmap_cons, filter_cons.
  destruct (Z.eqb_spec (f {| dlpi_addr := load_base o; dlpi_name := soname o;
    dlpi_phdr := u64 (load_base o + phoff); dlpi_phnum := phnum |}) 0) as [E|E].
  - rewrite decide_False by (intros ?; done). cbn [negb]. by apply IH.
  - by rewrite decide_True.
Qed.

(** [dl_iterate_phdr] with a callback that computes [f]: the callback
    sees the loaded objects with an ELF header, in load order, up to the first
    non-zero result, which is returned; 0 when there is none. *)
Theorem dl_iterate_phdr_order f infos (s : lstate) :
  phdr_reports (l_mem s) true (l_objs s) = Some infos →
  ∃ bs, lnk_dl_iterate_phdr (λ i, mret (f i)) s = Done (first_nonzero f infos) (log (EvWrite 2 bs) s).
Proof.
  intros Hr. exists (cs ("[linker64] lnk_dl_iterate_phdr" +:+ nl)). unfold lnk_dl_iterate_phdr.
  assert (puts ("[linker64] lnk_dl_iterate_phdr" +:+ nl) s =
    Done () (log (EvWrite 2 (cs ("[linker64] lnk_dl_iterate_phdr" +:+ nl))) s)) as Hp by reflexivity.
  rewrite (bind_step _ _ _ _ _ Hp). unfold get, mbind, M_bind. cbn [l_objs log].
  by apply iterate_phdr_go_run.
Qed.

(** ** The end of the linker *)

#[local] Hint Resolve lnk_puts_fuel puts_fuel hex_fuel FATAL_fuel record_dynamic_fuel
  relocate_object_fuel : fuel.

Lemma copy_bytes_fuel n dst src s : has_fuel (copy_bytes n dst src) s.
Proof. revert dst src s. induction n as [|n IH]; intros dst src s; cbn [copy_bytes]; fuels. Qed.
#[local] Hint Resolve copy_bytes_fuel : fuel.

Lemma init_tls_fuel s : has_fuel init_tls s.
Proof.
  unfold init_tls, init_tcb, sys_gettid. fuels. apply for_each_fuel. intros. unfold copy_template. fuels.
Qed.

Lemma load_needed_fuel s : has_fuel load_needed s.
Proof.
  unfold load_needed. apply has_fuel_bind; [done|intros]. apply has_fuel_bind; [apply lift_fuel|intros].
  case_match; [|done]. apply for_each_fuel. intros off s2.
  apply has_fuel_bind; [apply rd_fuel|intros]. apply load_needed_so_fuel.
  unfold load_fuel, MAX_OBJECTS. lia.
Qed.

Lemma relocate_all_fuel phdr ent base lo hi h x n s :
  has_fuel (relocate_all phdr ent base lo hi h x n) s.
Proof.
  unfold relocate_all. apply has_fuel_bind; [by destruct (negb _)|intros].
  apply has_fuel_bind; [done|intros]. apply has_fuel_bind; [apply lift_fuel|intros].
  apply has_fuel_bind; [apply relocate_object_fuel|intros]. apply has_fuel_bind.
  { destruct (negb _); [|done]. apply for_each_fuel. intros. unfold restore_segment. fuels. }
  intros. apply has_fuel_bind; [done|intros]. apply for_each_fuel. intros i s2.
  unfold relocate_library, debug_got. fuels.
Qed.


(** ** Templates that do not fit *)

(** Nothing compares the end of a template with the size of the TLS
    block: the copy of a template that reaches past the 16384 bytes stores
    its tail into the memory behind the block. *)
Theorem copy_template_overruns o bs b (s : lstate) :
  has_template o = true → 0 <= tls_offset o <= tls_block_size →
  tls_block_size < tls_offset o + tls_filesz o →
  load_bytes (l_mem s) (template_addr o) (Z.to_nat (tls_filesz o)) = Some bs →
  writable (l_mem s) (own_address g_tls_block + tls_offset o) (Z.to_nat (tls_filesz o)) →
  disjoint_ranges (own_address g_tls_block + tls_offset o) (Z.to_nat (tls_filesz o))
    (template_addr o) (Z.to_nat (tls_filesz o)) →
  bs !! Z.to_nat (tls_block_size - tls_offset o) = Some b →
  ∃ m', copy_template o s = Done () (set_mem m' s) ∧
    c_byte <$> m' !! (own_address g_tls_block + tls_block_size) = Some (u8 b).
Proof.
  intros Ht Ho Ho2 Hl Hw Hd Hb. destruct (copy_bytes_run _ _ _ _ _ Hl Hw Hd) as (m' & Hrun & Hst).
  exists m'. split; [unfold copy_template; fold (has_template o); rewrite Ht; exact Hrun|].
  rewrite (store_bytes_lookup _ _ _ _ Hst), decide_True by lia.
  replace (own_address g_tls_block + tls_block_size - (own_address g_tls_block + tls_offset o))
    with (tls_block_size - tls_offset o) by lia.
  rewrite Hb. destruct (Hw (own_address g_tls_block + tls_block_size)) as (c & Hc & _).
  { unfold in_range. lia. }
  by rewrite Hc.
Qed.
End Iterate.

(** ** Concrete inputs *)

Definition demo_ph (ty off va : Z) : Elf64_Phdr :=
  {| p_type := ty; p_flags := 5; p_offset := off; p_vaddr := va; p_paddr := va; p_filesz := 0x1000;
     p_memsz := 0x1000; p_align := 4096 |}.

(** The slide is 0x7000 and the table is at file offset 0x40: the two
    strategies disagree. *)
Lemma exe_load_base_strategies_witness :
  exe_load_base 0x7040 [demo_ph PT_PHDR 0x40 0x40; demo_ph PT_LOAD 0 0] = 0x7000 ∧
  exe_load_base 0x7040 [demo_ph PT_LOAD 0x2000 0x2000; demo_ph PT_LOAD 0 0] = 0x7040.
Proof.
  split.
  - refine (proj1 (exe_load_base_strategies 0x7040 0x7000 _) [] (demo_ph PT_PHDR 0x40 0x40) _
      eq_refl _ eq_refl eq_refl). constructor.
  - refine (proj1 (proj2 (exe_load_base_strategies 0x7040 0x7000 _)) [demo_ph PT_LOAD 0x2000 0x2000]
      (demo_ph PT_LOAD 0 0) [] 0x40 _ eq_refl _ eq_refl eq_refl); repeat constructor.
Defined.

Definition demo_ehdr : list Z :=
  [0x7f; 69; 76; 70] ++ replicate 28 0 ++ le_split 8 64 ++ replicate 16 0 ++ le_split 2 3 ++ replicate 6 0.
Definition demo_iter_state : lstate :=
  toy_state (image 0x4000 1 demo_ehdr ∪ image 0x8000 1 (replicate 64 9))
    [with_base object_zero 0x8000; object_zero; with_base object_zero 0x4000].

(** The executable has no header at its base, the phantom is skipped. *)
Lemma dl_iterate_phdr_order_witness :
  ∃ bs, lnk_dl_iterate_phdr (λ i, mret (dlpi_addr i + dlpi_phnum i)) demo_iter_state =
    Done 0x4003 (log (EvWrite 2 bs) demo_iter_state).
Proof.
  apply (dl_iterate_phdr_order (λ i, dlpi_addr i + dlpi_phnum i)
    [{| dlpi_addr := 0x4000; dlpi_name := replicate 128 0; dlpi_phdr := 0x4040; dlpi_phnum := 3 |}]).
  vm_compute. reflexivity.
Defined.

Definition demo_overrun_obj : Object := with_tls_offset (demo_tls_obj 0x5000 0x10 6 6) 16380.
Definition demo_overrun_state : lstate :=
  toy_state (image 0x5010 1 [1; 2; 3; 4; 5; 6] ∪ image 0x103ffc 3 (replicate 8 0)) [demo_overrun_obj].

Lemma copy_template_overruns_witness :
  ∃ m', copy_template demo_overrun_obj demo_overrun_state = Done () (set_mem m' demo_overrun_state) ∧
    c_byte <$> m' !! (own_address g_tls_block + tls_block_size) = Some 5.
Proof.
  apply (copy_template_overruns demo_overrun_obj [1; 2; 3; 4; 5; 6] 5 demo_overrun_state).
  - reflexivity.
  - split; vm_compute; discriminate.
  - reflexivity.
  - vm_compute. reflexivity.
  - apply writable_check. vm_compute. reflexivity.
  - right. vm_compute. discriminate.
  - reflexivity.
Defined.
