(* ===== verification/Float32.v ===== *)
(** * The C type [float]

    A [float] is an IEEE binary32 number, an element of [spec_float] with 24
    bits of mantissa and the exponent bound 128; the operations round to the
    nearest even number, one by one (no contraction to fused operations).
    Conversions to [int] have no defined behaviour out of range.  The two
    conversions muplar_floor_to_int and muplar_ceil_to_int of
    platform/android-aarch64/art-shim/muplar_android_art_shim.c are proved to
    be the clamped floor and ceiling. *)

From S2P Require Import Prelude.
From Stdlib Require Export Floats.SpecFloat.

Abbreviation f32 := spec_float.

Definition fadd : f32 → f32 → f32 := SFadd 24 128.
Definition fsub : f32 → f32 → f32 := SFsub 24 128.
Definition fmul : f32 → f32 → f32 := SFmul 24 128.
Definition fdiv : f32 → f32 → f32 := SFdiv 24 128.
Definition fsqrt : f32 → f32 := SFsqrt 24 128.
Definition fabs : f32 → f32 := SFabs.
Definition flt (x y : f32) : bool := SFltb x y.
Definition fle (x y : f32) : bool := SFleb x y.
Definition feq (x y : f32) : bool := SFeqb x y.
Definition f32_of_Z (z : Z) : f32 := binary_normalize 24 128 z 0 false.
(** The literal [n / d]. *)
Definition f32_lit (n d : Z) : f32 := fdiv (f32_of_Z n) (f32_of_Z d).
Definition is_nan (x : f32) : bool := match x with S754_nan => true | _ => false end.

(** [(int) x], truncated towards zero. *)
Definition f32_to_int (x : f32) : option Z :=
  z ← match x with
      | S754_zero _ => Some 0
      | S754_finite s m e =>
          let a := if 0 <=? e then Zpos m * 2 ^ e else Zpos m / 2 ^ (- e) in
          Some (if s then - a else a)
      | _ => None
      end;
  if (-2147483648 <=? z) && (z <=? 2147483647) then Some z else None.

(** platform/android-aarch64/art-shim/muplar_android_art_shim.c:821-833 (muplar_floor_to_int) *)
Definition muplar_floor_to_int (value : f32) : option Z :=
  if is_nan value then Some 0 else
  if fle value (f32_of_Z (-1000000)) then Some (-1000000) else
  if fle (f32_of_Z 1000000) value then Some 1000000 else
  i ← f32_to_int value;
  Some (if flt value (f32_of_Z i) then i - 1 else i).

(** platform/android-aarch64/art-shim/muplar_android_art_shim.c:835-847 (muplar_ceil_to_int) *)
Definition muplar_ceil_to_int (value : f32) : option Z :=
  if is_nan value then Some 0 else
  if fle value (f32_of_Z (-1000000)) then Some (-1000000) else
  if fle (f32_of_Z 1000000) value then Some 1000000 else
  i ← f32_to_int value;
  Some (if flt (f32_of_Z i) value then i + 1 else i).

(** ** The value of a number *)

(** A number in range of the format. *)
Definition f32_valid (x : f32) : Prop := valid_binary 24 128 x = true.
Definition f32_finite (x : f32) : bool :=
  match x with S754_zero _ | S754_finite _ _ _ => true | _ => false end.
(** The value of a finite number as a multiple of the least one, [2^-149]. *)
Definition scaled (x : f32) : Z :=
  match x with
  | S754_finite s m e => if s then - (Zpos m * 2 ^ (e + 149)) else Zpos m * 2 ^ (e + 149)
  | _ => 0
  end.

Lemma digits_spec m : 2 ^ (Zpos (digits2_pos m) - 1) <= Zpos m < 2 ^ Zpos (digits2_pos m).
Proof.
  induction m as [m IH|m IH|]; cbn [digits2_pos]; [| |simpl; lia];
    rewrite Pos2Z.inj_succ; replace (Z.succ (Zpos (digits2_pos m)) - 1) with (Zpos (digits2_pos m)) by lia;
    rewrite Z.pow_succ_r by lia;
    replace (Zpos (digits2_pos m)) with (Z.succ (Zpos (digits2_pos m) - 1)) at 1 by lia;
    rewrite Z.pow_succ_r by lia; lia.
Qed.

Lemma digits_unique m d : 2 ^ (d - 1) <= Zpos m < 2 ^ d → Zpos (digits2_pos m) = d.
Proof.
  intros Hd. pose proof (digits_spec m) as Hm.
  assert (0 < d) by (destruct (Z.le_gt_cases d 0) as [Hle|]; [|done];
    pose proof (Z.pow_le_mono_r 2 d 0 ltac:(lia) Hle); simpl in *; lia).
  destruct (Z.lt_trichotomy (Zpos (digits2_pos m)) d) as [Hlt|[->|Hgt]]; [|done|].
  - pose proof (Z.pow_le_mono_r 2 (Zpos (digits2_pos m)) (d - 1) ltac:(lia) ltac:(lia)). lia.
  - pose proof (Z.pow_le_mono_r 2 d (Zpos (digits2_pos m) - 1) ltac:(lia) ltac:(lia)). lia.
Qed.

(** What it means for a mantissa and an exponent to be canonical. *)
Lemma valid_finite s m e :
  f32_valid (S754_finite s m e) →
  -149 <= e <= 104 ∧ 0 < Zpos m < 16777216 ∧ (e = -149 ∨ 8388608 <= Zpos m).
Proof.
  unfold f32_valid, valid_binary, bounded, canonical_mantissa, fexp, emin.
  intros [Hc%Z.eqb_eq He%Z.leb_le]%andb_true_iff. pose proof (digits_spec m) as [H1 H2].
  set (d := Zpos (digits2_pos m)) in *.
  assert (d <= 24) as Hd by lia.
  pose proof (Z.pow_le_mono_r 2 d 24 ltac:(lia) Hd) as Hp. change (2 ^ 24) with 16777216 in Hp.
  split_and!; [lia..|]. destruct (decide (e = -149)) as [|Hne]; [by left|right].
  assert (d = 24) as -> by lia. exact H1.
Qed.

Lemma scaled_lt m1 e1 m2 e2 s1 s2 :
  f32_valid (S754_finite s1 m1 e1) → f32_valid (S754_finite s2 m2 e2) → e1 < e2 →
  Zpos m1 * 2 ^ (e1 + 149) < Zpos m2 * 2 ^ (e2 + 149).
Proof.
  intros (? & ? & _)%valid_finite (? & ? & H2)%valid_finite Hlt.
  assert (Zpos m1 < Zpos m2 * 2) by (destruct H2; lia).
  replace (e2 + 149) with ((e1 + 149) + 1 + (e2 - e1 - 1)) by lia.
  rewrite (Z.pow_add_r 2 (e1 + 149 + 1)), (Z.pow_add_r 2 (e1 + 149)) by lia.
  pose proof (Z.pow_pos_nonneg 2 (e1 + 149) ltac:(lia) ltac:(lia)).
  pose proof (Z.pow_pos_nonneg 2 (e2 - e1 - 1) ltac:(lia) ltac:(lia)).
 
  change (2 ^ 1) with 2. set (a := 2 ^ (e1 + 149)) in *. set (b := 2 ^ (e2 - e1 - 1)) in *.
  assert (Zpos m1 * a < Zpos m2 * 2 * a) by (apply Z.mul_lt_mono_pos_r; lia).
  assert (Zpos m2 * 2 * a * 1 <= Zpos m2 * 2 * a * b) by (apply Z.mul_le_mono_nonneg_l; lia).
  lia.
Qed.

Lemma compare_pos m1 e1 m2 e2 s1 s2 :
  f32_valid (S754_finite s1 m1 e1) → f32_valid (S754_finite s2 m2 e2) →
  (Zpos m1 * 2 ^ (e1 + 149) ?= Zpos m2 * 2 ^ (e2 + 149)) =
  match (e1 ?= e2) with Lt => Lt | Gt => Gt | Eq => Pos.compare_cont Eq m1 m2 end.
Proof.
  intros H1 H2. destruct (Z.compare_spec e1 e2) as [->|Hlt|Hgt].
  - pose proof (valid_finite _ _ _ H1). 
    rewrite <- Zmult_compare_compat_r by (apply Z.lt_gt, Z.pow_pos_nonneg; lia). reflexivity.
  - apply Z.compare_lt_iff. by eapply scaled_lt.
  - apply Z.compare_gt_iff. by eapply scaled_lt.
Qed.

Lemma finite_pos s m e : f32_valid (S754_finite s m e) → 0 < Zpos m * 2 ^ (e + 149).
Proof.
  intros H%valid_finite. pose proof (Z.pow_pos_nonneg 2 (e + 149) ltac:(lia) ltac:(lia)). lia.
Qed.

(** Comparing numbers compares values. *)
Lemma compare_scaled x y :
  f32_valid x → f32_valid y → f32_finite x = true → f32_finite y = true →
  SFcompare x y = Some (scaled x ?= scaled y).
Proof.
  intros Hx Hy Fx Fy.
  destruct x as [sx|?| |sx mx ex], y as [sy|?| |sy my ey]; try done; cbn [SFcompare scaled];
    f_equal; symmetry.
  - pose proof (finite_pos _ _ _ Hy). destruct sy; [apply Z.compare_gt_iff|apply Z.compare_lt_iff]; lia.
  - pose proof (finite_pos _ _ _ Hx). destruct sx; [apply Z.compare_lt_iff|apply Z.compare_gt_iff]; lia.
  - pose proof (finite_pos _ _ _ Hx). pose proof (finite_pos _ _ _ Hy).
    pose proof (compare_pos _ _ _ _ _ _ Hx Hy) as Hc.
    destruct sx, sy; [|apply Z.compare_lt_iff; lia|apply Z.compare_gt_iff; lia|exact Hc].
    rewrite Z.compare_opp, Z.compare_antisym, Hc. by destruct (ex ?= ey).
Qed.

(** Small integers are represented exactly. *)
Lemma iter_xO m p : Zpos (Pos.iter xO m p) = Zpos m * 2 ^ Zpos p.
Proof.
  induction p as [|p IH] using Pos.peano_ind; [simpl; lia|].
  rewrite Pos.iter_succ, Pos2Z.inj_succ, Z.pow_succ_r by lia.
  change (Zpos (Pos.iter xO m p)~0) with (2 * Zpos (Pos.iter xO m p)). rewrite IH. lia.
Qed.

Lemma round_exact s m e :
  Zpos (digits2_pos m) = 24 → -149 <= e <= 104 →
  binary_round_aux 24 128 s (Zpos m) e loc_Exact = S754_finite s m e.
Proof.
  intros Hd He. unfold binary_round_aux, shr_fexp, Zdigits2, shr_record_of_loc, fexp, emin.
  rewrite Hd. replace (Z.max (24 + e - 24) (3 - 128 - 24) - e) with 0 by lia.
  cbn [shr shr_m loc_of_shr_record round_nearest_even]. rewrite Hd.
  replace (Z.max (24 + e - 24) (3 - 128 - 24) - e) with 0 by lia. cbn [shr shr_m].
  by rewrite (proj2 (Z.leb_le _ _)) by lia.
Qed.

Lemma binary_round_small s m :
  Zpos m < 16777216 →
  ∃ mz e, binary_round 24 128 s m 0 = S754_finite s mz e ∧ f32_valid (S754_finite s mz e) ∧
    Zpos mz * 2 ^ (e + 149) = Zpos m * 2 ^ 149.
Proof.
  intros Hm. pose proof (digits_spec m) as Hd. set (d := Zpos (digits2_pos m)) in *.
  assert (0 < d <= 24) as Hd24.
  { split; [lia|]. destruct (Z.le_gt_cases d 24) as [|Hgt]; [done|].
    pose proof (Z.pow_le_mono_r 2 24 (d - 1) ltac:(lia) ltac:(lia)) as Hp.
    change (2 ^ 24) with 16777216 in Hp. lia. }
  assert (∃ mz, shl_align m 0 (d - 24) = (mz, d - 24) ∧ Zpos mz = Zpos m * 2 ^ (24 - d)) as (mz & Es & Ez).
  { unfold shl_align. destruct (d - 24 - 0) as [|p|p] eqn:E; [|lia|].
    - exists m. replace (d - 24) with 0 by lia. replace (24 - d) with 0 by lia. split; [done|lia].
    - eexists. split; [reflexivity|]. rewrite iter_xO. by replace (24 - d) with (Zpos p) by lia. }
  exists mz, (d - 24).
  assert (Zpos (digits2_pos mz) = 24) as Hmz.
  { apply digits_unique. rewrite Ez.
    replace (2 ^ (24 - 1)) with (2 ^ (d - 1) * 2 ^ (24 - d)) by (rewrite <- Z.pow_add_r by lia; f_equal; lia).
    replace (2 ^ 24) with (2 ^ d * 2 ^ (24 - d)) by (rewrite <- Z.pow_add_r by lia; f_equal; lia).
    pose proof (Z.pow_pos_nonneg 2 (24 - d) ltac:(lia) ltac:(lia)). nia. }
  split_and!.
  - unfold binary_round, fexp, emin. fold d.
    replace (Z.max (d + 0 - 24) (3 - 128 - 24)) with (d - 24) by lia. rewrite Es.
    apply round_exact; [done|lia].
  - unfold f32_valid, valid_binary, bounded, canonical_mantissa, fexp, emin. rewrite Hmz.
    apply andb_true_iff. rewrite Z.eqb_eq, Z.leb_le. lia.
  - rewrite Ez, <- Z.mul_assoc, <- Z.pow_add_r by lia. do 2 f_equal. lia.
Qed.

Lemma f32_of_Z_spec i :
  Z.abs i < 16777216 →
  f32_valid (f32_of_Z i) ∧ f32_finite (f32_of_Z i) = true ∧ scaled (f32_of_Z i) = i * 2 ^ 149.
Proof.
  intros Hi. unfold f32_of_Z, binary_normalize. destruct i as [|m|m]; [done|..].
  - destruct (binary_round_small false m) as (mz & e & -> & Hv & E); [lia|]. split_and!; done.
  - destruct (binary_round_small true m) as (mz & e & -> & Hv & E); [lia|]. split_and!; [done|done|].
    cbn [scaled]. lia.
Qed.

(** The truncation of a finite number. *)
Lemma f32_to_int_spec x :
  f32_valid x → f32_finite x = true → Z.abs (scaled x) < 1000000 * 2 ^ 149 →
  f32_to_int x = Some (Z.quot (scaled x) (2 ^ 149)) .
Proof.
  intros Hv Hf Hb. unfold f32_to_int. destruct x as [sx|?| |s m e]; try done.
  pose proof (valid_finite _ _ _ Hv) as (He & Hm & _). pose proof (finite_pos _ _ _ Hv) as Hp.
  assert ((if 0 <=? e then Zpos m * 2 ^ e else Zpos m / 2 ^ (- e)) =
          (Zpos m * 2 ^ (e + 149)) / 2 ^ 149) as ->.
  { destruct (Z.leb_spec 0 e).
    - rewrite Z.pow_add_r, Z.mul_assoc, Z.div_mul by lia. done.
    - replace (2 ^ 149) with (2 ^ (- e) * 2 ^ (e + 149)) by (rewrite <- Z.pow_add_r by lia; f_equal; lia).
      rewrite Z.div_mul_cancel_r; [done|apply Z.pow_nonzero; lia..]. }
  assert (Z.abs (scaled (S754_finite s m e)) = Zpos m * 2 ^ (e + 149)) as Ha by (cbn; destruct s; lia).
  rewrite Ha in Hb. set (v := Zpos m * 2 ^ (e + 149)) in *.
  assert (0 <= v / 2 ^ 149 < 1000000) as Hq.
  { split; [apply Z.div_pos; lia|apply Z.div_lt_upper_bound; lia]. }
  cbn [mbind option_bind scaled]. fold v.
  assert ((if s then - (v / 2 ^ 149) else v / 2 ^ 149) = Z.quot (if s then - v else v) (2 ^ 149)) as <-.
  { destruct s; [rewrite Z.quot_opp_l by lia; f_equal|]; symmetry; apply Z.quot_div_nonneg; lia. }
  destruct s; rewrite (proj2 (Z.leb_le _ _)), (proj2 (Z.leb_le _ _)) by lia; done.
Qed.

(** ** Operations stay in the format *)

Lemma zdigits_spec m : 0 < m → 2 ^ (Zdigits2 m - 1) <= m < 2 ^ Zdigits2 m ∧ 0 < Zdigits2 m.
Proof. destruct m as [|p|p]; try lia. intros _. split; [apply digits_spec|cbn; lia]. Qed.

Lemma zdigits_unique m d : 0 < m → 2 ^ (d - 1) <= m < 2 ^ d → Zdigits2 m = d.
Proof. destruct m as [|p|p]; try lia. intros _. apply digits_unique. Qed.

Lemma zdigits_div m n : 0 <= m → 0 <= n → Zdigits2 (m / 2 ^ n) = Z.max 0 (Zdigits2 m - n).
Proof.
  intros Hm Hn. destruct (Z.eq_dec m 0) as [->|Hne]; [rewrite Z.div_0_l by (apply Z.pow_nonzero; lia); cbn; lia|].
  destruct (zdigits_spec m) as [[H1 H2] Hd]; [lia|].
  pose proof (Z.pow_pos_nonneg 2 n ltac:(lia) Hn) as Hp.
  destruct (Z.le_gt_cases (Zdigits2 m) n) as [Hle|Hgt].
  - rewrite Z.div_small; [cbn; lia|]. split; [lia|].
    pose proof (Z.pow_le_mono_r 2 (Zdigits2 m) n ltac:(lia) Hle). lia.
  - rewrite Z.max_r by lia. apply zdigits_unique.
    + apply Z.div_str_pos. pose proof (Z.pow_le_mono_r 2 n (Zdigits2 m - 1) ltac:(lia) ltac:(lia)). lia.
    + split.
      * apply Z.div_le_lower_bound; [lia|]. rewrite <- Z.pow_add_r by lia.
        by replace (n + (Zdigits2 m - n - 1)) with (Zdigits2 m - 1) by lia.
      * apply Z.div_lt_upper_bound; [lia|]. rewrite <- Z.pow_add_r by lia.
        by replace (n + (Zdigits2 m - n)) with (Zdigits2 m) by lia.
Qed.

Lemma shr_1_m mrs : 0 <= shr_m mrs → shr_m (shr_1 mrs) = shr_m mrs / 2.
Proof.
  destruct mrs as [[|[p|p|]|p] r s]; cbn [shr_m]; intros Hm; try lia; try reflexivity; cbn [shr_1 shr_m].
  - change (Zpos p~1) with (2 * Zpos p + 1). zdm.
  - change (Zpos p~0) with (2 * Zpos p). zdm.
Qed.

Lemma iter_shr_m p mrs :
  0 <= shr_m mrs → shr_m (iter_pos shr_1 p mrs) = shr_m mrs / 2 ^ Zpos p.
Proof.
  assert (∀ z q, 0 <= z → 0 <= z / 2 ^ Zpos q) as Hpos
    by (intros; apply Z.div_pos; [done|apply Z.pow_pos_nonneg; lia]).
  revert mrs. induction p as [p IH|p IH|]; intros mrs Hm; cbn [iter_pos].
  - assert (0 <= shr_m (shr_1 mrs)) as H1 by (rewrite shr_1_m by done; apply Z.div_pos; lia).
    rewrite (IH (iter_pos shr_1 p (shr_1 mrs))), (IH (shr_1 mrs)), shr_1_m
      by (done || rewrite (IH _ H1); by apply Hpos).
    rewrite !Z.div_div by (try apply Z.pow_nonzero; lia).
    f_equal. rewrite <- Z.pow_add_r by lia. rewrite <- Z.pow_succ_r by lia. f_equal. lia.
  - rewrite (IH (iter_pos shr_1 p mrs)), (IH mrs) by (done || rewrite (IH _ Hm); by apply Hpos).
    rewrite Z.div_div by (try apply Z.pow_nonzero; lia).
    f_equal. rewrite <- Z.pow_add_r by lia. f_equal. lia.
  - by rewrite shr_1_m.
Qed.

(** One shift: the mantissa and the exponent after it. *)
Lemma shr_spec mrs e n : 0 <= shr_m mrs → 0 <= n →
  shr_m (shr mrs e n).1 = shr_m mrs / 2 ^ n ∧ (shr mrs e n).2 = e + n.
Proof.
  intros Hm Hn. destruct n as [|p|p]; [|split; [by apply iter_shr_m|done]|lia].
  cbn. rewrite Z.div_1_r. split; [done|lia].
Qed.

Lemma shr_record_m m l : shr_m (shr_record_of_loc m l) = m.
Proof. by destruct l as [|[]]. Qed.

Lemma round_nearest_even_near m l : round_nearest_even m l = m ∨ round_nearest_even m l = m + 1.
Proof. destruct l as [|[]]; cbn; try (by left); try (by right). destruct (Z.even m); auto. Qed.

Abbreviation fe := (fexp 24 128).
Lemma fe_eq x : fe x = Z.max (x - 24) (-149).
Proof. reflexivity. Qed.

(** Shifting out zeros is exact. *)
Lemma iter_shr_exact p q : 0 <= q →
  iter_pos shr_1 p (Build_shr_record (q * 2 ^ Zpos p) false false) = Build_shr_record q false false.
Proof.
  assert (∀ q, 0 <= q → shr_1 (Build_shr_record (q * 2) false false) = Build_shr_record q false false) as H1.
  { intros r Hr. destruct r as [|r|r]; [done| |lia]. replace (Zpos r * 2) with (Zpos r~0) by lia. done. }
  revert q. induction p as [p IH|p IH|]; intros q Hq; cbn [iter_pos]; [| |by apply H1].
  - replace (q * 2 ^ Zpos p~1) with (q * 2 ^ Zpos p * 2 ^ Zpos p * 2).
    2: { rewrite <- (Z.mul_assoc q), <- Z.pow_add_r, <- Z.mul_assoc, (Z.mul_comm _ 2), <- Z.pow_succ_r by lia.
         do 2 f_equal. lia. }
    pose proof (Z.pow_pos_nonneg 2 (Zpos p) ltac:(lia) ltac:(lia)).
    rewrite H1, IH, IH by nia. done.
  - replace (q * 2 ^ Zpos p~0) with (q * 2 ^ Zpos p * 2 ^ Zpos p).
    2: { rewrite <- Z.mul_assoc, <- Z.pow_add_r by lia. do 2 f_equal. lia. }
    pose proof (Z.pow_pos_nonneg 2 (Zpos p) ltac:(lia) ltac:(lia)). rewrite IH, IH by nia. done.
Qed.

(** What rounding computes: the mantissa is shifted to the exponent of the
    result, rounded, and shifted once more when that made it too long. *)
Lemma round_aux_shape s m e l :
  0 <= m → e <= fe (Zdigits2 m + e) →
  let ee := fe (Zdigits2 m + e) in
  let m1 := m / 2 ^ (ee - e) in
  ∃ m2 n, (m2 = m1 ∨ m2 = m1 + 1) ∧ (l = loc_Exact → m = m1 * 2 ^ (ee - e) → m2 = m1) ∧
    (n = 0 ∨ n = 1) ∧ (0 < m2 / 2 ^ n → fe (Zdigits2 (m2 / 2 ^ n) + (ee + n)) = ee + n) ∧
    binary_round_aux 24 128 s m e l =
    match m2 / 2 ^ n with
    | Z0 => S754_zero s
    | Zpos p => if ee + n <=? 104 then S754_finite s p (ee + n) else S754_infinity s
    | Zneg _ => S754_nan
    end.
Proof.
  intros Hm He. unfold binary_round_aux, shr_fexp.
  set (d := Zdigits2 m) in *. set (ee := fe (d + e)) in *.
  assert (ee = Z.max (d + e - 24) (-149)) as Hee by reflexivity.
  destruct (shr_spec (shr_record_of_loc m l) e (ee - e)) as [S1 E1]; [by rewrite shr_record_m|lia|].
  rewrite shr_record_m in S1. destruct (shr _ e (ee - e)) as [mrs1 e1] eqn:Eshr. apply (f_equal fst) in Eshr as Emrs. cbn [fst snd] in *.
  replace (e + (ee - e)) with ee in E1 by lia. subst e1.
  set (m1 := m / 2 ^ (ee - e)) in *.
  assert (0 <= m1) as Hm1 by (apply Z.div_pos; [done|apply Z.pow_pos_nonneg; lia]).
  assert (Zdigits2 m1 = Z.max 0 (d - (ee - e))) as Hd1 by (apply zdigits_div; lia).
  rewrite S1. set (m2 := round_nearest_even m1 _).
  assert (m2 = m1 ∨ m2 = m1 + 1) as Hm2 by apply round_nearest_even_near.
  set (d2 := Zdigits2 m2).
  (* the second shift is by 0 or 1, to a canonical mantissa *)
  assert (l = loc_Exact → m = m1 * 2 ^ (ee - e) → m2 = m1) as Hexact.
  { intros -> Em. unfold m2. assert (mrs1 = Build_shr_record m1 false false) as ->; [|done].
    rewrite <- Emrs, Em. unfold shr, shr_record_of_loc. destruct (ee - e) as [|p|p] eqn:Ep; [|by apply iter_shr_exact|lia].
    cbn [fst]. by rewrite Z.mul_1_r. }
  assert (∃ n, fe (d2 + ee) - ee = n ∧ (n = 0 ∨ n = 1) ∧
    (0 < m2 / 2 ^ n → fe (Zdigits2 (m2 / 2 ^ n) + (ee + n)) = ee + n)) as (n & Hn & Hn01 & Hcan).
  { rewrite fe_eq in *. destruct (Z.le_gt_cases (d - (ee - e)) 0) as [Hz|Hpos].
    - assert (m1 = 0) as Hm10.
      { destruct (Z.eq_dec m1 0); [done|]. destruct (zdigits_spec m1); lia. }
      exists 0. rewrite Z.pow_0_r, Z.div_1_r. fold d2. rewrite ?fe_eq.
      assert (d2 = 0 ∨ d2 = 1) as Hd2.
      { destruct Hm2 as [E|E]; rewrite Hm10 in E; unfold d2; rewrite E; [by left|by right]. }
      split; [lia|]. split; [by left|lia].
    - assert (0 < m1) as Hp1 by (destruct (Z.eq_dec m1 0) as [E|]; [rewrite E in Hd1; cbn in Hd1; lia|lia]).
      destruct (zdigits_spec m1 Hp1) as [[B1 B2] _]. set (d1 := Zdigits2 m1) in *.
      assert (d1 = d - (ee - e)) as Hd1' by lia. 
      assert (d2 = d1 ∨ d2 = d1 + 1 ∧ m2 = 2 ^ d1) as [Hd2|[Hd2 Em2]].
      { destruct Hm2 as [E|E]; [left; unfold d2; by rewrite E|].
        destruct (Z.eq_dec (m1 + 1) (2 ^ d1)) as [E2|Hne].
        - right. split; [|lia]. unfold d2. rewrite E, E2. apply zdigits_unique; [lia|].
          replace (d1 + 1 - 1) with d1 by lia. rewrite Z.pow_add_r by lia. lia.
        - left. unfold d2. apply zdigits_unique; [lia|]. lia. }
      + exists 0. rewrite Z.pow_0_r, Z.div_1_r. fold d2. rewrite ?fe_eq. split; [lia|]. split; [by left|lia].
      + destruct (Z.eq_dec (Z.max (d2 + ee - 24) (-149)) ee) as [E|E].
        * exists 0. rewrite Z.pow_0_r, Z.div_1_r. fold d2. rewrite fe_eq. split; [lia|]. split; [by left|lia].
        * exists 1. split; [lia|]. split; [by right|]. intros _.
          assert (Zdigits2 (m2 / 2 ^ 1) = d1) as ->; [|rewrite fe_eq; lia].
          rewrite zdigits_div by lia. fold d2. lia. }
  destruct (shr_spec (shr_record_of_loc m2 loc_Exact) ee n) as [S2 E2]; [rewrite shr_record_m; lia|lia|].
  rewrite shr_record_m in S2. rewrite Hn. destruct (shr _ ee n) as [mrs2 e2]. cbn [fst snd] in *.
  subst e2. exists m2, n. rewrite S2. done.
Qed.

(** Rounding a mantissa that is long enough gives a number in range. *)
Lemma round_aux_ok s m e l :
  0 <= m → e <= fe (Zdigits2 m + e) →
  f32_valid (binary_round_aux 24 128 s m e l) ∧ is_nan (binary_round_aux 24 128 s m e l) = false.
Proof.
  intros Hm He. destruct (round_aux_shape s m e l Hm He) as (m2 & n & Hm2 & _ & Hn & Hcan & ->).
  set (ee := fe (Zdigits2 m + e)) in *.
  assert (0 <= m / 2 ^ (ee - e)) as H1 by (apply Z.div_pos; [done|apply Z.pow_pos_nonneg; lia]).
  assert (0 <= m2 / 2 ^ n) as H2 by (apply Z.div_pos; [lia|apply Z.pow_pos_nonneg; lia]).
  destruct (m2 / 2 ^ n) as [|p|p]; [done| |lia].
  destruct (Z.leb_spec (ee + n) 104) as [Hle|]; [|done]. split; [|done].
  unfold f32_valid, valid_binary, bounded, canonical_mantissa. apply andb_true_iff. split; [|by apply Z.leb_le].
  apply Z.eqb_eq. apply (Hcan ltac:(lia)).
Qed.
Lemma round_aux_valid s m e l :
  0 <= m → e <= fe (Zdigits2 m + e) → f32_valid (binary_round_aux 24 128 s m e l).
Proof. apply round_aux_ok. Qed.

(** Rounding does not pass an integer. *)
Lemma round_aux_le m e a :
  0 < m → e <= fe (Zdigits2 m + e) → e <= 0 → 0 <= a < 16777216 → m <= a * 2 ^ (- e) →
  let r := binary_round_aux 24 128 false m e loc_Exact in
  f32_finite r = true ∧ 0 <= scaled r <= a * 2 ^ 149.
Proof.
  intros Hm He He0 Ha Hle r. unfold r. clear r.
  destruct (round_aux_shape false m e loc_Exact ltac:(lia) He) as (m2 & n & Hm2 & Hex & Hn & _ & ->).
  set (d := Zdigits2 m) in *. set (ee := fe (d + e)) in *.
  assert (ee = Z.max (d + e - 24) (-149)) as Hee by reflexivity.
  destruct (zdigits_spec m Hm) as [[D1 D2] _]. fold d in D1, D2.
  assert (d + e <= 24) as Hde.
  { destruct (Z.le_gt_cases (d + e) 24) as [|Hgt]; [done|].
    assert (2 ^ (24 - e) <= 2 ^ (d - 1)) as Hp by (apply Z.pow_le_mono_r; lia).
    replace (24 - e) with (24 + - e) in Hp by lia. rewrite Z.pow_add_r in Hp by lia.
    pose proof (Z.pow_pos_nonneg 2 (- e) ltac:(lia) ltac:(lia)). change (2 ^ 24) with 16777216 in Hp. nia. }
  assert (ee <= 0) as Hee0 by lia.
  set (b := a * 2 ^ (- ee)). set (k := 2 ^ (ee - e)) in *.
  assert (0 < k) as Hk by (apply Z.pow_pos_nonneg; lia).
  assert (m <= b * k) as Hmb.
  { unfold b, k. rewrite <- Z.mul_assoc, <- Z.pow_add_r by lia. by replace (- ee + (ee - e)) with (- e) by lia. }
  assert (0 <= m2 <= b) as Hm2b.
  { pose proof (Z.div_mod m k ltac:(lia)) as Hdm. pose proof (Z.mod_pos_bound m k Hk) as Hmod.
    set (q := m / k) in *. assert (0 <= q) by (apply Z.div_pos; lia).
    assert (q <= b) by nia.
    destruct Hm2 as [->| ->]; [lia|]. destruct (Z.eq_dec q b) as [Eq|]; [|lia].
    assert (q + 1 = q) as E; [|lia]. apply Hex; [done|]. nia. }
  assert (0 < 2 ^ n) as Hpn by (apply Z.pow_pos_nonneg; lia).
  pose proof (Z.mul_div_le m2 (2 ^ n) Hpn) as Hdiv.
  assert (m2 / 2 ^ n * 2 ^ (ee + n + 149) <= a * 2 ^ 149) as Hval.
  { replace (ee + n + 149) with (n + (ee + 149)) by lia. rewrite Z.pow_add_r by lia.
    pose proof (Z.pow_pos_nonneg 2 (ee + 149) ltac:(lia) ltac:(lia)) as Hp2.
    assert (b * 2 ^ (ee + 149) = a * 2 ^ 149) as <-.
    { unfold b. rewrite <- Z.mul_assoc, <- Z.pow_add_r by lia. do 2 f_equal. lia. }
    rewrite Z.mul_assoc. apply Z.mul_le_mono_nonneg_r; lia. }
  assert (0 <= m2 / 2 ^ n) as Hq by (apply Z.div_pos; lia).
  destruct (m2 / 2 ^ n) as [|p|p]; [|rewrite (proj2 (Z.leb_le _ _)) by lia|lia]; (split; [done|]); cbn [scaled].
  - pose proof (Z.pow_pos_nonneg 2 149 ltac:(lia) ltac:(lia)). lia.
  - pose proof (Z.pow_pos_nonneg 2 (ee + n + 149) ltac:(lia) ltac:(lia)). lia.
Qed.

Lemma binary_round_ok s m e :
  f32_valid (binary_round 24 128 s m e) ∧ is_nan (binary_round 24 128 s m e) = false.
Proof.
  unfold binary_round, shl_align. set (d := Zpos (digits2_pos m)).
  destruct (fe (d + e) - e) as [|p|p] eqn:E; try (apply round_aux_ok; [lia|cbn; fold d; lia]).
  apply round_aux_ok; [lia|]. cbn [Zdigits2].
  assert (Zpos (digits2_pos (Pos.iter xO m p)) = d + Zpos p) as ->.
  { apply digits_unique. rewrite iter_xO. pose proof (digits_spec m) as [B1 B2]. fold d in B1, B2.
    replace (d + Zpos p - 1) with ((d - 1) + Zpos p) by lia. rewrite !Z.pow_add_r by lia.
    pose proof (Z.pow_pos_nonneg 2 (Zpos p) ltac:(lia) ltac:(lia)). nia. }
  replace (d + Zpos p + fe (d + e)) with (d + e) by lia. lia.
Qed.

Lemma normalize_ok m e z :
  f32_valid (binary_normalize 24 128 m e z) ∧ is_nan (binary_normalize 24 128 m e z) = false.
Proof. destruct m; [done|apply binary_round_ok..]. Qed.
Lemma normalize_valid m e z : f32_valid (binary_normalize 24 128 m e z).
Proof. apply normalize_ok. Qed.
Lemma f32_of_Z_valid z : f32_valid (f32_of_Z z).
Proof. apply normalize_valid. Qed.

Lemma fadd_valid x y : f32_valid x → f32_valid y → f32_valid (fadd x y).
Proof.
  intros Hx Hy. destruct x as [[]|[]| |], y as [[]|[]| |]; try done; try exact Hx; try exact Hy.
  apply normalize_valid.
Qed.
Lemma fsub_valid x y : f32_valid x → f32_valid y → f32_valid (fsub x y).
Proof.
  intros Hx Hy. destruct x as [[]|[]| |], y as [[]|[]| |]; try done; try exact Hx; try exact Hy.
  apply normalize_valid.
Qed.
Lemma fmul_long sx mx ex sy my ey :
  f32_valid (S754_finite sx mx ex) → f32_valid (S754_finite sy my ey) →
  ex + ey <= fe (Zdigits2 (Zpos (mx * my)) + (ex + ey)).
Proof.
  intros (Hex & Hmx & Hcx)%valid_finite (Hey & Hmy & Hcy)%valid_finite.
  rewrite fe_eq. destruct (Z.le_gt_cases (ex + ey) (-149)); [lia|].
  assert (24 <= Zdigits2 (Zpos (mx * my))); [|lia].
  assert (2 ^ 23 <= Zpos (mx * my)) as Hbig.
  { change (2 ^ 23) with 8388608. rewrite Pos2Z.inj_mul. destruct Hcx, Hcy; nia. }
  destruct (zdigits_spec (Zpos (mx * my))) as [[_ H2] _]; [lia|].
  destruct (Z.le_gt_cases 24 (Zdigits2 (Zpos (mx * my)))) as [|Hlt]; [done|].
  pose proof (Z.pow_le_mono_r 2 (Zdigits2 (Zpos (mx * my))) 23 ltac:(lia) ltac:(lia)). lia.
Qed.
Lemma fmul_valid x y : f32_valid x → f32_valid y → f32_valid (fmul x y).
Proof.
  intros Hx Hy. destruct x as [?|?| |sx mx ex], y as [?|?| |sy my ey]; try done.
  apply round_aux_valid; [lia|by eapply fmul_long].
Qed.
Lemma fdiv_valid x y : f32_valid x → f32_valid y → f32_valid (fdiv x y).
Proof.
  intros _ _. destruct x as [?|?| |sx mx ex], y as [?|?| |sy my ey]; try done.
  unfold fdiv, SFdiv, SFdiv_core_binary. set (d1 := Zdigits2 (Zpos mx)). set (d2 := Zdigits2 (Zpos my)).
  set (ee := Z.min (fe (d1 + ex - (d2 + ey))) (ex - ey)).
  set (sft := ex - ey - ee). assert (0 <= sft) as Hs by lia.
  set (m' := match sft with Z0 => _ | _ => _ end).
  assert (m' = Zpos mx * 2 ^ sft) as Em.
  { unfold m'. destruct sft as [|p|p]; [lia|by rewrite Z.shiftl_mul_pow2 by lia|lia]. }
  pose proof (Z_div_mod m' (Zpos my) ltac:(lia)) as Hdm.
  destruct (Z.div_eucl m' (Zpos my)) as [q r]. destruct Hdm as [Hq Hr].
  destruct (zdigits_spec (Zpos mx)) as [[A1 A2] A3]; [lia|]. fold d1 in A1, A2, A3.
  destruct (zdigits_spec (Zpos my)) as [[B1 B2] B3]; [lia|]. fold d2 in B1, B2, B3.
  pose proof (Z.pow_pos_nonneg 2 sft ltac:(lia) Hs) as Hps.
  assert (0 <= q) as Hq0 by nia.
  apply round_aux_valid; [done|]. 
  assert (d1 - d2 + sft <= Zdigits2 q) as Hdq.
  { destruct (Z.le_gt_cases (d1 - d2 + sft) (Zdigits2 q)) as [|Hlt]; [done|]. exfalso.
    destruct (Z.eq_dec q 0) as [->|Hqn].
    - change (Zdigits2 0) with 0 in Hlt.
      assert (2 ^ d2 <= 2 ^ (d1 - 1) * 2 ^ sft)
        by (rewrite <- Z.pow_add_r by lia; apply Z.pow_le_mono_r; lia).
      assert (2 ^ (d1 - 1) * 2 ^ sft <= Zpos mx * 2 ^ sft) by (apply Z.mul_le_mono_nonneg_r; lia). lia.
    - destruct (zdigits_spec q) as [[Q1 Q2] Q3]; [lia|]. 
      assert (2 ^ Zdigits2 q * 2 ^ d2 <= 2 ^ (d1 - 1) * 2 ^ sft)
        by (rewrite <- !Z.pow_add_r by lia; apply Z.pow_le_mono_r; lia).
      assert (m' < (q + 1) * Zpos my) by lia.
      assert ((q + 1) * Zpos my <= 2 ^ Zdigits2 q * 2 ^ d2) by (apply Z.mul_le_mono_nonneg; lia).
      assert (2 ^ (d1 - 1) * 2 ^ sft <= Zpos mx * 2 ^ sft) by (apply Z.mul_le_mono_nonneg_r; lia). lia. }
  assert (ee = Z.min (Z.max (d1 + ex - (d2 + ey) - 24) (-149)) (ex - ey)) as Hee by reflexivity.
  rewrite fe_eq. unfold sft in Hdq. lia.
Qed.
Lemma fsqrt_valid x : f32_valid x → f32_valid (fsqrt x).
Proof.
  intros Hx. destruct x as [?|[]| |[] m e]; try done.
  unfold fsqrt, SFsqrt, SFsqrt_core_binary. set (d := Zdigits2 (Zpos m)).
  rewrite !Z.div2_div. set (ee := Z.min (fe ((d + e + 1) / 2)) (e / 2)).
  set (sft := e - 2 * ee). assert (0 <= sft) as Hs by (unfold sft, ee; zdm).
  set (m' := match sft with Z0 => _ | _ => _ end).
  assert (m' = Zpos m * 2 ^ sft) as Em.
  { unfold m'. destruct sft as [|p|p]; [lia|by rewrite Z.shiftl_mul_pow2 by lia|lia]. }
  destruct (zdigits_spec (Zpos m)) as [[A1 A2] A3]; [lia|]. fold d in A1, A2, A3.
  pose proof (Z.pow_pos_nonneg 2 sft ltac:(lia) Hs) as Hps.
  pose proof (Z.sqrtrem_spec m' ltac:(lia)) as Hq. destruct (Z.sqrtrem m') as [q r]. destruct Hq as [Hq Hr].
  assert (0 <= q) as Hq0.
  { destruct (Z.le_gt_cases 0 q) as [|Hneg]; [done|]. lia. }
  apply round_aux_valid; [done|].
  assert ((d + sft + 1) / 2 <= Zdigits2 q) as Hdq.
  { destruct (Z.le_gt_cases ((d + sft + 1) / 2) (Zdigits2 q)) as [|Hlt]; [done|]. exfalso.
    assert (0 < q) as Hqp by nia. destruct (zdigits_spec q Hqp) as [[Q1 Q2] Q3].
    set (k := Zdigits2 q) in *.
    assert (2 ^ k * 2 ^ k <= 2 ^ (d - 1) * 2 ^ sft) as Hp.
    { rewrite <- !Z.pow_add_r by lia. apply Z.pow_le_mono_r; [lia|]. zdm. }
    assert (2 ^ (d - 1) * 2 ^ sft <= m') as Hm' by (rewrite Em; apply Z.mul_le_mono_nonneg_r; lia).
    assert ((q + 1) * (q + 1) <= 2 ^ k * 2 ^ k) by (apply Z.mul_le_mono_nonneg; lia). nia. }
  assert (ee = Z.min (Z.max ((d + e + 1) / 2 - 24) (-149)) (e / 2)) as Hee by reflexivity.
  rewrite fe_eq. unfold sft in Hdq. 
  assert ((d + e + 1) / 2 = (d + (e - 2 * ee) + 1) / 2 + ee) as Hd by zdm. lia.
Qed.
#[export] Hint Resolve f32_of_Z_valid fadd_valid fsub_valid fmul_valid fdiv_valid fsqrt_valid : word.
#[export] Hint Extern 1 (f32_valid (S754_zero _)) => reflexivity : word.

(** ** Floor and ceiling *)

Definition clampM (z : Z) : Z := Z.max (-1000000) (Z.min 1000000 z).
Definition floor_ref (x : f32) : Z :=
  match x with
  | S754_nan => 0
  | S754_infinity s => if s then -1000000 else 1000000
  | _ => clampM (scaled x / 2 ^ 149)
  end.
Definition ceil_ref (x : f32) : Z :=
  match x with
  | S754_nan => 0
  | S754_infinity s => if s then -1000000 else 1000000
  | _ => clampM (- ((- scaled x) / 2 ^ 149))
  end.

Lemma flt_scaled x y :
  f32_valid x → f32_valid y → f32_finite x = true → f32_finite y = true →
  flt x y = (scaled x <? scaled y).
Proof.
  intros. unfold flt, SFltb. rewrite compare_scaled by done. unfold Z.ltb. by destruct (_ ?= _).
Qed.
Lemma fle_scaled x y :
  f32_valid x → f32_valid y → f32_finite x = true → f32_finite y = true →
  fle x y = (scaled x <=? scaled y).
Proof.
  intros. unfold fle, SFleb. rewrite compare_scaled by done. unfold Z.leb. by destruct (_ ?= _).
Qed.

(** What the range tests of the two functions decide. *)
Lemma range_tests x :
  f32_valid x → f32_finite x = true →
  fle x (f32_of_Z (-1000000)) = (scaled x <=? -1000000 * 2 ^ 149) ∧
  fle (f32_of_Z 1000000) x = (1000000 * 2 ^ 149 <=? scaled x).
Proof.
  intros Hv Hf.
  destruct (f32_of_Z_spec (-1000000)) as (H1 & H2 & H3); [lia|].
  destruct (f32_of_Z_spec 1000000) as (H4 & H5 & H6); [lia|].
  rewrite !fle_scaled by done. by rewrite H3, H6.
Qed.

Lemma to_int_refs x :
  f32_valid x →
  muplar_floor_to_int x = Some (floor_ref x) ∧ muplar_ceil_to_int x = Some (ceil_ref x).
Proof.
  intros Hv. destruct (f32_finite x) eqn:Hf; [|by destruct x as [|[]| |]].
  assert (is_nan x = false) as Hn by (by destruct x).
  assert (floor_ref x = clampM (scaled x / 2 ^ 149)) as -> by (by destruct x).
  assert (ceil_ref x = clampM (- ((- scaled x) / 2 ^ 149))) as -> by (by destruct x).
  destruct (range_tests x Hv Hf) as [T1 T2].
  unfold muplar_floor_to_int, muplar_ceil_to_int. rewrite Hn, T1, T2.
  set (k := 2 ^ 149) in *. assert (0 < k) as Hk by reflexivity.
  pose proof (Z.div_mod (scaled x) k ltac:(lia)) as Hd1. pose proof (Z.mod_pos_bound (scaled x) k Hk).
  pose proof (Z.div_mod (- scaled x) k ltac:(lia)) as Hd2. pose proof (Z.mod_pos_bound (- scaled x) k Hk).
  destruct (Z.leb_spec (scaled x) (-1000000 * k)) as [H1|H1].
  { unfold clampM. split; f_equal; nia. }
  destruct (Z.leb_spec (1000000 * k) (scaled x)) as [H2|H2].
  { unfold clampM. split; f_equal; nia. }
  rewrite (f32_to_int_spec x Hv Hf) by (fold k; lia). fold k. cbn [mbind option_bind].
  pose proof (Z.quot_rem (scaled x) k ltac:(lia)) as Hqr. set (i := Z.quot (scaled x) k) in *.
  assert (Z.abs i < 16777216) as Hi.
  { pose proof (Z.quot_abs (scaled x) k ltac:(lia)) as Hqa. fold i in Hqa.
    pose proof (Z.quot_lt_upper_bound (Z.abs (scaled x)) k 1000001 ltac:(lia) ltac:(lia) ltac:(lia)).
    rewrite (Z.abs_eq k) in Hqa by lia. lia. }
  destruct (f32_of_Z_spec i Hi) as (V & F & S). fold k in S.
  rewrite !flt_scaled by done. rewrite S.
  assert (Z.abs (Z.rem (scaled x) k) < k) as Hr.
  { pose proof (Z.rem_bound_abs (scaled x) k ltac:(lia)). lia. }
  split; f_equal; unfold clampM.
  - destruct (Z.ltb_spec (scaled x) (i * k)); nia.
  - destruct (Z.ltb_spec (i * k) (scaled x)); nia.
Qed.

(** [muplar_floor_to_int] is defined for every float and gives its floor,
    clamped to a million either way, and 0 for a NaN; [muplar_ceil_to_int] its
    ceiling. *)
Theorem floor_ceil_to_int x :
  f32_valid x →
  muplar_floor_to_int x = Some (floor_ref x) ∧ muplar_ceil_to_int x = Some (ceil_ref x).
Proof. apply to_int_refs. Qed.

(** An integer below 256 times a number between 0 and 1. *)
Lemma unit_product a x :
  0 < a < 256 → f32_valid x → f32_finite x = true → 0 <= scaled x <= 2 ^ 149 →
  ∃ z, f32_to_int (fmul (f32_of_Z a) x) = Some z ∧ 0 <= z <= a.
Proof.
  intros Ha Hv Hf Hx. destruct (f32_of_Z_spec a) as (Va & Fa & Sa); [lia|].
  destruct (f32_of_Z a) as [?|?| |sa ma ea] eqn:Ea; try done; cbn [scaled] in Sa; [lia|].
  pose proof (finite_pos _ _ _ Va) as Pa. pose proof (valid_finite _ _ _ Va) as (Ra & _ & Ca).
  destruct sa; [lia|].
  destruct x as [sx|?| |sx mx ex]; try done; [exists 0; split; [done|lia]|].
  pose proof (finite_pos _ _ _ Hv) as Px. pose proof (valid_finite _ _ _ Hv) as (Rx & _ & Cx).
  cbn [scaled] in Hx. destruct sx; [lia|].
  assert (∀ m e, 8388608 <= Zpos m → -149 <= e → Zpos m * 2 ^ (e + 149) <= 256 * 2 ^ 149 → e <= 0) as Hexp.
  { intros m e Hm He1 Hle. destruct (Z.le_gt_cases e 0) as [|Hgt]; [done|].
    pose proof (Z.pow_le_mono_r 2 150 (e + 149) ltac:(lia) ltac:(lia)) as Hp.
    change (2 ^ 150) with (2 * 2 ^ 149) in Hp. nia. }
  assert (ea <= 0) as Hea by (destruct Ca as [->|Hc]; [lia|apply (Hexp ma); lia]).
  assert (ex <= 0) as Hex by (destruct Cx as [->|Hc]; [lia|apply (Hexp mx); lia]).
  assert (Zpos ma = a * 2 ^ (- ea)) as Ema.
  { apply (Z.mul_reg_r _ _ (2 ^ (ea + 149))); [apply Z.pow_nonzero; lia|].
    rewrite Sa, <- Z.mul_assoc, <- Z.pow_add_r by lia. do 2 f_equal. lia. }
  assert (Zpos mx <= 2 ^ (- ex)) as Emx.
  { apply (Z.mul_le_mono_pos_r _ _ (2 ^ (ex + 149))); [apply Z.pow_pos_nonneg; lia|].
    rewrite <- Z.pow_add_r by lia. replace (- ex + (ex + 149)) with 149 by lia. lia. }
  pose proof (fmul_long _ _ _ _ _ _ Va Hv) as Hlong.
  destruct (round_aux_le (Zpos (ma * mx)) (ea + ex) a) as (Fr & Sr); [lia|exact Hlong|lia|lia| |].
  { rewrite Pos2Z.inj_mul, Ema. replace (- (ea + ex)) with (- ea + - ex) by lia.
    rewrite Z.pow_add_r, Z.mul_assoc by lia. apply Z.mul_le_mono_nonneg_l; [lia|done]. }
  assert (fmul (S754_finite false ma ea) (S754_finite false mx ex) =
          binary_round_aux 24 128 false (Zpos (ma * mx)) (ea + ex) loc_Exact) as -> by reflexivity.
  assert (f32_valid (binary_round_aux 24 128 false (Zpos (ma * mx)) (ea + ex) loc_Exact)) as Vr
    by (apply round_aux_valid; [lia|exact Hlong]).
  set (r := binary_round_aux 24 128 false (Zpos (ma * mx)) (ea + ex) loc_Exact) in *.
  exists (Z.quot (scaled r) (2 ^ 149)). split; [apply f32_to_int_spec; [done|done|lia]|].
  rewrite Z.quot_div_nonneg by lia. split; [apply Z.div_pos; lia|apply Z.div_le_upper_bound; lia].
Qed.

(** Witness of [floor_ceil_to_int]: -2.5. *)
Lemma floor_ceil_to_int_witness :
  muplar_floor_to_int (f32_lit (-5) 2) = Some (-3) ∧ muplar_ceil_to_int (f32_lit (-5) 2) = Some (-2).
Proof. exact (floor_ceil_to_int (f32_lit (-5) 2) eq_refl). Defined.
