(* ===== verification/ShimTables.v ===== *)
(** * The object tables of the Android shim

    platform/android-aarch64/art-shim/muplar_android_art_shim.c:150-352 and
    640-819: bitmaps, canvases, paints, colour filters and shaders live in
    fixed tables and are named by tokens; a slot with token 0 is free.  A
    pointer to a slot is its index.  The allocator is a parameter: whether an
    array of [count] pixels can be allocated.  Definitions only; ShimRefine and
    ShimReach have the invariants. *)

From S2P Require Import Prelude Machine Float32.

(** platform/android-aarch64/art-shim/muplar_android_art_shim.c:203-210 (muplar_bitmap_state) *)
Record bitmap_state := BitmapState {
  bs_token : Z;
  bs_width : Z;
  bs_height : Z;
  bs_bpp : Z;
  bs_config : Z;
  bs_pixels : option (list Z)
}.
Definition no_bitmap : bitmap_state := BitmapState 0 0 0 0 0 None.

(** platform/android-aarch64/art-shim/muplar_android_art_shim.c:212-221 (muplar_canvas_stack_entry)
    The transformation and the clip of a canvas. *)
Record frame := Frame {
  f_tx : f32;
  f_ty : f32;
  f_sx : f32;
  f_sy : f32;
  f_left : Z;
  f_top : Z;
  f_right : Z;
  f_bottom : Z
}.
Definition no_frame : frame :=
  Frame (S754_zero false) (S754_zero false) (S754_zero false) (S754_zero false) 0 0 0 0.

(** platform/android-aarch64/art-shim/muplar_android_art_shim.c:223-236 (muplar_canvas_state) *)
Record canvas_state := CanvasState {
  cv_token : Z;
  cv_bitmap : Z;
  cv_now : frame;
  cv_depth : nat;
  cv_stack : list frame
}.
Definition no_canvas : canvas_state := CanvasState 0 0 no_frame 0 (replicate 512 no_frame).

(** platform/android-aarch64/art-shim/muplar_android_art_shim.c:238-242 (muplar_filter_state) *)
Record filter_state := FilterState { fl_token : Z; fl_color : Z; fl_mode : Z }.
Definition no_filter : filter_state := FilterState 0 0 0.

(** platform/android-aarch64/art-shim/muplar_android_art_shim.c:244-256 (muplar_paint_state) *)
Record paint_state := PaintState {
  pt_token : Z;
  pt_color : Z;
  pt_filter : Z;
  pt_mask : Z;
  pt_shader : Z;
  pt_text_size : f32;
  pt_width : f32;
  pt_miter : f32;
  pt_style : Z;
  pt_cap : Z;
  pt_join : Z
}.
Definition no_paint : paint_state :=
  PaintState 0 0 0 0 0 (S754_zero false) (S754_zero false) (S754_zero false) 0 0 0.

(** platform/android-aarch64/art-shim/muplar_android_art_shim.c:266-269 (muplar_shader_state) *)
Record shader_state := ShaderState { sh_token : Z; sh_bitmap : Z }.
Definition no_shader : shader_state := ShaderState 0 0.

(** The tables, the counters tokens are made from, the index the canvas table
    is reused from when it is full, and the numbers of drawing calls. *)
Record shim := Shim {
  bitmaps : list bitmap_state;
  canvases : list canvas_state;
  paints : list paint_state;
  filters : list filter_state;
  shaders : list shader_state;
  next_bitmap : Z;
  next_canvas : Z;
  next_paint : Z;
  next_filter : Z;
  next_shader : Z;
  wrap_idx : Z;
  draw_counts : list Z
}.

Definition set_bitmaps l s := Shim l (canvases s) (paints s) (filters s) (shaders s)
  (next_bitmap s) (next_canvas s) (next_paint s) (next_filter s) (next_shader s) (wrap_idx s) (draw_counts s).
Definition set_canvases l s := Shim (bitmaps s) l (paints s) (filters s) (shaders s)
  (next_bitmap s) (next_canvas s) (next_paint s) (next_filter s) (next_shader s) (wrap_idx s) (draw_counts s).
Definition set_paints l s := Shim (bitmaps s) (canvases s) l (filters s) (shaders s)
  (next_bitmap s) (next_canvas s) (next_paint s) (next_filter s) (next_shader s) (wrap_idx s) (draw_counts s).
Definition set_filters l s := Shim (bitmaps s) (canvases s) (paints s) l (shaders s)
  (next_bitmap s) (next_canvas s) (next_paint s) (next_filter s) (next_shader s) (wrap_idx s) (draw_counts s).
Definition set_shaders l s := Shim (bitmaps s) (canvases s) (paints s) (filters s) l
  (next_bitmap s) (next_canvas s) (next_paint s) (next_filter s) (next_shader s) (wrap_idx s) (draw_counts s).
Definition set_next_bitmap z s := Shim (bitmaps s) (canvases s) (paints s) (filters s) (shaders s)
  z (next_canvas s) (next_paint s) (next_filter s) (next_shader s) (wrap_idx s) (draw_counts s).
Definition set_next_canvas z s := Shim (bitmaps s) (canvases s) (paints s) (filters s) (shaders s)
  (next_bitmap s) z (next_paint s) (next_filter s) (next_shader s) (wrap_idx s) (draw_counts s).
Definition set_next_paint z s := Shim (bitmaps s) (canvases s) (paints s) (filters s) (shaders s)
  (next_bitmap s) (next_canvas s) z (next_filter s) (next_shader s) (wrap_idx s) (draw_counts s).
Definition set_next_filter z s := Shim (bitmaps s) (canvases s) (paints s) (filters s) (shaders s)
  (next_bitmap s) (next_canvas s) (next_paint s) z (next_shader s) (wrap_idx s) (draw_counts s).
Definition set_next_shader z s := Shim (bitmaps s) (canvases s) (paints s) (filters s) (shaders s)
  (next_bitmap s) (next_canvas s) (next_paint s) (next_filter s) z (wrap_idx s) (draw_counts s).
Definition set_wrap_idx z s := Shim (bitmaps s) (canvases s) (paints s) (filters s) (shaders s)
  (next_bitmap s) (next_canvas s) (next_paint s) (next_filter s) (next_shader s) z (draw_counts s).
Definition set_draw_counts l s := Shim (bitmaps s) (canvases s) (paints s) (filters s) (shaders s)
  (next_bitmap s) (next_canvas s) (next_paint s) (next_filter s) (next_shader s) (wrap_idx s) l.

(** platform/android-aarch64/art-shim/muplar_android_art_shim.c:258-264 (muplar_bitmaps)
    The sizes of the tables. *)
Definition n_bitmaps : nat := 2048.
Definition n_canvases : nat := 512.
Definition n_paints : nat := Z.to_nat 8192.
Definition n_filters : nat := 512.
(** platform/android-aarch64/art-shim/muplar_android_art_shim.c:270 (muplar_shaders) *)
Definition n_shaders : nat := 512.

(** platform/android-aarch64/art-shim/muplar_android_art_shim.c:144-178 (muplar_next_bitmap_token)
    The state at start. *)
Definition shim_init : shim :=
  Shim (replicate n_bitmaps no_bitmap) (replicate n_canvases no_canvas)
    (replicate n_paints no_paint) (replicate n_filters no_filter) (replicate n_shaders no_shader)
    0x40000000 0x24000 0x1e000 0x30000 0x20000 0 [0; 0; 0; 0; 0].

Abbreviation Sh := (M shim).
Definition gets {A} (f : shim → A) : Sh A := λ s, Done (f s) s.

(** ** Finding an object *)

(** The first slot whose token is the one asked for, which is not 0. *)
Definition find_token {A} (tok : A → Z) (l : list A) (token : Z) : option nat :=
  if token =? 0 then None else find_idx (λ x, tok x =? token) l.
(** The first free slot. *)
Definition free_slot {A} (tok : A → Z) (l : list A) : option nat := find_idx (λ x, tok x =? 0) l.

(** platform/android-aarch64/art-shim/muplar_android_art_shim.c:303-312 (muplar_find_bitmap) *)
Definition muplar_find_bitmap (token : Z) (s : shim) : option nat :=
  find_token bs_token (bitmaps s) token.
(** platform/android-aarch64/art-shim/muplar_android_art_shim.c:272-281 (muplar_find_shader) *)
Definition muplar_find_shader (token : Z) (s : shim) : option nat :=
  find_token sh_token (shaders s) token.
(** platform/android-aarch64/art-shim/muplar_android_art_shim.c:642-651 (muplar_find_canvas) *)
Definition muplar_find_canvas (token : Z) (s : shim) : option nat :=
  find_token cv_token (canvases s) token.
(** platform/android-aarch64/art-shim/muplar_android_art_shim.c:683-689 (muplar_canvas_for_drawing) *)
Definition muplar_canvas_for_drawing (token : Z) (s : shim) : option nat :=
  muplar_find_canvas token s.
(** platform/android-aarch64/art-shim/muplar_android_art_shim.c:740-749 (muplar_find_paint) *)
Definition muplar_find_paint (token : Z) (s : shim) : option nat :=
  find_token pt_token (paints s) token.
(** platform/android-aarch64/art-shim/muplar_android_art_shim.c:751-760 (muplar_find_filter) *)
Definition muplar_find_filter (token : Z) (s : shim) : option nat :=
  find_token fl_token (filters s) token.

(** The object of a token, read through its pointer. *)
Definition the_bitmap (token : Z) (s : shim) : option bitmap_state :=
  i ← muplar_find_bitmap token s; bitmaps s !! i.
Definition the_canvas (token : Z) (s : shim) : option canvas_state :=
  i ← muplar_canvas_for_drawing token s; canvases s !! i.
Definition the_paint (token : Z) (s : shim) : option paint_state :=
  i ← muplar_find_paint token s; paints s !! i.
Definition the_filter (token : Z) (s : shim) : option filter_state :=
  i ← muplar_find_filter token s; filters s !! i.
Definition the_shader (token : Z) (s : shim) : option shader_state :=
  i ← muplar_find_shader token s; shaders s !! i.

(** platform/android-aarch64/art-shim/muplar_android_art_shim.c:731-738 (muplar_canvas_bitmap) *)
Definition muplar_canvas_bitmap (canvas : Z) (s : shim) : option nat :=
  c ← the_canvas canvas s; muplar_find_bitmap (cv_bitmap c) s.

Section Tables.
Variable calloc_ok : Z → bool.

(** ** Bitmaps *)

(** platform/android-aarch64/art-shim/muplar_android_art_shim.c:314-343 (muplar_alloc_bitmap)
    The pointer to the new bitmap, none when the table or the memory is
    full. *)
Definition muplar_alloc_bitmap (width height : Z) : Sh (option nat) :=
  let width := if width <=? 0 then 1 else width in
  let height := if height <=? 0 then 1 else height in
  let count := u64 (width * height) in
  s ← get;
  match free_slot bs_token (bitmaps s) with
  | None => mret None
  | Some i =>
      if calloc_ok count then
        let next := u64 (next_bitmap s + 0x100) in
        put (set_next_bitmap next (set_bitmaps
          (<[i := BitmapState (s64 next) width height 4 5
                    (Some (replicate (Z.to_nat count) 0))]> (bitmaps s)) s)) ≫= λ _,
        mret (Some i)
      else
        put (set_bitmaps (alter (λ b, BitmapState (bs_token b) (bs_width b) (bs_height b) (bs_bpp b)
                                        (bs_config b) None) i (bitmaps s)) s) ≫= λ _,
        mret None
  end.

(** platform/android-aarch64/art-shim/muplar_android_art_shim.c:345-352 (muplar_release_bitmap) *)
Definition muplar_release_bitmap (token : Z) : Sh () :=
  s ← get;
  match muplar_find_bitmap token s with
  | None => mret ()
  | Some i => put (set_bitmaps (<[i := no_bitmap]> (bitmaps s)) s)
  end.

(** ** Canvases *)

(** platform/android-aarch64/art-shim/muplar_android_art_shim.c:691-705 (muplar_canvas_reset)
    The frame of a canvas over a bitmap; the stack is emptied by its depth. *)
Definition fresh_frame (b : option bitmap_state) : frame :=
  Frame (S754_zero false) (S754_zero false) (f32_of_Z 1) (f32_of_Z 1) 0 0
    (match b with Some b => bs_width b | None => 1080 end)
    (match b with Some b => bs_height b | None => 1920 end).
(** platform/android-aarch64/art-shim/muplar_android_art_shim.c:691-705 (muplar_canvas_reset) *)
Definition muplar_canvas_reset (c : canvas_state) (b : option bitmap_state) : canvas_state :=
  CanvasState (cv_token c) (cv_bitmap c) (fresh_frame b) 0 (cv_stack c).

(** Put a token and a bitmap in a slot and reset it. *)
Definition canvas_assign (i : nat) (token bitmap_token : Z) (s : shim) : shim :=
  set_canvases
    (alter (λ c, muplar_canvas_reset
                   (CanvasState token bitmap_token (cv_now c) (cv_depth c) (cv_stack c))
                   (the_bitmap bitmap_token s)) i (canvases s)) s.

(** platform/android-aarch64/art-shim/muplar_android_art_shim.c:656-681 (muplar_adopt_canvas) *)
Definition muplar_adopt_canvas (token bitmap_token : Z) : Sh (option nat) :=
  if token =? 0 then mret None else
  s ← get;
  match muplar_find_canvas token s with
  | Some i => mret (Some i)
  | None =>
      match free_slot cv_token (canvases s) with
      | None => mret None
      | Some i => put (canvas_assign i token bitmap_token s) ≫= λ _, mret (Some i)
      end
  end.

(** platform/android-aarch64/art-shim/muplar_android_art_shim.c:707-729 (muplar_alloc_canvas)
    A full table gives up the slots in turn. *)
Definition muplar_alloc_canvas (bitmap_token : Z) : Sh nat :=
  s ← get;
  let next := u64 (next_canvas s + 0x100) in
  match free_slot cv_token (canvases s) with
  | Some i =>
      put (set_next_canvas next (canvas_assign i (s64 next) bitmap_token s)) ≫= λ _, mret i
  | None =>
      let i := Z.to_nat (wrap_idx s mod Z.of_nat n_canvases) in
      put (set_wrap_idx (u64 (wrap_idx s + 1))
             (set_next_canvas next (canvas_assign i (s64 next) bitmap_token s))) ≫= λ _, mret i
  end.

(** ** Filters and paints *)

(** platform/android-aarch64/art-shim/muplar_android_art_shim.c:762-775 (muplar_alloc_filter) *)
Definition muplar_alloc_filter (color mode : Z) : Sh (option nat) :=
  s ← get;
  match free_slot fl_token (filters s) with
  | None => mret None
  | Some i =>
      let next := u64 (next_filter s + 0x100) in
      put (set_next_filter next
             (set_filters (<[i := FilterState (s64 next) color mode]> (filters s)) s)) ≫= λ _,
      mret (Some i)
  end.

(** platform/android-aarch64/art-shim/muplar_android_art_shim.c:777-798 (muplar_alloc_paint) *)
Definition muplar_alloc_paint (color : Z) : Sh (option nat) :=
  s ← get;
  match free_slot pt_token (paints s) with
  | None => mret None
  | Some i =>
      let next := u64 (next_paint s + 0x100) in
      put (set_next_paint next (set_paints
        (<[i := PaintState (s64 next) color 0 0 0 (S754_zero false) (S754_zero false) (f32_of_Z 4)
                  0 0 0]> (paints s)) s)) ≫= λ _,
      mret (Some i)
  end.

(** platform/android-aarch64/art-shim/muplar_android_art_shim.c:800-819 (muplar_paint_color) *)
Definition muplar_paint_color (token fallback : Z) (s : shim) : Z :=
  match the_paint token s with
  | None => fallback
  | Some p =>
      let plain := u32 (pt_color p) in
      if pt_filter p =? 0 then plain else
      match the_filter (pt_filter p) s with
      | None => plain
      | Some f =>
          if fl_color f =? 0 then plain else
          let fc := u32 (fl_color f) in
          let pa := Z.land (Z.shiftr (u32 (pt_color p)) 24) 0xff in
          if negb (pa =? 0) && negb (pa =? 255) then
            let fa := Z.land (Z.shiftr fc 24) 0xff in
            let combined_a := fa * pa / 255 in
            Z.lor (Z.land fc 0x00ffffff) (u32 (Z.shiftl combined_a 24))
          else fc
      end
  end.
End Tables.
