(* ===== verification/ShimFont.v ===== *)
(** * The font of the Android shim

    platform/android-aarch64/art-shim/muplar_font.h: the advances and the
    16 by 16 coverage masks of the characters 32 to 126, as the generated
    header lists them. *)

From S2P Require Import Prelude.

(** platform/android-aarch64/art-shim/muplar_font.h:7-12 (MUPLAR_FONT_FIRST_CHAR) *)
Definition MUPLAR_FONT_FIRST_CHAR : Z := 32.
Definition MUPLAR_FONT_LAST_CHAR : Z := 126.
Definition MUPLAR_FONT_W : Z := 16.
Definition MUPLAR_FONT_H : Z := 16.

(** platform/android-aarch64/art-shim/muplar_font.h:14-110 (muplar_font_advances) *)
Definition muplar_font_advances : list Z :=
  [5; 4; 6; 7; 7; 12; 9; 4; 4; 4; 5; 8; 4; 4; 4; 4; 7; 7; 7; 7; 7; 7; 7; 7;
   7; 7; 4; 4; 8; 8; 8; 8; 13; 9; 9; 9; 9; 9; 8; 10; 9; 4; 7; 9; 8; 11; 9; 10;
   9; 10; 9; 9; 8; 9; 9; 12; 9; 9; 8; 4; 4; 4; 8; 7; 4; 7; 8; 7; 8; 7; 4; 8;
   8; 4; 4; 7; 4; 12; 8; 8; 8; 8; 5; 7; 4; 8; 7; 10; 7; 7; 7; 5; 4; 5; 8].

(** platform/android-aarch64/art-shim/muplar_font.h:114-125 (muplar_font_alpha) *)
Definition glyph_32 : list Z :=
  [0; 0; 0; 0; 0; 0; 0; 0; 0; 0; 0; 0; 0; 0; 0; 0;
   0; 0; 0; 0; 0; 0; 0; 0; 0; 0; 0; 0; 0; 0; 0; 0;
   0; 0; 0; 0; 0; 0; 0; 0; 0; 0; 0; 0; 0; 0; 0; 0;
   0; 0; 0; 0; 0; 0; 0; 0; 0; 0; 0; 0; 0; 0; 0; 0;
   0; 0; 0; 0; 0; 0; 0; 0; 0; 0; 0; 0; 0; 0; 0; 0;
   0; 0; 0; 0; 0; 0; 0; 0; 0; 0; 0; 0; 0; 0; 0; 0;
   0; 0; 0; 0; 0; 0; 0; 0; 0; 0; 0; 0; 0; 0; 0; 0;
   0; 0; 0; 0; 0; 0; 0; 0; 0; 0; 0; 0; 0; 0; 0; 0;
   0; 0; 0; 0; 0; 0; 0; 0; 0; 0; 0; 0; 0; 0; 0; 0;
   0; 0; 0; 0; 0; 0; 0; 0; 0; 0; 0; 0; 0; 0; 0; 0;
   0; 0; 0; 0; 0; 0; 0; 0; 0; 0; 0; 0; 0; 0; 0; 0;
   0; 0; 0; 0; 0; 0; 0; 0; 0; 0; 0; 0; 0; 0; 0; 0;
   0; 0; 0; 0; 0; 0; 0; 0; 0; 0; 0; 0; 0; 0; 0; 0;
   0; 0; 0; 0; 0; 0; 0; 0; 0; 0; 0; 0; 0; 0; 0; 0;
   0; 0; 0; 0; 0; 0; 0; 0; 0; 0; 0; 0; 0; 0; 0; 0;
   0; 0; 0; 0; 0; 0; 0; 0; 0; 0; 0; 0; 0; 0; 0; 0].

(** platform/android-aarch64/art-shim/muplar_font.h:126-142 (muplar_font_alpha) *)
Definition glyph_33 : list Z :=
  [0; 0; 0; 0; 0; 0; 0; 0; 0; 0; 0; 0; 0; 0; 0; 0;
   0; 0; 0; 0; 0; 0; 0; 0; 0; 0; 0; 0; 0; 0; 0; 0;
   0; 0; 1; 2; 1; 0; 0; 0; 0; 0; 0; 0; 0; 0; 0; 0;
   0; 0; 193; 255; 152; 0; 0; 0; 0; 0; 0; 0; 0; 0; 0; 0;
   0; 0; 198; 255; 158; 0; 0; 0; 0; 0; 0; 0; 0; 0; 0; 0;
   0; 0; 195; 255; 155; 0; 0; 0; 0; 0; 0; 0; 0; 0; 0; 0;
   0; 0; 167; 255; 128; 0; 0; 0; 0; 0; 0; 0; 0; 0; 0; 0;
   0; 0; 133; 255; 95; 0; 0; 0; 0; 0; 0; 0; 0; 0; 0; 0;
   0; 0; 99; 255; 62; 0; 0; 0; 0; 0; 0; 0; 0; 0; 0; 0;
   0; 0; 61; 176; 35; 0; 0; 0; 0; 0; 0; 0; 0; 0; 0; 0;
   0; 0; 187; 255; 145; 0; 0; 0; 0; 0; 0; 0; 0; 0; 0; 0;
   0; 0; 182; 255; 140; 0; 0; 0; 0; 0; 0; 0; 0; 0; 0; 0;
   0; 0; 0; 0; 0; 0; 0; 0; 0; 0; 0; 0; 0; 0; 0; 0;
   0; 0; 0; 0; 0; 0; 0; 0; 0; 0; 0; 0; 0; 0; 0; 0;
   0; 0; 0; 0; 0; 0; 0; 0; 0; 0; 0; 0; 0; 0; 0; 0;
   0; 0; 0; 0; 0; 0; 0; 0; 0; 0; 0; 0; 0; 0; 0; 0].

(** platform/android-aarch64/art-shim/muplar_font.h:143-158 (muplar_font_alpha) *)
Definition glyph_34 : list Z :=
  [0; 0; 0; 0; 0; 0; 0; 0; 0; 0; 0; 0; 0; 0; 0; 0;
   0; 0; 0; 0; 0; 0; 0; 0; 0; 0; 0; 0; 0; 0; 0; 0;
   0; 0; 12; 10; 7; 12; 2; 0; 0; 0; 0; 0; 0; 0; 0; 0;
   0; 24; 255; 242; 176; 255; 90; 0; 0; 0; 0; 0; 0; 0; 0; 0;
   0; 14; 255; 231; 166; 255; 79; 0; 0; 0; 0; 0; 0; 0; 0; 0;
   0; 0; 249; 208; 144; 255; 57; 0; 0; 0; 0; 0; 0; 0; 0; 0;
   0; 0; 206; 168; 111; 230; 33; 0; 0; 0; 0; 0; 0; 0; 0; 0;
   0; 0; 0; 0; 0; 0; 0; 0; 0; 0; 0; 0; 0; 0; 0; 0;
   0; 0; 0; 0; 0; 0; 0; 0; 0; 0; 0; 0; 0; 0; 0; 0;
   0; 0; 0; 0; 0; 0; 0; 0; 0; 0; 0; 0; 0; 0; 0; 0;
   0; 0; 0; 0; 0; 0; 0; 0; 0; 0; 0; 0; 0; 0; 0; 0;
   0; 0; 0; 0; 0; 0; 0; 0; 0; 0; 0; 0; 0; 0; 0; 0;
   0; 0; 0; 0; 0; 0; 0; 0; 0; 0; 0; 0; 0; 0; 0; 0;
   0; 0; 0; 0; 0; 0; 0; 0; 0; 0; 0; 0; 0; 0; 0; 0;
   0; 0; 0; 0; 0; 0; 0; 0; 0; 0; 0; 0; 0; 0; 0; 0;
   0; 0; 0; 0; 0; 0; 0; 0; 0; 0; 0; 0; 0; 0; 0; 0].

(** platform/android-aarch64/art-shim/muplar_font.h:159-175 (muplar_font_alpha) *)
Definition glyph_35 : list Z :=
  [0; 0; 0; 0; 0; 0; 0; 0; 0; 0; 0; 0; 0; 0; 0; 0;
   0; 0; 0; 0; 0; 0; 0; 0; 0; 0; 0; 0; 0; 0; 0; 0;
   0; 0; 0; 0; 0; 0; 0; 0; 0; 0; 0; 0; 0; 0; 0; 0;
   0; 0; 0; 48; 186; 84; 176; 138; 0; 0; 0; 0; 0; 0; 0; 0;
   0; 0; 0; 133; 255; 124; 255; 147; 0; 0; 0; 0; 0; 0; 0; 0;
   0; 21; 107; 219; 255; 179; 255; 172; 35; 0; 0; 0; 0; 0; 0; 0;
   0; 79; 255; 255; 247; 255; 253; 237; 64; 0; 0; 0; 0; 0; 0; 0;
   0; 0; 105; 255; 123; 254; 176; 0; 0; 0; 0; 0; 0; 0; 0; 0;
   8; 190; 230; 255; 233; 255; 239; 108; 0; 0; 0; 0; 0; 0; 0; 0;
   19; 161; 255; 224; 248; 254; 153; 67; 0; 0; 0; 0; 0; 0; 0; 0;
   0; 74; 255; 133; 244; 206; 0; 0; 0; 0; 0; 0; 0; 0; 0; 0;
   0; 132; 255; 104; 255; 133; 0; 0; 0; 0; 0; 0; 0; 0; 0; 0;
   0; 0; 0; 0; 0; 0; 0; 0; 0; 0; 0; 0; 0; 0; 0; 0;
   0; 0; 0; 0; 0; 0; 0; 0; 0; 0; 0; 0; 0; 0; 0; 0;
   0; 0; 0; 0; 0; 0; 0; 0; 0; 0; 0; 0; 0; 0; 0; 0;
   0; 0; 0; 0; 0; 0; 0; 0; 0; 0; 0; 0; 0; 0; 0; 0].

(** platform/android-aarch64/art-shim/muplar_font.h:176-192 (muplar_font_alpha) *)
Definition glyph_36 : list Z :=
  [0; 0; 0; 0; 0; 0; 0; 0; 0; 0; 0; 0; 0; 0; 0; 0;
   0; 0; 0; 0; 0; 0; 0; 0; 0; 0; 0; 0; 0; 0; 0; 0;
   0; 0; 0; 0; 210; 22; 0; 0; 0; 0; 0; 0; 0; 0; 0; 0;
   0; 0; 85; 203; 253; 200; 106; 1; 0; 0; 0; 0; 0; 0; 0; 0;
   0; 72; 255; 255; 255; 255; 255; 124; 0; 0; 0; 0; 0; 0; 0; 0;
   0; 150; 255; 165; 229; 128; 247; 189; 0; 0; 0; 0; 0; 0; 0; 0;
   0; 107; 255; 246; 255; 85; 2; 0; 0; 0; 0; 0; 0; 0; 0; 0;
   0; 16; 175; 255; 255; 255; 224; 58; 0; 0; 0; 0; 0; 0; 0; 0;
   0; 2; 3; 50; 253; 250; 255; 218; 0; 0; 0; 0; 0; 0; 0; 0;
   0; 193; 255; 108; 229; 127; 255; 251; 0; 0; 0; 0; 0; 0; 0; 0;
   0; 153; 255; 245; 255; 236; 255; 194; 0; 0; 0; 0; 0; 0; 0; 0;
   0; 19; 198; 255; 255; 255; 210; 27; 0; 0; 0; 0; 0; 0; 0; 0;
   0; 0; 0; 34; 236; 67; 0; 0; 0; 0; 0; 0; 0; 0; 0; 0;
   0; 0; 0; 0; 109; 11; 0; 0; 0; 0; 0; 0; 0; 0; 0; 0;
   0; 0; 0; 0; 0; 0; 0; 0; 0; 0; 0; 0; 0; 0; 0; 0;
   0; 0; 0; 0; 0; 0; 0; 0; 0; 0; 0; 0; 0; 0; 0; 0].

(** platform/android-aarch64/art-shim/muplar_font.h:193-209 (muplar_font_alpha) *)
Definition glyph_37 : list Z :=
  [0; 0; 0; 0; 0; 0; 0; 0; 0; 0; 0; 0; 0; 0; 0; 0;
   0; 0; 0; 0; 0; 0; 0; 0; 0; 0; 0; 0; 0; 0; 0; 0;
   0; 0; 0; 0; 0; 0; 0; 0; 0; 0; 0; 0; 0; 0; 0; 0;
   0; 9; 104; 194; 138; 31; 0; 0; 141; 192; 0; 0; 0; 0; 0; 0;
   0; 130; 255; 253; 255; 210; 1; 51; 253; 111; 0; 0; 0; 0; 0; 0;
   0; 220; 255; 19; 195; 255; 47; 199; 212; 4; 0; 0; 0; 0; 0; 0;
   0; 139; 255; 240; 255; 219; 98; 255; 65; 0; 0; 0; 0; 0; 0; 0;
   0; 18; 128; 209; 159; 63; 232; 169; 47; 136; 110; 19; 0; 0; 0; 0;
   0; 0; 0; 0; 0; 143; 245; 96; 255; 255; 255; 229; 6; 0; 0; 0;
   0; 0; 0; 0; 43; 251; 123; 166; 255; 95; 169; 255; 83; 0; 0; 0;
   0; 0; 0; 0; 190; 220; 7; 123; 255; 213; 230; 254; 38; 0; 0; 0;
   0; 0; 0; 82; 255; 76; 0; 19; 183; 254; 241; 128; 0; 0; 0; 0;
   0; 0; 0; 23; 57; 0; 0; 0; 0; 28; 12; 0; 0; 0; 0; 0;
   0; 0; 0; 0; 0; 0; 0; 0; 0; 0; 0; 0; 0; 0; 0; 0;
   0; 0; 0; 0; 0; 0; 0; 0; 0; 0; 0; 0; 0; 0; 0; 0;
   0; 0; 0; 0; 0; 0; 0; 0; 0; 0; 0; 0; 0; 0; 0; 0].

(** platform/android-aarch64/art-shim/muplar_font.h:210-226 (muplar_font_alpha) *)
Definition glyph_38 : list Z :=
  [0; 0; 0; 0; 0; 0; 0; 0; 0; 0; 0; 0; 0; 0; 0; 0;
   0; 0; 0; 0; 0; 0; 0; 0; 0; 0; 0; 0; 0; 0; 0; 0;
   0; 0; 0; 0; 0; 1; 0; 0; 0; 0; 0; 0; 0; 0; 0; 0;
   0; 0; 0; 100; 205; 245; 161; 25; 0; 0; 0; 0; 0; 0; 0; 0;
   0; 0; 46; 253; 254; 228; 255; 148; 0; 0; 0; 0; 0; 0; 0; 0;
   0; 0; 81; 255; 249; 149; 255; 187; 0; 0; 0; 0; 0; 0; 0; 0;
   0; 0; 16; 242; 255; 255; 251; 84; 0; 0; 0; 0; 0; 0; 0; 0;
   0; 1; 128; 255; 255; 255; 201; 96; 226; 136; 0; 0; 0; 0; 0; 0;
   0; 64; 255; 253; 168; 253; 255; 255; 255; 108; 0; 0; 0; 0; 0; 0;
   0; 118; 255; 232; 1; 113; 255; 255; 245; 19; 0; 0; 0; 0; 0; 0;
   0; 32; 252; 255; 219; 221; 255; 255; 255; 91; 0; 0; 0; 0; 0; 0;
   0; 0; 120; 251; 255; 255; 213; 198; 255; 250; 37; 0; 0; 0; 0; 0;
   0; 0; 0; 15; 41; 25; 0; 0; 0; 0; 0; 0; 0; 0; 0; 0;
   0; 0; 0; 0; 0; 0; 0; 0; 0; 0; 0; 0; 0; 0; 0; 0;
   0; 0; 0; 0; 0; 0; 0; 0; 0; 0; 0; 0; 0; 0; 0; 0;
   0; 0; 0; 0; 0; 0; 0; 0; 0; 0; 0; 0; 0; 0; 0; 0].

(** platform/android-aarch64/art-shim/muplar_font.h:227-242 (muplar_font_alpha) *)
Definition glyph_39 : list Z :=
  [0; 0; 0; 0; 0; 0; 0; 0; 0; 0; 0; 0; 0; 0; 0; 0;
   0; 0; 0; 0; 0; 0; 0; 0; 0; 0; 0; 0; 0; 0; 0; 0;
   0; 4; 12; 4; 0; 0; 0; 0; 0; 0; 0; 0; 0; 0; 0; 0;
   0; 134; 255; 131; 0; 0; 0; 0; 0; 0; 0; 0; 0; 0; 0; 0;
   0; 122; 255; 119; 0; 0; 0; 0; 0; 0; 0; 0; 0; 0; 0; 0;
   0; 99; 255; 96; 0; 0; 0; 0; 0; 0; 0; 0; 0; 0; 0; 0;
   0; 69; 230; 66; 0; 0; 0; 0; 0; 0; 0; 0; 0; 0; 0; 0;
   0; 0; 0; 0; 0; 0; 0; 0; 0; 0; 0; 0; 0; 0; 0; 0;
   0; 0; 0; 0; 0; 0; 0; 0; 0; 0; 0; 0; 0; 0; 0; 0;
   0; 0; 0; 0; 0; 0; 0; 0; 0; 0; 0; 0; 0; 0; 0; 0;
   0; 0; 0; 0; 0; 0; 0; 0; 0; 0; 0; 0; 0; 0; 0; 0;
   0; 0; 0; 0; 0; 0; 0; 0; 0; 0; 0; 0; 0; 0; 0; 0;
   0; 0; 0; 0; 0; 0; 0; 0; 0; 0; 0; 0; 0; 0; 0; 0;
   0; 0; 0; 0; 0; 0; 0; 0; 0; 0; 0; 0; 0; 0; 0; 0;
   0; 0; 0; 0; 0; 0; 0; 0; 0; 0; 0; 0; 0; 0; 0; 0;
   0; 0; 0; 0; 0; 0; 0; 0; 0; 0; 0; 0; 0; 0; 0; 0].

(** platform/android-aarch64/art-shim/muplar_font.h:243-259 (muplar_font_alpha) *)
Definition glyph_40 : list Z :=
  [0; 0; 0; 0; 0; 0; 0; 0; 0; 0; 0; 0; 0; 0; 0; 0;
   0; 0; 0; 0; 0; 0; 0; 0; 0; 0; 0; 0; 0; 0; 0; 0;
   0; 0; 0; 30; 61; 11; 0; 0; 0; 0; 0; 0; 0; 0; 0; 0;
   0; 0; 7; 218; 255; 47; 0; 0; 0; 0; 0; 0; 0; 0; 0; 0;
   0; 0; 126; 255; 189; 0; 0; 0; 0; 0; 0; 0; 0; 0; 0; 0;
   0; 5; 244; 255; 84; 0; 0; 0; 0; 0; 0; 0; 0; 0; 0; 0;
   0; 54; 255; 235; 4; 0; 0; 0; 0; 0; 0; 0; 0; 0; 0; 0;
   0; 115; 255; 196; 0; 0; 0; 0; 0; 0; 0; 0; 0; 0; 0; 0;
   0; 159; 255; 179; 0; 0; 0; 0; 0; 0; 0; 0; 0; 0; 0; 0;
   0; 137; 255; 212; 0; 0; 0; 0; 0; 0; 0; 0; 0; 0; 0; 0;
   0; 97; 255; 250; 5; 0; 0; 0; 0; 0; 0; 0; 0; 0; 0; 0;
   0; 19; 250; 255; 45; 0; 0; 0; 0; 0; 0; 0; 0; 0; 0; 0;
   0; 0; 168; 255; 145; 0; 0; 0; 0; 0; 0; 0; 0; 0; 0; 0;
   0; 0; 34; 249; 245; 20; 0; 0; 0; 0; 0; 0; 0; 0; 0; 0;
   0; 0; 0; 95; 159; 46; 0; 0; 0; 0; 0; 0; 0; 0; 0; 0;
   0; 0; 0; 0; 0; 0; 0; 0; 0; 0; 0; 0; 0; 0; 0; 0].

(** platform/android-aarch64/art-shim/muplar_font.h:260-276 (muplar_font_alpha) *)
Definition glyph_41 : list Z :=
  [0; 0; 0; 0; 0; 0; 0; 0; 0; 0; 0; 0; 0; 0; 0; 0;
   0; 0; 0; 0; 0; 0; 0; 0; 0; 0; 0; 0; 0; 0; 0; 0;
   0; 54; 49; 0; 0; 0; 0; 0; 0; 0; 0; 0; 0; 0; 0; 0;
   0; 223; 253; 50; 0; 0; 0; 0; 0; 0; 0; 0; 0; 0; 0; 0;
   0; 111; 255; 202; 2; 0; 0; 0; 0; 0; 0; 0; 0; 0; 0; 0;
   0; 16; 246; 255; 71; 0; 0; 0; 0; 0; 0; 0; 0; 0; 0; 0;
   0; 0; 162; 255; 132; 0; 0; 0; 0; 0; 0; 0; 0; 0; 0; 0;
   0; 0; 118; 255; 193; 0; 0; 0; 0; 0; 0; 0; 0; 0; 0; 0;
   0; 0; 102; 255; 237; 0; 0; 0; 0; 0; 0; 0; 0; 0; 0; 0;
   0; 0; 134; 255; 215; 0; 0; 0; 0; 0; 0; 0; 0; 0; 0; 0;
   0; 0; 177; 255; 175; 0; 0; 0; 0; 0; 0; 0; 0; 0; 0; 0;
   0; 0; 223; 255; 91; 0; 0; 0; 0; 0; 0; 0; 0; 0; 0; 0;
   0; 67; 255; 234; 11; 0; 0; 0; 0; 0; 0; 0; 0; 0; 0; 0;
   0; 188; 255; 105; 0; 0; 0; 0; 0; 0; 0; 0; 0; 0; 0; 0;
   2; 154; 140; 3; 0; 0; 0; 0; 0; 0; 0; 0; 0; 0; 0; 0;
   0; 0; 0; 0; 0; 0; 0; 0; 0; 0; 0; 0; 0; 0; 0; 0].

(** platform/android-aarch64/art-shim/muplar_font.h:277-292 (muplar_font_alpha) *)
Definition glyph_42 : list Z :=
  [0; 0; 0; 0; 0; 0; 0; 0; 0; 0; 0; 0; 0; 0; 0; 0;
   0; 0; 0; 0; 0; 0; 0; 0; 0; 0; 0; 0; 0; 0; 0; 0;
   0; 0; 3; 31; 2; 0; 0; 0; 0; 0; 0; 0; 0; 0; 0; 0;
   0; 0; 70; 255; 56; 0; 0; 0; 0; 0; 0; 0; 0; 0; 0; 0;
   0; 189; 229; 255; 226; 176; 0; 0; 0; 0; 0; 0; 0; 0; 0; 0;
   0; 78; 255; 255; 253; 69; 0; 0; 0; 0; 0; 0; 0; 0; 0; 0;
   0; 86; 255; 195; 255; 70; 0; 0; 0; 0; 0; 0; 0; 0; 0; 0;
   0; 0; 44; 0; 44; 0; 0; 0; 0; 0; 0; 0; 0; 0; 0; 0;
   0; 0; 0; 0; 0; 0; 0; 0; 0; 0; 0; 0; 0; 0; 0; 0;
   0; 0; 0; 0; 0; 0; 0; 0; 0; 0; 0; 0; 0; 0; 0; 0;
   0; 0; 0; 0; 0; 0; 0; 0; 0; 0; 0; 0; 0; 0; 0; 0;
   0; 0; 0; 0; 0; 0; 0; 0; 0; 0; 0; 0; 0; 0; 0; 0;
   0; 0; 0; 0; 0; 0; 0; 0; 0; 0; 0; 0; 0; 0; 0; 0;
   0; 0; 0; 0; 0; 0; 0; 0; 0; 0; 0; 0; 0; 0; 0; 0;
   0; 0; 0; 0; 0; 0; 0; 0; 0; 0; 0; 0; 0; 0; 0; 0;
   0; 0; 0; 0; 0; 0; 0; 0; 0; 0; 0; 0; 0; 0; 0; 0].

(** platform/android-aarch64/art-shim/muplar_font.h:293-309 (muplar_font_alpha) *)
Definition glyph_43 : list Z :=
  [0; 0; 0; 0; 0; 0; 0; 0; 0; 0; 0; 0; 0; 0; 0; 0;
   0; 0; 0; 0; 0; 0; 0; 0; 0; 0; 0; 0; 0; 0; 0; 0;
   0; 0; 0; 0; 0; 0; 0; 0; 0; 0; 0; 0; 0; 0; 0; 0;
   0; 0; 0; 0; 0; 0; 0; 0; 0; 0; 0; 0; 0; 0; 0; 0;
   0; 0; 0; 0; 0; 0; 0; 0; 0; 0; 0; 0; 0; 0; 0; 0;
   0; 0; 0; 22; 188; 173; 0; 0; 0; 0; 0; 0; 0; 0; 0; 0;
   0; 0; 0; 35; 255; 240; 0; 0; 0; 0; 0; 0; 0; 0; 0; 0;
   0; 64; 92; 120; 255; 251; 92; 92; 45; 0; 0; 0; 0; 0; 0; 0;
   0; 189; 255; 255; 255; 255; 255; 255; 139; 0; 0; 0; 0; 0; 0; 0;
   0; 94; 134; 155; 255; 253; 134; 134; 68; 0; 0; 0; 0; 0; 0; 0;
   0; 0; 0; 35; 255; 240; 0; 0; 0; 0; 0; 0; 0; 0; 0; 0;
   0; 0; 0; 30; 255; 235; 0; 0; 0; 0; 0; 0; 0; 0; 0; 0;
   0; 0; 0; 0; 0; 0; 0; 0; 0; 0; 0; 0; 0; 0; 0; 0;
   0; 0; 0; 0; 0; 0; 0; 0; 0; 0; 0; 0; 0; 0; 0; 0;
   0; 0; 0; 0; 0; 0; 0; 0; 0; 0; 0; 0; 0; 0; 0; 0;
   0; 0; 0; 0; 0; 0; 0; 0; 0; 0; 0; 0; 0; 0; 0; 0].

(** platform/android-aarch64/art-shim/muplar_font.h:310-325 (muplar_font_alpha) *)
Definition glyph_44 : list Z :=
  [0; 0; 0; 0; 0; 0; 0; 0; 0; 0; 0; 0; 0; 0; 0; 0;
   0; 0; 0; 0; 0; 0; 0; 0; 0; 0; 0; 0; 0; 0; 0; 0;
   0; 0; 0; 0; 0; 0; 0; 0; 0; 0; 0; 0; 0; 0; 0; 0;
   0; 0; 0; 0; 0; 0; 0; 0; 0; 0; 0; 0; 0; 0; 0; 0;
   0; 0; 0; 0; 0; 0; 0; 0; 0; 0; 0; 0; 0; 0; 0; 0;
   0; 0; 0; 0; 0; 0; 0; 0; 0; 0; 0; 0; 0; 0; 0; 0;
   0; 0; 0; 0; 0; 0; 0; 0; 0; 0; 0; 0; 0; 0; 0; 0;
   0; 0; 0; 0; 0; 0; 0; 0; 0; 0; 0; 0; 0; 0; 0; 0;
   0; 0; 0; 0; 0; 0; 0; 0; 0; 0; 0; 0; 0; 0; 0; 0;
   0; 17; 48; 39; 0; 0; 0; 0; 0; 0; 0; 0; 0; 0; 0; 0;
   0; 116; 255; 232; 0; 0; 0; 0; 0; 0; 0; 0; 0; 0; 0; 0;
   0; 111; 255; 231; 0; 0; 0; 0; 0; 0; 0; 0; 0; 0; 0; 0;
   0; 7; 181; 202; 0; 0; 0; 0; 0; 0; 0; 0; 0; 0; 0; 0;
   0; 115; 241; 69; 0; 0; 0; 0; 0; 0; 0; 0; 0; 0; 0; 0;
   0; 12; 15; 0; 0; 0; 0; 0; 0; 0; 0; 0; 0; 0; 0; 0;
   0; 0; 0; 0; 0; 0; 0; 0; 0; 0; 0; 0; 0; 0; 0; 0].

(** platform/android-aarch64/art-shim/muplar_font.h:326-340 (muplar_font_alpha) *)
Definition glyph_45 : list Z :=
  [0; 0; 0; 0; 0; 0; 0; 0; 0; 0; 0; 0; 0; 0; 0; 0;
   0; 0; 0; 0; 0; 0; 0; 0; 0; 0; 0; 0; 0; 0; 0; 0;
   0; 0; 0; 0; 0; 0; 0; 0; 0; 0; 0; 0; 0; 0; 0; 0;
   0; 0; 0; 0; 0; 0; 0; 0; 0; 0; 0; 0; 0; 0; 0; 0;
   0; 0; 0; 0; 0; 0; 0; 0; 0; 0; 0; 0; 0; 0; 0; 0;
   0; 0; 0; 0; 0; 0; 0; 0; 0; 0; 0; 0; 0; 0; 0; 0;
   0; 0; 0; 0; 0; 0; 0; 0; 0; 0; 0; 0; 0; 0; 0; 0;
   0; 123; 141; 141; 141; 16; 0; 0; 0; 0; 0; 0; 0; 0; 0; 0;
   0; 232; 255; 255; 255; 37; 0; 0; 0; 0; 0; 0; 0; 0; 0; 0;
   0; 84; 98; 98; 98; 10; 0; 0; 0; 0; 0; 0; 0; 0; 0; 0;
   0; 0; 0; 0; 0; 0; 0; 0; 0; 0; 0; 0; 0; 0; 0; 0;
   0; 0; 0; 0; 0; 0; 0; 0; 0; 0; 0; 0; 0; 0; 0; 0;
   0; 0; 0; 0; 0; 0; 0; 0; 0; 0; 0; 0; 0; 0; 0; 0;
   0; 0; 0; 0; 0; 0; 0; 0; 0; 0; 0; 0; 0; 0; 0; 0;
   0; 0; 0; 0; 0; 0; 0; 0; 0; 0; 0; 0; 0; 0; 0; 0;
   0; 0; 0; 0; 0; 0; 0; 0; 0; 0; 0; 0; 0; 0; 0; 0].

(** platform/android-aarch64/art-shim/muplar_font.h:341-354 (muplar_font_alpha) *)
Definition glyph_46 : list Z :=
  [0; 0; 0; 0; 0; 0; 0; 0; 0; 0; 0; 0; 0; 0; 0; 0;
   0; 0; 0; 0; 0; 0; 0; 0; 0; 0; 0; 0; 0; 0; 0; 0;
   0; 0; 0; 0; 0; 0; 0; 0; 0; 0; 0; 0; 0; 0; 0; 0;
   0; 0; 0; 0; 0; 0; 0; 0; 0; 0; 0; 0; 0; 0; 0; 0;
   0; 0; 0; 0; 0; 0; 0; 0; 0; 0; 0; 0; 0; 0; 0; 0;
   0; 0; 0; 0; 0; 0; 0; 0; 0; 0; 0; 0; 0; 0; 0; 0;
   0; 0; 0; 0; 0; 0; 0; 0; 0; 0; 0; 0; 0; 0; 0; 0;
   0; 0; 0; 0; 0; 0; 0; 0; 0; 0; 0; 0; 0; 0; 0; 0;
   0; 0; 0; 0; 0; 0; 0; 0; 0; 0; 0; 0; 0; 0; 0; 0;
   0; 14; 48; 40; 0; 0; 0; 0; 0; 0; 0; 0; 0; 0; 0; 0;
   0; 100; 255; 240; 0; 0; 0; 0; 0; 0; 0; 0; 0; 0; 0; 0;
   0; 95; 255; 235; 0; 0; 0; 0; 0; 0; 0; 0; 0; 0; 0; 0;
   0; 0; 0; 0; 0; 0; 0; 0; 0; 0; 0; 0; 0; 0; 0; 0;
   0; 0; 0; 0; 0; 0; 0; 0; 0; 0; 0; 0; 0; 0; 0; 0;
   0; 0; 0; 0; 0; 0; 0; 0; 0; 0; 0; 0; 0; 0; 0; 0;
   0; 0; 0; 0; 0; 0; 0; 0; 0; 0; 0; 0; 0; 0; 0; 0].

(** platform/android-aarch64/art-shim/muplar_font.h:355-371 (muplar_font_alpha) *)
Definition glyph_47 : list Z :=
  [0; 0; 0; 0; 0; 0; 0; 0; 0; 0; 0; 0; 0; 0; 0; 0;
   0; 0; 0; 0; 0; 0; 0; 0; 0; 0; 0; 0; 0; 0; 0; 0;
   0; 0; 0; 38; 103; 51; 0; 0; 0; 0; 0; 0; 0; 0; 0; 0;
   0; 0; 0; 168; 255; 117; 0; 0; 0; 0; 0; 0; 0; 0; 0; 0;
   0; 0; 21; 249; 248; 20; 0; 0; 0; 0; 0; 0; 0; 0; 0; 0;
   0; 0; 118; 255; 164; 0; 0; 0; 0; 0; 0; 0; 0; 0; 0; 0;
   0; 1; 220; 255; 60; 0; 0; 0; 0; 0; 0; 0; 0; 0; 0; 0;
   0; 68; 255; 211; 0; 0; 0; 0; 0; 0; 0; 0; 0; 0; 0; 0;
   0; 171; 255; 106; 0; 0; 0; 0; 0; 0; 0; 0; 0; 0; 0; 0;
   24; 250; 244; 14; 0; 0; 0; 0; 0; 0; 0; 0; 0; 0; 0; 0;
   122; 255; 153; 0; 0; 0; 0; 0; 0; 0; 0; 0; 0; 0; 0; 0;
   205; 255; 48; 0; 0; 0; 0; 0; 0; 0; 0; 0; 0; 0; 0; 0;
   0; 0; 0; 0; 0; 0; 0; 0; 0; 0; 0; 0; 0; 0; 0; 0;
   0; 0; 0; 0; 0; 0; 0; 0; 0; 0; 0; 0; 0; 0; 0; 0;
   0; 0; 0; 0; 0; 0; 0; 0; 0; 0; 0; 0; 0; 0; 0; 0;
   0; 0; 0; 0; 0; 0; 0; 0; 0; 0; 0; 0; 0; 0; 0; 0].

(** platform/android-aarch64/art-shim/muplar_font.h:372-388 (muplar_font_alpha) *)
Definition glyph_48 : list Z :=
  [0; 0; 0; 0; 0; 0; 0; 0; 0; 0; 0; 0; 0; 0; 0; 0;
   0; 0; 0; 0; 0; 0; 0; 0; 0; 0; 0; 0; 0; 0; 0; 0;
   0; 0; 0; 0; 0; 0; 0; 0; 0; 0; 0; 0; 0; 0; 0; 0;
   0; 0; 69; 192; 235; 201; 96; 0; 0; 0; 0; 0; 0; 0; 0; 0;
   0; 41; 248; 255; 255; 255; 255; 76; 0; 0; 0; 0; 0; 0; 0; 0;
   0; 142; 255; 213; 41; 187; 255; 183; 0; 0; 0; 0; 0; 0; 0; 0;
   0; 181; 255; 155; 0; 118; 255; 222; 0; 0; 0; 0; 0; 0; 0; 0;
   0; 201; 255; 131; 0; 95; 255; 242; 0; 0; 0; 0; 0; 0; 0; 0;
   0; 187; 255; 150; 0; 112; 255; 228; 0; 0; 0; 0; 0; 0; 0; 0;
   0; 157; 255; 197; 5; 162; 255; 198; 0; 0; 0; 0; 0; 0; 0; 0;
   0; 73; 255; 255; 251; 255; 255; 113; 0; 0; 0; 0; 0; 0; 0; 0;
   0; 1; 142; 254; 255; 255; 174; 7; 0; 0; 0; 0; 0; 0; 0; 0;
   0; 0; 0; 14; 42; 21; 0; 0; 0; 0; 0; 0; 0; 0; 0; 0;
   0; 0; 0; 0; 0; 0; 0; 0; 0; 0; 0; 0; 0; 0; 0; 0;
   0; 0; 0; 0; 0; 0; 0; 0; 0; 0; 0; 0; 0; 0; 0; 0;
   0; 0; 0; 0; 0; 0; 0; 0; 0; 0; 0; 0; 0; 0; 0; 0].

(** platform/android-aarch64/art-shim/muplar_font.h:389-405 (muplar_font_alpha) *)
Definition glyph_49 : list Z :=
  [0; 0; 0; 0; 0; 0; 0; 0; 0; 0; 0; 0; 0; 0; 0; 0;
   0; 0; 0; 0; 0; 0; 0; 0; 0; 0; 0; 0; 0; 0; 0; 0;
   0; 0; 0; 0; 0; 0; 0; 0; 0; 0; 0; 0; 0; 0; 0; 0;
   0; 0; 0; 3; 198; 219; 22; 0; 0; 0; 0; 0; 0; 0; 0; 0;
   0; 24; 92; 179; 255; 255; 32; 0; 0; 0; 0; 0; 0; 0; 0; 0;
   0; 77; 255; 255; 255; 255; 31; 0; 0; 0; 0; 0; 0; 0; 0; 0;
   0; 4; 30; 65; 255; 255; 31; 0; 0; 0; 0; 0; 0; 0; 0; 0;
   0; 0; 0; 35; 255; 255; 31; 0; 0; 0; 0; 0; 0; 0; 0; 0;
   0; 0; 0; 35; 255; 255; 31; 0; 0; 0; 0; 0; 0; 0; 0; 0;
   0; 0; 0; 35; 255; 255; 31; 0; 0; 0; 0; 0; 0; 0; 0; 0;
   0; 0; 0; 35; 255; 255; 31; 0; 0; 0; 0; 0; 0; 0; 0; 0;
   0; 0; 0; 30; 255; 255; 27; 0; 0; 0; 0; 0; 0; 0; 0; 0;
   0; 0; 0; 0; 0; 0; 0; 0; 0; 0; 0; 0; 0; 0; 0; 0;
   0; 0; 0; 0; 0; 0; 0; 0; 0; 0; 0; 0; 0; 0; 0; 0;
   0; 0; 0; 0; 0; 0; 0; 0; 0; 0; 0; 0; 0; 0; 0; 0;
   0; 0; 0; 0; 0; 0; 0; 0; 0; 0; 0; 0; 0; 0; 0; 0].

(** platform/android-aarch64/art-shim/muplar_font.h:406-422 (muplar_font_alpha) *)
Definition glyph_50 : list Z :=
  [0; 0; 0; 0; 0; 0; 0; 0; 0; 0; 0; 0; 0; 0; 0; 0;
   0; 0; 0; 0; 0; 0; 0; 0; 0; 0; 0; 0; 0; 0; 0; 0;
   0; 0; 0; 0; 0; 0; 0; 0; 0; 0; 0; 0; 0; 0; 0; 0;
   0; 0; 79; 188; 230; 201; 104; 1; 0; 0; 0; 0; 0; 0; 0; 0;
   0; 56; 251; 255; 255; 255; 255; 118; 0; 0; 0; 0; 0; 0; 0; 0;
   0; 139; 255; 193; 26; 165; 255; 212; 0; 0; 0; 0; 0; 0; 0; 0;
   0; 71; 117; 60; 0; 186; 255; 196; 0; 0; 0; 0; 0; 0; 0; 0;
   0; 0; 0; 13; 159; 255; 255; 100; 0; 0; 0; 0; 0; 0; 0; 0;
   0; 0; 48; 221; 255; 252; 118; 0; 0; 0; 0; 0; 0; 0; 0; 0;
   0; 36; 241; 255; 215; 54; 0; 0; 0; 0; 0; 0; 0; 0; 0; 0;
   0; 135; 255; 255; 248; 234; 234; 210; 0; 0; 0; 0; 0; 0; 0; 0;
   0; 182; 255; 255; 255; 255; 255; 228; 0; 0; 0; 0; 0; 0; 0; 0;
   0; 0; 0; 0; 0; 0; 0; 0; 0; 0; 0; 0; 0; 0; 0; 0;
   0; 0; 0; 0; 0; 0; 0; 0; 0; 0; 0; 0; 0; 0; 0; 0;
   0; 0; 0; 0; 0; 0; 0; 0; 0; 0; 0; 0; 0; 0; 0; 0;
   0; 0; 0; 0; 0; 0; 0; 0; 0; 0; 0; 0; 0; 0; 0; 0].

(** platform/android-aarch64/art-shim/muplar_font.h:423-439 (muplar_font_alpha) *)
Definition glyph_51 : list Z :=
  [0; 0; 0; 0; 0; 0; 0; 0; 0; 0; 0; 0; 0; 0; 0; 0;
   0; 0; 0; 0; 0; 0; 0; 0; 0; 0; 0; 0; 0; 0; 0; 0;
   0; 0; 0; 0; 0; 0; 0; 0; 0; 0; 0; 0; 0; 0; 0; 0;
   0; 0; 93; 201; 228; 165; 77; 0; 0; 0; 0; 0; 0; 0; 0; 0;
   0; 74; 255; 255; 255; 255; 255; 86; 0; 0; 0; 0; 0; 0; 0; 0;
   0; 158; 255; 163; 6; 215; 255; 153; 0; 0; 0; 0; 0; 0; 0; 0;
   0; 24; 44; 60; 124; 253; 255; 88; 0; 0; 0; 0; 0; 0; 0; 0;
   0; 0; 0; 112; 255; 255; 255; 52; 0; 0; 0; 0; 0; 0; 0; 0;
   0; 7; 10; 31; 87; 238; 255; 171; 0; 0; 0; 0; 0; 0; 0; 0;
   0; 197; 255; 122; 0; 159; 255; 225; 0; 0; 0; 0; 0; 0; 0; 0;
   0; 138; 255; 255; 218; 249; 255; 160; 0; 0; 0; 0; 0; 0; 0; 0;
   0; 15; 188; 255; 255; 255; 189; 20; 0; 0; 0; 0; 0; 0; 0; 0;
   0; 0; 0; 19; 54; 26; 0; 0; 0; 0; 0; 0; 0; 0; 0; 0;
   0; 0; 0; 0; 0; 0; 0; 0; 0; 0; 0; 0; 0; 0; 0; 0;
   0; 0; 0; 0; 0; 0; 0; 0; 0; 0; 0; 0; 0; 0; 0; 0;
   0; 0; 0; 0; 0; 0; 0; 0; 0; 0; 0; 0; 0; 0; 0; 0].

(** platform/android-aarch64/art-shim/muplar_font.h:440-456 (muplar_font_alpha) *)
Definition glyph_52 : list Z :=
  [0; 0; 0; 0; 0; 0; 0; 0; 0; 0; 0; 0; 0; 0; 0; 0;
   0; 0; 0; 0; 0; 0; 0; 0; 0; 0; 0; 0; 0; 0; 0; 0;
   0; 0; 0; 0; 0; 0; 0; 0; 0; 0; 0; 0; 0; 0; 0; 0;
   0; 0; 0; 0; 150; 202; 189; 0; 0; 0; 0; 0; 0; 0; 0; 0;
   0; 0; 0; 87; 255; 255; 246; 0; 0; 0; 0; 0; 0; 0; 0; 0;
   0; 0; 22; 235; 255; 255; 246; 0; 0; 0; 0; 0; 0; 0; 0; 0;
   0; 0; 172; 255; 147; 255; 246; 0; 0; 0; 0; 0; 0; 0; 0; 0;
   0; 86; 255; 184; 56; 255; 246; 0; 0; 0; 0; 0; 0; 0; 0; 0;
   0; 213; 255; 177; 173; 255; 255; 139; 0; 0; 0; 0; 0; 0; 0; 0;
   0; 219; 255; 255; 255; 255; 255; 255; 0; 0; 0; 0; 0; 0; 0; 0;
   0; 19; 26; 26; 80; 255; 251; 22; 0; 0; 0; 0; 0; 0; 0; 0;
   0; 0; 0; 0; 50; 255; 241; 0; 0; 0; 0; 0; 0; 0; 0; 0;
   0; 0; 0; 0; 0; 0; 0; 0; 0; 0; 0; 0; 0; 0; 0; 0;
   0; 0; 0; 0; 0; 0; 0; 0; 0; 0; 0; 0; 0; 0; 0; 0;
   0; 0; 0; 0; 0; 0; 0; 0; 0; 0; 0; 0; 0; 0; 0; 0;
   0; 0; 0; 0; 0; 0; 0; 0; 0; 0; 0; 0; 0; 0; 0; 0].

(** platform/android-aarch64/art-shim/muplar_font.h:457-473 (muplar_font_alpha) *)
Definition glyph_53 : list Z :=
  [0; 0; 0; 0; 0; 0; 0; 0; 0; 0; 0; 0; 0; 0; 0; 0;
   0; 0; 0; 0; 0; 0; 0; 0; 0; 0; 0; 0; 0; 0; 0; 0;
   0; 0; 0; 0; 0; 0; 0; 0; 0; 0; 0; 0; 0; 0; 0; 0;
   0; 1; 181; 186; 186; 186; 186; 97; 0; 0; 0; 0; 0; 0; 0; 0;
   0; 26; 255; 255; 255; 255; 255; 139; 0; 0; 0; 0; 0; 0; 0; 0;
   0; 62; 255; 183; 12; 12; 12; 4; 0; 0; 0; 0; 0; 0; 0; 0;
   0; 97; 255; 255; 243; 212; 122; 12; 0; 0; 0; 0; 0; 0; 0; 0;
   0; 133; 255; 254; 236; 255; 255; 151; 0; 0; 0; 0; 0; 0; 0; 0;
   0; 40; 78; 56; 1; 165; 255; 220; 0; 0; 0; 0; 0; 0; 0; 0;
   0; 140; 182; 96; 0; 150; 255; 216; 0; 0; 0; 0; 0; 0; 0; 0;
   0; 113; 255; 245; 199; 253; 255; 137; 0; 0; 0; 0; 0; 0; 0; 0;
   0; 9; 171; 245; 255; 255; 172; 11; 0; 0; 0; 0; 0; 0; 0; 0;
   0; 0; 0; 10; 45; 23; 0; 0; 0; 0; 0; 0; 0; 0; 0; 0;
   0; 0; 0; 0; 0; 0; 0; 0; 0; 0; 0; 0; 0; 0; 0; 0;
   0; 0; 0; 0; 0; 0; 0; 0; 0; 0; 0; 0; 0; 0; 0; 0;
   0; 0; 0; 0; 0; 0; 0; 0; 0; 0; 0; 0; 0; 0; 0; 0].

(** platform/android-aarch64/art-shim/muplar_font.h:474-490 (muplar_font_alpha) *)
Definition glyph_54 : list Z :=
  [0; 0; 0; 0; 0; 0; 0; 0; 0; 0; 0; 0; 0; 0; 0; 0;
   0; 0; 0; 0; 0; 0; 0; 0; 0; 0; 0; 0; 0; 0; 0; 0;
   0; 0; 0; 0; 0; 0; 0; 0; 0; 0; 0; 0; 0; 0; 0; 0;
   0; 0; 44; 177; 239; 194; 106; 1; 0; 0; 0; 0; 0; 0; 0; 0;
   0; 23; 233; 255; 252; 255; 255; 90; 0; 0; 0; 0; 0; 0; 0; 0;
   0; 116; 255; 208; 7; 98; 159; 109; 0; 0; 0; 0; 0; 0; 0; 0;
   0; 185; 255; 255; 217; 201; 106; 10; 0; 0; 0; 0; 0; 0; 0; 0;
   0; 200; 255; 255; 244; 255; 255; 116; 0; 0; 0; 0; 0; 0; 0; 0;
   0; 181; 255; 194; 0; 149; 255; 217; 0; 0; 0; 0; 0; 0; 0; 0;
   0; 120; 255; 170; 0; 121; 255; 215; 0; 0; 0; 0; 0; 0; 0; 0;
   0; 55; 255; 255; 206; 248; 255; 123; 0; 0; 0; 0; 0; 0; 0; 0;
   0; 0; 121; 251; 255; 255; 197; 20; 0; 0; 0; 0; 0; 0; 0; 0;
   0; 0; 0; 11; 45; 31; 0; 0; 0; 0; 0; 0; 0; 0; 0; 0;
   0; 0; 0; 0; 0; 0; 0; 0; 0; 0; 0; 0; 0; 0; 0; 0;
   0; 0; 0; 0; 0; 0; 0; 0; 0; 0; 0; 0; 0; 0; 0; 0;
   0; 0; 0; 0; 0; 0; 0; 0; 0; 0; 0; 0; 0; 0; 0; 0].

(** platform/android-aarch64/art-shim/muplar_font.h:491-507 (muplar_font_alpha) *)
Definition glyph_55 : list Z :=
  [0; 0; 0; 0; 0; 0; 0; 0; 0; 0; 0; 0; 0; 0; 0; 0;
   0; 0; 0; 0; 0; 0; 0; 0; 0; 0; 0; 0; 0; 0; 0; 0;
   0; 0; 0; 0; 0; 0; 0; 0; 0; 0; 0; 0; 0; 0; 0; 0;
   0; 159; 186; 186; 186; 186; 186; 183; 8; 0; 0; 0; 0; 0; 0; 0;
   0; 219; 255; 255; 255; 255; 255; 255; 15; 0; 0; 0; 0; 0; 0; 0;
   0; 21; 30; 30; 52; 248; 255; 145; 0; 0; 0; 0; 0; 0; 0; 0;
   0; 0; 0; 0; 181; 255; 191; 2; 0; 0; 0; 0; 0; 0; 0; 0;
   0; 0; 0; 71; 255; 248; 38; 0; 0; 0; 0; 0; 0; 0; 0; 0;
   0; 0; 0; 197; 255; 151; 0; 0; 0; 0; 0; 0; 0; 0; 0; 0;
   0; 0; 44; 255; 255; 57; 0; 0; 0; 0; 0; 0; 0; 0; 0; 0;
   0; 0; 95; 255; 242; 0; 0; 0; 0; 0; 0; 0; 0; 0; 0; 0;
   0; 0; 129; 255; 202; 0; 0; 0; 0; 0; 0; 0; 0; 0; 0; 0;
   0; 0; 0; 0; 0; 0; 0; 0; 0; 0; 0; 0; 0; 0; 0; 0;
   0; 0; 0; 0; 0; 0; 0; 0; 0; 0; 0; 0; 0; 0; 0; 0;
   0; 0; 0; 0; 0; 0; 0; 0; 0; 0; 0; 0; 0; 0; 0; 0;
   0; 0; 0; 0; 0; 0; 0; 0; 0; 0; 0; 0; 0; 0; 0; 0].

(** platform/android-aarch64/art-shim/muplar_font.h:508-524 (muplar_font_alpha) *)
Definition glyph_56 : list Z :=
  [0; 0; 0; 0; 0; 0; 0; 0; 0; 0; 0; 0; 0; 0; 0; 0;
   0; 0; 0; 0; 0; 0; 0; 0; 0; 0; 0; 0; 0; 0; 0; 0;
   0; 0; 0; 0; 0; 0; 0; 0; 0; 0; 0; 0; 0; 0; 0; 0;
   0; 0; 67; 160; 226; 169; 78; 0; 0; 0; 0; 0; 0; 0; 0; 0;
   0; 45; 253; 255; 252; 255; 255; 60; 0; 0; 0; 0; 0; 0; 0; 0;
   0; 134; 255; 205; 3; 182; 255; 155; 0; 0; 0; 0; 0; 0; 0; 0;
   0; 74; 254; 246; 165; 239; 255; 96; 0; 0; 0; 0; 0; 0; 0; 0;
   0; 39; 243; 255; 255; 255; 254; 52; 0; 0; 0; 0; 0; 0; 0; 0;
   0; 171; 255; 214; 85; 199; 255; 192; 0; 0; 0; 0; 0; 0; 0; 0;
   0; 209; 255; 167; 0; 133; 255; 233; 0; 0; 0; 0; 0; 0; 0; 0;
   0; 119; 255; 250; 208; 246; 255; 137; 0; 0; 0; 0; 0; 0; 0; 0;
   0; 17; 197; 255; 255; 255; 196; 20; 0; 0; 0; 0; 0; 0; 0; 0;
   0; 0; 1; 32; 47; 30; 0; 0; 0; 0; 0; 0; 0; 0; 0; 0;
   0; 0; 0; 0; 0; 0; 0; 0; 0; 0; 0; 0; 0; 0; 0; 0;
   0; 0; 0; 0; 0; 0; 0; 0; 0; 0; 0; 0; 0; 0; 0; 0;
   0; 0; 0; 0; 0; 0; 0; 0; 0; 0; 0; 0; 0; 0; 0; 0].

(** platform/android-aarch64/art-shim/muplar_font.h:525-541 (muplar_font_alpha) *)
Definition glyph_57 : list Z :=
  [0; 0; 0; 0; 0; 0; 0; 0; 0; 0; 0; 0; 0; 0; 0; 0;
   0; 0; 0; 0; 0; 0; 0; 0; 0; 0; 0; 0; 0; 0; 0; 0;
   0; 0; 0; 0; 0; 0; 0; 0; 0; 0; 0; 0; 0; 0; 0; 0;
   0; 0; 87; 206; 239; 188; 86; 0; 0; 0; 0; 0; 0; 0; 0; 0;
   0; 80; 255; 255; 255; 255; 252; 70; 0; 0; 0; 0; 0; 0; 0; 0;
   0; 181; 255; 197; 6; 162; 255; 171; 0; 0; 0; 0; 0; 0; 0; 0;
   0; 202; 255; 157; 0; 148; 255; 217; 0; 0; 0; 0; 0; 0; 0; 0;
   0; 149; 255; 249; 187; 247; 255; 249; 0; 0; 0; 0; 0; 0; 0; 0;
   0; 16; 160; 242; 255; 255; 255; 218; 0; 0; 0; 0; 0; 0; 0; 0;
   0; 56; 105; 82; 28; 141; 255; 175; 0; 0; 0; 0; 0; 0; 0; 0;
   0; 85; 255; 249; 186; 251; 255; 86; 0; 0; 0; 0; 0; 0; 0; 0;
   0; 0; 165; 250; 255; 247; 138; 0; 0; 0; 0; 0; 0; 0; 0; 0;
   0; 0; 0; 17; 49; 9; 0; 0; 0; 0; 0; 0; 0; 0; 0; 0;
   0; 0; 0; 0; 0; 0; 0; 0; 0; 0; 0; 0; 0; 0; 0; 0;
   0; 0; 0; 0; 0; 0; 0; 0; 0; 0; 0; 0; 0; 0; 0; 0;
   0; 0; 0; 0; 0; 0; 0; 0; 0; 0; 0; 0; 0; 0; 0; 0].

(** platform/android-aarch64/art-shim/muplar_font.h:542-558 (muplar_font_alpha) *)
Definition glyph_58 : list Z :=
  [0; 0; 0; 0; 0; 0; 0; 0; 0; 0; 0; 0; 0; 0; 0; 0;
   0; 0; 0; 0; 0; 0; 0; 0; 0; 0; 0; 0; 0; 0; 0; 0;
   0; 0; 0; 0; 0; 0; 0; 0; 0; 0; 0; 0; 0; 0; 0; 0;
   0; 0; 0; 0; 0; 0; 0; 0; 0; 0; 0; 0; 0; 0; 0; 0;
   0; 0; 0; 0; 0; 0; 0; 0; 0; 0; 0; 0; 0; 0; 0; 0;
   0; 0; 94; 135; 76; 0; 0; 0; 0; 0; 0; 0; 0; 0; 0; 0;
   0; 0; 187; 255; 153; 0; 0; 0; 0; 0; 0; 0; 0; 0; 0; 0;
   0; 0; 102; 146; 83; 0; 0; 0; 0; 0; 0; 0; 0; 0; 0; 0;
   0; 0; 0; 0; 0; 0; 0; 0; 0; 0; 0; 0; 0; 0; 0; 0;
   0; 0; 30; 48; 24; 0; 0; 0; 0; 0; 0; 0; 0; 0; 0; 0;
   0; 0; 187; 255; 153; 0; 0; 0; 0; 0; 0; 0; 0; 0; 0; 0;
   0; 0; 182; 255; 148; 0; 0; 0; 0; 0; 0; 0; 0; 0; 0; 0;
   0; 0; 0; 0; 0; 0; 0; 0; 0; 0; 0; 0; 0; 0; 0; 0;
   0; 0; 0; 0; 0; 0; 0; 0; 0; 0; 0; 0; 0; 0; 0; 0;
   0; 0; 0; 0; 0; 0; 0; 0; 0; 0; 0; 0; 0; 0; 0; 0;
   0; 0; 0; 0; 0; 0; 0; 0; 0; 0; 0; 0; 0; 0; 0; 0].

(** platform/android-aarch64/art-shim/muplar_font.h:559-575 (muplar_font_alpha) *)
Definition glyph_59 : list Z :=
  [0; 0; 0; 0; 0; 0; 0; 0; 0; 0; 0; 0; 0; 0; 0; 0;
   0; 0; 0; 0; 0; 0; 0; 0; 0; 0; 0; 0; 0; 0; 0; 0;
   0; 0; 0; 0; 0; 0; 0; 0; 0; 0; 0; 0; 0; 0; 0; 0;
   0; 0; 0; 0; 0; 0; 0; 0; 0; 0; 0; 0; 0; 0; 0; 0;
   0; 0; 0; 0; 0; 0; 0; 0; 0; 0; 0; 0; 0; 0; 0; 0;
   0; 0; 94; 135; 76; 0; 0; 0; 0; 0; 0; 0; 0; 0; 0; 0;
   0; 0; 187; 255; 153; 0; 0; 0; 0; 0; 0; 0; 0; 0; 0; 0;
   0; 0; 102; 146; 83; 0; 0; 0; 0; 0; 0; 0; 0; 0; 0; 0;
   0; 0; 0; 0; 0; 0; 0; 0; 0; 0; 0; 0; 0; 0; 0; 0;
   0; 0; 30; 48; 25; 0; 0; 0; 0; 0; 0; 0; 0; 0; 0; 0;
   0; 0; 187; 255; 162; 0; 0; 0; 0; 0; 0; 0; 0; 0; 0; 0;
   0; 0; 182; 255; 161; 0; 0; 0; 0; 0; 0; 0; 0; 0; 0; 0;
   0; 0; 34; 229; 131; 0; 0; 0; 0; 0; 0; 0; 0; 0; 0; 0;
   0; 0; 186; 215; 26; 0; 0; 0; 0; 0; 0; 0; 0; 0; 0; 0;
   0; 0; 23; 4; 0; 0; 0; 0; 0; 0; 0; 0; 0; 0; 0; 0;
   0; 0; 0; 0; 0; 0; 0; 0; 0; 0; 0; 0; 0; 0; 0; 0].

(** platform/android-aarch64/art-shim/muplar_font.h:576-592 (muplar_font_alpha) *)
Definition glyph_60 : list Z :=
  [0; 0; 0; 0; 0; 0; 0; 0; 0; 0; 0; 0; 0; 0; 0; 0;
   0; 0; 0; 0; 0; 0; 0; 0; 0; 0; 0; 0; 0; 0; 0; 0;
   0; 0; 0; 0; 0; 0; 0; 0; 0; 0; 0; 0; 0; 0; 0; 0;
   0; 0; 0; 0; 0; 0; 0; 0; 0; 0; 0; 0; 0; 0; 0; 0;
   0; 0; 0; 0; 0; 0; 0; 0; 0; 0; 0; 0; 0; 0; 0; 0;
   0; 0; 0; 0; 0; 2; 66; 154; 178; 0; 0; 0; 0; 0; 0; 0;
   0; 0; 1; 58; 146; 231; 255; 255; 212; 0; 0; 0; 0; 0; 0; 0;
   5; 137; 224; 255; 255; 255; 205; 122; 39; 0; 0; 0; 0; 0; 0; 0;
   15; 255; 255; 255; 185; 37; 0; 0; 0; 0; 0; 0; 0; 0; 0; 0;
   8; 183; 252; 255; 255; 238; 161; 78; 8; 0; 0; 0; 0; 0; 0; 0;
   0; 0; 23; 112; 204; 255; 255; 255; 206; 0; 0; 0; 0; 0; 0; 0;
   0; 0; 0; 0; 0; 41; 133; 224; 212; 0; 0; 0; 0; 0; 0; 0;
   0; 0; 0; 0; 0; 0; 0; 1; 26; 0; 0; 0; 0; 0; 0; 0;
   0; 0; 0; 0; 0; 0; 0; 0; 0; 0; 0; 0; 0; 0; 0; 0;
   0; 0; 0; 0; 0; 0; 0; 0; 0; 0; 0; 0; 0; 0; 0; 0;
   0; 0; 0; 0; 0; 0; 0; 0; 0; 0; 0; 0; 0; 0; 0; 0].

(** platform/android-aarch64/art-shim/muplar_font.h:593-609 (muplar_font_alpha) *)
Definition glyph_61 : list Z :=
  [0; 0; 0; 0; 0; 0; 0; 0; 0; 0; 0; 0; 0; 0; 0; 0;
   0; 0; 0; 0; 0; 0; 0; 0; 0; 0; 0; 0; 0; 0; 0; 0;
   0; 0; 0; 0; 0; 0; 0; 0; 0; 0; 0; 0; 0; 0; 0; 0;
   0; 0; 0; 0; 0; 0; 0; 0; 0; 0; 0; 0; 0; 0; 0; 0;
   0; 0; 0; 0; 0; 0; 0; 0; 0; 0; 0; 0; 0; 0; 0; 0;
   0; 0; 0; 0; 0; 0; 0; 0; 0; 0; 0; 0; 0; 0; 0; 0;
   0; 131; 184; 184; 184; 184; 184; 184; 95; 0; 0; 0; 0; 0; 0; 0;
   0; 189; 255; 255; 255; 255; 255; 255; 139; 0; 0; 0; 0; 0; 0; 0;
   0; 31; 49; 49; 49; 49; 49; 49; 21; 0; 0; 0; 0; 0; 0; 0;
   0; 185; 255; 255; 255; 255; 255; 255; 134; 0; 0; 0; 0; 0; 0; 0;
   0; 163; 226; 226; 226; 226; 226; 226; 118; 0; 0; 0; 0; 0; 0; 0;
   0; 0; 0; 0; 0; 0; 0; 0; 0; 0; 0; 0; 0; 0; 0; 0;
   0; 0; 0; 0; 0; 0; 0; 0; 0; 0; 0; 0; 0; 0; 0; 0;
   0; 0; 0; 0; 0; 0; 0; 0; 0; 0; 0; 0; 0; 0; 0; 0;
   0; 0; 0; 0; 0; 0; 0; 0; 0; 0; 0; 0; 0; 0; 0; 0;
   0; 0; 0; 0; 0; 0; 0; 0; 0; 0; 0; 0; 0; 0; 0; 0].

(** platform/android-aarch64/art-shim/muplar_font.h:610-626 (muplar_font_alpha) *)
Definition glyph_62 : list Z :=
  [0; 0; 0; 0; 0; 0; 0; 0; 0; 0; 0; 0; 0; 0; 0; 0;
   0; 0; 0; 0; 0; 0; 0; 0; 0; 0; 0; 0; 0; 0; 0; 0;
   0; 0; 0; 0; 0; 0; 0; 0; 0; 0; 0; 0; 0; 0; 0; 0;
   0; 0; 0; 0; 0; 0; 0; 0; 0; 0; 0; 0; 0; 0; 0; 0;
   0; 0; 0; 0; 0; 0; 0; 0; 0; 0; 0; 0; 0; 0; 0; 0;
   11; 210; 134; 45; 0; 0; 0; 0; 0; 0; 0; 0; 0; 0; 0; 0;
   15; 255; 255; 255; 212; 124; 36; 0; 0; 0; 0; 0; 0; 0; 0; 0;
   1; 58; 141; 223; 255; 255; 255; 203; 101; 0; 0; 0; 0; 0; 0; 0;
   0; 0; 0; 0; 64; 222; 255; 255; 212; 0; 0; 0; 0; 0; 0; 0;
   0; 19; 97; 180; 248; 255; 255; 243; 140; 0; 0; 0; 0; 0; 0; 0;
   13; 251; 255; 255; 252; 183; 90; 10; 0; 0; 0; 0; 0; 0; 0; 0;
   15; 255; 204; 112; 23; 0; 0; 0; 0; 0; 0; 0; 0; 0; 0; 0;
   0; 27; 0; 0; 0; 0; 0; 0; 0; 0; 0; 0; 0; 0; 0; 0;
   0; 0; 0; 0; 0; 0; 0; 0; 0; 0; 0; 0; 0; 0; 0; 0;
   0; 0; 0; 0; 0; 0; 0; 0; 0; 0; 0; 0; 0; 0; 0; 0;
   0; 0; 0; 0; 0; 0; 0; 0; 0; 0; 0; 0; 0; 0; 0; 0].

(** platform/android-aarch64/art-shim/muplar_font.h:627-643 (muplar_font_alpha) *)
Definition glyph_63 : list Z :=
  [0; 0; 0; 0; 0; 0; 0; 0; 0; 0; 0; 0; 0; 0; 0; 0;
   0; 0; 0; 0; 0; 0; 0; 0; 0; 0; 0; 0; 0; 0; 0; 0;
   0; 0; 0; 0; 25; 26; 0; 0; 0; 0; 0; 0; 0; 0; 0; 0;
   0; 0; 63; 208; 255; 255; 226; 83; 0; 0; 0; 0; 0; 0; 0; 0;
   0; 25; 234; 255; 247; 245; 255; 252; 45; 0; 0; 0; 0; 0; 0; 0;
   0; 90; 255; 246; 18; 26; 255; 255; 101; 0; 0; 0; 0; 0; 0; 0;
   0; 4; 16; 13; 3; 141; 255; 255; 46; 0; 0; 0; 0; 0; 0; 0;
   0; 0; 0; 0; 157; 255; 253; 120; 0; 0; 0; 0; 0; 0; 0; 0;
   0; 0; 0; 2; 247; 255; 97; 0; 0; 0; 0; 0; 0; 0; 0; 0;
   0; 0; 0; 2; 142; 148; 12; 0; 0; 0; 0; 0; 0; 0; 0; 0;
   0; 0; 0; 27; 255; 255; 49; 0; 0; 0; 0; 0; 0; 0; 0; 0;
   0; 0; 0; 23; 254; 255; 44; 0; 0; 0; 0; 0; 0; 0; 0; 0;
   0; 0; 0; 0; 0; 0; 0; 0; 0; 0; 0; 0; 0; 0; 0; 0;
   0; 0; 0; 0; 0; 0; 0; 0; 0; 0; 0; 0; 0; 0; 0; 0;
   0; 0; 0; 0; 0; 0; 0; 0; 0; 0; 0; 0; 0; 0; 0; 0;
   0; 0; 0; 0; 0; 0; 0; 0; 0; 0; 0; 0; 0; 0; 0; 0].

(** platform/android-aarch64/art-shim/muplar_font.h:644-660 (muplar_font_alpha) *)
Definition glyph_64 : list Z :=
  [0; 0; 0; 0; 0; 0; 0; 0; 0; 0; 0; 0; 0; 0; 0; 0;
   0; 0; 0; 0; 0; 0; 0; 0; 0; 0; 0; 0; 0; 0; 0; 0;
   0; 0; 0; 0; 0; 7; 52; 99; 86; 41; 0; 0; 0; 0; 0; 0;
   0; 0; 0; 0; 103; 243; 255; 255; 255; 255; 184; 34; 0; 0; 0; 0;
   0; 0; 1; 165; 255; 175; 82; 74; 56; 112; 233; 225; 25; 0; 0; 0;
   0; 0; 111; 255; 99; 97; 248; 255; 255; 255; 135; 249; 125; 0; 0; 0;
   0; 0; 196; 192; 8; 238; 237; 67; 215; 255; 39; 214; 172; 0; 0; 0;
   0; 0; 237; 143; 85; 255; 152; 16; 250; 212; 22; 253; 142; 0; 0; 0;
   0; 0; 203; 184; 61; 255; 202; 188; 255; 212; 209; 248; 39; 0; 0; 0;
   0; 0; 125; 254; 90; 145; 227; 173; 148; 230; 204; 84; 0; 0; 0; 0;
   0; 0; 6; 198; 251; 159; 64; 42; 66; 117; 223; 199; 0; 0; 0; 0;
   0; 0; 0; 5; 130; 240; 255; 255; 255; 245; 150; 24; 0; 0; 0; 0;
   0; 0; 0; 0; 0; 0; 29; 51; 34; 2; 0; 0; 0; 0; 0; 0;
   0; 0; 0; 0; 0; 0; 0; 0; 0; 0; 0; 0; 0; 0; 0; 0;
   0; 0; 0; 0; 0; 0; 0; 0; 0; 0; 0; 0; 0; 0; 0; 0;
   0; 0; 0; 0; 0; 0; 0; 0; 0; 0; 0; 0; 0; 0; 0; 0].

(** platform/android-aarch64/art-shim/muplar_font.h:661-677 (muplar_font_alpha) *)
Definition glyph_65 : list Z :=
  [0; 0; 0; 0; 0; 0; 0; 0; 0; 0; 0; 0; 0; 0; 0; 0;
   0; 0; 0; 0; 0; 0; 0; 0; 0; 0; 0; 0; 0; 0; 0; 0;
   0; 0; 0; 0; 7; 12; 12; 1; 0; 0; 0; 0; 0; 0; 0; 0;
   0; 0; 0; 0; 191; 255; 255; 75; 0; 0; 0; 0; 0; 0; 0; 0;
   0; 0; 0; 35; 254; 255; 255; 173; 0; 0; 0; 0; 0; 0; 0; 0;
   0; 0; 0; 133; 255; 255; 255; 250; 21; 0; 0; 0; 0; 0; 0; 0;
   0; 0; 3; 229; 255; 154; 249; 255; 113; 0; 0; 0; 0; 0; 0; 0;
   0; 0; 75; 255; 255; 45; 177; 255; 211; 0; 0; 0; 0; 0; 0; 0;
   0; 0; 174; 255; 255; 176; 230; 255; 255; 54; 0; 0; 0; 0; 0; 0;
   0; 22; 250; 255; 255; 255; 255; 255; 255; 152; 0; 0; 0; 0; 0; 0;
   0; 116; 255; 254; 58; 39; 39; 169; 255; 240; 9; 0; 0; 0; 0; 0;
   0; 196; 255; 193; 0; 0; 0; 76; 255; 255; 73; 0; 0; 0; 0; 0;
   0; 0; 0; 0; 0; 0; 0; 0; 0; 0; 0; 0; 0; 0; 0; 0;
   0; 0; 0; 0; 0; 0; 0; 0; 0; 0; 0; 0; 0; 0; 0; 0;
   0; 0; 0; 0; 0; 0; 0; 0; 0; 0; 0; 0; 0; 0; 0; 0;
   0; 0; 0; 0; 0; 0; 0; 0; 0; 0; 0; 0; 0; 0; 0; 0].

(** platform/android-aarch64/art-shim/muplar_font.h:678-694 (muplar_font_alpha) *)
Definition glyph_66 : list Z :=
  [0; 0; 0; 0; 0; 0; 0; 0; 0; 0; 0; 0; 0; 0; 0; 0;
   0; 0; 0; 0; 0; 0; 0; 0; 0; 0; 0; 0; 0; 0; 0; 0;
   0; 0; 12; 12; 12; 12; 12; 0; 0; 0; 0; 0; 0; 0; 0; 0;
   0; 42; 255; 255; 255; 255; 255; 233; 139; 4; 0; 0; 0; 0; 0; 0;
   0; 46; 255; 255; 236; 232; 249; 255; 255; 99; 0; 0; 0; 0; 0; 0;
   0; 46; 255; 255; 23; 0; 5; 233; 255; 154; 0; 0; 0; 0; 0; 0;
   0; 46; 255; 255; 175; 163; 191; 255; 255; 80; 0; 0; 0; 0; 0; 0;
   0; 46; 255; 255; 255; 255; 255; 255; 255; 76; 0; 0; 0; 0; 0; 0;
   0; 46; 255; 255; 62; 38; 63; 223; 255; 208; 0; 0; 0; 0; 0; 0;
   0; 46; 255; 255; 23; 0; 10; 212; 255; 224; 0; 0; 0; 0; 0; 0;
   0; 46; 255; 255; 247; 242; 253; 255; 255; 142; 0; 0; 0; 0; 0; 0;
   0; 41; 255; 255; 255; 255; 247; 229; 148; 7; 0; 0; 0; 0; 0; 0;
   0; 0; 0; 0; 0; 0; 0; 0; 0; 0; 0; 0; 0; 0; 0; 0;
   0; 0; 0; 0; 0; 0; 0; 0; 0; 0; 0; 0; 0; 0; 0; 0;
   0; 0; 0; 0; 0; 0; 0; 0; 0; 0; 0; 0; 0; 0; 0; 0;
   0; 0; 0; 0; 0; 0; 0; 0; 0; 0; 0; 0; 0; 0; 0; 0].

(** platform/android-aarch64/art-shim/muplar_font.h:695-711 (muplar_font_alpha) *)
Definition glyph_67 : list Z :=
  [0; 0; 0; 0; 0; 0; 0; 0; 0; 0; 0; 0; 0; 0; 0; 0;
   0; 0; 0; 0; 0; 0; 0; 0; 0; 0; 0; 0; 0; 0; 0; 0;
   0; 0; 0; 0; 13; 59; 42; 2; 0; 0; 0; 0; 0; 0; 0; 0;
   0; 0; 10; 151; 253; 255; 255; 242; 116; 0; 0; 0; 0; 0; 0; 0;
   0; 0; 171; 255; 255; 236; 251; 255; 255; 120; 0; 0; 0; 0; 0; 0;
   0; 69; 255; 255; 140; 0; 18; 172; 255; 236; 6; 0; 0; 0; 0; 0;
   0; 122; 255; 255; 33; 0; 0; 17; 55; 53; 0; 0; 0; 0; 0; 0;
   0; 155; 255; 237; 0; 0; 0; 0; 0; 0; 0; 0; 0; 0; 0; 0;
   0; 127; 255; 255; 33; 0; 0; 33; 95; 92; 1; 0; 0; 0; 0; 0;
   0; 76; 255; 255; 154; 17; 26; 188; 255; 205; 2; 0; 0; 0; 0; 0;
   0; 0; 192; 255; 255; 250; 252; 255; 255; 63; 0; 0; 0; 0; 0; 0;
   0; 0; 16; 165; 254; 255; 255; 245; 117; 0; 0; 0; 0; 0; 0; 0;
   0; 0; 0; 0; 12; 46; 48; 10; 0; 0; 0; 0; 0; 0; 0; 0;
   0; 0; 0; 0; 0; 0; 0; 0; 0; 0; 0; 0; 0; 0; 0; 0;
   0; 0; 0; 0; 0; 0; 0; 0; 0; 0; 0; 0; 0; 0; 0; 0;
   0; 0; 0; 0; 0; 0; 0; 0; 0; 0; 0; 0; 0; 0; 0; 0].

(** platform/android-aarch64/art-shim/muplar_font.h:712-728 (muplar_font_alpha) *)
Definition glyph_68 : list Z :=
  [0; 0; 0; 0; 0; 0; 0; 0; 0; 0; 0; 0; 0; 0; 0; 0;
   0; 0; 0; 0; 0; 0; 0; 0; 0; 0; 0; 0; 0; 0; 0; 0;
   0; 0; 12; 12; 12; 12; 7; 0; 0; 0; 0; 0; 0; 0; 0; 0;
   0; 50; 255; 255; 255; 255; 255; 208; 52; 0; 0; 0; 0; 0; 0; 0;
   0; 55; 255; 255; 236; 236; 255; 255; 249; 73; 0; 0; 0; 0; 0; 0;
   0; 55; 255; 255; 23; 0; 24; 212; 255; 212; 0; 0; 0; 0; 0; 0;
   0; 55; 255; 255; 23; 0; 0; 133; 255; 255; 10; 0; 0; 0; 0; 0;
   0; 55; 255; 255; 23; 0; 0; 98; 255; 255; 18; 0; 0; 0; 0; 0;
   0; 55; 255; 255; 23; 0; 0; 138; 255; 213; 0; 0; 0; 0; 0; 0;
   0; 55; 255; 255; 23; 3; 69; 245; 255; 147; 0; 0; 0; 0; 0; 0;
   0; 55; 255; 255; 247; 248; 255; 255; 241; 49; 0; 0; 0; 0; 0; 0;
   0; 49; 255; 255; 255; 255; 232; 180; 53; 0; 0; 0; 0; 0; 0; 0;
   0; 0; 0; 0; 0; 0; 0; 0; 0; 0; 0; 0; 0; 0; 0; 0;
   0; 0; 0; 0; 0; 0; 0; 0; 0; 0; 0; 0; 0; 0; 0; 0;
   0; 0; 0; 0; 0; 0; 0; 0; 0; 0; 0; 0; 0; 0; 0; 0;
   0; 0; 0; 0; 0; 0; 0; 0; 0; 0; 0; 0; 0; 0; 0; 0].

(** platform/android-aarch64/art-shim/muplar_font.h:729-745 (muplar_font_alpha) *)
Definition glyph_69 : list Z :=
  [0; 0; 0; 0; 0; 0; 0; 0; 0; 0; 0; 0; 0; 0; 0; 0;
   0; 0; 0; 0; 0; 0; 0; 0; 0; 0; 0; 0; 0; 0; 0; 0;
   0; 0; 12; 12; 12; 12; 12; 12; 11; 0; 0; 0; 0; 0; 0; 0;
   0; 36; 255; 255; 255; 255; 255; 255; 255; 25; 0; 0; 0; 0; 0; 0;
   0; 40; 255; 255; 244; 237; 237; 237; 236; 23; 0; 0; 0; 0; 0; 0;
   0; 40; 255; 255; 41; 0; 0; 0; 0; 0; 0; 0; 0; 0; 0; 0;
   0; 40; 255; 255; 191; 173; 173; 173; 118; 0; 0; 0; 0; 0; 0; 0;
   0; 40; 255; 255; 255; 255; 255; 255; 181; 0; 0; 0; 0; 0; 0; 0;
   0; 40; 255; 255; 85; 46; 46; 46; 27; 0; 0; 0; 0; 0; 0; 0;
   0; 40; 255; 255; 41; 0; 0; 0; 0; 0; 0; 0; 0; 0; 0; 0;
   0; 40; 255; 255; 255; 255; 255; 255; 255; 82; 0; 0; 0; 0; 0; 0;
   0; 35; 255; 255; 255; 255; 255; 255; 255; 82; 0; 0; 0; 0; 0; 0;
   0; 0; 0; 0; 0; 0; 0; 0; 0; 0; 0; 0; 0; 0; 0; 0;
   0; 0; 0; 0; 0; 0; 0; 0; 0; 0; 0; 0; 0; 0; 0; 0;
   0; 0; 0; 0; 0; 0; 0; 0; 0; 0; 0; 0; 0; 0; 0; 0;
   0; 0; 0; 0; 0; 0; 0; 0; 0; 0; 0; 0; 0; 0; 0; 0].

(** platform/android-aarch64/art-shim/muplar_font.h:746-762 (muplar_font_alpha) *)
Definition glyph_70 : list Z :=
  [0; 0; 0; 0; 0; 0; 0; 0; 0; 0; 0; 0; 0; 0; 0; 0;
   0; 0; 0; 0; 0; 0; 0; 0; 0; 0; 0; 0; 0; 0; 0; 0;
   0; 0; 8; 8; 8; 8; 8; 8; 5; 0; 0; 0; 0; 0; 0; 0;
   0; 50; 255; 255; 255; 255; 255; 255; 207; 0; 0; 0; 0; 0; 0; 0;
   0; 55; 255; 255; 243; 237; 237; 237; 192; 0; 0; 0; 0; 0; 0; 0;
   0; 55; 255; 255; 35; 0; 0; 0; 0; 0; 0; 0; 0; 0; 0; 0;
   0; 55; 255; 255; 156; 135; 135; 135; 28; 0; 0; 0; 0; 0; 0; 0;
   0; 55; 255; 255; 255; 255; 255; 255; 62; 0; 0; 0; 0; 0; 0; 0;
   0; 55; 255; 255; 112; 84; 84; 84; 15; 0; 0; 0; 0; 0; 0; 0;
   0; 55; 255; 255; 35; 0; 0; 0; 0; 0; 0; 0; 0; 0; 0; 0;
   0; 55; 255; 255; 35; 0; 0; 0; 0; 0; 0; 0; 0; 0; 0; 0;
   0; 49; 255; 255; 30; 0; 0; 0; 0; 0; 0; 0; 0; 0; 0; 0;
   0; 0; 0; 0; 0; 0; 0; 0; 0; 0; 0; 0; 0; 0; 0; 0;
   0; 0; 0; 0; 0; 0; 0; 0; 0; 0; 0; 0; 0; 0; 0; 0;
   0; 0; 0; 0; 0; 0; 0; 0; 0; 0; 0; 0; 0; 0; 0; 0;
   0; 0; 0; 0; 0; 0; 0; 0; 0; 0; 0; 0; 0; 0; 0; 0].

(** platform/android-aarch64/art-shim/muplar_font.h:763-779 (muplar_font_alpha) *)
Definition glyph_71 : list Z :=
  [0; 0; 0; 0; 0; 0; 0; 0; 0; 0; 0; 0; 0; 0; 0; 0;
   0; 0; 0; 0; 0; 0; 0; 0; 0; 0; 0; 0; 0; 0; 0; 0;
   0; 0; 0; 0; 15; 67; 79; 38; 0; 0; 0; 0; 0; 0; 0; 0;
   0; 0; 5; 141; 254; 255; 255; 255; 187; 29; 0; 0; 0; 0; 0; 0;
   0; 0; 169; 255; 255; 246; 208; 254; 255; 217; 9; 0; 0; 0; 0; 0;
   0; 72; 255; 255; 147; 14; 0; 108; 255; 255; 76; 0; 0; 0; 0; 0;
   0; 133; 255; 255; 33; 0; 8; 11; 20; 21; 5; 0; 0; 0; 0; 0;
   0; 166; 255; 220; 0; 0; 219; 255; 255; 255; 110; 0; 0; 0; 0; 0;
   0; 137; 255; 235; 3; 0; 162; 193; 255; 255; 112; 0; 0; 0; 0; 0;
   0; 81; 255; 255; 142; 18; 3; 106; 255; 255; 113; 0; 0; 0; 0; 0;
   0; 0; 187; 255; 255; 249; 240; 255; 255; 255; 113; 0; 0; 0; 0; 0;
   0; 0; 12; 158; 253; 255; 255; 224; 160; 255; 107; 0; 0; 0; 0; 0;
   0; 0; 0; 0; 11; 53; 33; 0; 0; 0; 0; 0; 0; 0; 0; 0;
   0; 0; 0; 0; 0; 0; 0; 0; 0; 0; 0; 0; 0; 0; 0; 0;
   0; 0; 0; 0; 0; 0; 0; 0; 0; 0; 0; 0; 0; 0; 0; 0;
   0; 0; 0; 0; 0; 0; 0; 0; 0; 0; 0; 0; 0; 0; 0; 0].

(** platform/android-aarch64/art-shim/muplar_font.h:780-796 (muplar_font_alpha) *)
Definition glyph_72 : list Z :=
  [0; 0; 0; 0; 0; 0; 0; 0; 0; 0; 0; 0; 0; 0; 0; 0;
   0; 0; 0; 0; 0; 0; 0; 0; 0; 0; 0; 0; 0; 0; 0; 0;
   0; 0; 12; 12; 0; 0; 0; 5; 12; 6; 0; 0; 0; 0; 0; 0;
   0; 54; 255; 255; 26; 0; 0; 158; 255; 179; 0; 0; 0; 0; 0; 0;
   0; 58; 255; 255; 30; 0; 0; 162; 255; 183; 0; 0; 0; 0; 0; 0;
   0; 58; 255; 255; 30; 0; 0; 162; 255; 183; 0; 0; 0; 0; 0; 0;
   0; 58; 255; 255; 203; 191; 191; 237; 255; 183; 0; 0; 0; 0; 0; 0;
   0; 58; 255; 255; 255; 255; 255; 255; 255; 183; 0; 0; 0; 0; 0; 0;
   0; 58; 255; 255; 55; 25; 25; 175; 255; 183; 0; 0; 0; 0; 0; 0;
   0; 58; 255; 255; 30; 0; 0; 162; 255; 183; 0; 0; 0; 0; 0; 0;
   0; 58; 255; 255; 30; 0; 0; 162; 255; 183; 0; 0; 0; 0; 0; 0;
   0; 53; 255; 255; 25; 0; 0; 157; 255; 178; 0; 0; 0; 0; 0; 0;
   0; 0; 0; 0; 0; 0; 0; 0; 0; 0; 0; 0; 0; 0; 0; 0;
   0; 0; 0; 0; 0; 0; 0; 0; 0; 0; 0; 0; 0; 0; 0; 0;
   0; 0; 0; 0; 0; 0; 0; 0; 0; 0; 0; 0; 0; 0; 0; 0;
   0; 0; 0; 0; 0; 0; 0; 0; 0; 0; 0; 0; 0; 0; 0; 0].

(** platform/android-aarch64/art-shim/muplar_font.h:797-813 (muplar_font_alpha) *)
Definition glyph_73 : list Z :=
  [0; 0; 0; 0; 0; 0; 0; 0; 0; 0; 0; 0; 0; 0; 0; 0;
   0; 0; 0; 0; 0; 0; 0; 0; 0; 0; 0; 0; 0; 0; 0; 0;
   0; 2; 12; 10; 0; 0; 0; 0; 0; 0; 0; 0; 0; 0; 0; 0;
   0; 89; 255; 248; 0; 0; 0; 0; 0; 0; 0; 0; 0; 0; 0; 0;
   0; 94; 255; 252; 0; 0; 0; 0; 0; 0; 0; 0; 0; 0; 0; 0;
   0; 94; 255; 252; 0; 0; 0; 0; 0; 0; 0; 0; 0; 0; 0; 0;
   0; 94; 255; 252; 0; 0; 0; 0; 0; 0; 0; 0; 0; 0; 0; 0;
   0; 94; 255; 252; 0; 0; 0; 0; 0; 0; 0; 0; 0; 0; 0; 0;
   0; 94; 255; 252; 0; 0; 0; 0; 0; 0; 0; 0; 0; 0; 0; 0;
   0; 94; 255; 252; 0; 0; 0; 0; 0; 0; 0; 0; 0; 0; 0; 0;
   0; 94; 255; 252; 0; 0; 0; 0; 0; 0; 0; 0; 0; 0; 0; 0;
   0; 88; 255; 246; 0; 0; 0; 0; 0; 0; 0; 0; 0; 0; 0; 0;
   0; 0; 0; 0; 0; 0; 0; 0; 0; 0; 0; 0; 0; 0; 0; 0;
   0; 0; 0; 0; 0; 0; 0; 0; 0; 0; 0; 0; 0; 0; 0; 0;
   0; 0; 0; 0; 0; 0; 0; 0; 0; 0; 0; 0; 0; 0; 0; 0;
   0; 0; 0; 0; 0; 0; 0; 0; 0; 0; 0; 0; 0; 0; 0; 0].

(** platform/android-aarch64/art-shim/muplar_font.h:814-830 (muplar_font_alpha) *)
Definition glyph_74 : list Z :=
  [0; 0; 0; 0; 0; 0; 0; 0; 0; 0; 0; 0; 0; 0; 0; 0;
   0; 0; 0; 0; 0; 0; 0; 0; 0; 0; 0; 0; 0; 0; 0; 0;
   0; 0; 0; 0; 0; 8; 12; 3; 0; 0; 0; 0; 0; 0; 0; 0;
   0; 0; 0; 0; 0; 220; 255; 121; 0; 0; 0; 0; 0; 0; 0; 0;
   0; 0; 0; 0; 0; 224; 255; 125; 0; 0; 0; 0; 0; 0; 0; 0;
   0; 0; 0; 0; 0; 224; 255; 125; 0; 0; 0; 0; 0; 0; 0; 0;
   0; 0; 0; 0; 0; 224; 255; 125; 0; 0; 0; 0; 0; 0; 0; 0;
   0; 0; 0; 0; 0; 224; 255; 125; 0; 0; 0; 0; 0; 0; 0; 0;
   0; 160; 179; 61; 0; 224; 255; 125; 0; 0; 0; 0; 0; 0; 0; 0;
   0; 193; 255; 133; 6; 248; 255; 111; 0; 0; 0; 0; 0; 0; 0; 0;
   0; 127; 255; 254; 241; 255; 255; 53; 0; 0; 0; 0; 0; 0; 0; 0;
   0; 29; 176; 255; 255; 254; 144; 1; 0; 0; 0; 0; 0; 0; 0; 0;
   0; 0; 0; 37; 53; 13; 0; 0; 0; 0; 0; 0; 0; 0; 0; 0;
   0; 0; 0; 0; 0; 0; 0; 0; 0; 0; 0; 0; 0; 0; 0; 0;
   0; 0; 0; 0; 0; 0; 0; 0; 0; 0; 0; 0; 0; 0; 0; 0;
   0; 0; 0; 0; 0; 0; 0; 0; 0; 0; 0; 0; 0; 0; 0; 0].

(** platform/android-aarch64/art-shim/muplar_font.h:831-847 (muplar_font_alpha) *)
Definition glyph_75 : list Z :=
  [0; 0; 0; 0; 0; 0; 0; 0; 0; 0; 0; 0; 0; 0; 0; 0;
   0; 0; 0; 0; 0; 0; 0; 0; 0; 0; 0; 0; 0; 0; 0; 0;
   0; 0; 12; 12; 0; 0; 0; 8; 12; 12; 1; 0; 0; 0; 0; 0;
   0; 42; 255; 255; 34; 0; 64; 244; 255; 240; 30; 0; 0; 0; 0; 0;
   0; 46; 255; 255; 38; 66; 245; 255; 231; 47; 0; 0; 0; 0; 0; 0;
   0; 46; 255; 255; 107; 246; 255; 218; 33; 0; 0; 0; 0; 0; 0; 0;
   0; 46; 255; 255; 255; 255; 230; 21; 0; 0; 0; 0; 0; 0; 0; 0;
   0; 46; 255; 255; 255; 255; 251; 65; 0; 0; 0; 0; 0; 0; 0; 0;
   0; 46; 255; 255; 199; 242; 255; 234; 29; 0; 0; 0; 0; 0; 0; 0;
   0; 46; 255; 255; 39; 84; 255; 255; 203; 8; 0; 0; 0; 0; 0; 0;
   0; 46; 255; 255; 38; 0; 146; 255; 255; 158; 0; 0; 0; 0; 0; 0;
   0; 41; 255; 255; 33; 0; 6; 202; 255; 255; 78; 0; 0; 0; 0; 0;
   0; 0; 0; 0; 0; 0; 0; 0; 0; 0; 0; 0; 0; 0; 0; 0;
   0; 0; 0; 0; 0; 0; 0; 0; 0; 0; 0; 0; 0; 0; 0; 0;
   0; 0; 0; 0; 0; 0; 0; 0; 0; 0; 0; 0; 0; 0; 0; 0;
   0; 0; 0; 0; 0; 0; 0; 0; 0; 0; 0; 0; 0; 0; 0; 0].

(** platform/android-aarch64/art-shim/muplar_font.h:848-864 (muplar_font_alpha) *)
Definition glyph_76 : list Z :=
  [0; 0; 0; 0; 0; 0; 0; 0; 0; 0; 0; 0; 0; 0; 0; 0;
   0; 0; 0; 0; 0; 0; 0; 0; 0; 0; 0; 0; 0; 0; 0; 0;
   0; 0; 12; 12; 0; 0; 0; 0; 0; 0; 0; 0; 0; 0; 0; 0;
   0; 50; 255; 255; 34; 0; 0; 0; 0; 0; 0; 0; 0; 0; 0; 0;
   0; 55; 255; 255; 38; 0; 0; 0; 0; 0; 0; 0; 0; 0; 0; 0;
   0; 55; 255; 255; 38; 0; 0; 0; 0; 0; 0; 0; 0; 0; 0; 0;
   0; 55; 255; 255; 38; 0; 0; 0; 0; 0; 0; 0; 0; 0; 0; 0;
   0; 55; 255; 255; 38; 0; 0; 0; 0; 0; 0; 0; 0; 0; 0; 0;
   0; 55; 255; 255; 38; 0; 0; 0; 0; 0; 0; 0; 0; 0; 0; 0;
   0; 55; 255; 255; 38; 0; 0; 0; 0; 0; 0; 0; 0; 0; 0; 0;
   0; 55; 255; 255; 255; 255; 255; 255; 195; 0; 0; 0; 0; 0; 0; 0;
   0; 49; 255; 255; 255; 255; 255; 255; 195; 0; 0; 0; 0; 0; 0; 0;
   0; 0; 0; 0; 0; 0; 0; 0; 0; 0; 0; 0; 0; 0; 0; 0;
   0; 0; 0; 0; 0; 0; 0; 0; 0; 0; 0; 0; 0; 0; 0; 0;
   0; 0; 0; 0; 0; 0; 0; 0; 0; 0; 0; 0; 0; 0; 0; 0;
   0; 0; 0; 0; 0; 0; 0; 0; 0; 0; 0; 0; 0; 0; 0; 0].

(** platform/android-aarch64/art-shim/muplar_font.h:865-881 (muplar_font_alpha) *)
Definition glyph_77 : list Z :=
  [0; 0; 0; 0; 0; 0; 0; 0; 0; 0; 0; 0; 0; 0; 0; 0;
   0; 0; 0; 0; 0; 0; 0; 0; 0; 0; 0; 0; 0; 0; 0; 0;
   0; 0; 12; 12; 12; 0; 0; 0; 12; 12; 12; 0; 0; 0; 0; 0;
   0; 58; 255; 255; 255; 37; 0; 38; 255; 255; 255; 49; 0; 0; 0; 0;
   0; 63; 255; 255; 255; 101; 0; 102; 255; 255; 255; 53; 0; 0; 0; 0;
   0; 63; 255; 255; 255; 166; 0; 166; 255; 255; 255; 53; 0; 0; 0; 0;
   0; 63; 255; 255; 250; 230; 0; 230; 251; 255; 255; 53; 0; 0; 0; 0;
   0; 63; 255; 252; 199; 255; 77; 255; 194; 255; 255; 53; 0; 0; 0; 0;
   0; 63; 255; 252; 137; 255; 205; 255; 131; 255; 255; 53; 0; 0; 0; 0;
   0; 63; 255; 252; 74; 255; 255; 255; 68; 255; 255; 53; 0; 0; 0; 0;
   0; 63; 255; 252; 14; 252; 255; 248; 13; 255; 255; 53; 0; 0; 0; 0;
   0; 57; 255; 246; 0; 205; 255; 192; 4; 251; 255; 48; 0; 0; 0; 0;
   0; 0; 0; 0; 0; 0; 0; 0; 0; 0; 0; 0; 0; 0; 0; 0;
   0; 0; 0; 0; 0; 0; 0; 0; 0; 0; 0; 0; 0; 0; 0; 0;
   0; 0; 0; 0; 0; 0; 0; 0; 0; 0; 0; 0; 0; 0; 0; 0;
   0; 0; 0; 0; 0; 0; 0; 0; 0; 0; 0; 0; 0; 0; 0; 0].

(** platform/android-aarch64/art-shim/muplar_font.h:882-898 (muplar_font_alpha) *)
Definition glyph_78 : list Z :=
  [0; 0; 0; 0; 0; 0; 0; 0; 0; 0; 0; 0; 0; 0; 0; 0;
   0; 0; 0; 0; 0; 0; 0; 0; 0; 0; 0; 0; 0; 0; 0; 0;
   0; 0; 12; 12; 3; 0; 0; 3; 12; 7; 0; 0; 0; 0; 0; 0;
   0; 58; 255; 255; 142; 0; 0; 116; 255; 190; 0; 0; 0; 0; 0; 0;
   0; 63; 255; 255; 252; 48; 0; 120; 255; 195; 0; 0; 0; 0; 0; 0;
   0; 63; 255; 255; 255; 201; 2; 120; 255; 195; 0; 0; 0; 0; 0; 0;
   0; 63; 255; 255; 238; 255; 106; 120; 255; 195; 0; 0; 0; 0; 0; 0;
   0; 63; 255; 252; 101; 255; 240; 145; 255; 195; 0; 0; 0; 0; 0; 0;
   0; 63; 255; 252; 1; 197; 255; 255; 255; 195; 0; 0; 0; 0; 0; 0;
   0; 63; 255; 252; 0; 44; 251; 255; 255; 195; 0; 0; 0; 0; 0; 0;
   0; 63; 255; 252; 0; 0; 137; 255; 255; 195; 0; 0; 0; 0; 0; 0;
   0; 57; 255; 246; 0; 0; 10; 223; 255; 189; 0; 0; 0; 0; 0; 0;
   0; 0; 0; 0; 0; 0; 0; 0; 0; 0; 0; 0; 0; 0; 0; 0;
   0; 0; 0; 0; 0; 0; 0; 0; 0; 0; 0; 0; 0; 0; 0; 0;
   0; 0; 0; 0; 0; 0; 0; 0; 0; 0; 0; 0; 0; 0; 0; 0;
   0; 0; 0; 0; 0; 0; 0; 0; 0; 0; 0; 0; 0; 0; 0; 0].

(** platform/android-aarch64/art-shim/muplar_font.h:899-915 (muplar_font_alpha) *)
Definition glyph_79 : list Z :=
  [0; 0; 0; 0; 0; 0; 0; 0; 0; 0; 0; 0; 0; 0; 0; 0;
   0; 0; 0; 0; 0; 0; 0; 0; 0; 0; 0; 0; 0; 0; 0; 0;
   0; 0; 0; 0; 36; 83; 93; 49; 3; 0; 0; 0; 0; 0; 0; 0;
   0; 0; 12; 162; 255; 255; 255; 255; 203; 37; 0; 0; 0; 0; 0; 0;
   0; 0; 173; 255; 255; 246; 237; 255; 255; 219; 13; 0; 0; 0; 0; 0;
   0; 60; 255; 255; 149; 14; 4; 97; 255; 255; 125; 0; 0; 0; 0; 0;
   0; 120; 255; 255; 35; 0; 0; 1; 228; 255; 174; 0; 0; 0; 0; 0;
   0; 141; 255; 239; 0; 0; 0; 0; 178; 255; 206; 0; 0; 0; 0; 0;
   0; 105; 255; 255; 45; 0; 0; 2; 235; 255; 174; 0; 0; 0; 0; 0;
   0; 53; 255; 255; 168; 27; 11; 120; 255; 255; 117; 0; 0; 0; 0; 0;
   0; 0; 157; 255; 255; 252; 255; 255; 255; 215; 10; 0; 0; 0; 0; 0;
   0; 0; 10; 147; 253; 255; 255; 255; 188; 32; 0; 0; 0; 0; 0; 0;
   0; 0; 0; 0; 11; 49; 47; 20; 0; 0; 0; 0; 0; 0; 0; 0;
   0; 0; 0; 0; 0; 0; 0; 0; 0; 0; 0; 0; 0; 0; 0; 0;
   0; 0; 0; 0; 0; 0; 0; 0; 0; 0; 0; 0; 0; 0; 0; 0;
   0; 0; 0; 0; 0; 0; 0; 0; 0; 0; 0; 0; 0; 0; 0; 0].

(** platform/android-aarch64/art-shim/muplar_font.h:916-932 (muplar_font_alpha) *)
Definition glyph_80 : list Z :=
  [0; 0; 0; 0; 0; 0; 0; 0; 0; 0; 0; 0; 0; 0; 0; 0;
   0; 0; 0; 0; 0; 0; 0; 0; 0; 0; 0; 0; 0; 0; 0; 0;
   0; 0; 12; 12; 12; 12; 6; 0; 0; 0; 0; 0; 0; 0; 0; 0;
   0; 39; 255; 255; 255; 255; 253; 210; 70; 0; 0; 0; 0; 0; 0; 0;
   0; 43; 255; 255; 239; 236; 255; 255; 246; 31; 0; 0; 0; 0; 0; 0;
   0; 43; 255; 255; 46; 0; 60; 255; 255; 90; 0; 0; 0; 0; 0; 0;
   0; 43; 255; 255; 48; 7; 97; 255; 255; 87; 0; 0; 0; 0; 0; 0;
   0; 43; 255; 255; 255; 255; 255; 255; 228; 7; 0; 0; 0; 0; 0; 0;
   0; 43; 255; 255; 227; 213; 188; 126; 44; 0; 0; 0; 0; 0; 0; 0;
   0; 43; 255; 255; 46; 0; 0; 0; 0; 0; 0; 0; 0; 0; 0; 0;
   0; 43; 255; 255; 46; 0; 0; 0; 0; 0; 0; 0; 0; 0; 0; 0;
   0; 38; 255; 255; 41; 0; 0; 0; 0; 0; 0; 0; 0; 0; 0; 0;
   0; 0; 0; 0; 0; 0; 0; 0; 0; 0; 0; 0; 0; 0; 0; 0;
   0; 0; 0; 0; 0; 0; 0; 0; 0; 0; 0; 0; 0; 0; 0; 0;
   0; 0; 0; 0; 0; 0; 0; 0; 0; 0; 0; 0; 0; 0; 0; 0;
   0; 0; 0; 0; 0; 0; 0; 0; 0; 0; 0; 0; 0; 0; 0; 0].

(** platform/android-aarch64/art-shim/muplar_font.h:933-949 (muplar_font_alpha) *)
Definition glyph_81 : list Z :=
  [0; 0; 0; 0; 0; 0; 0; 0; 0; 0; 0; 0; 0; 0; 0; 0;
   0; 0; 0; 0; 0; 0; 0; 0; 0; 0; 0; 0; 0; 0; 0; 0;
   0; 0; 0; 0; 30; 82; 92; 44; 1; 0; 0; 0; 0; 0; 0; 0;
   0; 0; 9; 150; 254; 255; 255; 255; 190; 30; 0; 0; 0; 0; 0; 0;
   0; 0; 167; 255; 255; 245; 236; 255; 255; 215; 12; 0; 0; 0; 0; 0;
   0; 56; 255; 255; 145; 12; 3; 89; 255; 255; 125; 0; 0; 0; 0; 0;
   0; 121; 255; 255; 34; 0; 0; 0; 224; 255; 178; 0; 0; 0; 0; 0;
   0; 141; 255; 229; 0; 0; 0; 0; 164; 255; 203; 0; 0; 0; 0; 0;
   0; 105; 255; 249; 8; 0; 64; 157; 208; 255; 168; 0; 0; 0; 0; 0;
   0; 52; 255; 255; 154; 10; 214; 255; 255; 255; 108; 0; 0; 0; 0; 0;
   0; 0; 154; 255; 255; 245; 242; 255; 255; 255; 49; 0; 0; 0; 0; 0;
   0; 0; 8; 138; 250; 255; 255; 255; 237; 255; 195; 0; 0; 0; 0; 0;
   0; 0; 0; 0; 9; 48; 48; 23; 10; 148; 31; 0; 0; 0; 0; 0;
   0; 0; 0; 0; 0; 0; 0; 0; 0; 0; 0; 0; 0; 0; 0; 0;
   0; 0; 0; 0; 0; 0; 0; 0; 0; 0; 0; 0; 0; 0; 0; 0;
   0; 0; 0; 0; 0; 0; 0; 0; 0; 0; 0; 0; 0; 0; 0; 0].

(** platform/android-aarch64/art-shim/muplar_font.h:950-966 (muplar_font_alpha) *)
Definition glyph_82 : list Z :=
  [0; 0; 0; 0; 0; 0; 0; 0; 0; 0; 0; 0; 0; 0; 0; 0;
   0; 0; 0; 0; 0; 0; 0; 0; 0; 0; 0; 0; 0; 0; 0; 0;
   0; 0; 12; 12; 12; 12; 12; 1; 0; 0; 0; 0; 0; 0; 0; 0;
   0; 39; 255; 255; 255; 255; 255; 247; 158; 12; 0; 0; 0; 0; 0; 0;
   0; 43; 255; 255; 238; 231; 246; 255; 255; 156; 0; 0; 0; 0; 0; 0;
   0; 43; 255; 255; 38; 0; 1; 206; 255; 224; 0; 0; 0; 0; 0; 0;
   0; 43; 255; 255; 92; 58; 78; 233; 255; 180; 0; 0; 0; 0; 0; 0;
   0; 43; 255; 255; 255; 255; 255; 255; 255; 49; 0; 0; 0; 0; 0; 0;
   0; 43; 255; 255; 165; 150; 189; 255; 255; 111; 0; 0; 0; 0; 0; 0;
   0; 43; 255; 255; 38; 0; 0; 221; 255; 158; 0; 0; 0; 0; 0; 0;
   0; 43; 255; 255; 38; 0; 0; 185; 255; 174; 0; 0; 0; 0; 0; 0;
   0; 38; 255; 255; 33; 0; 0; 159; 255; 245; 6; 0; 0; 0; 0; 0;
   0; 0; 0; 0; 0; 0; 0; 0; 0; 0; 0; 0; 0; 0; 0; 0;
   0; 0; 0; 0; 0; 0; 0; 0; 0; 0; 0; 0; 0; 0; 0; 0;
   0; 0; 0; 0; 0; 0; 0; 0; 0; 0; 0; 0; 0; 0; 0; 0;
   0; 0; 0; 0; 0; 0; 0; 0; 0; 0; 0; 0; 0; 0; 0; 0].

(** platform/android-aarch64/art-shim/muplar_font.h:967-983 (muplar_font_alpha) *)
Definition glyph_83 : list Z :=
  [0; 0; 0; 0; 0; 0; 0; 0; 0; 0; 0; 0; 0; 0; 0; 0;
   0; 0; 0; 0; 0; 0; 0; 0; 0; 0; 0; 0; 0; 0; 0; 0;
   0; 0; 0; 25; 75; 93; 54; 1; 0; 0; 0; 0; 0; 0; 0; 0;
   0; 0; 110; 248; 255; 255; 255; 200; 29; 0; 0; 0; 0; 0; 0; 0;
   0; 35; 250; 255; 222; 202; 251; 255; 201; 0; 0; 0; 0; 0; 0; 0;
   0; 126; 255; 249; 8; 0; 116; 234; 231; 9; 0; 0; 0; 0; 0; 0;
   0; 90; 255; 255; 235; 167; 110; 41; 0; 0; 0; 0; 0; 0; 0; 0;
   0; 3; 155; 251; 255; 255; 255; 255; 172; 4; 0; 0; 0; 0; 0; 0;
   0; 12; 25; 30; 75; 133; 214; 255; 255; 78; 0; 0; 0; 0; 0; 0;
   0; 150; 255; 217; 17; 0; 26; 255; 255; 99; 0; 0; 0; 0; 0; 0;
   0; 79; 255; 255; 251; 213; 236; 255; 231; 13; 0; 0; 0; 0; 0; 0;
   0; 0; 106; 235; 255; 255; 255; 223; 68; 0; 0; 0; 0; 0; 0; 0;
   0; 0; 0; 5; 36; 47; 33; 3; 0; 0; 0; 0; 0; 0; 0; 0;
   0; 0; 0; 0; 0; 0; 0; 0; 0; 0; 0; 0; 0; 0; 0; 0;
   0; 0; 0; 0; 0; 0; 0; 0; 0; 0; 0; 0; 0; 0; 0; 0;
   0; 0; 0; 0; 0; 0; 0; 0; 0; 0; 0; 0; 0; 0; 0; 0].

(** platform/android-aarch64/art-shim/muplar_font.h:984-1000 (muplar_font_alpha) *)
Definition glyph_84 : list Z :=
  [0; 0; 0; 0; 0; 0; 0; 0; 0; 0; 0; 0; 0; 0; 0; 0;
   0; 0; 0; 0; 0; 0; 0; 0; 0; 0; 0; 0; 0; 0; 0; 0;
   0; 10; 12; 12; 12; 12; 12; 12; 10; 0; 0; 0; 0; 0; 0; 0;
   0; 250; 255; 255; 255; 255; 255; 255; 250; 0; 0; 0; 0; 0; 0; 0;
   0; 232; 237; 245; 255; 255; 245; 237; 232; 0; 0; 0; 0; 0; 0; 0;
   0; 0; 0; 47; 255; 255; 49; 0; 0; 0; 0; 0; 0; 0; 0; 0;
   0; 0; 0; 47; 255; 255; 49; 0; 0; 0; 0; 0; 0; 0; 0; 0;
   0; 0; 0; 47; 255; 255; 49; 0; 0; 0; 0; 0; 0; 0; 0; 0;
   0; 0; 0; 47; 255; 255; 49; 0; 0; 0; 0; 0; 0; 0; 0; 0;
   0; 0; 0; 47; 255; 255; 49; 0; 0; 0; 0; 0; 0; 0; 0; 0;
   0; 0; 0; 47; 255; 255; 49; 0; 0; 0; 0; 0; 0; 0; 0; 0;
   0; 0; 0; 41; 255; 255; 44; 0; 0; 0; 0; 0; 0; 0; 0; 0;
   0; 0; 0; 0; 0; 0; 0; 0; 0; 0; 0; 0; 0; 0; 0; 0;
   0; 0; 0; 0; 0; 0; 0; 0; 0; 0; 0; 0; 0; 0; 0; 0;
   0; 0; 0; 0; 0; 0; 0; 0; 0; 0; 0; 0; 0; 0; 0; 0;
   0; 0; 0; 0; 0; 0; 0; 0; 0; 0; 0; 0; 0; 0; 0; 0].

(** platform/android-aarch64/art-shim/muplar_font.h:1001-1017 (muplar_font_alpha) *)
Definition glyph_85 : list Z :=
  [0; 0; 0; 0; 0; 0; 0; 0; 0; 0; 0; 0; 0; 0; 0; 0;
   0; 0; 0; 0; 0; 0; 0; 0; 0; 0; 0; 0; 0; 0; 0; 0;
   0; 0; 12; 12; 0; 0; 0; 6; 12; 6; 0; 0; 0; 0; 0; 0;
   0; 50; 255; 255; 42; 0; 0; 169; 255; 179; 0; 0; 0; 0; 0; 0;
   0; 55; 255; 255; 46; 0; 0; 174; 255; 183; 0; 0; 0; 0; 0; 0;
   0; 55; 255; 255; 46; 0; 0; 174; 255; 183; 0; 0; 0; 0; 0; 0;
   0; 55; 255; 255; 46; 0; 0; 174; 255; 183; 0; 0; 0; 0; 0; 0;
   0; 55; 255; 255; 46; 0; 0; 174; 255; 183; 0; 0; 0; 0; 0; 0;
   0; 51; 255; 255; 59; 0; 0; 192; 255; 179; 0; 0; 0; 0; 0; 0;
   0; 10; 251; 255; 128; 0; 19; 236; 255; 134; 0; 0; 0; 0; 0; 0;
   0; 0; 198; 255; 254; 218; 239; 255; 255; 71; 0; 0; 0; 0; 0; 0;
   0; 0; 25; 198; 254; 255; 255; 243; 106; 0; 0; 0; 0; 0; 0; 0;
   0; 0; 0; 0; 14; 46; 36; 1; 0; 0; 0; 0; 0; 0; 0; 0;
   0; 0; 0; 0; 0; 0; 0; 0; 0; 0; 0; 0; 0; 0; 0; 0;
   0; 0; 0; 0; 0; 0; 0; 0; 0; 0; 0; 0; 0; 0; 0; 0;
   0; 0; 0; 0; 0; 0; 0; 0; 0; 0; 0; 0; 0; 0; 0; 0].

(** platform/android-aarch64/art-shim/muplar_font.h:1018-1034 (muplar_font_alpha) *)
Definition glyph_86 : list Z :=
  [0; 0; 0; 0; 0; 0; 0; 0; 0; 0; 0; 0; 0; 0; 0; 0;
   0; 0; 0; 0; 0; 0; 0; 0; 0; 0; 0; 0; 0; 0; 0; 0;
   0; 9; 12; 7; 0; 0; 0; 9; 12; 6; 0; 0; 0; 0; 0; 0;
   0; 206; 255; 195; 0; 0; 1; 231; 255; 154; 0; 0; 0; 0; 0; 0;
   0; 129; 255; 253; 21; 0; 57; 255; 255; 76; 0; 0; 0; 0; 0; 0;
   0; 36; 255; 255; 98; 0; 137; 255; 233; 4; 0; 0; 0; 0; 0; 0;
   0; 0; 197; 255; 178; 0; 218; 255; 142; 0; 0; 0; 0; 0; 0; 0;
   0; 0; 102; 255; 247; 53; 255; 255; 47; 0; 0; 0; 0; 0; 0; 0;
   0; 0; 16; 248; 255; 204; 255; 208; 0; 0; 0; 0; 0; 0; 0; 0;
   0; 0; 0; 170; 255; 255; 255; 113; 0; 0; 0; 0; 0; 0; 0; 0;
   0; 0; 0; 76; 255; 255; 251; 22; 0; 0; 0; 0; 0; 0; 0; 0;
   0; 0; 0; 4; 233; 255; 178; 0; 0; 0; 0; 0; 0; 0; 0; 0;
   0; 0; 0; 0; 0; 0; 0; 0; 0; 0; 0; 0; 0; 0; 0; 0;
   0; 0; 0; 0; 0; 0; 0; 0; 0; 0; 0; 0; 0; 0; 0; 0;
   0; 0; 0; 0; 0; 0; 0; 0; 0; 0; 0; 0; 0; 0; 0; 0;
   0; 0; 0; 0; 0; 0; 0; 0; 0; 0; 0; 0; 0; 0; 0; 0].

(** platform/android-aarch64/art-shim/muplar_font.h:1035-1051 (muplar_font_alpha) *)
Definition glyph_87 : list Z :=
  [0; 0; 0; 0; 0; 0; 0; 0; 0; 0; 0; 0; 0; 0; 0; 0;
   0; 0; 0; 0; 0; 0; 0; 0; 0; 0; 0; 0; 0; 0; 0; 0;
   0; 10; 12; 6; 0; 1; 12; 12; 4; 0; 1; 12; 12; 1; 0; 0;
   0; 236; 255; 156; 0; 57; 255; 255; 125; 0; 64; 255; 255; 49; 0; 0;
   0; 173; 255; 220; 0; 111; 255; 255; 182; 0; 128; 255; 238; 4; 0; 0;
   0; 94; 255; 255; 28; 166; 255; 255; 238; 1; 192; 255; 164; 0; 0; 0;
   0; 19; 252; 255; 92; 220; 255; 235; 255; 50; 248; 255; 86; 0; 0; 0;
   0; 0; 192; 255; 176; 255; 221; 160; 255; 164; 255; 249; 14; 0; 0; 0;
   0; 0; 113; 255; 255; 255; 164; 103; 255; 255; 255; 185; 0; 0; 0; 0;
   0; 0; 34; 255; 255; 255; 107; 46; 255; 255; 255; 106; 0; 0; 0; 0;
   0; 0; 0; 211; 255; 255; 50; 2; 242; 255; 255; 29; 0; 0; 0; 0;
   0; 0; 0; 132; 255; 245; 4; 0; 188; 255; 205; 0; 0; 0; 0; 0;
   0; 0; 0; 0; 0; 0; 0; 0; 0; 0; 0; 0; 0; 0; 0; 0;
   0; 0; 0; 0; 0; 0; 0; 0; 0; 0; 0; 0; 0; 0; 0; 0;
   0; 0; 0; 0; 0; 0; 0; 0; 0; 0; 0; 0; 0; 0; 0; 0;
   0; 0; 0; 0; 0; 0; 0; 0; 0; 0; 0; 0; 0; 0; 0; 0].

(** platform/android-aarch64/art-shim/muplar_font.h:1052-1068 (muplar_font_alpha) *)
Definition glyph_88 : list Z :=
  [0; 0; 0; 0; 0; 0; 0; 0; 0; 0; 0; 0; 0; 0; 0; 0;
   0; 0; 0; 0; 0; 0; 0; 0; 0; 0; 0; 0; 0; 0; 0; 0;
   0; 8; 12; 11; 0; 0; 1; 12; 12; 4; 0; 0; 0; 0; 0; 0;
   0; 177; 255; 254; 58; 0; 119; 255; 255; 97; 0; 0; 0; 0; 0; 0;
   0; 36; 244; 255; 205; 32; 244; 255; 195; 2; 0; 0; 0; 0; 0; 0;
   0; 0; 104; 255; 255; 245; 255; 242; 32; 0; 0; 0; 0; 0; 0; 0;
   0; 0; 0; 183; 255; 255; 255; 95; 0; 0; 0; 0; 0; 0; 0; 0;
   0; 0; 0; 81; 255; 255; 248; 14; 0; 0; 0; 0; 0; 0; 0; 0;
   0; 0; 9; 217; 255; 255; 255; 158; 0; 0; 0; 0; 0; 0; 0; 0;
   0; 0; 145; 255; 255; 206; 255; 255; 76; 0; 0; 0; 0; 0; 0; 0;
   0; 66; 254; 255; 160; 13; 231; 255; 231; 18; 0; 0; 0; 0; 0; 0;
   0; 213; 255; 236; 20; 0; 93; 255; 255; 142; 0; 0; 0; 0; 0; 0;
   0; 0; 0; 0; 0; 0; 0; 0; 0; 0; 0; 0; 0; 0; 0; 0;
   0; 0; 0; 0; 0; 0; 0; 0; 0; 0; 0; 0; 0; 0; 0; 0;
   0; 0; 0; 0; 0; 0; 0; 0; 0; 0; 0; 0; 0; 0; 0; 0;
   0; 0; 0; 0; 0; 0; 0; 0; 0; 0; 0; 0; 0; 0; 0; 0].

(** platform/android-aarch64/art-shim/muplar_font.h:1069-1085 (muplar_font_alpha) *)
Definition glyph_89 : list Z :=
  [0; 0; 0; 0; 0; 0; 0; 0; 0; 0; 0; 0; 0; 0; 0; 0;
   0; 0; 0; 0; 0; 0; 0; 0; 0; 0; 0; 0; 0; 0; 0; 0;
   0; 10; 12; 9; 0; 0; 0; 11; 12; 7; 0; 0; 0; 0; 0; 0;
   0; 214; 255; 241; 18; 0; 40; 253; 255; 155; 0; 0; 0; 0; 0; 0;
   0; 81; 255; 255; 136; 0; 164; 255; 248; 34; 0; 0; 0; 0; 0; 0;
   0; 0; 180; 255; 244; 61; 252; 255; 131; 0; 0; 0; 0; 0; 0; 0;
   0; 0; 33; 246; 255; 255; 255; 225; 10; 0; 0; 0; 0; 0; 0; 0;
   0; 0; 0; 123; 255; 255; 255; 84; 0; 0; 0; 0; 0; 0; 0; 0;
   0; 0; 0; 6; 223; 255; 195; 0; 0; 0; 0; 0; 0; 0; 0; 0;
   0; 0; 0; 0; 190; 255; 158; 0; 0; 0; 0; 0; 0; 0; 0; 0;
   0; 0; 0; 0; 190; 255; 158; 0; 0; 0; 0; 0; 0; 0; 0; 0;
   0; 0; 0; 0; 185; 255; 153; 0; 0; 0; 0; 0; 0; 0; 0; 0;
   0; 0; 0; 0; 0; 0; 0; 0; 0; 0; 0; 0; 0; 0; 0; 0;
   0; 0; 0; 0; 0; 0; 0; 0; 0; 0; 0; 0; 0; 0; 0; 0;
   0; 0; 0; 0; 0; 0; 0; 0; 0; 0; 0; 0; 0; 0; 0; 0;
   0; 0; 0; 0; 0; 0; 0; 0; 0; 0; 0; 0; 0; 0; 0; 0].

(** platform/android-aarch64/art-shim/muplar_font.h:1086-1102 (muplar_font_alpha) *)
Definition glyph_90 : list Z :=
  [0; 0; 0; 0; 0; 0; 0; 0; 0; 0; 0; 0; 0; 0; 0; 0;
   0; 0; 0; 0; 0; 0; 0; 0; 0; 0; 0; 0; 0; 0; 0; 0;
   0; 7; 12; 12; 12; 12; 12; 12; 7; 0; 0; 0; 0; 0; 0; 0;
   0; 188; 255; 255; 255; 255; 255; 255; 201; 0; 0; 0; 0; 0; 0; 0;
   0; 175; 237; 237; 237; 255; 255; 255; 203; 0; 0; 0; 0; 0; 0; 0;
   0; 0; 0; 0; 11; 203; 255; 250; 66; 0; 0; 0; 0; 0; 0; 0;
   0; 0; 0; 4; 182; 255; 254; 91; 0; 0; 0; 0; 0; 0; 0; 0;
   0; 0; 0; 158; 255; 255; 121; 0; 0; 0; 0; 0; 0; 0; 0; 0;
   0; 0; 131; 255; 255; 151; 0; 0; 0; 0; 0; 0; 0; 0; 0; 0;
   0; 103; 255; 255; 178; 3; 0; 0; 0; 0; 0; 0; 0; 0; 0; 0;
   0; 224; 255; 255; 255; 248; 248; 248; 197; 0; 0; 0; 0; 0; 0; 0;
   0; 218; 255; 255; 255; 255; 255; 255; 203; 0; 0; 0; 0; 0; 0; 0;
   0; 0; 0; 0; 0; 0; 0; 0; 0; 0; 0; 0; 0; 0; 0; 0;
   0; 0; 0; 0; 0; 0; 0; 0; 0; 0; 0; 0; 0; 0; 0; 0;
   0; 0; 0; 0; 0; 0; 0; 0; 0; 0; 0; 0; 0; 0; 0; 0;
   0; 0; 0; 0; 0; 0; 0; 0; 0; 0; 0; 0; 0; 0; 0; 0].

(** platform/android-aarch64/art-shim/muplar_font.h:1103-1119 (muplar_font_alpha) *)
Definition glyph_91 : list Z :=
  [0; 0; 0; 0; 0; 0; 0; 0; 0; 0; 0; 0; 0; 0; 0; 0;
   0; 0; 0; 0; 0; 0; 0; 0; 0; 0; 0; 0; 0; 0; 0; 0;
   0; 10; 41; 41; 41; 2; 0; 0; 0; 0; 0; 0; 0; 0; 0; 0;
   0; 99; 255; 255; 255; 51; 0; 0; 0; 0; 0; 0; 0; 0; 0; 0;
   0; 100; 255; 232; 152; 26; 0; 0; 0; 0; 0; 0; 0; 0; 0; 0;
   0; 100; 255; 187; 0; 0; 0; 0; 0; 0; 0; 0; 0; 0; 0; 0;
   0; 100; 255; 187; 0; 0; 0; 0; 0; 0; 0; 0; 0; 0; 0; 0;
   0; 100; 255; 187; 0; 0; 0; 0; 0; 0; 0; 0; 0; 0; 0; 0;
   0; 100; 255; 187; 0; 0; 0; 0; 0; 0; 0; 0; 0; 0; 0; 0;
   0; 100; 255; 187; 0; 0; 0; 0; 0; 0; 0; 0; 0; 0; 0; 0;
   0; 100; 255; 187; 0; 0; 0; 0; 0; 0; 0; 0; 0; 0; 0; 0;
   0; 100; 255; 187; 0; 0; 0; 0; 0; 0; 0; 0; 0; 0; 0; 0;
   0; 100; 255; 209; 60; 7; 0; 0; 0; 0; 0; 0; 0; 0; 0; 0;
   0; 100; 255; 255; 255; 52; 0; 0; 0; 0; 0; 0; 0; 0; 0; 0;
   0; 45; 128; 128; 128; 20; 0; 0; 0; 0; 0; 0; 0; 0; 0; 0;
   0; 0; 0; 0; 0; 0; 0; 0; 0; 0; 0; 0; 0; 0; 0; 0].

(** platform/android-aarch64/art-shim/muplar_font.h:1120-1136 (muplar_font_alpha) *)
Definition glyph_92 : list Z :=
  [0; 0; 0; 0; 0; 0; 0; 0; 0; 0; 0; 0; 0; 0; 0; 0;
   0; 0; 0; 0; 0; 0; 0; 0; 0; 0; 0; 0; 0; 0; 0; 0;
   82; 103; 7; 0; 0; 0; 0; 0; 0; 0; 0; 0; 0; 0; 0; 0;
   192; 255; 90; 0; 0; 0; 0; 0; 0; 0; 0; 0; 0; 0; 0; 0;
   89; 255; 193; 0; 0; 0; 0; 0; 0; 0; 0; 0; 0; 0; 0; 0;
   6; 234; 255; 41; 0; 0; 0; 0; 0; 0; 0; 0; 0; 0; 0; 0;
   0; 136; 255; 144; 0; 0; 0; 0; 0; 0; 0; 0; 0; 0; 0; 0;
   0; 34; 254; 238; 9; 0; 0; 0; 0; 0; 0; 0; 0; 0; 0; 0;
   0; 0; 183; 255; 95; 0; 0; 0; 0; 0; 0; 0; 0; 0; 0; 0;
   0; 0; 79; 255; 199; 0; 0; 0; 0; 0; 0; 0; 0; 0; 0; 0;
   0; 0; 3; 227; 255; 46; 0; 0; 0; 0; 0; 0; 0; 0; 0; 0;
   0; 0; 0; 126; 255; 130; 0; 0; 0; 0; 0; 0; 0; 0; 0; 0;
   0; 0; 0; 0; 0; 0; 0; 0; 0; 0; 0; 0; 0; 0; 0; 0;
   0; 0; 0; 0; 0; 0; 0; 0; 0; 0; 0; 0; 0; 0; 0; 0;
   0; 0; 0; 0; 0; 0; 0; 0; 0; 0; 0; 0; 0; 0; 0; 0;
   0; 0; 0; 0; 0; 0; 0; 0; 0; 0; 0; 0; 0; 0; 0; 0].

(** platform/android-aarch64/art-shim/muplar_font.h:1137-1153 (muplar_font_alpha) *)
Definition glyph_93 : list Z :=
  [0; 0; 0; 0; 0; 0; 0; 0; 0; 0; 0; 0; 0; 0; 0; 0;
   0; 0; 0; 0; 0; 0; 0; 0; 0; 0; 0; 0; 0; 0; 0; 0;
   0; 31; 41; 41; 22; 0; 0; 0; 0; 0; 0; 0; 0; 0; 0; 0;
   0; 231; 255; 255; 175; 0; 0; 0; 0; 0; 0; 0; 0; 0; 0; 0;
   0; 129; 198; 255; 176; 0; 0; 0; 0; 0; 0; 0; 0; 0; 0; 0;
   0; 0; 111; 255; 176; 0; 0; 0; 0; 0; 0; 0; 0; 0; 0; 0;
   0; 0; 111; 255; 176; 0; 0; 0; 0; 0; 0; 0; 0; 0; 0; 0;
   0; 0; 111; 255; 176; 0; 0; 0; 0; 0; 0; 0; 0; 0; 0; 0;
   0; 0; 111; 255; 176; 0; 0; 0; 0; 0; 0; 0; 0; 0; 0; 0;
   0; 0; 111; 255; 176; 0; 0; 0; 0; 0; 0; 0; 0; 0; 0; 0;
   0; 0; 111; 255; 176; 0; 0; 0; 0; 0; 0; 0; 0; 0; 0; 0;
   0; 0; 111; 255; 176; 0; 0; 0; 0; 0; 0; 0; 0; 0; 0; 0;
   0; 49; 150; 255; 176; 0; 0; 0; 0; 0; 0; 0; 0; 0; 0; 0;
   0; 232; 255; 255; 176; 0; 0; 0; 0; 0; 0; 0; 0; 0; 0; 0;
   0; 110; 128; 128; 83; 0; 0; 0; 0; 0; 0; 0; 0; 0; 0; 0;
   0; 0; 0; 0; 0; 0; 0; 0; 0; 0; 0; 0; 0; 0; 0; 0].

(** platform/android-aarch64/art-shim/muplar_font.h:1154-1170 (muplar_font_alpha) *)
Definition glyph_94 : list Z :=
  [0; 0; 0; 0; 0; 0; 0; 0; 0; 0; 0; 0; 0; 0; 0; 0;
   0; 0; 0; 0; 0; 0; 0; 0; 0; 0; 0; 0; 0; 0; 0; 0;
   0; 0; 0; 0; 12; 11; 0; 0; 0; 0; 0; 0; 0; 0; 0; 0;
   0; 0; 0; 60; 255; 251; 30; 0; 0; 0; 0; 0; 0; 0; 0; 0;
   0; 0; 0; 176; 255; 255; 140; 0; 0; 0; 0; 0; 0; 0; 0; 0;
   0; 0; 37; 253; 255; 255; 241; 14; 0; 0; 0; 0; 0; 0; 0; 0;
   0; 0; 151; 255; 147; 178; 255; 115; 0; 0; 0; 0; 0; 0; 0; 0;
   0; 20; 246; 253; 35; 66; 255; 226; 4; 0; 0; 0; 0; 0; 0; 0;
   0; 30; 126; 100; 0; 0; 117; 126; 12; 0; 0; 0; 0; 0; 0; 0;
   0; 0; 0; 0; 0; 0; 0; 0; 0; 0; 0; 0; 0; 0; 0; 0;
   0; 0; 0; 0; 0; 0; 0; 0; 0; 0; 0; 0; 0; 0; 0; 0;
   0; 0; 0; 0; 0; 0; 0; 0; 0; 0; 0; 0; 0; 0; 0; 0;
   0; 0; 0; 0; 0; 0; 0; 0; 0; 0; 0; 0; 0; 0; 0; 0;
   0; 0; 0; 0; 0; 0; 0; 0; 0; 0; 0; 0; 0; 0; 0; 0;
   0; 0; 0; 0; 0; 0; 0; 0; 0; 0; 0; 0; 0; 0; 0; 0;
   0; 0; 0; 0; 0; 0; 0; 0; 0; 0; 0; 0; 0; 0; 0; 0].

(** platform/android-aarch64/art-shim/muplar_font.h:1171-1186 (muplar_font_alpha) *)
Definition glyph_95 : list Z :=
  [0; 0; 0; 0; 0; 0; 0; 0; 0; 0; 0; 0; 0; 0; 0; 0;
   0; 0; 0; 0; 0; 0; 0; 0; 0; 0; 0; 0; 0; 0; 0; 0;
   0; 0; 0; 0; 0; 0; 0; 0; 0; 0; 0; 0; 0; 0; 0; 0;
   0; 0; 0; 0; 0; 0; 0; 0; 0; 0; 0; 0; 0; 0; 0; 0;
   0; 0; 0; 0; 0; 0; 0; 0; 0; 0; 0; 0; 0; 0; 0; 0;
   0; 0; 0; 0; 0; 0; 0; 0; 0; 0; 0; 0; 0; 0; 0; 0;
   0; 0; 0; 0; 0; 0; 0; 0; 0; 0; 0; 0; 0; 0; 0; 0;
   0; 0; 0; 0; 0; 0; 0; 0; 0; 0; 0; 0; 0; 0; 0; 0;
   0; 0; 0; 0; 0; 0; 0; 0; 0; 0; 0; 0; 0; 0; 0; 0;
   0; 0; 0; 0; 0; 0; 0; 0; 0; 0; 0; 0; 0; 0; 0; 0;
   0; 0; 0; 0; 0; 0; 0; 0; 0; 0; 0; 0; 0; 0; 0; 0;
   0; 0; 0; 0; 0; 0; 0; 0; 0; 0; 0; 0; 0; 0; 0; 0;
   17; 109; 109; 109; 109; 109; 109; 109; 42; 0; 0; 0; 0; 0; 0; 0;
   27; 159; 159; 159; 159; 159; 159; 159; 64; 0; 0; 0; 0; 0; 0; 0;
   0; 0; 0; 0; 0; 0; 0; 0; 0; 0; 0; 0; 0; 0; 0; 0;
   0; 0; 0; 0; 0; 0; 0; 0; 0; 0; 0; 0; 0; 0; 0; 0].

(** platform/android-aarch64/art-shim/muplar_font.h:1187-1201 (muplar_font_alpha) *)
Definition glyph_96 : list Z :=
  [0; 0; 0; 0; 0; 0; 0; 0; 0; 0; 0; 0; 0; 0; 0; 0;
   0; 0; 0; 0; 0; 0; 0; 0; 0; 0; 0; 0; 0; 0; 0; 0;
   58; 138; 136; 10; 0; 0; 0; 0; 0; 0; 0; 0; 0; 0; 0; 0;
   29; 218; 255; 134; 0; 0; 0; 0; 0; 0; 0; 0; 0; 0; 0; 0;
   0; 24; 187; 199; 5; 0; 0; 0; 0; 0; 0; 0; 0; 0; 0; 0;
   0; 0; 0; 0; 0; 0; 0; 0; 0; 0; 0; 0; 0; 0; 0; 0;
   0; 0; 0; 0; 0; 0; 0; 0; 0; 0; 0; 0; 0; 0; 0; 0;
   0; 0; 0; 0; 0; 0; 0; 0; 0; 0; 0; 0; 0; 0; 0; 0;
   0; 0; 0; 0; 0; 0; 0; 0; 0; 0; 0; 0; 0; 0; 0; 0;
   0; 0; 0; 0; 0; 0; 0; 0; 0; 0; 0; 0; 0; 0; 0; 0;
   0; 0; 0; 0; 0; 0; 0; 0; 0; 0; 0; 0; 0; 0; 0; 0;
   0; 0; 0; 0; 0; 0; 0; 0; 0; 0; 0; 0; 0; 0; 0; 0;
   0; 0; 0; 0; 0; 0; 0; 0; 0; 0; 0; 0; 0; 0; 0; 0;
   0; 0; 0; 0; 0; 0; 0; 0; 0; 0; 0; 0; 0; 0; 0; 0;
   0; 0; 0; 0; 0; 0; 0; 0; 0; 0; 0; 0; 0; 0; 0; 0;
   0; 0; 0; 0; 0; 0; 0; 0; 0; 0; 0; 0; 0; 0; 0; 0].

(** platform/android-aarch64/art-shim/muplar_font.h:1202-1218 (muplar_font_alpha) *)
Definition glyph_97 : list Z :=
  [0; 0; 0; 0; 0; 0; 0; 0; 0; 0; 0; 0; 0; 0; 0; 0;
   0; 0; 0; 0; 0; 0; 0; 0; 0; 0; 0; 0; 0; 0; 0; 0;
   0; 0; 0; 0; 0; 0; 0; 0; 0; 0; 0; 0; 0; 0; 0; 0;
   0; 0; 0; 0; 0; 0; 0; 0; 0; 0; 0; 0; 0; 0; 0; 0;
   0; 0; 0; 0; 0; 0; 0; 0; 0; 0; 0; 0; 0; 0; 0; 0;
   0; 3; 120; 203; 229; 197; 143; 15; 0; 0; 0; 0; 0; 0; 0; 0;
   0; 82; 255; 255; 228; 251; 255; 140; 0; 0; 0; 0; 0; 0; 0; 0;
   0; 86; 167; 164; 86; 229; 255; 172; 0; 0; 0; 0; 0; 0; 0; 0;
   0; 57; 234; 255; 255; 255; 255; 172; 0; 0; 0; 0; 0; 0; 0; 0;
   0; 193; 255; 203; 57; 197; 255; 172; 0; 0; 0; 0; 0; 0; 0; 0;
   0; 180; 255; 216; 170; 255; 255; 178; 0; 0; 0; 0; 0; 0; 0; 0;
   0; 65; 233; 255; 250; 222; 255; 242; 8; 0; 0; 0; 0; 0; 0; 0;
   0; 0; 3; 48; 11; 0; 0; 0; 0; 0; 0; 0; 0; 0; 0; 0;
   0; 0; 0; 0; 0; 0; 0; 0; 0; 0; 0; 0; 0; 0; 0; 0;
   0; 0; 0; 0; 0; 0; 0; 0; 0; 0; 0; 0; 0; 0; 0; 0;
   0; 0; 0; 0; 0; 0; 0; 0; 0; 0; 0; 0; 0; 0; 0; 0].

(** platform/android-aarch64/art-shim/muplar_font.h:1219-1235 (muplar_font_alpha) *)
Definition glyph_98 : list Z :=
  [0; 0; 0; 0; 0; 0; 0; 0; 0; 0; 0; 0; 0; 0; 0; 0;
   0; 0; 0; 0; 0; 0; 0; 0; 0; 0; 0; 0; 0; 0; 0; 0;
   0; 2; 8; 5; 0; 0; 0; 0; 0; 0; 0; 0; 0; 0; 0; 0;
   0; 103; 255; 197; 0; 0; 0; 0; 0; 0; 0; 0; 0; 0; 0; 0;
   0; 108; 255; 201; 0; 0; 0; 0; 0; 0; 0; 0; 0; 0; 0; 0;
   0; 108; 255; 239; 179; 225; 198; 84; 0; 0; 0; 0; 0; 0; 0; 0;
   0; 108; 255; 255; 255; 255; 255; 254; 26; 0; 0; 0; 0; 0; 0; 0;
   0; 108; 255; 247; 47; 30; 235; 255; 110; 0; 0; 0; 0; 0; 0; 0;
   0; 108; 255; 213; 0; 0; 192; 255; 170; 0; 0; 0; 0; 0; 0; 0;
   0; 108; 255; 250; 23; 8; 230; 255; 112; 0; 0; 0; 0; 0; 0; 0;
   0; 108; 255; 255; 245; 237; 255; 255; 32; 0; 0; 0; 0; 0; 0; 0;
   0; 103; 255; 255; 242; 255; 252; 127; 0; 0; 0; 0; 0; 0; 0; 0;
   0; 0; 0; 0; 3; 30; 11; 0; 0; 0; 0; 0; 0; 0; 0; 0;
   0; 0; 0; 0; 0; 0; 0; 0; 0; 0; 0; 0; 0; 0; 0; 0;
   0; 0; 0; 0; 0; 0; 0; 0; 0; 0; 0; 0; 0; 0; 0; 0;
   0; 0; 0; 0; 0; 0; 0; 0; 0; 0; 0; 0; 0; 0; 0; 0].

(** platform/android-aarch64/art-shim/muplar_font.h:1236-1252 (muplar_font_alpha) *)
Definition glyph_99 : list Z :=
  [0; 0; 0; 0; 0; 0; 0; 0; 0; 0; 0; 0; 0; 0; 0; 0;
   0; 0; 0; 0; 0; 0; 0; 0; 0; 0; 0; 0; 0; 0; 0; 0;
   0; 0; 0; 0; 0; 0; 0; 0; 0; 0; 0; 0; 0; 0; 0; 0;
   0; 0; 0; 0; 0; 0; 0; 0; 0; 0; 0; 0; 0; 0; 0; 0;
   0; 0; 0; 0; 0; 0; 0; 0; 0; 0; 0; 0; 0; 0; 0; 0;
   0; 0; 70; 190; 227; 197; 135; 23; 0; 0; 0; 0; 0; 0; 0; 0;
   0; 53; 253; 255; 252; 255; 255; 185; 0; 0; 0; 0; 0; 0; 0; 0;
   0; 154; 255; 218; 10; 102; 220; 204; 0; 0; 0; 0; 0; 0; 0; 0;
   0; 187; 255; 159; 0; 0; 0; 0; 0; 0; 0; 0; 0; 0; 0; 0;
   0; 140; 255; 201; 11; 75; 192; 178; 0; 0; 0; 0; 0; 0; 0; 0;
   0; 55; 255; 255; 233; 240; 255; 166; 0; 0; 0; 0; 0; 0; 0; 0;
   0; 1; 152; 255; 255; 255; 201; 25; 0; 0; 0; 0; 0; 0; 0; 0;
   0; 0; 0; 18; 45; 30; 0; 0; 0; 0; 0; 0; 0; 0; 0; 0;
   0; 0; 0; 0; 0; 0; 0; 0; 0; 0; 0; 0; 0; 0; 0; 0;
   0; 0; 0; 0; 0; 0; 0; 0; 0; 0; 0; 0; 0; 0; 0; 0;
   0; 0; 0; 0; 0; 0; 0; 0; 0; 0; 0; 0; 0; 0; 0; 0].

(** platform/android-aarch64/art-shim/muplar_font.h:1253-1269 (muplar_font_alpha) *)
Definition glyph_100 : list Z :=
  [0; 0; 0; 0; 0; 0; 0; 0; 0; 0; 0; 0; 0; 0; 0; 0;
   0; 0; 0; 0; 0; 0; 0; 0; 0; 0; 0; 0; 0; 0; 0; 0;
   0; 0; 0; 0; 0; 0; 6; 8; 1; 0; 0; 0; 0; 0; 0; 0;
   0; 0; 0; 0; 0; 0; 225; 255; 83; 0; 0; 0; 0; 0; 0; 0;
   0; 0; 0; 0; 0; 0; 230; 255; 88; 0; 0; 0; 0; 0; 0; 0;
   0; 0; 90; 201; 228; 178; 255; 255; 88; 0; 0; 0; 0; 0; 0; 0;
   0; 69; 255; 255; 255; 255; 255; 255; 88; 0; 0; 0; 0; 0; 0; 0;
   0; 168; 255; 220; 35; 106; 255; 255; 88; 0; 0; 0; 0; 0; 0; 0;
   0; 200; 255; 164; 0; 10; 252; 255; 88; 0; 0; 0; 0; 0; 0; 0;
   0; 182; 255; 200; 3; 47; 255; 255; 88; 0; 0; 0; 0; 0; 0; 0;
   0; 104; 255; 255; 232; 248; 255; 255; 88; 0; 0; 0; 0; 0; 0; 0;
   0; 3; 157; 255; 255; 237; 255; 255; 83; 0; 0; 0; 0; 0; 0; 0;
   0; 0; 0; 23; 47; 5; 0; 0; 0; 0; 0; 0; 0; 0; 0; 0;
   0; 0; 0; 0; 0; 0; 0; 0; 0; 0; 0; 0; 0; 0; 0; 0;
   0; 0; 0; 0; 0; 0; 0; 0; 0; 0; 0; 0; 0; 0; 0; 0;
   0; 0; 0; 0; 0; 0; 0; 0; 0; 0; 0; 0; 0; 0; 0; 0].

(** platform/android-aarch64/art-shim/muplar_font.h:1270-1286 (muplar_font_alpha) *)
Definition glyph_101 : list Z :=
  [0; 0; 0; 0; 0; 0; 0; 0; 0; 0; 0; 0; 0; 0; 0; 0;
   0; 0; 0; 0; 0; 0; 0; 0; 0; 0; 0; 0; 0; 0; 0; 0;
   0; 0; 0; 0; 0; 0; 0; 0; 0; 0; 0; 0; 0; 0; 0; 0;
   0; 0; 0; 0; 0; 0; 0; 0; 0; 0; 0; 0; 0; 0; 0; 0;
   0; 0; 0; 0; 0; 0; 0; 0; 0; 0; 0; 0; 0; 0; 0; 0;
   0; 0; 96; 201; 233; 204; 123; 1; 0; 0; 0; 0; 0; 0; 0; 0;
   0; 93; 255; 255; 246; 255; 255; 136; 0; 0; 0; 0; 0; 0; 0; 0;
   0; 194; 255; 219; 66; 192; 255; 238; 1; 0; 0; 0; 0; 0; 0; 0;
   0; 227; 255; 255; 255; 255; 255; 255; 13; 0; 0; 0; 0; 0; 0; 0;
   0; 203; 255; 211; 54; 87; 135; 123; 3; 0; 0; 0; 0; 0; 0; 0;
   0; 128; 255; 253; 189; 237; 255; 185; 0; 0; 0; 0; 0; 0; 0; 0;
   0; 5; 155; 254; 255; 255; 202; 31; 0; 0; 0; 0; 0; 0; 0; 0;
   0; 0; 0; 17; 53; 28; 0; 0; 0; 0; 0; 0; 0; 0; 0; 0;
   0; 0; 0; 0; 0; 0; 0; 0; 0; 0; 0; 0; 0; 0; 0; 0;
   0; 0; 0; 0; 0; 0; 0; 0; 0; 0; 0; 0; 0; 0; 0; 0;
   0; 0; 0; 0; 0; 0; 0; 0; 0; 0; 0; 0; 0; 0; 0; 0].

(** platform/android-aarch64/art-shim/muplar_font.h:1287-1303 (muplar_font_alpha) *)
Definition glyph_102 : list Z :=
  [0; 0; 0; 0; 0; 0; 0; 0; 0; 0; 0; 0; 0; 0; 0; 0;
   0; 0; 0; 0; 0; 0; 0; 0; 0; 0; 0; 0; 0; 0; 0; 0;
   0; 0; 0; 16; 41; 8; 0; 0; 0; 0; 0; 0; 0; 0; 0; 0;
   0; 0; 142; 255; 255; 69; 0; 0; 0; 0; 0; 0; 0; 0; 0; 0;
   0; 4; 242; 255; 211; 47; 0; 0; 0; 0; 0; 0; 0; 0; 0; 0;
   10; 191; 255; 255; 201; 57; 0; 0; 0; 0; 0; 0; 0; 0; 0; 0;
   12; 212; 255; 255; 221; 65; 0; 0; 0; 0; 0; 0; 0; 0; 0; 0;
   0; 16; 255; 255; 38; 0; 0; 0; 0; 0; 0; 0; 0; 0; 0; 0;
   0; 16; 255; 255; 38; 0; 0; 0; 0; 0; 0; 0; 0; 0; 0; 0;
   0; 16; 255; 255; 38; 0; 0; 0; 0; 0; 0; 0; 0; 0; 0; 0;
   0; 16; 255; 255; 38; 0; 0; 0; 0; 0; 0; 0; 0; 0; 0; 0;
   0; 13; 253; 255; 33; 0; 0; 0; 0; 0; 0; 0; 0; 0; 0; 0;
   0; 0; 0; 0; 0; 0; 0; 0; 0; 0; 0; 0; 0; 0; 0; 0;
   0; 0; 0; 0; 0; 0; 0; 0; 0; 0; 0; 0; 0; 0; 0; 0;
   0; 0; 0; 0; 0; 0; 0; 0; 0; 0; 0; 0; 0; 0; 0; 0;
   0; 0; 0; 0; 0; 0; 0; 0; 0; 0; 0; 0; 0; 0; 0; 0].

(** platform/android-aarch64/art-shim/muplar_font.h:1304-1320 (muplar_font_alpha) *)
Definition glyph_103 : list Z :=
  [0; 0; 0; 0; 0; 0; 0; 0; 0; 0; 0; 0; 0; 0; 0; 0;
   0; 0; 0; 0; 0; 0; 0; 0; 0; 0; 0; 0; 0; 0; 0; 0;
   0; 0; 0; 0; 0; 0; 0; 0; 0; 0; 0; 0; 0; 0; 0; 0;
   0; 0; 0; 0; 0; 0; 0; 0; 0; 0; 0; 0; 0; 0; 0; 0;
   0; 0; 0; 0; 0; 0; 0; 0; 0; 0; 0; 0; 0; 0; 0; 0;
   0; 0; 93; 202; 229; 175; 184; 199; 55; 0; 0; 0; 0; 0; 0; 0;
   0; 43; 255; 255; 255; 255; 255; 255; 77; 0; 0; 0; 0; 0; 0; 0;
   0; 126; 255; 215; 16; 97; 255; 255; 77; 0; 0; 0; 0; 0; 0; 0;
   0; 192; 255; 150; 0; 7; 255; 255; 77; 0; 0; 0; 0; 0; 0; 0;
   0; 137; 255; 216; 40; 79; 255; 255; 77; 0; 0; 0; 0; 0; 0; 0;
   0; 49; 255; 255; 255; 255; 255; 255; 77; 0; 0; 0; 0; 0; 0; 0;
   0; 0; 118; 232; 251; 194; 255; 255; 73; 0; 0; 0; 0; 0; 0; 0;
   0; 88; 167; 154; 31; 113; 255; 255; 28; 0; 0; 0; 0; 0; 0; 0;
   0; 48; 252; 255; 255; 255; 255; 211; 0; 0; 0; 0; 0; 0; 0; 0;
   0; 0; 77; 152; 205; 187; 140; 17; 0; 0; 0; 0; 0; 0; 0; 0;
   0; 0; 0; 0; 0; 0; 0; 0; 0; 0; 0; 0; 0; 0; 0; 0].

(** platform/android-aarch64/art-shim/muplar_font.h:1321-1337 (muplar_font_alpha) *)
Definition glyph_104 : list Z :=
  [0; 0; 0; 0; 0; 0; 0; 0; 0; 0; 0; 0; 0; 0; 0; 0;
   0; 0; 0; 0; 0; 0; 0; 0; 0; 0; 0; 0; 0; 0; 0; 0;
   0; 0; 2; 1; 0; 0; 0; 0; 0; 0; 0; 0; 0; 0; 0; 0;
   0; 83; 255; 215; 0; 0; 0; 0; 0; 0; 0; 0; 0; 0; 0; 0;
   0; 89; 255; 221; 0; 0; 0; 0; 0; 0; 0; 0; 0; 0; 0; 0;
   0; 89; 255; 247; 180; 230; 210; 100; 0; 0; 0; 0; 0; 0; 0; 0;
   0; 89; 255; 255; 255; 254; 255; 255; 40; 0; 0; 0; 0; 0; 0; 0;
   0; 89; 255; 255; 57; 37; 255; 255; 68; 0; 0; 0; 0; 0; 0; 0;
   0; 89; 255; 230; 0; 0; 244; 255; 76; 0; 0; 0; 0; 0; 0; 0;
   0; 89; 255; 221; 0; 0; 244; 255; 77; 0; 0; 0; 0; 0; 0; 0;
   0; 89; 255; 221; 0; 0; 244; 255; 77; 0; 0; 0; 0; 0; 0; 0;
   0; 83; 255; 216; 0; 0; 239; 255; 71; 0; 0; 0; 0; 0; 0; 0;
   0; 0; 0; 0; 0; 0; 0; 0; 0; 0; 0; 0; 0; 0; 0; 0;
   0; 0; 0; 0; 0; 0; 0; 0; 0; 0; 0; 0; 0; 0; 0; 0;
   0; 0; 0; 0; 0; 0; 0; 0; 0; 0; 0; 0; 0; 0; 0; 0;
   0; 0; 0; 0; 0; 0; 0; 0; 0; 0; 0; 0; 0; 0; 0; 0].

(** platform/android-aarch64/art-shim/muplar_font.h:1338-1354 (muplar_font_alpha) *)
Definition glyph_105 : list Z :=
  [0; 0; 0; 0; 0; 0; 0; 0; 0; 0; 0; 0; 0; 0; 0; 0;
   0; 0; 0; 0; 0; 0; 0; 0; 0; 0; 0; 0; 0; 0; 0; 0;
   0; 5; 31; 23; 0; 0; 0; 0; 0; 0; 0; 0; 0; 0; 0; 0;
   0; 84; 255; 231; 0; 0; 0; 0; 0; 0; 0; 0; 0; 0; 0; 0;
   0; 72; 228; 203; 0; 0; 0; 0; 0; 0; 0; 0; 0; 0; 0; 0;
   0; 62; 199; 176; 0; 0; 0; 0; 0; 0; 0; 0; 0; 0; 0; 0;
   0; 85; 255; 232; 0; 0; 0; 0; 0; 0; 0; 0; 0; 0; 0; 0;
   0; 85; 255; 232; 0; 0; 0; 0; 0; 0; 0; 0; 0; 0; 0; 0;
   0; 85; 255; 232; 0; 0; 0; 0; 0; 0; 0; 0; 0; 0; 0; 0;
   0; 85; 255; 232; 0; 0; 0; 0; 0; 0; 0; 0; 0; 0; 0; 0;
   0; 85; 255; 232; 0; 0; 0; 0; 0; 0; 0; 0; 0; 0; 0; 0;
   0; 80; 255; 227; 0; 0; 0; 0; 0; 0; 0; 0; 0; 0; 0; 0;
   0; 0; 0; 0; 0; 0; 0; 0; 0; 0; 0; 0; 0; 0; 0; 0;
   0; 0; 0; 0; 0; 0; 0; 0; 0; 0; 0; 0; 0; 0; 0; 0;
   0; 0; 0; 0; 0; 0; 0; 0; 0; 0; 0; 0; 0; 0; 0; 0;
   0; 0; 0; 0; 0; 0; 0; 0; 0; 0; 0; 0; 0; 0; 0; 0].

(** platform/android-aarch64/art-shim/muplar_font.h:1355-1371 (muplar_font_alpha) *)
Definition glyph_106 : list Z :=
  [0; 0; 0; 0; 0; 0; 0; 0; 0; 0; 0; 0; 0; 0; 0; 0;
   0; 0; 0; 0; 0; 0; 0; 0; 0; 0; 0; 0; 0; 0; 0; 0;
   0; 3; 31; 24; 0; 0; 0; 0; 0; 0; 0; 0; 0; 0; 0; 0;
   0; 69; 255; 239; 0; 0; 0; 0; 0; 0; 0; 0; 0; 0; 0; 0;
   0; 59; 228; 211; 0; 0; 0; 0; 0; 0; 0; 0; 0; 0; 0; 0;
   0; 48; 192; 175; 0; 0; 0; 0; 0; 0; 0; 0; 0; 0; 0; 0;
   0; 71; 255; 240; 0; 0; 0; 0; 0; 0; 0; 0; 0; 0; 0; 0;
   0; 71; 255; 240; 0; 0; 0; 0; 0; 0; 0; 0; 0; 0; 0; 0;
   0; 71; 255; 240; 0; 0; 0; 0; 0; 0; 0; 0; 0; 0; 0; 0;
   0; 71; 255; 240; 0; 0; 0; 0; 0; 0; 0; 0; 0; 0; 0; 0;
   0; 71; 255; 240; 0; 0; 0; 0; 0; 0; 0; 0; 0; 0; 0; 0;
   0; 71; 255; 240; 0; 0; 0; 0; 0; 0; 0; 0; 0; 0; 0; 0;
   0; 101; 255; 238; 0; 0; 0; 0; 0; 0; 0; 0; 0; 0; 0; 0;
   34; 255; 255; 189; 0; 0; 0; 0; 0; 0; 0; 0; 0; 0; 0; 0;
   29; 201; 156; 53; 0; 0; 0; 0; 0; 0; 0; 0; 0; 0; 0; 0;
   0; 0; 0; 0; 0; 0; 0; 0; 0; 0; 0; 0; 0; 0; 0; 0].

(** platform/android-aarch64/art-shim/muplar_font.h:1372-1388 (muplar_font_alpha) *)
Definition glyph_107 : list Z :=
  [0; 0; 0; 0; 0; 0; 0; 0; 0; 0; 0; 0; 0; 0; 0; 0;
   0; 0; 0; 0; 0; 0; 0; 0; 0; 0; 0; 0; 0; 0; 0; 0;
   0; 0; 2; 1; 0; 0; 0; 0; 0; 0; 0; 0; 0; 0; 0; 0;
   0; 91; 255; 200; 0; 0; 0; 0; 0; 0; 0; 0; 0; 0; 0; 0;
   0; 97; 255; 206; 0; 0; 0; 0; 0; 0; 0; 0; 0; 0; 0; 0;
   0; 97; 255; 206; 0; 134; 192; 191; 30; 0; 0; 0; 0; 0; 0; 0;
   0; 97; 255; 206; 137; 255; 255; 109; 0; 0; 0; 0; 0; 0; 0; 0;
   0; 97; 255; 255; 255; 255; 111; 0; 0; 0; 0; 0; 0; 0; 0; 0;
   0; 97; 255; 255; 255; 255; 106; 0; 0; 0; 0; 0; 0; 0; 0; 0;
   0; 97; 255; 247; 216; 255; 242; 28; 0; 0; 0; 0; 0; 0; 0; 0;
   0; 97; 255; 206; 32; 246; 255; 178; 0; 0; 0; 0; 0; 0; 0; 0;
   0; 91; 255; 201; 0; 126; 255; 255; 62; 0; 0; 0; 0; 0; 0; 0;
   0; 0; 0; 0; 0; 0; 0; 0; 0; 0; 0; 0; 0; 0; 0; 0;
   0; 0; 0; 0; 0; 0; 0; 0; 0; 0; 0; 0; 0; 0; 0; 0;
   0; 0; 0; 0; 0; 0; 0; 0; 0; 0; 0; 0; 0; 0; 0; 0;
   0; 0; 0; 0; 0; 0; 0; 0; 0; 0; 0; 0; 0; 0; 0; 0].

(** platform/android-aarch64/art-shim/muplar_font.h:1389-1405 (muplar_font_alpha) *)
Definition glyph_108 : list Z :=
  [0; 0; 0; 0; 0; 0; 0; 0; 0; 0; 0; 0; 0; 0; 0; 0;
   0; 0; 0; 0; 0; 0; 0; 0; 0; 0; 0; 0; 0; 0; 0; 0;
   0; 1; 12; 9; 0; 0; 0; 0; 0; 0; 0; 0; 0; 0; 0; 0;
   0; 78; 255; 225; 0; 0; 0; 0; 0; 0; 0; 0; 0; 0; 0; 0;
   0; 82; 255; 229; 0; 0; 0; 0; 0; 0; 0; 0; 0; 0; 0; 0;
   0; 82; 255; 229; 0; 0; 0; 0; 0; 0; 0; 0; 0; 0; 0; 0;
   0; 82; 255; 229; 0; 0; 0; 0; 0; 0; 0; 0; 0; 0; 0; 0;
   0; 82; 255; 229; 0; 0; 0; 0; 0; 0; 0; 0; 0; 0; 0; 0;
   0; 82; 255; 229; 0; 0; 0; 0; 0; 0; 0; 0; 0; 0; 0; 0;
   0; 82; 255; 229; 0; 0; 0; 0; 0; 0; 0; 0; 0; 0; 0; 0;
   0; 82; 255; 229; 0; 0; 0; 0; 0; 0; 0; 0; 0; 0; 0; 0;
   0; 77; 255; 224; 0; 0; 0; 0; 0; 0; 0; 0; 0; 0; 0; 0;
   0; 0; 0; 0; 0; 0; 0; 0; 0; 0; 0; 0; 0; 0; 0; 0;
   0; 0; 0; 0; 0; 0; 0; 0; 0; 0; 0; 0; 0; 0; 0; 0;
   0; 0; 0; 0; 0; 0; 0; 0; 0; 0; 0; 0; 0; 0; 0; 0;
   0; 0; 0; 0; 0; 0; 0; 0; 0; 0; 0; 0; 0; 0; 0; 0].

(** platform/android-aarch64/art-shim/muplar_font.h:1406-1422 (muplar_font_alpha) *)
Definition glyph_109 : list Z :=
  [0; 0; 0; 0; 0; 0; 0; 0; 0; 0; 0; 0; 0; 0; 0; 0;
   0; 0; 0; 0; 0; 0; 0; 0; 0; 0; 0; 0; 0; 0; 0; 0;
   0; 0; 0; 0; 0; 0; 0; 0; 0; 0; 0; 0; 0; 0; 0; 0;
   0; 0; 0; 0; 0; 0; 0; 0; 0; 0; 0; 0; 0; 0; 0; 0;
   0; 0; 0; 0; 0; 0; 0; 0; 0; 0; 0; 0; 0; 0; 0; 0;
   0; 72; 196; 182; 173; 224; 187; 85; 185; 226; 194; 47; 0; 0; 0; 0;
   0; 100; 255; 255; 255; 255; 255; 255; 255; 255; 255; 203; 0; 0; 0; 0;
   0; 100; 255; 245; 33; 140; 255; 251; 46; 127; 255; 239; 0; 0; 0; 0;
   0; 100; 255; 218; 0; 89; 255; 226; 0; 84; 255; 241; 0; 0; 0; 0;
   0; 100; 255; 218; 0; 89; 255; 226; 0; 84; 255; 240; 0; 0; 0; 0;
   0; 100; 255; 218; 0; 89; 255; 226; 0; 84; 255; 240; 0; 0; 0; 0;
   0; 95; 255; 212; 0; 84; 255; 220; 0; 79; 255; 239; 0; 0; 0; 0;
   0; 0; 0; 0; 0; 0; 0; 0; 0; 0; 0; 0; 0; 0; 0; 0;
   0; 0; 0; 0; 0; 0; 0; 0; 0; 0; 0; 0; 0; 0; 0; 0;
   0; 0; 0; 0; 0; 0; 0; 0; 0; 0; 0; 0; 0; 0; 0; 0;
   0; 0; 0; 0; 0; 0; 0; 0; 0; 0; 0; 0; 0; 0; 0; 0].

(** platform/android-aarch64/art-shim/muplar_font.h:1423-1439 (muplar_font_alpha) *)
Definition glyph_110 : list Z :=
  [0; 0; 0; 0; 0; 0; 0; 0; 0; 0; 0; 0; 0; 0; 0; 0;
   0; 0; 0; 0; 0; 0; 0; 0; 0; 0; 0; 0; 0; 0; 0; 0;
   0; 0; 0; 0; 0; 0; 0; 0; 0; 0; 0; 0; 0; 0; 0; 0;
   0; 0; 0; 0; 0; 0; 0; 0; 0; 0; 0; 0; 0; 0; 0; 0;
   0; 0; 0; 0; 0; 0; 0; 0; 0; 0; 0; 0; 0; 0; 0; 0;
   0; 63; 196; 182; 168; 225; 188; 91; 0; 0; 0; 0; 0; 0; 0; 0;
   0; 89; 255; 255; 255; 255; 255; 244; 13; 0; 0; 0; 0; 0; 0; 0;
   0; 89; 255; 254; 71; 37; 254; 255; 78; 0; 0; 0; 0; 0; 0; 0;
   0; 89; 255; 227; 0; 0; 241; 255; 82; 0; 0; 0; 0; 0; 0; 0;
   0; 89; 255; 221; 0; 0; 241; 255; 82; 0; 0; 0; 0; 0; 0; 0;
   0; 89; 255; 221; 0; 0; 241; 255; 82; 0; 0; 0; 0; 0; 0; 0;
   0; 83; 255; 216; 0; 0; 236; 255; 76; 0; 0; 0; 0; 0; 0; 0;
   0; 0; 0; 0; 0; 0; 0; 0; 0; 0; 0; 0; 0; 0; 0; 0;
   0; 0; 0; 0; 0; 0; 0; 0; 0; 0; 0; 0; 0; 0; 0; 0;
   0; 0; 0; 0; 0; 0; 0; 0; 0; 0; 0; 0; 0; 0; 0; 0;
   0; 0; 0; 0; 0; 0; 0; 0; 0; 0; 0; 0; 0; 0; 0; 0].

(** platform/android-aarch64/art-shim/muplar_font.h:1440-1456 (muplar_font_alpha) *)
Definition glyph_111 : list Z :=
  [0; 0; 0; 0; 0; 0; 0; 0; 0; 0; 0; 0; 0; 0; 0; 0;
   0; 0; 0; 0; 0; 0; 0; 0; 0; 0; 0; 0; 0; 0; 0; 0;
   0; 0; 0; 0; 0; 0; 0; 0; 0; 0; 0; 0; 0; 0; 0; 0;
   0; 0; 0; 0; 0; 0; 0; 0; 0; 0; 0; 0; 0; 0; 0; 0;
   0; 0; 0; 0; 0; 0; 0; 0; 0; 0; 0; 0; 0; 0; 0; 0;
   0; 0; 66; 193; 233; 230; 187; 53; 0; 0; 0; 0; 0; 0; 0; 0;
   0; 53; 253; 255; 255; 254; 255; 248; 35; 0; 0; 0; 0; 0; 0; 0;
   0; 161; 255; 225; 22; 31; 244; 255; 138; 0; 0; 0; 0; 0; 0; 0;
   0; 196; 255; 164; 0; 0; 192; 255; 173; 0; 0; 0; 0; 0; 0; 0;
   0; 169; 255; 213; 3; 8; 236; 255; 146; 0; 0; 0; 0; 0; 0; 0;
   0; 77; 255; 255; 231; 236; 255; 254; 55; 0; 0; 0; 0; 0; 0; 0;
   0; 0; 117; 250; 255; 255; 245; 98; 0; 0; 0; 0; 0; 0; 0; 0;
   0; 0; 0; 9; 41; 42; 6; 0; 0; 0; 0; 0; 0; 0; 0; 0;
   0; 0; 0; 0; 0; 0; 0; 0; 0; 0; 0; 0; 0; 0; 0; 0;
   0; 0; 0; 0; 0; 0; 0; 0; 0; 0; 0; 0; 0; 0; 0; 0;
   0; 0; 0; 0; 0; 0; 0; 0; 0; 0; 0; 0; 0; 0; 0; 0].

(** platform/android-aarch64/art-shim/muplar_font.h:1457-1473 (muplar_font_alpha) *)
Definition glyph_112 : list Z :=
  [0; 0; 0; 0; 0; 0; 0; 0; 0; 0; 0; 0; 0; 0; 0; 0;
   0; 0; 0; 0; 0; 0; 0; 0; 0; 0; 0; 0; 0; 0; 0; 0;
   0; 0; 0; 0; 0; 0; 0; 0; 0; 0; 0; 0; 0; 0; 0; 0;
   0; 0; 0; 0; 0; 0; 0; 0; 0; 0; 0; 0; 0; 0; 0; 0;
   0; 0; 0; 0; 0; 0; 0; 0; 0; 0; 0; 0; 0; 0; 0; 0;
   0; 77; 199; 178; 167; 224; 198; 81; 0; 0; 0; 0; 0; 0; 0; 0;
   0; 105; 255; 255; 255; 255; 255; 254; 57; 0; 0; 0; 0; 0; 0; 0;
   0; 105; 255; 248; 48; 52; 239; 255; 144; 0; 0; 0; 0; 0; 0; 0;
   0; 105; 255; 214; 0; 0; 196; 255; 171; 0; 0; 0; 0; 0; 0; 0;
   0; 105; 255; 254; 35; 10; 231; 255; 145; 0; 0; 0; 0; 0; 0; 0;
   0; 105; 255; 255; 233; 246; 255; 255; 69; 0; 0; 0; 0; 0; 0; 0;
   0; 105; 255; 255; 238; 255; 253; 129; 0; 0; 0; 0; 0; 0; 0; 0;
   0; 105; 255; 201; 4; 44; 13; 0; 0; 0; 0; 0; 0; 0; 0; 0;
   0; 105; 255; 201; 0; 0; 0; 0; 0; 0; 0; 0; 0; 0; 0; 0;
   0; 70; 185; 140; 0; 0; 0; 0; 0; 0; 0; 0; 0; 0; 0; 0;
   0; 0; 0; 0; 0; 0; 0; 0; 0; 0; 0; 0; 0; 0; 0; 0].

(** platform/android-aarch64/art-shim/muplar_font.h:1474-1490 (muplar_font_alpha) *)
Definition glyph_113 : list Z :=
  [0; 0; 0; 0; 0; 0; 0; 0; 0; 0; 0; 0; 0; 0; 0; 0;
   0; 0; 0; 0; 0; 0; 0; 0; 0; 0; 0; 0; 0; 0; 0; 0;
   0; 0; 0; 0; 0; 0; 0; 0; 0; 0; 0; 0; 0; 0; 0; 0;
   0; 0; 0; 0; 0; 0; 0; 0; 0; 0; 0; 0; 0; 0; 0; 0;
   0; 0; 0; 0; 0; 0; 0; 0; 0; 0; 0; 0; 0; 0; 0; 0;
   0; 0; 89; 204; 227; 169; 187; 196; 54; 0; 0; 0; 0; 0; 0; 0;
   0; 67; 255; 255; 255; 255; 255; 255; 77; 0; 0; 0; 0; 0; 0; 0;
   0; 171; 255; 222; 29; 73; 255; 255; 77; 0; 0; 0; 0; 0; 0; 0;
   0; 205; 255; 152; 0; 0; 242; 255; 77; 0; 0; 0; 0; 0; 0; 0;
   0; 186; 255; 195; 15; 56; 255; 255; 77; 0; 0; 0; 0; 0; 0; 0;
   0; 110; 255; 255; 245; 254; 255; 255; 77; 0; 0; 0; 0; 0; 0; 0;
   0; 3; 160; 255; 255; 239; 255; 255; 77; 0; 0; 0; 0; 0; 0; 0;
   0; 0; 0; 24; 46; 4; 230; 255; 77; 0; 0; 0; 0; 0; 0; 0;
   0; 0; 0; 0; 0; 0; 230; 255; 77; 0; 0; 0; 0; 0; 0; 0;
   0; 0; 0; 0; 0; 0; 165; 189; 52; 0; 0; 0; 0; 0; 0; 0;
   0; 0; 0; 0; 0; 0; 0; 0; 0; 0; 0; 0; 0; 0; 0; 0].

(** platform/android-aarch64/art-shim/muplar_font.h:1491-1507 (muplar_font_alpha) *)
Definition glyph_114 : list Z :=
  [0; 0; 0; 0; 0; 0; 0; 0; 0; 0; 0; 0; 0; 0; 0; 0;
   0; 0; 0; 0; 0; 0; 0; 0; 0; 0; 0; 0; 0; 0; 0; 0;
   0; 0; 0; 0; 0; 0; 0; 0; 0; 0; 0; 0; 0; 0; 0; 0;
   0; 0; 0; 0; 0; 0; 0; 0; 0; 0; 0; 0; 0; 0; 0; 0;
   0; 0; 0; 0; 0; 0; 0; 0; 0; 0; 0; 0; 0; 0; 0; 0;
   0; 71; 199; 168; 168; 227; 11; 0; 0; 0; 0; 0; 0; 0; 0; 0;
   0; 97; 255; 255; 255; 255; 12; 0; 0; 0; 0; 0; 0; 0; 0; 0;
   0; 97; 255; 255; 149; 47; 0; 0; 0; 0; 0; 0; 0; 0; 0; 0;
   0; 97; 255; 237; 0; 0; 0; 0; 0; 0; 0; 0; 0; 0; 0; 0;
   0; 97; 255; 218; 0; 0; 0; 0; 0; 0; 0; 0; 0; 0; 0; 0;
   0; 97; 255; 218; 0; 0; 0; 0; 0; 0; 0; 0; 0; 0; 0; 0;
   0; 91; 255; 212; 0; 0; 0; 0; 0; 0; 0; 0; 0; 0; 0; 0;
   0; 0; 0; 0; 0; 0; 0; 0; 0; 0; 0; 0; 0; 0; 0; 0;
   0; 0; 0; 0; 0; 0; 0; 0; 0; 0; 0; 0; 0; 0; 0; 0;
   0; 0; 0; 0; 0; 0; 0; 0; 0; 0; 0; 0; 0; 0; 0; 0;
   0; 0; 0; 0; 0; 0; 0; 0; 0; 0; 0; 0; 0; 0; 0; 0].

(** platform/android-aarch64/art-shim/muplar_font.h:1508-1524 (muplar_font_alpha) *)
Definition glyph_115 : list Z :=
  [0; 0; 0; 0; 0; 0; 0; 0; 0; 0; 0; 0; 0; 0; 0; 0;
   0; 0; 0; 0; 0; 0; 0; 0; 0; 0; 0; 0; 0; 0; 0; 0;
   0; 0; 0; 0; 0; 0; 0; 0; 0; 0; 0; 0; 0; 0; 0; 0;
   0; 0; 0; 0; 0; 0; 0; 0; 0; 0; 0; 0; 0; 0; 0; 0;
   0; 0; 0; 0; 0; 0; 0; 0; 0; 0; 0; 0; 0; 0; 0; 0;
   0; 0; 101; 181; 234; 196; 136; 2; 0; 0; 0; 0; 0; 0; 0; 0;
   0; 61; 255; 250; 207; 252; 255; 97; 0; 0; 0; 0; 0; 0; 0; 0;
   0; 134; 255; 247; 141; 159; 143; 88; 0; 0; 0; 0; 0; 0; 0; 0;
   0; 42; 238; 255; 255; 255; 237; 86; 0; 0; 0; 0; 0; 0; 0; 0;
   0; 86; 136; 152; 146; 229; 255; 218; 0; 0; 0; 0; 0; 0; 0; 0;
   0; 128; 255; 241; 169; 215; 255; 198; 0; 0; 0; 0; 0; 0; 0; 0;
   0; 19; 187; 253; 255; 255; 228; 53; 0; 0; 0; 0; 0; 0; 0; 0;
   0; 0; 0; 26; 58; 39; 5; 0; 0; 0; 0; 0; 0; 0; 0; 0;
   0; 0; 0; 0; 0; 0; 0; 0; 0; 0; 0; 0; 0; 0; 0; 0;
   0; 0; 0; 0; 0; 0; 0; 0; 0; 0; 0; 0; 0; 0; 0; 0;
   0; 0; 0; 0; 0; 0; 0; 0; 0; 0; 0; 0; 0; 0; 0; 0].

(** platform/android-aarch64/art-shim/muplar_font.h:1525-1541 (muplar_font_alpha) *)
Definition glyph_116 : list Z :=
  [0; 0; 0; 0; 0; 0; 0; 0; 0; 0; 0; 0; 0; 0; 0; 0;
   0; 0; 0; 0; 0; 0; 0; 0; 0; 0; 0; 0; 0; 0; 0; 0;
   0; 0; 0; 0; 0; 0; 0; 0; 0; 0; 0; 0; 0; 0; 0; 0;
   0; 7; 108; 108; 6; 0; 0; 0; 0; 0; 0; 0; 0; 0; 0; 0;
   0; 27; 255; 255; 23; 0; 0; 0; 0; 0; 0; 0; 0; 0; 0; 0;
   10; 194; 255; 255; 194; 35; 0; 0; 0; 0; 0; 0; 0; 0; 0; 0;
   12; 218; 255; 255; 219; 41; 0; 0; 0; 0; 0; 0; 0; 0; 0; 0;
   0; 27; 255; 255; 23; 0; 0; 0; 0; 0; 0; 0; 0; 0; 0; 0;
   0; 27; 255; 255; 23; 0; 0; 0; 0; 0; 0; 0; 0; 0; 0; 0;
   0; 27; 255; 255; 25; 0; 0; 0; 0; 0; 0; 0; 0; 0; 0; 0;
   0; 24; 255; 255; 182; 25; 0; 0; 0; 0; 0; 0; 0; 0; 0; 0;
   0; 0; 189; 255; 255; 55; 0; 0; 0; 0; 0; 0; 0; 0; 0; 0;
   0; 0; 0; 19; 22; 3; 0; 0; 0; 0; 0; 0; 0; 0; 0; 0;
   0; 0; 0; 0; 0; 0; 0; 0; 0; 0; 0; 0; 0; 0; 0; 0;
   0; 0; 0; 0; 0; 0; 0; 0; 0; 0; 0; 0; 0; 0; 0; 0;
   0; 0; 0; 0; 0; 0; 0; 0; 0; 0; 0; 0; 0; 0; 0; 0].

(** platform/android-aarch64/art-shim/muplar_font.h:1542-1558 (muplar_font_alpha) *)
Definition glyph_117 : list Z :=
  [0; 0; 0; 0; 0; 0; 0; 0; 0; 0; 0; 0; 0; 0; 0; 0;
   0; 0; 0; 0; 0; 0; 0; 0; 0; 0; 0; 0; 0; 0; 0; 0;
   0; 0; 0; 0; 0; 0; 0; 0; 0; 0; 0; 0; 0; 0; 0; 0;
   0; 0; 0; 0; 0; 0; 0; 0; 0; 0; 0; 0; 0; 0; 0; 0;
   0; 0; 0; 0; 0; 0; 0; 0; 0; 0; 0; 0; 0; 0; 0; 0;
   0; 77; 199; 165; 0; 0; 194; 199; 44; 0; 0; 0; 0; 0; 0; 0;
   0; 105; 255; 218; 0; 0; 255; 255; 62; 0; 0; 0; 0; 0; 0; 0;
   0; 105; 255; 218; 0; 0; 255; 255; 62; 0; 0; 0; 0; 0; 0; 0;
   0; 105; 255; 218; 0; 2; 255; 255; 62; 0; 0; 0; 0; 0; 0; 0;
   0; 97; 255; 238; 6; 67; 255; 255; 62; 0; 0; 0; 0; 0; 0; 0;
   0; 54; 255; 255; 240; 254; 255; 255; 62; 0; 0; 0; 0; 0; 0; 0;
   0; 3; 166; 254; 255; 218; 255; 255; 57; 0; 0; 0; 0; 0; 0; 0;
   0; 0; 0; 15; 31; 2; 0; 0; 0; 0; 0; 0; 0; 0; 0; 0;
   0; 0; 0; 0; 0; 0; 0; 0; 0; 0; 0; 0; 0; 0; 0; 0;
   0; 0; 0; 0; 0; 0; 0; 0; 0; 0; 0; 0; 0; 0; 0; 0;
   0; 0; 0; 0; 0; 0; 0; 0; 0; 0; 0; 0; 0; 0; 0; 0].

(** platform/android-aarch64/art-shim/muplar_font.h:1559-1575 (muplar_font_alpha) *)
Definition glyph_118 : list Z :=
  [0; 0; 0; 0; 0; 0; 0; 0; 0; 0; 0; 0; 0; 0; 0; 0;
   0; 0; 0; 0; 0; 0; 0; 0; 0; 0; 0; 0; 0; 0; 0; 0;
   0; 0; 0; 0; 0; 0; 0; 0; 0; 0; 0; 0; 0; 0; 0; 0;
   0; 0; 0; 0; 0; 0; 0; 0; 0; 0; 0; 0; 0; 0; 0; 0;
   0; 0; 0; 0; 0; 0; 0; 0; 0; 0; 0; 0; 0; 0; 0; 0;
   1; 188; 199; 104; 0; 43; 199; 199; 33; 0; 0; 0; 0; 0; 0; 0;
   0; 176; 255; 204; 0; 128; 255; 228; 3; 0; 0; 0; 0; 0; 0; 0;
   0; 77; 255; 255; 28; 208; 255; 132; 0; 0; 0; 0; 0; 0; 0; 0;
   0; 3; 230; 255; 140; 255; 254; 33; 0; 0; 0; 0; 0; 0; 0; 0;
   0; 0; 135; 255; 255; 255; 188; 0; 0; 0; 0; 0; 0; 0; 0; 0;
   0; 0; 36; 255; 255; 255; 88; 0; 0; 0; 0; 0; 0; 0; 0; 0;
   0; 0; 0; 192; 255; 237; 7; 0; 0; 0; 0; 0; 0; 0; 0; 0;
   0; 0; 0; 0; 0; 0; 0; 0; 0; 0; 0; 0; 0; 0; 0; 0;
   0; 0; 0; 0; 0; 0; 0; 0; 0; 0; 0; 0; 0; 0; 0; 0;
   0; 0; 0; 0; 0; 0; 0; 0; 0; 0; 0; 0; 0; 0; 0; 0;
   0; 0; 0; 0; 0; 0; 0; 0; 0; 0; 0; 0; 0; 0; 0; 0].

(** platform/android-aarch64/art-shim/muplar_font.h:1576-1592 (muplar_font_alpha) *)
Definition glyph_119 : list Z :=
  [0; 0; 0; 0; 0; 0; 0; 0; 0; 0; 0; 0; 0; 0; 0; 0;
   0; 0; 0; 0; 0; 0; 0; 0; 0; 0; 0; 0; 0; 0; 0; 0;
   0; 0; 0; 0; 0; 0; 0; 0; 0; 0; 0; 0; 0; 0; 0; 0;
   0; 0; 0; 0; 0; 0; 0; 0; 0; 0; 0; 0; 0; 0; 0; 0;
   0; 0; 0; 0; 0; 0; 0; 0; 0; 0; 0; 0; 0; 0; 0; 0;
   8; 197; 199; 65; 36; 199; 199; 47; 44; 199; 199; 16; 0; 0; 0; 0;
   0; 215; 255; 138; 97; 255; 255; 113; 111; 255; 225; 0; 0; 0; 0; 0;
   0; 137; 255; 199; 153; 255; 255; 172; 172; 255; 145; 0; 0; 0; 0; 0;
   0; 60; 255; 250; 219; 238; 236; 232; 232; 255; 65; 0; 0; 0; 0; 0;
   0; 3; 235; 255; 255; 179; 176; 255; 255; 237; 4; 0; 0; 0; 0; 0;
   0; 0; 161; 255; 255; 119; 117; 255; 255; 161; 0; 0; 0; 0; 0; 0;
   0; 0; 83; 255; 255; 59; 58; 255; 255; 80; 0; 0; 0; 0; 0; 0;
   0; 0; 0; 0; 0; 0; 0; 0; 0; 0; 0; 0; 0; 0; 0; 0;
   0; 0; 0; 0; 0; 0; 0; 0; 0; 0; 0; 0; 0; 0; 0; 0;
   0; 0; 0; 0; 0; 0; 0; 0; 0; 0; 0; 0; 0; 0; 0; 0;
   0; 0; 0; 0; 0; 0; 0; 0; 0; 0; 0; 0; 0; 0; 0; 0].

(** platform/android-aarch64/art-shim/muplar_font.h:1593-1609 (muplar_font_alpha) *)
Definition glyph_120 : list Z :=
  [0; 0; 0; 0; 0; 0; 0; 0; 0; 0; 0; 0; 0; 0; 0; 0;
   0; 0; 0; 0; 0; 0; 0; 0; 0; 0; 0; 0; 0; 0; 0; 0;
   0; 0; 0; 0; 0; 0; 0; 0; 0; 0; 0; 0; 0; 0; 0; 0;
   0; 0; 0; 0; 0; 0; 0; 0; 0; 0; 0; 0; 0; 0; 0; 0;
   0; 0; 0; 0; 0; 0; 0; 0; 0; 0; 0; 0; 0; 0; 0; 0;
   0; 160; 196; 176; 5; 132; 196; 190; 6; 0; 0; 0; 0; 0; 0; 0;
   0; 75; 255; 255; 182; 254; 255; 119; 0; 0; 0; 0; 0; 0; 0; 0;
   0; 0; 143; 255; 255; 255; 184; 1; 0; 0; 0; 0; 0; 0; 0; 0;
   0; 0; 11; 250; 255; 255; 43; 0; 0; 0; 0; 0; 0; 0; 0; 0;
   0; 0; 133; 255; 255; 255; 180; 0; 0; 0; 0; 0; 0; 0; 0; 0;
   0; 66; 253; 255; 210; 255; 255; 109; 0; 0; 0; 0; 0; 0; 0; 0;
   0; 222; 255; 216; 6; 191; 255; 248; 19; 0; 0; 0; 0; 0; 0; 0;
   0; 0; 0; 0; 0; 0; 0; 0; 0; 0; 0; 0; 0; 0; 0; 0;
   0; 0; 0; 0; 0; 0; 0; 0; 0; 0; 0; 0; 0; 0; 0; 0;
   0; 0; 0; 0; 0; 0; 0; 0; 0; 0; 0; 0; 0; 0; 0; 0;
   0; 0; 0; 0; 0; 0; 0; 0; 0; 0; 0; 0; 0; 0; 0; 0].

(** platform/android-aarch64/art-shim/muplar_font.h:1610-1626 (muplar_font_alpha) *)
Definition glyph_121 : list Z :=
  [0; 0; 0; 0; 0; 0; 0; 0; 0; 0; 0; 0; 0; 0; 0; 0;
   0; 0; 0; 0; 0; 0; 0; 0; 0; 0; 0; 0; 0; 0; 0; 0;
   0; 0; 0; 0; 0; 0; 0; 0; 0; 0; 0; 0; 0; 0; 0; 0;
   0; 0; 0; 0; 0; 0; 0; 0; 0; 0; 0; 0; 0; 0; 0; 0;
   0; 0; 0; 0; 0; 0; 0; 0; 0; 0; 0; 0; 0; 0; 0; 0;
   3; 193; 199; 95; 0; 48; 199; 199; 24; 0; 0; 0; 0; 0; 0; 0;
   0; 186; 255; 196; 0; 131; 255; 221; 1; 0; 0; 0; 0; 0; 0; 0;
   0; 89; 255; 253; 25; 209; 255; 126; 0; 0; 0; 0; 0; 0; 0; 0;
   0; 8; 240; 255; 138; 255; 254; 31; 0; 0; 0; 0; 0; 0; 0; 0;
   0; 0; 152; 255; 255; 255; 189; 0; 0; 0; 0; 0; 0; 0; 0; 0;
   0; 0; 55; 255; 255; 255; 92; 0; 0; 0; 0; 0; 0; 0; 0; 0;
   0; 0; 0; 214; 255; 242; 10; 0; 0; 0; 0; 0; 0; 0; 0; 0;
   0; 0; 22; 204; 255; 154; 0; 0; 0; 0; 0; 0; 0; 0; 0; 0;
   0; 18; 254; 255; 255; 50; 0; 0; 0; 0; 0; 0; 0; 0; 0; 0;
   0; 16; 203; 177; 91; 0; 0; 0; 0; 0; 0; 0; 0; 0; 0; 0;
   0; 0; 0; 0; 0; 0; 0; 0; 0; 0; 0; 0; 0; 0; 0; 0].

(** platform/android-aarch64/art-shim/muplar_font.h:1627-1643 (muplar_font_alpha) *)
Definition glyph_122 : list Z :=
  [0; 0; 0; 0; 0; 0; 0; 0; 0; 0; 0; 0; 0; 0; 0; 0;
   0; 0; 0; 0; 0; 0; 0; 0; 0; 0; 0; 0; 0; 0; 0; 0;
   0; 0; 0; 0; 0; 0; 0; 0; 0; 0; 0; 0; 0; 0; 0; 0;
   0; 0; 0; 0; 0; 0; 0; 0; 0; 0; 0; 0; 0; 0; 0; 0;
   0; 0; 0; 0; 0; 0; 0; 0; 0; 0; 0; 0; 0; 0; 0; 0;
   0; 145; 199; 199; 199; 199; 199; 48; 0; 0; 0; 0; 0; 0; 0; 0;
   0; 176; 240; 240; 255; 255; 255; 68; 0; 0; 0; 0; 0; 0; 0; 0;
   0; 0; 0; 91; 253; 255; 184; 7; 0; 0; 0; 0; 0; 0; 0; 0;
   0; 0; 83; 252; 255; 188; 8; 0; 0; 0; 0; 0; 0; 0; 0; 0;
   0; 75; 250; 255; 192; 10; 0; 0; 0; 0; 0; 0; 0; 0; 0; 0;
   0; 247; 255; 255; 221; 209; 209; 76; 0; 0; 0; 0; 0; 0; 0; 0;
   0; 249; 255; 255; 255; 255; 255; 93; 0; 0; 0; 0; 0; 0; 0; 0;
   0; 0; 0; 0; 0; 0; 0; 0; 0; 0; 0; 0; 0; 0; 0; 0;
   0; 0; 0; 0; 0; 0; 0; 0; 0; 0; 0; 0; 0; 0; 0; 0;
   0; 0; 0; 0; 0; 0; 0; 0; 0; 0; 0; 0; 0; 0; 0; 0;
   0; 0; 0; 0; 0; 0; 0; 0; 0; 0; 0; 0; 0; 0; 0; 0].

(** platform/android-aarch64/art-shim/muplar_font.h:1644-1660 (muplar_font_alpha) *)
Definition glyph_123 : list Z :=
  [0; 0; 0; 0; 0; 0; 0; 0; 0; 0; 0; 0; 0; 0; 0; 0;
   0; 0; 0; 0; 0; 0; 0; 0; 0; 0; 0; 0; 0; 0; 0; 0;
   0; 0; 0; 11; 50; 3; 0; 0; 0; 0; 0; 0; 0; 0; 0; 0;
   0; 0; 57; 238; 255; 63; 0; 0; 0; 0; 0; 0; 0; 0; 0; 0;
   0; 0; 199; 255; 180; 20; 0; 0; 0; 0; 0; 0; 0; 0; 0; 0;
   0; 0; 226; 255; 67; 0; 0; 0; 0; 0; 0; 0; 0; 0; 0; 0;
   0; 4; 239; 255; 59; 0; 0; 0; 0; 0; 0; 0; 0; 0; 0; 0;
   1; 106; 255; 252; 22; 0; 0; 0; 0; 0; 0; 0; 0; 0; 0; 0;
   52; 255; 255; 124; 0; 0; 0; 0; 0; 0; 0; 0; 0; 0; 0; 0;
   8; 135; 255; 247; 11; 0; 0; 0; 0; 0; 0; 0; 0; 0; 0; 0;
   0; 6; 240; 255; 57; 0; 0; 0; 0; 0; 0; 0; 0; 0; 0; 0;
   0; 0; 226; 255; 62; 0; 0; 0; 0; 0; 0; 0; 0; 0; 0; 0;
   0; 0; 215; 255; 119; 0; 0; 0; 0; 0; 0; 0; 0; 0; 0; 0;
   0; 0; 117; 255; 254; 54; 0; 0; 0; 0; 0; 0; 0; 0; 0; 0;
   0; 0; 5; 78; 148; 30; 0; 0; 0; 0; 0; 0; 0; 0; 0; 0;
   0; 0; 0; 0; 0; 0; 0; 0; 0; 0; 0; 0; 0; 0; 0; 0].

(** platform/android-aarch64/art-shim/muplar_font.h:1661-1677 (muplar_font_alpha) *)
Definition glyph_124 : list Z :=
  [0; 0; 0; 0; 0; 0; 0; 0; 0; 0; 0; 0; 0; 0; 0; 0;
   0; 0; 0; 0; 0; 0; 0; 0; 0; 0; 0; 0; 0; 0; 0; 0;
   0; 16; 41; 16; 0; 0; 0; 0; 0; 0; 0; 0; 0; 0; 0; 0;
   0; 135; 255; 139; 0; 0; 0; 0; 0; 0; 0; 0; 0; 0; 0; 0;
   0; 136; 255; 140; 0; 0; 0; 0; 0; 0; 0; 0; 0; 0; 0; 0;
   0; 136; 255; 140; 0; 0; 0; 0; 0; 0; 0; 0; 0; 0; 0; 0;
   0; 136; 255; 140; 0; 0; 0; 0; 0; 0; 0; 0; 0; 0; 0; 0;
   0; 136; 255; 140; 0; 0; 0; 0; 0; 0; 0; 0; 0; 0; 0; 0;
   0; 136; 255; 140; 0; 0; 0; 0; 0; 0; 0; 0; 0; 0; 0; 0;
   0; 136; 255; 140; 0; 0; 0; 0; 0; 0; 0; 0; 0; 0; 0; 0;
   0; 136; 255; 140; 0; 0; 0; 0; 0; 0; 0; 0; 0; 0; 0; 0;
   0; 130; 255; 134; 0; 0; 0; 0; 0; 0; 0; 0; 0; 0; 0; 0;
   0; 0; 0; 0; 0; 0; 0; 0; 0; 0; 0; 0; 0; 0; 0; 0;
   0; 0; 0; 0; 0; 0; 0; 0; 0; 0; 0; 0; 0; 0; 0; 0;
   0; 0; 0; 0; 0; 0; 0; 0; 0; 0; 0; 0; 0; 0; 0; 0;
   0; 0; 0; 0; 0; 0; 0; 0; 0; 0; 0; 0; 0; 0; 0; 0].

(** platform/android-aarch64/art-shim/muplar_font.h:1678-1694 (muplar_font_alpha) *)
Definition glyph_125 : list Z :=
  [0; 0; 0; 0; 0; 0; 0; 0; 0; 0; 0; 0; 0; 0; 0; 0;
   0; 0; 0; 0; 0; 0; 0; 0; 0; 0; 0; 0; 0; 0; 0; 0;
   0; 40; 26; 0; 0; 0; 0; 0; 0; 0; 0; 0; 0; 0; 0; 0;
   0; 235; 252; 126; 0; 0; 0; 0; 0; 0; 0; 0; 0; 0; 0; 0;
   0; 115; 255; 254; 30; 0; 0; 0; 0; 0; 0; 0; 0; 0; 0; 0;
   0; 0; 239; 255; 54; 0; 0; 0; 0; 0; 0; 0; 0; 0; 0; 0;
   0; 0; 232; 255; 71; 0; 0; 0; 0; 0; 0; 0; 0; 0; 0; 0;
   0; 0; 182; 255; 173; 12; 0; 0; 0; 0; 0; 0; 0; 0; 0; 0;
   0; 0; 44; 255; 255; 136; 0; 0; 0; 0; 0; 0; 0; 0; 0; 0;
   0; 0; 173; 255; 197; 31; 0; 0; 0; 0; 0; 0; 0; 0; 0; 0;
   0; 0; 231; 255; 75; 0; 0; 0; 0; 0; 0; 0; 0; 0; 0; 0;
   0; 0; 235; 255; 54; 0; 0; 0; 0; 0; 0; 0; 0; 0; 0; 0;
   0; 37; 255; 255; 43; 0; 0; 0; 0; 0; 0; 0; 0; 0; 0; 0;
   0; 225; 255; 203; 0; 0; 0; 0; 0; 0; 0; 0; 0; 0; 0; 0;
   0; 134; 115; 22; 0; 0; 0; 0; 0; 0; 0; 0; 0; 0; 0; 0;
   0; 0; 0; 0; 0; 0; 0; 0; 0; 0; 0; 0; 0; 0; 0; 0].

(** platform/android-aarch64/art-shim/muplar_font.h:1695-1711 (muplar_font_alpha) *)
Definition glyph_126 : list Z :=
  [0; 0; 0; 0; 0; 0; 0; 0; 0; 0; 0; 0; 0; 0; 0; 0;
   0; 0; 0; 0; 0; 0; 0; 0; 0; 0; 0; 0; 0; 0; 0; 0;
   0; 0; 0; 0; 0; 0; 0; 0; 0; 0; 0; 0; 0; 0; 0; 0;
   0; 0; 0; 0; 0; 0; 0; 0; 0; 0; 0; 0; 0; 0; 0; 0;
   0; 0; 0; 0; 0; 0; 0; 0; 0; 0; 0; 0; 0; 0; 0; 0;
   0; 0; 0; 0; 0; 0; 0; 0; 0; 0; 0; 0; 0; 0; 0; 0;
   0; 0; 0; 0; 0; 0; 0; 0; 0; 0; 0; 0; 0; 0; 0; 0;
   0; 40; 188; 210; 157; 70; 16; 195; 207; 0; 0; 0; 0; 0; 0; 0;
   0; 203; 255; 255; 255; 255; 255; 255; 137; 0; 0; 0; 0; 0; 0; 0;
   22; 255; 183; 64; 136; 218; 254; 169; 23; 0; 0; 0; 0; 0; 0; 0;
   0; 36; 13; 0; 0; 0; 4; 0; 0; 0; 0; 0; 0; 0; 0; 0;
   0; 0; 0; 0; 0; 0; 0; 0; 0; 0; 0; 0; 0; 0; 0; 0;
   0; 0; 0; 0; 0; 0; 0; 0; 0; 0; 0; 0; 0; 0; 0; 0;
   0; 0; 0; 0; 0; 0; 0; 0; 0; 0; 0; 0; 0; 0; 0; 0;
   0; 0; 0; 0; 0; 0; 0; 0; 0; 0; 0; 0; 0; 0; 0; 0;
   0; 0; 0; 0; 0; 0; 0; 0; 0; 0; 0; 0; 0; 0; 0; 0].

(** platform/android-aarch64/art-shim/muplar_font.h:112-113 (muplar_font_alpha) *)
Definition muplar_font_alpha : list (list Z) :=
  [glyph_32; glyph_33; glyph_34; glyph_35; glyph_36; glyph_37; glyph_38; glyph_39;
   glyph_40; glyph_41; glyph_42; glyph_43; glyph_44; glyph_45; glyph_46; glyph_47;
   glyph_48; glyph_49; glyph_50; glyph_51; glyph_52; glyph_53; glyph_54; glyph_55;
   glyph_56; glyph_57; glyph_58; glyph_59; glyph_60; glyph_61; glyph_62; glyph_63;
   glyph_64; glyph_65; glyph_66; glyph_67; glyph_68; glyph_69; glyph_70; glyph_71;
   glyph_72; glyph_73; glyph_74; glyph_75; glyph_76; glyph_77; glyph_78; glyph_79;
   glyph_80; glyph_81; glyph_82; glyph_83; glyph_84; glyph_85; glyph_86; glyph_87;
   glyph_88; glyph_89; glyph_90; glyph_91; glyph_92; glyph_93; glyph_94; glyph_95;
   glyph_96; glyph_97; glyph_98; glyph_99; glyph_100; glyph_101; glyph_102; glyph_103;
   glyph_104; glyph_105; glyph_106; glyph_107; glyph_108; glyph_109; glyph_110; glyph_111;
   glyph_112; glyph_113; glyph_114; glyph_115; glyph_116; glyph_117; glyph_118; glyph_119;
   glyph_120; glyph_121; glyph_122; glyph_123; glyph_124; glyph_125; glyph_126].

(** The shape the drawing code relies on: an advance and a mask of 256 bytes
    for every character. *)
Lemma font_ok :
  length muplar_font_advances = 95%nat ∧ length muplar_font_alpha = 95%nat ∧
  Forall (λ g, length g = 256%nat ∧ bytes g) muplar_font_alpha.
Proof.
  assert (forallb (λ g, (length g =? 256)%nat && forallb (λ b, (0 <=? b) && (b <? 256)) g)
            muplar_font_alpha = true) as H by (vm_compute; reflexivity).
  split_and!; [reflexivity..|].
  rewrite forallb_forall in H. apply Forall_forall. intros g Hg. apply list_elem_of_In in Hg.
  specialize (H g Hg). apply andb_true_iff in H as [Hl Hb]. apply Nat.eqb_eq in Hl. split; [exact Hl|].
  rewrite forallb_forall in Hb. apply Forall_forall. intros b Hin. apply list_elem_of_In in Hin.
  specialize (Hb b Hin). unfold in_u8. lia.
Qed.
