(* ===== verification/ShimPng.v ===== *)
(** * The PNG encoder of the Android shim

    platform/android-aarch64/art-shim/muplar_android_art_shim.c:936-1157: a
    growable byte buffer, the two checksums, and the encoding of a bitmap as a
    PNG file with stored deflate blocks.  The allocator is a parameter: whether
    the [n]th call of realloc succeeds.  Definitions only; ShimPngProps has the
    decoder and the proofs. *)

From S2P Require Import Prelude Machine.

(** The largest [size_t]. *)
Definition SIZE_MAX : Z := 18446744073709551615.

(** platform/android-aarch64/art-shim/muplar_android_art_shim.c:936-941 (muplar_byte_buffer)
    The first [len] bytes of the data, the capacity and the flag. *)
Record byte_buffer := { bb_data : list Z; bb_cap : Z; bb_ok : bool }.
Definition bb_len (b : byte_buffer) : Z := Z.of_nat (length (bb_data b)).

(** A zero-initialised buffer with [ok] set. *)
Definition bb_empty : byte_buffer := {| bb_data := []; bb_cap := 0; bb_ok := true |}.

Section Buffer.
(** Whether a call of realloc succeeds: its number and its size. *)
Variable realloc_ok : nat → Z → bool.

(** The state is the number of calls made. *)
Definition H := M nat.

(** platform/android-aarch64/art-shim/muplar_android_art_shim.c:956-962 (muplar_buf_reserve)
    The doubling; 64 steps reach any size. *)
Fixpoint grow_cap (fuel : nat) (next want : Z) : option Z :=
  if want <=? next then Some next else
  match fuel with
  | O => None
  | S fuel => if SIZE_MAX / 2 <? next then Some want else grow_cap fuel (next * 2) want
  end.

(** platform/android-aarch64/art-shim/muplar_android_art_shim.c:943-971 (muplar_buf_reserve) *)
Definition muplar_buf_reserve (b : byte_buffer) (extra : Z) : H (byte_buffer * bool) :=
  if negb (bb_ok b) then mret (b, false) else
  let broken := {| bb_data := bb_data b; bb_cap := bb_cap b; bb_ok := false |} in
  if SIZE_MAX - bb_len b <? extra then mret (broken, false) else
  if bb_len b + extra <=? bb_cap b then mret (b, true) else
  match grow_cap 64 (if bb_cap b =? 0 then 4096 else bb_cap b) (bb_len b + extra) with
  | None => out_of_fuel
  | Some next =>
      n ← get; put (S n) ≫= λ _,
      if realloc_ok n next
      then mret ({| bb_data := bb_data b; bb_cap := next; bb_ok := true |}, true)
      else mret (broken, false)
  end.

(** platform/android-aarch64/art-shim/muplar_android_art_shim.c:973-981 (muplar_buf_append) *)
Definition muplar_buf_append (b : byte_buffer) (data : list Z) : H byte_buffer :=
  '(b, r) ← muplar_buf_reserve b (Z.of_nat (length data));
  mret (if (r : bool)
        then {| bb_data := bb_data b ++ data; bb_cap := bb_cap b; bb_ok := bb_ok b |} else b).

(** platform/android-aarch64/art-shim/muplar_android_art_shim.c:983-986 (muplar_buf_u8) *)
Definition muplar_buf_u8 (b : byte_buffer) (value : Z) : H byte_buffer :=
  muplar_buf_append b [u8 value].

(** platform/android-aarch64/art-shim/muplar_android_art_shim.c:988-996 (muplar_buf_be32) *)
Definition be32 (value : Z) : list Z :=
  [u8 (Z.shiftr value 24); u8 (Z.shiftr value 16); u8 (Z.shiftr value 8); u8 value].
Definition muplar_buf_be32 (b : byte_buffer) (value : Z) : H byte_buffer :=
  muplar_buf_append b (be32 value).

(** ** Checksums *)

(** platform/android-aarch64/art-shim/muplar_android_art_shim.c:1007-1008 (muplar_crc32_update) *)
Definition crc_bit (crc : Z) : Z :=
  Z.lxor (Z.shiftr crc 1) (if negb (Z.land crc 1 =? 0) then 0xedb88320 else 0).
(** platform/android-aarch64/art-shim/muplar_android_art_shim.c:1007-1008 (muplar_crc32_update) *)
Fixpoint crc_bits (n : nat) (crc : Z) : Z :=
  match n with O => crc | S n => crc_bits n (crc_bit crc) end.
(** platform/android-aarch64/art-shim/muplar_android_art_shim.c:1005-1009 (muplar_crc32_update) *)
Definition crc_byte (crc byte : Z) : Z := crc_bits 8 (Z.lxor crc byte).
(** platform/android-aarch64/art-shim/muplar_android_art_shim.c:998-1011 (muplar_crc32_update) *)
Definition muplar_crc32_update (crc : Z) (data : list Z) : Z :=
  u32 (Z.lnot (foldl crc_byte (u32 (Z.lnot crc)) data)).

(** platform/android-aarch64/art-shim/muplar_android_art_shim.c:1018-1021 (muplar_adler32) *)
Definition adler_step (ab : Z * Z) (d : Z) : Z * Z :=
  let a := (ab.1 + d) mod 65521 in (a, (ab.2 + a) mod 65521).
(** platform/android-aarch64/art-shim/muplar_android_art_shim.c:1013-1023 (muplar_adler32) *)
Definition muplar_adler32 (data : list Z) : Z :=
  let '(a, b) := foldl adler_step (1, 0) data in Z.lor (u32 (Z.shiftl b 16)) a.

(** platform/android-aarch64/art-shim/muplar_android_art_shim.c:1025-1039 (muplar_png_chunk) *)
Definition muplar_png_chunk (png : byte_buffer) (type data : list Z) : H byte_buffer :=
  let len := Z.of_nat (length data) in
  png ← muplar_buf_be32 png (u32 len);
  png ← muplar_buf_append png type;
  png ← (if negb (len =? 0) then muplar_buf_append png data else mret png);
  let crc := muplar_crc32_update 0 type in
  let crc := if negb (len =? 0) then muplar_crc32_update crc data else crc in
  muplar_buf_be32 png crc.

(** ** The pixels *)

(** A bitmap: [pixels] is the array, none when the pointer is null. *)
Record bitmap := { bm_width : Z; bm_height : Z; bm_pixels : option (list Z) }.

(** platform/android-aarch64/art-shim/muplar_android_art_shim.c:1041-1056 (muplar_bitmap_is_uniform) *)
Definition muplar_bitmap_is_uniform (b : bitmap) : bool :=
  match bm_pixels b with
  | None => true
  | Some [] => true
  | Some (first :: rest) => forallb (λ p, p =? first) rest
  end.

(** platform/android-aarch64/art-shim/muplar_android_art_shim.c:1058-1078 (muplar_sample_pixel)
    A test pattern stands for a bitmap of one colour. *)
Definition muplar_sample_pixel (b : bitmap) (x y : Z) (uniform : bool) : option Z :=
  match bm_pixels b with
  | None => Some 0xffffffff
  | Some px =>
      color ← px !! Z.to_nat (y * bm_width b + x);
      Some (
        if negb uniform then color
        else if y <? 96 then 0xff263238
        else if bm_height b - 120 <? y then 0xff111111
        else if (x / 96 + y / 96) mod 3 =? 0 then 0xff4c8bf5
        else if (x / 96 + y / 96) mod 3 =? 1 then 0xff34a853
        else if color =? 0 then 0xffeeeeee else color)
  end.

(** ** The encoder *)

(** Run [f] on the elements of a list, in order. *)
Fixpoint buf_fold {A} (f : A → byte_buffer → H byte_buffer) (l : list A) (b : byte_buffer) :
    H byte_buffer :=
  match l with
  | [] => mret b
  | a :: l => b ← f a b; buf_fold f l b
  end.

(** platform/android-aarch64/art-shim/muplar_android_art_shim.c:1106-1111 (muplar_bitmap_to_png) *)
Definition raw_pixel (bm : bitmap) (uniform : bool) (y x : Z) (raw : byte_buffer) : H byte_buffer :=
  color ← lift (muplar_sample_pixel bm x y uniform);
  raw ← muplar_buf_u8 raw (Z.shiftr color 16);
  raw ← muplar_buf_u8 raw (Z.shiftr color 8);
  muplar_buf_u8 raw color.

(** platform/android-aarch64/art-shim/muplar_android_art_shim.c:1104-1112 (muplar_bitmap_to_png) *)
Definition raw_row (bm : bitmap) (uniform : bool) (y : Z) (raw : byte_buffer) : H byte_buffer :=
  raw ← muplar_buf_u8 raw 0;
  buf_fold (raw_pixel bm uniform y) (seqZ 0 (bm_width bm)) raw.

(** platform/android-aarch64/art-shim/muplar_android_art_shim.c:1117-1128 (muplar_bitmap_to_png)
    The stored blocks of the bytes that remain. *)
Fixpoint stored_blocks (fuel : nat) (raw : list Z) (idat : byte_buffer) : H byte_buffer :=
  let remaining := Z.of_nat (length raw) in
  if remaining =? 0 then mret idat else
  match fuel with
  | O => out_of_fuel
  | S fuel =>
      let block := if 65535 <? remaining then 65535 else u16 remaining in
      let final := if remaining <=? 65535 then 1 else 0 in
      idat ← muplar_buf_u8 idat final;
      idat ← muplar_buf_u8 idat block;
      idat ← muplar_buf_u8 idat (Z.shiftr block 8);
      idat ← muplar_buf_u8 idat (Z.lnot block);
      idat ← muplar_buf_u8 idat (Z.shiftr (Z.lnot block) 8);
      idat ← muplar_buf_append idat (take (Z.to_nat block) raw);
      stored_blocks fuel (drop (Z.to_nat block) raw) idat
  end.

Definition png_sig : list Z := [0x89; 80; 78; 71; 13; 10; 0x1a; 10].
(** platform/android-aarch64/art-shim/muplar_android_art_shim.c:1133-1145 (muplar_bitmap_to_png) *)
Definition ihdr (w h : Z) : list Z := be32 w ++ be32 h ++ [8; 2; 0; 0; 0].

(** platform/android-aarch64/art-shim/muplar_android_art_shim.c:1080-1157 (muplar_bitmap_to_png)
    The returned flag and the buffer.  [png] may hold bytes already. *)
Definition muplar_bitmap_to_png (bm : bitmap) (png : byte_buffer) : H (bool * byte_buffer) :=
  match bm_pixels bm with
  | None => mret (false, png)
  | Some _ =>
      if (bm_width bm <=? 0) || (bm_height bm <=? 0) then mret (false, png) else
      let png := {| bb_data := bb_data png; bb_cap := bb_cap png; bb_ok := true |} in
      let row_bytes := u64 (bm_width bm * 3 + 1) in
      '(raw, r) ← muplar_buf_reserve bb_empty (u64 (row_bytes * bm_height bm));
      if negb (r : bool) then mret (false, png) else
      let uniform := muplar_bitmap_is_uniform bm in
      raw ← buf_fold (raw_row bm uniform) (seqZ 0 (bm_height bm)) raw;
      idat ← muplar_buf_u8 bb_empty 0x78;
      idat ← muplar_buf_u8 idat 0x01;
      idat ← stored_blocks (length (bb_data raw)) (bb_data raw) idat;
      idat ← muplar_buf_be32 idat (muplar_adler32 (bb_data raw));
      png ← muplar_buf_append png png_sig;
      png ← muplar_png_chunk png (cs "IHDR") (ihdr (bm_width bm) (bm_height bm));
      png ← muplar_png_chunk png (cs "IDAT") (bb_data idat);
      png ← muplar_png_chunk png (cs "IEND") [];
      mret (bb_ok png, png)
  end.
End Buffer.
