(* ===== verification/ShimRaster.v ===== *)
(** * Drawing into bitmaps

    platform/android-aarch64/art-shim/muplar_android_art_shim.c:849-934,
    6300-6378 and 6532-6679: rectangles, circles, text and scaled copies.  The
    functions work on the bitmap table, since source and target of a copy can
    be the same bitmap; an access outside of a pixel array, an [int] that
    overflows and a conversion out of range have no result.  Definitions only;
    RasterProps has the proofs. *)

From S2P Require Import Prelude Machine Float32 ShimTables ShimFont.

Abbreviation table := (list bitmap_state).

Definition with_pixels (b : bitmap_state) (px : list Z) : bitmap_state :=
  BitmapState (bs_token b) (bs_width b) (bs_height b) (bs_bpp b) (bs_config b) (Some px).

(** [pixels[(size_t) y * (size_t) width + (size_t) x]]. *)
Definition pixel_index (b : bitmap_state) (x y : Z) : Z := u64 (u64 y * u64 (bs_width b) + u64 x).
Definition get_pixel (t : table) (i : nat) (x y : Z) : option Z :=
  b ← t !! i; px ← bs_pixels b; px !! Z.to_nat (pixel_index b x y).
Definition set_pixel (t : table) (i : nat) (x y v : Z) : option table :=
  b ← t !! i;
  px ← bs_pixels b;
  let k := Z.to_nat (pixel_index b x y) in
  if (k <? length px)%nat then Some (<[i := with_pixels b (<[k := v]> px)]> t) else None.

(** [for (z = lo; z < hi; z++)]. *)
Fixpoint loop {A} (f : Z → A → option A) (l : list Z) (a : A) : option A :=
  match l with [] => Some a | z :: l => a ← f z a; loop f l a end.
Definition for_range {A} (lo hi : Z) (f : Z → A → option A) (a : A) : option A :=
  loop f (seqZ lo (hi - lo)) a.

(** An [int] computation. *)
Definition ck (z : Z) : option Z :=
  if (-2147483648 <=? z) && (z <=? 2147483647) then Some z else None.

(** The bytes of a colour. *)
Definition alpha_of (c : Z) : Z := Z.land (Z.shiftr c 24) 0xff.
Definition red_of (c : Z) : Z := Z.land (Z.shiftr c 16) 0xff.
Definition green_of (c : Z) : Z := Z.land (Z.shiftr c 8) 0xff.
Definition blue_of (c : Z) : Z := Z.land c 0xff.
Definition pack (a r g b : Z) : Z :=
  Z.lor (Z.lor (Z.lor (u32 (Z.shiftl a 24)) (Z.shiftl r 16)) (Z.shiftl g 8)) b.

(** platform/android-aarch64/art-shim/muplar_android_art_shim.c:892-894 (muplar_fill_rect)
    A channel [s] over a channel [d]. *)
Definition mix (s d a : Z) : Z := u32 (s * a + d * (255 - a)) / 255.

(** ** Rectangles *)

(** platform/android-aarch64/art-shim/muplar_android_art_shim.c:886-897 (muplar_fill_rect) *)
Definition blend_pixel (i : nat) (color : Z) (x y : Z) (t : table) : option table :=
  dst ← get_pixel t i x y;
  let a := alpha_of color in
  set_pixel t i x y
    (pack 0xff (mix (red_of color) (red_of dst) a) (mix (green_of color) (green_of dst) a)
       (mix (blue_of color) (blue_of dst) a)).

(** platform/android-aarch64/art-shim/muplar_android_art_shim.c:849-899 (muplar_fill_rect) *)
Definition muplar_fill_rect (i : nat) (left top right bottom color : Z) (t : table) : option table :=
  b ← t !! i;
  match bs_pixels b with
  | None => Some t
  | Some _ =>
      let left := if left <? 0 then 0 else left in
      let top := if top <? 0 then 0 else top in
      let right := if bs_width b <? right then bs_width b else right in
      let bottom := if bs_height b <? bottom then bs_height b else bottom in
      if (right <=? left) || (bottom <=? top) then Some t else
      if alpha_of color =? 0 then Some t else
      if alpha_of color =? 255 then
        for_range top bottom (λ y, for_range left right (λ x t, set_pixel t i x y color)) t
      else
        for_range top bottom (λ y, for_range left right (λ x t, blend_pixel i color x y t)) t
  end.

(** ** Circles *)

Definition half : f32 := f32_lit 1 2.
(** platform/android-aarch64/art-shim/muplar_android_art_shim.c:924-931 (muplar_fill_circle) *)
Definition in_circle (cx cy r2 : f32) (x y : Z) : bool :=
  let dx := fsub (fadd (f32_of_Z x) half) cx in
  let dy := fsub (fadd (f32_of_Z y) half) cy in
  fle (fadd (fmul dx dx) (fmul dy dy)) r2.
(** platform/android-aarch64/art-shim/muplar_android_art_shim.c:901-934 (muplar_fill_circle) *)
Definition muplar_fill_circle (i : nat) (cx cy radius : f32) (color : Z) (t : table) : option table :=
  left ← muplar_floor_to_int (fsub cx radius);
  top ← muplar_floor_to_int (fsub cy radius);
  right ← muplar_ceil_to_int (fadd cx radius);
  bottom ← muplar_ceil_to_int (fadd cy radius);
  let r2 := fmul radius radius in
  if fle radius (S754_zero false) then Some t else
  b ← t !! i;
  let left := if left <? 0 then 0 else left in
  let top := if top <? 0 then 0 else top in
  let right := if bs_width b <? right then bs_width b else right in
  let bottom := if bs_height b <? bottom then bs_height b else bottom in
  for_range top bottom (λ y, for_range left right (λ x t,
    if in_circle cx cy r2 x y then set_pixel t i x y color else Some t)) t.

(** ** Text *)

(** platform/android-aarch64/art-shim/muplar_android_art_shim.c:6356-6374 (muplar_draw_text) *)
Definition glyph_pixel (i : nat) (tr tg tb base_alpha ga : Z) (px py : Z) (t : table) : option table :=
  let a := ga * base_alpha / 255 in
  dp ← get_pixel t i px py;
  set_pixel t i px py
    (pack (a + alpha_of dp * (255 - a) / 255) (mix tr (red_of dp) a) (mix tg (green_of dp) a)
       (mix tb (blue_of dp) a)).

(** platform/android-aarch64/art-shim/muplar_android_art_shim.c:6346-6377 (muplar_draw_text) *)
Definition draw_glyph (i : nat) (f : frame) (tr tg tb base_alpha : Z) (glyph : list Z) (gx gy : Z)
    (t : table) : option table :=
  b ← t !! i;
  for_range 0 MUPLAR_FONT_H (λ r t,
    let py := gy + r in
    if (py <? f_top f) || (f_bottom f <=? py) || (py <? 0) || (bs_height b <=? py) then Some t else
    for_range 0 MUPLAR_FONT_W (λ col t,
      let px := gx + col in
      if (px <? f_left f) || (f_right f <=? px) || (px <? 0) || (bs_width b <=? px) then Some t else
      ga ← glyph !! Z.to_nat (r * MUPLAR_FONT_W + col);
      if ga =? 0 then Some t else glyph_pixel i tr tg tb base_alpha ga px py t) t) t.

(** platform/android-aarch64/art-shim/muplar_android_art_shim.c:6334-6335 (muplar_draw_text) *)
Definition glyph_index (ch : Z) : Z :=
  if (MUPLAR_FONT_FIRST_CHAR <=? ch) && (ch <=? MUPLAR_FONT_LAST_CHAR)
  then ch - MUPLAR_FONT_FIRST_CHAR else 63 - MUPLAR_FONT_FIRST_CHAR.

(** platform/android-aarch64/art-shim/muplar_android_art_shim.c:6328-6377 (muplar_draw_text)
    The characters from [cur_x] on. *)
Fixpoint draw_chars (i : nat) (f : frame) (tr tg tb base_alpha : Z) (text : list Z) (cur_x y : f32)
    (t : table) : option table :=
  match text with
  | [] => Some t
  | ch :: text =>
      if (ch =? 13) || (ch =? 10) then draw_chars i f tr tg tb base_alpha text cur_x y t else
      let idx := Z.to_nat (glyph_index ch) in
      adv ← muplar_font_advances !! idx;
      glyph ← muplar_font_alpha !! idx;
      gx ← muplar_floor_to_int (fadd (fmul cur_x (f_sx f)) (f_tx f));
      gy ← muplar_floor_to_int (fadd (fmul (fsub y (f32_of_Z 11)) (f_sy f)) (f_ty f));
      t ← draw_glyph i f tr tg tb base_alpha glyph gx gy t;
      draw_chars i f tr tg tb base_alpha text (fadd cur_x (f32_of_Z adv)) y t
  end.

(** platform/android-aarch64/art-shim/muplar_android_art_shim.c:6300-6327 (muplar_draw_text)
    The text on the bitmap [i], seen through the frame of a canvas. *)
Definition draw_text_on (i : nat) (f : frame) (text : list Z) (x y : f32) (text_color : Z)
    (t : table) : option table :=
  b ← t !! i;
  match bs_pixels b, text with
  | None, _ | _, [] => Some t
  | Some _, _ =>
      let hint := bool_decide (text = cs "null") in
      let text := if hint then cs "Search apps..." else text in
      let ch c := if hint then 128 else c in
      let base_alpha := if alpha_of text_color =? 0 then 255 else alpha_of text_color in
      draw_chars i f (ch (red_of text_color)) (ch (green_of text_color)) (ch (blue_of text_color))
        base_alpha text x y t
  end.

(** ** Scaled copies *)

(** platform/android-aarch64/art-shim/muplar_android_art_shim.c:6532-6557 (muplar_blit_bitmap)
    What the paint says: the colour of its filter and its alpha. *)
Record blit_paint := BlitPaint { bp_filter : option Z; bp_alpha : Z }.
(** platform/android-aarch64/art-shim/muplar_android_art_shim.c:6551-6557 (muplar_blit_bitmap) *)
Definition blit_paint_of (paint : Z) (s : shim) : blit_paint :=
  let p := the_paint paint s in
  let f := match p with
           | Some p => if pt_filter p =? 0 then None else the_filter (pt_filter p) s
           | None => None
           end in
  BlitPaint (fl_color <$> f)
    (match p with
     | Some p => if pt_color p =? 0 then 255 else alpha_of (u32 (pt_color p))
     | None => 255
     end).

(** platform/android-aarch64/art-shim/muplar_android_art_shim.c:6576-6581 (muplar_blit_bitmap)
    The rounded square of a launcher icon: centre, half sides, radius. *)
Record squircle := Squircle { sq_cx : f32; sq_cy : f32; sq_hw : f32; sq_hh : f32; sq_r : f32 }.
(** platform/android-aarch64/art-shim/muplar_android_art_shim.c:6576-6581 (muplar_blit_bitmap) *)
Definition squircle_of (dst_x dst_y dst_w dst_h : Z) : squircle :=
  let w := f32_of_Z dst_w in
  let h := f32_of_Z dst_h in
  Squircle (fadd (f32_of_Z dst_x) (fmul w half)) (fadd (f32_of_Z dst_y) (fmul h half))
    (fmul w (f32_lit 495 1000)) (fmul h (f32_lit 495 1000))
    (fmul (if flt w h then w else h) (f32_lit 22 100)).

Definition sq_off (c : f32) (p : Z) : f32 := fabs (fsub (fadd (f32_of_Z p) half) c).
(** platform/android-aarch64/art-shim/muplar_android_art_shim.c:6603-6609 (muplar_blit_bitmap)
    The distance from the centre of a corner, in the corners. *)
Definition sq_dist (q : squircle) (px py : Z) : option f32 :=
  let ox := sq_off (sq_cx q) px in
  let oy := sq_off (sq_cy q) py in
  let ex := fsub (sq_hw q) (sq_r q) in
  let ey := fsub (sq_hh q) (sq_r q) in
  if flt ex ox && flt ey oy then
    let cdx := fsub ox ex in
    let cdy := fsub oy ey in
    Some (fsqrt (fadd (fmul cdx cdx) (fmul cdy cdy)))
  else None.
(** platform/android-aarch64/art-shim/muplar_android_art_shim.c:6598-6611 (muplar_blit_bitmap)
    Whether a pixel is outside. *)
Definition sq_outside (q : squircle) (px py : Z) : bool :=
  fle (sq_hw q) (sq_off (sq_cx q) px) || fle (sq_hh q) (sq_off (sq_cy q) py) ||
  match sq_dist q px py with Some dist => fle (sq_r q) dist | None => false end.

(** [(uint8_t) x]. *)
Definition f32_to_u8 (x : f32) : option Z :=
  z ← f32_to_int x; if (0 <=? z) && (z <=? 255) then Some z else None.
(** platform/android-aarch64/art-shim/muplar_android_art_shim.c:6622-6639 (muplar_blit_bitmap)
    The alpha near the rim. *)
Definition sq_alpha (q : squircle) (px py alpha : Z) : option Z :=
  match sq_dist q px py with
  | Some dist =>
      if flt (fsub (sq_r q) (f32_of_Z 1)) dist then
        let mask_a := fsub (sq_r q) dist in
        let mask_a := if flt mask_a (S754_zero false) then S754_zero false else mask_a in
        let mask_a := if flt (f32_of_Z 1) mask_a then f32_of_Z 1 else mask_a in
        f32_to_u8 (fmul (f32_of_Z alpha) mask_a)
      else Some alpha
  | None => Some alpha
  end.

(** platform/android-aarch64/art-shim/muplar_android_art_shim.c:6641-6649 (muplar_blit_bitmap)
    Apply the paint to a colour: the alpha and the colour to write. *)
Definition blit_tint (bp : blit_paint) (alpha src_color : Z) : Z * Z :=
  let alpha := if bp_alpha bp <? 255 then u8 (alpha * bp_alpha bp / 255) else alpha in
  match bp_filter bp with
  | Some color =>
      if color =? 0 then
        (alpha, if bp_alpha bp <? 255
                then Z.lor (u32 (Z.shiftl alpha 24)) (Z.land src_color 0x00ffffff) else src_color)
      else
        let alpha := u8 (alpha * alpha_of (u32 color) / 255) in
        (alpha, Z.lor (u32 (Z.shiftl alpha 24)) (Z.land (u32 color) 0x00ffffff))
  | None =>
      (alpha, if bp_alpha bp <? 255
              then Z.lor (u32 (Z.shiftl alpha 24)) (Z.land src_color 0x00ffffff) else src_color)
  end.

(** platform/android-aarch64/art-shim/muplar_android_art_shim.c:6613-6668 (muplar_blit_bitmap)
    One pixel that is inside the target: from (sx, sy) of the source. *)
Definition blit_pixel (dst src : nat) (bp : blit_paint) (q : option squircle) (sx sy px py : Z)
    (t : table) : option table :=
  src_color ← get_pixel t src sx sy;
  let alpha := u8 (Z.shiftr src_color 24) in
  if alpha =? 0 then Some t else
  alpha' ← match q with Some q => sq_alpha q px py alpha | None => Some alpha end;
  if alpha' =? 0 then Some t else
  let '(alpha, src_color) := blit_tint bp alpha' src_color in
  if alpha =? 255 then set_pixel t dst px py src_color else
  dst_color ← get_pixel t dst px py;
  set_pixel t dst px py
    (pack 0xff (mix (red_of src_color) (red_of dst_color) alpha)
       (mix (green_of src_color) (green_of dst_color) alpha)
       (mix (blue_of src_color) (blue_of dst_color) alpha)).

(** platform/android-aarch64/art-shim/muplar_android_art_shim.c:6532-6679 (muplar_blit_bitmap)
    The count of non-zero pixels is only printed, and not modelled. *)
Definition muplar_blit_bitmap (dst src : nat) (dst_x dst_y dst_w dst_h src_x src_y src_w src_h : Z)
    (clip : frame) (bp : blit_paint) (mask_squircle : bool) (t : table) : option table :=
  d ← t !! dst;
  sb ← t !! src;
  match bs_pixels d, bs_pixels sb with
  | Some _, Some _ =>
      if (dst_w <=? 0) || (dst_h <=? 0) || (src_w <=? 0) || (src_h <=? 0) then Some t else
      let q := if mask_squircle then Some (squircle_of dst_x dst_y dst_w dst_h) else None in
      for_range 0 dst_h (λ y t,
        py ← ck (dst_y + y);
        if (py <? f_top clip) || (f_bottom clip <=? py) || (py <? 0) || (bs_height d <=? py)
        then Some t else
        sy ← ck (src_y + y * src_h / dst_h);
        if (sy <? 0) || (bs_height sb <=? sy) then Some t else
        for_range 0 dst_w (λ x t,
          px ← ck (dst_x + x);
          if (px <? f_left clip) || (f_right clip <=? px) || (px <? 0) || (bs_width d <=? px)
          then Some t else
          if match q with Some q => sq_outside q px py | None => false end then Some t else
          sx ← ck (src_x + x * src_w / dst_w);
          if (sx <? 0) || (bs_width sb <=? sx) then Some t else
          blit_pixel dst src bp q sx sy px py t) t) t
  | _, _ => Some t
  end.
