(* ===== verification/ShimCanvas.v ===== *)
(** * The natives of android.graphics.Canvas

    platform/android-aarch64/art-shim/muplar_android_art_shim.c:5545-6530 and
    6681-6812: the stack of saved states, the transformation, the clip and the
    drawing calls.  The contents of Java strings and arrays are arguments;
    [None] stands for a null reference.  Natives that ignore their arguments
    are not listed. *)

From S2P Require Import Prelude Machine Float32 ShimTables ShimRaster.

Definition set_now (f : frame) (c : canvas_state) : canvas_state :=
  CanvasState (cv_token c) (cv_bitmap c) f (cv_depth c) (cv_stack c).
(** Change the canvas of a token, if there is one. *)
Definition upd_canvas (token : Z) (f : canvas_state → canvas_state) : Sh () :=
  s ← get;
  match muplar_canvas_for_drawing token s with
  | Some i => put (set_canvases (alter f i (canvases s)) s)
  | None => mret ()
  end.

(** platform/android-aarch64/art-shim/muplar_android_art_shim.c:5545-5561 (Java_android_graphics_Canvas_nInitRaster) *)
Definition Canvas_nInitRaster (bitmap : Z) : Sh Z :=
  i ← muplar_alloc_canvas bitmap;
  s ← get; lift (cv_token <$> canvases s !! i).

(** ** The stack *)

(** platform/android-aarch64/art-shim/muplar_android_art_shim.c:5569-5579 (Java_android_graphics_Canvas_nSave) *)
Definition save (c : canvas_state) : canvas_state :=
  if (cv_depth c <? 512)%nat
  then CanvasState (cv_token c) (cv_bitmap c) (cv_now c) (S (cv_depth c))
         (<[cv_depth c := cv_now c]> (cv_stack c))
  else c.
(** platform/android-aarch64/art-shim/muplar_android_art_shim.c:5586-5596 (Java_android_graphics_Canvas_nRestore) *)
Definition restore (c : canvas_state) : canvas_state :=
  match cv_depth c with
  | O => c
  | S d => CanvasState (cv_token c) (cv_bitmap c) (default no_frame (cv_stack c !! d)) d (cv_stack c)
  end.
(** platform/android-aarch64/art-shim/muplar_android_art_shim.c:5605-5615 (Java_android_graphics_Canvas_nRestoreToCount)
    The depth bounds the rounds. *)
Fixpoint restore_to (fuel : nat) (save_count : Z) (c : canvas_state) : canvas_state :=
  match fuel with
  | O => c
  | S fuel =>
      if (save_count <=? Z.of_nat (cv_depth c)) && (0 <? Z.of_nat (cv_depth c))
      then restore_to fuel save_count (restore c) else c
  end.

(** platform/android-aarch64/art-shim/muplar_android_art_shim.c:5563-5581 (Java_android_graphics_Canvas_nSave) *)
Definition Canvas_nSave (canvas : Z) : Sh Z :=
  c ← gets (the_canvas canvas);
  match c with
  | None => mret 1
  | Some c => upd_canvas canvas save ≫= λ _, mret (Z.of_nat (cv_depth (save c)))
  end.
(** platform/android-aarch64/art-shim/muplar_android_art_shim.c:5583-5598 (Java_android_graphics_Canvas_nRestore) *)
Definition Canvas_nRestore (canvas : Z) : Sh Z := upd_canvas canvas restore ≫= λ _, mret 1.
(** platform/android-aarch64/art-shim/muplar_android_art_shim.c:5600-5616 (Java_android_graphics_Canvas_nRestoreToCount) *)
Definition Canvas_nRestoreToCount (canvas save_count : Z) : Sh () :=
  upd_canvas canvas (λ c, restore_to (cv_depth c) save_count c).
(** platform/android-aarch64/art-shim/muplar_android_art_shim.c:5618-5622 (Java_android_graphics_Canvas_nGetSaveCount) *)
Definition Canvas_nGetSaveCount (canvas : Z) : Sh Z :=
  gets (λ s, match the_canvas canvas s with Some c => Z.of_nat (cv_depth c) + 1 | None => 1 end).

(** ** Transformation and clip *)

(** A point of the canvas in the bitmap. *)
Definition map_x (f : frame) (x : f32) : f32 := fadd (fmul x (f_sx f)) (f_tx f).
Definition map_y (f : frame) (y : f32) : f32 := fadd (fmul y (f_sy f)) (f_ty f).

(** platform/android-aarch64/art-shim/muplar_android_art_shim.c:5656-5672 (Java_android_graphics_Canvas_nClipRect) *)
Definition clip_frame (f : frame) (cl ct cr cb : Z) : frame :=
  Frame (f_tx f) (f_ty f) (f_sx f) (f_sy f)
    (if f_left f <? cl then cl else f_left f) (if f_top f <? ct then ct else f_top f)
    (if cr <? f_right f then cr else f_right f) (if cb <? f_bottom f then cb else f_bottom f).
(** platform/android-aarch64/art-shim/muplar_android_art_shim.c:5645-5676 (Java_android_graphics_Canvas_nClipRect) *)
Definition Canvas_nClipRect (canvas : Z) (left top right bottom : f32) : Sh Z :=
  c ← gets (the_canvas canvas);
  match c with
  | None => mret 1
  | Some c =>
      let f := cv_now c in
      cl ← lift (muplar_floor_to_int (map_x f left));
      ct ← lift (muplar_floor_to_int (map_y f top));
      cr ← lift (muplar_ceil_to_int (map_x f right));
      cb ← lift (muplar_ceil_to_int (map_y f bottom));
      let f' := clip_frame f cl ct cr cb in
      upd_canvas canvas (set_now f') ≫= λ _,
      mret (if (f_left f' <? f_right f') && (f_top f' <? f_bottom f') then 1 else 0)
  end.

(** platform/android-aarch64/art-shim/muplar_android_art_shim.c:5706-5719 (Java_android_graphics_Canvas_nGetClipBounds)
    The clip in the coordinates of the canvas. *)
Definition clip_bounds (f : frame) : option (Z * Z * Z * Z) :=
  let nz z := if negb (feq z (S754_zero false)) then z else f32_of_Z 1 in
  cl ← muplar_floor_to_int (fdiv (fsub (f32_of_Z (f_left f)) (f_tx f)) (nz (f_sx f)));
  ct ← muplar_floor_to_int (fdiv (fsub (f32_of_Z (f_top f)) (f_ty f)) (nz (f_sy f)));
  cr ← muplar_ceil_to_int (fdiv (fsub (f32_of_Z (f_right f)) (f_tx f)) (nz (f_sx f)));
  cb ← muplar_ceil_to_int (fdiv (fsub (f32_of_Z (f_bottom f)) (f_ty f)) (nz (f_sy f)));
  Some (cl, ct, cr, cb).
(** platform/android-aarch64/art-shim/muplar_android_art_shim.c:5678-5728 (Java_android_graphics_Canvas_nGetClipBounds)
    The fields written; [bounds] says that the Rect is not null and its class
    has them. *)
Definition Canvas_nGetClipBounds (canvas_token : Z) (bounds : bool) : Sh (option (Z * Z * Z * Z)) :=
  s ← get;
  let canvas := the_canvas canvas_token s in
  let '(w, h) :=
    match b ← (c ← canvas; the_bitmap (cv_bitmap c) s);
          if (0 <? bs_width b) && (0 <? bs_height b) then Some (bs_width b, bs_height b) else None with
    | Some wh => wh
    | None => (1080, 1920)
    end in
  if negb bounds then mret None else
  match canvas with
  | Some c => r ← lift (clip_bounds (cv_now c)); mret (Some r)
  | None => mret (Some (0, 0, w, h))
  end.

(** platform/android-aarch64/art-shim/muplar_android_art_shim.c:5767-5771 (Java_android_graphics_Canvas_nGetWidth) *)
Definition Canvas_nGetWidth (canvas : Z) : Sh Z :=
  gets (λ s, match i ← muplar_canvas_bitmap canvas s; bitmaps s !! i with
             | Some b => if 0 <? bs_width b then bs_width b else 1080
             | None => 1080
             end).
(** platform/android-aarch64/art-shim/muplar_android_art_shim.c:5773-5777 (Java_android_graphics_Canvas_nGetHeight) *)
Definition Canvas_nGetHeight (canvas : Z) : Sh Z :=
  gets (λ s, match i ← muplar_canvas_bitmap canvas s; bitmaps s !! i with
             | Some b => if 0 <? bs_height b then bs_height b else 1920
             | None => 1920
             end).

(** platform/android-aarch64/art-shim/muplar_android_art_shim.c:5779-5798 (Java_android_graphics_Canvas_nSetBitmap) *)
Definition Canvas_nSetBitmap (canvas_token bitmap_token : Z) : Sh () :=
  s ← get;
  upd_canvas canvas_token (λ c, muplar_canvas_reset
    (CanvasState (cv_token c) bitmap_token (cv_now c) (cv_depth c) (cv_stack c))
    (the_bitmap bitmap_token s)).

(** platform/android-aarch64/art-shim/muplar_android_art_shim.c:5800-5814 (Java_android_graphics_Canvas_nSaveLayer) *)
Definition Canvas_nSaveLayer (canvas : Z) (l t r b : f32) : Sh Z :=
  count ← Canvas_nSave canvas;
  (if flt l r && flt t b then Canvas_nClipRect canvas l t r b ≫= λ _, mret () else mret ()) ≫= λ _,
  mret count.
(** platform/android-aarch64/art-shim/muplar_android_art_shim.c:5816-5830 (Java_android_graphics_Canvas_nSaveLayerAlpha) *)
Definition Canvas_nSaveLayerAlpha (canvas : Z) (l t r b : f32) : Sh Z :=
  count ← Canvas_nSave canvas;
  (if flt l r && flt t b then Canvas_nClipRect canvas l t r b ≫= λ _, mret () else mret ()) ≫= λ _,
  mret count.
(** platform/android-aarch64/art-shim/muplar_android_art_shim.c:5832-5843 (Java_android_graphics_Canvas_nSaveUnclippedLayer) *)
Definition Canvas_nSaveUnclippedLayer (canvas : Z) : Sh Z := Canvas_nSave canvas.
(** platform/android-aarch64/art-shim/muplar_android_art_shim.c:5845-5851 (Java_android_graphics_Canvas_nRestoreUnclippedLayer) *)
Definition Canvas_nRestoreUnclippedLayer (canvas save_count : Z) : Sh () :=
  Canvas_nRestoreToCount canvas save_count.

(** platform/android-aarch64/art-shim/muplar_android_art_shim.c:5890-5900 (Java_android_graphics_Canvas_nSetMatrix)
    The matrix is ignored. *)
Definition Canvas_nSetMatrix (canvas : Z) : Sh () :=
  upd_canvas canvas (λ c, set_now
    (Frame (S754_zero false) (S754_zero false) (f32_of_Z 1) (f32_of_Z 1) (f_left (cv_now c))
       (f_top (cv_now c)) (f_right (cv_now c)) (f_bottom (cv_now c))) c).
(** platform/android-aarch64/art-shim/muplar_android_art_shim.c:5915-5922 (Java_android_graphics_Canvas_nTranslate) *)
Definition translate (dx dy : f32) (f : frame) : frame :=
  Frame (fadd (f_tx f) (fmul dx (f_sx f))) (fadd (f_ty f) (fmul dy (f_sy f))) (f_sx f) (f_sy f)
    (f_left f) (f_top f) (f_right f) (f_bottom f).
Definition Canvas_nTranslate (canvas : Z) (dx dy : f32) : Sh () :=
  upd_canvas canvas (λ c, set_now (translate dx dy (cv_now c)) c).
(** platform/android-aarch64/art-shim/muplar_android_art_shim.c:5924-5931 (Java_android_graphics_Canvas_nScale) *)
Definition scale (sx sy : f32) (f : frame) : frame :=
  Frame (f_tx f) (f_ty f) (fmul (f_sx f) sx) (fmul (f_sy f) sy)
    (f_left f) (f_top f) (f_right f) (f_bottom f).
Definition Canvas_nScale (canvas : Z) (sx sy : f32) : Sh () :=
  upd_canvas canvas (λ c, set_now (scale sx sy (cv_now c)) c).

(** ** Drawing *)

(** Count a drawing call: colour, paint, rectangle, text, bitmap. *)
Definition count_draw (k : nat) : Sh () :=
  modify (λ s, set_draw_counts (alter (λ n, u32 (n + 1)) k (draw_counts s)) s).
(** Draw on the bitmap table. *)
Definition draw (f : table → option table) : Sh () :=
  s ← get; t ← lift (f (bitmaps s)); put (set_bitmaps t s).
(** The canvas of a token and the pointer to its bitmap, when both exist. *)
Definition canvas_target (canvas : Z) (s : shim) : option (canvas_state * nat) :=
  c ← the_canvas canvas s; i ← muplar_find_bitmap (cv_bitmap c) s; Some (c, i).
(** The pointer to the bitmap of the shader of a paint. *)
Definition shader_source (paint : Z) (s : shim) : option nat :=
  p ← the_paint paint s;
  if pt_shader p =? 0 then None else
  sh ← the_shader (pt_shader p) s; muplar_find_bitmap (sh_bitmap sh) s.
(** Copy the whole of a source. *)
Definition blit_all (dst src : nat) (dx dy dw dh : Z) (clip : frame) (paint : Z) (mask : bool) : Sh () :=
  s ← get;
  sb ← lift (bitmaps s !! src);
  draw (muplar_blit_bitmap dst src dx dy dw dh 0 0 (bs_width sb) (bs_height sb) clip
          (blit_paint_of paint s) mask).

(** platform/android-aarch64/art-shim/muplar_android_art_shim.c:5973-6017 (Java_android_graphics_Canvas_nDrawPath) *)
Definition Canvas_nDrawPath (canvas paint : Z) : Sh () :=
  s ← get;
  match canvas_target canvas s with
  | None => mret ()
  | Some (c, i) =>
      match shader_source paint s with
      | None => mret ()
      | Some src =>
          d ← lift (bitmaps s !! i);
          let f := cv_now c in
          dx ← lift (muplar_floor_to_int (f_tx f));
          dy ← lift (muplar_floor_to_int (f_ty f));
          dw ← lift (muplar_ceil_to_int (fmul (f32_of_Z (bs_width d)) (f_sx f)));
          dh ← lift (muplar_ceil_to_int (fmul (f32_of_Z (bs_height d)) (f_sy f)));
          let dw := if dw <=? 0 then bs_width d else dw in
          let dh := if dh <=? 0 then bs_height d else dh in
          blit_all i src dx dy dw dh f paint true
      end
  end.

(** platform/android-aarch64/art-shim/muplar_android_art_shim.c:6019-6039 (Java_android_graphics_Canvas_nDrawCircle) *)
Definition Canvas_nDrawCircle (canvas : Z) (cx cy radius : f32) (paint : Z) : Sh () :=
  s ← get;
  let color := muplar_paint_color paint 0xff5f6368 s in
  match canvas_target canvas s with
  | None => mret ()
  | Some (c, i) =>
      let f := cv_now c in
      let r := fmul radius (if flt (f_sy f) (f_sx f) then f_sx f else f_sy f) in
      draw (muplar_fill_circle i (map_x f cx) (map_y f cy) r color)
  end.

(** platform/android-aarch64/art-shim/muplar_android_art_shim.c:6041-6062 (Java_android_graphics_Canvas_nDrawColor) *)
Definition Canvas_nDrawColor (canvas color : Z) : Sh () :=
  count_draw 0 ≫= λ _,
  s ← get;
  match canvas_target canvas s with
  | None => mret ()
  | Some (c, i) =>
      let f := cv_now c in
      draw (muplar_fill_rect i (f_left f) (f_top f) (f_right f) (f_bottom f) (u32 color))
  end.
(** platform/android-aarch64/art-shim/muplar_android_art_shim.c:6172-6182 (Java_android_graphics_BaseCanvas_nDrawColorLong) *)
Definition BaseCanvas_nDrawColorLong (canvas color_long : Z) : Sh () :=
  Canvas_nDrawColor canvas (s32 (Z.shiftr color_long 32)).

(** platform/android-aarch64/art-shim/muplar_android_art_shim.c:6064-6121 (Java_android_graphics_BaseCanvas_nDrawRect) *)
Definition BaseCanvas_nDrawRect (canvas : Z) (left top right bottom : f32) (paint : Z) : Sh () :=
  count_draw 2 ≫= λ _,
  s ← get;
  let color := muplar_paint_color paint 0xffdadce0 s in
  match canvas_target canvas s with
  | None => mret ()
  | Some (c, i) =>
      let f := cv_now c in
      l ← lift (muplar_floor_to_int (map_x f left));
      t ← lift (muplar_floor_to_int (map_y f top));
      r ← lift (muplar_ceil_to_int (map_x f right));
      b ← lift (muplar_ceil_to_int (map_y f bottom));
      let l := if l <? f_left f then f_left f else l in
      let t := if t <? f_top f then f_top f else t in
      let r := if f_right f <? r then f_right f else r in
      let b := if f_bottom f <? b then f_bottom f else b in
      if negb ((l <? r) && (t <? b)) then mret () else
      match shader_source paint s with
      | Some src => blit_all i src l t (r - l) (b - t) f paint false
      | None => draw (muplar_fill_rect i l t r b color)
      end
  end.

(** platform/android-aarch64/art-shim/muplar_android_art_shim.c:6123-6138 (Java_android_graphics_Canvas_nDrawRoundRect) *)
Definition Canvas_nDrawRoundRect := BaseCanvas_nDrawRect.
(** platform/android-aarch64/art-shim/muplar_android_art_shim.c:6185-6198 (Java_android_graphics_BaseCanvas_nDrawOval) *)
Definition BaseCanvas_nDrawOval := BaseCanvas_nDrawRect.
(** platform/android-aarch64/art-shim/muplar_android_art_shim.c:6200-6217 (Java_android_graphics_BaseCanvas_nDrawArc) *)
Definition BaseCanvas_nDrawArc := BaseCanvas_nDrawOval.

(** platform/android-aarch64/art-shim/muplar_android_art_shim.c:6140-6170 (Java_android_graphics_BaseCanvas_nDrawPaint) *)
Definition BaseCanvas_nDrawPaint (canvas paint : Z) : Sh () :=
  count_draw 1 ≫= λ _,
  s ← get;
  let color := muplar_paint_color paint 0xffffffff s in
  match canvas_target canvas s with
  | None => mret ()
  | Some (c, i) =>
      let f := cv_now c in
      match shader_source paint s with
      | Some src =>
          w ← lift (ck (f_right f - f_left f));
          h ← lift (ck (f_bottom f - f_top f));
          blit_all i src (f_left f) (f_top f) w h f paint false
      | None => draw (muplar_fill_rect i (f_left f) (f_top f) (f_right f) (f_bottom f) color)
      end
  end.

(** platform/android-aarch64/art-shim/muplar_android_art_shim.c:6219-6238 (Java_android_graphics_BaseCanvas_nDrawLine)
    A line is its bounding rectangle, at least one unit wide and high. *)
Definition BaseCanvas_nDrawLine (canvas : Z) (x1 y1 x2 y2 : f32) (paint : Z) : Sh () :=
  let left := if flt x1 x2 then x1 else x2 in
  let right := if flt x2 x1 then x1 else x2 in
  let top := if flt y1 y2 then y1 else y2 in
  let bottom := if flt y2 y1 then y1 else y2 in
  let right := if flt (fsub right left) (f32_of_Z 1) then fadd left (f32_of_Z 1) else right in
  let bottom := if flt (fsub bottom top) (f32_of_Z 1) then fadd top (f32_of_Z 1) else bottom in
  BaseCanvas_nDrawRect canvas left top right bottom paint.
(** platform/android-aarch64/art-shim/muplar_android_art_shim.c:6240-6249 (Java_android_graphics_BaseCanvas_nDrawPoint) *)
Definition BaseCanvas_nDrawPoint (canvas : Z) (x y : f32) (paint : Z) : Sh () :=
  BaseCanvas_nDrawRect canvas x y (fadd x (f32_of_Z 1)) (fadd y (f32_of_Z 1)) paint.

(** An element of the array of a Java float array. *)
Definition elt {A} (data : list A) (i : Z) : option A := if i <? 0 then None else data !! Z.to_nat i.
(** platform/android-aarch64/art-shim/muplar_android_art_shim.c:6251-6274 (Java_android_graphics_BaseCanvas_nDrawPoints)
    The elements are not checked against the length of the array. *)
Definition BaseCanvas_nDrawPoints (canvas : Z) (points : option (list f32)) (offset count paint : Z) : Sh () :=
  match points with
  | None => mret ()
  | Some data =>
      if count <=? 0 then mret () else
      for_each (λ k,
        x ← lift (elt data (offset + 2 * k));
        y ← lift (elt data (offset + 2 * k + 1));
        BaseCanvas_nDrawPoint canvas x y paint) (seqZ 0 (count / 2))
  end.
(** platform/android-aarch64/art-shim/muplar_android_art_shim.c:6276-6298 (Java_android_graphics_BaseCanvas_nDrawLines) *)
Definition BaseCanvas_nDrawLines (canvas : Z) (lines : option (list f32)) (offset count paint : Z) : Sh () :=
  match lines with
  | None => mret ()
  | Some data =>
      if count <=? 0 then mret () else
      for_each (λ k,
        x1 ← lift (elt data (offset + 4 * k));
        y1 ← lift (elt data (offset + 4 * k + 1));
        x2 ← lift (elt data (offset + 4 * k + 2));
        y2 ← lift (elt data (offset + 4 * k + 3));
        BaseCanvas_nDrawLine canvas x1 y1 x2 y2 paint) (seqZ 0 (count / 4))
  end.

(** ** Text *)

(** platform/android-aarch64/art-shim/muplar_android_art_shim.c:6300-6378 (muplar_draw_text) *)
Definition muplar_draw_text (canvas : Z) (text : list Z) (x y : f32) (paint : Z) : Sh () :=
  s ← get;
  let text_color := muplar_paint_color paint 0xff000000 s in
  match canvas_target canvas s with
  | None => mret ()
  | Some (c, i) => draw (draw_text_on i (cv_now c) text x y text_color)
  end.

(** platform/android-aarch64/art-shim/muplar_android_art_shim.c:6401-6407 (Java_android_graphics_BaseCanvas_nDrawTextString)
    The first 510 characters from [start] on, with seven bits each. *)
Definition text_buffer (chars : list Z) (start len : Z) : list Z :=
  (λ ch, Z.land ch 0x7f) <$> take (Z.to_nat (if len <? 510 then len else 510)) (drop (Z.to_nat start) chars).
(** platform/android-aarch64/art-shim/muplar_android_art_shim.c:6380-6411 (Java_android_graphics_BaseCanvas_nDrawTextString)
    [pinned]: the runtime gives access to the characters. *)
Definition BaseCanvas_nDrawTextString (canvas : Z) (text : option (list Z)) (pinned : bool)
    (start end_ : Z) (x y : f32) (paint : Z) : Sh () :=
  let length := match text with Some t => Z.of_nat (length t) | None => 0 end in
  let start := if start <? 0 then 0 else start in
  let end_ := if (end_ <? start) || (length <? end_) then length else end_ in
  let len := end_ - start in
  if len <=? 0 then mret () else
  count_draw 3 ≫= λ _,
  if pinned then muplar_draw_text canvas (text_buffer (default [] text) start len) x y paint
  else mret ().
(** platform/android-aarch64/art-shim/muplar_android_art_shim.c:6413-6445 (Java_android_graphics_BaseCanvas_nDrawTextChars) *)
Definition BaseCanvas_nDrawTextChars (canvas : Z) (text : option (list Z)) (pinned : bool)
    (index count : Z) (x y : f32) (paint : Z) : Sh () :=
  match text with
  | None => mret ()
  | Some chars =>
      let text_len := Z.of_nat (length chars) in
      if (count <=? 0) || (index <? 0) || (text_len <=? index) then mret () else
      let count := if text_len - index <? count then text_len - index else count in
      if count <=? 0 then mret () else
      count_draw 3 ≫= λ _,
      if pinned then muplar_draw_text canvas (text_buffer chars index count) x y paint else mret ()
  end.
(** platform/android-aarch64/art-shim/muplar_android_art_shim.c:6447-6465 (Java_android_graphics_BaseCanvas_nDrawTextRunString) *)
Definition BaseCanvas_nDrawTextRunString := BaseCanvas_nDrawTextString.
(** platform/android-aarch64/art-shim/muplar_android_art_shim.c:6467-6487 (Java_android_graphics_BaseCanvas_nDrawTextRunChars) *)
Definition BaseCanvas_nDrawTextRunChars := BaseCanvas_nDrawTextChars.

(** platform/android-aarch64/art-shim/muplar_android_art_shim.c:6513-6518 (Java_android_graphics_BaseCanvas_nDrawGlyphs) *)
Definition glyph_char (gid : Z) : Z := if (32 <=? gid) && (gid <=? 126) then gid else 32.
(** platform/android-aarch64/art-shim/muplar_android_art_shim.c:6489-6530 (Java_android_graphics_BaseCanvas_nDrawGlyphs) *)
Definition BaseCanvas_nDrawGlyphs (canvas : Z) (glyph_ids : option (list Z)) (positions : option (list f32))
    (pinned : bool) (glyph_offset position_offset glyph_count paint : Z) : Sh () :=
  count_draw 3 ≫= λ _,
  match positions, glyph_ids with
  | Some pos, Some gids =>
      if glyph_count <=? 0 then mret () else
      let pos_len := Z.of_nat (length pos) in
      let gid_len := Z.of_nat (length gids) in
      if position_offset <? 0 then mret () else
      next ← lift (ck (position_offset + 1));
      if (pos_len <=? next) || (glyph_offset <? 0) || (gid_len <=? glyph_offset) then mret () else
      if negb pinned then mret () else
      let n := if glyph_count <? 250 then glyph_count else 250 in
      let n := if gid_len - glyph_offset <? n then gid_len - glyph_offset else n in
      first_x ← lift (elt pos position_offset);
      first_y ← lift (elt pos (position_offset + 1));
      muplar_draw_text canvas
        (glyph_char <$> take (Z.to_nat n) (drop (Z.to_nat glyph_offset) gids)) first_x first_y paint
  | _, _ => mret ()
  end.

(** ** Bitmaps *)

(** platform/android-aarch64/art-shim/muplar_android_art_shim.c:6681-6713 (Java_android_graphics_BaseCanvas_nDrawBitmap) *)
Definition BaseCanvas_nDrawBitmap (canvas bitmap_handle : Z) (left top : f32) (paint : Z) : Sh () :=
  s ← get;
  match muplar_find_bitmap bitmap_handle s, canvas_target canvas s with
  | Some src, Some (c, i) =>
      count_draw 4 ≫= λ _,
      sb ← lift (bitmaps s !! src);
      let f := cv_now c in
      dx ← lift (muplar_floor_to_int (map_x f left));
      dy ← lift (muplar_floor_to_int (map_y f top));
      dw ← lift (f32_to_int (fmul (f32_of_Z (bs_width sb)) (f_sx f)));
      dh ← lift (f32_to_int (fmul (f32_of_Z (bs_height sb)) (f_sy f)));
      blit_all i src dx dy dw dh f paint false
  | _, _ => mret ()
  end.
(** platform/android-aarch64/art-shim/muplar_android_art_shim.c:6715-6725 (Java_android_graphics_BaseCanvas_nDrawBitmapMatrix)
    The matrix is ignored. *)
Definition BaseCanvas_nDrawBitmapMatrix (canvas bitmap paint : Z) : Sh () :=
  BaseCanvas_nDrawBitmap canvas bitmap (S754_zero false) (S754_zero false) paint.

(** The target of a copy: where the corners of a rectangle land. *)
Definition dst_rect (f : frame) (left top right bottom : f32) : option (Z * Z * Z * Z) :=
  dx ← muplar_floor_to_int (map_x f left);
  dy ← muplar_floor_to_int (map_y f top);
  r ← muplar_ceil_to_int (map_x f right);
  b ← muplar_ceil_to_int (map_y f bottom);
  Some (dx, dy, r - dx, b - dy).
(** platform/android-aarch64/art-shim/muplar_android_art_shim.c:6727-6776 (Java_android_graphics_BaseCanvas_nDrawBitmapRect) *)
Definition BaseCanvas_nDrawBitmapRect (canvas bitmap_handle : Z)
    (src_left src_top src_right src_bottom dst_left dst_top dst_right dst_bottom : f32) (paint : Z) : Sh () :=
  s ← get;
  match muplar_find_bitmap bitmap_handle s, canvas_target canvas s with
  | Some src, Some (c, i) =>
      count_draw 4 ≫= λ _,
      let f := cv_now c in
      sx ← lift (muplar_floor_to_int src_left);
      sy ← lift (muplar_floor_to_int src_top);
      sr ← lift (muplar_ceil_to_int src_right);
      sb ← lift (muplar_ceil_to_int src_bottom);
      '(dx, dy, dw, dh) ← lift (dst_rect f dst_left dst_top dst_right dst_bottom);
      s ← get;
      draw (muplar_blit_bitmap i src dx dy dw dh sx sy (sr - sx) (sb - sy) f (blit_paint_of paint s) false)
  | _, _ => mret ()
  end.
(** platform/android-aarch64/art-shim/muplar_android_art_shim.c:6778-6812 (Java_android_graphics_BaseCanvas_nDrawNinePatch)
    The patches are ignored: the whole bitmap is stretched. *)
Definition BaseCanvas_nDrawNinePatch (canvas bitmap_handle : Z)
    (dst_left dst_top dst_right dst_bottom : f32) (paint : Z) : Sh () :=
  s ← get;
  match muplar_find_bitmap bitmap_handle s, canvas_target canvas s with
  | Some src, Some (c, i) =>
      count_draw 4 ≫= λ _,
      '(dx, dy, dw, dh) ← lift (dst_rect (cv_now c) dst_left dst_top dst_right dst_bottom);
      blit_all i src dx dy dw dh (cv_now c) paint false
  | _, _ => mret ()
  end.
