(* ===== verification/ShimPaint.v ===== *)
(** * Paints, colour filters, shaders, bitmaps

    platform/android-aarch64/art-shim/muplar_android_art_shim.c: the natives of
    android.graphics.Paint, of filters and shaders that have a state, and of
    android.graphics.Bitmap. *)

From S2P Require Import Prelude Machine Float32 ShimTables ShimPng ShimRaster ShimCanvas.

(** Apply [f] to the paint of a token, if there is one. *)
Definition upd_paint (token : Z) (f : paint_state → paint_state) : Sh () :=
  s ← get;
  match muplar_find_paint token s with
  | Some i => put (set_paints (alter f i (paints s)) s)
  | None => mret ()
  end.
Definition get_paint {A} (token : Z) (f : paint_state → A) (d : A) : Sh A :=
  gets (λ s, match the_paint token s with Some p => f p | None => d end).

(** platform/android-aarch64/art-shim/muplar_android_art_shim.c:3069-3079 (Java_android_graphics_Paint_nInit) *)
Definition Paint_nInit : Sh Z :=
  r ← muplar_alloc_paint (s32 0xff000000);
  s ← get;
  match r with
  | Some i => lift (pt_token <$> paints s !! i)
  | None =>
      let next := u64 (next_paint s + 0x100) in
      put (set_next_paint next s) ≫= λ _, mret (s64 next)
  end.

(** All of a paint but its token. *)
Definition copy_paint (src dst : paint_state) : paint_state :=
  PaintState (pt_token dst) (pt_color src) (pt_filter src) (pt_mask src) (pt_shader src)
    (pt_text_size src) (pt_width src) (pt_miter src) (pt_style src) (pt_cap src) (pt_join src).

(** platform/android-aarch64/art-shim/muplar_android_art_shim.c:3081-3105 (Java_android_graphics_Paint_nInitWithPaint) *)
Definition Paint_nInitWithPaint (paint : Z) : Sh Z :=
  src ← gets (the_paint paint);
  r ← muplar_alloc_paint (match src with Some p => pt_color p | None => s32 0xff000000 end);
  match r with
  | Some i =>
      s ← get;
      (match src with
       | Some p => put (set_paints (alter (copy_paint p) i (paints s)) s)
       | None => mret ()
       end) ≫= λ _,
      s ← get; lift (pt_token <$> paints s !! i)
  | None => Paint_nInit
  end.

(** platform/android-aarch64/art-shim/muplar_android_art_shim.c:3107-3123 (Java_android_graphics_Paint_nSet) *)
Definition Paint_nSet (dst src : Z) : Sh () :=
  p ← gets (the_paint src);
  match p with Some p => upd_paint dst (copy_paint p) | None => mret () end.

(** platform/android-aarch64/art-shim/muplar_android_art_shim.c:3125-3132 (muplar_paint_free) *)
Definition muplar_paint_free (ptr : Z) : Sh () :=
  upd_paint ptr (λ p, PaintState 0 (pt_color p) (pt_filter p) (pt_mask p) (pt_shader p)
    (pt_text_size p) (pt_width p) (pt_miter p) (pt_style p) (pt_cap p) (pt_join p)).

(** platform/android-aarch64/art-shim/muplar_android_art_shim.c:3141-3146 (Java_android_graphics_Paint_nSetTextSize) *)
Definition Paint_nSetTextSize (paint : Z) (size : f32) : Sh () :=
  upd_paint paint (λ p, PaintState (pt_token p) (pt_color p) (pt_filter p) (pt_mask p) (pt_shader p)
    size (pt_width p) (pt_miter p) (pt_style p) (pt_cap p) (pt_join p)).
(** platform/android-aarch64/art-shim/muplar_android_art_shim.c:3148-3152 (Java_android_graphics_Paint_nGetTextSize) *)
Definition Paint_nGetTextSize (paint : Z) : Sh f32 := get_paint paint pt_text_size (f32_of_Z 16).

(** platform/android-aarch64/art-shim/muplar_android_art_shim.c:3172-3177 (Java_android_graphics_Paint_nSetColor) *)
Definition Paint_nSetColor (paint color : Z) : Sh () :=
  upd_paint paint (λ p, PaintState (pt_token p) color (pt_filter p) (pt_mask p) (pt_shader p)
    (pt_text_size p) (pt_width p) (pt_miter p) (pt_style p) (pt_cap p) (pt_join p)).

(** platform/android-aarch64/art-shim/muplar_android_art_shim.c:3179-3184 (Java_android_graphics_Paint_nSetStrokeWidth) *)
Definition Paint_nSetStrokeWidth (paint : Z) (width : f32) : Sh () :=
  upd_paint paint (λ p, PaintState (pt_token p) (pt_color p) (pt_filter p) (pt_mask p) (pt_shader p)
    (pt_text_size p) width (pt_miter p) (pt_style p) (pt_cap p) (pt_join p)).
(** platform/android-aarch64/art-shim/muplar_android_art_shim.c:3186-3190 (Java_android_graphics_Paint_nGetStrokeWidth) *)
Definition Paint_nGetStrokeWidth (paint : Z) : Sh f32 := get_paint paint pt_width (S754_zero false).

(** platform/android-aarch64/art-shim/muplar_android_art_shim.c:3192-3197 (Java_android_graphics_Paint_nSetStrokeMiter) *)
Definition Paint_nSetStrokeMiter (paint : Z) (miter : f32) : Sh () :=
  upd_paint paint (λ p, PaintState (pt_token p) (pt_color p) (pt_filter p) (pt_mask p) (pt_shader p)
    (pt_text_size p) (pt_width p) miter (pt_style p) (pt_cap p) (pt_join p)).
(** platform/android-aarch64/art-shim/muplar_android_art_shim.c:3199-3203 (Java_android_graphics_Paint_nGetStrokeMiter) *)
Definition Paint_nGetStrokeMiter (paint : Z) : Sh f32 := get_paint paint pt_miter (f32_of_Z 4).

(** platform/android-aarch64/art-shim/muplar_android_art_shim.c:3205-3210 (Java_android_graphics_Paint_nSetStrokeCap) *)
Definition Paint_nSetStrokeCap (paint cap : Z) : Sh () :=
  upd_paint paint (λ p, PaintState (pt_token p) (pt_color p) (pt_filter p) (pt_mask p) (pt_shader p)
    (pt_text_size p) (pt_width p) (pt_miter p) (pt_style p) cap (pt_join p)).
(** platform/android-aarch64/art-shim/muplar_android_art_shim.c:3212-3216 (Java_android_graphics_Paint_nGetStrokeCap) *)
Definition Paint_nGetStrokeCap (paint : Z) : Sh Z := get_paint paint pt_cap 0.

(** platform/android-aarch64/art-shim/muplar_android_art_shim.c:3218-3223 (Java_android_graphics_Paint_nSetStrokeJoin) *)
Definition Paint_nSetStrokeJoin (paint join : Z) : Sh () :=
  upd_paint paint (λ p, PaintState (pt_token p) (pt_color p) (pt_filter p) (pt_mask p) (pt_shader p)
    (pt_text_size p) (pt_width p) (pt_miter p) (pt_style p) (pt_cap p) join).
(** platform/android-aarch64/art-shim/muplar_android_art_shim.c:3225-3229 (Java_android_graphics_Paint_nGetStrokeJoin) *)
Definition Paint_nGetStrokeJoin (paint : Z) : Sh Z := get_paint paint pt_join 0.

(** platform/android-aarch64/art-shim/muplar_android_art_shim.c:3231-3236 (Java_android_graphics_Paint_nSetStyle) *)
Definition Paint_nSetStyle (paint style : Z) : Sh () :=
  upd_paint paint (λ p, PaintState (pt_token p) (pt_color p) (pt_filter p) (pt_mask p) (pt_shader p)
    (pt_text_size p) (pt_width p) (pt_miter p) style (pt_cap p) (pt_join p)).
(** platform/android-aarch64/art-shim/muplar_android_art_shim.c:3238-3242 (Java_android_graphics_Paint_nGetStyle) *)
Definition Paint_nGetStyle (paint : Z) : Sh Z := get_paint paint pt_style 0.

(** platform/android-aarch64/art-shim/muplar_android_art_shim.c:3315-3321 (Java_android_graphics_Paint_nSetShader) *)
Definition Paint_nSetShader (paint shader : Z) : Sh Z :=
  upd_paint paint (λ p, PaintState (pt_token p) (pt_color p) (pt_filter p) (pt_mask p) shader
    (pt_text_size p) (pt_width p) (pt_miter p) (pt_style p) (pt_cap p) (pt_join p)) ≫= λ _,
  mret shader.
(** platform/android-aarch64/art-shim/muplar_android_art_shim.c:3323-3329 (Java_android_graphics_Paint_nSetColorFilter) *)
Definition Paint_nSetColorFilter (paint filter : Z) : Sh Z :=
  upd_paint paint (λ p, PaintState (pt_token p) (pt_color p) filter (pt_mask p) (pt_shader p)
    (pt_text_size p) (pt_width p) (pt_miter p) (pt_style p) (pt_cap p) (pt_join p)) ≫= λ _,
  mret filter.
(** platform/android-aarch64/art-shim/muplar_android_art_shim.c:3331-3337 (Java_android_graphics_Paint_nSetMaskFilter) *)
Definition Paint_nSetMaskFilter (paint mask_filter : Z) : Sh Z :=
  upd_paint paint (λ p, PaintState (pt_token p) (pt_color p) (pt_filter p) mask_filter (pt_shader p)
    (pt_text_size p) (pt_width p) (pt_miter p) (pt_style p) (pt_cap p) (pt_join p)) ≫= λ _,
  mret mask_filter.

(** platform/android-aarch64/art-shim/muplar_android_art_shim.c:3339-3345 (Java_android_graphics_Paint_nSetAlpha) *)
Definition Paint_nSetAlpha (paint alpha : Z) : Sh () :=
  upd_paint paint (λ p, PaintState (pt_token p)
    (s32 (Z.lor (Z.land (pt_color p) 0x00ffffff) (Z.shiftl (Z.land alpha 0xff) 24)))
    (pt_filter p) (pt_mask p) (pt_shader p)
    (pt_text_size p) (pt_width p) (pt_miter p) (pt_style p) (pt_cap p) (pt_join p)).
(** platform/android-aarch64/art-shim/muplar_android_art_shim.c:3347-3356 (Java_android_graphics_Paint_nReset) *)
Definition Paint_nReset (paint : Z) : Sh () :=
  upd_paint paint (λ p, PaintState (pt_token p) 0 0 0 0
    (pt_text_size p) (pt_width p) (pt_miter p) (pt_style p) (pt_cap p) (pt_join p)).
(** platform/android-aarch64/art-shim/muplar_android_art_shim.c:3358-3366 (Java_android_graphics_Paint_nSetColorLong) *)
Definition Paint_nSetColorLong (paint color_long : Z) : Sh () :=
  Paint_nSetColor paint (s32 (Z.shiftr color_long 32)).

(** platform/android-aarch64/art-shim/muplar_android_art_shim.c:3405-3419 (Java_android_graphics_BlendModeColorFilter_native_1CreateBlendModeFilter) *)
Definition CreateBlendModeFilter (color mode : Z) : Sh Z :=
  r ← muplar_alloc_filter color mode;
  s ← get;
  match r with
  | Some i => lift (fl_token <$> filters s !! i)
  | None =>
      let next := u64 (next_filter s + 0x100) in
      put (set_next_filter next s) ≫= λ _, mret (s64 next)
  end.
(** platform/android-aarch64/art-shim/muplar_android_art_shim.c:3421-3429 (Java_android_graphics_PorterDuffColorFilter_native_1CreateBlendModeFilter) *)
Definition PorterDuff_CreateBlendModeFilter (color mode : Z) : Sh Z := CreateBlendModeFilter color mode.
(** platform/android-aarch64/art-shim/muplar_android_art_shim.c:3431-3439 (Java_android_graphics_PorterDuffColorFilter_native_1CreatePorterDuffFilter) *)
Definition CreatePorterDuffFilter (color mode : Z) : Sh Z := CreateBlendModeFilter color mode.
(** platform/android-aarch64/art-shim/muplar_android_art_shim.c:3441-3453 (Java_android_graphics_LightingColorFilter_native_1CreateLightingFilter)
    The filter is a token only: no slot. *)
Definition CreateLightingFilter (mul add : Z) : Sh Z :=
  s ← get;
  let next := u64 (next_filter s + 0x100) in
  put (set_next_filter next s) ≫= λ _, mret (s64 next).

(** platform/android-aarch64/art-shim/muplar_android_art_shim.c:3503-3530 (Java_android_graphics_RadialGradient_nativeCreate)
    Gradients are tokens only. *)
Definition RadialGradient_nativeCreate : Sh Z :=
  s ← get;
  let next := u64 (next_shader s + 0x100) in
  put (set_next_shader next s) ≫= λ _, mret (s64 next).
(** platform/android-aarch64/art-shim/muplar_android_art_shim.c:3532-3551 (Java_android_graphics_SweepGradient_nativeCreate) *)
Definition SweepGradient_nativeCreate : Sh Z := RadialGradient_nativeCreate.
(** platform/android-aarch64/art-shim/muplar_android_art_shim.c:3553-3584 (Java_android_graphics_BitmapShader_nativeCreate)
    The slot is given by the token: an old shader in it is lost. *)
Definition BitmapShader_nativeCreate (bitmap : Z) : Sh Z :=
  s ← get;
  let next := u64 (next_shader s + 0x100) in
  let slot := Z.to_nat ((next / 0x100) mod Z.of_nat n_shaders) in
  put (set_next_shader next
         (set_shaders (<[slot := ShaderState (s64 next) bitmap]> (shaders s)) s)) ≫= λ _,
  mret (s64 next).

(** ** The natives of android.graphics.Bitmap

    platform/android-aarch64/art-shim/muplar_android_art_shim.c:7151-7230 and
    7407-7910.  A Java bitmap object is its field mNativePtr, the token of the
    pixels; a java.nio buffer is its memory and the place its position stands
    for.  Natives that ignore their arguments are not listed. *)

Section Natives.
Variable calloc_ok : Z → bool.

(** ** Creation *)

(** platform/android-aarch64/art-shim/muplar_android_art_shim.c:7151-7166 (Java_android_graphics_RecordingCanvas_nCreateDisplayListCanvas) *)
Definition RecordingCanvas_nCreateDisplayListCanvas : Sh Z :=
  i ← muplar_alloc_canvas 0;
  s ← get; lift (cv_token <$> canvases s !! i).
(** platform/android-aarch64/art-shim/muplar_android_art_shim.c:7168-7183 (Java_android_graphics_RecordingCanvas_nResetDisplayListCanvas) *)
Definition RecordingCanvas_nResetDisplayListCanvas (canvas width height : Z) : Sh () :=
  upd_canvas canvas (λ c,
    let c := muplar_canvas_reset (CanvasState (cv_token c) 0 (cv_now c) (cv_depth c) (cv_stack c)) None in
    let f := cv_now c in
    if (0 <? width) && (0 <? height)
    then set_now (Frame (f_tx f) (f_ty f) (f_sx f) (f_sy f) (f_left f) (f_top f) width height) c
    else c).

(** platform/android-aarch64/art-shim/muplar_android_art_shim.c:7192-7230 (Java_android_graphics_HardwareRenderer_nCreateHardwareBitmap)
    [object] says that the Java side gave an object; its mNativePtr is 0
    before it is set. *)
Definition nCreateHardwareBitmap (object : bool) (width height : Z) : Sh (option Z) :=
  r ← muplar_alloc_bitmap calloc_ok width height;
  s ← get;
  mret (if object then Some (match r with
                             | Some i => match bitmaps s !! i with Some b => bs_token b | None => 0 end
                             | None => 0
                             end)
        else None).

(** platform/android-aarch64/art-shim/muplar_android_art_shim.c:7431-7445 (Java_android_graphics_Bitmap_nativeCreate) *)
Definition config_bpp (config : Z) : Z :=
  if config =? 1 then 1 else
  if (config =? 3) || (config =? 4) then 2 else
  if config =? 6 then 8 else 4.

(** platform/android-aarch64/art-shim/muplar_android_art_shim.c:7446-7462 (Java_android_graphics_Bitmap_nativeCreate)
    Copy the colours of a Java array into the pixels of the bitmap [i]. *)
Definition copy_colors (i : nat) (colors : list Z) (offset stride width height : Z) (t : table) : option table :=
  for_range 0 height (λ y, for_range 0 width (λ x t,
    src_idx ← ck (offset + y * stride + x);
    c ← elt colors src_idx;
    k ← ck (y * width + x);
    b ← t !! i;
    px ← bs_pixels b;
    if (Z.to_nat k <? length px)%nat
    then Some (<[i := with_pixels b (<[Z.to_nat k := u32 c]> px)]> t) else None)) t.

(** platform/android-aarch64/art-shim/muplar_android_art_shim.c:7407-7468 (Java_android_graphics_Bitmap_nativeCreate)
    [colors] is [None] when the array is null or cannot be read. *)
Definition Bitmap_nativeCreate (object : bool) (colors : option (list Z))
    (offset stride width height config : Z) : Sh (option Z) :=
  obj ← nCreateHardwareBitmap object width height;
  match obj with
  | None => mret None
  | Some token =>
      s ← get;
      match muplar_find_bitmap token s with
      | None => mret obj
      | Some i =>
          put (set_bitmaps (alter (λ b, BitmapState (bs_token b) (bs_width b) (bs_height b)
                 (config_bpp config) (if config =? 0 then 5 else config) (bs_pixels b)) i (bitmaps s)) s) ≫= λ _,
          match colors with
          | Some colors =>
              if (0 <? width) && (0 <? height)
              then draw (copy_colors i colors offset stride width height) ≫= λ _, mret obj
              else mret obj
          | None => mret obj
          end
      end
  end.

(** ** Queries *)

(** The bytes of a pixel, 4 when it is not known. *)
Definition bpp_of (b : bitmap_state) : Z := if 0 <? bs_bpp b then bs_bpp b else 4.
(** platform/android-aarch64/art-shim/muplar_android_art_shim.c:7493-7503 (Java_android_graphics_Bitmap_nativeRowBytes) *)
Definition Bitmap_nativeRowBytes (native_bitmap : Z) : Sh Z :=
  b ← gets (the_bitmap native_bitmap);
  match b with None => mret 64 | Some b => lift (ck (bs_width b * bpp_of b)) end.
(** platform/android-aarch64/art-shim/muplar_android_art_shim.c:7515-7527 (Java_android_graphics_Bitmap_nativeGetAllocationByteCount) *)
Definition Bitmap_nativeGetAllocationByteCount (native_bitmap : Z) : Sh Z :=
  b ← gets (the_bitmap native_bitmap);
  match b with
  | None => mret 256
  | Some b => n ← lift (ck (bs_width b * bs_height b)); lift (ck (n * bpp_of b))
  end.
(** platform/android-aarch64/art-shim/muplar_android_art_shim.c:7634-7642 (Java_android_graphics_Bitmap_nativeConfig) *)
Definition Bitmap_nativeConfig (native_bitmap : Z) : Sh Z :=
  gets (λ s, match the_bitmap native_bitmap s with
             | Some b => if bs_config b =? 0 then 5 else bs_config b
             | None => 5
             end).

(** platform/android-aarch64/art-shim/muplar_android_art_shim.c:7529-7541 (Java_android_graphics_Bitmap_nativeGetPixel) *)
Definition Bitmap_nativeGetPixel (native_bitmap x y : Z) : Sh Z :=
  b ← gets (the_bitmap native_bitmap);
  match b with
  | Some b =>
      match bs_pixels b with
      | Some px =>
          if (0 <=? x) && (x <? bs_width b) && (0 <=? y) && (y <? bs_height b)
          then lift (k ← ck (y * bs_width b + x); s32 <$> px !! Z.to_nat k) else mret 0
      | None => mret 0
      end
  | None => mret 0
  end.
(** platform/android-aarch64/art-shim/muplar_android_art_shim.c:7543-7555 (Java_android_graphics_Bitmap_nativeSetPixel) *)
Definition Bitmap_nativeSetPixel (native_bitmap x y color : Z) : Sh () :=
  s ← get;
  match i ← muplar_find_bitmap native_bitmap s; b ← bitmaps s !! i; px ← bs_pixels b; Some (i, b, px) with
  | Some (i, b, px) =>
      if (0 <=? x) && (x <? bs_width b) && (0 <=? y) && (y <? bs_height b)
      then draw (λ t, k ← ck (y * bs_width b + x);
                      if (Z.to_nat k <? length px)%nat
                      then Some (<[i := with_pixels b (<[Z.to_nat k := u32 color]> px)]> t) else None)
      else mret ()
  | None => mret ()
  end.

(** platform/android-aarch64/art-shim/muplar_android_art_shim.c:7856-7871 (Java_android_graphics_Bitmap_nativeErase) *)
Definition Bitmap_nativeErase (native_bitmap color : Z) : Sh () :=
  s ← get;
  match i ← muplar_find_bitmap native_bitmap s; b ← bitmaps s !! i; px ← bs_pixels b; Some (i, b, px) with
  | Some (i, b, px) =>
      let count := u64 (bs_width b * bs_height b) in
      draw (λ t, if count <=? Z.of_nat (length px)
                 then Some (<[i := with_pixels b (replicate (Z.to_nat count) (u32 color) ++ drop (Z.to_nat count) px)]> t)
                 else None)
  | None => mret ()
  end.
(** platform/android-aarch64/art-shim/muplar_android_art_shim.c:7873-7880 (Java_android_graphics_Bitmap_nativeRecycle) *)
Definition Bitmap_nativeRecycle (native_bitmap : Z) : Sh () := muplar_release_bitmap native_bitmap.
End Natives.

(** ** Copies from and to buffers *)

(** platform/android-aarch64/art-shim/muplar_android_art_shim.c:7676-7678 (Java_android_graphics_Bitmap_nativeCopyPixelsToBuffer) *)
Definition alpha8_of_pixel (p : Z) : Z :=
  let a := Z.land (Z.shiftr p 24) 0xff in
  if (a =? 0) && negb (Z.land p 0xffffff =? 0) then 0xff else a.
(** platform/android-aarch64/art-shim/muplar_android_art_shim.c:7775 (Java_android_graphics_Bitmap_nativeCopyPixelsFromBuffer) *)
Definition pixel_of_alpha8 (b : Z) : Z := Z.lor (u32 (Z.shiftl b 24)) 0x00ffffff.
(** platform/android-aarch64/art-shim/muplar_android_art_shim.c:7684-7687 (Java_android_graphics_Bitmap_nativeCopyPixelsToBuffer) *)
Definition rgb565_of_pixel (p : Z) : Z :=
  u16 (Z.lor (Z.lor (Z.shiftl (Z.land (Z.shiftr p 19) 0x1f) 11) (Z.shiftl (Z.land (Z.shiftr p 10) 0x3f) 5))
         (Z.land (Z.shiftr p 3) 0x1f)).
(** platform/android-aarch64/art-shim/muplar_android_art_shim.c:7780-7784 (Java_android_graphics_Bitmap_nativeCopyPixelsFromBuffer) *)
Definition pixel_of_rgb565 (p : Z) : Z :=
  let r := Z.land (Z.shiftr p 11) 0x1f * 255 / 31 in
  let g := Z.land (Z.shiftr p 5) 0x3f * 255 / 63 in
  let b := Z.land p 0x1f * 255 / 31 in
  pack 0xff r g b.

(** platform/android-aarch64/art-shim/muplar_android_art_shim.c:7672-7692 (Java_android_graphics_Bitmap_nativeCopyPixelsToBuffer)
    The bytes written for [count] pixels; memcpy reads [byte_count] bytes of
    the pixel array. *)
Definition encode_pixels (bpp count : Z) (px : list Z) : option (list Z) :=
  if bpp =? 1 then Some (alpha8_of_pixel <$> take (Z.to_nat count) px) else
  if bpp =? 2 then Some (word_bytes 2 (rgb565_of_pixel <$> take (Z.to_nat count) px)) else
  slice (word_bytes 4 px) 0 (count * bpp).
(** platform/android-aarch64/art-shim/muplar_android_art_shim.c:7771-7790 (Java_android_graphics_Bitmap_nativeCopyPixelsFromBuffer)
    The pixel array after reading [count] pixels from [mem]. *)
Definition decode_pixels (bpp count : Z) (mem : list Z) (start : Z) (px : list Z) : option (list Z) :=
  if bpp =? 1 then
    match slice mem start count with Some bs => Some (pixel_of_alpha8 <$> bs) | None => None end
  else if bpp =? 2 then
    bs ← slice mem start (2 * count); Some (pixel_of_rgb565 <$> words_of 2 (Z.to_nat count) bs)
  else
    bs ← slice mem start (count * bpp);
    all ← splice (word_bytes 4 px) 0 bs;
    Some (words_of 4 (length px) all).

(** A java.nio buffer: in memory outside of the heap, with its position; over
    an array, with the offset and position in elements of [2 ^ shift] bytes;
    or neither. *)
Inductive nio_buffer :=
| DirectBuffer (mem : list Z) (pos : Z)
| ArrayBuffer (mem : list Z) (arr_off pos shift : Z)
| OtherBuffer.
(** platform/android-aarch64/art-shim/muplar_android_art_shim.c:7666-7726 (Java_android_graphics_Bitmap_nativeCopyPixelsToBuffer)
    The memory and the byte the copy starts at. *)
Definition buffer_view (b : nio_buffer) : option (list Z * Z) :=
  match b with
  | DirectBuffer mem pos => Some (mem, pos)
  | ArrayBuffer mem arr_off pos shift => Some (mem, Z.shiftl (arr_off + pos) shift)
  | OtherBuffer => None
  end.
Definition buffer_with (b : nio_buffer) (mem : list Z) : nio_buffer :=
  match b with
  | DirectBuffer _ pos => DirectBuffer mem pos
  | ArrayBuffer _ arr_off pos shift => ArrayBuffer mem arr_off pos shift
  | OtherBuffer => OtherBuffer
  end.

(** platform/android-aarch64/art-shim/muplar_android_art_shim.c:7644-7743 (Java_android_graphics_Bitmap_nativeCopyPixelsToBuffer)
    The buffer after the copy. *)
Definition Bitmap_nativeCopyPixelsToBuffer (native_bitmap : Z) (buffer : nio_buffer) : Sh nio_buffer :=
  b ← gets (the_bitmap native_bitmap);
  match b ← b; px ← bs_pixels b; v ← buffer_view buffer; Some (b, px, v) with
  | Some (b, px, (mem, start)) =>
      bs ← lift (encode_pixels (bpp_of b) (u64 (bs_width b * bs_height b)) px);
      mem ← lift (splice mem start bs);
      mret (buffer_with buffer mem)
  | None => mret buffer
  end.
(** platform/android-aarch64/art-shim/muplar_android_art_shim.c:7745-7843 (Java_android_graphics_Bitmap_nativeCopyPixelsFromBuffer) *)
Definition Bitmap_nativeCopyPixelsFromBuffer (native_bitmap : Z) (buffer : nio_buffer) : Sh () :=
  s ← get;
  match i ← muplar_find_bitmap native_bitmap s; b ← bitmaps s !! i; px ← bs_pixels b;
        v ← buffer_view buffer; Some (i, b, px, v) with
  | Some (i, b, px, (mem, start)) =>
      px ← lift (decode_pixels (bpp_of b) (u64 (bs_width b * bs_height b)) mem start px);
      put (set_bitmaps (<[i := with_pixels b px]> (bitmaps s)) s)
  | None => mret ()
  end.

(** platform/android-aarch64/art-shim/muplar_android_art_shim.c:7882-7910 (Java_android_graphics_Bitmap_nativeCompress)
    The bytes handed to the output stream, which says whether it took them;
    the format asked for is ignored. *)
Definition Bitmap_nativeCompress (realloc_ok : nat → Z → bool) (stream : list Z → bool)
    (native_bitmap : Z) : Sh bool :=
  b ← gets (the_bitmap native_bitmap);
  match b with
  | None => mret false
  | Some b =>
      match muplar_bitmap_to_png realloc_ok
              {| bm_width := bs_width b; bm_height := bs_height b; bm_pixels := bs_pixels b |}
              {| bb_data := []; bb_cap := 0; bb_ok := false |} 0%nat with
      | Done (ok, png) _ => mret (ok && stream (bb_data png))
      | Exited c _ => exit c
      | Fault => fault
      | OutOfFuel => out_of_fuel
      end
  end.
