(* ===== verification/RasterProps.v ===== *)
(** * Drawing is pixel-wise and stays inside

    What the loops of ShimRaster do to the pixels: rectangles and copies change
    exactly the pixels of the clipped target, each by a function of its old
    value, and no access leaves a pixel array. *)

From S2P Require Import Prelude Machine Float32 ShimTables ShimFont ShimRaster.

(** ** Bytes of a colour *)

Lemma land_255 c : Z.land c 0xff = c mod 256.
Proof. change 0xff with (Z.ones 8). by rewrite Z.land_ones by lia. Qed.
Lemma byte_of_range c : 0 <= Z.land c 0xff < 256.
Proof. rewrite land_255. apply Z.mod_pos_bound. lia. Qed.
Lemma mix_range s d a : 0 <= s < 256 → 0 <= d < 256 → 0 <= a < 256 → 0 <= mix s d a < 256.
Proof.
  intros Hs Hd Ha. unfold mix. assert (0 <= s * a + d * (255 - a) <= 65025) as H by nia.
  rewrite u32_small by (unfold in_u32; lia). zdm.
Qed.

(** A colour put together from its bytes. *)
Lemma pack_sum a r g b :
  0 <= a < 256 → 0 <= r < 256 → 0 <= g < 256 → 0 <= b < 256 →
  pack a r g b = a * 16777216 + r * 65536 + g * 256 + b.
Proof.
  intros Ha Hr Hg Hb. unfold pack.
  rewrite u32_small by (rewrite Z.shiftl_mul_pow2 by lia; unfold in_u32; lia).
  rewrite (Z.lor_comm _ b), (Z.lor_comm _ (Z.shiftl g 8)), (Z.lor_comm _ (Z.shiftl r 16)).
  assert (Z.lor (Z.shiftl r 16) (Z.shiftl a 24) = Z.shiftl (r + a * 256) 16) as ->.
  { replace (Z.shiftl a 24) with (Z.shiftl (Z.shiftl a 8) 16) by (by rewrite Z.shiftl_shiftl by lia).
    rewrite <- Z.shiftl_lor. f_equal. rewrite lor_shiftl_add by lia. reflexivity. }
  assert (Z.lor (Z.shiftl g 8) (Z.shiftl (r + a * 256) 16) = Z.shiftl (g + (r + a * 256) * 256) 8) as ->.
  { replace (Z.shiftl (r + a * 256) 16) with (Z.shiftl (Z.shiftl (r + a * 256) 8) 8)
      by (by rewrite Z.shiftl_shiftl by lia).
    rewrite <- Z.shiftl_lor. f_equal. rewrite lor_shiftl_add by lia. reflexivity. }
  rewrite lor_shiftl_add by lia. change (2 ^ 8) with 256. lia.
Qed.

Lemma pack_u32 a r g b :
  0 <= a < 256 → 0 <= r < 256 → 0 <= g < 256 → 0 <= b < 256 → in_u32 (pack a r g b).
Proof. intros. rewrite pack_sum by done. unfold in_u32. lia. Qed.

Lemma red_range c : 0 <= red_of c < 256. Proof. apply byte_of_range. Qed.
Lemma green_range c : 0 <= green_of c < 256. Proof. apply byte_of_range. Qed.
Lemma blue_range c : 0 <= blue_of c < 256. Proof. apply byte_of_range. Qed.
Lemma alpha_range c : 0 <= alpha_of c < 256. Proof. apply byte_of_range. Qed.
#[export] Hint Resolve red_range green_range blue_range alpha_range mix_range : word.

(** The result of blending a colour with alpha [a] over an old pixel. *)
Definition over (color a old : Z) : Z :=
  pack 0xff (mix (red_of color) (red_of old) a) (mix (green_of color) (green_of old) a)
    (mix (blue_of color) (blue_of old) a).
Lemma over_u32 color a old : 0 <= a < 256 → in_u32 (over color a old).
Proof. intros Ha. apply pack_u32; [lia|auto with word..]. Qed.

(** ** One pixel *)

(** The bitmap [i] has an array of [w] by [h] pixels. *)
Record dims (t : table) (i : nat) (w h : Z) : Prop := {
  dm_w : 0 < w <= 2147483647;
  dm_h : 0 < h <= 2147483647;
  dm_px : ∃ b px, t !! i = Some b ∧ bs_width b = w ∧ bs_height b = h ∧ bs_pixels b = Some px ∧
            Z.of_nat (length px) = w * h ∧ Forall in_u32 px
}.

Definition inside (w h x y : Z) : Prop := 0 <= x < w ∧ 0 <= y < h.

Lemma pixel_index_eq b w h x y :
  bs_width b = w → 0 < w <= 2147483647 → 0 < h <= 2147483647 → inside w h x y →
  pixel_index b x y = y * w + x ∧ 0 <= y * w + x < w * h.
Proof.
  intros Hbw Hw Hh [Hx Hy]. subst w. set (w := bs_width b) in *. unfold pixel_index. fold w.
  assert (y * w + x < w * h) as Hlt by nia. assert (w * h <= 2147483647 * 2147483647) by nia.
  rewrite !(u64_small y), !(u64_small w), !(u64_small x) by (unfold in_u64; lia).
  rewrite u64_small by (unfold in_u64; nia). split; [done|nia].
Qed.

Lemma index_inj w h x y x' y' :
  0 < w → inside w h x y → inside w h x' y' → y * w + x = y' * w + x' → x = x' ∧ y = y'.
Proof. intros Hw [Hx Hy] [Hx' Hy'] H. assert (y = y') by nia. split; [nia|done]. Qed.

Lemma get_pixel_ok t i w h x y :
  dims t i w h → inside w h x y → ∃ v, get_pixel t i x y = Some v ∧ in_u32 v.
Proof.
  intros [Hw Hh (b & px & Ht & Hbw & Hbh & Hpx & Hl & Hu)] Hin.
  destruct (pixel_index_eq b w h x y Hbw Hw Hh Hin) as [E Hr].
  unfold get_pixel. rewrite Ht. obind. rewrite Hpx. obind. rewrite E.
  destruct (lookup_lt_is_Some_2 px (Z.to_nat (y * w + x))) as [v Hv]; [lia|].
  exists v. split; [done|]. exact (proj1 (Forall_lookup _ _) Hu _ _ Hv).
Qed.

(** What a write of pixel (x, y) of bitmap [i] does. *)
Lemma set_pixel_ok t i w h x y v :
  dims t i w h → inside w h x y → in_u32 v →
  ∃ t', set_pixel t i x y v = Some t' ∧ dims t' i w h ∧ (∀ j, j ≠ i → t' !! j = t !! j) ∧
    (∀ b, t !! i = Some b → ∃ px, t' !! i = Some (with_pixels b px)) ∧
    (∀ x' y', inside w h x' y' →
       get_pixel t' i x' y' = if decide (x' = x ∧ y' = y) then Some v else get_pixel t i x' y').
Proof.
  intros Hd Hin Hv. pose proof Hd as [Hw Hh (b & px & Ht & Hbw & Hbh & Hpx & Hl & Hu)].
  destruct (pixel_index_eq b w h x y Hbw Hw Hh Hin) as [E Hr].
  unfold set_pixel. rewrite Ht. obind. rewrite Hpx. obind. rewrite E.
  assert ((Z.to_nat (y * w + x) < length px)%nat) as Hlt by lia.
  rewrite (proj2 (Nat.ltb_lt _ _) Hlt). eexists. split; [reflexivity|].
  apply lookup_lt_Some in Ht as Hi.
  split_and!.
  - split; [done|done|]. eexists _, _. rewrite list_lookup_insert_eq by done. split; [reflexivity|].
    cbn. rewrite length_insert. split_and!; [done..|]. by apply Forall_insert.
  - intros j Hj. by rewrite list_lookup_insert_ne by done.
  - intros b' Hb'. injection Hb' as <-. rewrite list_lookup_insert_eq by done. by eexists.
  - intros x' y' Hin'. unfold get_pixel. rewrite list_lookup_insert_eq by done. obind. rewrite Ht. obind.
    cbn [bs_pixels with_pixels]. rewrite Hpx. obind.
    assert (pixel_index (with_pixels b (<[Z.to_nat (y * w + x):=v]> px)) x' y' = y' * w + x') as ->.
    { by apply (pixel_index_eq _ w h). }
    destruct (pixel_index_eq b w h x' y' Hbw Hw Hh Hin') as [-> Hr'].
    case_decide as Hc.
    + destruct Hc as [-> ->]. by rewrite list_lookup_insert_eq by done.
    + rewrite list_lookup_insert_ne; [done|]. intros Heq. apply Hc.
      apply (index_inj w h); [lia|done|done|]. lia.
Qed.

(** ** Pixel-wise changes *)

(** [t'] is [t] with the pixels of bitmap [i] that satisfy [P] changed by [g]. *)
Record updates (i : nat) (w h : Z) (P : Z → Z → bool) (g : Z → Z → Z → Z) (t t' : table) : Prop := {
  up_dims : dims t' i w h;
  up_other : ∀ j, j ≠ i → t' !! j = t !! j;
  up_header : ∀ b, t !! i = Some b → ∃ px, t' !! i = Some (with_pixels b px) ∨ t' !! i = Some b;
  up_pixels : ∀ x y, inside w h x y →
    get_pixel t' i x y = (λ v, if P x y then g x y v else v) <$> get_pixel t i x y
}.

Lemma updates_none i w h P g t :
  dims t i w h → (∀ x y, inside w h x y → P x y = false) → updates i w h P g t t.
Proof.
  intros Hd HP. split; [done|done| |].
  - intros b Hb. exists []. by right.
  - intros x y Hin. rewrite HP by done. symmetry. apply option_fmap_id.
Qed.

(** A pixel that keeps its value may be counted as changed by [g]. *)
Lemma updates_id i w h P g t :
  dims t i w h →
  (∀ x y v, inside w h x y → get_pixel t i x y = Some v → P x y = true → g x y v = v) →
  updates i w h P g t t.
Proof.
  intros Hd HP. split; [done|done| |].
  - intros b Hb. exists []. by right.
  - intros x y Hin. destruct (get_pixel_ok t i w h x y Hd Hin) as (v & Hv & _). rewrite Hv. cbn.
    destruct (P x y) eqn:E; [|done]. f_equal. symmetry. by apply HP.
Qed.

Lemma updates_trans i w h P Q g t1 t2 t3 :
  updates i w h P g t1 t2 → updates i w h Q g t2 t3 →
  (∀ x y, P x y = true → Q x y = true → False) →
  updates i w h (λ x y, P x y || Q x y) g t1 t3.
Proof.
  intros [_ O1 H1 X1] [D2 O2 H2 X2] Hdis. split; [done| | |].
  - intros j Hj. by rewrite O2, O1.
  - intros b Hb. destruct (H1 b Hb) as (px & [E|E]); destruct (H2 _ E) as (px' & [E'|E']);
      [exists px'; left; exact E'|exists px; by left|exists px'; by left|exists []; by right].
  - intros x y Hin. rewrite X2, X1 by done. destruct (get_pixel t1 i x y); [|done]. cbn. f_equal.
    specialize (Hdis x y). destruct (P x y), (Q x y); try done. by exfalso; apply Hdis.
Qed.

Lemma updates_set i w h P g t x y v :
  dims t i w h → inside w h x y → get_pixel t i x y = Some v → in_u32 (g x y v) →
  (∀ x' y', inside w h x' y' → P x' y' = bool_decide (x' = x ∧ y' = y)) →
  ∃ t', set_pixel t i x y (g x y v) = Some t' ∧ updates i w h P g t t'.
Proof.
  intros Hd Hin Hv Hg HP. destruct (set_pixel_ok t i w h x y (g x y v) Hd Hin Hg)
    as (t' & E & Hd' & Ho & Hh & Hx).
  exists t'. split; [done|]. split; [done|done| |].
  - intros b Hb. destruct (Hh b Hb) as [px E']. exists px. by left.
  - intros x' y' Hin'. rewrite Hx, HP by done. case_decide as Hc.
    + destruct Hc as [-> ->]. rewrite bool_decide_eq_true_2 by done. by rewrite Hv.
    + rewrite bool_decide_eq_false_2 by done. symmetry. apply option_fmap_id.
Qed.

Lemma updates_ext i w h P Q g t t' :
  updates i w h P g t t' → (∀ x y, inside w h x y → P x y = Q x y) → updates i w h Q g t t'.
Proof. intros [D O H X] E. split; [done..|]. intros x y Hin. by rewrite X, E. Qed.

(** A loop whose rounds change disjoint sets of pixels.  [inv] is what the
    rounds need of the other bitmaps. *)
Lemma loop_updates i w h (P : Z → Z → Z → bool) g (f : Z → table → option table) l t :
  NoDup l → dims t i w h →
  (∀ z t1, z ∈ l → dims t1 i w h → (∀ j, j ≠ i → t1 !! j = t !! j) →
     ∃ t2, f z t1 = Some t2 ∧ updates i w h (P z) g t1 t2) →
  (∀ z z' x y, P z x y = true → P z' x y = true → z = z') →
  ∃ t', loop f l t = Some t' ∧ updates i w h (λ x y, existsb (λ z, P z x y) l) g t t'.
Proof.
  intros Hnd. revert t. induction Hnd as [|z l Hz Hnd IH]; intros t Hd Hf Hdis.
  { exists t. split; [done|]. by apply updates_none. }
  destruct (Hf z t) as (t1 & E1 & U1); [apply list_elem_of_here|done|done|].
  destruct (IH t1) as (t' & E & U).
  - by destruct U1.
  - intros z' t2 Hz' Hd2 Ho2. apply Hf; [by apply list_elem_of_further|done|].
    intros j Hj. rewrite Ho2 by done. by apply (up_other _ _ _ _ _ _ _ U1).
  - done.
  - exists t'. cbn [loop]. rewrite E1. obind. split; [done|].
    eapply updates_ext; [eapply updates_trans; [exact U1|exact U|]|].
    + intros x y H1 H2. apply existsb_exists in H2 as (z' & Hz' & H2).
      apply Hz. rewrite (Hdis z z' x y H1 H2). by apply list_elem_of_In.
    + done.
Qed.

Lemma NoDup_seqZ a n : NoDup (seqZ a n).
Proof. apply NoDup_fmap_2; [intros x y; lia|apply NoDup_seq]. Qed.

Lemma existsb_seqZ (f : Z → bool) a n :
  existsb f (seqZ a n) = true ↔ ∃ z, a <= z < a + n ∧ f z = true.
Proof.
  rewrite existsb_exists. split; intros (z & Hz & Hf); exists z; (split; [|done]);
    [apply list_elem_of_In, elem_of_seqZ in Hz|apply list_elem_of_In, elem_of_seqZ]; lia.
Qed.

(** Two nested loops whose bodies change at most the pixel the position
    [pos x y] of the loop counters falls on; [rl y] tells whether row [y] is
    not skipped. *)
Lemma rect_updates i w h g (pos : Z → Z → Z * Z) (rl : Z → bool) (live : Z → Z → bool)
    (row : Z → table → option table) (f : Z → Z → table → option table) x0 x1 y0 y1 t :
  dims t i w h →
  (∀ y t1, y0 <= y < y1 → row y t1 = if rl y then for_range x0 x1 (f y) t1 else Some t1) →
  (∀ x y t1, x0 <= x < x1 → y0 <= y < y1 → rl y = true →
     dims t1 i w h → (∀ j, j ≠ i → t1 !! j = t !! j) →
     ∃ t2, f y x t1 = Some t2 ∧
       updates i w h (λ a b, live x y && bool_decide ((a, b) = pos x y)) g t1 t2) →
  (∀ x y x' y', pos x y = pos x' y' → x = x' ∧ y = y') →
  ∃ t', for_range y0 y1 row t = Some t' ∧
    updates i w h
      (λ a b, existsb (λ y, rl y && existsb (λ x, live x y && bool_decide ((a, b) = pos x y))
                              (seqZ x0 (x1 - x0))) (seqZ y0 (y1 - y0))) g t t'.
Proof.
  intros Hd Hrow Hf Hinj. unfold for_range at 1.
  apply (loop_updates i w h
    (λ y a b, rl y && existsb (λ x, live x y && bool_decide ((a, b) = pos x y)) (seqZ x0 (x1 - x0)))).
  - apply NoDup_seqZ.
  - done.
  - intros y t1 Hy Hd1 Ho1. apply elem_of_seqZ in Hy. rewrite Hrow by lia. destruct (rl y) eqn:Hrl.
    2: { exists t1. split; [done|]. by apply updates_none. }
    apply (loop_updates i w h (λ x a b, live x y && bool_decide ((a, b) = pos x y))).
    + apply NoDup_seqZ.
    + done.
    + intros x t2 Hx Hd2 Ho2. apply elem_of_seqZ in Hx. apply Hf; [lia|lia|done|done|].
      intros j Hj. by rewrite Ho2, Ho1.
    + intros x x' a b H1 H2. apply andb_true_iff in H1 as [_ H1], H2 as [_ H2].
      apply bool_decide_eq_true in H1, H2. rewrite H1 in H2. by apply Hinj in H2 as [? _].
  - intros y y' a b [_ H1]%andb_true_iff [_ H2]%andb_true_iff.
    apply existsb_exists in H1 as (x & _ & H1), H2 as (x' & _ & H2).
    apply andb_true_iff in H1 as [_ H1], H2 as [_ H2]. apply bool_decide_eq_true in H1, H2.
    rewrite H1 in H2. by apply Hinj in H2 as [_ ?].
Qed.

(** The pixels such loops change, when the position is a translation. *)
Lemma rect_pixels rl live dx dy x0 x1 y0 y1 a b :
  existsb (λ y, rl y && existsb (λ x, live x y && bool_decide ((a, b) = (dx + x, dy + y)))
                          (seqZ x0 (x1 - x0))) (seqZ y0 (y1 - y0)) =
  (x0 <=? a - dx) && (a - dx <? x1) && (y0 <=? b - dy) && (b - dy <? y1) &&
  rl (b - dy) && live (a - dx) (b - dy).
Proof.
  apply eq_true_iff_eq. rewrite existsb_seqZ, !andb_true_iff, !Z.leb_le, !Z.ltb_lt. split.
  - intros (y & Hy & [Hr Hx]%andb_true_iff). apply existsb_seqZ in Hx as (x & Hx & [Hl He]%andb_true_iff).
    apply bool_decide_eq_true in He. injection He as -> ->.
    replace (dx + x - dx) with x by lia. replace (dy + y - dy) with y by lia. split_and!; (done || lia).
  - intros [[[[[? ?] ?] ?] Hr] Hl]. exists (b - dy). split; [lia|]. rewrite Hr. cbn [andb].
    apply existsb_seqZ. exists (a - dx). split; [lia|]. rewrite Hl. cbn [andb].
    apply bool_decide_eq_true. f_equal; lia.
Qed.

(** ** Rectangles *)

(** What filling does to one pixel. *)
Definition fill_ref (color old : Z) : Z :=
  if alpha_of color =? 0 then old else if alpha_of color =? 255 then color else over color (alpha_of color) old.
Definition in_rect (left top right bottom x y : Z) : bool :=
  (left <=? x) && (x <? right) && (top <=? y) && (y <? bottom).

Lemma fill_loops i w h color l t r b tb (f : Z → Z → table → option table) :
  dims tb i w h → in_u32 color → 0 <= l → r <= w → 0 <= t → b <= h →
  (∀ x y t1, inside w h x y → dims t1 i w h →
     ∃ v, get_pixel t1 i x y = Some v ∧ in_u32 (fill_ref color v) ∧
       f y x t1 = set_pixel t1 i x y (fill_ref color v)) →
  ∃ t', for_range t b (λ y, for_range l r (f y)) tb = Some t' ∧
    updates i w h (in_rect l t r b) (λ _ _, fill_ref color) tb t'.
Proof.
  intros Hd Hc Hl Hr Ht Hb Hf.
  destruct (rect_updates i w h (λ _ _, fill_ref color) (λ x y, (0 + x, 0 + y)) (λ _, true) (λ _ _, true)
    (λ y, for_range l r (f y)) f l r t b tb) as (t' & E & U); [done|done| | |].
  - intros x y t1 Hx Hy _ Hd1 _. cbn [andb].
    destruct (Hf x y t1) as (v & Hv & Hu & ->); [unfold inside; lia|done|].
    apply (updates_set i w h _ (λ _ _, fill_ref color)); [done|unfold inside; lia|done|done|].
    intros x' y' _. apply bool_decide_ext. split; [intros [= -> ->]; lia|]. intros [-> ->]. f_equal; lia.
  - intros x y x' y' [= H1 H2]. lia.
  - exists t'. split; [done|]. eapply updates_ext; [exact U|]. intros x y _. cbv beta.
    rewrite (rect_pixels (λ _, true) (λ _ _, true) 0 0). unfold in_rect. rewrite !Z.sub_0_r.
    by rewrite !andb_true_r.
Qed.

(** What a filled rectangle does to the table. *)
Lemma fill_rect_updates i w h left top right bottom color t :
  dims t i w h → in_u32 color →
  ∃ t', muplar_fill_rect i left top right bottom color t = Some t' ∧
    updates i w h (in_rect left top right bottom) (λ _ _, fill_ref color) t t'.
Proof.
  intros Hd Hc. pose proof Hd as [Hw Hh (b & px & Ht & Hbw & Hbh & Hpx & _ & _)].
  unfold muplar_fill_rect. rewrite Ht. obind. rewrite Hpx, Hbw, Hbh. cbv zeta.
  set (l := if left <? 0 then 0 else left). set (tp := if top <? 0 then 0 else top).
  set (r := if w <? right then w else right). set (bt := if h <? bottom then h else bottom).
  assert (∀ x y, inside w h x y → in_rect l tp r bt x y = in_rect left top right bottom x y) as Hrect.
  { intros x y [Hx Hy]. unfold in_rect, l, tp, r, bt.
    destruct (Z.ltb_spec left 0), (Z.ltb_spec top 0), (Z.ltb_spec w right), (Z.ltb_spec h bottom); lia. }
  assert (0 <= l ∧ 0 <= tp ∧ r <= w ∧ bt <= h) as (Hl & Htp & Hr & Hbt).
  { unfold l, tp, r, bt.
    destruct (Z.ltb_spec left 0), (Z.ltb_spec top 0), (Z.ltb_spec w right), (Z.ltb_spec h bottom); lia. }
  destruct ((r <=? l) || (bt <=? tp)) eqn:Hempty.
  { exists t. split; [done|]. apply updates_none; [done|]. intros x y Hin. rewrite <- Hrect by done.
    unfold in_rect. lia. }
  unfold fill_ref. destruct (Z.eqb_spec (alpha_of color) 0) as [H0|H0].
  { exists t. split; [done|]. by apply updates_id. }
  destruct (Z.eqb_spec (alpha_of color) 255) as [H255|H255].
  - destruct (fill_loops i w h color l tp r bt t (λ y x t, set_pixel t i x y color)) as (t' & E & U); try done.
    { intros x y t1 Hin Hd1. destruct (get_pixel_ok t1 i w h x y Hd1 Hin) as (v & Hv & _).
      exists v. unfold fill_ref. rewrite (proj2 (Z.eqb_neq _ _) H0), (proj2 (Z.eqb_eq _ _) H255). done. }
    exists t'. split; [exact E|]. unfold fill_ref in U.
    rewrite (proj2 (Z.eqb_neq _ _) H0), (proj2 (Z.eqb_eq _ _) H255) in U.
    eapply updates_ext; [exact U|exact Hrect].
  - destruct (fill_loops i w h color l tp r bt t (λ y x t, blend_pixel i color x y t)) as (t' & E & U); try done.
    { intros x y t1 Hin Hd1. destruct (get_pixel_ok t1 i w h x y Hd1 Hin) as (v & Hv & Hu).
      exists v. unfold fill_ref. rewrite (proj2 (Z.eqb_neq _ _) H0), (proj2 (Z.eqb_neq _ _) H255).
      split_and!; [done|apply over_u32, alpha_range|]. unfold blend_pixel. rewrite Hv. reflexivity. }
    exists t'. split; [exact E|]. unfold fill_ref in U.
    rewrite (proj2 (Z.eqb_neq _ _) H0), (proj2 (Z.eqb_neq _ _) H255) in U.
    eapply updates_ext; [exact U|exact Hrect].
Qed.

(** Filling a rectangle never leaves the bitmap and is exact: every pixel
    of the rectangle that is in the bitmap gets the colour when it is opaque,
    stays when it is transparent and is blended otherwise; every other pixel
    and every other bitmap keep their values. *)
Theorem fill_rect_spec i w h left top right bottom color t :
  dims t i w h → in_u32 color →
  ∃ t', muplar_fill_rect i left top right bottom color t = Some t' ∧
    updates i w h (in_rect left top right bottom) (λ _ _, fill_ref color) t t'.
Proof. apply fill_rect_updates. Qed.

(** Four pixels. *)
Definition demo_table : table :=
  [BitmapState 0x40000100 2 2 4 5 (Some [0xff000000; 0xff000001; 0xff000002; 0xff000003]);
   BitmapState 0x40000200 1 1 4 5 (Some [0x80ff0000])].
Lemma demo_dims : dims demo_table 0 2 2.
Proof.
  split; [lia|lia|]. eexists _, _. split; [reflexivity|]. split_and!; [reflexivity..|].
  repeat constructor; unfold in_u32; lia.
Qed.
Lemma demo_dims1 : dims demo_table 1 1 1.
Proof.
  split; [lia|lia|]. eexists _, _. split; [reflexivity|]. split_and!; [reflexivity..|].
  repeat constructor; unfold in_u32; lia.
Qed.

(** Witness of [fill_rect_spec]: half-transparent white over the right column. *)
Lemma fill_rect_spec_witness :
  ∃ t', muplar_fill_rect 0 1 (-5) 9 9 0x80ffffff demo_table = Some t' ∧
    updates 0 2 2 (in_rect 1 (-5) 9 9) (λ _ _, fill_ref 0x80ffffff) demo_table t'.
Proof. apply (fill_rect_spec 0 2 2 1 (-5) 9 9 0x80ffffff demo_table demo_dims). unfold in_u32; lia. Defined.

(** ** Copies *)

(** What copying the colour [c] does to an old pixel. *)
Definition blit_ref (bp : blit_paint) (c old : Z) : Z :=
  if u8 (Z.shiftr c 24) =? 0 then old else
  let '(a, c') := blit_tint bp (u8 (Z.shiftr c 24)) c in
  if a =? 255 then c' else over c' a old.

Lemma lor_high_u32 a c : 0 <= a < 256 → in_u32 (Z.lor (u32 (Z.shiftl a 24)) (Z.land c 0x00ffffff)).
Proof.
  intros Ha. change 0x00ffffff with (Z.ones 24). rewrite Z.land_ones by lia.
  pose proof (Z.mod_pos_bound c (2 ^ 24) ltac:(lia)) as Hc.
  rewrite u32_small by (rewrite Z.shiftl_mul_pow2 by lia; unfold in_u32; lia).
  rewrite Z.lor_comm, lor_shiftl_add by lia. unfold in_u32. lia.
Qed.

Lemma blit_tint_range bp a c :
  0 <= a < 256 → in_u32 c → 0 <= (blit_tint bp a c).1 < 256 ∧ in_u32 (blit_tint bp a c).2.
Proof.
  intros Ha Hc. unfold blit_tint. pose proof (u8_range) as Hu8. unfold in_u8 in Hu8.
  destruct (Z.ltb_spec (bp_alpha bp) 255) as [Hlt|Hge]; destruct (bp_filter bp) as [color|];
    try destruct (color =? 0); cbn [fst snd]; (split; [done||apply Hu8|]);
    try done; apply lor_high_u32; (done || apply Hu8).
Qed.

Lemma blit_ref_u32 bp c old : in_u32 c → in_u32 old → in_u32 (blit_ref bp c old).
Proof.
  intros Hc Ho. unfold blit_ref. destruct (_ =? 0); [done|].
  destruct (blit_tint_range bp (u8 (Z.shiftr c 24)) c (u8_range _) Hc) as [Ha Hc'].
  destruct (blit_tint _ _ _) as [a c']. cbn [fst snd] in *. destruct (a =? 255); [done|by apply over_u32].
Qed.

Lemma ck_ok z : in_s32 z → ck z = Some z.
Proof.
  unfold in_s32, ck. intros Hz. by rewrite (proj2 (Z.leb_le _ _)), (proj2 (Z.leb_le _ _)) by lia.
Qed.

(** Where the column [k] of [n] target columns comes from in [m] source columns. *)
Lemma scale_range k m n : 0 <= k < n → 0 < m → 0 <= k * m / n < m.
Proof. intros Hk Hm. split; [apply Z.div_pos; nia|apply Z.div_lt_upper_bound; nia]. Qed.

Section Blit.
Variables (dst src : nat) (w h sw sh : Z).
Variables (dst_x dst_y dst_w dst_h src_x src_y src_w src_h : Z) (clip : frame) (bp : blit_paint).

(** The source of a target pixel. *)
Definition blit_sx (px : Z) : Z := src_x + (px - dst_x) * src_w / dst_w.
Definition blit_sy (py : Z) : Z := src_y + (py - dst_y) * src_h / dst_h.
(** The pixels that are copied to: in the target, in the clip and from inside
    the source. *)
Definition blit_area (px py : Z) : bool :=
  in_rect dst_x dst_y (dst_x + dst_w) (dst_y + dst_h) px py &&
  in_rect (f_left clip) (f_top clip) (f_right clip) (f_bottom clip) px py &&
  in_rect 0 0 sw sh (blit_sx px) (blit_sy py).
(** The new value of a pixel. *)
Definition blit_new (t : table) (px py old : Z) : Z :=
  match get_pixel t src (blit_sx px) (blit_sy py) with
  | Some c => blit_ref bp c old
  | None => old
  end.

(** The numbers stay in [int]. *)
Definition blit_ints : Prop :=
  in_s32 dst_x ∧ in_s32 dst_y ∧ in_s32 (dst_x + dst_w) ∧ in_s32 (dst_y + dst_h) ∧
  in_s32 src_x ∧ in_s32 src_y ∧ in_s32 (src_x + src_w) ∧ in_s32 (src_y + src_h).

Lemma blit_pixel_plain t x y :
  dims t dst w h → dims t src sw sh → inside w h (dst_x + x) (dst_y + y) →
  let sx := src_x + x * src_w / dst_w in let sy := src_y + y * src_h / dst_h in
  inside sw sh sx sy →
  ∃ c v, get_pixel t src sx sy = Some c ∧ get_pixel t dst (dst_x + x) (dst_y + y) = Some v ∧
    in_u32 (blit_ref bp c v) ∧
    (blit_pixel dst src bp None sx sy (dst_x + x) (dst_y + y) t = Some t ∧ blit_ref bp c v = v ∨
     blit_pixel dst src bp None sx sy (dst_x + x) (dst_y + y) t =
     set_pixel t dst (dst_x + x) (dst_y + y) (blit_ref bp c v)).
Proof.
  intros Hd Hs Hin sx sy Hins.
  destruct (get_pixel_ok t src sw sh sx sy Hs Hins) as (c & Hc & Hcu).
  destruct (get_pixel_ok t dst w h _ _ Hd Hin) as (v & Hv & Hvu).
  exists c, v. split_and!; [done|done|by apply blit_ref_u32|].
  unfold blit_pixel. rewrite Hc. obind. unfold blit_ref.
  destruct (u8 (Z.shiftr c 24) =? 0) eqn:E; [by left|right].
  destruct (blit_tint bp (u8 (Z.shiftr c 24)) c) as [a c']. destruct (a =? 255); [done|].
  rewrite Hv. reflexivity.
Qed.

(** The row and column tests of the loops. *)
Definition row_live (y : Z) : bool :=
  negb ((dst_y + y <? f_top clip) || (f_bottom clip <=? dst_y + y) || (dst_y + y <? 0) || (h <=? dst_y + y)) &&
  negb ((src_y + y * src_h / dst_h <? 0) || (sh <=? src_y + y * src_h / dst_h)).
Definition col_live (x : Z) : bool :=
  negb ((dst_x + x <? f_left clip) || (f_right clip <=? dst_x + x) || (dst_x + x <? 0) || (w <=? dst_x + x)) &&
  negb ((src_x + x * src_w / dst_w <? 0) || (sw <=? src_x + x * src_w / dst_w)).

Lemma live_area px py : inside w h px py → 0 < dst_w → 0 < dst_h →
  (0 <=? px - dst_x) && (px - dst_x <? dst_w) && (0 <=? py - dst_y) && (py - dst_y <? dst_h) &&
  row_live (py - dst_y) && col_live (px - dst_x) = blit_area px py.
Proof.
  intros [Hx Hy] Hw Hh. unfold row_live, col_live, blit_area, in_rect, blit_sx, blit_sy.
  replace (dst_y + (py - dst_y)) with py by lia. replace (dst_x + (px - dst_x)) with px by lia.
  rewrite (proj2 (Z.ltb_ge px 0)), (proj2 (Z.ltb_ge py 0)), (proj2 (Z.leb_gt w px)), (proj2 (Z.leb_gt h py)) by lia.
  replace (0 <=? px - dst_x) with (dst_x <=? px) by lia.
  replace (px - dst_x <? dst_w) with (px <? dst_x + dst_w) by lia.
  replace (0 <=? py - dst_y) with (dst_y <=? py) by lia.
  replace (py - dst_y <? dst_h) with (py <? dst_y + dst_h) by lia.
  rewrite !Z.ltb_antisym, !orb_false_r, !negb_orb, !negb_involutive.
  destruct (dst_x <=? px), (dst_x + dst_w <=? px), (dst_y <=? py), (dst_y + dst_h <=? py),
    (f_left clip <=? px), (f_right clip <=? px), (f_top clip <=? py), (f_bottom clip <=? py); cbn [andb negb];
    rewrite ?andb_false_r, ?andb_true_r; try reflexivity.
  repeat match goal with |- context [?a <=? ?b] => destruct (a <=? b) end; reflexivity.
Qed.
End Blit.

(** The two loops of a copy. *)
Lemma copy_updates i w h g dx dy (rl live : Z → bool) (row : Z → table → option table)
    (f : Z → Z → table → option table) x1 y1 (Q : Z → Z → bool) t :
  dims t i w h →
  (∀ y t1, 0 <= y < y1 → row y t1 = if rl y then for_range 0 x1 (f y) t1 else Some t1) →
  (∀ x y t1, 0 <= x < x1 → 0 <= y < y1 → rl y = true →
     dims t1 i w h → (∀ j, j ≠ i → t1 !! j = t !! j) →
     ∃ t2, f y x t1 = Some t2 ∧
       updates i w h (λ a b, live x && bool_decide ((a, b) = (dx + x, dy + y))) g t1 t2) →
  (∀ a b, inside w h a b →
     (0 <=? a - dx) && (a - dx <? x1) && (0 <=? b - dy) && (b - dy <? y1) &&
     rl (b - dy) && live (a - dx) = Q a b) →
  ∃ t', for_range 0 y1 row t = Some t' ∧ updates i w h Q g t t'.
Proof.
  intros Hd Hrow Hf HQ.
  destruct (rect_updates i w h g (λ x y, (dx + x, dy + y)) rl (λ x _, live x) row f 0 x1 0 y1 t)
    as (t' & E & U); [done|done|done|intros x y x' y' [= H1 H2]; lia|].
  exists t'. split; [exact E|]. eapply updates_ext; [exact U|]. intros a b Hin. cbv beta.
  rewrite (rect_pixels rl (λ x _, live x)). by apply HQ.
Qed.

(** C5. A copy between two bitmaps never leaves either of them and is exact:
    the pixels in the target rectangle, in the clip and with a source inside
    the source bitmap get the tinted source pixel, blended by its alpha; all
    other pixels and bitmaps keep their values. *)
Theorem blit_spec dst src w h sw sh dst_x dst_y dst_w dst_h src_x src_y src_w src_h clip bp t :
  dst ≠ src → dims t dst w h → dims t src sw sh →
  0 < dst_w → 0 < dst_h → 0 < src_w → 0 < src_h →
  blit_ints dst_x dst_y dst_w dst_h src_x src_y src_w src_h →
  ∃ t', muplar_blit_bitmap dst src dst_x dst_y dst_w dst_h src_x src_y src_w src_h clip bp false t = Some t' ∧
    updates dst w h (blit_area sw sh dst_x dst_y dst_w dst_h src_x src_y src_w src_h clip)
      (blit_new src dst_x dst_y dst_w dst_h src_x src_y src_w src_h bp t) t t'.
Proof.
  intros Hne Hd Hs Hdw Hdh Hsw Hsh (I1 & I2 & I3 & I4 & I5 & I6 & I7 & I8).
  pose proof Hd as [Hw Hh (b & px & Ht & Hbw & Hbh & Hpx & _ & _)].
  pose proof Hs as [Hw' Hh' (b' & px' & Ht' & Hbw' & Hbh' & Hpx' & _ & _)].
  unfold muplar_blit_bitmap. rewrite Ht, Ht'. obind. rewrite Hpx, Hpx', Hbw, Hbh, Hbw', Hbh'.
  rewrite !(proj2 (Z.leb_gt _ _)) by done. cbn [orb]. cbv zeta.
  assert (∀ d n k m j, in_s32 d → in_s32 (d + n) → 0 <= k < n → in_s32 m → in_s32 (m + j) → 0 < j →
    ck (d + k) = Some (d + k) ∧ ck (m + k * j / n) = Some (m + k * j / n)) as Hck.
  { intros d n k m j H1 H2 Hk H3 H4 Hj. pose proof (scale_range k j n Hk Hj).
    unfold in_s32 in *. split; apply ck_ok; unfold in_s32; lia. }
  eapply (copy_updates dst w h _ dst_x dst_y (row_live h sh dst_y dst_h src_y src_h clip)
    (col_live w sw dst_x dst_w src_x src_w clip)).
  - done.
  - intros y t1 Hy. destruct (Hck dst_y dst_h y src_y src_h I2 I4 Hy I6 I8 Hsh) as [-> ->]. obind.
    unfold row_live. destruct (_ || (h <=? dst_y + y)); cbn [negb andb]; [done|].
    destruct (_ || (sh <=? _)); reflexivity.
  - intros x y t1 Hx Hy Hrl Hd1 Ho. unfold row_live in Hrl. apply andb_true_iff in Hrl as [Hr1 Hr2].
    apply negb_true_iff in Hr1, Hr2.
    destruct (Hck dst_x dst_w x src_x src_w I1 I3 Hx I5 I7 Hsw) as [-> ->]. obind. unfold col_live.
    destruct (_ || (w <=? dst_x + x)) eqn:Hc1; cbn [negb andb].
    { exists t1. split; [done|]. by apply updates_none. }
    destruct (_ || (sw <=? _)) eqn:Hc2; cbn [negb andb].
    { exists t1. split; [done|]. by apply updates_none. }
    assert (dims t1 src sw sh) as Hs1.
    { destruct Hs as [? ? (sb & spx & H1 & H2)]. split; [done|done|]. exists sb, spx. by rewrite Ho by done. }
    assert (inside w h (dst_x + x) (dst_y + y)) as Hin by (unfold inside; lia).
    assert (inside sw sh (src_x + x * src_w / dst_w) (src_y + y * src_h / dst_h)) as Hins
      by (unfold inside; lia).
    destruct (blit_pixel_plain dst src w h sw sh dst_x dst_y dst_w dst_h src_x src_y src_w src_h bp t1 x y
      Hd1 Hs1 Hin Hins) as (c & v & Hgc & Hgv & Hu & Hcase).
    assert (blit_new src dst_x dst_y dst_w dst_h src_x src_y src_w src_h bp t (dst_x + x) (dst_y + y) v =
            blit_ref bp c v) as Hg.
    { unfold blit_new, blit_sx, blit_sy. replace (dst_x + x - dst_x) with x by lia.
      replace (dst_y + y - dst_y) with y by lia.
      assert (get_pixel t src (src_x + x * src_w / dst_w) (src_y + y * src_h / dst_h) = Some c) as ->; [|done].
      rewrite <- Hgc. unfold get_pixel. by rewrite Ho by done. }
    destruct Hcase as [[-> Hid]| ->].
    + exists t1. split; [done|]. apply updates_id; [done|]. intros a b0 v' _ Hv' Hab.
      apply bool_decide_eq_true in Hab. injection Hab as -> ->. rewrite Hgv in Hv'. injection Hv' as <-.
      by rewrite Hg.
    + rewrite <- Hg. apply updates_set; [done|done|done|by rewrite Hg|].
      intros x' y' _. apply bool_decide_ext. split; [by intros [= -> ->]|by intros [-> ->]].
  - intros a b0 Hin. by apply live_area.
Qed.

(** Witness of [blit_spec]: one half-transparent pixel stretched over four. *)
Lemma blit_spec_witness :
  ∃ t', muplar_blit_bitmap 0 1 0 0 2 2 0 0 1 1 (Frame S754_nan S754_nan S754_nan S754_nan 0 0 2 2)
          (BlitPaint None 255) false demo_table = Some t' ∧
    updates 0 2 2 (blit_area 1 1 0 0 2 2 0 0 1 1 (Frame S754_nan S754_nan S754_nan S754_nan 0 0 2 2))
      (blit_new 1 0 0 2 2 0 0 1 1 (BlitPaint None 255) demo_table) demo_table t'.
Proof.
  apply (blit_spec 0 1 2 2 1 1 0 0 2 2 0 0 1 1 _ (BlitPaint None 255) demo_table);
    [lia|exact demo_dims|exact demo_dims1|lia..|unfold blit_ints, in_s32; lia].
Defined.
