(* ===== verification/RasterSafe.v ===== *)
(** * Drawing never leaves the pixel arrays

    For every drawing routine of ShimRaster: on bitmaps with their arrays and
    with floats in the format it has a result, and the result has the same
    bitmaps with the same sizes.  No assumption is made on source and target
    being different. *)

From S2P Require Import Prelude Machine Float32 ShimTables ShimFont ShimRaster RasterProps.

Definition header (b : bitmap_state) : Z * Z * Z * Z * Z :=
  (bs_token b, bs_width b, bs_height b, bs_bpp b, bs_config b).

(** The same bitmaps, with arrays of the same sizes. *)
Record keeps_shape (t t' : table) : Prop := {
  ks_header : ∀ i, header <$> t' !! i = header <$> t !! i;
  ks_dims : ∀ i w h, dims t i w h → dims t' i w h
}.

#[export] Instance keeps_shape_preorder : PreOrder keeps_shape.
Proof.
  split; [split; done|]. intros t1 t2 t3 [H1 D1] [H2 D2]. split; [|auto].
  intros i. by rewrite H2, H1.
Qed.

Lemma header_with_pixels b px : header (with_pixels b px) = header b.
Proof. done. Qed.

Lemma updates_shape i w h P g t t' : dims t i w h → updates i w h P g t t' → keeps_shape t t'.
Proof.
  intros Hd [Hd' Ho Hh _]. pose proof Hd as [_ _ (b & px & Hb & Hbw & Hbh & _)]. split.
  - intros j. destruct (decide (j = i)) as [->|Hj]; [|by rewrite Ho].
    destruct (Hh b Hb) as (px' & [E|E]); rewrite E, Hb; done.
  - intros j w' h' Hdj. destruct (decide (j = i)) as [->|Hj].
    + destruct Hdj as [_ _ (b' & px' & Hb' & <- & <- & _)]. rewrite Hb in Hb'. injection Hb' as <-.
      by rewrite Hbw, Hbh.
    + destruct Hdj as [? ? (b' & px' & Hb' & H)]. split; [done|done|]. exists b', px'. by rewrite Ho.
Qed.

Lemma set_pixel_safe t i w h x y v :
  dims t i w h → inside w h x y → in_u32 v → ∃ t', set_pixel t i x y v = Some t' ∧ keeps_shape t t'.
Proof.
  intros Hd Hin Hv. destruct (get_pixel_ok t i w h x y Hd Hin) as (old & Hold & _).
  destruct (updates_set i w h (λ a b, bool_decide (a = x ∧ b = y)) (λ _ _ _, v) t x y old)
    as (t' & E & U); [done..|].
  exists t'. split; [exact E|]. by eapply updates_shape.
Qed.

Lemma loop_safe (f : Z → table → option table) l t :
  (∀ z t1, z ∈ l → keeps_shape t t1 → ∃ t2, f z t1 = Some t2 ∧ keeps_shape t1 t2) →
  ∃ t', loop f l t = Some t' ∧ keeps_shape t t'.
Proof.
  revert t. induction l as [|z l IH]; intros t Hf; [by exists t|]. cbn [loop].
  destruct (Hf z t) as (t1 & E1 & K1); [apply list_elem_of_here|done|]. rewrite E1. obind.
  destruct (IH t1) as (t' & E & K).
  - intros z' t2 Hz' K2. apply Hf; [by apply list_elem_of_further|by etransitivity].
  - exists t'. split; [done|by etransitivity].
Qed.

Lemma range_safe (f : Z → table → option table) lo hi t :
  (∀ z t1, lo <= z < hi → keeps_shape t t1 → ∃ t2, f z t1 = Some t2 ∧ keeps_shape t1 t2) →
  ∃ t', for_range lo hi f t = Some t' ∧ keeps_shape t t'.
Proof.
  intros Hf. apply loop_safe. intros z t1 Hz K. apply elem_of_seqZ in Hz. apply Hf; [lia|done].
Qed.

(** A result of unchanged shape, in the goals of the lemmas below. *)
Definition safe (f : table → option table) (t : table) : Prop := ∃ t', f t = Some t' ∧ keeps_shape t t'.
Lemma safe_same t : safe Some t.
Proof. by exists t. Qed.

Lemma fill_rect_safe i w h l tp r b color t :
  dims t i w h → in_u32 color → safe (muplar_fill_rect i l tp r b color) t.
Proof.
  intros Hd Hc. destruct (fill_rect_updates i w h l tp r b color t Hd Hc) as (t' & E & U).
  exists t'. split; [done|by eapply updates_shape].
Qed.

Lemma floor_total x : f32_valid x → ∃ z, muplar_floor_to_int x = Some z ∧ -1000000 <= z <= 1000000.
Proof.
  intros Hv. destruct (to_int_refs x Hv) as [-> _]. exists (floor_ref x). split; [done|].
  destruct x as [| [] | |]; cbn [floor_ref]; unfold clampM; lia.
Qed.
Lemma ceil_total x : f32_valid x → ∃ z, muplar_ceil_to_int x = Some z ∧ -1000000 <= z <= 1000000.
Proof.
  intros Hv. destruct (to_int_refs x Hv) as [_ ->]. exists (ceil_ref x). split; [done|].
  destruct x as [| [] | |]; cbn [ceil_ref]; unfold clampM; lia.
Qed.

(** ** Circles *)

Lemma fill_circle_safe i w h cx cy radius color t :
  dims t i w h → f32_valid cx → f32_valid cy → f32_valid radius → in_u32 color →
  safe (muplar_fill_circle i cx cy radius color) t.
Proof.
  intros Hd Hcx Hcy Hr Hc. pose proof Hd as [Hw Hh (b & px & Hb & Hbw & Hbh & _)].
  destruct (floor_total (fsub cx radius)) as (l & El & _); [auto with word|].
  destruct (floor_total (fsub cy radius)) as (tp & Et & _); [auto with word|].
  destruct (ceil_total (fadd cx radius)) as (r & Er & _); [auto with word|].
  destruct (ceil_total (fadd cy radius)) as (bt & Eb & _); [auto with word|].
  unfold safe, muplar_fill_circle. rewrite El, Et, Er, Eb. obind. destruct (fle radius _); [apply safe_same|].
  rewrite Hb. obind. rewrite Hbw, Hbh. cbv zeta.
  apply range_safe. intros y t1 Hy K1. apply range_safe. intros x t2 Hx K2.
  destruct (in_circle _ _ _ _ _); [|apply safe_same].
  apply (set_pixel_safe _ _ w h); [apply K2, K1, Hd| |done].
  unfold inside. destruct (Z.ltb_spec l 0), (Z.ltb_spec tp 0), (Z.ltb_spec w r), (Z.ltb_spec h bt); lia.
Qed.

(** ** Text *)

(** A frame whose floats are in the format and whose clip only shrank from the
    bounds of a bitmap. *)
Record frame_ok (f : frame) : Prop := {
  fo_tx : f32_valid (f_tx f);
  fo_ty : f32_valid (f_ty f);
  fo_sx : f32_valid (f_sx f);
  fo_sy : f32_valid (f_sy f);
  fo_left : 0 <= f_left f <= 1000000;
  fo_top : 0 <= f_top f <= 1000000;
  fo_right : -1000000 <= f_right f <= 2147483647;
  fo_bottom : -1000000 <= f_bottom f <= 2147483647
}.

Lemma glyph_pixel_safe i w h tr tg tb ba ga x y t :
  dims t i w h → inside w h x y → 0 <= tr < 256 → 0 <= tg < 256 → 0 <= tb < 256 →
  0 <= ba < 256 → 0 <= ga < 256 → safe (glyph_pixel i tr tg tb ba ga x y) t.
Proof.
  intros Hd Hin Hr Hg Hb Hba Hga. unfold safe, glyph_pixel.
  destruct (get_pixel_ok t i w h x y Hd Hin) as (v & -> & Hv). obind.
  assert (0 <= ga * ba / 255 <= 255) as Ha.
  { split; [apply Z.div_pos; nia|]. apply Z.div_le_upper_bound; nia. }
  set (a := ga * ba / 255) in *. apply (set_pixel_safe _ _ w h); [done|done|].
  pose proof (alpha_range v) as Hav.
  assert (0 <= alpha_of v * (255 - a) / 255 <= 255 - a) as Hd2.
  { split; [apply Z.div_pos; nia|]. apply Z.div_le_upper_bound; nia. }
  apply pack_u32; [lia|apply mix_range; auto with word; lia..].
Qed.

Lemma draw_glyph_safe i w h f tr tg tb ba glyph gx gy t :
  dims t i w h → length glyph = 256%nat → bytes glyph →
  0 <= tr < 256 → 0 <= tg < 256 → 0 <= tb < 256 → 0 <= ba < 256 →
  safe (draw_glyph i f tr tg tb ba glyph gx gy) t.
Proof.
  intros Hd Hl Hby Hr Hg Hb Hba. pose proof Hd as [Hw Hh (b & px & Ht & Hbw & Hbh & _)].
  unfold safe, draw_glyph. rewrite Ht. obind. rewrite Hbw, Hbh.
  apply range_safe. intros r t1 Hrr K1. destruct (_ || (h <=? gy + r)) eqn:Er; [apply safe_same|].
  apply range_safe. intros c t2 Hcc K2. destruct (_ || (w <=? gx + c)) eqn:Ec; [apply safe_same|].
  unfold MUPLAR_FONT_H, MUPLAR_FONT_W in *.
  destruct (lookup_lt_is_Some_2 glyph (Z.to_nat (r * 16 + c))) as [ga Hga]; [lia|].
  rewrite Hga. obind. destruct (ga =? 0); [apply safe_same|].
  apply (glyph_pixel_safe i w h); [apply K2, K1, Hd|unfold inside; lia|done..|].
  exact (proj1 (Forall_lookup _ _) Hby _ _ Hga).
Qed.

Lemma draw_chars_safe i w h f tr tg tb ba text cx y t :
  dims t i w h → frame_ok f → f32_valid cx → f32_valid y →
  0 <= tr < 256 → 0 <= tg < 256 → 0 <= tb < 256 → 0 <= ba < 256 →
  safe (draw_chars i f tr tg tb ba text cx y) t.
Proof.
  intros Hd Hf Hx Hy Hr Hg Hb Hba. revert cx t Hx Hd.
  induction text as [|ch text IH]; intros cx t Hx Hd; [apply safe_same|].
  unfold safe. cbn [draw_chars]. destruct (_ || _); [by apply IH|].
  destruct font_ok as (Ha & Hm & Hglyphs).
  assert ((Z.to_nat (glyph_index ch) < 95)%nat) as Hidx.
  { unfold glyph_index, MUPLAR_FONT_FIRST_CHAR, MUPLAR_FONT_LAST_CHAR.
    destruct (Z.leb_spec 32 ch), (Z.leb_spec ch 126); cbn [andb]; lia. }
  destruct (lookup_lt_is_Some_2 muplar_font_advances (Z.to_nat (glyph_index ch))) as [adv ->]; [lia|].
  destruct (lookup_lt_is_Some_2 muplar_font_alpha (Z.to_nat (glyph_index ch))) as [glyph Hgl]; [lia|].
  rewrite Hgl. obind. destruct (proj1 (Forall_lookup _ _) Hglyphs _ _ Hgl) as [Hl Hby].
  destruct Hf as [V1 V2 V3 V4 _ _ _ _].
  destruct (floor_total (fadd (fmul cx (f_sx f)) (f_tx f))) as (gx & -> & _); [auto with word|].
  destruct (floor_total (fadd (fmul (fsub y (f32_of_Z 11)) (f_sy f)) (f_ty f))) as (gy & -> & _);
    [auto with word|]. obind.
  destruct (draw_glyph_safe i w h f tr tg tb ba glyph gx gy t) as (t1 & -> & K1); [done..|]. obind.
  destruct (IH (fadd cx (f32_of_Z adv)) t1) as (t2 & E2 & K2); [auto with word|by apply K1|].
  exists t2. split; [exact E2|by etransitivity].
Qed.

Lemma draw_text_safe i w h f text x y color t :
  dims t i w h → frame_ok f → f32_valid x → f32_valid y → safe (draw_text_on i f text x y color) t.
Proof.
  intros Hd Hf Hx Hy. pose proof Hd as [_ _ (b & px & Hb & _ & _ & Hpx & _)].
  unfold safe, draw_text_on. rewrite Hb. obind. rewrite Hpx. destruct text as [|ch text]; [apply safe_same|].
  cbv zeta. set (hint := bool_decide _).
  apply (draw_chars_safe i w h); try done; try (destruct hint; [lia|auto with word]).
  destruct (_ =? 0); [lia|apply alpha_range].
Qed.

(** ** Copies *)

Lemma f32_one : f32_of_Z 1 = S754_finite false 8388608 (-23).
Proof. vm_compute. reflexivity. Qed.
Lemma scaled_one : scaled (S754_finite false 8388608 (-23)) = 2 ^ 149.
Proof. vm_compute. reflexivity. Qed.

(** The mask near the rim of the rounded square is between 0 and 1. *)
Lemma mask_range r dist :
  f32_valid r → f32_valid dist → flt (fsub r (f32_of_Z 1)) dist = true →
  let m := fsub r dist in
  let m := if flt m (S754_zero false) then S754_zero false else m in
  let m := if flt (f32_of_Z 1) m then f32_of_Z 1 else m in
  f32_valid m ∧ f32_finite m = true ∧ 0 <= scaled m <= 2 ^ 149.
Proof.
  intros Hr Hd Hlt m0. assert (f32_valid m0) as V0 by (apply fsub_valid; done).
  assert (is_nan m0 = false) as N0.
  { assert (is_nan dist = false) as Nd
      by (destruct dist; try done; unfold flt, SFltb in Hlt; by destruct (fsub _ _)).
    rewrite f32_one in Hlt. unfold m0. destruct r as [[]|[]| |], dist as [[]|[]| |]; try done.
    apply normalize_ok. }
  assert (f32_valid (f32_of_Z 1)) as V1 by auto with word.
  cbv zeta. set (m1 := if flt m0 (S754_zero false) then S754_zero false else m0).
  assert (f32_valid m1 ∧ (m1 = S754_infinity false ∨ f32_finite m1 = true ∧ 0 <= scaled m1)) as [Vm1 Hm1].
  { unfold m1. destruct (flt m0 (S754_zero false)) eqn:E.
    - split; [done|right]. split; [done|]. cbn. lia.
    - split; [done|]. destruct (f32_finite m0) eqn:F.
      + right. split; [done|]. rewrite flt_scaled in E by done. cbn in E. lia.
      + left. destruct m0 as [?|[]| |]; try done. }
  destruct Hm1 as [-> | [F1 P1]].
  { rewrite f32_one. cbn [flt]. change (flt _ _) with true. cbn iota. rewrite scaled_one. done. }
  destruct (flt (f32_of_Z 1) m1) eqn:E.
  - rewrite f32_one, scaled_one. done.
  - rewrite flt_scaled in E by (done || by rewrite f32_one). rewrite f32_one, scaled_one in E. split_and!; (done || lia).
Qed.

(** The floats of a rounded square are in the format. *)
Record squircle_ok (q : squircle) : Prop := {
  so_cx : f32_valid (sq_cx q);
  so_cy : f32_valid (sq_cy q);
  so_hw : f32_valid (sq_hw q);
  so_hh : f32_valid (sq_hh q);
  so_r : f32_valid (sq_r q)
}.
Lemma squircle_of_ok x y w h : squircle_ok (squircle_of x y w h).
Proof.
  unfold squircle_of. split; cbn [sq_cx sq_cy sq_hw sq_hh sq_r]; unfold half, f32_lit; try (auto 8 with word).
  apply fmul_valid; [destruct (flt _ _)|]; auto with word.
Qed.

Lemma fabs_valid x : f32_valid x → f32_valid (fabs x).
Proof. by destruct x. Qed.

Lemma sq_dist_valid q x y dist : squircle_ok q → sq_dist q x y = Some dist → f32_valid dist.
Proof.
  intros [H1 H2 H3 H4 H5] Hd. unfold sq_dist in Hd. destruct (_ && _); [|done]. injection Hd as <-.
  unfold sq_off, half, f32_lit.
  assert (∀ c p e, f32_valid c → f32_valid e →
    f32_valid (fsub (fabs (fsub (fadd (f32_of_Z p) (fdiv (f32_of_Z 1) (f32_of_Z 2))) c)) e)) as Hv.
  { intros c p e Hc He. apply fsub_valid; [apply fabs_valid|]; auto with word. }
  assert (f32_valid (fsub (sq_hw q) (sq_r q))) by auto with word.
  assert (f32_valid (fsub (sq_hh q) (sq_r q))) by auto with word.
  apply fsqrt_valid, fadd_valid; apply fmul_valid; by apply Hv.
Qed.

Lemma sq_alpha_ok q x y a :
  squircle_ok q → 0 < a < 256 → ∃ a', sq_alpha q x y a = Some a' ∧ 0 <= a' < 256.
Proof.
  intros Hq Ha. unfold sq_alpha. destruct (sq_dist q x y) as [dist|] eqn:Ed; [|exists a; split; [done|lia]].
  destruct (flt (fsub (sq_r q) (f32_of_Z 1)) dist) eqn:E; [|exists a; split; [done|lia]].
  destruct (mask_range (sq_r q) dist (so_r q Hq) (sq_dist_valid _ _ _ _ Hq Ed) E) as (V & F & R).
  cbv zeta in *. destruct (unit_product a _ Ha V F R) as (z & Hz & Hr).
  unfold f32_to_u8. rewrite Hz. obind. exists z.
  rewrite (proj2 (Z.leb_le _ _)), (proj2 (Z.leb_le _ _)) by lia. split; [done|lia].
Qed.

Lemma blit_pixel_safe dst src bp q w h sw sh sx sy px py t :
  dims t dst w h → dims t src sw sh → inside sw sh sx sy → inside w h px py →
  (∀ q', q = Some q' → squircle_ok q') →
  safe (blit_pixel dst src bp q sx sy px py) t.
Proof.
  intros Hd Hs Hins Hin Hq. unfold safe, blit_pixel.
  destruct (get_pixel_ok t src sw sh sx sy Hs Hins) as (c & -> & Hc). obind.
  pose proof (u8_range (Z.shiftr c 24)) as Hu. unfold in_u8 in Hu.
  destruct (Z.eqb_spec (u8 (Z.shiftr c 24)) 0) as [E0|E0]; [apply safe_same|].
  assert (∃ a, match q with Some q => sq_alpha q px py (u8 (Z.shiftr c 24)) | None => Some (u8 (Z.shiftr c 24)) end
               = Some a ∧ 0 <= a < 256) as (a & -> & Ha).
  { destruct q as [q|]; [|by eexists]. apply sq_alpha_ok; [by apply Hq|lia]. }
  obind. destruct (a =? 0); [apply safe_same|].
  destruct (blit_tint_range bp a c Ha Hc) as [Ha' Hc']. destruct (blit_tint bp a c) as [a' c'].
  cbn [fst snd] in *. destruct (a' =? 255); [by apply (set_pixel_safe _ _ w h)|].
  destruct (get_pixel_ok t dst w h px py Hd Hin) as (v & -> & _). obind.
  apply (set_pixel_safe _ _ w h); [done|done|]. by apply over_u32.
Qed.

(** Copying is safe whatever the two bitmaps, the same one included, as long
    as the target and the source rectangles are made of [int]s. *)
Lemma blit_safe dst src w h sw sh dst_x dst_y dst_w dst_h src_x src_y src_w src_h clip bp mask t :
  dims t dst w h → dims t src sw sh →
  blit_ints dst_x dst_y dst_w dst_h src_x src_y src_w src_h →
  safe (muplar_blit_bitmap dst src dst_x dst_y dst_w dst_h src_x src_y src_w src_h clip bp mask) t.
Proof.
  intros Hd Hs (I1 & I2 & I3 & I4 & I5 & I6 & I7 & I8).
  pose proof Hd as [Hw Hh (b & px & Ht & Hbw & Hbh & Hpx & _ & _)].
  pose proof Hs as [Hw' Hh' (b' & px' & Ht' & Hbw' & Hbh' & Hpx' & _ & _)].
  unfold safe, muplar_blit_bitmap. rewrite Ht, Ht'. obind. rewrite Hpx, Hpx', Hbw, Hbh, Hbw', Hbh'.
  destruct (_ || (src_h <=? 0)) eqn:Hpos; [apply safe_same|]. cbv zeta.
  assert (∀ q', (if mask then Some (squircle_of dst_x dst_y dst_w dst_h) else None) = Some q' → squircle_ok q') as Hq.
  { intros q' Hq. destruct mask; [|done]. injection Hq as <-. apply squircle_of_ok. }
  set (q := if mask then _ else _) in *.
  assert (∀ d n k m j, in_s32 d → in_s32 (d + n) → 0 <= k < n → in_s32 m → in_s32 (m + j) → 0 < j →
    ck (d + k) = Some (d + k) ∧ ck (m + k * j / n) = Some (m + k * j / n)) as Hck.
  { intros d n k m j H1 H2 Hk H3 H4 Hj. pose proof (scale_range k j n Hk Hj).
    unfold in_s32 in *. split; apply ck_ok; unfold in_s32; lia. }
  apply range_safe. intros y t1 Hy K1.
  destruct (Hck dst_y dst_h y src_y src_h I2 I4 Hy I6 I8) as [-> ->]; [lia|]. obind.
  destruct (_ || (h <=? dst_y + y)) eqn:Er1; [apply safe_same|].
  destruct (_ || (sh <=? _)) eqn:Er2; [apply safe_same|].
  apply range_safe. intros x t2 Hx K2.
  destruct (Hck dst_x dst_w x src_x src_w I1 I3 Hx I5 I7) as [-> ->]; [lia|]. obind.
  destruct (_ || (w <=? dst_x + x)) eqn:Ec1; [apply safe_same|].
  destruct (match q with Some q => sq_outside q _ _ | None => false end); [apply safe_same|].
  destruct (_ || (sw <=? _)) eqn:Ec2; [apply safe_same|].
  apply (blit_pixel_safe _ _ _ _ w h sw sh); [apply K2, K1, Hd|apply K2, K1, Hs|unfold inside; lia..|exact Hq].
Qed.
