(* ===== verification/ShimReach.v ===== *)
(** * The natives never fault

    The graphics natives as steps on the tables, the invariant of the tables,
    and the proof that any sequence of calls with well-formed arguments runs to
    its end and keeps the invariant: no access leaves a pixel array or a table,
    no conversion is out of range. *)

From S2P Require Import Prelude Machine Float32 ShimTables ShimFont ShimRaster.
From S2P Require Import ShimPaint ShimCanvas ShimPng RasterProps RasterSafe.

(** ** The invariant *)

(** The stack of a canvas is in its array, and all frames are well formed. *)
Record canvas_ok (c : canvas_state) : Prop := {
  co_depth : (cv_depth c <= 512)%nat;
  co_stack : length (cv_stack c) = 512%nat;
  co_now : frame_ok (cv_now c);
  co_frames : Forall frame_ok (cv_stack c)
}.

(** Every live bitmap has its array of pixels, every canvas is well formed, and
    the tables have their sizes. *)
Record shim_ok (s : shim) : Prop := {
  so_bitmaps : ∀ i b, bitmaps s !! i = Some b → bs_token b ≠ 0 →
    dims (bitmaps s) i (bs_width b) (bs_height b) ∧ bs_width b * bs_height b <= 536870912;
  so_canvases : Forall canvas_ok (canvases s);
  so_ncanvases : length (canvases s) = n_canvases;
  so_nshaders : length (shaders s) = n_shaders
}.

Lemma frame_ok_no_frame : frame_ok no_frame.
Proof. split; (reflexivity || (cbn; lia)). Qed.

Lemma shim_init_ok : shim_ok shim_init.
Proof.
  split.
  - intros i b Hb. unfold shim_init in Hb. cbn [bitmaps] in Hb.
    apply lookup_replicate in Hb as [-> _]. intros Hn. by destruct Hn.
  - apply Forall_replicate. split; [cbn; lia|apply length_replicate|apply frame_ok_no_frame|].
    apply Forall_replicate, frame_ok_no_frame.
  - apply length_replicate.
  - apply length_replicate.
Qed.

(** ** Looking up a token *)

Lemma find_token_Some {A} (tok : A → Z) l token i :
  find_token tok l token = Some i → token ≠ 0 ∧ ∃ x, l !! i = Some x ∧ tok x = token.
Proof.
  unfold find_token. destruct (Z.eqb_spec token 0); [done|]. intros H. split; [done|].
  apply find_idx_Some in H as [(x & Hx & Ht) _]. exists x. split; [done|]. lia.
Qed.

Lemma free_slot_Some {A} (tok : A → Z) l i :
  free_slot tok l = Some i → (i < length l)%nat ∧ ∃ x, l !! i = Some x ∧ tok x = 0.
Proof.
  unfold free_slot. intros H. apply find_idx_Some in H as [(x & Hx & Ht) _].
  split; [by eapply lookup_lt_Some|]. exists x. split; [done|]. lia.
Qed.

Lemma find_bitmap_ok s token i :
  shim_ok s → muplar_find_bitmap token s = Some i →
  ∃ b, bitmaps s !! i = Some b ∧ bs_token b = token ∧
    dims (bitmaps s) i (bs_width b) (bs_height b) ∧ bs_width b * bs_height b <= 536870912.
Proof.
  intros Hok H. apply find_token_Some in H as (Hn & b & Hb & Ht). exists b.
  split; [done|]. split; [done|]. apply (so_bitmaps _ Hok); [done|congruence].
Qed.

Lemma the_canvas_ok s token c : shim_ok s → the_canvas token s = Some c → canvas_ok c.
Proof.
  intros Hok H. unfold the_canvas in H. inv_opt.
  exact (proj1 (Forall_lookup _ _) (so_canvases _ Hok) _ _ H).
Qed.

Lemma canvas_target_ok s token c i :
  shim_ok s → canvas_target token s = Some (c, i) →
  canvas_ok c ∧ ∃ b, bitmaps s !! i = Some b ∧ dims (bitmaps s) i (bs_width b) (bs_height b).
Proof.
  intros Hok H. unfold canvas_target in H.
  destruct (the_canvas token s) as [c'|] eqn:Ec; [|done]. cbn in H.
  destruct (muplar_find_bitmap (cv_bitmap c') s) as [i'|] eqn:Ei; [|done]. cbn in H. injection H as -> ->.
  split; [by eapply the_canvas_ok|]. destruct (find_bitmap_ok _ _ _ Hok Ei) as (b & Hb & _ & Hd & _). eauto.
Qed.

(** ** Runs that end in a well-formed state *)

Definition runs {A} (m : Sh A) (s : shim) : Prop := ∃ a s', m s = Done a s' ∧ shim_ok s'.

Lemma runs_ret {A} (a : A) s : shim_ok s → runs (mret a) s.
Proof. intros H. by exists a, s. Qed.
Lemma runs_bind {A B} (m : Sh A) (f : A → Sh B) s :
  runs m s → (∀ a s', m s = Done a s' → shim_ok s' → runs (f a) s') → runs (m ≫= f) s.
Proof.
  intros (a & s1 & E & H1) Hf. destruct (Hf a s1 E H1) as (b & s2 & E2 & H2).
  exists b, s2. by rewrite (bind_step _ _ _ _ _ E).
Qed.
Lemma runs_seq {A B} (m : Sh A) (f : A → Sh B) s :
  runs m s → (∀ a s', shim_ok s' → runs (f a) s') → runs (m ≫= f) s.
Proof. intros Hm Hf. apply runs_bind; [done|auto]. Qed.
Lemma runs_get {B} (f : shim → Sh B) s : runs (f s) s → runs (get ≫= f) s.
Proof. done. Qed.
Lemma runs_gets {A B} (g : shim → A) (f : A → Sh B) s : runs (f (g s)) s → runs (gets g ≫= f) s.
Proof. done. Qed.
Lemma runs_put (s s' : shim) : shim_ok s' → runs (put s') s.
Proof. intros H. by exists (), s'. Qed.
Lemma runs_put_bind {B} (s' : shim) (f : () → Sh B) s : runs (f ()) s' → runs (put s' ≫= f) s.
Proof. done. Qed.
Lemma runs_lift {A B} (o : option A) a (f : A → Sh B) s :
  o = Some a → runs (f a) s → runs (lift o ≫= f) s.
Proof. intros ->. done. Qed.
Lemma runs_lift_end {A} (o : option A) s : is_Some o → shim_ok s → runs (lift o) s.
Proof. intros [a ->] H. by exists a, s. Qed.

(** ** Changes of the tables *)

Lemma ok_paints l s : shim_ok s → shim_ok (set_paints l s).
Proof. by intros [H1 H2 H3 H4]. Qed.
Lemma ok_filters l s : shim_ok s → shim_ok (set_filters l s).
Proof. by intros [H1 H2 H3 H4]. Qed.
Lemma ok_counters s b c p f sh w d :
  shim_ok s → shim_ok (Shim (bitmaps s) (canvases s) (paints s) (filters s) (shaders s) b c p f sh w d).
Proof. by intros [H1 H2 H3 H4]. Qed.

Lemma ok_canvases s l :
  shim_ok s → Forall canvas_ok l → length l = length (canvases s) → shim_ok (set_canvases l s).
Proof. intros [H1 H2 H3 H4] Hl Hn. split; cbn; [done|done|congruence|done]. Qed.

Lemma ok_shape s t : shim_ok s → keeps_shape (bitmaps s) t → shim_ok (set_bitmaps t s).
Proof.
  intros [H1 H2 H3 H4] [Hh Hd]. split; cbn; [|done..]. intros i b Hb Hn. specialize (Hh i).
  rewrite Hb in Hh. cbn in Hh. symmetry in Hh. apply fmap_Some in Hh as (b0 & Hb0 & E).
  unfold header in E. injection E as Et Ew Eh _ _.
  destruct (H1 i b0 Hb0) as [Hdim Hsm]; [congruence|]. rewrite Ew, Eh. split; [by apply Hd|done].
Qed.

Lemma runs_draw f s : shim_ok s → safe f (bitmaps s) → runs (draw f) s.
Proof.
  intros Hok (t & E & K). unfold draw. apply runs_get. apply (runs_lift _ t _ _ E).
  apply runs_put. by apply ok_shape.
Qed.

Lemma runs_upd_canvas token f s :
  shim_ok s → (∀ c, canvas_ok c → canvas_ok (f c)) → runs (upd_canvas token f) s.
Proof.
  intros Hok Hf. unfold upd_canvas. apply runs_get. destruct (muplar_canvas_for_drawing token s) as [i|];
    [|by apply runs_ret]. apply runs_put. apply ok_canvases; [done| |apply length_alter].
  apply Forall_alter; [apply so_canvases, Hok|]. intros c _ Hc. by apply Hf.
Qed.

Lemma runs_upd_paint token f s : shim_ok s → runs (upd_paint token f) s.
Proof.
  intros Hok. unfold upd_paint. apply runs_get. destruct (muplar_find_paint token s) as [i|];
    [apply runs_put; by apply ok_paints|by apply runs_ret].
Qed.

Lemma runs_count k s : shim_ok s → runs (count_draw k) s.
Proof. intros Hok. eexists (), _. split; [reflexivity|]. by apply (ok_counters s). Qed.

(** ** Canvases and allocation *)

Lemma fresh_frame_ok s token : shim_ok s → frame_ok (fresh_frame (the_bitmap token s)).
Proof.
  intros Hok. assert (∀ b, the_bitmap token s = Some b →
    0 < bs_width b <= 2147483647 ∧ 0 < bs_height b <= 2147483647) as Hb.
  { intros b Hb. unfold the_bitmap in Hb. destruct (muplar_find_bitmap token s) as [i|] eqn:E; [|done].
    destruct (find_bitmap_ok _ _ _ Hok E) as (b' & Hb' & _ & [? ? _] & _). cbn in Hb. rewrite Hb' in Hb.
    injection Hb as <-. split; assumption. }
  unfold fresh_frame. split; cbn [f_tx f_ty f_sx f_sy f_left f_top f_right f_bottom];
    try done; try (apply f32_of_Z_valid); try lia.
  - destruct (the_bitmap token s) as [b|]; [specialize (Hb b eq_refl)|]; lia.
  - destruct (the_bitmap token s) as [b|]; [specialize (Hb b eq_refl)|]; lia.
Qed.

Lemma reset_ok c f token bitmap :
  canvas_ok c → frame_ok f → canvas_ok (CanvasState token bitmap f 0 (cv_stack c)).
Proof. intros [H1 H2 H3 H4] Hf. split; cbn; [lia|done|done|done]. Qed.

Lemma canvas_assign_ok i token bitmap s : shim_ok s → shim_ok (canvas_assign i token bitmap s).
Proof.
  intros Hok. apply ok_canvases; [done| |apply length_alter].
  apply Forall_alter; [apply so_canvases, Hok|]. intros c _ Hc. apply (reset_ok c); [done|].
  by apply fresh_frame_ok.
Qed.

Lemma canvas_assign_lookup i token bitmap s :
  (i < length (canvases s))%nat → is_Some (cv_token <$> canvases (canvas_assign i token bitmap s) !! i).
Proof.
  intros Hi. unfold canvas_assign. cbn [canvases set_canvases]. rewrite list_lookup_alter_eq.
  destruct (lookup_lt_is_Some_2 _ _ Hi) as [c ->]. by eexists.
Qed.

Lemma alloc_canvas_ok bitmap s :
  shim_ok s → ∃ i s', muplar_alloc_canvas bitmap s = Done i s' ∧ shim_ok s' ∧
    is_Some (cv_token <$> canvases s' !! i).
Proof.
  intros Hok. unfold muplar_alloc_canvas, get, put, mbind, M_bind.
  destruct (free_slot cv_token (canvases s)) as [i|] eqn:E; eexists _, _; (split; [reflexivity|]).
  - split; [by apply (ok_counters (canvas_assign _ _ _ s)), canvas_assign_ok|].
    apply free_slot_Some in E as [Hi _]. by apply canvas_assign_lookup.
  - split; [by apply (ok_counters (canvas_assign _ _ _ s)), canvas_assign_ok|].
    apply canvas_assign_lookup. rewrite (so_ncanvases _ Hok).
    pose proof (Z.mod_pos_bound (wrap_idx s) (Z.of_nat n_canvases) ltac:(unfold n_canvases; lia)). lia.
Qed.

Lemma runs_new_canvas bitmap s :
  shim_ok s → runs (i ← muplar_alloc_canvas bitmap; s ← get; lift (cv_token <$> canvases s !! i)) s.
Proof.
  intros Hok. destruct (alloc_canvas_ok bitmap s Hok) as (i & s' & E & Hok' & Hs).
  apply runs_bind; [by exists i, s'|]. intros i' s'' E'. rewrite E in E'. injection E' as <- <-.
  intros _. apply runs_get. by apply runs_lift_end.
Qed.

Section Alloc.
Variable calloc_ok : Z → bool.
(** The memory is too small for half a billion pixels. *)
Hypothesis calloc_small : ∀ n, calloc_ok n = true → n <= 536870912.

Lemma alloc_bitmap_ok w h s :
  shim_ok s → w <= 2147483647 → h <= 2147483647 → runs (muplar_alloc_bitmap calloc_ok w h) s.
Proof.
  intros Hok Hw Hh. unfold muplar_alloc_bitmap. cbv zeta.
  set (w' := if w <=? 0 then 1 else w). set (h' := if h <=? 0 then 1 else h).
  assert (0 < w' <= 2147483647) as Hw' by (unfold w'; destruct (Z.leb_spec w 0); lia).
  assert (0 < h' <= 2147483647) as Hh' by (unfold h'; destruct (Z.leb_spec h 0); lia).
  assert (u64 (w' * h') = w' * h') as -> by (apply u64_small; unfold in_u64; nia).
  apply runs_get. destruct (free_slot bs_token (bitmaps s)) as [i|] eqn:E; [|by apply runs_ret].
  apply free_slot_Some in E as (Hi & b0 & Hb0 & Ht0).
  destruct (calloc_ok (w' * h')) eqn:Hc; apply runs_put_bind, runs_ret.
  - apply (ok_counters (set_bitmaps _ s)). destruct Hok as [H1 H2 H3 H4]. split; [|done..].
    cbn [bitmaps set_bitmaps]. intros j b Hb Hn. apply list_lookup_insert_Some in Hb as [(<- & <- & _)|[Hij Hb]].
    + cbn [bs_width bs_height]. split; [|by apply calloc_small]. split; [done|done|].
      eexists _, _. rewrite list_lookup_insert_eq by done. split; [reflexivity|]. cbn.
      rewrite length_replicate. split_and!; [done..|nia|]. apply Forall_replicate. unfold in_u32. lia.
    + destruct (H1 j b Hb Hn) as [[? ? (b' & px & Hb' & Hr)] Hs]. split; [|done]. split; [done|done|].
      exists b', px. by rewrite list_lookup_insert_ne by done.
  - destruct Hok as [H1 H2 H3 H4]. split; [|done..]. cbn [bitmaps set_bitmaps]. intros j b Hb Hn.
    destruct (decide (j = i)) as [->|Hij].
    + rewrite list_lookup_alter_eq, Hb0 in Hb. cbn in Hb. injection Hb as <-. done.
    + rewrite list_lookup_alter_ne in Hb by done.
      destruct (H1 j b Hb Hn) as [[? ? (b' & px & Hb' & Hr)] Hs]. split; [|done]. split; [done|done|].
      exists b', px. by rewrite list_lookup_alter_ne by done.
Qed.

Lemma release_ok token s : shim_ok s → runs (muplar_release_bitmap token) s.
Proof.
  intros Hok. unfold muplar_release_bitmap. apply runs_get.
  destruct (muplar_find_bitmap token s) as [i|]; [|by apply runs_ret]. apply runs_put.
  destruct Hok as [H1 H2 H3 H4]. split; [|done..]. cbn [bitmaps set_bitmaps]. intros j b Hb Hn.
  apply list_lookup_insert_Some in Hb as [(<- & <- & _)|[Hij Hb]]; [done|].
  destruct (H1 j b Hb Hn) as [[? ? (b' & px & Hb' & Hr)] Hs]. split; [|done]. split; [done|done|].
  exists b', px. by rewrite list_lookup_insert_ne by done.
Qed.

(** ** The stack, the transformation and the clip *)

Lemma save_ok c : canvas_ok c → canvas_ok (save c).
Proof.
  intros [H1 H2 H3 H4]. unfold save. destruct (Nat.ltb_spec (cv_depth c) 512); [|by split].
  split; cbn; [lia|by rewrite length_insert|done|]. by apply Forall_insert.
Qed.
Lemma restore_ok c : canvas_ok c → canvas_ok (restore c).
Proof.
  intros [H1 H2 H3 H4]. unfold restore. destruct (cv_depth c) as [|d] eqn:Ed; [by split; rewrite ?Ed|].
  split; cbn; [lia|done| |done]. destruct (cv_stack c !! d) as [f|] eqn:E; [|apply frame_ok_no_frame].
  exact (proj1 (Forall_lookup _ _) H4 _ _ E).
Qed.
Lemma restore_to_ok fuel n c : canvas_ok c → canvas_ok (restore_to fuel n c).
Proof.
  revert c. induction fuel as [|fuel IH]; intros c Hc; cbn [restore_to]; [done|].
  destruct (_ && _); [|done]. by apply IH, restore_ok.
Qed.
Lemma set_now_ok f c : frame_ok f → canvas_ok c → canvas_ok (set_now f c).
Proof. intros Hf [H1 H2 H3 H4]. by split. Qed.

Lemma runs_save token s : shim_ok s → runs (Canvas_nSave token) s.
Proof.
  intros Hok. unfold Canvas_nSave. apply runs_gets. destruct (the_canvas token s); [|by apply runs_ret].
  apply runs_seq; [apply runs_upd_canvas; [done|apply save_ok]|]. intros. by apply runs_ret.
Qed.

Lemma map_valid f x : frame_ok f → f32_valid x → f32_valid (map_x f x) ∧ f32_valid (map_y f x).
Proof. intros [V1 V2 V3 V4 _ _ _ _] Hx. unfold map_x, map_y. auto with word. Qed.

Lemma clip_frame_ok f cl ct cr cb :
  frame_ok f → -1000000 <= cl <= 1000000 → -1000000 <= ct <= 1000000 →
  -1000000 <= cr <= 1000000 → -1000000 <= cb <= 1000000 → frame_ok (clip_frame f cl ct cr cb).
Proof.
  intros [V1 V2 V3 V4 I1 I2 I3 I4] ????. split; cbn; try done;
    [destruct (Z.ltb_spec (f_left f) cl)|destruct (Z.ltb_spec (f_top f) ct)
    |destruct (Z.ltb_spec cr (f_right f))|destruct (Z.ltb_spec cb (f_bottom f))]; lia.
Qed.

(** Where a point of a canvas lands, as an [int]. *)
Lemma land_floor f x : frame_ok f → f32_valid x →
  ∃ a b, muplar_floor_to_int (map_x f x) = Some a ∧ muplar_floor_to_int (map_y f x) = Some b ∧
    -1000000 <= a <= 1000000 ∧ -1000000 <= b <= 1000000.
Proof.
  intros Hf Hx. destruct (map_valid f x Hf Hx) as [H1 H2].
  destruct (floor_total _ H1) as (a & Ha & ?), (floor_total _ H2) as (b & Hb & ?). eauto 10.
Qed.
Lemma land_ceil f x : frame_ok f → f32_valid x →
  ∃ a b, muplar_ceil_to_int (map_x f x) = Some a ∧ muplar_ceil_to_int (map_y f x) = Some b ∧
    -1000000 <= a <= 1000000 ∧ -1000000 <= b <= 1000000.
Proof.
  intros Hf Hx. destruct (map_valid f x Hf Hx) as [H1 H2].
  destruct (ceil_total _ H1) as (a & Ha & ?), (ceil_total _ H2) as (b & Hb & ?). eauto 10.
Qed.

Lemma runs_clip_rect token l t r b s :
  shim_ok s → f32_valid l → f32_valid t → f32_valid r → f32_valid b →
  runs (Canvas_nClipRect token l t r b) s.
Proof.
  intros Hok Vl Vt Vr Vb. unfold Canvas_nClipRect. apply runs_gets.
  destruct (the_canvas token s) as [c|] eqn:Ec; [|by apply runs_ret].
  pose proof (co_now _ (the_canvas_ok _ _ _ Hok Ec)) as Hf.
  destruct (land_floor _ l Hf Vl) as (cl & _ & El & _ & Rl & _).
  destruct (land_floor _ t Hf Vt) as (_ & ct & _ & Et & _ & Rt).
  destruct (land_ceil _ r Hf Vr) as (cr & _ & Er & _ & Rr & _).
  destruct (land_ceil _ b Hf Vb) as (_ & cb & _ & Eb & _ & Rb).
  apply (runs_lift _ _ _ _ El), (runs_lift _ _ _ _ Et), (runs_lift _ _ _ _ Er), (runs_lift _ _ _ _ Eb).
  cbv zeta. apply runs_seq; [|intros; by apply runs_ret].
  apply runs_upd_canvas; [done|]. intros c' Hc'. apply set_now_ok; [|done].
  by apply clip_frame_ok.
Qed.

Lemma runs_save_layer token l t r b s :
  shim_ok s → f32_valid l → f32_valid t → f32_valid r → f32_valid b →
  runs (Canvas_nSaveLayer token l t r b) s.
Proof.
  intros Hok Vl Vt Vr Vb. unfold Canvas_nSaveLayer. apply runs_seq; [by apply runs_save|].
  intros n s1 Hok1. apply runs_seq; [|intros; by apply runs_ret].
  destruct (_ && _); [|by apply runs_ret]. apply runs_seq; [by apply runs_clip_rect|intros; by apply runs_ret].
Qed.

Lemma clip_bounds_total f : frame_ok f → is_Some (clip_bounds f).
Proof.
  intros [V1 V2 V3 V4 _ _ _ _]. unfold clip_bounds.
  assert (∀ z, f32_valid z → f32_valid (if negb (feq z (S754_zero false)) then z else f32_of_Z 1)) as Hnz.
  { intros z Hz. destruct (negb _); auto with word. }
  assert (∀ n x z, f32_valid x → f32_valid z → f32_valid (fdiv (fsub (f32_of_Z n) x)
    (if negb (feq z (S754_zero false)) then z else f32_of_Z 1))) as Hd.
  { intros. apply fdiv_valid; [auto with word|by apply Hnz]. }
  destruct (floor_total _ (Hd (f_left f) _ _ V1 V3)) as (? & -> & _).
  destruct (floor_total _ (Hd (f_top f) _ _ V2 V4)) as (? & -> & _).
  destruct (ceil_total _ (Hd (f_right f) _ _ V1 V3)) as (? & -> & _).
  destruct (ceil_total _ (Hd (f_bottom f) _ _ V2 V4)) as (? & -> & _). by eexists.
Qed.

Lemma runs_clip_bounds token bounds s : shim_ok s → runs (Canvas_nGetClipBounds token bounds) s.
Proof.
  intros Hok. unfold Canvas_nGetClipBounds. apply runs_get. cbv zeta.
  destruct (match _ with Some wh => wh | None => (1080, 1920) end) as [w h].
  destruct (negb bounds); [by apply runs_ret|].
  destruct (the_canvas token s) as [c|] eqn:Ec; [|by apply runs_ret].
  destruct (clip_bounds_total (cv_now c) (co_now _ (the_canvas_ok _ _ _ Hok Ec))) as [r Hr].
  apply (runs_lift _ _ _ _ Hr). by apply runs_ret.
Qed.
(** ** Drawing *)

Lemma shader_source_ok s paint i :
  shim_ok s → shader_source paint s = Some i →
  ∃ b, bitmaps s !! i = Some b ∧ dims (bitmaps s) i (bs_width b) (bs_height b).
Proof.
  intros Hok H. unfold shader_source in H. destruct (the_paint paint s) as [p|]; [|done]. cbn in H.
  destruct (pt_shader p =? 0); [done|]. destruct (the_shader _ s) as [sh|]; [|done]. cbn in H.
  destruct (find_bitmap_ok _ _ _ Hok H) as (b & Hb & _ & Hd & _). eauto.
Qed.

Lemma runs_blit_all dst src w h sw sh b dx dy dw dh clip paint mask s :
  shim_ok s → dims (bitmaps s) dst w h → dims (bitmaps s) src sw sh → bitmaps s !! src = Some b →
  bs_width b = sw → bs_height b = sh →
  in_s32 dx → in_s32 dy → in_s32 (dx + dw) → in_s32 (dy + dh) →
  runs (blit_all dst src dx dy dw dh clip paint mask) s.
Proof.
  intros Hok Hd Hs Hb Ew Eh ????. unfold blit_all. apply runs_get, (runs_lift _ _ _ _ Hb).
  apply runs_draw; [done|]. pose proof Hs as [? ? _]. rewrite Ew, Eh.
  apply (blit_safe _ _ w h sw sh); [done|done|]. unfold blit_ints, in_s32 in *. lia.
Qed.

Lemma paint_color_u32 token d s : in_u32 d → in_u32 (muplar_paint_color token d s).
Proof.
  intros Hd. unfold muplar_paint_color. destruct (the_paint token s) as [p|]; [|done].
  destruct (pt_filter p =? 0); [apply u32_range|]. destruct (the_filter _ s) as [f|]; [|apply u32_range].
  destruct (fl_color f =? 0); [apply u32_range|]. destruct (_ && _); [|apply u32_range].
  rewrite Z.lor_comm. apply lor_high_u32.
  pose proof (byte_of_range (Z.shiftr (u32 (fl_color f)) 24)).
  pose proof (byte_of_range (Z.shiftr (u32 (pt_color p)) 24)).
  split; [apply Z.div_pos; nia|apply Z.div_lt_upper_bound; nia].
Qed.

Lemma runs_draw_rect token l t r b paint s :
  shim_ok s → f32_valid l → f32_valid t → f32_valid r → f32_valid b →
  runs (BaseCanvas_nDrawRect token l t r b paint) s.
Proof.
  intros Hok0 Vl Vt Vr Vb. unfold BaseCanvas_nDrawRect. apply runs_seq; [by apply runs_count|].
  clear Hok0 s. intros _ s Hok. apply runs_get. cbv zeta.
  destruct (canvas_target token s) as [[c i]|] eqn:Ec; [|by apply runs_ret].
  destruct (canvas_target_ok _ _ _ _ Hok Ec) as (Hc & d & Hd & Hdim). pose proof (co_now _ Hc) as Hf.
  destruct (land_floor _ l Hf Vl) as (cl & _ & El & _ & Rl & _).
  destruct (land_floor _ t Hf Vt) as (_ & ct & _ & Et & _ & Rt).
  destruct (land_ceil _ r Hf Vr) as (cr & _ & Er & _ & Rr & _).
  destruct (land_ceil _ b Hf Vb) as (_ & cb & _ & Eb & _ & Rb).
  apply (runs_lift _ _ _ _ El), (runs_lift _ _ _ _ Et), (runs_lift _ _ _ _ Er), (runs_lift _ _ _ _ Eb).
  destruct Hf as [_ _ _ _ I1 I2 I3 I4].
  set (l' := if cl <? f_left (cv_now c) then _ else _). set (t' := if ct <? _ then _ else _).
  set (r' := if f_right (cv_now c) <? cr then _ else _). set (b' := if f_bottom _ <? cb then _ else _).
  assert (in_s32 l' ∧ in_s32 t' ∧ in_s32 r' ∧ in_s32 b') as (J1 & J2 & J3 & J4).
  { unfold l', t', r', b'. unfold in_s32 in *.
    destruct (cl <? _), (ct <? _), (_ <? cr), (_ <? cb); lia. }
  destruct (negb _); [by apply runs_ret|].
  destruct (shader_source paint s) as [src|] eqn:Es.
  - destruct (shader_source_ok _ _ _ Hok Es) as (sb & Hsb & Hsd).
    eapply runs_blit_all; [done|exact Hdim|exact Hsd|exact Hsb|done|done|done|done| |].
    + by replace (l' + (r' - l')) with r' by lia.
    + by replace (t' + (b' - t')) with b' by lia.
  - apply runs_draw; [done|]. eapply fill_rect_safe; [exact Hdim|]. apply paint_color_u32. unfold in_u32; lia.
Qed.

Lemma runs_draw_line token x1 y1 x2 y2 paint s :
  shim_ok s → f32_valid x1 → f32_valid y1 → f32_valid x2 → f32_valid y2 →
  runs (BaseCanvas_nDrawLine token x1 y1 x2 y2 paint) s.
Proof.
  intros Hok V1 V2 V3 V4. unfold BaseCanvas_nDrawLine. cbv zeta.
  assert (∀ (b : bool) x y, f32_valid x → f32_valid y → f32_valid (if b then x else y)) as Hif by (by intros []).
  apply runs_draw_rect; try done; auto 10 with word.
Qed.

Lemma runs_draw_color token color s : shim_ok s → runs (Canvas_nDrawColor token color) s.
Proof.
  intros Hok0. unfold Canvas_nDrawColor. apply runs_seq; [by apply runs_count|].
  clear Hok0 s. intros _ s Hok. apply runs_get.
  destruct (canvas_target token s) as [[c i]|] eqn:Ec; [|by apply runs_ret].
  destruct (canvas_target_ok _ _ _ _ Hok Ec) as (Hc & d & Hd & Hdim).
  apply runs_draw; [done|]. eapply fill_rect_safe; [exact Hdim|apply u32_range].
Qed.

Lemma runs_draw_circle token x y r paint s :
  shim_ok s → f32_valid x → f32_valid y → f32_valid r → runs (Canvas_nDrawCircle token x y r paint) s.
Proof.
  intros Hok Vx Vy Vr. unfold Canvas_nDrawCircle. apply runs_get. cbv zeta.
  destruct (canvas_target token s) as [[c i]|] eqn:Ec; [|by apply runs_ret].
  destruct (canvas_target_ok _ _ _ _ Hok Ec) as (Hc & d & Hd & Hdim). pose proof (co_now _ Hc) as Hf.
  destruct (map_valid _ x Hf Vx) as [? _], (map_valid _ y Hf Vy) as [_ ?]. destruct Hf.
  apply runs_draw; [done|]. eapply fill_circle_safe; [exact Hdim|done|done| |].
  - apply fmul_valid; [done|]. by destruct (flt _ _).
  - apply paint_color_u32. unfold in_u32; lia.
Qed.

Lemma runs_draw_text token text x y paint s :
  shim_ok s → f32_valid x → f32_valid y → runs (muplar_draw_text token text x y paint) s.
Proof.
  intros Hok Vx Vy. unfold muplar_draw_text. apply runs_get. cbv zeta.
  destruct (canvas_target token s) as [[c i]|] eqn:Ec; [|by apply runs_ret].
  destruct (canvas_target_ok _ _ _ _ Hok Ec) as (Hc & d & Hd & Hdim).
  apply runs_draw; [done|]. eapply draw_text_safe; [exact Hdim|apply co_now, Hc|done|done].
Qed.
Lemma runs_draw_paint token paint s : shim_ok s → runs (BaseCanvas_nDrawPaint token paint) s.
Proof.
  intros Hok0. unfold BaseCanvas_nDrawPaint. apply runs_seq; [by apply runs_count|].
  clear Hok0 s. intros _ s Hok. apply runs_get. cbv zeta.
  destruct (canvas_target token s) as [[c i]|] eqn:Ec; [|by apply runs_ret].
  destruct (canvas_target_ok _ _ _ _ Hok Ec) as (Hc & d & Hd & Hdim). destruct (co_now _ Hc) as [_ _ _ _ I1 I2 I3 I4].
  destruct (shader_source paint s) as [src|] eqn:Es.
  - destruct (shader_source_ok _ _ _ Hok Es) as (sb & Hsb & Hsd).
    assert (ck (f_right (cv_now c) - f_left (cv_now c)) = Some (f_right (cv_now c) - f_left (cv_now c))) as Ew
      by (apply ck_ok; unfold in_s32; lia).
    assert (ck (f_bottom (cv_now c) - f_top (cv_now c)) = Some (f_bottom (cv_now c) - f_top (cv_now c))) as Eh
      by (apply ck_ok; unfold in_s32; lia).
    apply (runs_lift _ _ _ _ Ew), (runs_lift _ _ _ _ Eh).
    eapply runs_blit_all; [done|exact Hdim|exact Hsd|exact Hsb|done|done|unfold in_s32; lia..].
  - apply runs_draw; [done|]. eapply fill_rect_safe; [exact Hdim|]. apply paint_color_u32. unfold in_u32; lia.
Qed.

Lemma runs_draw_path token paint s : shim_ok s → runs (Canvas_nDrawPath token paint) s.
Proof.
  intros Hok. unfold Canvas_nDrawPath. apply runs_get.
  destruct (canvas_target token s) as [[c i]|] eqn:Ec; [|by apply runs_ret].
  destruct (shader_source paint s) as [src|] eqn:Es; [|by apply runs_ret].
  destruct (canvas_target_ok _ _ _ _ Hok Ec) as (Hc & d & Hd & Hdim).
  destruct (shader_source_ok _ _ _ Hok Es) as (sb & Hsb & Hsd).
  destruct (co_now _ Hc) as [V1 V2 V3 V4 _ _ _ _].
  apply (runs_lift _ _ _ _ Hd). cbv zeta.
  destruct (floor_total _ V1) as (dx & Ex & Rx), (floor_total _ V2) as (dy & Ey & Ry).
  destruct (ceil_total (fmul (f32_of_Z (bs_width d)) (f_sx (cv_now c)))) as (dw & Ew & Rw); [auto with word|].
  destruct (ceil_total (fmul (f32_of_Z (bs_height d)) (f_sy (cv_now c)))) as (dh & Eh & Rh); [auto with word|].
  apply (runs_lift _ _ _ _ Ex), (runs_lift _ _ _ _ Ey), (runs_lift _ _ _ _ Ew), (runs_lift _ _ _ _ Eh).
  assert (bs_width d <= 536870912 ∧ bs_height d <= 536870912) as [Hsw Hsh].
  { unfold canvas_target in Ec. destruct (the_canvas token s) as [c'|]; [|done]. cbn in Ec.
    destruct (muplar_find_bitmap (cv_bitmap c') s) as [i'|] eqn:Ei; [|done]. cbn in Ec. injection Ec as -> ->.
    destruct (find_bitmap_ok _ _ _ Hok Ei) as (b & Hb & _ & [? ? _] & Hsm). rewrite Hd in Hb. injection Hb as <-. nia. }
  pose proof Hdim as [? ? _].
  eapply runs_blit_all; [done|exact Hdim|exact Hsd|exact Hsb|done|done|unfold in_s32; lia..| |];
    unfold in_s32; [destruct (Z.leb_spec dw 0)|destruct (Z.leb_spec dh 0)]; lia.
Qed.

Lemma dst_rect_total f l t r b :
  frame_ok f → f32_valid l → f32_valid t → f32_valid r → f32_valid b →
  ∃ dx dy dw dh, dst_rect f l t r b = Some (dx, dy, dw, dh) ∧
    in_s32 dx ∧ in_s32 dy ∧ in_s32 (dx + dw) ∧ in_s32 (dy + dh).
Proof.
  intros Hf Vl Vt Vr Vb. unfold dst_rect.
  destruct (land_floor _ l Hf Vl) as (cl & _ & -> & _ & Rl & _).
  destruct (land_floor _ t Hf Vt) as (_ & ct & _ & -> & _ & Rt).
  destruct (land_ceil _ r Hf Vr) as (cr & _ & -> & _ & Rr & _).
  destruct (land_ceil _ b Hf Vb) as (_ & cb & _ & -> & _ & Rb).
  exists cl, ct, (cr - cl), (cb - ct). split; [done|]. unfold in_s32. lia.
Qed.

(** The two bitmaps of a copy stay what they are when a call is counted. *)
Lemma runs_draw_nine token bitmap l t r b paint s :
  shim_ok s → f32_valid l → f32_valid t → f32_valid r → f32_valid b →
  runs (BaseCanvas_nDrawNinePatch token bitmap l t r b paint) s.
Proof.
  intros Hok Vl Vt Vr Vb. unfold BaseCanvas_nDrawNinePatch. apply runs_get.
  destruct (muplar_find_bitmap bitmap s) as [src|] eqn:Eb; [|by apply runs_ret].
  destruct (canvas_target token s) as [[c i]|] eqn:Ec; [|by apply runs_ret].
  destruct (find_bitmap_ok _ _ _ Hok Eb) as (sb & Hsb & _ & Hsd & _).
  destruct (canvas_target_ok _ _ _ _ Hok Ec) as (Hc & d & Hd & Hdim).
  apply runs_bind; [by apply runs_count|]. intros [] s1 E1 Hok1. injection E1 as <-.
  destruct (dst_rect_total _ l t r b (co_now _ Hc) Vl Vt Vr Vb) as (dx & dy & dw & dh & E & I1 & I2 & I3 & I4).
  apply (runs_lift _ _ _ _ E).
  by eapply runs_blit_all.
Qed.

Lemma runs_draw_bitmap_rect token bitmap sl st sr sb l t r b paint s :
  shim_ok s → f32_valid sl → f32_valid st → f32_valid sr → f32_valid sb →
  f32_valid l → f32_valid t → f32_valid r → f32_valid b →
  runs (BaseCanvas_nDrawBitmapRect token bitmap sl st sr sb l t r b paint) s.
Proof.
  intros Hok Wl Wt Wr Wb Vl Vt Vr Vb. unfold BaseCanvas_nDrawBitmapRect. apply runs_get.
  destruct (muplar_find_bitmap bitmap s) as [src|] eqn:Eb; [|by apply runs_ret].
  destruct (canvas_target token s) as [[c i]|] eqn:Ec; [|by apply runs_ret].
  destruct (find_bitmap_ok _ _ _ Hok Eb) as (sb' & Hsb & _ & Hsd & _).
  destruct (canvas_target_ok _ _ _ _ Hok Ec) as (Hc & d & Hd & Hdim).
  apply runs_bind; [by apply runs_count|]. intros [] s1 E1 Hok1. injection E1 as <-. cbv zeta.
  destruct (floor_total _ Wl) as (x0 & E0 & ?), (floor_total _ Wt) as (y0 & E1 & ?).
  destruct (ceil_total _ Wr) as (x1 & E2 & ?), (ceil_total _ Wb) as (y1 & E3 & ?).
  apply (runs_lift _ _ _ _ E0), (runs_lift _ _ _ _ E1), (runs_lift _ _ _ _ E2), (runs_lift _ _ _ _ E3).
  destruct (dst_rect_total _ l t r b (co_now _ Hc) Vl Vt Vr Vb) as (dx & dy & dw & dh & E & I1 & I2 & I3 & I4).
  apply (runs_lift _ _ _ _ E), runs_get, runs_draw; [done|].
  eapply blit_safe; [exact Hdim|exact Hsd|]. unfold blit_ints. split_and!; try done; unfold in_s32; lia.
Qed.

Lemma runs_for_each {A} (f : A → Sh ()) l s :
  shim_ok s → (∀ x s', x ∈ l → shim_ok s' → runs (f x) s') → runs (for_each f l) s.
Proof.
  revert s. induction l as [|x l IH]; intros s Hok Hf; [by apply runs_ret|].
  cbn [for_each]. apply runs_seq; [apply Hf; [apply list_elem_of_here|done]|].
  intros _ s' Hok'. apply IH; [done|]. intros y s2 Hy. apply Hf. by apply list_elem_of_further.
Qed.

Lemma elt_valid data i : Forall f32_valid data → 0 <= i < Z.of_nat (length data) →
  ∃ x, elt data i = Some x ∧ f32_valid x.
Proof.
  intros Hd Hi. unfold elt. rewrite (proj2 (Z.ltb_ge i 0)) by lia.
  destruct (lookup_lt_is_Some_2 data (Z.to_nat i)) as [x Hx]; [lia|].
  exists x. split; [done|]. exact (proj1 (Forall_lookup _ _) Hd _ _ Hx).
Qed.

(** The elements a call reads are in its array. *)
Definition array_ok (data : option (list f32)) (offset count : Z) : Prop :=
  match data with
  | None => True
  | Some data => Forall f32_valid data ∧ 0 <= offset ∧ offset + count <= Z.of_nat (length data)
  end.

Lemma runs_draw_lines token data offset count paint s :
  shim_ok s → array_ok data offset count → runs (BaseCanvas_nDrawLines token data offset count paint) s.
Proof.
  intros Hok Ha. unfold BaseCanvas_nDrawLines. destruct data as [data|]; [|by apply runs_ret].
  destruct Ha as (Hv & Ho & Hn). destruct (Z.leb_spec count 0); [by apply runs_ret|].
  apply runs_for_each; [done|]. intros k s' Hk Hok'. apply elem_of_seqZ in Hk.
  assert (4 * (count / 4) <= count) by zdm.
  destruct (elt_valid data (offset + 4 * k) Hv) as (x1 & E1 & ?); [lia|].
  destruct (elt_valid data (offset + 4 * k + 1) Hv) as (y1 & E2 & ?); [lia|].
  destruct (elt_valid data (offset + 4 * k + 2) Hv) as (x2 & E3 & ?); [lia|].
  destruct (elt_valid data (offset + 4 * k + 3) Hv) as (y2 & E4 & ?); [lia|].
  apply (runs_lift _ _ _ _ E1), (runs_lift _ _ _ _ E2), (runs_lift _ _ _ _ E3), (runs_lift _ _ _ _ E4).
  by apply runs_draw_line.
Qed.

Lemma runs_draw_points token data offset count paint s :
  shim_ok s → array_ok data offset count → runs (BaseCanvas_nDrawPoints token data offset count paint) s.
Proof.
  intros Hok Ha. unfold BaseCanvas_nDrawPoints. destruct data as [data|]; [|by apply runs_ret].
  destruct Ha as (Hv & Ho & Hn). destruct (Z.leb_spec count 0); [by apply runs_ret|].
  apply runs_for_each; [done|]. intros k s' Hk Hok'. apply elem_of_seqZ in Hk.
  assert (2 * (count / 2) <= count) by zdm.
  destruct (elt_valid data (offset + 2 * k) Hv) as (x1 & E1 & ?); [lia|].
  destruct (elt_valid data (offset + 2 * k + 1) Hv) as (y1 & E2 & ?); [lia|].
  apply (runs_lift _ _ _ _ E1), (runs_lift _ _ _ _ E2). apply runs_draw_rect; auto with word.
Qed.

Lemma runs_text_string token text pinned start end_ x y paint s :
  shim_ok s → f32_valid x → f32_valid y →
  runs (BaseCanvas_nDrawTextString token text pinned start end_ x y paint) s.
Proof.
  intros Hok Vx Vy. unfold BaseCanvas_nDrawTextString. cbv zeta. destruct (_ <=? 0); [by apply runs_ret|].
  apply runs_seq; [by apply runs_count|]. intros _ s' Hok'.
  destruct pinned; [by apply runs_draw_text|by apply runs_ret].
Qed.
Lemma runs_text_chars token text pinned index count x y paint s :
  shim_ok s → f32_valid x → f32_valid y →
  runs (BaseCanvas_nDrawTextChars token text pinned index count x y paint) s.
Proof.
  intros Hok Vx Vy. unfold BaseCanvas_nDrawTextChars. destruct text as [chars|]; [|by apply runs_ret].
  cbv zeta. destruct (_ || _); [by apply runs_ret|]. destruct (_ <=? 0); [by apply runs_ret|].
  apply runs_seq; [by apply runs_count|]. intros _ s' Hok'.
  destruct pinned; [by apply runs_draw_text|by apply runs_ret].
Qed.

Lemma runs_glyphs token gids pos pinned go po gc paint s :
  shim_ok s → po < 2147483647 → from_option (Forall f32_valid) True pos →
  runs (BaseCanvas_nDrawGlyphs token gids pos pinned go po gc paint) s.
Proof.
  intros Hok Hpo Hv. unfold BaseCanvas_nDrawGlyphs. apply runs_seq; [by apply runs_count|].
  intros _ s' Hok'. destruct pos as [pos|]; [|by apply runs_ret]. destruct gids as [gids|]; [|by apply runs_ret].
  cbn in Hv. destruct (gc <=? 0); [by apply runs_ret|]. cbv zeta.
  destruct (Z.ltb_spec po 0); [by apply runs_ret|].
  assert (ck (po + 1) = Some (po + 1)) as E by (apply ck_ok; unfold in_s32; lia).
  apply (runs_lift _ _ _ _ E). destruct (Z.leb_spec (Z.of_nat (length pos)) (po + 1)); [by apply runs_ret|].
  cbn [orb]. destruct (_ || _); [by apply runs_ret|]. destruct (negb pinned); [by apply runs_ret|].
  destruct (elt_valid pos po Hv) as (x & Ex & Vx); [lia|].
  destruct (elt_valid pos (po + 1) Hv) as (y & Ey & Vy); [lia|].
  apply (runs_lift _ _ _ _ Ex), (runs_lift _ _ _ _ Ey). by apply runs_draw_text.
Qed.
End Alloc.
