(* ===== verification/ShimNatives.v ===== *)
(** * Any sequence of calls runs to its end

    The calls of the graphics natives as data, what a call does, the calls
    whose arguments are well formed, and the theorem that such calls, in any
    order and number and on any tokens, neither leave an array nor convert a
    float out of range.  Not among the calls: nDrawBitmap and
    nDrawBitmapMatrix, which convert unguarded, the copies from and to
    buffers, and the creation of a bitmap from an array of colours. *)

From S2P Require Import Prelude Machine Float32 ShimTables ShimFont ShimRaster.
From S2P Require Import ShimPaint ShimCanvas ShimPng RasterProps RasterSafe ShimReach.

(** ** Pixels of bitmaps *)

Lemma with_pixels_shape t i b px px' :
  t !! i = Some b → bs_pixels b = Some px → length px' = length px → (Forall in_u32 px → Forall in_u32 px') →
  keeps_shape t (<[i := with_pixels b px']> t).
Proof.
  intros Hb Hpx Hl Hu. apply lookup_lt_Some in Hb as Hi. split.
  - intros j. destruct (decide (j = i)) as [->|Hj]; [|by rewrite list_lookup_insert_ne].
    rewrite list_lookup_insert_eq by done. by rewrite Hb.
  - intros j w h [? ? (b' & px0 & Hb' & Hw & Hh & Hp & Hn & HF)]. split; [done|done|].
    destruct (decide (j = i)) as [->|Hj].
    + rewrite Hb in Hb'. injection Hb' as <-. rewrite Hpx in Hp. injection Hp as <-.
      eexists _, _. rewrite list_lookup_insert_eq by done. split; [reflexivity|]. cbn.
      split_and!; [done|done|done|congruence|auto].
    + exists b', px0. by rewrite list_lookup_insert_ne by done.
Qed.

Lemma pixel_in_range b w h x y (px : list Z) :
  bs_width b = w → w * h <= 536870912 → 0 < h → inside w h x y → Z.of_nat (length px) = w * h →
  ck (y * w + x) = Some (y * w + x) ∧ (Z.to_nat (y * w + x) < length px)%nat.
Proof.
  intros Hw Hs Hh [Hx Hy] Hl. assert (0 <= y * w + x < w * h) by nia.
  split; [apply ck_ok; unfold in_s32; lia|lia].
Qed.

Lemma runs_get_pixel token x y s : shim_ok s → runs (Bitmap_nativeGetPixel token x y) s.
Proof.
  intros Hok. unfold Bitmap_nativeGetPixel. apply runs_gets. unfold the_bitmap.
  destruct (muplar_find_bitmap token s) as [i|] eqn:E; [|by apply runs_ret].
  destruct (find_bitmap_ok _ _ _ Hok E) as (b & Hb & _ & [? ? (b' & px & Hb' & _ & _ & Hpx & Hl & _)] & Hs).
  rewrite Hb in Hb'. injection Hb' as <-. cbn. rewrite Hb, Hpx.
  destruct (_ && _) eqn:Hin; [|by apply runs_ret].
  destruct (pixel_in_range b (bs_width b) (bs_height b) x y px) as [Ek Hk]; [done|done|lia|unfold inside; lia|done|].
  apply runs_lift_end; [|done]. rewrite Ek. destruct (lookup_lt_is_Some_2 _ _ Hk) as [v Hv].
  exists (s32 v). cbn. by rewrite Hv.
Qed.

Lemma runs_set_pixel token x y color s : shim_ok s → runs (Bitmap_nativeSetPixel token x y color) s.
Proof.
  intros Hok. unfold Bitmap_nativeSetPixel. apply runs_get.
  destruct (muplar_find_bitmap token s) as [i|] eqn:E; [|by apply runs_ret].
  destruct (find_bitmap_ok _ _ _ Hok E) as (b & Hb & _ & [? ? (b' & px & Hb' & _ & _ & Hpx & Hl & _)] & Hs).
  rewrite Hb in Hb'. injection Hb' as <-. obind. rewrite Hb. obind. rewrite Hpx. obind.
  destruct (_ && _) eqn:Hin; [|by apply runs_ret].
  destruct (pixel_in_range b (bs_width b) (bs_height b) x y px) as [Ek Hk]; [done|done|lia|unfold inside; lia|done|].
  apply runs_draw; [done|]. unfold safe. rewrite Ek. obind. rewrite (proj2 (Nat.ltb_lt _ _) Hk).
  eexists. split; [reflexivity|]. eapply with_pixels_shape; [done|done|apply length_insert|].
  intros HF. apply Forall_insert; [done|apply u32_range].
Qed.

Lemma runs_erase token color s : shim_ok s → runs (Bitmap_nativeErase token color) s.
Proof.
  intros Hok. unfold Bitmap_nativeErase. apply runs_get.
  destruct (muplar_find_bitmap token s) as [i|] eqn:E; [|by apply runs_ret].
  destruct (find_bitmap_ok _ _ _ Hok E) as (b & Hb & _ & [Hw Hh (b' & px & Hb' & _ & _ & Hpx & Hl & _)] & Hs).
  rewrite Hb in Hb'. injection Hb' as <-. obind. rewrite Hb. obind. rewrite Hpx. obind.
  assert (u64 (bs_width b * bs_height b) = Z.of_nat (length px)) as ->.
  { rewrite u64_small by (unfold in_u64; nia). done. }
  apply runs_draw; [done|]. unfold safe. rewrite (proj2 (Z.leb_le _ _)) by lia. rewrite Nat2Z.id, drop_all, app_nil_r.
  eexists. split; [reflexivity|]. eapply with_pixels_shape; [done|done|apply length_replicate|].
  intros _. apply Forall_replicate, u32_range.
Qed.

Section Alloc.
Variable calloc_ok : Z → bool.
Hypothesis calloc_small : ∀ n, calloc_ok n = true → n <= 536870912.

Lemma retype_ok i bpp cfg s :
  shim_ok s → shim_ok (set_bitmaps (alter (λ b, BitmapState (bs_token b) (bs_width b) (bs_height b)
                         bpp cfg (bs_pixels b)) i (bitmaps s)) s).
Proof.
  intros [H1 H2 H3 H4]. split; [|done..]. cbn [bitmaps set_bitmaps]. intros j b Hb Hn.
  destruct (decide (j = i)) as [->|Hij].
  - rewrite list_lookup_alter_eq in Hb. apply fmap_Some in Hb as (b0 & Hb0 & ->).
    destruct (H1 i b0 Hb0 Hn) as [[? ? (b' & px & Hb' & Hr)] Hs]. cbn. split; [|done]. split; [done|done|].
    eexists _, px. rewrite list_lookup_alter_eq, Hb'. split; [reflexivity|]. done.
  - rewrite list_lookup_alter_ne in Hb by done. destruct (H1 j b Hb Hn) as [[? ? (b' & px & Hb' & Hr)] Hs].
    split; [|done]. split; [done|done|]. exists b', px. by rewrite list_lookup_alter_ne by done.
Qed.

Lemma runs_create_bitmap object w h config s :
  shim_ok s → in_s32 w → in_s32 h → runs (Bitmap_nativeCreate calloc_ok object None 0 0 w h config) s.
Proof.
  intros Hok Hw Hh. unfold Bitmap_nativeCreate. apply runs_seq.
  { unfold nCreateHardwareBitmap. apply runs_seq.
    - apply alloc_bitmap_ok; [done|done|unfold in_s32 in *; lia..].
    - intros r s1 Hok1. apply runs_get. by apply runs_ret. }
  intros obj s1 Hok1. destruct obj as [token|]; [|by apply runs_ret]. apply runs_get.
  destruct (muplar_find_bitmap token s1) as [i|]; [|by apply runs_ret].
  apply runs_put_bind, runs_ret. by apply retype_ok.
Qed.
End Alloc.

(** ** Canvases and paints *)

Lemma runs_restore token s : shim_ok s → runs (Canvas_nRestore token) s.
Proof.
  intros Hok. unfold Canvas_nRestore. apply runs_seq; [apply runs_upd_canvas; [done|apply restore_ok]|].
  intros. by apply runs_ret.
Qed.
Lemma runs_restore_to token n s : shim_ok s → runs (Canvas_nRestoreToCount token n) s.
Proof. intros Hok. apply runs_upd_canvas; [done|]. intros c. apply restore_to_ok. Qed.

Lemma runs_set_matrix token s : shim_ok s → runs (Canvas_nSetMatrix token) s.
Proof.
  intros Hok. apply runs_upd_canvas; [done|]. intros c Hc. apply set_now_ok; [|done].
  destruct (co_now _ Hc). split; cbn; auto with word. all: done.
Qed.
Lemma runs_translate token dx dy s : shim_ok s → f32_valid dx → f32_valid dy → runs (Canvas_nTranslate token dx dy) s.
Proof.
  intros Hok V1 V2. apply runs_upd_canvas; [done|]. intros c Hc. apply set_now_ok; [|done].
  destruct (co_now _ Hc). split; cbn; auto with word.
Qed.
Lemma runs_scale token sx sy s : shim_ok s → f32_valid sx → f32_valid sy → runs (Canvas_nScale token sx sy) s.
Proof.
  intros Hok V1 V2. apply runs_upd_canvas; [done|]. intros c Hc. apply set_now_ok; [|done].
  destruct (co_now _ Hc). split; cbn; auto with word.
Qed.
Lemma runs_set_bitmap token bitmap s : shim_ok s → runs (Canvas_nSetBitmap token bitmap) s.
Proof.
  intros Hok. unfold Canvas_nSetBitmap. apply runs_get, runs_upd_canvas; [done|]. intros c Hc.
  apply (reset_ok c); [done|]. by apply fresh_frame_ok.
Qed.
Lemma runs_reset_list token w h s :
  shim_ok s → in_s32 w → in_s32 h → runs (RecordingCanvas_nResetDisplayListCanvas token w h) s.
Proof.
  intros Hok Hw Hh. apply runs_upd_canvas; [done|]. intros c [H1 H2 H3 H4].
  unfold in_s32 in *. cbv zeta.
  destruct (_ && _) eqn:E; split; cbn; try done; try lia; split; cbn; try done; try lia; apply f32_of_Z_valid.
Qed.

Lemma runs_paint_new s : shim_ok s → runs Paint_nInit s.
Proof.
  intros Hok. unfold Paint_nInit. apply runs_bind.
  { unfold muplar_alloc_paint. apply runs_get. destruct (free_slot pt_token (paints s)); [|by apply runs_ret].
    apply runs_put_bind, runs_ret. by apply (ok_counters (set_paints _ s)), ok_paints. }
  intros r s1 E Hok1. apply runs_get. destruct r as [i|].
  - apply runs_lift_end; [|done]. unfold muplar_alloc_paint, get, put, mbind, M_bind in E.
    destruct (free_slot pt_token (paints s)) as [j|] eqn:F; [|done]. injection E as <- <-.
    apply free_slot_Some in F as [F _]. cbn. rewrite list_lookup_insert_eq by done. by eexists.
  - apply runs_put_bind, runs_ret. by apply (ok_counters s1).
Qed.

Lemma runs_filter_new color mode s : shim_ok s → runs (CreateBlendModeFilter color mode) s.
Proof.
  intros Hok. unfold CreateBlendModeFilter. apply runs_bind.
  { unfold muplar_alloc_filter. apply runs_get. destruct (free_slot fl_token (filters s)); [|by apply runs_ret].
    apply runs_put_bind, runs_ret. by apply (ok_counters (set_filters _ s)), ok_filters. }
  intros r s1 E Hok1. apply runs_get. destruct r as [i|].
  - apply runs_lift_end; [|done]. unfold muplar_alloc_filter, get, put, mbind, M_bind in E.
    destruct (free_slot fl_token (filters s)) as [j|] eqn:F; [|done]. injection E as <- <-.
    apply free_slot_Some in F as [F _]. cbn. rewrite list_lookup_insert_eq by done. by eexists.
  - apply runs_put_bind, runs_ret. by apply (ok_counters s1).
Qed.

Lemma runs_shader_new bitmap s : shim_ok s → runs (BitmapShader_nativeCreate bitmap) s.
Proof.
  intros Hok. unfold BitmapShader_nativeCreate. apply runs_get. cbv zeta. apply runs_put_bind, runs_ret.
  destruct Hok as [H1 H2 H3 H4]. split; cbn; [done|done|done|]. by rewrite length_insert.
Qed.

(** ** Calls *)

(** A call of a native, with its arguments. *)
Inductive native :=
| NewCanvas (bitmap : Z)
| NewDisplayList
| ResetDisplayList (canvas width height : Z)
| Save (canvas : Z)
| Restore (canvas : Z)
| RestoreToCount (canvas count : Z)
| SaveLayer (canvas : Z) (l t r b : f32)
| ClipRect (canvas : Z) (l t r b : f32)
| GetClipBounds (canvas : Z) (bounds : bool)
| SetBitmap (canvas bitmap : Z)
| SetMatrix (canvas : Z)
| Translate (canvas : Z) (dx dy : f32)
| Scale (canvas : Z) (sx sy : f32)
| DrawColor (canvas color : Z)
| DrawPaint (canvas paint : Z)
| DrawPath (canvas paint : Z)
| DrawRect (canvas : Z) (l t r b : f32) (paint : Z)
| DrawCircle (canvas : Z) (x y r : f32) (paint : Z)
| DrawLines (canvas : Z) (lines : option (list f32)) (offset count paint : Z)
| DrawPoints (canvas : Z) (points : option (list f32)) (offset count paint : Z)
| DrawTextString (canvas : Z) (text : option (list Z)) (pinned : bool) (start end_ : Z) (x y : f32) (paint : Z)
| DrawTextChars (canvas : Z) (text : option (list Z)) (pinned : bool) (index count : Z) (x y : f32) (paint : Z)
| DrawGlyphs (canvas : Z) (ids : option (list Z)) (pos : option (list f32)) (pinned : bool)
    (glyph_offset position_offset count paint : Z)
| DrawBitmapRect (canvas bitmap : Z) (sl st sr sb l t r b : f32) (paint : Z)
| DrawNinePatch (canvas bitmap : Z) (l t r b : f32) (paint : Z)
| NewBitmap (object : bool) (width height config : Z)
| GetPixel (bitmap x y : Z)
| SetPixel (bitmap x y color : Z)
| Erase (bitmap color : Z)
| Recycle (bitmap : Z)
| NewPaint
| SetPaint (paint : Z) (f : paint_state → paint_state)
| NewFilter (color mode : Z)
| NewShader (bitmap : Z).

(** The call, its answer dropped. *)
Definition void {A} (m : Sh A) : Sh () := m ≫= λ _, mret ().
Definition run_native (calloc_ok : Z → bool) (n : native) : Sh () :=
  match n with
  | NewCanvas b => void (Canvas_nInitRaster b)
  | NewDisplayList => void RecordingCanvas_nCreateDisplayListCanvas
  | ResetDisplayList c w h => RecordingCanvas_nResetDisplayListCanvas c w h
  | Save c => void (Canvas_nSave c)
  | Restore c => void (Canvas_nRestore c)
  | RestoreToCount c n => Canvas_nRestoreToCount c n
  | SaveLayer c l t r b => void (Canvas_nSaveLayer c l t r b)
  | ClipRect c l t r b => void (Canvas_nClipRect c l t r b)
  | GetClipBounds c bounds => void (Canvas_nGetClipBounds c bounds)
  | SetBitmap c b => Canvas_nSetBitmap c b
  | SetMatrix c => Canvas_nSetMatrix c
  | Translate c dx dy => Canvas_nTranslate c dx dy
  | Scale c sx sy => Canvas_nScale c sx sy
  | DrawColor c color => Canvas_nDrawColor c color
  | DrawPaint c p => BaseCanvas_nDrawPaint c p
  | DrawPath c p => Canvas_nDrawPath c p
  | DrawRect c l t r b p => BaseCanvas_nDrawRect c l t r b p
  | DrawCircle c x y r p => Canvas_nDrawCircle c x y r p
  | DrawLines c d o n p => BaseCanvas_nDrawLines c d o n p
  | DrawPoints c d o n p => BaseCanvas_nDrawPoints c d o n p
  | DrawTextString c t pin st e x y p => BaseCanvas_nDrawTextString c t pin st e x y p
  | DrawTextChars c t pin i n x y p => BaseCanvas_nDrawTextChars c t pin i n x y p
  | DrawGlyphs c ids pos pin go po n p => BaseCanvas_nDrawGlyphs c ids pos pin go po n p
  | DrawBitmapRect c bm sl st sr sb l t r b p => BaseCanvas_nDrawBitmapRect c bm sl st sr sb l t r b p
  | DrawNinePatch c bm l t r b p => BaseCanvas_nDrawNinePatch c bm l t r b p
  | NewBitmap o w h cfg => void (Bitmap_nativeCreate calloc_ok o None 0 0 w h cfg)
  | GetPixel b x y => void (Bitmap_nativeGetPixel b x y)
  | SetPixel b x y color => Bitmap_nativeSetPixel b x y color
  | Erase b color => Bitmap_nativeErase b color
  | Recycle b => Bitmap_nativeRecycle b
  | NewPaint => void Paint_nInit
  | SetPaint p f => upd_paint p f
  | NewFilter color mode => void (CreateBlendModeFilter color mode)
  | NewShader b => void (BitmapShader_nativeCreate b)
  end.
Definition run_natives (calloc_ok : Z → bool) (l : list native) : Sh () := for_each (run_native calloc_ok) l.

(** Arguments a Java caller can pass: floats in the format, integers of the
    width, ranges inside of their arrays. *)
Definition native_ok (n : native) : Prop :=
  match n with
  | ResetDisplayList _ w h | NewBitmap _ w h _ => in_s32 w ∧ in_s32 h
  | SaveLayer _ l t r b | ClipRect _ l t r b | DrawRect _ l t r b _ | DrawNinePatch _ _ l t r b _ =>
      Forall f32_valid [l; t; r; b]
  | DrawBitmapRect _ _ sl st sr sb l t r b _ => Forall f32_valid [sl; st; sr; sb; l; t; r; b]
  | Translate _ x y | Scale _ x y | DrawTextString _ _ _ _ _ x y _ | DrawTextChars _ _ _ _ _ x y _ =>
      Forall f32_valid [x; y]
  | DrawCircle _ x y r _ => Forall f32_valid [x; y; r]
  | DrawLines _ d o n _ | DrawPoints _ d o n _ => array_ok d o n
  | DrawGlyphs _ _ pos _ _ po _ _ => po < 2147483647 ∧ from_option (Forall f32_valid) True pos
  | _ => True
  end.

Lemma runs_void {A} (m : Sh A) s : runs m s → runs (void m) s.
Proof. intros H. apply runs_seq; [done|]. intros. by apply runs_ret. Qed.

(** Take the facts on the arguments of a call apart. *)
Ltac split_ok H :=
  cbn in H; repeat rewrite ?Forall_cons, ?Forall_nil in H; destruct_and?.

Lemma run_native_ok calloc_ok n s :
  (∀ k, calloc_ok k = true → k <= 536870912) → native_ok n → shim_ok s → runs (run_native calloc_ok n) s.
Proof.
  intros Hc Hn Hok. destruct n; cbn [run_native]; split_ok Hn; try apply runs_void.
  - by apply runs_new_canvas.
  - by apply runs_new_canvas.
  - by apply runs_reset_list.
  - by apply runs_save.
  - by apply runs_restore.
  - by apply runs_restore_to.
  - by apply runs_save_layer.
  - by apply runs_clip_rect.
  - by apply runs_clip_bounds.
  - by apply runs_set_bitmap.
  - by apply runs_set_matrix.
  - by apply runs_translate.
  - by apply runs_scale.
  - by apply runs_draw_color.
  - by apply runs_draw_paint.
  - by apply runs_draw_path.
  - by apply runs_draw_rect.
  - by apply runs_draw_circle.
  - by apply runs_draw_lines.
  - by apply runs_draw_points.
  - by apply runs_text_string.
  - by apply runs_text_chars.
  - by apply runs_glyphs.
  - by apply runs_draw_bitmap_rect.
  - by apply runs_draw_nine.
  - by apply runs_create_bitmap.
  - by apply runs_get_pixel.
  - by apply runs_set_pixel.
  - by apply runs_erase.
  - by apply release_ok.
  - by apply runs_paint_new.
  - by apply runs_upd_paint.
  - by apply runs_filter_new.
  - by apply runs_shader_new.
Qed.


