(* ===== verification/ShimRefine.v ===== *)
(** * The shim implements abstract types

    The saved states of a canvas are the stack of android.graphics.Canvas
    until the array of 512 entries is full; a table of objects is a map from
    tokens to objects. *)

From S2P Require Import Prelude Machine Float32 ShimTables ShimPng ShimRaster ShimPaint ShimCanvas RasterProps RasterSafe ShimReach.

(** ** The contract *)

(** The stack, the current state first. *)
Definition a_save (l : list frame) : list frame := match l with [] => [] | f :: l => f :: f :: l end.
Definition a_restore (l : list frame) : list frame := match l with f :: g :: l => g :: l | _ => l end.
Definition a_restore_to (n : Z) (l : list frame) : list frame :=
  drop (length l - Z.to_nat (Z.max 1 n)) l.
Definition a_set (g : frame → frame) (l : list frame) : list frame :=
  match l with [] => [] | f :: l => g f :: l end.

(** The calls that touch the states of one canvas. *)
Inductive stack_op := OSave | ORestore | ORestoreTo (n : Z) | OSet (g : frame → frame).
Definition a_step (l : list frame) (o : stack_op) : list frame :=
  match o with
  | OSave => a_save l
  | ORestore => a_restore l
  | ORestoreTo n => a_restore_to n l
  | OSet g => a_set g l
  end.
(** No save happens on a full array. *)
Fixpoint in_depth (l : list frame) (ops : list stack_op) : Prop :=
  match ops with
  | [] => True
  | o :: ops => (o = OSave → (length l <= 512)%nat) ∧ in_depth (a_step l o) ops
  end.
(** No restore goes below the lowest [k] states. *)
Fixpoint above (k : nat) (l : list frame) (ops : list stack_op) : Prop :=
  match ops with
  | [] => True
  | o :: ops => (k <= length (a_step l o))%nat ∧ above k (a_step l o) ops
  end.

(** ** The array implements the stack *)

Definition c_step (c : canvas_state) (o : stack_op) : canvas_state :=
  match o with
  | OSave => save c
  | ORestore => restore c
  | ORestoreTo n => restore_to (cv_depth c) n c
  | OSet g => set_now (g (cv_now c)) c
  end.
(** The stack a canvas stands for. *)
Definition states (c : canvas_state) : list frame :=
  cv_now c :: reverse (take (cv_depth c) (cv_stack c)).

(** The array and its depth, without what frames hold. *)
Definition stack_ok (c : canvas_state) : Prop :=
  (cv_depth c <= 512)%nat ∧ length (cv_stack c) = 512%nat.

Lemma states_length c : stack_ok c → length (states c) = S (cv_depth c).
Proof. intros [H1 H2]. unfold states. cbn. rewrite length_reverse, length_take. lia. Qed.

Lemma save_states c : stack_ok c → (cv_depth c < 512)%nat →
  stack_ok (save c) ∧ states (save c) = a_save (states c).
Proof.
  intros [H1 H2] Hd. unfold save. rewrite (proj2 (Nat.ltb_lt _ _) Hd). split.
  - split; cbn; [lia|by rewrite length_insert].
  - unfold states, a_save. cbn [cv_now cv_depth cv_stack]. f_equal.
    rewrite (take_S_r _ _ (cv_now c)) by (apply list_lookup_insert_eq; lia).
    rewrite reverse_app, take_insert_ge by lia. done.
Qed.

Lemma restore_states c : stack_ok c → stack_ok (restore c) ∧ states (restore c) = a_restore (states c).
Proof.
  intros [H1 H2]. unfold restore, states. destruct (cv_depth c) as [|d] eqn:Ed.
  - rewrite Ed. split; [split; rewrite ?Ed; [lia|done]|done].
  - destruct (lookup_lt_is_Some_2 (cv_stack c) d) as [f Hf]; [lia|]. rewrite Hf. split; [split; cbn; [lia|done]|].
    cbn [cv_now cv_depth cv_stack default from_option id]. rewrite (take_S_r _ _ f Hf), reverse_app. done.
Qed.

Lemma a_restore_to_step n l :
  (1 < length l)%nat → n < Z.of_nat (length l) → a_restore_to n (a_restore l) = a_restore_to n l.
Proof.
  intros Hl Hn. destruct l as [|f [|g l]]; cbn in Hl; try lia. unfold a_restore_to. cbn [a_restore length].
  cbn [length] in Hn. replace (S (S (length l)) - Z.to_nat (Z.max 1 n))%nat with (S (S (length l) - Z.to_nat (Z.max 1 n))) by lia.
  done.
Qed.

Lemma restore_to_states fuel n c :
  stack_ok c → (cv_depth c <= fuel)%nat →
  stack_ok (restore_to fuel n c) ∧ states (restore_to fuel n c) = a_restore_to n (states c).
Proof.
  revert c. induction fuel as [|fuel IH]; intros c Hc Hf; cbn [restore_to].
  - split; [done|]. unfold a_restore_to. rewrite states_length by done.
    replace (_ - _)%nat with 0%nat by lia. done.
  - destruct (_ && _) eqn:E.
    + destruct (restore_states c Hc) as [Hr Hs]. destruct (IH (restore c) Hr) as [Hk Hks].
      { unfold restore. destruct (cv_depth c) eqn:Ed; cbn; lia. }
      split; [done|]. rewrite Hks, Hs. apply a_restore_to_step; rewrite states_length by done; lia.
    + split; [done|]. unfold a_restore_to. rewrite states_length by done.
      replace (_ - _)%nat with 0%nat by lia. done.
Qed.

Lemma step_states c o :
  stack_ok c → (o = OSave → (length (states c) <= 512)%nat) →
  stack_ok (c_step c o) ∧ states (c_step c o) = a_step (states c) o.
Proof.
  intros Hc Hd. rewrite states_length in Hd by done. destruct o; cbn [c_step a_step].
  - apply save_states; [done|]. specialize (Hd eq_refl). lia.
  - by apply restore_states.
  - by apply restore_to_states.
  - by destruct Hc.
Qed.

Lemma steps_states ops c :
  stack_ok c → in_depth (states c) ops →
  stack_ok (foldl c_step c ops) ∧ states (foldl c_step c ops) = foldl a_step (states c) ops.
Proof.
  revert c. induction ops as [|o ops IH]; intros c Hc Hd; [done|]. destruct Hd as [Ho Hd].
  destruct (step_states c o Hc Ho) as [H1 H2]. cbn [foldl]. rewrite <- H2 in *. by apply IH.
Qed.

(** C3. The canvas refines the stack: as long as no save happens with 512
    states saved, any sequence of save, restore, restoreToCount and changes of
    the transformation and clip leaves the canvas in the states the stack has,
    and getSaveCount is its height. *)
Theorem canvas_stack_refines c ops :
  stack_ok c → in_depth (states c) ops →
  states (foldl c_step c ops) = foldl a_step (states c) ops ∧
  Z.of_nat (cv_depth (foldl c_step c ops)) + 1 = Z.of_nat (length (foldl a_step (states c) ops)).
Proof.
  intros Hc Hd. destruct (steps_states ops c Hc Hd) as [H1 H2]. split; [done|].
  rewrite <- H2, states_length by done. lia.
Qed.

Lemma demo_stack_ok : stack_ok no_canvas.
Proof. split; [cbn; lia|apply length_replicate]. Qed.

(** Witness of [canvas_stack_refines]: a save too many restores. *)
Lemma canvas_stack_refines_witness :
  let ops := [OSave; OSet (translate (f32_of_Z 3) (f32_of_Z 4)); OSave; ORestore; ORestore; ORestore; ORestoreTo 9] in
  states (foldl c_step no_canvas ops) = foldl a_step (states no_canvas) ops ∧
  Z.of_nat (cv_depth (foldl c_step no_canvas ops)) + 1 = Z.of_nat (length (foldl a_step (states no_canvas) ops)).
Proof.
  apply canvas_stack_refines; [apply demo_stack_ok|].
  cbn [in_depth]. split_and!; try exact I; try (intros H; discriminate H); intros _; vm_compute; lia.
Defined.

(** ** The count a save answers *)

Lemma a_steps_tail ops k l :
  above k l ops → (k <= length l)%nat → (0 < k)%nat →
  drop (length (foldl a_step l ops) - k + 1) (foldl a_step l ops) = drop (length l - k + 1) l ∧
  (k <= length (foldl a_step l ops))%nat.
Proof.
  revert l. induction ops as [|o ops IH]; intros l Ha Hk Hk0; [done|]. destruct Ha as [Hk' Ha]. cbn [foldl].
  destruct (IH _ Ha Hk' Hk0) as [E Hn]. split; [|done]. rewrite E. clear IH E Hn Ha.
  destruct o; cbn [a_step] in *.
  - destruct l as [|f l]; [done|]. cbn [a_save length] in *.
    replace (S (S (length l)) - k + 1)%nat with (S (S (length l) - k + 1)) by lia. done.
  - destruct l as [|f [|g l]]; [done..|]. cbn [a_restore length] in *.
    replace (S (S (length l)) - k + 1)%nat with (S (S (length l) - k + 1)) by lia. done.
  - unfold a_restore_to in *. rewrite length_drop in *. rewrite drop_drop. f_equal. lia.
  - destruct l as [|f l]; [done|]. cbn [a_set length] in *.
    replace (S (length l) - k + 1)%nat with (S (S (length l) - k)) by lia. done.
Qed.

(** A save and the restoreToCount with its answer bracket: whatever
    balanced calls come between (they may save, restore, translate, scale and
    clip, but not restore below the save), the canvas is back in all the states
    it had, its transformation and clip included. *)
Theorem save_restore_to_count c ops :
  stack_ok c → (cv_depth c < 512)%nat →
  in_depth (states (save c)) ops → above (S (S (cv_depth c))) (states (save c)) ops →
  let n := Z.of_nat (cv_depth (save c)) in
  states (c_step (foldl c_step (save c) ops) (ORestoreTo n)) = states c.
Proof.
  intros Hc Hd Hin Ha n. destruct (save_states c Hc Hd) as [Hs Es].
  destruct (steps_states ops (save c) Hs Hin) as [Hf Ef].
  destruct (step_states (foldl c_step (save c) ops) (ORestoreTo n) Hf ltac:(done)) as [_ E]. rewrite E, Ef.
  assert (cv_depth (save c) = S (cv_depth c)) as Hn by (unfold save; by rewrite (proj2 (Nat.ltb_lt _ _) Hd)).
  destruct (a_steps_tail ops (S (S (cv_depth c))) (states (save c)) Ha) as [Et Hl];
    [rewrite states_length by done; lia|lia|].
  cbn [a_step]. unfold a_restore_to, n. rewrite Hn.
  replace (_ - Z.to_nat _)%nat
    with (length (foldl a_step (states (save c)) ops) - S (S (cv_depth c)) + 1)%nat by lia.
  rewrite Et, states_length, Hn, Es by done.
  by replace (S (S (cv_depth c)) - S (S (cv_depth c)) + 1)%nat with 1%nat by lia.
Qed.

(** Witness of [save_restore_to_count]. *)
Lemma save_restore_to_count_witness :
  let ops := [OSet (translate (f32_of_Z 3) (f32_of_Z 4)); OSave; OSet (scale (f32_of_Z 2) (f32_of_Z 2))] in
  states (c_step (foldl c_step (save no_canvas) ops) (ORestoreTo (Z.of_nat (cv_depth (save no_canvas)))))
  = states no_canvas.
Proof.
  apply save_restore_to_count; [apply demo_stack_ok|cbn; lia| |];
    cbn [in_depth above]; split_and!; try exact I; try (intros H; discriminate H); try intros _; vm_compute; lia.
Defined.

(** With 512 states saved the bracket breaks: nSave does nothing but
    answers 512, the count the save before it has answered, so the
    restoreToCount that should undo the second save undoes the first one: the
    canvas is left in the state of the outer bracket and not in its own. *)
Theorem save_full c :
  stack_ok c → cv_depth c = 512%nat →
  let n := Z.of_nat (cv_depth (save c)) in
  save c = c ∧ n = 512 ∧ states (c_step (save c) (ORestoreTo n)) = a_restore (states c) ∧
  length (states (c_step (save c) (ORestoreTo n))) = 512%nat.
Proof.
  intros Hc Hd n. assert (save c = c) as Es by (unfold save; by rewrite Hd).
  assert (n = 512) as Hn by (unfold n; rewrite Es, Hd; done). rewrite Es.
  destruct (step_states c (ORestoreTo n) Hc ltac:(done)) as [H1 H2]. rewrite H2, Hn. cbn [a_step].
  assert (length (states c) = 513%nat) as Hl by (rewrite states_length, Hd by done; done).
  assert (a_restore_to 512 (states c) = a_restore (states c)) as Er.
  { unfold a_restore_to. rewrite Hl. change (513 - Z.to_nat (Z.max 1 512))%nat with 1%nat.
    destruct (states c) as [|f [|g l]]; done. }
  split_and!; [done|done|exact Er|]. rewrite Er. destruct (states c) as [|f [|g l]]; cbn in *; lia.
Qed.

(** Witness of [save_full]. *)
Lemma save_full_witness :
  let c := CanvasState 0x24100 0 no_frame 512 (replicate 512 no_frame) in
  let n := Z.of_nat (cv_depth (save c)) in
  save c = c ∧ n = 512 ∧ states (c_step (save c) (ORestoreTo n)) = a_restore (states c) ∧
  length (states (c_step (save c) (ORestoreTo n))) = 512%nat.
Proof. apply save_full; [split; [cbn; lia|apply length_replicate]|reflexivity]. Defined.

(** ** Tokens as names of objects

    A table of slots with tokens stands for a finite map from tokens to
    objects: what allocation, release and the reuse of a full table do to the
    map. *)

(** ** A table is a map *)

(** The object of a token. *)
Definition lookup_tok {A} (tok : A → Z) (l : list A) (token : Z) : option A :=
  i ← find_token tok l token; l !! i.
(** No two slots in use have the same token. *)
Definition unique {A} (tok : A → Z) (l : list A) : Prop :=
  ∀ i j x y, l !! i = Some x → l !! j = Some y → tok x = tok y → tok x ≠ 0 → i = j.

Lemma lookup_tok_Some {A} (tok : A → Z) l token x :
  unique tok l → lookup_tok tok l token = Some x ↔ token ≠ 0 ∧ tok x = token ∧ x ∈ l.
Proof.
  intros Hu. unfold lookup_tok, find_token. destruct (Z.eqb_spec token 0) as [->|Hn]; [naive_solver|].
  rewrite list_elem_of_lookup. split.
  - intros H. apply bind_Some in H as (i & Hi & Hx).
    apply find_idx_Some in Hi as [(y & Hy & Ht) _]. rewrite Hx in Hy. injection Hy as <-.
    split_and!; [done|lia|by exists i].
  - intros (_ & Ht & i & Hx). apply bind_Some. exists i. split; [|done].
    apply find_idx_Some. split; [exists x; split; [done|lia]|]. intros j y Hj Hy.
    destruct (Z.eqb_spec (tok y) token) as [E|]; [|done]. assert (j = i); [|lia].
    apply (Hu j i y x Hy Hx); congruence.
Qed.

Lemma lookup_tok_None {A} (tok : A → Z) l token :
  token ≠ 0 → lookup_tok tok l token = None → ∀ x, x ∈ l → tok x ≠ token.
Proof.
  intros Hn H x Hx E. unfold lookup_tok, find_token in H. rewrite (proj2 (Z.eqb_neq _ _) Hn) in H.
  destruct (find_idx (λ x, tok x =? token) l) as [i|] eqn:Ei.
  - apply find_idx_Some in Ei as [(y & Hy & _) _]. cbn in H. congruence.
  - rewrite find_idx_None in Ei. specialize (Ei x Hx). cbv beta in Ei. lia.
Qed.

Lemma option_ext {A} (o o' : option A) : (∀ x, o = Some x ↔ o' = Some x) → o = o'.
Proof.
  intros H. destruct o as [x|]; [symmetry; by apply H|]. destruct o' as [y|]; [by apply H|done].
Qed.

(** Overwriting a slot removes the object that was in it and adds the new one. *)
Lemma insert_tok {A} (tok : A → Z) l i x old :
  unique tok l → l !! i = Some old →
  (tok x = 0 ∨ ∀ j y, j ≠ i → l !! j = Some y → tok y ≠ tok x) →
  unique tok (<[i := x]> l) ∧
  ∀ token, token ≠ 0 → lookup_tok tok (<[i := x]> l) token =
    if decide (token = tok x) then Some x
    else if decide (token = tok old) then None else lookup_tok tok l token.
Proof.
  intros Hu Ho Hx. apply lookup_lt_Some in Ho as Hi.
  assert (unique tok (<[i := x]> l)) as Hu'.
  { intros a b y z Ha Hb E Hn.
    apply list_lookup_insert_Some in Ha as [(<- & <- & _)|[Ha' Ha]];
      apply list_lookup_insert_Some in Hb as [(<- & <- & _)|[Hb' Hb]]; [done|..].
    - destruct Hx as [Hx|Hx]; [done|]. destruct (Hx b z); congruence.
    - destruct Hx as [Hx|Hx]; [congruence|]. destruct (Hx a y); congruence.
    - by apply (Hu a b y z). }
  split; [done|]. intros token Hn. apply option_ext. intros y. rewrite lookup_tok_Some by done.
  rewrite list_elem_of_lookup. split.
  - intros (_ & Ht & j & Hj). apply list_lookup_insert_Some in Hj as [(<- & <- & _)|[Hj' Hj]].
    + by rewrite decide_True.
    + rewrite decide_False; [rewrite decide_False|].
      * apply lookup_tok_Some; [done|]. split_and!; [done|done|]. by eapply list_elem_of_lookup_2.
      * intros E. apply Hj'. apply (Hu i j old y); congruence.
      * intros E. destruct Hx as [Hx|Hx]; [congruence|]. destruct (Hx j y); congruence.
  - case_decide as E1; [intros [= <-]; split_and!; [done|done|]; exists i; by apply list_lookup_insert_eq|].
    case_decide as E2; [done|]. intros Hy. apply lookup_tok_Some in Hy as (_ & Ht & Hy); [|done].
    apply list_elem_of_lookup in Hy as [j Hj]. split_and!; [done|done|]. exists j.
    rewrite list_lookup_insert_ne; [done|]. intros ->. rewrite Ho in Hj. injection Hj as <-. congruence.
Qed.

Lemma free_slot_hit {A} (tok : A → Z) l i :
  free_slot tok l = Some i → ∃ x, l !! i = Some x ∧ tok x = 0.
Proof. intros H. apply find_idx_Some in H as [(x & Hx & Ht) _]. exists x. split; [done|lia]. Qed.

Lemma list_alter_insert {A} (f : A → A) (l : list A) i x : l !! i = Some x → alter f i l = <[i := f x]> l.
Proof.
  intros H. apply list_eq. intros j. destruct (decide (j = i)) as [->|Hj].
  - rewrite list_lookup_alter_eq, H. symmetry. apply list_lookup_insert_eq. by eapply lookup_lt_Some.
  - by rewrite list_lookup_alter_ne, list_lookup_insert_ne by done.
Qed.

(** ** Bitmaps *)

(** Tokens are unique and were made by the counter. *)
Record bitmap_tokens (s : shim) : Prop := {
  bt_unique : unique bs_token (bitmaps s);
  bt_below : Forall (λ b, 0 <= bs_token b <= next_bitmap s) (bitmaps s);
  bt_next : 0 < next_bitmap s
}.

Lemma bitmap_tokens_init : bitmap_tokens shim_init.
Proof.
  split; [|apply Forall_replicate; cbn; lia|cbn; lia].
  intros i j x y Hx _ _ Hn. apply lookup_replicate in Hx as [-> _]. by destruct Hn.
Qed.

Lemma the_bitmap_tok token s : the_bitmap token s = lookup_tok bs_token (bitmaps s) token.
Proof. done. Qed.



(** Releasing a token removes exactly its bitmap from the map, and
    releasing a stale token again does nothing. *)
Theorem release_bitmap_removes token s :
  bitmap_tokens s →
  ∃ s', muplar_release_bitmap token s = Done () s' ∧ bitmap_tokens s' ∧
    ∀ t, the_bitmap t s' = if decide (t = token) then None else the_bitmap t s.
Proof.
  intros [Hu Hb Hn]. unfold muplar_release_bitmap, get, put, mret, mbind, M_bind, M_ret.
  assert (the_bitmap 0 s = None) as H0 by done.
  destruct (muplar_find_bitmap token s) as [i|] eqn:E.
  - assert (token ≠ 0) as Ht. { intros ->. done. }
    unfold muplar_find_bitmap, find_token in E. rewrite (proj2 (Z.eqb_neq _ _) Ht) in E.
    apply find_idx_Some in E as [(old & Hold & Ho) _]. assert (bs_token old = token) as Eo by lia.
    destruct (insert_tok bs_token (bitmaps s) i no_bitmap old Hu Hold) as [Hu' Hl]; [by left|].
    eexists. split; [reflexivity|]. split.
    { split; cbn [bitmaps next_bitmap set_bitmaps]; [done| |done]. apply Forall_insert; [done|cbn; lia]. }
    intros t. rewrite !the_bitmap_tok. cbn [bitmaps set_bitmaps].
    destruct (decide (t = 0)) as [->|Ht0]; [by case_decide|]. rewrite Hl by done. cbn [bs_token no_bitmap].
    rewrite decide_False by done. by rewrite Eo.
  - eexists. split; [reflexivity|]. split; [done|]. intros t. case_decide as Et; [|done]. subst t.
    unfold the_bitmap. by rewrite E.
Qed.

(** Witness of [release_bitmap_removes]. *)
Lemma release_bitmap_removes_witness :
  ∃ s', muplar_release_bitmap 0x40000100 shim_init = Done () s' ∧ bitmap_tokens s' ∧
    ∀ t, the_bitmap t s' = if decide (t = 0x40000100) then None else the_bitmap t shim_init.
Proof. apply release_bitmap_removes, bitmap_tokens_init. Defined.

(** ** Canvases *)

(** Tokens of canvases are unique and were made by the counter. *)
Record canvas_tokens (s : shim) : Prop := {
  ct_unique : unique cv_token (canvases s);
  ct_below : Forall (λ c, 0 <= cv_token c <= next_canvas s) (canvases s);
  ct_len : length (canvases s) = n_canvases
}.

(** A full table of canvases takes back one that is in use: the new canvas
    gets the slot whose turn it is, and the token of the canvas that was there
    names nothing from then on, although nobody has released it; all other
    canvases stay. *)
Theorem alloc_canvas_steals bitmap s :
  canvas_tokens s → 0 <= next_canvas s → next_canvas s + 0x100 < 2 ^ 63 → 0 <= wrap_idx s →
  Forall (λ c, cv_token c ≠ 0) (canvases s) →
  let i := Z.to_nat (wrap_idx s mod 512) in
  ∃ c s', canvases s !! i = Some c ∧ muplar_alloc_canvas bitmap s = Done i s' ∧ canvas_tokens s' ∧
    the_canvas (cv_token c) s = Some c ∧ the_canvas (cv_token c) s' = None ∧
    the_canvas (next_canvas s + 0x100) s' =
      Some (CanvasState (next_canvas s + 0x100) bitmap (fresh_frame (the_bitmap bitmap s)) 0 (cv_stack c)) ∧
    ∀ t, t ≠ cv_token c → t ≠ next_canvas s + 0x100 → the_canvas t s' = the_canvas t s.
Proof.
  intros [Hu Hb Hl] Hn Hmax Hw Hlive i. set (token := next_canvas s + 0x100) in *.
  pose proof (Z.mod_pos_bound (wrap_idx s) 512 ltac:(lia)) as Hmod.
  destruct (lookup_lt_is_Some_2 (canvases s) i) as [c Hc]; [rewrite Hl; unfold i, n_canvases; lia|].
  assert (u64 (next_canvas s + 0x100) = token) as Eu by (apply u64_small; unfold in_u64, token in *; lia).
  assert (s64 token = token) as Es by (apply s64_small; unfold in_s64, token in *; lia).
  rewrite Forall_lookup in Hb, Hlive. pose proof (Hlive i c Hc) as Hc0. cbn in Hc0.
  set (c' := CanvasState token bitmap (fresh_frame (the_bitmap bitmap s)) 0 (cv_stack c)).
  destruct (insert_tok cv_token (canvases s) i c' c Hu Hc) as [Hu' Hlk].
  { right. intros j y _ Hy. specialize (Hb j y Hy). cbn in *. unfold token. lia. }
  assert (∀ t s0, the_canvas t s0 = lookup_tok cv_token (canvases s0) t) as Hthe by done.
  exists c. eexists. split; [done|]. split.
  { unfold muplar_alloc_canvas, get, put, mret, mbind, M_bind, M_ret.
    assert (free_slot cv_token (canvases s) = None) as ->.
    { apply find_idx_None. intros x Hx. apply list_elem_of_lookup in Hx as [j Hj]. specialize (Hlive j x Hj).
      cbn in Hlive. lia. }
    reflexivity. }
  rewrite Eu, Es. rewrite !Hthe. cbn [canvases set_wrap_idx set_next_canvas].
  unfold canvas_assign. cbn [canvases set_canvases next_canvas set_wrap_idx set_next_canvas].
  rewrite (list_alter_insert _ _ _ c Hc : alter _ i (canvases s) = _).
  change (muplar_canvas_reset _ _) with c'.
  assert (∀ t, t ≠ cv_token c → t ≠ token →
    lookup_tok cv_token (<[i := c']> (canvases s)) t = lookup_tok cv_token (canvases s) t) as Hother.
  { intros t Ht Ht'. destruct (decide (t = 0)) as [->|Ht0]; [done|]. rewrite Hlk by done.
    by rewrite !decide_False by done. }
  assert (0 < cv_token c < token) as Htc.
  { specialize (Hb i c Hc). cbn in Hb. unfold token. lia. }
  split_and!.
  - split; cbn [canvases set_canvases set_wrap_idx set_next_canvas next_canvas]; [done| |by rewrite length_insert].
    apply Forall_insert; [|cbn; unfold token; lia]. apply Forall_lookup. intros j y Hy. specialize (Hb j y Hy).
    cbn in *. unfold token. lia.
  - apply lookup_tok_Some; [done|]. split_and!; [done|done|]. by eapply list_elem_of_lookup_2.
  - rewrite Hlk by lia. cbn [cv_token c']. rewrite decide_False by lia. by rewrite decide_True.
  - rewrite Hlk by (unfold token; lia). by rewrite decide_True.
  - intros t Ht Ht'. rewrite !Hthe. cbn [canvases set_wrap_idx set_next_canvas set_canvases]. by apply Hother.
Qed.

(** A full table. *)
Definition full_canvases : list canvas_state :=
  (λ k, CanvasState (0x24100 + k * 0x100) 0 no_frame 0 []) <$> seqZ 0 512.
Definition full_shim : shim := set_next_canvas 0x44000 (set_canvases full_canvases shim_init).

Lemma full_lookup i c : full_canvases !! i = Some c → (i < 512)%nat ∧ cv_token c = 0x24100 + Z.of_nat i * 0x100.
Proof.
  intros H. unfold full_canvases in H. rewrite list_lookup_fmap in H. apply fmap_Some in H as (k & Hk & ->).
  apply lookup_seqZ in Hk as [-> Hk]. cbn. lia.
Qed.

(** Witness of [alloc_canvas_steals]: the 513th canvas takes the place of the
    first. *)
Lemma alloc_canvas_steals_witness :
  ∃ c s', canvases full_shim !! 0%nat = Some c ∧ muplar_alloc_canvas 0 full_shim = Done 0%nat s' ∧ canvas_tokens s' ∧
    the_canvas (cv_token c) full_shim = Some c ∧ the_canvas (cv_token c) s' = None ∧
    the_canvas 0x44100 s' = Some (CanvasState 0x44100 0 (fresh_frame (the_bitmap 0 full_shim)) 0 (cv_stack c)) ∧
    ∀ t, t ≠ cv_token c → t ≠ 0x44100 → the_canvas t s' = the_canvas t full_shim.
Proof.
  apply (alloc_canvas_steals 0 full_shim).
  - split; [| |reflexivity].
    + intros i j x y Hx Hy E _. apply full_lookup in Hx as [_ Hx], Hy as [_ Hy]. lia.
    + apply Forall_lookup. intros i x Hx. apply full_lookup in Hx as [Hi Hx]. cbn [next_canvas full_shim set_next_canvas]. lia.
  - cbn. lia.
  - reflexivity.
  - cbn. lia.
  - apply Forall_lookup. intros i x Hx. apply full_lookup in Hx as [Hi Hx]. lia.
Defined.
