(* ===== verification/ShimCopyProps.v ===== *)
(** * Pixels through buffers

    What copyPixelsFromBuffer stores, copyPixelsToBuffer gives back: exactly
    for the formats of two and four bytes, and but for zeros for the format of
    one byte.  The format of eight bytes leaves the pixel array. *)

From S2P Require Import Prelude Machine Float32 ShimTables ShimRaster ShimPaint ShimCanvas.
From S2P Require Import ShimPng ShimPaint RasterProps.

(** ** One pixel *)

(** A fact on all numbers below a bound, by trying them. *)
Lemma all_below (N : Z) (f : Z → bool) z : forallb f (seqZ 0 N) = true → 0 <= z < N → f z = true.
Proof.
  intros Hf Hz. rewrite forallb_forall in Hf. apply Hf, list_elem_of_In, elem_of_seqZ. lia.
Qed.

Lemma rgb565_back p : in_u16 p → rgb565_of_pixel (pixel_of_rgb565 p) = p.
Proof.
  intros H. unfold in_u16 in H.
  assert (∀ hi, 0 <= hi < 256 → forallb (λ lo, rgb565_of_pixel (pixel_of_rgb565 (256 * hi + lo)) =? 256 * hi + lo)
    (seqZ 0 256) = true) as Hall.
  { intros hi. apply (all_below 256 (λ hi, forallb (λ lo,
      rgb565_of_pixel (pixel_of_rgb565 (256 * hi + lo)) =? 256 * hi + lo) (seqZ 0 256))). vm_compute. reflexivity. }
  pose proof (Z.div_mod p 256 ltac:(lia)) as E. pose proof (Z.mod_pos_bound p 256 ltac:(lia)).
  assert (0 <= p / 256 < 256) as Hhi by zdm.
  pose proof (all_below 256 _ (p mod 256) (Hall _ Hhi) ltac:(lia)) as Hp. cbv beta in Hp.
  rewrite <- E in Hp. lia.
Qed.

(** What one byte comes back as. *)
Definition alpha8_back (b : Z) : Z := if b =? 0 then 255 else b.
Lemma alpha8_of_back b : in_u8 b → alpha8_of_pixel (pixel_of_alpha8 b) = alpha8_back b.
Proof.
  intros H. apply Z.eqb_eq. apply (all_below 256 (λ b, alpha8_of_pixel (pixel_of_alpha8 b) =? alpha8_back b)); [|exact H].
  vm_compute. reflexivity.
Qed.

Lemma map_fix {A} (f : A → A) l (P : A → Prop) : Forall P l → (∀ x, P x → f x = x) → f <$> l = l.
Proof. intros HP Hf. induction HP as [|x l Hx HP IH]; [done|]. cbn. by rewrite Hf, IH. Qed.

(** ** One array *)

(** The bytes that come back. *)
Definition come_back (bpp : Z) (bs : list Z) : list Z := if bpp =? 1 then alpha8_back <$> bs else bs.

Lemma decode_encode bpp px mem start bs :
  bpp = 1 ∨ bpp = 2 ∨ bpp = 4 → bytes mem →
  let count := Z.of_nat (length px) in
  slice mem start (count * bpp) = Some bs →
  ∃ px', decode_pixels bpp count mem start px = Some px' ∧ length px' = length px ∧
    encode_pixels bpp count px' = Some (come_back bpp bs).
Proof.
  intros Hbpp Hmem count Hs. destruct (slice_eq _ _ _ _ Hs) as [Hl Hbs]; [lia|]. specialize (Hbs Hmem).
  unfold decode_pixels, encode_pixels, come_back. destruct Hbpp as [-> | [-> | ->]]; cbn [Z.eqb Pos.eqb].
  - rewrite Z.mul_1_r in *. rewrite Hs. eexists. split; [reflexivity|].
    rewrite length_fmap. split; [lia|]. f_equal. rewrite take_ge by (rewrite length_fmap; lia).
    rewrite <- list_fmap_compose. apply list_fmap_ext. intros i b Hb. apply alpha8_of_back.
    exact (proj1 (Forall_lookup _ _) Hbs _ _ Hb).
  - rewrite Z.mul_comm in Hs. rewrite Hs. obind. eexists. split; [reflexivity|].
    rewrite length_fmap, length_words_of. split; [lia|]. f_equal.
    rewrite take_ge by (rewrite length_fmap, length_words_of; lia).
    rewrite <- list_fmap_compose, (map_fix _ _ (λ w, 0 <= w < 256 ^ 2)).
    + apply word_bytes_of; [done|lia].
    + apply (words_of_range 2); [done|lia].
    + intros p Hp. apply rgb565_back. exact Hp.
  - rewrite Hs. obind. unfold splice. rewrite length_word_bytes. rewrite (proj2 (Z.leb_le _ _)) by lia.
    rewrite (proj2 (Z.leb_le _ _)) by lia. obind.
    rewrite take_0, drop_ge, app_nil_r by (rewrite length_word_bytes; lia). cbn [app].
    eexists. split; [reflexivity|]. rewrite length_words_of. split; [done|].
    rewrite word_bytes_of by (done || lia). unfold slice. rewrite (proj2 (Z.leb_le _ _)) by lia.
    rewrite (proj2 (Z.leb_le _ _)) by lia. obind. by rewrite drop_0, take_ge by lia.
Qed.

(** ** The natives *)

(** Pixels survive a trip through a bitmap: after copyPixelsFromBuffer a
    copyPixelsToBuffer into any buffer with room writes the bytes that were
    read, at its own position and nowhere else, for RGB_565 and the formats of
    four bytes; for ALPHA_8 a zero byte comes back as 255. *)
Theorem copy_pixels_roundtrip s token i b px src dst mem start bs mem2 start2 :
  muplar_find_bitmap token s = Some i → bitmaps s !! i = Some b → bs_pixels b = Some px →
  dims (bitmaps s) i (bs_width b) (bs_height b) → bpp_of b = 1 ∨ bpp_of b = 2 ∨ bpp_of b = 4 →
  buffer_view src = Some (mem, start) → bytes mem →
  slice mem start (Z.of_nat (length px) * bpp_of b) = Some bs →
  buffer_view dst = Some (mem2, start2) → 0 <= start2 →
  start2 + Z.of_nat (length bs) <= Z.of_nat (length mem2) →
  ∃ s', Bitmap_nativeCopyPixelsFromBuffer token src s = Done () s' ∧
    Bitmap_nativeCopyPixelsToBuffer token dst s' =
      Done (buffer_with dst (take (Z.to_nat start2) mem2 ++ come_back (bpp_of b) bs ++
                             drop (Z.to_nat start2 + length bs) mem2)) s'.
Proof.
  intros Hf Hb Hpx [Hw Hh (b' & px' & Hb' & _ & _ & Hpx' & Hl & _)] Hbpp Hsrc Hmem Hs Hdst Hp Hroom.
  rewrite Hb in Hb'. injection Hb' as <-. rewrite Hpx in Hpx'. injection Hpx' as <-.
  assert (u64 (bs_width b * bs_height b) = Z.of_nat (length px)) as Hc.
  { rewrite u64_small by (unfold in_u64; nia). done. }
  destruct (decode_encode (bpp_of b) px mem start bs Hbpp Hmem Hs) as (px' & Ed & Hl' & Ee).
  eexists. split.
  - unfold Bitmap_nativeCopyPixelsFromBuffer, get, mbind, M_bind. rewrite Hf. obind. rewrite Hb. obind.
    rewrite Hpx. obind. rewrite Hsrc. obind. rewrite Hc, Ed. reflexivity.
  - unfold Bitmap_nativeCopyPixelsToBuffer, gets, mbind, M_bind.
    assert (the_bitmap token (set_bitmaps (<[i:=with_pixels b px']> (bitmaps s)) s) = Some (with_pixels b px')) as ->.
    { unfold the_bitmap, muplar_find_bitmap, find_token in *. cbn [bitmaps set_bitmaps].
      destruct (token =? 0); [done|]. assert (find_idx (λ x, bs_token x =? token) (<[i:=with_pixels b px']> (bitmaps s))
        = find_idx (λ x, bs_token x =? token) (bitmaps s)) as ->.
      { apply find_idx_insert_same with b; done. }
      rewrite Hf. obind. apply list_lookup_insert_eq. by eapply lookup_lt_Some. }
    obind. cbn [bs_pixels with_pixels]. obind. rewrite Hdst. obind.
    change (bpp_of (with_pixels b px')) with (bpp_of b). cbn [bs_width bs_height with_pixels].
    rewrite Hc, Ee. unfold lift, mret, M_ret. cbv beta iota.
    assert (length (come_back (bpp_of b) bs) = length bs) as Elen.
    { unfold come_back. destruct (_ =? 1); [apply length_fmap|done]. }
    unfold splice. rewrite Elen. rewrite (proj2 (Z.leb_le _ _)) by lia. rewrite (proj2 (Z.leb_le _ _)) by lia.
    reflexivity.
Qed.

(** For the format RGBA_F16 the pixel array holds four bytes per pixel but
    both copies move eight: copying a bitmap of that format to or from any
    buffer with memory behind it leaves the array. *)
Theorem copy_f16_overruns s token b px buffer view :
  the_bitmap token s = Some b → bs_pixels b = Some px → bs_bpp b = config_bpp 6 →
  0 < bs_width b * bs_height b < 2 ^ 63 → Z.of_nat (length px) = bs_width b * bs_height b →
  buffer_view buffer = Some view →
  Bitmap_nativeCopyPixelsToBuffer token buffer s = Fault ∧
  Bitmap_nativeCopyPixelsFromBuffer token buffer s = Fault.
Proof.
  intros Hb Hpx Hbpp Hn Hl Hv. destruct view as [mem start].
  assert (bpp_of b = 8) as E8 by (unfold bpp_of; rewrite Hbpp; done).
  assert (u64 (bs_width b * bs_height b) = Z.of_nat (length px)) as Hc.
  { rewrite u64_small by (unfold in_u64; nia). done. }
  split.
  - unfold Bitmap_nativeCopyPixelsToBuffer, gets, mbind, M_bind. rewrite Hb. obind. rewrite Hpx. obind.
    rewrite Hv. obind. rewrite E8, Hc. unfold encode_pixels. cbn [Z.eqb Pos.eqb].
    unfold slice. rewrite length_word_bytes. rewrite (proj2 (Z.leb_gt _ (Z.of_nat _))) by lia.
    by rewrite andb_false_r.
  - unfold the_bitmap in Hb. unfold Bitmap_nativeCopyPixelsFromBuffer, get, mbind, M_bind.
    destruct (muplar_find_bitmap token s) as [i|]; [|done]. cbn in Hb. obind. rewrite Hb. obind. rewrite Hpx. obind.
    rewrite Hv. obind. rewrite E8, Hc. unfold decode_pixels. cbn [Z.eqb Pos.eqb].
    destruct (slice mem start _) as [bs|] eqn:Es; [|done]. obind. apply slice_eq in Es as [El _]; [|lia].
    unfold splice. rewrite length_word_bytes. rewrite (proj2 (Z.leb_gt _ (Z.of_nat _))) by lia. by rewrite andb_false_r.
Qed.

(** A table with one bitmap of the format [bpp], of two pixels. *)
Definition two_pixels (bpp : Z) : shim :=
  set_bitmaps [BitmapState 0x40000100 2 1 bpp 5 (Some [0; 0])] shim_init.

(** Witness of [copy_pixels_roundtrip]: an ALPHA_8 bitmap, and a byte buffer
    behind an array. *)
Lemma copy_pixels_roundtrip_witness :
  ∃ s', Bitmap_nativeCopyPixelsFromBuffer 0x40000100 (DirectBuffer [9; 0; 7] 1) (two_pixels 1) = Done () s' ∧
    Bitmap_nativeCopyPixelsToBuffer 0x40000100 (ArrayBuffer [1; 2; 3; 4] 1 0 0) s' =
      Done (ArrayBuffer (take (Z.to_nat 1) [1; 2; 3; 4] ++ come_back 1 [0; 7] ++ drop (Z.to_nat 1 + 2) [1; 2; 3; 4]) 1 0 0) s'.
Proof.
  apply (copy_pixels_roundtrip (two_pixels 1) 0x40000100 0 (BitmapState 0x40000100 2 1 1 5 (Some [0; 0])) [0; 0]
    (DirectBuffer [9; 0; 7] 1) (ArrayBuffer [1; 2; 3; 4] 1 0 0) [9; 0; 7] 1 [0; 7] [1; 2; 3; 4] 1);
    try reflexivity; try (cbn; lia).
  - split; [cbn; lia|cbn; lia|]. eexists _, _. split; [reflexivity|]. split_and!; [reflexivity..|].
    repeat constructor; unfold in_u32; lia.
  - unfold bytes, in_u8. repeat (apply Forall_cons; split); [lia..|constructor].
Defined.

(** Witness of [copy_f16_overruns]: two pixels and a buffer of 64 bytes. *)
Lemma copy_f16_overruns_witness :
  Bitmap_nativeCopyPixelsToBuffer 0x40000100 (DirectBuffer (replicate 64 0) 0) (two_pixels 8) = Fault ∧
  Bitmap_nativeCopyPixelsFromBuffer 0x40000100 (DirectBuffer (replicate 64 0) 0) (two_pixels 8) = Fault.
Proof.
  apply (copy_f16_overruns _ _ (BitmapState 0x40000100 2 1 8 5 (Some [0; 0])) [0; 0] _ (replicate 64 0, 0));
    try reflexivity; cbn; lia.
Defined.
