(* ===== verification/ShimPngProps.v ===== *)
(** * The PNG encoder: checksums, bounds and round trip

    Reference definitions of the two checksums, a PNG decoder for true-colour
    images in stored blocks, and the proof that decoding what the encoder wrote
    gives the sampled pixels back. *)

From S2P Require Import Prelude Machine ShimPng.

(** ** CRC-32 *)

(** The table-driven form: one lookup per byte. *)
Definition crc_table (i : Z) : Z := crc_bits 8 i.
Definition crc_table_byte (crc byte : Z) : Z :=
  Z.lxor (Z.shiftr crc 8) (crc_table (Z.land (Z.lxor crc byte) 255)).
Definition crc32_ref (data : list Z) : Z :=
  Z.lxor (foldl crc_table_byte 0xffffffff data) 0xffffffff.

Lemma crc_bit_lxor a b : crc_bit (Z.lxor a b) = Z.lxor (crc_bit a) (crc_bit b).
Proof.
  unfold crc_bit. rewrite Z.shiftr_lxor.
  assert (∀ x, Z.land x 1 = Z.b2z (Z.testbit x 0)) as Hl.
  { intros x. change 1 with (Z.ones 1). rewrite Z.land_ones by lia. change (2 ^ 1) with 2.
    by rewrite Z.bit0_mod. }
  rewrite !Hl, Z.lxor_spec. generalize (Z.shiftr a 1), (Z.shiftr b 1). intros p q.
  destruct (Z.testbit a 0), (Z.testbit b 0); cbn [xorb Z.b2z Z.eqb negb]; rewrite ?Z.lxor_0_r.
  - rewrite Z.lxor_assoc, (Z.lxor_comm 0xedb88320), !Z.lxor_assoc, Z.lxor_nilpotent.
    by rewrite Z.lxor_0_r.
  - by rewrite Z.lxor_assoc, (Z.lxor_comm q), <- Z.lxor_assoc.
  - by rewrite Z.lxor_assoc.
  - done.
Qed.

Lemma crc_bits_lxor n a b : crc_bits n (Z.lxor a b) = Z.lxor (crc_bits n a) (crc_bits n b).
Proof. revert a b. induction n as [|n IH]; intros a b; [done|]. cbn. by rewrite crc_bit_lxor, IH. Qed.

Lemma shiftl_even c n : Z.land (Z.shiftl c (Z.of_nat (S n))) 1 = 0.
Proof.
  change 1 with (Z.ones 1). rewrite Z.land_ones by lia. change (2 ^ 1) with 2.
  rewrite Z.shiftl_mul_pow2 by lia. rewrite Nat2Z.inj_succ, Z.pow_succ_r by lia.
  replace (c * (2 * 2 ^ Z.of_nat n)) with (c * 2 ^ Z.of_nat n * 2) by lia. by apply Z_mod_mult.
Qed.

(** A register whose low [n] bits are clear is only shifted. *)
Lemma crc_bits_shift n c : crc_bits n (Z.shiftl c (Z.of_nat n)) = c.
Proof.
  induction n as [|n IH]; cbn [crc_bits]; [apply Z.shiftl_0_r|].
  assert (crc_bit (Z.shiftl c (Z.of_nat (S n))) = Z.shiftl c (Z.of_nat n)) as ->; [|done].
  unfold crc_bit. rewrite shiftl_even. cbn. rewrite Z.lxor_0_r, Z.shiftr_shiftl_l by lia.
  f_equal. lia.
Qed.

(** Eight steps of the register: its high bits move down, its low byte goes
    through the table. *)
Lemma crc_byte_table crc b : crc_byte crc b = 
  Z.lxor (Z.shiftr (Z.lxor crc b) 8) (crc_table (Z.land (Z.lxor crc b) 255)).
Proof.
  unfold crc_byte, crc_table. set (c := Z.lxor crc b).
  assert (c = Z.lxor (Z.shiftl (Z.shiftr c 8) 8) (Z.land c 255)) as Hc.
  { apply Z.bits_inj'. intros i Hi. change 255 with (Z.ones 8).
    rewrite Z.lxor_spec, Z.land_spec. destruct (Z.lt_ge_cases i 8).
    - rewrite Z.shiftl_spec_low, Z.ones_spec_low by lia. by rewrite andb_true_r, xorb_false_l.
    - rewrite Z.shiftl_spec, Z.shiftr_spec, Z.ones_spec_high by lia.
      rewrite andb_false_r, xorb_false_r. f_equal. lia. }
  rewrite Hc at 1. rewrite crc_bits_lxor. f_equal. apply (crc_bits_shift 8).
Qed.

Lemma crc_byte_ref crc b : in_u8 b → crc_byte crc b = crc_table_byte crc b.
Proof.
  intros Hb. rewrite crc_byte_table. unfold crc_table_byte. f_equal.
  rewrite Z.shiftr_lxor. assert (Z.shiftr b 8 = 0) as ->; [|apply Z.lxor_0_r].
  rewrite Z.shiftr_div_pow2 by lia. change (2 ^ 8) with 256. by apply Z.div_small.
Qed.

Lemma lnot_u32 c : in_u32 c → u32 (Z.lnot c) = Z.lxor c 0xffffffff.
Proof.
  intros Hc. change 0xffffffff with (Z.ones 32). unfold u32. change 4294967296 with (2 ^ 32).
  apply Z.bits_inj'. intros i Hi. rewrite Z.lxor_spec. destruct (Z.lt_ge_cases i 32).
  - rewrite Z.mod_pow2_bits_low, Z.lnot_spec, Z.ones_spec_low by lia. by rewrite xorb_true_r.
  - rewrite Z.mod_pow2_bits_high, Z.ones_spec_high by lia.
    by rewrite (testbit_high c 32 i) by (try lia; exact Hc).
Qed.

Lemma lxor_u32 a b : in_u32 a → in_u32 b → in_u32 (Z.lxor a b).
Proof.
  intros Ha Hb. unfold in_u32. change 4294967296 with (2 ^ 32).
  assert (Z.lxor a b = Z.lxor a b mod 2 ^ 32) as ->; [|apply Z.mod_pos_bound; lia].
  apply Z.bits_inj'. intros i Hi. destruct (Z.lt_ge_cases i 32).
  - by rewrite Z.mod_pow2_bits_low by lia.
  - rewrite Z.mod_pow2_bits_high, Z.lxor_spec by lia.
    by rewrite (testbit_high a 32 i), (testbit_high b 32 i) by (try lia; done).
Qed.

Lemma crc_byte_u32 c b : in_u32 c → in_u8 b → in_u32 (crc_byte c b).
Proof.
  intros Hc Hb. unfold crc_byte.
  assert (in_u32 (Z.lxor c b)) as H by (apply lxor_u32; [done|unfold in_u8, in_u32 in *; lia]).
  revert H. generalize (Z.lxor c b). generalize 8%nat. intros n. induction n as [|n IH]; intros x Hx; [done|].
  cbn [crc_bits]. apply IH. unfold crc_bit. apply lxor_u32.
  - unfold in_u32 in *. rewrite Z.shiftr_div_pow2 by lia. change (2 ^ 1) with 2. zdm.
  - case_match; unfold in_u32; lia.
Qed.

Lemma crc_fold_u32 c data : in_u32 c → bytes data → in_u32 (foldl crc_byte c data).
Proof.
  intros Hc Hd. revert c Hc. induction Hd as [|b data Hb _ IH]; intros c Hc; [done|]. cbn [foldl].
  by apply IH, crc_byte_u32.
Qed.

Lemma crc_fold_ref c data : bytes data → foldl crc_byte c data = foldl crc_table_byte c data.
Proof.
  intros Hd. revert c. induction Hd as [|b data Hb _ IH]; intros c; [done|]. cbn [foldl].
  by rewrite IH, crc_byte_ref.
Qed.

Lemma crc32_is_ref data : bytes data → muplar_crc32_update 0 data = crc32_ref data.
Proof.
  intros Hd. unfold muplar_crc32_update, crc32_ref. change (u32 (Z.lnot 0)) with 0xffffffff.
  rewrite lnot_u32 by (apply crc_fold_u32; [unfold in_u32; lia|done]). by rewrite crc_fold_ref.
Qed.

Lemma crc32_app a b :
  bytes a → muplar_crc32_update (muplar_crc32_update 0 a) b = muplar_crc32_update 0 (a ++ b).
Proof.
  intros Ha. unfold muplar_crc32_update. rewrite foldl_app.
  assert (in_u32 (foldl crc_byte (u32 (Z.lnot 0)) a)) as Hu
    by (apply crc_fold_u32; [apply u32_range|done]).
  set (r := foldl crc_byte (u32 (Z.lnot 0)) a) in *.
  assert (u32 (Z.lnot (u32 (Z.lnot r))) = r) as ->; [|done].
  rewrite (lnot_u32 r) by exact Hu. rewrite lnot_u32.
  - rewrite Z.lxor_assoc, Z.lxor_nilpotent. apply Z.lxor_0_r.
  - apply lxor_u32; [exact Hu|unfold in_u32; lia].
Qed.

(** The checksum of a chunk, taken in two calls over its type and its
    data, is the table-driven CRC-32 of the two together. *)
Theorem crc32_two_parts a b :
  bytes a → bytes b →
  muplar_crc32_update (muplar_crc32_update 0 a) b = crc32_ref (a ++ b).
Proof. intros Ha Hb. rewrite crc32_app by done. apply crc32_is_ref. by apply Forall_app_2. Qed.

(** The standard check value. *)
Lemma crc32_two_parts_witness :
  muplar_crc32_update (muplar_crc32_update 0 (cs "1234")) (cs "56789") = 0xcbf43926.
Proof.
  rewrite (crc32_two_parts (cs "1234") (cs "56789")); [vm_compute; reflexivity|..];
    repeat constructor; unfold in_u8; simpl; lia.
Defined.

(** ** Adler-32 *)

(** The two sums of the definition: of the bytes, and of the bytes weighted by
    the distance to the end. *)
Fixpoint byte_sum (data : list Z) : Z :=
  match data with [] => 0 | d :: data => d + byte_sum data end.
Fixpoint weighted_sum (data : list Z) : Z :=
  match data with [] => 0 | d :: ds => (Z.of_nat (length ds) + 1) * d + weighted_sum ds end.
Definition adler32_ref (data : list Z) : Z :=
  (Z.of_nat (length data) + weighted_sum data) mod 65521 * 65536 + (1 + byte_sum data) mod 65521.

Lemma adler_fold data a b :
  foldl adler_step (a mod 65521, b mod 65521) data =
  ((a + byte_sum data) mod 65521,
   (b + Z.of_nat (length data) * a + weighted_sum data) mod 65521).
Proof.
  revert a b. induction data as [|d data IH]; intros a b.
  { cbn. by rewrite !Z.add_0_r. }
  cbn [foldl]. unfold adler_step at 2. cbn [fst snd].
  rewrite Zplus_mod_idemp_l, Zplus_mod_idemp_l, Zplus_mod_idemp_r, IH. cbn [byte_sum weighted_sum length].
  f_equal; f_equal; lia.
Qed.

(** [muplar_adler32] is the Adler-32 checksum: the two sums taken modulo
    65521 at the end. *)
Theorem adler32_sums data : muplar_adler32 data = adler32_ref data.
Proof.
  unfold muplar_adler32, adler32_ref. change (1, 0) with (1 mod 65521, 0 mod 65521).
  rewrite adler_fold. rewrite Z.mul_1_r, Z.add_0_l.
  pose proof (Z.mod_pos_bound (1 + byte_sum data) 65521 ltac:(lia)).
  pose proof (Z.mod_pos_bound (Z.of_nat (length data) + weighted_sum data) 65521 ltac:(lia)).
  rewrite u32_small.
  - rewrite Z.lor_comm, (lor_shiftl_add _ _ 16) by lia. change (2 ^ 16) with 65536. lia.
  - unfold in_u32. rewrite Z.shiftl_mul_pow2 by lia. change (2 ^ 16) with 65536. lia.
Qed.

(** ** The buffer *)

(** The bytes fit the allocation. *)
Definition bb_inv (b : byte_buffer) : Prop := bb_len b <= bb_cap b <= SIZE_MAX.

Lemma grow_cap_spec fuel next want :
  0 < next <= SIZE_MAX → 0 <= want <= SIZE_MAX → want <= next * 2 ^ Z.of_nat fuel →
  ∃ c, grow_cap fuel next want = Some c ∧ want <= c <= SIZE_MAX.
Proof.
  revert next. induction fuel as [|fuel IH]; intros next Hn Hw Hf; cbn [grow_cap].
  { change (2 ^ Z.of_nat 0) with 1 in Hf. exists next. rewrite (proj2 (Z.leb_le _ _)) by lia.
    split; [done|lia]. }
  destruct (Z.leb_spec want next); [exists next; split; [done|lia]|].
  destruct (Z.ltb_spec (SIZE_MAX / 2) next) as [Hh|Hh]; [exists want; split; [done|lia]|].
  apply IH; [unfold SIZE_MAX in *; zdm|done|].
  rewrite Nat2Z.inj_succ, Z.pow_succ_r in Hf by lia. lia.
Qed.

Section BufferProofs.
Variable realloc_ok : nat → Z → bool.
Abbreviation reserve := (muplar_buf_reserve realloc_ok).
Abbreviation append := (muplar_buf_append realloc_ok).

Lemma start_cap c want : 0 <= c <= SIZE_MAX → 0 <= want <= SIZE_MAX →
  ∃ n, grow_cap 64 (if c =? 0 then 4096 else c) want = Some n ∧ want <= n <= SIZE_MAX.
Proof.
  intros Hc Hw. apply grow_cap_spec; [|done|].
  - destruct (Z.eqb_spec c 0); [unfold SIZE_MAX; lia|lia].
  - change (2 ^ Z.of_nat 64) with 18446744073709551616. unfold SIZE_MAX in *.
    destruct (Z.eqb_spec c 0); lia.
Qed.

(** [muplar_buf_reserve] always returns.  When it reports success, the
    capacity holds the bytes and [extra] more; otherwise the buffer is marked
    as failed.  The bytes are kept, and they always fit the capacity. *)
Theorem buf_reserve_spec b extra n :
  bb_inv b → 0 <= extra <= SIZE_MAX →
  ∃ b' r n', reserve b extra n = Done (b', r) n' ∧ bb_inv b' ∧ bb_data b' = bb_data b ∧
    (if r then bb_len b + extra <= bb_cap b' ∧ bb_ok b' = true else bb_ok b' = false).
Proof.
  intros [Hl Hc] He. unfold muplar_buf_reserve, bb_inv, bb_len in *.
  destruct (bb_ok b) eqn:Hok; cbn [negb]; [|by exists b, false, n].
  destruct (Z.ltb_spec (SIZE_MAX - Z.of_nat (length (bb_data b))) extra) as [H1|H1].
  { eexists _, false, n. split_and!; [done|cbn; lia..|done|done]. }
  destruct (Z.leb_spec (Z.of_nat (length (bb_data b)) + extra) (bb_cap b)) as [H2|H2].
  { by exists b, true, n. }
  destruct (start_cap (bb_cap b) (Z.of_nat (length (bb_data b)) + extra)) as (c & -> & Hcw); [lia|lia|].
  unfold get, put, mbind, M_bind. destruct (realloc_ok n c).
  - eexists _, true, (S n). split_and!; [done|cbn; lia..|done|cbn; lia|done].
  - eexists _, false, (S n). split_and!; [done|cbn; lia..|done|done].
Qed.

(** The allocator does not fail from the [n]th call on. *)
Definition no_failure (n : nat) : Prop := ∀ k sz, (n <= k)%nat → realloc_ok k sz = true.
Lemma no_failure_later n n' : no_failure n → (n <= n')%nat → no_failure n'.
Proof. intros Hn Hle k sz Hk. apply Hn. lia. Qed.

(** [m] appends the bytes [d] when the allocator does not fail or the buffer
    has the room; with the room it makes no call. *)
Definition fits (b : byte_buffer) (d : list Z) : Prop := bb_len b + Z.of_nat (length d) <= bb_cap b.
Definition writes (m : byte_buffer → H byte_buffer) (d : list Z) : Prop :=
  ∀ b n, no_failure n ∨ fits b d → bb_inv b → bb_ok b = true →
    bb_len b + Z.of_nat (length d) <= SIZE_MAX →
    ∃ b' n', m b n = Done b' n' ∧ (n <= n')%nat ∧ bb_inv b' ∧ bb_ok b' = true ∧
      bb_data b' = bb_data b ++ d ∧ (fits b d → n' = n ∧ bb_cap b' = bb_cap b).

Lemma writes_append d : writes (λ b, append b d) d.
Proof.
  intros b n Hr [Hl Hc] Hok Hd.
  unfold muplar_buf_append, muplar_buf_reserve, bb_inv, fits, bb_len in *.
  rewrite Hok. cbn [negb].
  rewrite (proj2 (Z.ltb_ge _ _)) by lia.
  destruct (Z.leb_spec (Z.of_nat (length (bb_data b)) + Z.of_nat (length d)) (bb_cap b)) as [H2|H2].
  { eexists _, n. split; [reflexivity|]. cbn. rewrite length_app. split_and!; [done|lia|lia|done..]. }
  destruct Hr as [Hr|Hr]; [|lia].
  destruct (start_cap (bb_cap b) (Z.of_nat (length (bb_data b)) + Z.of_nat (length d)))
    as (c & -> & Hcw); [lia|lia|].
  unfold get, put, mbind, M_bind. rewrite Hr by done. eexists _, (S n). split; [reflexivity|].
  cbn. rewrite length_app. split_and!; [lia|lia|lia|done|done|lia].
Qed.

Lemma writes_id : writes mret [].
Proof. intros b n _ Hi Hok _. exists b, n. by rewrite app_nil_r. Qed.

Lemma writes_seq m1 m2 d1 d2 : writes m1 d1 → writes m2 d2 → writes (λ b, b ← m1 b; m2 b) (d1 ++ d2).
Proof.
  intros H1 H2 b n Hr Hi Hok Hd. rewrite length_app in Hd.
  assert (fits b (d1 ++ d2) → fits b d1) as Hf1 by (unfold fits; rewrite length_app; lia).
  destruct (H1 b n ltac:(tauto) Hi Hok ltac:(lia)) as (b1 & n1 & E1 & Hn1 & Hi1 & Hok1 & D1 & F1).
  assert (fits b (d1 ++ d2) → fits b1 d2) as Hf2.
  { intros Hf. destruct (F1 (Hf1 Hf)) as [_ Hcap]. unfold fits, bb_len in *.
    rewrite Hcap, D1. rewrite length_app in *. lia. }
  destruct (H2 b1 n1) as (b2 & n2 & E2 & Hn2 & Hi2 & Hok2 & D2 & F2); [|done|done| |].
  { destruct Hr as [Hr|Hr]; [|tauto]. left. by apply (no_failure_later n). }
  { unfold bb_len in *. rewrite D1, length_app. lia. }
  exists b2, n2. rewrite (bind_step _ _ _ _ _ E1), E2. split_and!; [done|lia|done|done| |].
  - by rewrite D2, D1, app_assoc.
  - intros Hf. destruct (F1 (Hf1 Hf)) as [-> <-]. auto.
Qed.

Lemma writes_fold {A} (f : A → byte_buffer → H byte_buffer) (g : A → list Z) l :
  (∀ a, a ∈ l → writes (f a) (g a)) → writes (buf_fold f l) (concat (g <$> l)).
Proof.
  induction l as [|a l IH]; intros Hf; [apply writes_id|]. cbn [buf_fold fmap list_fmap concat].
  apply (writes_seq (f a)); [apply Hf, list_elem_of_here|].
  apply IH. intros x Hx. by apply Hf, list_elem_of_further.
Qed.

Lemma writes_u8 v : writes (λ b, muplar_buf_u8 realloc_ok b v) [u8 v].
Proof. apply writes_append. Qed.
Lemma writes_be32 v : writes (λ b, muplar_buf_be32 realloc_ok b v) (be32 v).
Proof. apply writes_append. Qed.

(** The bytes of a chunk. *)
Definition chunk (type data : list Z) : list Z :=
  be32 (u32 (Z.of_nat (length data))) ++ type ++ data ++
  be32 (muplar_crc32_update 0 (type ++ data)).

Lemma writes_chunk type data :
  bytes type → writes (λ b, muplar_png_chunk realloc_ok b type data) (chunk type data).
Proof.
  intros Ht. unfold muplar_png_chunk, chunk.
  apply (writes_seq (λ b, muplar_buf_be32 realloc_ok b _)); [apply writes_be32|].
  apply (writes_seq (λ b, append b type)); [apply writes_append|].
  apply (writes_seq (λ b, if negb (Z.of_nat (length data) =? 0) then append b data else mret b)).
  - destruct data; [apply writes_id|]. apply writes_append.
  - destruct data as [|x data]; cbn [length].
    + change (Z.of_nat 0 =? 0) with true. cbn [negb]. rewrite app_nil_r. apply writes_be32.
    + rewrite (proj2 (Z.eqb_neq _ _)) by lia. cbn [negb]. rewrite crc32_app by done. apply writes_be32.
Qed.

(** The stored blocks of a byte string. *)
Fixpoint blocks (fuel : nat) (raw : list Z) : list Z :=
  match raw with
  | [] => []
  | _ =>
      match fuel with
      | O => []
      | S fuel =>
          let n := Z.min 65535 (Z.of_nat (length raw)) in
          [(if Z.of_nat (length raw) <=? 65535 then 1 else 0); u8 n; u8 (Z.shiftr n 8);
           u8 (Z.lnot n); u8 (Z.shiftr (Z.lnot n) 8)] ++ take (Z.to_nat n) raw ++
          blocks fuel (drop (Z.to_nat n) raw)
      end
  end.

Lemma writes_blocks fuel raw :
  (length raw <= fuel)%nat → writes (stored_blocks realloc_ok fuel raw) (blocks fuel raw).
Proof.
  revert raw. induction fuel as [|fuel IH]; intros raw Hf.
  { destruct raw; [apply writes_id|simpl in Hf; lia]. }
  destruct raw as [|x raw]; [apply writes_id|].
  cbn [stored_blocks blocks]. rewrite (proj2 (Z.eqb_neq _ _)) by (simpl length; lia).
  set (l := x :: raw) in *. set (len := Z.of_nat (length l)).
  assert ((if 65535 <? len then 65535 else u16 len) = Z.min 65535 len) as ->.
  { destruct (Z.ltb_spec 65535 len); [lia|]. rewrite u16_small; [lia|]. unfold in_u16; lia. }
  set (n := Z.min 65535 len).
  assert (u8 (if len <=? 65535 then 1 else 0) = (if len <=? 65535 then 1 else 0)) as Hfin
    by (by destruct (len <=? 65535)).
  match goal with |- writes ?m ?d => enough (writes m ([u8 (if len <=? 65535 then 1 else 0)] ++ [u8 n] ++
    [u8 (Z.shiftr n 8)] ++ [u8 (Z.lnot n)] ++ [u8 (Z.shiftr (Z.lnot n) 8)] ++
    take (Z.to_nat n) l ++ blocks fuel (drop (Z.to_nat n) l))) as Hw by (rewrite Hfin in Hw; exact Hw) end.
  do 5 (apply (writes_seq (λ b, muplar_buf_u8 realloc_ok b _)); [apply writes_u8|]).
  apply (writes_seq (λ b, append b _)); [apply writes_append|].
  apply IH. rewrite length_drop. subst n len l. simpl length in *. lia.
Qed.

(** The bytes of a row: the filter type 0, then three bytes a pixel. *)
Definition rgb (c : Z) : Z * Z * Z := (u8 (Z.shiftr c 16), u8 (Z.shiftr c 8), u8 c).
Definition rgb_bytes (p : Z * Z * Z) : list Z := [p.1.1; p.1.2; p.2].
Definition row_bytes (row : list (Z * Z * Z)) : list Z := 0 :: concat (rgb_bytes <$> row).

(** The rows of a bitmap, as the encoder samples them. *)
Definition sampled (bm : bitmap) (x y : Z) : Z :=
  default 0 (muplar_sample_pixel bm x y (muplar_bitmap_is_uniform bm)).
Definition png_rows (bm : bitmap) : list (list (Z * Z * Z)) :=
  (λ y, (λ x, rgb (sampled bm x y)) <$> seqZ 0 (bm_width bm)) <$> seqZ 0 (bm_height bm).

(** A bitmap with its array. *)
Definition bitmap_ok (bm : bitmap) : Prop :=
  0 < bm_width bm ∧ 0 < bm_height bm ∧
  ∃ px, bm_pixels bm = Some px ∧ Z.of_nat (length px) = bm_width bm * bm_height bm.

Lemma sample_ok bm x y u :
  bitmap_ok bm → 0 <= x < bm_width bm → 0 <= y < bm_height bm →
  is_Some (muplar_sample_pixel bm x y u).
Proof.
  intros (Hw & Hh & px & Hp & Hl) Hx Hy. unfold muplar_sample_pixel. rewrite Hp.
  destruct (lookup_lt_is_Some_2 px (Z.to_nat (y * bm_width bm + x))) as [c Hc]; [nia|].
  rewrite Hc. by eexists.
Qed.

Lemma writes_pixel bm x y :
  bitmap_ok bm → 0 <= x < bm_width bm → 0 <= y < bm_height bm →
  writes (raw_pixel realloc_ok bm (muplar_bitmap_is_uniform bm) y x) (rgb_bytes (rgb (sampled bm x y))).
Proof.
  intros Hb Hx Hy. unfold raw_pixel, sampled.
  destruct (sample_ok bm x y (muplar_bitmap_is_uniform bm) Hb Hx Hy) as [c Hc]. rewrite Hc.
  assert (writes (λ b, b ← muplar_buf_u8 realloc_ok b (Z.shiftr c 16);
      b ← muplar_buf_u8 realloc_ok b (Z.shiftr c 8); muplar_buf_u8 realloc_ok b c)
      ([u8 (Z.shiftr c 16)] ++ [u8 (Z.shiftr c 8)] ++ [u8 c])) as Hwr; [|exact Hwr].
  apply (writes_seq (λ b, muplar_buf_u8 realloc_ok b (Z.shiftr c 16))); [apply writes_u8|].
  apply (writes_seq (λ b, muplar_buf_u8 realloc_ok b (Z.shiftr c 8))); apply writes_u8.
Qed.

Lemma writes_rows bm :
  bitmap_ok bm →
  writes (buf_fold (raw_row realloc_ok bm (muplar_bitmap_is_uniform bm)) (seqZ 0 (bm_height bm)))
    (concat (row_bytes <$> png_rows bm)).
Proof.
  intros Hb. unfold png_rows. rewrite <- list_fmap_compose.
  apply (writes_fold _ (row_bytes ∘ _)). intros y Hy%elem_of_seqZ. unfold raw_row. cbn [compose].
  apply (writes_seq (λ b, muplar_buf_u8 realloc_ok b 0) _ [0]); [apply writes_u8|].
  rewrite <- list_fmap_compose.
  apply (writes_fold _ (rgb_bytes ∘ _)). intros x Hx%elem_of_seqZ. apply writes_pixel; [done|lia|lia].
Qed.

(** The bytes of the file. *)
Definition zlib_bytes (raw : list Z) : list Z :=
  [0x78; 0x01] ++ blocks (length raw) raw ++ be32 (muplar_adler32 raw).
Definition png_bytes (bm : bitmap) : list Z :=
  png_sig ++ chunk (cs "IHDR") (ihdr (bm_width bm) (bm_height bm)) ++
  chunk (cs "IDAT") (zlib_bytes (concat (row_bytes <$> png_rows bm))) ++ chunk (cs "IEND") [].

Lemma length_blocks fuel raw : (length raw <= fuel)%nat → (length (blocks fuel raw) <= 6 * length raw)%nat.
Proof.
  revert raw. induction fuel as [|fuel IH]; intros raw Hf.
  { destruct raw; [simpl; lia|simpl in Hf; lia]. }
  destruct raw as [|x raw]; [simpl; lia|]. cbn [blocks]. set (l := x :: raw) in *.
  assert (0 < length l)%nat by (simpl; lia). clearbody l.
  rewrite length_app, length_app, length_take. cbn [length].
  pose proof (IH (drop (Z.to_nat (Z.min 65535 (Z.of_nat (length l)))) l)) as Hr.
  rewrite length_drop in Hr. lia.
Qed.

Lemma length_rows bm :
  bitmap_ok bm →
  Z.of_nat (length (concat (row_bytes <$> png_rows bm))) = (3 * bm_width bm + 1) * bm_height bm.
Proof.
  intros (Hw & Hh & _). unfold png_rows. rewrite <- list_fmap_compose.
  assert (∀ w ys (f : Z → Z → Z * Z * Z), length (concat ((row_bytes ∘ (λ y, f y <$> seqZ 0 w)) <$> ys)) =
    (length ys * S (3 * Z.to_nat w))%nat) as Hgen.
  { intros w ys f. induction ys as [|y ys IH]; [done|]. cbn [fmap list_fmap concat length].
    rewrite length_app, IH. cbn [compose row_bytes length].
    assert (∀ l : list (Z * Z * Z), length (concat (rgb_bytes <$> l)) = (3 * length l)%nat) as Hl.
    { induction l as [|p l IHl]; [done|]. cbn [fmap list_fmap concat]. rewrite length_app, IHl. simpl. lia. }
    rewrite Hl, length_fmap, length_seqZ. lia. }
  rewrite (Hgen _ _ (λ y x, rgb (sampled bm x y))), length_seqZ. nia.
Qed.

Lemma reserve_run b extra n :
  (∀ sz, realloc_ok n sz = true) → bb_inv b → bb_ok b = true → 0 <= extra →
  bb_len b + extra <= SIZE_MAX →
  ∃ b' n', reserve b extra n = Done (b', true) n' ∧ (n <= n' <= S n)%nat ∧ bb_inv b' ∧
    bb_ok b' = true ∧ bb_data b' = bb_data b.
Proof.
  intros Hr [Hl Hc] Hok He Hd. unfold muplar_buf_reserve, bb_inv, bb_len in *.
  rewrite Hok. cbn [negb]. rewrite (proj2 (Z.ltb_ge _ _)) by lia.
  destruct (Z.leb_spec (Z.of_nat (length (bb_data b)) + extra) (bb_cap b)) as [H2|H2].
  { exists b, n. split_and!; [done|lia|lia|done..]. }
  destruct (start_cap (bb_cap b) (Z.of_nat (length (bb_data b)) + extra)) as (c & -> & Hcw); [lia|lia|].
  unfold get, put, mbind, M_bind. rewrite Hr. eexists _, (S n). split; [reflexivity|].
  cbn. split_and!; [lia|lia|lia|lia|done|done].
Qed.

Lemma writes_zlib raw :
  writes (λ b, b ← muplar_buf_u8 realloc_ok b 0x78; b ← muplar_buf_u8 realloc_ok b 0x01;
               b ← stored_blocks realloc_ok (length raw) raw b;
               muplar_buf_be32 realloc_ok b (muplar_adler32 raw)) (zlib_bytes raw).
Proof.
  unfold zlib_bytes. change [0x78; 0x01] with ([u8 0x78] ++ [u8 0x01]). rewrite <- app_assoc.
  do 2 (apply (writes_seq (λ b, muplar_buf_u8 realloc_ok b _)); [apply writes_u8|]).
  apply (writes_seq (stored_blocks realloc_ok (length raw) raw)); [by apply writes_blocks|apply writes_be32].
Qed.

Lemma writes_png w h idat :
  writes (λ b, b ← append b png_sig; b ← muplar_png_chunk realloc_ok b (cs "IHDR") (ihdr w h);
               b ← muplar_png_chunk realloc_ok b (cs "IDAT") idat;
               muplar_png_chunk realloc_ok b (cs "IEND") [])
    (png_sig ++ chunk (cs "IHDR") (ihdr w h) ++ chunk (cs "IDAT") idat ++ chunk (cs "IEND") []).
Proof.
  apply (writes_seq (λ b, append b png_sig)); [apply writes_append|].
  do 2 (apply (writes_seq (λ b, muplar_png_chunk realloc_ok b _ _));
    [apply writes_chunk; repeat constructor; unfold in_u8; simpl; lia|]).
  apply writes_chunk. repeat constructor; unfold in_u8; simpl; lia.
Qed.

Lemma length_zlib raw : Z.of_nat (length (zlib_bytes raw)) <= 6 * Z.of_nat (length raw) + 6.
Proof.
  unfold zlib_bytes. rewrite !length_app. pose proof (length_blocks (length raw) raw (le_n _)).
  simpl length. lia.
Qed.

(** Without allocation failures the encoder writes [png_bytes]. *)
Lemma to_png_bytes bm n :
  bitmap_ok bm → (3 * bm_width bm + 1) * bm_height bm <= 536870912 →
  (∀ n sz, realloc_ok n sz = true) →
  ∃ out n', muplar_bitmap_to_png realloc_ok bm bb_empty n = Done (true, out) n' ∧
    bb_data out = png_bytes bm.
Proof.
  intros Hb Hsz Hr. pose proof Hb as (Hw & Hh & px & Hp & Hl).
  pose proof (length_rows bm Hb) as Hrl. set (raw := concat (row_bytes <$> png_rows bm)) in *.
  assert (bb_inv bb_empty) as Hi by (unfold bb_inv, bb_len, SIZE_MAX; simpl; lia).
  unfold muplar_bitmap_to_png. rewrite Hp.
  rewrite (proj2 (Z.leb_gt _ _)), (proj2 (Z.leb_gt _ _)) by lia. cbn [orb]. cbv zeta.
  assert (u64 (u64 (bm_width bm * 3 + 1) * bm_height bm) = (3 * bm_width bm + 1) * bm_height bm) as ->.
  { rewrite (u64_small (bm_width bm * 3 + 1)) by (unfold in_u64; nia).
    rewrite u64_small; [lia|unfold in_u64; nia]. }
  assert (∀ k, no_failure k) as Hnf by (intros k j sz _; apply Hr).
  destruct (reserve_run bb_empty ((3 * bm_width bm + 1) * bm_height bm) n (Hr n) Hi eq_refl)
    as (b0 & n0 & E0 & _ & Hi0 & Hok0 & D0); [nia|unfold bb_len, SIZE_MAX; simpl; lia|].
  rewrite (bind_step _ _ _ _ _ E0). cbn [negb].
  destruct (writes_rows bm Hb b0 n0 (or_introl (Hnf _)) Hi0 Hok0) as (b1 & n1 & E1 & _ & Hi1 & Hok1 & D1 & _).
  { unfold bb_len. rewrite D0. fold raw. cbn [length bb_data bb_empty]. unfold SIZE_MAX. lia. }
  rewrite (bind_step _ _ _ _ _ E1). rewrite D0 in D1. cbn [app bb_data bb_empty] in D1. fold raw in D1.
  rewrite D1. pose proof (length_zlib raw) as Hz.
  destruct (writes_zlib raw bb_empty n1 (or_introl (Hnf _)) Hi eq_refl) as (b2 & n2 & E2 & _ & _ & _ & D2 & _).
  { unfold bb_len, SIZE_MAX. cbn [length bb_data bb_empty]. lia. }
  cbn [app bb_data bb_empty] in D2.
  destruct (writes_png (bm_width bm) (bm_height bm) (zlib_bytes raw) bb_empty n2 (or_introl (Hnf _)) Hi eq_refl)
    as (b3 & n3 & E3 & _ & _ & Hok3 & D3 & _).
  { unfold bb_len, SIZE_MAX. cbn [length bb_data bb_empty]. unfold chunk.
    rewrite !length_app. cbn [length be32 png_sig ihdr app cs]. lia. }
  cbn [app bb_data bb_empty] in D3. exists b3, n3. split; [|exact D3].
  apply bind_Done in E2 as (x1 & s1 & E21 & E2). rewrite (bind_step _ _ _ _ _ E21).
  apply bind_Done in E2 as (x2 & s2 & E22 & E2). rewrite (bind_step _ _ _ _ _ E22).
  apply bind_Done in E2 as (x3 & s3 & E23 & E2). rewrite (bind_step _ _ _ _ _ E23).
  rewrite (bind_step _ _ _ _ _ E2), D2.
  apply bind_Done in E3 as (y1 & t1 & E31 & E3). rewrite (bind_step _ _ _ _ _ E31).
  apply bind_Done in E3 as (y2 & t2 & E32 & E3). rewrite (bind_step _ _ _ _ _ E32).
  apply bind_Done in E3 as (y3 & t3 & E33 & E3). rewrite (bind_step _ _ _ _ _ E33).
  rewrite (bind_step _ _ _ _ _ E3). by rewrite Hok3.
Qed.
End BufferProofs.

(** ** A decoder *)

Definition read_be32 (l : list Z) : option (Z * list Z) :=
  match l with
  | a :: b :: c :: d :: l => Some (((a * 256 + b) * 256 + c) * 256 + d, l)
  | _ => None
  end.
Definition take_exact (n : Z) (l : list Z) : option (list Z * list Z) :=
  if n <=? Z.of_nat (length l) then Some (take (Z.to_nat n) l, drop (Z.to_nat n) l) else None.

(** A chunk: its type, its data and what follows; the checksum must match. *)
Definition read_chunk (l : list Z) : option (list Z * list Z * list Z) :=
  '(len, l) ← read_be32 l;
  '(ty, l) ← take_exact 4 l;
  '(data, l) ← take_exact len l;
  '(crc, l) ← read_be32 l;
  if crc =? crc32_ref (ty ++ data) then Some (ty, data, l) else None.

(** Stored deflate blocks, up to the final one. *)
Fixpoint inflate (fuel : nat) (l acc : list Z) : option (list Z * list Z) :=
  match fuel with
  | O => None
  | S fuel =>
      match l with
      | final :: a :: b :: c :: d :: l =>
          if ((final =? 0) || (final =? 1)) && (a + 256 * b + (c + 256 * d) =? 65535) then
            '(block, l) ← take_exact (a + 256 * b) l;
            if final =? 1 then Some (acc ++ block, l) else inflate fuel l (acc ++ block)
          else None
      | _ => None
      end
  end.

Definition zlib_decode (l : list Z) : option (list Z) :=
  match l with
  | cmf :: flg :: l =>
      if (cmf =? 0x78) && ((cmf * 256 + flg) mod 31 =? 0) then
        '(raw, l) ← inflate (length l) l [];
        '(adler, l) ← read_be32 l;
        if (adler =? adler32_ref raw) && bool_decide (l = []) then Some raw else None
      else None
  | _ => None
  end.

Fixpoint read_pixels (n : nat) (l : list Z) : option (list (Z * Z * Z) * list Z) :=
  match n with
  | O => Some ([], l)
  | S n =>
      match l with
      | r :: g :: b :: l => '(ps, l) ← read_pixels n l; Some ((r, g, b) :: ps, l)
      | _ => None
      end
  end.
Fixpoint read_rows (h w : nat) (l : list Z) : option (list (list (Z * Z * Z))) :=
  match h with
  | O => if bool_decide (l = []) then Some [] else None
  | S h =>
      match l with
      | 0 :: l => '(row, l) ← read_pixels w l; rows ← read_rows h w l; Some (row :: rows)
      | _ => None
      end
  end.

(** The width, the height and the rows of a true-colour PNG file. *)
Definition png_decode (l : list Z) : option (Z * Z * list (list (Z * Z * Z))) :=
  '(sig, l) ← take_exact 8 l;
  if negb (bool_decide (sig = png_sig)) then None else
  '(ty, hd, l) ← read_chunk l;
  if negb (bool_decide (ty = cs "IHDR")) then None else
  '(w, hd) ← read_be32 hd;
  '(h, hd) ← read_be32 hd;
  if negb (bool_decide (hd = [8; 2; 0; 0; 0])) then None else
  '(ty, data, l) ← read_chunk l;
  if negb (bool_decide (ty = cs "IDAT")) then None else
  raw ← zlib_decode data;
  rows ← read_rows (Z.to_nat h) (Z.to_nat w) raw;
  '(ty, data, l) ← read_chunk l;
  if bool_decide (ty = cs "IEND" ∧ data = [] ∧ l = []) then Some (w, h, rows) else None.

Lemma read_be32_spec v l : in_u32 v → read_be32 (be32 v ++ l) = Some (v, l).
Proof.
  intros Hv. cbn [be32 app read_be32]. do 2 f_equal. rewrite !Z.shiftr_div_pow2 by lia.
  change (2 ^ 24) with 16777216. change (2 ^ 16) with 65536. change (2 ^ 8) with 256. words. zdm.
Qed.

Lemma take_exact_app a l n : n = Z.of_nat (length a) → take_exact n (a ++ l) = Some (a, l).
Proof.
  intros ->. unfold take_exact. rewrite length_app, (proj2 (Z.leb_le _ _)) by lia.
  rewrite Nat2Z.id, take_app_length, drop_app_length. done.
Qed.

Lemma read_chunk_spec ty data l :
  length ty = 4%nat → bytes ty → bytes data → Z.of_nat (length data) < 4294967296 →
  read_chunk (chunk ty data ++ l) = Some (ty, data, l).
Proof.
  intros Hlt Ht Hd Hl. unfold read_chunk, chunk. rewrite <- !app_assoc.
  rewrite u32_small by (unfold in_u32; lia). rewrite read_be32_spec by (unfold in_u32; lia). obind.
  rewrite take_exact_app by lia. obind. rewrite take_exact_app by lia. obind.
  assert (bytes (ty ++ data)) as Hb by (by apply Forall_app_2).
  rewrite read_be32_spec.
  - obind. by rewrite crc32_is_ref, Z.eqb_refl.
  - rewrite crc32_is_ref by done. rewrite <- crc32_is_ref by done. apply u32_range.
Qed.

Lemma block_header n : 0 <= n <= 65535 →
  u8 n + 256 * u8 (Z.shiftr n 8) = n ∧
  u8 n + 256 * u8 (Z.shiftr n 8) + (u8 (Z.lnot n) + 256 * u8 (Z.shiftr (Z.lnot n) 8)) = 65535.
Proof.
  intros Hn. rewrite !Z.shiftr_div_pow2 by lia. change (2 ^ 8) with 256. unfold Z.lnot. words. zdm.
Qed.

Lemma inflate_blocks fuel fuel' raw acc l :
  raw ≠ [] → (length raw <= fuel)%nat → (length raw <= fuel')%nat →
  inflate fuel' (blocks fuel raw ++ l) acc = Some (acc ++ raw, l).
Proof.
  revert fuel' raw acc. induction fuel as [|fuel IH]; intros fuel' raw acc Hne Hf Hf'.
  { destruct raw; [done|simpl in Hf; lia]. }
  destruct raw as [|x raw]; [done|]. cbn [blocks].
  set (r := x :: raw) in *. assert (0 < length r)%nat as Hpos by (simpl; lia). clearbody r.
  set (n := Z.min 65535 (Z.of_nat (length r))). destruct (block_header n ltac:(lia)) as [E1 E2].
  destruct fuel' as [|fuel']; [lia|]. rewrite <- app_assoc. cbn [app inflate]. rewrite E2, E1.
  rewrite <- app_assoc, take_exact_app by (rewrite length_take; lia).
  destruct (Z.leb_spec (Z.of_nat (length r)) 65535) as [Hle|Hgt].
  - cbn. assert (Z.to_nat n = length r) as -> by lia.
    rewrite firstn_all, drop_all. by destruct fuel.
  - cbn. rewrite IH.
    + by rewrite <- app_assoc, take_drop.
    + intros Hnil. apply (f_equal length) in Hnil. rewrite length_drop in Hnil. simpl in Hnil. lia.
    + rewrite length_drop. lia.
    + rewrite length_drop. lia.
Qed.

Lemma blocks_ge fuel raw : (length raw <= fuel)%nat → (length raw <= length (blocks fuel raw))%nat.
Proof.
  revert raw. induction fuel as [|fuel IH]; intros raw Hf.
  { destruct raw; [simpl; lia|simpl in Hf; lia]. }
  destruct raw as [|x raw]; [simpl; lia|]. cbn [blocks]. set (l := x :: raw) in *.
  assert (0 < length l)%nat by (simpl; lia). clearbody l.
  rewrite length_app, length_app, length_take. cbn [length].
  pose proof (IH (drop (Z.to_nat (Z.min 65535 (Z.of_nat (length l)))) l)) as Hr.
  rewrite length_drop in Hr. lia.
Qed.

Lemma zlib_decode_spec raw : raw ≠ [] → zlib_decode (zlib_bytes raw) = Some raw.
Proof.
  intros Hne. unfold zlib_decode, zlib_bytes. cbn [app].
  replace ((0x78 =? 0x78) && ((0x78 * 256 + 1) mod 31 =? 0)) with true by reflexivity.
  rewrite inflate_blocks; [|done|done|].
  - obind. rewrite <- (app_nil_r (be32 _)), read_be32_spec.
    + obind. rewrite adler32_sums, Z.eqb_refl. done.
    + rewrite adler32_sums. unfold adler32_ref, in_u32.
      pose proof (Z.mod_pos_bound (1 + byte_sum raw) 65521 ltac:(lia)).
      pose proof (Z.mod_pos_bound (Z.of_nat (length raw) + weighted_sum raw) 65521 ltac:(lia)). lia.
  - rewrite length_app. pose proof (blocks_ge (length raw) raw (le_n _)). lia.
Qed.

Lemma read_pixels_spec ps l :
  read_pixels (length ps) (concat (rgb_bytes <$> ps) ++ l) = Some (ps, l).
Proof.
  induction ps as [|[[r g] b] ps IH]; [done|]. cbn [fmap list_fmap concat length read_pixels].
  unfold rgb_bytes at 1. cbn [fst snd app]. by rewrite IH.
Qed.

Lemma read_rows_spec w rows :
  Forall (λ row, length row = w) rows →
  read_rows (length rows) w (concat (row_bytes <$> rows)) = Some rows.
Proof.
  induction 1 as [|row rows Hr _ IH]; [done|]. rewrite fmap_cons. cbn [concat length read_rows].
  unfold row_bytes at 1. cbn [app]. rewrite <- Hr at 1. rewrite read_pixels_spec. obind. by rewrite IH.
Qed.

Lemma be32_bytes v : bytes (be32 v).
Proof. repeat constructor; apply u8_range. Qed.

Lemma blocks_bytes fuel raw : bytes raw → bytes (blocks fuel raw).
Proof.
  revert raw. induction fuel as [|fuel IH]; intros raw Hb; destruct raw as [|x raw]; try constructor.
  - case_match; unfold in_u8; lia.
  - do 4 (apply Forall_cons; split; [apply u8_range|]). apply Forall_app_2.
    + by apply Forall_take.
    + apply IH. by apply Forall_drop.
Qed.

Lemma rows_bytes rows :
  Forall (Forall (λ p, in_u8 p.1.1 ∧ in_u8 p.1.2 ∧ in_u8 p.2)) rows → bytes (concat (row_bytes <$> rows)).
Proof.
  intros Hr. apply Forall_concat, Forall_fmap. eapply Forall_impl; [exact Hr|].
  intros row Hrow. unfold compose, row_bytes. constructor; [unfold in_u8; lia|].
  apply Forall_concat, Forall_fmap. eapply Forall_impl; [exact Hrow|]. intros p (H1 & H2 & H3).
  constructor; [exact H1|constructor; [exact H2|constructor; [exact H3|constructor]]].
Qed.

Lemma png_rows_rgb bm :
  Forall (Forall (λ p, in_u8 p.1.1 ∧ in_u8 p.1.2 ∧ in_u8 p.2)) (png_rows bm).
Proof.
  unfold png_rows. apply Forall_fmap, Forall_true. intros y. unfold compose.
  apply Forall_fmap, Forall_true. intros x. unfold compose, rgb. cbn. split_and!; apply u8_range.
Qed.

Lemma png_rows_shape bm :
  Z.of_nat (length (png_rows bm)) = Z.max 0 (bm_height bm) ∧
  Forall (λ row, length row = Z.to_nat (bm_width bm)) (png_rows bm).
Proof.
  unfold png_rows. split; [rewrite length_fmap, length_seqZ; lia|].
  apply Forall_fmap, Forall_true. intros y. unfold compose. by rewrite length_fmap, length_seqZ.
Qed.

Lemma png_decode_bytes bm :
  bitmap_ok bm → (3 * bm_width bm + 1) * bm_height bm <= 536870912 →
  png_decode (png_bytes bm) = Some (bm_width bm, bm_height bm, png_rows bm).
Proof.
  intros Hb Hsz. pose proof Hb as (Hw & Hh & _). pose proof (length_rows bm Hb) as Hl.
  destruct (png_rows_shape bm) as [Hn Hrow].
  pose proof (rows_bytes _ (png_rows_rgb bm)) as Hbytes.
  pose proof (read_rows_spec _ _ Hrow) as Hread.
  assert (length (png_rows bm) = Z.to_nat (bm_height bm)) as Hlen by lia. rewrite Hlen in Hread.
  unfold png_decode, png_bytes. set (raw := concat (row_bytes <$> png_rows bm)) in *.
  assert (raw ≠ []) as Hne by (intros Hnil; rewrite Hnil in Hl; simpl in Hl; nia).
  pose proof (length_zlib raw) as Hz. pose proof (zlib_decode_spec raw Hne) as Hzd.
  assert (bytes (zlib_bytes raw)) as Hzb.
  { unfold zlib_bytes. apply Forall_app_2; [repeat constructor; unfold in_u8; lia|].
    apply Forall_app_2; [by apply blocks_bytes|apply be32_bytes]. }
  generalize dependent (zlib_bytes raw). intros z Hz Hzd Hzb.
  rewrite take_exact_app by reflexivity. obind. rewrite bool_decide_eq_true_2 by reflexivity. obind.
  rewrite read_chunk_spec;
    [|reflexivity|repeat constructor; unfold in_u8; simpl; lia| |cbn; lia].
  2: { repeat (apply Forall_app_2; [apply be32_bytes|]). repeat constructor; unfold in_u8; lia. }
  obind. rewrite bool_decide_eq_true_2 by reflexivity. obind. unfold ihdr.
  rewrite read_be32_spec by (unfold in_u32; nia). obind. rewrite read_be32_spec by (unfold in_u32; nia).
  obind. rewrite bool_decide_eq_true_2 by reflexivity. obind.
  rewrite read_chunk_spec;
    [|reflexivity|repeat constructor; unfold in_u8; simpl; lia|exact Hzb|lia].
  obind. rewrite bool_decide_eq_true_2 by reflexivity. obind. rewrite Hzd. obind. rewrite Hread. obind.
  rewrite <- (app_nil_r (chunk _ _)), read_chunk_spec;
    [|reflexivity|repeat constructor; unfold in_u8; simpl; lia|constructor|cbn; lia].
  obind. by rewrite bool_decide_eq_true_2.
Qed.


(** ** An allocation failure that is not reported *)
Section Failure.
Variable realloc_ok : nat → Z → bool.

(** A failed buffer is left as it is. *)
Definition keeps (m : byte_buffer → H byte_buffer) : Prop :=
  ∀ b n, bb_ok b = false → m b n = Done b n.

Lemma keeps_append d : keeps (λ b, muplar_buf_append realloc_ok b d).
Proof. intros b n Hb. unfold muplar_buf_append, muplar_buf_reserve. by rewrite Hb. Qed.

Lemma keeps_seq m1 m2 : keeps m1 → keeps m2 → keeps (λ b, b ← m1 b; m2 b).
Proof. intros H1 H2 b n Hb. rewrite (bind_step _ _ _ _ _ (H1 b n Hb)). by apply H2. Qed.

Lemma keeps_blocks fuel raw : (length raw <= fuel)%nat → keeps (stored_blocks realloc_ok fuel raw).
Proof.
  revert raw. induction fuel as [|fuel IH]; intros raw Hf.
  { destruct raw; [by intros b n _|simpl in Hf; lia]. }
  destruct raw as [|x raw]; [by intros b n _|].
  cbn [stored_blocks]. rewrite (proj2 (Z.eqb_neq _ _)) by (simpl length; lia).
  set (l := x :: raw) in *. cbv zeta.
  do 5 (apply (keeps_seq (λ b, muplar_buf_u8 realloc_ok b _)); [apply keeps_append|]).
  apply (keeps_seq (λ b, muplar_buf_append realloc_ok b _)); [apply keeps_append|].
  apply IH. rewrite length_drop. unfold l in *. cbn [length] in *.
  destruct (Z.ltb_spec 65535 (Z.of_nat (S (length raw)))); [lia|].
  rewrite u16_small by (unfold in_u16; lia). lia.
Qed.

Lemma keeps_zlib raw :
  keeps (λ b, b ← muplar_buf_u8 realloc_ok b 0x01; b ← stored_blocks realloc_ok (length raw) raw b;
              muplar_buf_be32 realloc_ok b (muplar_adler32 raw)).
Proof.
  apply (keeps_seq (λ b, muplar_buf_u8 realloc_ok b _)); [apply keeps_append|].
  apply (keeps_seq (stored_blocks realloc_ok (length raw) raw)); [by apply keeps_blocks|apply keeps_append].
Qed.

(** The first allocation of an empty buffer. *)
Lemma reserve_first extra n :
  0 < extra <= SIZE_MAX → ∃ c, extra <= c <= SIZE_MAX ∧
  muplar_buf_reserve realloc_ok bb_empty extra n =
  if realloc_ok n c then Done ({| bb_data := []; bb_cap := c; bb_ok := true |}, true) (S n)
  else Done ({| bb_data := []; bb_cap := 0; bb_ok := false |}, false) (S n).
Proof.
  intros He. destruct (start_cap 0 extra) as (c & E & Hc); [unfold SIZE_MAX; lia|lia|].
  exists c. split; [exact Hc|]. unfold muplar_buf_reserve, bb_empty, bb_len in *.
  cbn [bb_ok negb bb_data length bb_cap Z.of_nat]. rewrite Z.add_0_l, Z.sub_0_r.
  rewrite (proj2 (Z.ltb_ge _ _)), (proj2 (Z.leb_gt _ _)), E by lia.
  unfold get, put, mbind, M_bind. by destruct (realloc_ok n c).
Qed.

(** The file without its image data. *)
Definition png_no_data (bm : bitmap) : list Z :=
  png_sig ++ chunk (cs "IHDR") (ihdr (bm_width bm) (bm_height bm)) ++
  chunk (cs "IDAT") [] ++ chunk (cs "IEND") [].

Lemma png_no_data_decode bm :
  bitmap_ok bm → (3 * bm_width bm + 1) * bm_height bm <= 536870912 →
  png_decode (png_no_data bm) = None.
Proof.
  intros (Hw & Hh & _) Hsz. unfold png_decode, png_no_data.
  rewrite take_exact_app by reflexivity. obind. rewrite bool_decide_eq_true_2 by reflexivity. obind.
  rewrite read_chunk_spec;
    [|reflexivity|repeat constructor; unfold in_u8; simpl; lia| |cbn; lia].
  2: { repeat (apply Forall_app_2; [apply be32_bytes|]). repeat constructor; unfold in_u8; lia. }
  obind. rewrite bool_decide_eq_true_2 by reflexivity. obind. unfold ihdr.
  rewrite read_be32_spec by (unfold in_u32; nia). obind. rewrite read_be32_spec by (unfold in_u32; nia).
  obind. rewrite bool_decide_eq_true_2 by reflexivity. obind.
  rewrite read_chunk_spec;
    [|reflexivity|repeat constructor; unfold in_u8; simpl; lia|constructor|cbn; lia].
  obind. by rewrite bool_decide_eq_true_2.
Qed.

(** When the second allocation of the encoder fails, the one for the image
    data, and those after it succeed, [muplar_bitmap_to_png] still reports
    success: only the flag of the output buffer is returned.  The file it wrote
    has an empty image chunk and does not decode. *)
Theorem png_hides_failure bm n :
  bitmap_ok bm → (3 * bm_width bm + 1) * bm_height bm <= 536870912 →
  (∀ sz, realloc_ok n sz = true) → (∀ sz, realloc_ok (S n) sz = false) →
  no_failure realloc_ok (S (S n)) →
  ∃ out n', muplar_bitmap_to_png realloc_ok bm bb_empty n = Done (true, out) n' ∧
    bb_data out = png_no_data bm ∧ png_decode (bb_data out) = None.
Proof.
  intros Hb Hsz H0 H1 H2. pose proof Hb as (Hw & Hh & px & Hp & _).
  pose proof (length_rows bm Hb) as Hrl. set (raw := concat (row_bytes <$> png_rows bm)) in *.
  unfold muplar_bitmap_to_png. rewrite Hp.
  rewrite (proj2 (Z.leb_gt _ _)), (proj2 (Z.leb_gt _ _)) by lia. cbn [orb]. cbv zeta.
  assert (u64 (u64 (bm_width bm * 3 + 1) * bm_height bm) = (3 * bm_width bm + 1) * bm_height bm) as ->.
  { rewrite (u64_small (bm_width bm * 3 + 1)) by (unfold in_u64; nia).
    rewrite u64_small; [lia|unfold in_u64; nia]. }
  destruct (reserve_first ((3 * bm_width bm + 1) * bm_height bm) n) as (c & Hc & E0);
    [unfold SIZE_MAX; nia|].
  rewrite H0 in E0. rewrite (bind_step _ _ _ _ _ E0). cbn [negb].
  destruct (writes_rows realloc_ok bm Hb {| bb_data := []; bb_cap := c; bb_ok := true |} (S n))
    as (b1 & n1 & E1 & _ & _ & _ & D1 & F1).
  { right. unfold fits, bb_len. fold raw. cbn. lia. }
  { unfold bb_inv, bb_len. cbn. lia. }
  { reflexivity. }
  { unfold bb_len. fold raw. cbn [length bb_data]. unfold SIZE_MAX. lia. }
  destruct F1 as [-> _]; [unfold fits, bb_len; fold raw; cbn; lia|].
  rewrite (bind_step _ _ _ _ _ E1). cbn [app bb_data] in D1. fold raw in D1. rewrite D1.
  destruct (reserve_first 1 (S n)) as (c2 & _ & E2); [unfold SIZE_MAX; lia|]. rewrite H1 in E2.
  assert (muplar_buf_u8 realloc_ok bb_empty 0x78 (S n) =
          Done {| bb_data := []; bb_cap := 0; bb_ok := false |} (S (S n))) as E3.
  { unfold muplar_buf_u8, muplar_buf_append. cbn [length Z.of_nat Pos.of_succ_nat].
    rewrite (bind_step _ _ _ _ _ E2). reflexivity. }
  rewrite (bind_step _ _ _ _ _ E3).
  pose proof (keeps_zlib raw {| bb_data := []; bb_cap := 0; bb_ok := false |} (S (S n)) eq_refl) as E4.
  apply bind_Done in E4 as (x1 & s1 & E41 & E4). rewrite (bind_step _ _ _ _ _ E41).
  apply bind_Done in E4 as (x2 & s2 & E42 & E4). rewrite (bind_step _ _ _ _ _ E42).
  rewrite (bind_step _ _ _ _ _ E4). cbn [bb_data].
  destruct (writes_png realloc_ok (bm_width bm) (bm_height bm) [] bb_empty (S (S n)))
    as (b3 & n3 & E5 & _ & _ & Hok3 & D3 & _).
  { by left. }
  { unfold bb_inv, bb_len, SIZE_MAX. simpl. lia. }
  { reflexivity. }
  { unfold bb_len, SIZE_MAX. vm_compute. discriminate. }
  cbn [app bb_data bb_empty] in D3. exists b3, n3.
  split; [|rewrite D3; split; [reflexivity|by apply png_no_data_decode]].
  apply bind_Done in E5 as (y1 & t1 & E51 & E5). rewrite (bind_step _ _ _ _ _ E51).
  apply bind_Done in E5 as (y2 & t2 & E52 & E5). rewrite (bind_step _ _ _ _ _ E52).
  apply bind_Done in E5 as (y3 & t3 & E53 & E5). rewrite (bind_step _ _ _ _ _ E53).
  rewrite (bind_step _ _ _ _ _ E5). by rewrite Hok3.
Qed.
End Failure.

(** A bitmap of two rows. *)
Definition demo_bitmap : bitmap :=
  {| bm_width := 2; bm_height := 2; bm_pixels := Some [0xff102030; 0xff405060; 0xff708090; 0xffa0b0c0] |}.
Lemma demo_bitmap_ok : bitmap_ok demo_bitmap.
Proof. split_and!; [reflexivity..|]. eexists. split; reflexivity. Qed.

(** Witness of [buf_reserve_spec]: a full buffer of four bytes. *)
Lemma buf_reserve_spec_witness :
  let b := {| bb_data := [1; 2; 3; 4]; bb_cap := 4; bb_ok := true |} in
  ∃ b' r n', muplar_buf_reserve (λ _ _, true) b 5 0%nat = Done (b', r) n' ∧ bb_inv b' ∧
    bb_data b' = bb_data b ∧
    (if r then bb_len b + 5 <= bb_cap b' ∧ bb_ok b' = true else bb_ok b' = false).
Proof.
  intros b. apply (buf_reserve_spec (λ _ _, true) b 5 0%nat);
    unfold bb_inv, bb_len, SIZE_MAX; simpl; lia.
Defined.


(** Witness of [png_hides_failure] *)
Lemma png_hides_failure_witness :
  ∃ out n', muplar_bitmap_to_png (λ k _, negb (Nat.eqb k 1)) demo_bitmap bb_empty 0%nat =
      Done (true, out) n' ∧
    bb_data out = png_no_data demo_bitmap ∧ png_decode (bb_data out) = None.
Proof.
  apply (png_hides_failure (λ k _, negb (Nat.eqb k 1)) demo_bitmap 0%nat demo_bitmap_ok).
  - simpl; lia.
  - reflexivity.
  - reflexivity.
  - intros k sz Hk. destruct k as [|[|k]]; [lia|lia|reflexivity].
Defined.
