(* ===== verification/ShimProps.v ===== *)
(** * System properties of the Android shim

    platform/android-aarch64/art-shim/muplar_android_art_shim.c:1262-1610: the
    table of properties, the C entry points that read it, the parsers of their
    values and the natives of android.os.SystemProperties with their handle
    table.  The JNI string functions are parameters. *)

From S2P Require Import Prelude Decimal Machine.



(** A C string equal to a literal, or one of several. *)
Definition key_is (key : list Z) (s : string) : bool := bool_decide (key = cs s).
Definition has_prefix (p : string) (key : list Z) : bool :=
  bool_decide (take (length (cs p)) key = cs p).

(** platform/android-aarch64/art-shim/muplar_android_art_shim.c:1303-1415 (muplar_property)
    The keys and their value, in the order of the comparisons. *)
Definition property_table : list (list string * string) :=
  [ (["servicemanager.ready"; "servicemanager.installed"; "hwservicemanager.ready";
      "vndservicemanager.ready"], "1");
    (["init.svc.servicemanager"; "init.svc.hwservicemanager"; "init.svc.vndservicemanager"],
      "running");
    (["ro.arch"], "arm64");
    (["ro.product.cpu.abi"], "arm64-v8a");
    (["ro.product.cpu.abilist"; "ro.product.cpu.abilist64"], "arm64-v8a");
    (["ro.product.cpu.abilist32"], "");
    (["ro.build.version.sdk"; "ro.build.version.sdk_full"], "35");
    (["ro.build.version.preview_sdk"], "0");
    (["ro.build.version.codename"; "ro.build.version.release_or_codename"], "REL");
    (["ro.build.version.all_codenames"; "ro.build.version.known_codenames"], "REL");
    (["ro.build.version.min_supported_target_sdk"], "23");
    (["ro.build.version.release"; "ro.build.version.release_or_preview_display"], "15");
    (["ro.build.version.incremental"], "muplar");
    (["ro.build.version.security_patch"], "2026-07-01");
    (["ro.build.type"], "userdebug");
    (["ro.build.tags"], "test-keys");
    (["ro.build.id"], "MUPLAR");
    (["ro.build.fingerprint"], "muplar/android_arm64/muplar:15/MUPLAR/1:userdebug/test-keys");
    (["ro.product.brand"; "ro.product.vendor.brand"; "ro.product.brand_for_attestation"], "Muplar");
    (["ro.product.manufacturer"; "ro.product.vendor.manufacturer";
      "ro.product.manufacturer_for_attestation"], "Muplar");
    (["ro.product.name"; "ro.product.vendor.name"; "ro.product.name_for_attestation"],
      "muplar_arm64");
    (["ro.product.device"; "ro.product.vendor.device"; "ro.product.device_for_attestation"],
      "muplar");
    (["ro.product.model"; "ro.product.vendor.model"; "ro.product.model_for_attestation"],
      "Muplar Android");
    (["ro.product.locale"; "persist.sys.locale"], "en-US");
    (["ro.product.locale.language"], "en");
    (["ro.product.locale.region"], "US");
    (["ro.debuggable"], "1");
    (["ro.treble.enabled"], "true");
    (["ro.config.low_ram"], "false");
    (["ro.property_service.version"], "2");
    (["ro.hardware"], "muplar");
    (["persist.sys.dalvik.vm.lib.2"], "libart.so");
    (["ro.dalvik.vm.native.bridge"], "0");
    (["dalvik.vm.isa.arm64.variant"; "dalvik.vm.isa.arm64.features"], "generic");
    (["dalvik.vm.allow_profile_code"], "false");
    (["persist.log.level"], "I") ]%string.

(** platform/android-aarch64/art-shim/muplar_android_art_shim.c:1298-1421 (muplar_property) *)
Definition muplar_property (key : option (list Z)) : option (list Z) :=
  match key with
  | None => None
  | Some k =>
      match find_idx (λ e, existsb (key_is k) e.1) property_table with
      | Some i => (λ e, cs e.2) <$> property_table !! i
      | None =>
          if has_prefix "log.tag." k || has_prefix "persist.log.tag" k then Some (cs "I") else None
      end
  end.

(** platform/android-aarch64/art-shim/muplar_android_art_shim.c:142 (PROP_VALUE_MAX) *)
Definition PROP_VALUE_MAX : Z := 92.

(** platform/android-aarch64/art-shim/muplar_android_art_shim.c:1423-1434 (muplar_copy_property)
    The bytes written to [value], none when it is null, and the result. *)
Definition muplar_copy_property (value : bool) (src : option (list Z)) : option (list Z) * Z :=
  let len := match src with Some s => Z.of_nat (length s) | None => 0 end in
  let cap := PROP_VALUE_MAX - 1 in
  let copy := if len <? cap then len else cap in
  (if value then Some (take (Z.to_nat copy) (default [] src) ++ [0]) else None, s32 len).

(** platform/android-aarch64/art-shim/muplar_android_art_shim.c:1436-1440 (property_get) *)
Definition property_get (key : option (list Z)) (value : bool) (default_value : option (list Z)) :=
  muplar_copy_property value
    (match muplar_property key with Some p => Some p | None => default_value end).
(** platform/android-aarch64/art-shim/muplar_android_art_shim.c:1442-1446 (__system_property_get) *)
Definition system_property_get (key : option (list Z)) (value : bool) :=
  muplar_copy_property value
    (match muplar_property key with Some p => Some p | None => Some [] end).

(** ** Opening a library by its name *)

(** platform/android-aarch64/art-shim/muplar_android_art_shim.c:1266-1273 (muplar_dlopen_android_library) *)
Definition library_dirs : list (list Z) :=
  cs <$> ["/system/lib64"; "/apex/com.android.art/lib64"; "/apex/com.android.runtime/lib64";
          "/apex/com.android.i18n/lib64"; "/apex/com.android.conscrypt/lib64"]%string.

(** platform/android-aarch64/art-shim/muplar_android_art_shim.c:1282-1293 (muplar_dlopen_android_library) *)
Fixpoint try_library_dirs (dlopen : list Z → Z) (lib : list Z) (dirs : list (list Z)) : Z :=
  match dirs with
  | [] => 0
  | d :: dirs =>
      if 512 <? Z.of_nat (length d) + 1 + Z.of_nat (length lib) + 1
      then try_library_dirs dlopen lib dirs
      else
        let handle := dlopen (d ++ cs "/" ++ lib) in
        if negb (handle =? 0) then handle else try_library_dirs dlopen lib dirs
  end.
(** platform/android-aarch64/art-shim/muplar_android_art_shim.c:1262-1296 (muplar_dlopen_android_library)
    [dlopen] gives a handle, 0 for a failure; the flags are passed through. *)
Definition muplar_dlopen_android_library (dlopen : list Z → Z) (libpath : option (list Z)) : Z :=
  match libpath with
  | None | Some [] => 0
  | Some lib =>
      let handle := dlopen lib in
      if negb (handle =? 0) || bool_decide (47 ∈ lib) then handle
      else try_library_dirs dlopen lib library_dirs
  end.

(** ** The parsers *)

(** platform/android-aarch64/art-shim/muplar_android_art_shim.c:1470-1478 (muplar_parse_int) *)
Definition muplar_parse_int (value : option (list Z)) (fallback : Z) : Z :=
  match value with
  | None | Some [] => fallback
  | Some v => let '(parsed, end_) := strtol v in
              if bool_decide (end_ = []) then s32 parsed else fallback
  end.
(** platform/android-aarch64/art-shim/muplar_android_art_shim.c:1480-1488 (muplar_parse_long) *)
Definition muplar_parse_long (value : option (list Z)) (fallback : Z) : Z :=
  match value with
  | None | Some [] => fallback
  | Some v => let '(parsed, end_) := strtol v in
              if bool_decide (end_ = []) then parsed else fallback
  end.
(** platform/android-aarch64/art-shim/muplar_android_art_shim.c:1490-1503 (muplar_parse_boolean) *)
Definition muplar_parse_boolean (value : option (list Z)) (fallback : Z) : Z :=
  match value with
  | None | Some [] => fallback
  | Some v =>
      if existsb (key_is v) ["1"; "true"; "y"; "yes"; "on"]%string then 1
      else if existsb (key_is v) ["0"; "false"; "n"; "no"; "off"]%string then 0
      else fallback
  end.

(** ** The natives of SystemProperties *)

(** The handle table, each slot the string before its NUL, and the number of
    strings borrowed from the runtime and not given back. *)
Record props_state := { ps_handles : list (list Z); ps_borrowed : Z }.

(** platform/android-aarch64/art-shim/muplar_android_art_shim.c:181 (muplar_property_handles) *)
Definition props_init : props_state := {| ps_handles := replicate 64 []; ps_borrowed := 0 |}.

Section Natives.
(** A reference to a Java string; the characters of one, none when the
    runtime is out of memory; the string made of characters. *)
Context {jstring : Type}.
Variable GetStringUTFChars : jstring → option (list Z).
Variable NewStringUTF : list Z → option jstring.

Abbreviation P := (M props_state).
Definition borrow (d : Z) : P () :=
  modify (λ s, {| ps_handles := ps_handles s; ps_borrowed := ps_borrowed s + d |}).

(** platform/android-aarch64/art-shim/muplar_android_art_shim.c:1448-1460 (muplar_jni_property)
    The value and the characters. *)
Definition muplar_jni_property (key : option jstring) : P (option (list Z) * option (list Z)) :=
  match key with
  | None => mret (None, None)
  | Some k =>
      let chars := GetStringUTFChars k in
      (match chars with Some _ => borrow 1 | None => mret () end) ≫= λ _, mret (muplar_property chars, chars)
  end.
(** platform/android-aarch64/art-shim/muplar_android_art_shim.c:1462-1468 (muplar_jni_release_string) *)
Definition muplar_jni_release_string (key : option jstring) (chars : option (list Z)) : P () :=
  match key, chars with Some _, Some _ => borrow (-1) | _, _ => mret () end.

(** platform/android-aarch64/art-shim/muplar_android_art_shim.c:1505-1518 (Java_android_os_SystemProperties_native_1get) *)
Definition SystemProperties_native_get (key def : option jstring) : P (option jstring) :=
  '(value, chars) ← muplar_jni_property key;
  match value, def with
  | None, Some d => mret (Some d)
  | _, _ =>
      let out := NewStringUTF (default [] value) in
      muplar_jni_release_string key chars ≫= λ _, mret out
  end.

(** platform/android-aarch64/art-shim/muplar_android_art_shim.c:1520-1526 (Java_android_os_SystemProperties_native_1get__Ljava_lang_String_2) *)
Definition SystemProperties_native_get1 (key : option jstring) : P (option jstring) :=
  SystemProperties_native_get key None.
(** platform/android-aarch64/art-shim/muplar_android_art_shim.c:1528-1536 (Java_android_os_SystemProperties_native_1get__Ljava_lang_String_2Ljava_lang_String_2) *)
Definition SystemProperties_native_get2 (key def : option jstring) : P (option jstring) :=
  SystemProperties_native_get key def.

(** Read a property and pass it to a parser. *)
Definition native_parse (parse : option (list Z) → Z → Z) (key : option jstring) (def : Z) : P Z :=
  '(value, chars) ← muplar_jni_property key;
  let out := parse value def in
  muplar_jni_release_string key chars ≫= λ _, mret out.

(** platform/android-aarch64/art-shim/muplar_android_art_shim.c:1538-1549 (Java_android_os_SystemProperties_native_1get_1int) *)
Definition SystemProperties_native_get_int := native_parse muplar_parse_int.
(** platform/android-aarch64/art-shim/muplar_android_art_shim.c:1551-1562 (Java_android_os_SystemProperties_native_1get_1long) *)
Definition SystemProperties_native_get_long := native_parse muplar_parse_long.
(** platform/android-aarch64/art-shim/muplar_android_art_shim.c:1564-1575 (Java_android_os_SystemProperties_native_1get_1boolean) *)
Definition SystemProperties_native_get_boolean := native_parse muplar_parse_boolean.

(** platform/android-aarch64/art-shim/muplar_android_art_shim.c:1586-1608 (Java_android_os_SystemProperties_native_1find)
    The handle of a key and the table after it. *)
Definition find_handle (hs : list (list Z)) (chars : list Z) : Z * list (list Z) :=
  match find_idx (λ h, negb (bool_decide (h = [])) && bool_decide (h = chars)) hs with
  | Some i => (Z.of_nat i + 1, hs)
  | None =>
      match find_idx (λ h, bool_decide (h = [])) hs with
      | Some i => (Z.of_nat i + 1, <[i := take 95 chars]> hs)
      | None => (0, hs)
      end
  end.
(** platform/android-aarch64/art-shim/muplar_android_art_shim.c:1577-1610 (Java_android_os_SystemProperties_native_1find) *)
Definition SystemProperties_native_find (key : option jstring) : P Z :=
  '(_, chars) ← muplar_jni_property key;
  match chars with
  | None => mret 0
  | Some c =>
      s ← get;
      let '(out, hs) := find_handle (ps_handles s) c in
      put {| ps_handles := hs; ps_borrowed := ps_borrowed s |} ≫= λ _,
      muplar_jni_release_string key chars ≫= λ _, mret out
  end.

(** The key of a valid handle. *)
Definition handle_key (s : props_state) (handle : Z) : option (list Z) :=
  if (0 <? handle) && (handle <=? 64) then ps_handles s !! Z.to_nat (handle - 1) else None.

(** platform/android-aarch64/art-shim/muplar_android_art_shim.c:1612-1624 (Java_android_os_SystemProperties_native_1get__J) *)
Definition SystemProperties_native_get_J (handle : Z) : P (option jstring) :=
  s ← get;
  mret (match handle_key s handle with
        | Some k => NewStringUTF (default [] (muplar_property (Some k)))
        | None => NewStringUTF []
        end).

(** Parse the property of a handle. *)
Definition handle_parse (parse : option (list Z) → Z → Z) (handle def : Z) : P Z :=
  s ← get;
  mret (match handle_key s handle with
        | Some k => parse (muplar_property (Some k)) def
        | None => def
        end).
(** platform/android-aarch64/art-shim/muplar_android_art_shim.c:1626-1639 (Java_android_os_SystemProperties_native_1get_1int__JI) *)
Definition SystemProperties_native_get_int_JI := handle_parse muplar_parse_int.
(** platform/android-aarch64/art-shim/muplar_android_art_shim.c:1641-1654 (Java_android_os_SystemProperties_native_1get_1long__JJ) *)
Definition SystemProperties_native_get_long_JJ := handle_parse muplar_parse_long.
(** platform/android-aarch64/art-shim/muplar_android_art_shim.c:1656-1669 (Java_android_os_SystemProperties_native_1get_1boolean__JZ) *)
Definition SystemProperties_native_get_boolean_JZ := handle_parse muplar_parse_boolean.
End Natives.

(** ** Values fit their buffer *)

Lemma property_fits key p :
  muplar_property key = Some p → (length p <= 91)%nat.
Proof.
  assert (Forall (λ e, (length (cs e.2) <= 91)%nat) property_table) as Ht
    by (repeat constructor; simpl; lia).
  unfold muplar_property. destruct key as [k|]; [|done].
  destruct (find_idx _ property_table) as [i|] eqn:E.
  - intros H. apply fmap_Some in H as (e & He & ->). exact (proj1 (Forall_lookup _ _) Ht _ _ He).
  - destruct (_ || _); [|done]. intros [= <-]. simpl. lia.
Qed.

(** A known property is written whole with its NUL into the [PROP_VALUE_MAX]
    bytes of the caller and its length returned.  For any other key the default
    is written, cut to 91 bytes, and the returned length is still the whole
    one. *)
Theorem property_get_spec key def :
  Z.of_nat (length (default [] def)) <= 2147483647 →
  let src := default (default [] def) (muplar_property key) in
  ∃ out, property_get key true def = (Some (out ++ [0]), Z.of_nat (length src)) ∧
    Z.of_nat (length (out ++ [0])) <= PROP_VALUE_MAX ∧ out `prefix_of` src ∧
    ((length src <= 91)%nat → out = src) ∧ (is_Some (muplar_property key) → out = src).
Proof.
  intros Hd src. exists (take 91 src).
  assert (∀ p, muplar_property key = Some p → (length src <= 91)%nat) as Hp.
  { intros p Hp. unfold src. rewrite Hp. simpl. by eapply property_fits. }
  assert (take (Z.to_nat (if Z.of_nat (length src) <? 91 then Z.of_nat (length src) else 91)) src
          = take 91 src) as Ht.
  { destruct (Z.ltb_spec (Z.of_nat (length src)) 91); [|done]. rewrite !take_ge by lia. done. }
  assert (s32 (Z.of_nat (length src)) = Z.of_nat (length src)) as Hs.
  { apply s32_small. unfold in_s32. unfold src. destruct (muplar_property key) as [p|] eqn:E; simpl; [|lia].
    specialize (Hp p eq_refl). unfold src in Hp. rewrite ?E in Hp. simpl in Hp. lia. }
  split_and!.
  - unfold property_get, muplar_copy_property, PROP_VALUE_MAX. change (92 - 1) with 91.
    rewrite <- Ht. transitivity
      (Some (take (Z.to_nat (if Z.of_nat (length src) <? 91 then Z.of_nat (length src) else 91)) src ++ [0]),
       s32 (Z.of_nat (length src))); [|by rewrite Hs].
    clear. subst src.
    destruct (muplar_property key) as [p|]; [reflexivity|]. destruct def; reflexivity.
  - rewrite length_app, length_take. unfold PROP_VALUE_MAX. cbn [length]. lia.
  - apply prefix_take.
  - intros H. by apply take_ge.
  - intros [p E]. apply take_ge. by apply (Hp p).
Qed.

(** Witness of [property_get_spec] *)
Lemma property_get_spec_witness :
  ∃ out, property_get (Some (cs "ro.arch")) true None = (Some (out ++ [0]), 5) ∧
    Z.of_nat (length (out ++ [0])) <= PROP_VALUE_MAX ∧ out `prefix_of` cs "arm64" ∧
    ((5 <= 91)%nat → out = cs "arm64") ∧
    (is_Some (muplar_property (Some (cs "ro.arch"))) → out = cs "arm64").
Proof. exact (property_get_spec (Some (cs "ro.arch")) None ltac:(simpl; lia)). Defined.

(** ** Numbers survive printing and parsing *)

(** A 64-bit number printed in decimal is parsed back by
    [muplar_parse_long], and by [muplar_parse_int] when it fits in 32 bits; a
    larger one wraps to its low 32 bits and the fallback is not used. *)
Theorem parse_decimal z fallback :
  in_s64 z →
  muplar_parse_long (Some (decimal z)) fallback = z ∧
  muplar_parse_int (Some (decimal z)) fallback = s32 z.
Proof.
  intros Hz. destruct (strtol_decimal z Hz) as [E Hne].
  unfold muplar_parse_long, muplar_parse_int. destruct (decimal z) as [|b l]; [done|]. rewrite E.
  split; reflexivity.
Qed.

(** Witness of [parse_decimal] *)
Lemma parse_decimal_witness :
  muplar_parse_long (Some (cs "-4294967303")) 5 = -4294967303 ∧
  muplar_parse_int (Some (cs "-4294967303")) 5 = -7.
Proof. exact (parse_decimal (-4294967303) 5 ltac:(unfold in_s64; lia)). Defined.

(** ** The handle table *)

(** The used slots are distinct strings that fit a slot. *)
Record handles_ok (hs : list (list Z)) : Prop := {
  ho_length : length hs = 64%nat;
  ho_unique : ∀ i j k, hs !! i = Some k → hs !! j = Some k → k ≠ [] → i = j;
  ho_fit : ∀ i k, hs !! i = Some k → (length k <= 95)%nat
}.

Lemma props_init_ok : handles_ok (ps_handles props_init).
Proof.
  split; [reflexivity| |].
  - intros i j k Hi _ Hk. apply lookup_replicate in Hi as [-> _]. done.
  - intros i k Hi. apply lookup_replicate in Hi as [-> _]. simpl. lia.
Qed.

(** The three outcomes of a search. *)
Inductive find_case (hs : list (list Z)) (chars : list Z) : Z → list (list Z) → Prop :=
| find_old i : hs !! i = Some chars → chars ≠ [] → find_case hs chars (Z.of_nat i + 1) hs
| find_new i : (chars = [] ∨ chars ∉ hs) → hs !! i = Some [] →
    (∀ j k, (j < i)%nat → hs !! j = Some k → k ≠ []) →
    find_case hs chars (Z.of_nat i + 1) (<[i := take 95 chars]> hs)
| find_full : (chars = [] ∨ chars ∉ hs) → [] ∉ hs → find_case hs chars 0 hs.

Lemma find_handle_case hs chars : find_case hs chars (find_handle hs chars).1 (find_handle hs chars).2.
Proof.
  unfold find_handle.
  destruct (find_idx _ hs) as [i|] eqn:E1; cbn [fst snd].
  { apply find_idx_Some in E1 as [(x & Hx & Ht) _]. apply andb_true_iff in Ht as [Hn He].
    apply bool_decide_eq_true in He as ->. apply negb_true_iff, bool_decide_eq_false in Hn.
    by apply find_old. }
  assert (chars = [] ∨ chars ∉ hs) as Hnot.
  { destruct (decide (chars = [])) as [->|Hc]; [by left|right]. intros Hin.
    pose proof (proj1 (find_idx_None _ _) E1 _ Hin) as Hf. cbn in Hf.
    by rewrite bool_decide_eq_false_2, bool_decide_eq_true_2 in Hf. }
  destruct (find_idx (λ h, bool_decide (h = [])) hs) as [i|] eqn:E2; cbn [fst snd].
  - apply find_idx_Some in E2 as [(x & Hx & Ht) Hlt]. apply bool_decide_eq_true in Ht as ->.
    apply find_new; [done|done|]. intros j k Hj Hk. specialize (Hlt j k Hj Hk).
    by apply bool_decide_eq_false in Hlt.
  - apply find_full; [done|]. intros Hin. pose proof (proj1 (find_idx_None _ _) E2 _ Hin) as Hf.
    by apply bool_decide_eq_false in Hf.
Qed.

Lemma find_case_fun hs chars h h' hs1 hs2 :
  handles_ok hs → find_case hs chars h hs1 → find_case hs chars h' hs2 → h = h' ∧ hs1 = hs2.
Proof.
  intros [_ Hu _] H1 H2.
  assert (∀ i, hs !! i = Some chars → chars ≠ [] → ¬ (chars = [] ∨ chars ∉ hs)) as Hex.
  { intros i Hi Hc [?|Hn]; [done|]. apply Hn. by eapply list_elem_of_lookup_2. }
  assert (∀ i : nat, hs !! i = Some [] → ¬ ([] ∉ hs)) as Hex2.
  { intros i Hi Hn. apply Hn. by eapply list_elem_of_lookup_2. }
  destruct H1 as [i Hi Hc|i Hn Hi Hlt|Hn Hf], H2 as [j Hj Hc'|j Hn' Hj Hlt'|Hn' Hf']; try done;
    try (by exfalso; eapply Hex; eauto); try (by exfalso; eapply Hex2; eauto).
  - by rewrite (Hu i j chars) by done.
  - assert (i = j) as -> by (destruct (lt_eq_lt_dec i j) as [[Hl| ->]|Hl];
      [by destruct (Hlt' i [])|done|by destruct (Hlt j [])]). done.
Qed.

Lemma find_case_ok hs chars h hs' :
  handles_ok hs → chars ≠ [] → (length chars <= 95)%nat → find_case hs chars h hs' →
  handles_ok hs' ∧ (∀ i k, hs !! i = Some k → k ≠ [] → hs' !! i = Some k).
Proof.
  intros Hok Hc Hl H. pose proof Hok as [Hlen Hu Hf]. destruct H as [i Hi _|i Hn Hi Hlt|Hn _]; [done| |done].
  destruct Hn as [?|Hn]; [done|]. rewrite take_ge by lia. split; [split|].
  - by rewrite length_insert.
  - intros a b k Ha Hb Hk. apply list_lookup_insert_Some in Ha, Hb.
    destruct Ha as [(? & ? & _)|[Hai Ha]], Hb as [(? & ? & _)|[Hbi Hb]];
      [by subst|subst; destruct Hn; by eapply list_elem_of_lookup_2..|by eapply Hu].
  - intros a k Ha. apply list_lookup_insert_Some in Ha as [(-> & <- & _)|[_ Ha]]; [lia|by eapply Hf].
  - intros a k Ha Hk. rewrite list_lookup_insert_ne; [done|]. intros ->. congruence.
Qed.

(** A search keeps the handle table well formed and the keys of all
    handles.  For a key that fits a slot it answers with a handle whose slot
    holds the key, the same one every time, unless all 64 slots hold other
    keys: then it answers 0. *)
Theorem find_handle_spec hs key :
  handles_ok hs → key ≠ [] → (length key <= 95)%nat →
  let '(h, hs') := find_handle hs key in
  handles_ok hs' ∧ (∀ i k, hs !! i = Some k → k ≠ [] → hs' !! i = Some k) ∧
  find_handle hs' key = (h, hs') ∧
  (h = 0 ∧ ([] ∉ hs) ∧ key ∉ hs ∨ 1 <= h <= 64 ∧ hs' !! Z.to_nat (h - 1) = Some key).
Proof.
  intros Hok Hk Hl. pose proof (find_handle_case hs key) as Hc.
  destruct (find_handle hs key) as [h hs'] eqn:E. cbn [fst snd] in Hc.
  destruct (find_case_ok _ _ _ _ Hok Hk Hl Hc) as [Hok' Hst].
  assert (h = 0 ∧ hs' = hs ∧ ([] ∉ hs) ∧ key ∉ hs ∨ 1 <= h <= 64 ∧ hs' !! Z.to_nat (h - 1) = Some key)
    as Hh.
  { destruct Hc as [i Hi _|i Hn Hi _|[?|Hn] Hf]; [| |done|by left];
      right; replace (Z.to_nat (Z.of_nat i + 1 - 1)) with i by lia;
      apply lookup_lt_Some in Hi as Hlt; rewrite (ho_length _ Hok) in Hlt; (split; [lia|]); [done|].
    rewrite list_lookup_insert_eq by (rewrite (ho_length _ Hok); lia). by rewrite take_ge by lia. }
  split_and!; [done|done| |naive_solver].
  destruct Hh as [(-> & -> & _)|[Hr Hx]]; [done|].
  pose proof (find_handle_case hs' key) as Hc'. destruct (find_handle hs' key) as [h2 hs2]. cbn [fst snd] in Hc'.
  assert (find_case hs' key h hs') as Hold.
  { replace h with (Z.of_nat (Z.to_nat (h - 1)) + 1) by lia. by apply find_old. }
  by destruct (find_case_fun _ _ _ _ _ _ Hok' Hc' Hold) as [-> ->].
Qed.

(** Witness of [find_handle_spec]: two keys in turn. *)
Lemma find_handle_spec_witness :
  let hs := (find_handle (ps_handles props_init) (cs "ro.arch")).2 in
  handles_ok hs ∧ (find_handle hs (cs "ro.hardware")).1 = 2 ∧
  (find_handle hs (cs "ro.hardware")).2 !! 1%nat = Some (cs "ro.hardware").
Proof.
  intros hs.
  pose proof (find_handle_spec (ps_handles props_init) (cs "ro.arch") props_init_ok ltac:(done)
    ltac:(simpl; lia)) as H1.
  assert (handles_ok hs) as Hok by (subst hs; destruct (find_handle _ _); apply H1).
  pose proof (find_handle_spec hs (cs "ro.hardware") Hok ltac:(done) ltac:(simpl; lia)) as H2.
  split; [exact Hok|]. split; vm_compute; reflexivity.
Defined.

(** A key of 96 bytes or more is stored cut to 95, so it is never found
    again: each search of it takes another slot and gives another handle, whose
    property is that of the cut key.  A search of the empty key reserves
    nothing: the next new key gets its handle. *)
Theorem find_handle_misses hs key h hs' :
  handles_ok hs → (95 < length key)%nat → find_handle hs key = (h, hs') → h ≠ 0 →
  (find_handle hs' key).1 ≠ h ∧ hs' !! Z.to_nat (h - 1) = Some (take 95 key) ∧
  (∀ k, k ≠ [] → k ∉ hs → (find_handle hs k).1 = (find_handle hs []).1).
Proof.
  intros Hok Hl E Hh. pose proof Hok as [Hlen Hu Hf].
  assert (∀ l : list (list Z), (∀ i k, l !! i = Some k → (length k <= 95)%nat) → key ∉ l) as Hnot.
  { intros l Hl' Hin. apply list_elem_of_lookup_1 in Hin as [i Hi]. specialize (Hl' i _ Hi). lia. }
  pose proof (find_handle_case hs key) as Hc. rewrite E in Hc. cbn [fst snd] in Hc.
  destruct Hc as [i Hi _|i _ Hi Hlt|]; [specialize (Hf _ _ Hi); lia| |done].
  assert (i < 64)%nat as Hi64 by (rewrite <- Hlen; by eapply lookup_lt_Some).
  split_and!.
  - pose proof (find_handle_case (<[i:=take 95 key]> hs) key) as Hc2.
    destruct (find_handle _ key) as [h2 hs2]. cbn [fst snd] in *.
    destruct Hc2 as [j Hj _|j _ Hj _|]; [| |lia].
    + destruct (Hnot (<[i:=take 95 key]> hs)); [|by eapply list_elem_of_lookup_2].
      intros a k Ha. apply list_lookup_insert_Some in Ha as [(_ & <- & _)|[_ Ha]];
        [rewrite length_take; lia|by eapply Hf].
    + intros Heq. assert (i = j) as <- by lia. rewrite list_lookup_insert_eq in Hj by lia.
      injection Hj as Hj. apply (f_equal length) in Hj. rewrite length_take in Hj. cbn [length] in Hj. lia.
  - replace (Z.to_nat (Z.of_nat i + 1 - 1)) with i by lia. rewrite list_lookup_insert_eq by lia. done.
  - intros k Hk Hkn. pose proof (find_handle_case hs k) as C1. pose proof (find_handle_case hs []) as C2.
    destruct (find_handle hs k) as [h1 hs1], (find_handle hs []) as [h0 hs0]. cbn [fst snd] in *.
    assert (find_case hs [] (Z.of_nat i + 1) (<[i := take 95 []]> hs)) as C0
      by (apply find_new; [by left|done|done]).
    destruct (find_case_fun _ _ _ _ _ _ Hok C2 C0) as [-> _].
    assert (find_case hs k (Z.of_nat i + 1) (<[i := take 95 k]> hs)) as C3
      by (apply find_new; [by right|done|done]).
    by destruct (find_case_fun _ _ _ _ _ _ Hok C1 C3) as [-> _].
Qed.

(** Witness of [find_handle_misses]: a key of 100 bytes. *)
Lemma find_handle_misses_witness :
  let hs := ps_handles props_init in let key := replicate 100 65 in
  let hs' := (find_handle hs key).2 in
  (find_handle hs' key).1 ≠ 1 ∧ hs' !! Z.to_nat (1 - 1) = Some (take 95 key) ∧
  (∀ k, k ≠ [] → k ∉ hs → (find_handle hs k).1 = (find_handle hs []).1).
Proof.
  intros hs key hs'. apply (find_handle_misses hs key 1 hs' props_init_ok).
  - vm_compute. lia.
  - vm_compute. reflexivity.
  - lia.
Defined.

(** Every native of SystemProperties gives back the characters it borrowed
    from the runtime, but for [native_get] of an unknown property with a
    default: it returns the default and keeps them. *)
Theorem native_get_borrow {jstring : Type} (chars : jstring → option (list Z)) new key def s :
  ∃ out, SystemProperties_native_get chars new key def s =
    Done out {| ps_handles := ps_handles s;
                ps_borrowed := ps_borrowed s +
                  (if bool_decide (is_Some def ∧ muplar_property (key ≫= chars) = None ∧
                                   is_Some (key ≫= chars)) then 1 else 0) |}.
Proof.
  destruct s as [hs n]. unfold SystemProperties_native_get, muplar_jni_property.
  destruct key as [k|].
  2: { rewrite bool_decide_eq_false_2 by (intros (_ & _ & [? [=]])).
       cbn. rewrite Z.add_0_r. destruct def; eexists; reflexivity. }
  cbn [option_bind mbind]. destruct (chars k) as [c|].
  2: { rewrite bool_decide_eq_false_2 by (intros (_ & _ & [? [=]])).
       cbn. rewrite Z.add_0_r. destruct def; eexists; reflexivity. }
  destruct (muplar_property (Some c)) as [v|] eqn:Ep.
  - rewrite bool_decide_eq_false_2 by (intros (_ & H & _); cbn in H; congruence).
    unfold mbind, M_bind. cbn. eexists. do 2 f_equal. lia.
  - destruct def as [d|].
    + rewrite bool_decide_eq_true_2 by (split_and!; [by eexists|reflexivity|by eexists]).
      unfold mbind, M_bind. cbn. eexists. reflexivity.
    + rewrite bool_decide_eq_false_2 by (intros ([? [=]] & _)).
      unfold mbind, M_bind. cbn. eexists. do 2 f_equal. lia.
Qed.
