(* ===== verification/ShimParcel.v ===== *)
(** * The natives of android.os.Parcel

    platform/android-aarch64/art-shim/muplar_android_art_shim.c:8916-9493: a
    parcel is a growing byte array with a position, and a table of references
    to binder objects.  The heap of parcels is the state; Java strings are
    their units ([None]: a null reference, or characters the runtime does not
    give access to, which the natives treat alike); floats and doubles are the
    words they are punned to.  The allocator is a parameter, and so is whether
    the runtime has room for a global reference.  Definitions only;
    ShimParcelProps has the proofs. *)

From S2P Require Import Prelude Machine.

Section Parcel.
(** A Java object. *)
Context {obj : Type}.
(** Whether the [n]th allocation, of so many bytes, succeeds; the address of a
    new parcel, if there is memory; whether a global reference to an object can
    be made. *)
Variable alloc_ok : nat → Z → bool.
Variable new_global_ref : obj → bool.

(** platform/android-aarch64/art-shim/muplar_android_art_shim.c:8927-8936 (muplar_parcel)
    The capacity is the length of the data. *)
Record parcel := Parcel {
  pc_data : list Z;
  pc_size : Z;
  pc_pos : Z;
  pc_binders : list (option obj);
  pc_bcap : Z
}.
Definition capacity (p : parcel) : Z := Z.of_nat (length (pc_data p)).

(** The parcels, the number of allocations made, and the number of global
    references held. *)
Record heap := Heap { hp_parcels : gmap Z parcel; hp_allocs : nat; hp_refs : Z }.
Definition P := M heap.

(** ** Access *)

Definition use (ptr : Z) : P parcel := s ← get; lift (hp_parcels s !! ptr).
Definition assign (ptr : Z) (p : parcel) : P () :=
  modify (λ s, Heap (<[ptr := p]> (hp_parcels s)) (hp_allocs s) (hp_refs s)).
Definition count_refs (n : Z) : P () :=
  modify (λ s, Heap (hp_parcels s) (hp_allocs s) (hp_refs s + n)).
Definition try_alloc (size : Z) : P bool :=
  s ← get;
  put (Heap (hp_parcels s) (S (hp_allocs s)) (hp_refs s)) ≫= λ _,
  mret (alloc_ok (hp_allocs s) size).
Definition set_pos (pos : Z) (p : parcel) : parcel :=
  Parcel (pc_data p) (pc_size p) pos (pc_binders p) (pc_bcap p).
Definition set_data (data : list Z) (p : parcel) : parcel :=
  Parcel data (pc_size p) (pc_pos p) (pc_binders p) (pc_bcap p).
(** memcpy into the data. *)
Definition put_bytes (ptr off : Z) (bs : list Z) : P () :=
  p ← use ptr;
  data ← lift (splice (pc_data p) off bs);
  assign ptr (set_data data p).

(** platform/android-aarch64/art-shim/muplar_android_art_shim.c:9248 (Java_android_os_Parcel_nativeWriteInt)
    The next multiple of four. *)
Definition align4 (z : Z) : Z := Z.land (u64 (z + 3)) 18446744073709551612.
(** platform/android-aarch64/art-shim/muplar_android_art_shim.c:9254-9256 (Java_android_os_Parcel_nativeWriteInt) *)
Definition advance (ptr end_ : Z) : P () :=
  p ← use ptr;
  assign ptr (Parcel (pc_data p) (if pc_size p <? end_ then end_ else pc_size p) end_
                (pc_binders p) (pc_bcap p)).

(** ** Memory *)

(** platform/android-aarch64/art-shim/muplar_android_art_shim.c:8943-8944 (muplar_parcel_grow)
    The doubling; 64 steps reach any size. *)
Fixpoint double_cap (fuel : nat) (cap needed : Z) : option Z :=
  if needed <=? cap then Some cap else
  match fuel with
  | O => None
  | S fuel => double_cap fuel (u64 (cap * 2)) needed
  end.
(** platform/android-aarch64/art-shim/muplar_android_art_shim.c:8938-8952 (muplar_parcel_grow) *)
Definition muplar_parcel_grow (ptr needed : Z) : P bool :=
  p ← use ptr;
  if needed <=? capacity p then mret true else
  match double_cap 64 (if capacity p =? 0 then 128 else u64 (capacity p * 2)) needed with
  | None => out_of_fuel
  | Some cap =>
      ok ← try_alloc cap;
      if (ok : bool) then
        assign ptr (set_data (pc_data p ++ replicate (Z.to_nat (cap - capacity p)) 0) p) ≫= λ _, mret true
      else mret false
  end.

(** platform/android-aarch64/art-shim/muplar_android_art_shim.c:8954-8964 (Java_android_os_Parcel_nativeCreate)
    [calloc] is the address of the new block, 0 when there is no memory. *)
Definition Parcel_nativeCreate (calloc : heap → Z) : P Z :=
  s ← get;
  let ptr := calloc s in
  if ptr =? 0 then mret 0 else assign ptr (Parcel [] 0 0 [] 0) ≫= λ _, mret ptr.

(** The references of a parcel that are not null. *)
Definition live_refs (p : parcel) : Z := Z.of_nat (length (omap id (pc_binders p))).
(** platform/android-aarch64/art-shim/muplar_android_art_shim.c:8966-8985 (Java_android_os_Parcel_nativeDestroy) *)
Definition Parcel_nativeDestroy (ptr : Z) : P () :=
  if ptr =? 0 then mret () else
  p ← use ptr;
  count_refs (- live_refs p) ≫= λ _,
  modify (λ s, Heap (delete ptr (hp_parcels s)) (hp_allocs s) (hp_refs s)).

(** platform/android-aarch64/art-shim/muplar_android_art_shim.c:9073-9099 (Java_android_os_Parcel_nativeFreeBuffer) *)
Definition Parcel_nativeFreeBuffer (ptr : Z) : P () :=
  if ptr =? 0 then mret () else
  p ← use ptr;
  count_refs (- live_refs p) ≫= λ _,
  assign ptr (Parcel [] 0 0 [] 0).

(** ** Position and size *)

(** A query, with its answer for a null pointer. *)
Definition query {A} (ptr : Z) (d : A) (f : parcel → A) : P A :=
  if ptr =? 0 then mret d else p ← use ptr; mret (f p).
(** platform/android-aarch64/art-shim/muplar_android_art_shim.c:8987-8997 (Java_android_os_Parcel_nativeDataAvail) *)
Definition Parcel_nativeDataAvail (ptr : Z) : P Z :=
  query ptr 0 (λ p, if pc_size p <=? pc_pos p then 0 else s32 (pc_size p - pc_pos p)).
(** platform/android-aarch64/art-shim/muplar_android_art_shim.c:8999-9007 (Java_android_os_Parcel_nativeDataCapacity) *)
Definition Parcel_nativeDataCapacity (ptr : Z) : P Z := query ptr 0 (λ p, s32 (capacity p)).
(** platform/android-aarch64/art-shim/muplar_android_art_shim.c:9009-9017 (Java_android_os_Parcel_nativeDataPosition) *)
Definition Parcel_nativeDataPosition (ptr : Z) : P Z := query ptr 0 (λ p, s32 (pc_pos p)).
(** platform/android-aarch64/art-shim/muplar_android_art_shim.c:9019-9027 (Java_android_os_Parcel_nativeDataSize) *)
Definition Parcel_nativeDataSize (ptr : Z) : P Z := query ptr 0 (λ p, s32 (pc_size p)).
(** platform/android-aarch64/art-shim/muplar_android_art_shim.c:9115-9123 (Java_android_os_Parcel_nativeHasBinders) *)
Definition Parcel_nativeHasBinders (ptr : Z) : P bool :=
  query ptr false (λ p, (0 <? length (pc_binders p))%nat).
(** platform/android-aarch64/art-shim/muplar_android_art_shim.c:9125-9137 (Java_android_os_Parcel_nativeHasBindersInRange)
    The range is ignored. *)
Definition Parcel_nativeHasBindersInRange (ptr : Z) : P bool :=
  query ptr false (λ p, (0 <? length (pc_binders p))%nat).

(** platform/android-aarch64/art-shim/muplar_android_art_shim.c:9029-9040 (Java_android_os_Parcel_nativeSetDataCapacity) *)
Definition Parcel_nativeSetDataCapacity (ptr size : Z) : P () :=
  if (ptr =? 0) || (size <=? 0) then mret () else muplar_parcel_grow ptr size ≫= λ _, mret ().
(** platform/android-aarch64/art-shim/muplar_android_art_shim.c:9042-9053 (Java_android_os_Parcel_nativeSetDataPosition) *)
Definition Parcel_nativeSetDataPosition (ptr pos : Z) : P () :=
  if (ptr =? 0) || (pos <? 0) then mret () else p ← use ptr; assign ptr (set_pos pos p).
(** platform/android-aarch64/art-shim/muplar_android_art_shim.c:9055-9071 (Java_android_os_Parcel_nativeSetDataSize)
    Whether the array could be grown is not looked at. *)
Definition Parcel_nativeSetDataSize (ptr size : Z) : P () :=
  if (ptr =? 0) || (size <? 0) then mret () else
  p ← use ptr;
  (if capacity p <? size then muplar_parcel_grow ptr size ≫= λ _, mret () else mret ()) ≫= λ _,
  p ← use ptr;
  assign ptr (Parcel (pc_data p) size (if size <? pc_pos p then size else pc_pos p)
                (pc_binders p) (pc_bcap p)).

(** ** Numbers *)

(** platform/android-aarch64/art-shim/muplar_android_art_shim.c:9247-9257 (Java_android_os_Parcel_nativeWriteInt)
    Write the [n] bytes of a number at the next aligned position. *)
Definition write_word (n : nat) (ptr value : Z) : P Z :=
  if ptr =? 0 then mret (-1) else
  p ← use ptr;
  let aligned_pos := align4 (pc_pos p) in
  let end_ := u64 (aligned_pos + Z.of_nat n) in
  ok ← muplar_parcel_grow ptr end_;
  if negb ok then mret (-1) else
  put_bytes ptr aligned_pos (le_split n value) ≫= λ _,
  advance ptr end_ ≫= λ _, mret 0.
(** platform/android-aarch64/art-shim/muplar_android_art_shim.c:9238-9258 (Java_android_os_Parcel_nativeWriteInt) *)
Definition Parcel_nativeWriteInt (ptr value : Z) : P Z := write_word 4 ptr value.
(** platform/android-aarch64/art-shim/muplar_android_art_shim.c:9260-9280 (Java_android_os_Parcel_nativeWriteLong) *)
Definition Parcel_nativeWriteLong (ptr value : Z) : P Z := write_word 8 ptr value.
(** platform/android-aarch64/art-shim/muplar_android_art_shim.c:9282-9293 (Java_android_os_Parcel_nativeWriteFloat) *)
Definition Parcel_nativeWriteFloat (ptr bits : Z) : P Z := Parcel_nativeWriteInt ptr bits.
(** platform/android-aarch64/art-shim/muplar_android_art_shim.c:9295-9306 (Java_android_os_Parcel_nativeWriteDouble) *)
Definition Parcel_nativeWriteDouble (ptr bits : Z) : P Z := Parcel_nativeWriteLong ptr bits.

(** platform/android-aarch64/art-shim/muplar_android_art_shim.c:9389-9397 (Java_android_os_Parcel_nativeReadInt)
    The number before it is converted to its signed type; 0 when it is not
    there. *)
Definition read_word (n : nat) (ptr : Z) : P Z :=
  if ptr =? 0 then mret 0 else
  p ← use ptr;
  let aligned_pos := align4 (pc_pos p) in
  let end_ := u64 (aligned_pos + Z.of_nat n) in
  if pc_size p <? end_ then mret 0 else
  bs ← lift (slice (pc_data p) aligned_pos (Z.of_nat n));
  assign ptr (set_pos end_ p) ≫= λ _, mret (le_combine bs).
(** platform/android-aarch64/art-shim/muplar_android_art_shim.c:9382-9398 (Java_android_os_Parcel_nativeReadInt) *)
Definition Parcel_nativeReadInt (ptr : Z) : P Z := v ← read_word 4 ptr; mret (s32 v).
(** platform/android-aarch64/art-shim/muplar_android_art_shim.c:9400-9416 (Java_android_os_Parcel_nativeReadLong) *)
Definition Parcel_nativeReadLong (ptr : Z) : P Z := v ← read_word 8 ptr; mret (s64 v).
(** platform/android-aarch64/art-shim/muplar_android_art_shim.c:9418-9428 (Java_android_os_Parcel_nativeReadFloat) *)
Definition Parcel_nativeReadFloat (ptr : Z) : P Z := Parcel_nativeReadInt ptr.
(** platform/android-aarch64/art-shim/muplar_android_art_shim.c:9430-9440 (Java_android_os_Parcel_nativeReadDouble) *)
Definition Parcel_nativeReadDouble (ptr : Z) : P Z := Parcel_nativeReadLong ptr.

(** ** Strings *)

(** platform/android-aarch64/art-shim/muplar_android_art_shim.c:9326-9336 (Java_android_os_Parcel_nativeWriteString8)
    The length, and the bytes with their terminator, padded to four. *)
Definition write_chars (ptr len : Z) (bs : list Z) : P () :=
  Parcel_nativeWriteInt ptr len ≫= λ _,
  p ← use ptr;
  let padded := align4 (Z.of_nat (length bs)) in
  let end_ := u64 (pc_pos p + padded) in
  ok ← muplar_parcel_grow ptr end_;
  if (ok : bool) then put_bytes ptr (pc_pos p) bs ≫= λ _, advance ptr end_ else mret ().
(** platform/android-aarch64/art-shim/muplar_android_art_shim.c:9308-9338 (Java_android_os_Parcel_nativeWriteString8) *)
Definition Parcel_nativeWriteString8 (ptr : Z) (value : option (list Z)) : P () :=
  if ptr =? 0 then mret () else
  match value with
  | None => Parcel_nativeWriteInt ptr (-1) ≫= λ _, mret ()
  | Some chars => write_chars ptr (Z.of_nat (length chars)) (chars ++ [0])
  end.
(** platform/android-aarch64/art-shim/muplar_android_art_shim.c:9340-9371 (Java_android_os_Parcel_nativeWriteString16) *)
Definition Parcel_nativeWriteString16 (ptr : Z) (value : option (list Z)) : P () :=
  if ptr =? 0 then mret () else
  match value with
  | None => Parcel_nativeWriteInt ptr (-1) ≫= λ _, mret ()
  | Some chars => write_chars ptr (Z.of_nat (length chars)) (word_bytes 2 chars ++ [0; 0])
  end.
(** platform/android-aarch64/art-shim/muplar_android_art_shim.c:9373-9380 (Java_android_os_Parcel_nativeWriteInterfaceToken) *)
Definition Parcel_nativeWriteInterfaceToken (ptr : Z) (value : option (list Z)) : P () :=
  Parcel_nativeWriteInt ptr 0 ≫= λ _, Parcel_nativeWriteString16 ptr value.

(** platform/android-aarch64/art-shim/muplar_android_art_shim.c:9467 (Java_android_os_Parcel_nativeReadString8)
    Skip [n] bytes, but not past the end. *)
Definition skip (ptr n : Z) : P () :=
  p ← use ptr;
  let pos := u64 (pc_pos p + n) in
  assign ptr (set_pos (if pos <=? pc_size p then pos else pc_size p) p).
(** The bytes of a C string. *)
Fixpoint c_string (bs : list Z) : list Z :=
  match bs with
  | [] => []
  | b :: bs => if b =? 0 then [] else b :: c_string bs
  end.
(** platform/android-aarch64/art-shim/muplar_android_art_shim.c:9442-9469 (Java_android_os_Parcel_nativeReadString8)
    The string handed to NewStringUTF. *)
Definition Parcel_nativeReadString8 (ptr : Z) : P (option (list Z)) :=
  if ptr =? 0 then mret None else
  len ← Parcel_nativeReadInt ptr;
  if len <? 0 then mret None else
  if len =? 0 then skip ptr 4 ≫= λ _, mret (Some []) else
  let padded := align4 (len + 1) in
  p ← use ptr;
  if pc_size p <? u64 (pc_pos p + len) then mret None else
  ok ← try_alloc (len + 1);
  if negb ok then mret None else
  bs ← lift (slice (pc_data p) (pc_pos p) len);
  skip ptr padded ≫= λ _, mret (Some (c_string bs)).
(** platform/android-aarch64/art-shim/muplar_android_art_shim.c:9471-9493 (Java_android_os_Parcel_nativeReadString16)
    The characters handed to NewString. *)
Definition Parcel_nativeReadString16 (ptr : Z) : P (option (list Z)) :=
  if ptr =? 0 then mret None else
  len ← Parcel_nativeReadInt ptr;
  if len <? 0 then mret None else
  if len =? 0 then skip ptr 4 ≫= λ _, mret (Some []) else
  let padded := align4 ((len + 1) * 2) in
  p ← use ptr;
  if pc_size p <? u64 (pc_pos p + len * 2) then mret None else
  bs ← lift (slice (pc_data p) (pc_pos p) (len * 2));
  skip ptr padded ≫= λ _, mret (Some (words_of 2 (Z.to_nat len) bs)).
(** platform/android-aarch64/art-shim/muplar_android_art_shim.c:9101-9113 (Java_android_os_Parcel_nativeEnforceInterface)
    The interface is read and not compared. *)
Definition Parcel_nativeEnforceInterface (ptr : Z) : P () :=
  Parcel_nativeReadInt ptr ≫= λ _, Parcel_nativeReadString16 ptr ≫= λ _, mret ().

(** ** Binders *)

(** platform/android-aarch64/art-shim/muplar_android_art_shim.c:9206-9216 (Java_android_os_Parcel_nativeWriteStrongBinder)
    Make room for one more reference. *)
Definition grow_binders (ptr : Z) : P bool :=
  p ← use ptr;
  if pc_bcap p <=? Z.of_nat (length (pc_binders p)) then
    let cap := if pc_bcap p =? 0 then 4 else u64 (pc_bcap p * 2) in
    ok ← try_alloc (u64 (cap * 8));
    if (ok : bool) then
      assign ptr (Parcel (pc_data p) (pc_size p) (pc_pos p) (pc_binders p) cap) ≫= λ _, mret true
    else mret false
  else mret true.
(** platform/android-aarch64/art-shim/muplar_android_art_shim.c:9194-9221 (Java_android_os_Parcel_nativeWriteStrongBinder) *)
Definition Parcel_nativeWriteStrongBinder (ptr : Z) (binder : option obj) : P () :=
  if ptr =? 0 then mret () else
  match binder with
  | None => Parcel_nativeWriteInt ptr (-1) ≫= λ _, mret ()
  | Some b =>
      ok ← grow_binders ptr;
      if negb ok then Parcel_nativeWriteInt ptr (-1) ≫= λ _, mret () else
      p ← use ptr;
      count_refs (if new_global_ref b then 1 else 0) ≫= λ _,
      assign ptr (Parcel (pc_data p) (pc_size p) (pc_pos p)
        (pc_binders p ++ [if new_global_ref b then Some b else None]) (pc_bcap p)) ≫= λ _,
      Parcel_nativeWriteInt ptr (s32 (Z.of_nat (length (pc_binders p)))) ≫= λ _, mret ()
  end.
(** platform/android-aarch64/art-shim/muplar_android_art_shim.c:9223-9236 (Java_android_os_Parcel_nativeReadStrongBinder) *)
Definition Parcel_nativeReadStrongBinder (ptr : Z) : P (option obj) :=
  if ptr =? 0 then mret None else
  idx ← Parcel_nativeReadInt ptr;
  if idx <? 0 then mret None else
  p ← use ptr;
  mret (pc_binders p !! Z.to_nat idx ≫= id).
End Parcel.
