(* ===== verification/ShimParcelProps.v ===== *)
(** * What is written to a parcel is read back

    A program logic for the natives of Parcel on one parcel; their safety for
    any sequence of calls, with the balance of global references; the round
    trip of every kind of value; and the native that breaks the invariant when
    memory runs out. *)

From S2P Require Import Prelude Machine ShimParcel.

(** ** Positions *)

Lemma align4_eq z : 0 <= z < 2 ^ 63 → align4 z = 4 * ((z + 3) / 4).
Proof.
  intros Hz. unfold align4. rewrite u64_small by (unfold in_u64; lia).
  change 18446744073709551612 with (Z.shiftl (Z.ones (64 - 2)) 2).
  rewrite land_low_mask by (unfold in_u64; lia). change (2 ^ 2) with 4.
  pose proof (Z.div_mod (z + 3) 4 ltac:(lia)). lia.
Qed.
Lemma align4_range z : 0 <= z < 2 ^ 63 → z <= align4 z <= z + 3 ∧ align4 z mod 4 = 0.
Proof.
  intros Hz. rewrite align4_eq by done. pose proof (Z.div_mod (z + 3) 4 ltac:(lia)).
  pose proof (Z.mod_pos_bound (z + 3) 4 ltac:(lia)). split; [lia|].
  rewrite Z.mul_comm. by apply Z.mod_mul.
Qed.

Section Props.
Context {obj : Type}.
Variable alloc_ok : nat → Z → bool.
Variable new_global_ref : obj → bool.
Abbreviation parcel := (@parcel obj).
Abbreviation P := (@P obj).

(** ** A logic for one parcel *)

(** From any heap with parcel [p] at [ptr], [m] returns a value and turns the
    parcel into one with [Q]; other parcels stay, and the references held
    change by those of the parcel. *)
Definition triple {A} (m : P A) (ptr : Z) (p : parcel) (Q : A → parcel → Prop) : Prop :=
  ∀ s, hp_parcels s !! ptr = Some p → ∃ a s' p', m s = Done a s' ∧
    hp_parcels s' = <[ptr := p']> (hp_parcels s) ∧
    hp_refs s' = hp_refs s + (live_refs p' - live_refs p) ∧ Q a p'.

Lemma t_ret {A} (a : A) ptr p (Q : A → parcel → Prop) : Q a p → triple (mret a) ptr p Q.
Proof.
  intros HQ s Hs. exists a, s, p. split; [done|]. split; [by rewrite insert_id|]. split; [lia|done].
Qed.
Lemma t_bind {A B} (m : P A) (f : A → P B) ptr p R Q :
  triple m ptr p R → (∀ a p', R a p' → triple (f a) ptr p' Q) → triple (m ≫= f) ptr p Q.
Proof.
  intros Hm Hf s Hs. destruct (Hm s Hs) as (a & s1 & p1 & E1 & H1 & L1 & HR).
  destruct (Hf a p1 HR s1) as (b & s2 & p2 & E2 & H2 & L2 & HQ); [by rewrite H1, lookup_insert_eq|].
  exists b, s2, p2. rewrite (bind_step _ _ _ _ _ E1). split; [done|]. split; [|split; [lia|done]].
  rewrite H2, H1. apply insert_insert_eq.
Qed.
Lemma t_mono {A} (m : P A) ptr p (R Q : A → parcel → Prop) :
  triple m ptr p R → (∀ a p', R a p' → Q a p') → triple m ptr p Q.
Proof. intros Hm HRQ s Hs. destruct (Hm s Hs) as (a & s' & p' & ? & ? & ? & ?). eauto 10. Qed.
Lemma t_use {B} (f : parcel → P B) ptr p Q : triple (f p) ptr p Q → triple (use ptr ≫= f) ptr p Q.
Proof.
  intros Hf s Hs. unfold use, get, lift, mbind, M_bind. rewrite Hs. by apply Hf.
Qed.
Lemma t_lift {A B} (o : option A) a (f : A → P B) ptr p Q :
  o = Some a → triple (f a) ptr p Q → triple (lift o ≫= f) ptr p Q.
Proof. intros ->. done. Qed.
Lemma t_assign ptr p p' (Q : () → parcel → Prop) :
  live_refs p' = live_refs p → Q () p' → triple (assign ptr p') ptr p Q.
Proof.
  intros Hl HQ s Hs. eexists (), _, p'. split; [reflexivity|]. split; [done|]. cbn. split; [lia|done].
Qed.
Lemma t_alloc {B} size (f : bool → P B) ptr p Q :
  (∀ n, triple (f (alloc_ok n size)) ptr p Q) → triple (try_alloc alloc_ok size ≫= f) ptr p Q.
Proof.
  intros Hf s Hs. unfold try_alloc, get, put, mret, mbind, M_bind, M_ret.
  exact (Hf (hp_allocs s) (Heap (hp_parcels s) (S (hp_allocs s)) (hp_refs s)) Hs).
Qed.
(** References are counted before they are stored. *)
Lemma t_refs {B} n ptr p p' (f : () → P B) Q :
  live_refs p' = live_refs p + n → triple (f ()) ptr p' Q →
  triple (count_refs n ≫= λ _, assign ptr p' ≫= f) ptr p Q.
Proof.
  intros Hl Hf s Hs. unfold count_refs, assign, modify, mbind, M_bind. cbn.
  set (s1 := Heap _ _ _). destruct (Hf s1) as (b & s2 & p2 & E & H2 & L2 & HQ); [cbn; apply lookup_insert_eq|].
  exists b, s2, p2. split; [done|]. split; [|split; [cbn in L2; lia|done]].
  rewrite H2. cbn. apply insert_insert_eq.
Qed.

(** ** The invariant of a parcel *)

Record parcel_ok (p : parcel) : Prop := {
  po_size : 0 <= pc_size p <= capacity p;
  po_cap : capacity p <= 2 ^ 42;
  po_pos : 0 <= pc_pos p <= 2 ^ 42;
  po_binders : Z.of_nat (length (pc_binders p)) <= pc_bcap p <= 2 ^ 42
}.

(** ** Growing *)

Lemma double_cap_spec fuel cap needed :
  0 < cap <= 2 ^ 45 → needed <= 2 ^ 44 → needed <= cap * 2 ^ Z.of_nat fuel →
  ∃ c, double_cap fuel cap needed = Some c ∧ needed <= c ∧ (c = cap ∨ c <= 2 * needed) ∧ cap <= c.
Proof.
  revert cap. induction fuel as [|fuel IH]; intros cap Hc Hn Hf; cbn [double_cap].
  - change (2 ^ Z.of_nat 0) with 1 in Hf. rewrite (proj2 (Z.leb_le _ _)) by lia. exists cap. split; [done|lia].
  - destruct (Z.leb_spec needed cap); [exists cap; split; [done|lia]|].
    rewrite u64_small by (unfold in_u64; lia). rewrite Nat2Z.inj_succ, Z.pow_succ_r in Hf by lia.
    destruct (IH (cap * 2)) as (c & E & H1 & H2 & H3); [lia|done|lia|]. exists c. split; [done|lia].
Qed.

(** A parcel with [k] more zeroed bytes of capacity. *)
Definition grown (k : nat) (p : parcel) : parcel := set_data (pc_data p ++ replicate k 0) p.
Lemma capacity_grown k p : capacity (grown k p) = capacity p + Z.of_nat k.
Proof. unfold capacity, grown. cbn. rewrite length_app, length_replicate. lia. Qed.

Lemma t_grow ptr p needed (Q : bool → parcel → Prop) :
  parcel_ok p → 0 <= needed <= 2 ^ 44 →
  (∀ k, needed <= capacity (grown k p) → capacity (grown k p) <= Z.max (capacity p) (2 * needed + 128) →
     k = 0%nat ∨ (∃ n, alloc_ok n (capacity (grown k p)) = true) → Q true (grown k p)) →
  ((∃ n sz, needed <= sz <= 2 * needed + 128 ∧ alloc_ok n sz = false) → Q false p) →
  triple (muplar_parcel_grow alloc_ok ptr needed) ptr p Q.
Proof.
  intros Hok Hn HT HF. unfold muplar_parcel_grow. apply t_use.
  assert (grown 0 p = p) as H0. { unfold grown, set_data. cbn. rewrite app_nil_r. by destruct p. }
  assert (0 <= capacity p) as Hp by (unfold capacity; lia). pose proof (po_cap _ Hok) as Hcap.
  destruct (Z.leb_spec needed (capacity p)).
  { apply t_ret. rewrite <- H0 at 1. apply HT; [rewrite H0; lia..|by left]. }
  set (c0 := if capacity p =? 0 then 128 else u64 (capacity p * 2)).
  assert (0 < c0 <= 2 ^ 45 ∧ capacity p <= c0 ∧ (c0 = 128 ∨ c0 <= 2 * needed)) as (Hc0 & Hge & Hle).
  { unfold c0. destruct (Z.eqb_spec (capacity p) 0) as [->|]; [lia|].
    rewrite u64_small by (unfold in_u64; lia). lia. }
  destruct (double_cap_spec 64 c0 needed) as (c & E & H1 & H2 & H3); [done|lia| |].
  { change (2 ^ Z.of_nat 64) with 18446744073709551616. lia. }
  rewrite E. apply t_alloc. intros n. destruct (alloc_ok n c) eqn:Ea.
  - assert (capacity (grown (Z.to_nat (c - capacity p)) p) = c) as Eg by (rewrite capacity_grown; lia).
    apply (t_bind _ _ _ _ (λ _ p', p' = grown (Z.to_nat (c - capacity p)) p)); [by apply t_assign|].
    intros _ p' ->. apply t_ret. apply HT; rewrite Eg; [done|lia|right; by exists n].
  - apply t_ret, HF. exists n, c. split; [lia|done].
Qed.

(** ** Writing *)

(** The bytes [bs] were written at [off], below which nothing has changed, and
    the position is [end_]. *)
Record written (p p' : parcel) (off : Z) (bs : list Z) (end_ : Z) : Prop := {
  wr_at : slice (pc_data p') off (Z.of_nat (length bs)) = Some bs;
  wr_keeps : ∀ o n xs, 0 <= n → o + n <= off → slice (pc_data p) o n = Some xs → slice (pc_data p') o n = Some xs;
  wr_pos : pc_pos p' = end_;
  wr_size : pc_size p <= pc_size p' ∧ end_ <= pc_size p';
  wr_binders : pc_binders p' = pc_binders p ∧ pc_bcap p' = pc_bcap p;
  wr_ok : parcel_ok p'
}.

Lemma t_store {B} ptr p k off bs end_ (f : () → P B) Q :
  parcel_ok p → capacity (grown k p) <= 2 ^ 42 → 0 <= off → off + Z.of_nat (length bs) <= end_ →
  end_ <= capacity (grown k p) → (∀ p', written p p' off bs end_ → triple (f ()) ptr p' Q) →
  triple (put_bytes ptr off bs ≫= λ _, advance ptr end_ ≫= f) ptr (grown k p) Q.
Proof.
  intros Hok Hbig Hoff Hbs Hend Hf.
  destruct (splice_Some (pc_data (grown k p)) off bs Hoff) as (data & Ed & Hl & Hat & Hkeep).
  { unfold capacity in Hend. lia. }
  apply (t_bind _ _ _ _ (λ _ p1, p1 = set_data data (grown k p))).
  { unfold put_bytes. apply t_use, (t_lift _ _ _ _ _ _ Ed). by apply t_assign. }
  intros _ p1 ->. eapply (t_bind _ _ _ _ (λ _ p2, written p p2 off bs end_)); [|intros [] p2 Hw; by apply Hf].
  unfold advance. apply t_use, t_assign; [done|]. destruct Hok as [H1 H2 H3 H4].
  split; cbn; [done| |done| |done|].
  - intros o n xs Hn Ho Hs. apply Hkeep; [done|done|]. cbn. by apply slice_app.
  - destruct (Z.ltb_spec (pc_size p) end_); lia.
  - pose proof (capacity_grown k p) as Hg.
    assert (Z.of_nat (length data) = capacity (grown k p)) as Ed' by (rewrite Hl; done).
    split; try unfold capacity at 1; cbn [pc_data pc_size pc_pos pc_binders pc_bcap grown set_data];
      [destruct (Z.ltb_spec (pc_size p) end_); lia|lia|lia|done].
Qed.

Hypothesis alloc_big : ∀ n sz, alloc_ok n sz = true → sz <= 2 ^ 42.

(** Room for [end_], then a write. *)
Lemma t_write {A} ptr p off bs end_ (f : () → P A) (g : P A) Q :
  parcel_ok p → 0 <= off → off + Z.of_nat (length bs) <= end_ → end_ <= 2 ^ 44 →
  (∀ p', written p p' off bs end_ → triple (f ()) ptr p' Q) →
  ((∃ n sz, end_ <= sz <= 2 * end_ + 128 ∧ alloc_ok n sz = false) → triple g ptr p Q) →
  triple (ok ← muplar_parcel_grow alloc_ok ptr end_;
          if (ok : bool) then put_bytes ptr off bs ≫= λ _, advance ptr end_ ≫= f else g) ptr p Q.
Proof.
  intros Hok Hoff Hbs Hend Hf Hg.
  eapply (t_bind _ _ _ _ (λ ok p', (ok = true ∧ ∃ k, p' = grown k p ∧ end_ <= capacity p' <= 2 ^ 42) ∨
    (ok = false ∧ p' = p ∧ ∃ n sz, end_ <= sz <= 2 * end_ + 128 ∧ alloc_ok n sz = false))).
  - apply t_grow; [done|lia| |].
    + intros k H1 _ H2. left. split; [done|]. exists k. split; [done|]. split; [done|].
      destruct H2 as [->|[n Hn]]; [|by eapply alloc_big]. rewrite capacity_grown. pose proof (po_cap _ Hok). lia.
    + intros H. right. done.
  - intros ok p' [(-> & k & -> & Hc)|(-> & -> & H)]; [|by apply Hg].
    apply t_store; [done|lia|done|done|lia|done].
Qed.

Lemma t_write_end ptr p off bs end_ (Q : () → parcel → Prop) :
  parcel_ok p → 0 <= off → off + Z.of_nat (length bs) <= end_ → end_ <= 2 ^ 44 →
  (∀ p', written p p' off bs end_ → Q () p') →
  ((∃ n sz, end_ <= sz <= 2 * end_ + 128 ∧ alloc_ok n sz = false) → Q () p) →
  triple (ok ← muplar_parcel_grow alloc_ok ptr end_;
          if (ok : bool) then put_bytes ptr off bs ≫= λ _, advance ptr end_ else mret ()) ptr p Q.
Proof.
  intros Hok Hoff Hbs Hend Hf Hg s Hs.
  destruct (t_write ptr p off bs end_ mret (mret ()) Q) with (s := s) as (a & s' & p' & E & HR); try done.
  { intros p' Hw. by apply t_ret, Hf. }
  { intros Hr. by apply t_ret, Hg. }
  exists a, s', p'. split; [|done]. rewrite <- E. unfold mbind, M_bind.
  destruct (muplar_parcel_grow alloc_ok ptr end_ s) as [[] s1| | |]; [|done..].
  destruct (put_bytes ptr off bs s1) as [[] s2| | |]; [|done..].
  by destruct (advance ptr end_ s2) as [[] s3| | |].
Qed.

Lemma t_negb {A} (m : P bool) (a b : P A) ptr p Q :
  triple (ok ← m; if (ok : bool) then b else a) ptr p Q → triple (ok ← m; if negb ok then a else b) ptr p Q.
Proof.
  intros H s Hs. destruct (H s Hs) as (x & s' & p' & E & Hr). exists x, s', p'. split; [|done].
  rewrite <- E. unfold mbind, M_bind. by destruct (m s) as [[] ?| | |].
Qed.

Lemma t_write_word n ptr p v (Q : Z → parcel → Prop) :
  ptr ≠ 0 → parcel_ok p → (n <= 8)%nat →
  (∀ p', written p p' (align4 (pc_pos p)) (le_split n v) (align4 (pc_pos p) + Z.of_nat n) → Q 0 p') →
  ((∃ k sz, sz <= 2 * pc_pos p + 256 ∧ alloc_ok k sz = false) → Q (-1) p) →
  triple (write_word alloc_ok n ptr v) ptr p Q.
Proof.
  intros Hptr Hok Hn HQ HF. unfold write_word. rewrite (proj2 (Z.eqb_neq _ _) Hptr). apply t_use. cbv zeta.
  destruct (align4_range (pc_pos p)) as [Ha _]; [pose proof (po_pos _ Hok); lia|].
  pose proof (po_pos _ Hok). set (a := align4 (pc_pos p)) in *.
  assert (u64 (a + Z.of_nat n) = a + Z.of_nat n) as -> by (apply u64_small; unfold in_u64; lia).
  set (e := a + Z.of_nat n) in *.
  apply t_negb.
  apply t_write; [done|lia|rewrite length_le_split; unfold e; lia|unfold e; lia| |].
  - intros p' Hw. by apply t_ret, HQ.
  - intros (k & sz & Hsz & Hk). apply t_ret, HF. exists k, sz. split; [unfold e in *; lia|done].
Qed.

(** ** Values *)

(** What can be written; a float is an [IInt] and a double an [ILong]. *)
Inductive item :=
| IInt (z : Z)
| ILong (z : Z)
| IStr8 (s : option (list Z))
| IStr16 (s : option (list Z))
| IBinder (b : option obj).

Definition item_ok (it : item) : Prop :=
  match it with
  | IInt z => in_s32 z
  | ILong z => in_s64 z
  | IStr8 (Some cs) => cstring cs ∧ Z.of_nat (length cs) <= 2147483647
  | IStr16 (Some cs) => Forall in_u16 cs ∧ Z.of_nat (length cs) <= 2147483647
  | _ => True
  end.

Definition write_item (ptr : Z) (it : item) : P () :=
  match it with
  | IInt z => Parcel_nativeWriteInt alloc_ok ptr z ≫= λ _, mret ()
  | ILong z => Parcel_nativeWriteLong alloc_ok ptr z ≫= λ _, mret ()
  | IStr8 s => Parcel_nativeWriteString8 alloc_ok ptr s
  | IStr16 s => Parcel_nativeWriteString16 alloc_ok ptr s
  | IBinder b => Parcel_nativeWriteStrongBinder alloc_ok new_global_ref ptr b
  end.
(** Read a value of the kind of another one. *)
Definition read_item (ptr : Z) (it : item) : P item :=
  match it with
  | IInt _ => z ← Parcel_nativeReadInt ptr; mret (IInt z)
  | ILong _ => z ← Parcel_nativeReadLong ptr; mret (ILong z)
  | IStr8 _ => s ← Parcel_nativeReadString8 alloc_ok ptr; mret (IStr8 s)
  | IStr16 _ => s ← Parcel_nativeReadString16 ptr; mret (IStr16 s)
  | IBinder _ => b ← Parcel_nativeReadStrongBinder ptr; mret (IBinder b)
  end.

(** The position after a value. *)
Definition next_pos (pos : Z) (it : item) : Z :=
  align4 pos +
  match it with
  | ILong _ => 8
  | IStr8 (Some cs) => 4 + align4 (Z.of_nat (length cs) + 1)
  | IStr16 (Some cs) => 4 + align4 ((Z.of_nat (length cs) + 1) * 2)
  | _ => 4
  end.

(** The value is in the data at [pos]. *)
Definition has (p : parcel) (off : Z) (bs : list Z) : Prop :=
  slice (pc_data p) off (Z.of_nat (length bs)) = Some bs.
Definition stored (p : parcel) (pos : Z) (it : item) : Prop :=
  next_pos pos it <= pc_size p ∧
  match it with
  | IInt z => has p (align4 pos) (le_split 4 z)
  | ILong z => has p (align4 pos) (le_split 8 z)
  | IStr8 (Some cs) =>
      has p (align4 pos) (le_split 4 (Z.of_nat (length cs))) ∧ has p (align4 pos + 4) (cs ++ [0])
  | IStr16 (Some cs) =>
      has p (align4 pos) (le_split 4 (Z.of_nat (length cs))) ∧ has p (align4 pos + 4) (word_bytes 2 cs ++ [0; 0])
  | IBinder (Some b) => ∃ i : nat, Z.of_nat i <= 2147483647 ∧
      has p (align4 pos) (le_split 4 (Z.of_nat i)) ∧ pc_binders p !! i = Some (Some b)
  | _ => has p (align4 pos) (le_split 4 (-1))
  end.

(** A later state of a parcel: the same below [off]. *)
Record later (off : Z) (p p' : parcel) : Prop := {
  lt_keeps : ∀ o n xs, 0 <= n → o + n <= off → slice (pc_data p) o n = Some xs → slice (pc_data p') o n = Some xs;
  lt_size : pc_size p <= pc_size p';
  lt_binders : pc_binders p `prefix_of` pc_binders p'
}.

Lemma later_refl off p : later off p p.
Proof. by split. Qed.
Lemma later_trans off off' p1 p2 p3 : off <= off' → later off p1 p2 → later off' p2 p3 → later off p1 p3.
Proof.
  intros Ho [K1 S1 B1] [K2 S2 B2]. split; [|lia|by etransitivity].
  intros o n xs Hn Hon Hs. apply K2; [done|lia|]. by apply K1.
Qed.
Lemma written_later p p' off bs e : written p p' off bs e → later off p p'.
Proof. intros [H1 H2 H3 H4 [H5 _] H6]. split; [done|lia|by rewrite H5]. Qed.

Lemma has_later off p p' o bs : has p o bs → o + Z.of_nat (length bs) <= off → later off p p' → has p' o bs.
Proof. intros Hh Ho [K _ _]. apply K; [lia|done|done]. Qed.

Lemma stored_later off p p' pos it :
  0 <= pos < 2 ^ 45 → item_ok it → stored p pos it → next_pos pos it <= off → later off p p' → stored p' pos it.
Proof.
  intros Hp Hi [Hs Hst] Ho Hl. pose proof Hl as [_ Hsz Hb]. split; [lia|]. unfold next_pos in *.
  assert (∀ z n, align4 pos + Z.of_nat n <= off → has p (align4 pos) (le_split n z) → has p' (align4 pos) (le_split n z)) as Hw.
  { intros z n Hn Hh. eapply has_later; [exact Hh|by rewrite length_le_split|done]. }
  assert (∀ n bs, 0 <= n < 2 ^ 45 → Z.of_nat (length bs) = n → align4 pos + (4 + align4 n) <= off →
    has p (align4 pos + 4) bs → has p' (align4 pos + 4) bs) as Hc.
  { intros n bs Hn Hbs Hle Hh. eapply has_later; [exact Hh| |done]. pose proof (align4_range n ltac:(lia)). lia. }
  assert (∀ n, 0 <= n < 2 ^ 45 → 0 <= align4 n) as Hpos by (intros n Hn; pose proof (align4_range n ltac:(lia)); lia).
  destruct it as [z|z|[cs|]|[cs|]|[b|]]; cbn in Hi.
  - apply (Hw _ 4%nat); [lia|done].
  - apply (Hw _ 8%nat); [lia|done].
  - destruct Hst as [H1 H2]. pose proof (Hpos (Z.of_nat (length cs) + 1) ltac:(lia)). split; [apply (Hw _ 4%nat); [lia|done]|].
    apply (Hc (Z.of_nat (length cs) + 1)); [lia|rewrite length_app; cbn; lia|done|done].
  - apply (Hw _ 4%nat); [lia|done].
  - destruct Hst as [H1 H2]. pose proof (Hpos ((Z.of_nat (length cs) + 1) * 2) ltac:(lia)). split; [apply (Hw _ 4%nat); [lia|done]|].
    apply (Hc ((Z.of_nat (length cs) + 1) * 2)); [lia|rewrite length_app, length_word_bytes; cbn; lia|done|done].
  - apply (Hw _ 4%nat); [lia|done].
  - destruct Hst as (i & H0 & H1 & H2). exists i. split; [done|]. split; [apply (Hw _ 4%nat); [lia|done]|].
    by eapply prefix_lookup_Some.
  - apply (Hw _ 4%nat); [lia|done].
Qed.

(** ** Writing values *)

(** An allocation of bounded size fails. *)
Definition refused (limit : Z) : Prop := ∃ k sz, sz <= limit ∧ alloc_ok k sz = false.
Lemma refused_mono l l' : l <= l' → refused l → refused l'.
Proof. intros Hl (k & sz & Hsz & Hk). exists k, sz. split; [lia|done]. Qed.

(** A value was written at the position of [p]. *)
Record wrote (p p' : parcel) (it : item) : Prop := {
  wt_stored : stored p' (pc_pos p) it;
  wt_pos : pc_pos p' = next_pos (pc_pos p) it;
  wt_later : later (pc_pos p) p p';
  wt_binders : (length (pc_binders p') <= S (length (pc_binders p)))%nat;
  wt_ok : parcel_ok p'
}.

Lemma later_weaken off off' p p' : off <= off' → later off' p p' → later off p p'.
Proof. intros Ho Hl. eapply later_trans; [exact Ho|apply later_refl|exact Hl]. Qed.

Lemma pos_align p : parcel_ok p → pc_pos p <= align4 (pc_pos p) <= pc_pos p + 3 ∧ 0 <= pc_pos p <= 2 ^ 42.
Proof. intros Hok. pose proof (po_pos _ Hok). pose proof (align4_range (pc_pos p) ltac:(lia)). lia. Qed.

Lemma align4_aligned z : 0 <= z < 2 ^ 62 → align4 (align4 z + 4) = align4 z + 4 ∧ align4 (align4 z) = align4 z.
Proof.
  intros Hz. destruct (align4_range z ltac:(lia)) as [H1 H2].
  destruct (align4_range (align4 z) ltac:(lia)) as [H3 H4].
  destruct (align4_range (align4 z + 4) ltac:(lia)) as [H5 H6].
  pose proof (Z.div_mod (align4 z) 4 ltac:(lia)). pose proof (Z.div_mod (align4 (align4 z)) 4 ltac:(lia)).
  pose proof (Z.div_mod (align4 (align4 z + 4)) 4 ltac:(lia)). split; lia.
Qed.

(** A number as a value: [n] bytes. *)
Lemma t_write_int n ptr p v it (Q : () → parcel → Prop) :
  ptr ≠ 0 → parcel_ok p → (n <= 8)%nat →
  next_pos (pc_pos p) it = align4 (pc_pos p) + Z.of_nat n →
  (∀ p', has p' (align4 (pc_pos p)) (le_split n v) → pc_binders p' = pc_binders p →
     next_pos (pc_pos p) it <= pc_size p' → stored p' (pc_pos p) it) →
  (∀ p', wrote p p' it → Q () p') →
  (refused (2 * pc_pos p + 256) → Q () p) →
  triple (write_word alloc_ok n ptr v ≫= λ _, mret ()) ptr p Q.
Proof.
  intros Hptr Hok Hn Hnext Hst HQ HF. eapply (t_bind _ _ _ _ (λ _ p', Q () p')); [|intros; by apply t_ret].
  apply t_write_word; [done|done|done| |].
  - intros p' Hw. pose proof (pos_align p Hok). apply HQ. pose proof Hw as [W1 W2 W3 [W4 W5] [W6 W7] W8].
    split; [|by rewrite W3|eapply later_weaken; [|eapply written_later, Hw]; lia|by rewrite W6; lia|done].
    apply Hst; [exact W1|done|lia].
  - intros Hr. by apply HF.
Qed.

(** The length and the characters of a string. *)
Lemma t_write_chars ptr p len bs (Q : () → parcel → Prop) :
  ptr ≠ 0 → parcel_ok p → Z.of_nat (length bs) <= 2 ^ 34 →
  (∀ p1 p2, written p p1 (align4 (pc_pos p)) (le_split 4 len) (align4 (pc_pos p) + 4) →
     written p1 p2 (align4 (pc_pos p) + 4) bs (align4 (pc_pos p) + 4 + align4 (Z.of_nat (length bs))) → Q () p2) →
  (refused (2 * (align4 (pc_pos p) + 4 + align4 (Z.of_nat (length bs))) + 256) → ∀ p', parcel_ok p' → Q () p') →
  triple (write_chars alloc_ok ptr len bs) ptr p Q.
Proof.
  intros Hptr Hok Hbs HQ HF. unfold write_chars, Parcel_nativeWriteInt. pose proof (pos_align p Hok).
  destruct (align4_range (Z.of_nat (length bs))) as [Hal _]; [lia|].
  eapply (t_bind _ _ _ _ (λ _ p1, parcel_ok p1 ∧
    (written p p1 (align4 (pc_pos p)) (le_split 4 len) (align4 (pc_pos p) + 4) ∨ refused (2 * pc_pos p + 256)))).
  { apply t_write_word; [done|done|lia| |].
    - intros p' Hw. split; [by eapply wr_ok|by left].
    - intros Hr. split; [done|by right]. }
  intros _ p1 [Hok1 Hcase]. pose proof (pos_align p1 Hok1).
  apply t_use. cbv zeta. rewrite u64_small by (unfold in_u64; lia).
  apply t_write_end; [done|lia|lia|lia| |].
  - intros p2 Hw2. destruct Hcase as [Hw1|Hr].
    + apply (HQ p1 p2 Hw1). by rewrite (wr_pos _ _ _ _ _ Hw1) in Hw2.
    + apply HF; [|by eapply wr_ok]. eapply refused_mono; [|exact Hr]. lia.
  - intros (k & sz & Hsz & Hk). apply HF; [|done]. destruct Hcase as [Hw1|Hr].
    + exists k, sz. split; [|done]. rewrite (wr_pos _ _ _ _ _ Hw1) in Hsz. lia.
    + eapply refused_mono; [|exact Hr]. lia.
Qed.

(** A reference can be stored: there is one, and its index is an [int]. *)
Definition exact (p : parcel) (it : item) : Prop :=
  match it with
  | IBinder (Some b) => new_global_ref b = true ∧ Z.of_nat (length (pc_binders p)) <= 2147483647
  | _ => True
  end.
(** What the largest allocation of a write is bounded by. *)
Definition write_limit (p : parcel) (it : item) : Z :=
  2 * next_pos (pc_pos p) it + 16 * Z.of_nat (length (pc_binders p)) + 1024.

Lemma wrote_chars p p1 p2 len bs it :
  parcel_ok p → Z.of_nat (length bs) <= 2 ^ 34 →
  next_pos (pc_pos p) it = align4 (pc_pos p) + 4 + align4 (Z.of_nat (length bs)) →
  (has p2 (align4 (pc_pos p)) (le_split 4 len) → has p2 (align4 (pc_pos p) + 4) bs →
   next_pos (pc_pos p) it <= pc_size p2 → stored p2 (pc_pos p) it) →
  written p p1 (align4 (pc_pos p)) (le_split 4 len) (align4 (pc_pos p) + 4) →
  written p1 p2 (align4 (pc_pos p) + 4) bs (align4 (pc_pos p) + 4 + align4 (Z.of_nat (length bs))) →
  wrote p p2 it.
Proof.
  intros Hok Hbs Hnext Hst W1 W2. pose proof (pos_align p Hok). split.
  - apply Hst; [|exact (wr_at _ _ _ _ _ W2)|rewrite Hnext; apply (wr_size _ _ _ _ _ W2)].
    eapply has_later; [exact (wr_at _ _ _ _ _ W1)|by rewrite length_le_split|exact (written_later _ _ _ _ _ W2)].
  - rewrite Hnext. exact (wr_pos _ _ _ _ _ W2).
  - eapply (later_trans _ (align4 (pc_pos p) + 4)); [| |exact (written_later _ _ _ _ _ W2)]; [lia|].
    eapply later_weaken; [|exact (written_later _ _ _ _ _ W1)]. lia.
  - destruct (wr_binders _ _ _ _ _ W2) as [-> _]. destruct (wr_binders _ _ _ _ _ W1) as [-> _]. lia.
  - exact (wr_ok _ _ _ _ _ W2).
Qed.

Lemma t_write_string ptr p len bs it (Q : () → parcel → Prop) :
  ptr ≠ 0 → parcel_ok p → Z.of_nat (length bs) <= 2 ^ 34 →
  next_pos (pc_pos p) it = align4 (pc_pos p) + 4 + align4 (Z.of_nat (length bs)) →
  (∀ p2, has p2 (align4 (pc_pos p)) (le_split 4 len) → has p2 (align4 (pc_pos p) + 4) bs →
   next_pos (pc_pos p) it <= pc_size p2 → stored p2 (pc_pos p) it) →
  (∀ p', wrote p p' it → Q () p') →
  (refused (write_limit p it) → ∀ p', parcel_ok p' → Q () p') →
  triple (write_chars alloc_ok ptr len bs) ptr p Q.
Proof.
  intros Hptr Hok Hbs Hnext Hst HQ HF. apply t_write_chars; [done|done|done| |].
  - intros p1 p2 W1 W2. apply HQ. eapply wrote_chars; [done|exact Hbs|done|apply Hst|exact W1|exact W2].
  - intros Hr. apply HF. eapply refused_mono; [|exact Hr]. unfold write_limit. lia.
Qed.

Lemma live_push (p : parcel) x :
  live_refs (Parcel (pc_data p) (pc_size p) (pc_pos p) (pc_binders p ++ [x]) (pc_bcap p)) =
  live_refs p + match x with Some _ => 1 | None => 0 end.
Proof.
  unfold live_refs. cbn. rewrite omap_app, length_app. destruct x; cbn; lia.
Qed.

(** Room for a reference. *)
Lemma t_grow_binders ptr p (Q : bool → parcel → Prop) :
  parcel_ok p →
  (∀ cap, Z.of_nat (length (pc_binders p)) < cap <= 2 ^ 42 →
     Q true (Parcel (pc_data p) (pc_size p) (pc_pos p) (pc_binders p) cap)) →
  (refused (16 * Z.of_nat (length (pc_binders p)) + 64) → Q false p) →
  triple (grow_binders alloc_ok ptr) ptr p Q.
Proof.
  intros Hok HT HF. unfold grow_binders. apply t_use. pose proof (po_binders _ Hok) as Hb.
  destruct (Z.leb_spec (pc_bcap p) (Z.of_nat (length (pc_binders p)))) as [Hle|Hgt].
  - cbv zeta. set (cap := if pc_bcap p =? 0 then 4 else u64 (pc_bcap p * 2)).
    assert (Z.of_nat (length (pc_binders p)) < cap <= 2 * Z.of_nat (length (pc_binders p)) + 4) as Hcap.
    { unfold cap. destruct (Z.eqb_spec (pc_bcap p) 0); [lia|]. rewrite u64_small by (unfold in_u64; lia). lia. }
    rewrite u64_small by (unfold in_u64; lia). apply t_alloc. intros n. destruct (alloc_ok n (cap * 8)) eqn:Ea.
    + apply alloc_big in Ea.
      apply (t_bind _ _ _ _ (λ _ p', p' = Parcel (pc_data p) (pc_size p) (pc_pos p) (pc_binders p) cap)).
      { by apply t_assign. }
      intros _ p' ->. apply t_ret, HT. lia.
    + apply t_ret, HF. exists n, (cap * 8). split; [lia|done].
  - apply t_ret. specialize (HT (pc_bcap p) ltac:(lia)). by destruct p.
Qed.

Lemma t_write_none ptr p it (Q : () → parcel → Prop) :
  ptr ≠ 0 → parcel_ok p → (it = IStr8 None ∨ it = IStr16 None ∨ it = IBinder None) →
  (∀ p', wrote p p' it → Q () p') → (refused (write_limit p it) → Q () p) →
  triple (Parcel_nativeWriteInt alloc_ok ptr (-1) ≫= λ _, mret ()) ptr p Q.
Proof.
  intros Hptr Hok Hit HQ HF. pose proof (pos_align p Hok).
  assert (next_pos (pc_pos p) it = align4 (pc_pos p) + Z.of_nat 4) as Hn.
  { unfold next_pos. by destruct Hit as [-> | [-> | ->]]. }
  apply (t_write_int 4 ptr p (-1) it); [done|done|lia|done| |done|].
  - intros p' H1 H2 H3. split; [done|]. by destruct Hit as [-> | [-> | ->]].
  - intros Hr. apply HF. eapply refused_mono; [|exact Hr]. unfold write_limit. lia.
Qed.

Lemma t_write_binder ptr p b (Q : () → parcel → Prop) :
  ptr ≠ 0 → parcel_ok p →
  (exact p (IBinder (Some b)) → ∀ p', wrote p p' (IBinder (Some b)) → Q () p') →
  (refused (write_limit p (IBinder (Some b))) ∨ ¬ exact p (IBinder (Some b)) → ∀ p', parcel_ok p' → Q () p') →
  triple (Parcel_nativeWriteStrongBinder alloc_ok new_global_ref ptr (Some b)) ptr p Q.
Proof.
  intros Hptr Hok HQ HF. unfold Parcel_nativeWriteStrongBinder. rewrite (proj2 (Z.eqb_neq _ _) Hptr).
  pose proof (pos_align p Hok) as Hpos.
  assert (write_limit p (IBinder (Some b)) =
    2 * (align4 (pc_pos p) + 4) + 16 * Z.of_nat (length (pc_binders p)) + 1024) as El by done.
  set (n := length (pc_binders p)) in *.
  apply t_negb. eapply (t_bind _ _ _ _ (λ ok p', (ok = true ∧ ∃ cap, Z.of_nat n < cap <= 2 ^ 42 ∧
    p' = Parcel (pc_data p) (pc_size p) (pc_pos p) (pc_binders p) cap) ∨ (ok = false ∧ p' = p ∧ refused (16 * Z.of_nat n + 64)))).
  { apply t_grow_binders; [done| |].
    - intros cap Hcap. left. split; [done|]. by exists cap.
    - intros Hr. right. done. }
  intros ok p1 [(-> & cap & Hcap & ->)|(-> & -> & Hr)].
  2: { assert (refused (write_limit p (IBinder (Some b)))) as Hr'.
       { eapply refused_mono; [|exact Hr]. lia. }
       apply (t_write_int 4 ptr p (-1) (IBinder None)); [done|done|lia|done| | |].
       - intros p' H1 H2 H3. by split.
       - intros p' Hw. apply HF; [by left|]. by eapply wt_ok.
       - intros _. apply HF; [by left|done]. }
  apply t_use. cbn [pc_data pc_size pc_pos pc_binders pc_bcap]. fold n.
  set (x := if new_global_ref b then Some b else None).
  set (p2 := Parcel (pc_data p) (pc_size p) (pc_pos p) (pc_binders p ++ [x]) cap).
  apply (t_refs _ _ _ p2).
  { pose proof (live_push (Parcel (pc_data p) (pc_size p) (pc_pos p) (pc_binders p) cap) x) as Hl. cbn in Hl.
    unfold p2. rewrite Hl. unfold x. by destruct (new_global_ref b). }
  assert (parcel_ok p2) as Hok2.
  { destruct Hok as [H1 H2 H3 H4]. split; [done|done|done|]. cbn [p2 pc_binders pc_bcap]. rewrite length_app. cbn. fold n. lia. }
  assert (later (pc_pos p) p p2) as Hl2.
  { split; [done|done|]. by exists [x]. }
  eapply (t_bind _ _ _ _ (λ _ p', Q () p')); [|intros; by apply t_ret].
  apply t_write_word; [done|done|lia| |].
  - intros p' [W1 W2 W3 [W4 W5] [W6 _] W8]. cbn [p2 pc_pos pc_size pc_binders pc_data] in *.
    destruct (decide (exact p (IBinder (Some b)))) as [Hex|Hex]; [|by apply HF; [right|]].
    apply HQ; [done|]. destruct Hex as [Hg Hn]. fold n in Hn.
    assert (x = Some b) as Hx by (unfold x; by rewrite Hg). split.
    + split; [exact W5|]. exists n. split; [done|]. rewrite s32_small in W1 by (unfold in_s32; lia).
      split; [exact W1|]. rewrite W6, Hx, lookup_app_r, Nat.sub_diag by (unfold n; lia). done.
    + exact W3.
    + split; [|done|by exists [x]]. intros o k xs Hk Ho Hs. apply W2; [done|lia|done].
    + rewrite W6, length_app. cbn. lia.
    + done.
  - intros (k & sz & Hsz & Hk). apply HF; [|done]. left. exists k, sz. split; [cbn in Hsz; lia|done].
Qed.

(** Writing a value: it is stored, or an allocation was refused. *)
Lemma t_write_item ptr p it (Q : () → parcel → Prop) :
  ptr ≠ 0 → parcel_ok p → item_ok it →
  (exact p it → ∀ p', wrote p p' it → Q () p') →
  (refused (write_limit p it) ∨ ¬ exact p it → ∀ p', parcel_ok p' → Q () p') →
  triple (write_item ptr it) ptr p Q.
Proof.
  intros Hptr Hok Hi HQ HF. pose proof (pos_align p Hok) as Hpos.
  assert (∀ z, refused (2 * pc_pos p + 256) → next_pos (pc_pos p) z = align4 (pc_pos p) + 4 ∨
    next_pos (pc_pos p) z = align4 (pc_pos p) + 8 → refused (write_limit p z)) as Hlim.
  { intros z Hr Hz. eapply refused_mono; [|exact Hr]. unfold write_limit. lia. }
  destruct it as [z|z|[cs|]|[cs|]|[b|]]; cbn [write_item]; cbn [item_ok] in Hi.
  - apply (t_write_int 4 ptr p z (IInt z)); [done|done|lia|done| | |].
    + intros p' H1 _ H3. by split.
    + intros p' Hw. by apply HQ.
    + intros Hr. apply HF; [left; apply Hlim; [done|by left]|done].
  - apply (t_write_int 8 ptr p z (ILong z)); [done|done|lia|done| | |].
    + intros p' H1 _ H3. by split.
    + intros p' Hw. by apply HQ.
    + intros Hr. apply HF; [left; apply Hlim; [done|by right]|done].
  - unfold Parcel_nativeWriteString8. rewrite (proj2 (Z.eqb_neq _ _) Hptr).
    assert (Z.of_nat (length (cs ++ [0])) = Z.of_nat (length cs) + 1) as Hl by (rewrite length_app; cbn; lia).
    apply (t_write_string ptr p _ _ (IStr8 (Some cs))); [done|done|lia| | | |].
    + unfold next_pos. rewrite Hl. lia.
    + intros p' H1 H2 H3. by split.
    + by apply HQ.
    + intros Hr. apply HF. by left.
  - unfold Parcel_nativeWriteString8. rewrite (proj2 (Z.eqb_neq _ _) Hptr).
    apply t_write_none with (IStr8 None); [done|done|auto|by apply HQ|]. intros Hr. apply HF; [by left|done].
  - unfold Parcel_nativeWriteString16. rewrite (proj2 (Z.eqb_neq _ _) Hptr).
    assert (Z.of_nat (length (word_bytes 2 cs ++ [0; 0])) = (Z.of_nat (length cs) + 1) * 2) as Hl
      by (rewrite length_app, length_word_bytes; cbn; lia).
    apply (t_write_string ptr p _ _ (IStr16 (Some cs))); [done|done|lia| | | |].
    + unfold next_pos. rewrite Hl. lia.
    + intros p' H1 H2 H3. by split.
    + by apply HQ.
    + intros Hr. apply HF. by left.
  - unfold Parcel_nativeWriteString16. rewrite (proj2 (Z.eqb_neq _ _) Hptr).
    apply t_write_none with (IStr16 None); [done|done|auto|by apply HQ|]. intros Hr. apply HF; [by left|done].
  - by apply t_write_binder.
  - unfold Parcel_nativeWriteStrongBinder. rewrite (proj2 (Z.eqb_neq _ _) Hptr).
    apply t_write_none with (IBinder None); [done|done|auto|by apply HQ|]. intros Hr. apply HF; [by left|done].
Qed.

(** ** Reading *)

Lemma set_pos_ok pos p : 0 <= pos <= 2 ^ 42 → parcel_ok p → parcel_ok (set_pos pos p).
Proof. intros Hp [H1 H2 H3 H4]. by split. Qed.

Lemma slice_in mem off n : 0 <= off → off + n <= Z.of_nat (length mem) → is_Some (slice mem off n).
Proof.
  intros H1 H2. unfold slice. rewrite (proj2 (Z.leb_le _ _)) by lia. rewrite (proj2 (Z.leb_le _ _)) by lia. by eexists.
Qed.

Lemma t_read_word n ptr p (Q : Z → parcel → Prop) :
  ptr ≠ 0 → parcel_ok p → (n <= 8)%nat →
  (∀ bs, slice (pc_data p) (align4 (pc_pos p)) (Z.of_nat n) = Some bs →
     align4 (pc_pos p) + Z.of_nat n <= pc_size p → Q (le_combine bs) (set_pos (align4 (pc_pos p) + Z.of_nat n) p)) →
  (pc_size p < align4 (pc_pos p) + Z.of_nat n → Q 0 p) →
  triple (read_word n ptr) ptr p Q.
Proof.
  intros Hptr Hok Hn HQ HF. unfold read_word. rewrite (proj2 (Z.eqb_neq _ _) Hptr). apply t_use. cbv zeta.
  pose proof (pos_align p Hok). rewrite u64_small by (unfold in_u64; lia).
  destruct (Z.ltb_spec (pc_size p) (align4 (pc_pos p) + Z.of_nat n)) as [Hs|Hs]; [by apply t_ret, HF|].
  destruct (slice_in (pc_data p) (align4 (pc_pos p)) (Z.of_nat n)) as [bs Hbs]; [lia| |].
  { pose proof (po_size _ Hok). unfold capacity in *. lia. }
  apply (t_lift _ _ _ _ _ _ Hbs).
  apply (t_bind _ _ _ _ (λ _ p', p' = set_pos (align4 (pc_pos p) + Z.of_nat n) p)); [by apply t_assign|].
  intros _ p' ->. by apply t_ret, HQ.
Qed.

Lemma t_skip ptr p n (Q : () → parcel → Prop) :
  parcel_ok p → 0 <= n <= 2 ^ 44 →
  Q () (set_pos (if pc_pos p + n <=? pc_size p then pc_pos p + n else pc_size p) p) →
  triple (skip ptr n) ptr p Q.
Proof.
  intros Hok Hn HQ. unfold skip. apply t_use. cbv zeta. pose proof (pos_align p Hok).
  rewrite u64_small by (unfold in_u64; lia). by apply t_assign.
Qed.
Lemma skip_ok p n : parcel_ok p → 0 <= n →
  parcel_ok (set_pos (if pc_pos p + n <=? pc_size p then pc_pos p + n else pc_size p) p).
Proof.
  intros Hok Hn. pose proof (pos_align p Hok). pose proof (po_size _ Hok). pose proof (po_cap _ Hok).
  apply set_pos_ok; [|done]. destruct (Z.leb_spec (pc_pos p + n) (pc_size p)); lia.
Qed.

(** *** Any read keeps the parcel well formed *)

Lemma t_read_int_ok ptr p (Q : Z → parcel → Prop) :
  ptr ≠ 0 → parcel_ok p → (∀ z p', parcel_ok p' → in_s32 z → Q z p') → triple (Parcel_nativeReadInt ptr) ptr p Q.
Proof.
  intros Hptr Hok HQ. unfold Parcel_nativeReadInt. eapply (t_bind _ _ _ _ (λ _ p', parcel_ok p')).
  - apply t_read_word; [done|done|lia| |done]. intros bs _ Hs. apply set_pos_ok; [|done].
    pose proof (pos_align p Hok). pose proof (po_size _ Hok). pose proof (po_cap _ Hok). lia.
  - intros z p' Hok'. apply t_ret, HQ; [done|]. apply s32_range.
Qed.
Lemma t_read_long_ok ptr p : ptr ≠ 0 → parcel_ok p → triple (Parcel_nativeReadLong ptr) ptr p (λ _ p', parcel_ok p').
Proof.
  intros Hptr Hok. unfold Parcel_nativeReadLong. eapply (t_bind _ _ _ _ (λ _ p', parcel_ok p')).
  - apply t_read_word; [done|done|lia| |done]. intros bs _ Hs. apply set_pos_ok; [|done].
    pose proof (pos_align p Hok). pose proof (po_size _ Hok). pose proof (po_cap _ Hok). lia.
  - intros z p' Hok'. by apply t_ret.
Qed.

Lemma t_read_chars_ok {A} ptr p len pad (v : list Z → A) :
  parcel_ok p → 0 <= len <= 2 ^ 43 → pc_pos p + len <= pc_size p → 0 <= pad <= 2 ^ 44 →
  triple (bs ← lift (slice (pc_data p) (pc_pos p) len); skip ptr pad ≫= λ _, mret (v bs)) ptr p (λ _ p', parcel_ok p').
Proof.
  intros Hok Hl Hs Hp. pose proof (pos_align p Hok). pose proof (po_size _ Hok).
  destruct (slice_in (pc_data p) (pc_pos p) len) as [bs Hbs]; [lia|unfold capacity in *; lia|].
  apply (t_lift _ _ _ _ _ _ Hbs). apply (t_bind _ _ _ _ (λ _ p', parcel_ok p')); [|intros; by apply t_ret].
  apply t_skip; [done|done|]. apply skip_ok; [done|lia].
Qed.

Lemma t_read_string8_ok ptr p : ptr ≠ 0 → parcel_ok p →
  triple (Parcel_nativeReadString8 alloc_ok ptr) ptr p (λ _ p', parcel_ok p').
Proof.
  intros Hptr Hok. unfold Parcel_nativeReadString8. rewrite (proj2 (Z.eqb_neq _ _) Hptr).
  apply (t_bind _ _ _ _ (λ z p', parcel_ok p' ∧ in_s32 z)); [apply t_read_int_ok; [done|done|by split]|].
  intros len p1 [Hok1 Hlen]. unfold in_s32 in Hlen.
  destruct (Z.ltb_spec len 0); [by apply t_ret|]. destruct (Z.eqb_spec len 0).
  { apply (t_bind _ _ _ _ (λ _ p', parcel_ok p')); [|intros; by apply t_ret].
    apply t_skip; [done|lia|]. apply skip_ok; [done|lia]. }
  cbv zeta. apply t_use. pose proof (pos_align p1 Hok1). rewrite (u64_small (_ + len)) by (unfold in_u64; lia).
  destruct (Z.ltb_spec (pc_size p1) (pc_pos p1 + len)); [by apply t_ret|]. apply t_alloc. intros k.
  destruct (alloc_ok k (len + 1)); [|by apply t_ret]. cbn [negb].
  pose proof (align4_range (len + 1) ltac:(lia)).
  apply (t_read_chars_ok ptr p1 len (align4 (len + 1)) (λ bs, Some (c_string bs))); [done|lia|done|lia].
Qed.
Lemma t_read_string16_ok ptr p : ptr ≠ 0 → parcel_ok p →
  triple (Parcel_nativeReadString16 ptr) ptr p (λ _ p', parcel_ok p').
Proof.
  intros Hptr Hok. unfold Parcel_nativeReadString16. rewrite (proj2 (Z.eqb_neq _ _) Hptr).
  apply (t_bind _ _ _ _ (λ z p', parcel_ok p' ∧ in_s32 z)); [apply t_read_int_ok; [done|done|by split]|].
  intros len p1 [Hok1 Hlen]. unfold in_s32 in Hlen.
  destruct (Z.ltb_spec len 0); [by apply t_ret|]. destruct (Z.eqb_spec len 0).
  { apply (t_bind _ _ _ _ (λ _ p', parcel_ok p')); [|intros; by apply t_ret].
    apply t_skip; [done|lia|]. apply skip_ok; [done|lia]. }
  cbv zeta. apply t_use. pose proof (pos_align p1 Hok1). rewrite (u64_small (_ + len * 2)) by (unfold in_u64; lia).
  destruct (Z.ltb_spec (pc_size p1) (pc_pos p1 + len * 2)); [by apply t_ret|].
  pose proof (align4_range ((len + 1) * 2) ltac:(lia)).
  apply (t_read_chars_ok ptr p1 (len * 2) (align4 ((len + 1) * 2)) (λ bs, Some (words_of 2 (Z.to_nat len) bs)));
    [done|lia|done|lia].
Qed.

(** ** The life of a parcel *)

(** The calls on a parcel between its creation and its destruction. *)
Inductive pcall :=
| CWrite (it : item)
| CWriteToken (s : option (list Z))
| CRead (it : item)
| CEnforce
| CSetPosition (pos : Z)
| CSetSize (size : Z)
| CSetCapacity (size : Z)
| CFreeBuffer
| CQuery.

Definition run_call (ptr : Z) (c : pcall) : P () :=
  match c with
  | CWrite it => write_item ptr it
  | CWriteToken s => Parcel_nativeWriteInterfaceToken alloc_ok ptr s
  | CRead it => read_item ptr it ≫= λ _, mret ()
  | CEnforce => Parcel_nativeEnforceInterface ptr
  | CSetPosition pos => Parcel_nativeSetDataPosition ptr pos
  | CSetSize size => Parcel_nativeSetDataSize alloc_ok ptr size
  | CSetCapacity size => Parcel_nativeSetDataCapacity alloc_ok ptr size
  | CFreeBuffer => Parcel_nativeFreeBuffer ptr
  | CQuery => Parcel_nativeDataAvail ptr ≫= λ _, mret ()
  end.
(** Arguments of their Java types; when the size is set the memory for it is
    there. *)
Definition call_ok (c : pcall) : Prop :=
  match c with
  | CWrite it => item_ok it
  | CWriteToken s => item_ok (IStr16 s)
  | CSetPosition pos => in_s32 pos
  | CSetCapacity size => in_s32 size
  | CSetSize size => in_s32 size ∧ ∀ n sz, sz <= 2 * size + 128 → alloc_ok n sz = true
  | _ => True
  end.

Lemma grown_ok k p : parcel_ok p → capacity (grown k p) <= 2 ^ 42 → parcel_ok (grown k p).
Proof. intros [H1 H2 H3 H4] Hc. pose proof (capacity_grown k p). split; [cbn; lia|done|done|done]. Qed.

Lemma t_grow_ok ptr p needed :
  parcel_ok p → 0 <= needed <= 2 ^ 44 →
  triple (muplar_parcel_grow alloc_ok ptr needed) ptr p (λ ok p', parcel_ok p' ∧ (∃ k, p' = grown k p) ∧
    (ok = true ∧ needed <= capacity p' ∨ refused (2 * needed + 128))).
Proof.
  intros Hok Hn. apply t_grow; [done|done| |].
  - intros k H1 _ H2. split; [|split; [by exists k|by left]]. apply grown_ok; [done|].
    destruct H2 as [->|[n Hk]]; [|by eapply alloc_big]. rewrite capacity_grown. pose proof (po_cap _ Hok). lia.
  - intros (n & sz & Hsz & Hk). split; [done|]. split; [exists 0%nat|right; exists n, sz; split; [lia|done]].
    unfold grown, set_data. cbn. rewrite app_nil_r. by destruct p.
Qed.

Lemma t_call ptr p c : ptr ≠ 0 → parcel_ok p → call_ok c → triple (run_call ptr c) ptr p (λ _ p', parcel_ok p').
Proof.
  intros Hptr Hok Hc. assert (ptr =? 0 = false) as E0 by lia.
  assert (∀ q it, parcel_ok q → item_ok it → triple (write_item ptr it) ptr q (λ _ p', parcel_ok p')) as Hwr.
  { intros q it Hq Hit. apply t_write_item; [done|done|done| |done]. intros _ p' Hw. by eapply wt_ok. }
  assert (parcel_ok (Parcel [] 0 0 [] 0)) as Hnew by (split; unfold capacity; cbn; lia).
  destruct c as [it|s|it| |pos|size|size| |]; cbn [run_call call_ok] in *.
  - by apply Hwr.
  - unfold Parcel_nativeWriteInterfaceToken. apply (t_bind _ _ _ _ (λ _ p', parcel_ok p')).
    + apply t_write_word; [done|done|lia|intros p' Hw; by eapply wr_ok|done].
    + intros _ p' Hp'. by apply (Hwr p' (IStr16 s)).
  - apply (t_bind _ _ _ _ (λ _ p', parcel_ok p')); [|intros; by apply t_ret].
    destruct it as [z|z|o|o|o]; cbn [read_item]; apply (t_bind _ _ _ _ (λ _ p', parcel_ok p'));
      try (intros; by apply t_ret).
    + by apply t_read_int_ok.
    + by apply t_read_long_ok.
    + by apply t_read_string8_ok.
    + by apply t_read_string16_ok.
    + unfold Parcel_nativeReadStrongBinder. rewrite E0. apply (t_bind _ _ _ _ (λ _ p', parcel_ok p')); [by apply t_read_int_ok|].
      intros z p' Hp'. destruct (z <? 0); [by apply t_ret|]. by apply t_use, t_ret.
  - unfold Parcel_nativeEnforceInterface. apply (t_bind _ _ _ _ (λ _ p', parcel_ok p')); [by apply t_read_int_ok|].
    intros _ p' Hp'. apply (t_bind _ _ _ _ (λ _ p', parcel_ok p')); [by apply t_read_string16_ok|]. intros. by apply t_ret.
  - unfold Parcel_nativeSetDataPosition. rewrite E0. cbn [orb]. destruct (Z.ltb_spec pos 0); [by apply t_ret|].
    apply t_use, t_assign; [done|]. apply set_pos_ok; [unfold in_s32 in Hc; lia|done].
  - destruct Hc as [Hs Ha]. unfold in_s32 in Hs. unfold Parcel_nativeSetDataSize. rewrite E0. cbn [orb].
    destruct (Z.ltb_spec size 0); [by apply t_ret|]. apply t_use.
    apply (t_bind _ _ _ _ (λ _ p', parcel_ok p' ∧ size <= capacity p')).
    + destruct (Z.ltb_spec (capacity p) size); [|by apply t_ret].
      eapply t_bind; [apply t_grow_ok; [done|lia]|]. intros ok p' (Hp' & _ & Hcap). apply t_ret. split; [done|].
      destruct Hcap as [[_ Hcap]|(n & sz & Hsz & Hk)]; [done|]. by rewrite Ha in Hk.
    + intros _ p' [Hp' Hcap]. apply t_use, t_assign; [done|]. destruct Hp' as [H1 H2 H3 H4].
      split; [done|done| |done]. cbn. destruct (Z.ltb_spec size (pc_pos p')); lia.
  - unfold in_s32 in Hc. unfold Parcel_nativeSetDataCapacity. rewrite E0. cbn [orb].
    destruct (Z.leb_spec size 0); [by apply t_ret|]. eapply t_bind; [apply t_grow_ok; [done|lia]|].
    intros ok p' (Hp' & _). by apply t_ret.
  - unfold Parcel_nativeFreeBuffer. rewrite E0. apply t_use.
    intros s Hs. eexists (), _, (Parcel [] 0 0 [] 0). split; [reflexivity|]. cbn.
    split; [done|]. split; [unfold live_refs at 2; cbn; lia|done].
  - apply (t_bind _ _ _ _ (λ _ p', parcel_ok p')); [|intros; by apply t_ret].
    unfold Parcel_nativeDataAvail, query. rewrite E0. by apply t_use, t_ret.
Qed.

Definition run_calls (ptr : Z) (l : list pcall) : P () := for_each (run_call ptr) l.
Lemma t_calls ptr p l : ptr ≠ 0 → parcel_ok p → Forall call_ok l → triple (run_calls ptr l) ptr p (λ _ p', parcel_ok p').
Proof.
  intros Hptr Hok Hl. revert p Hok. induction Hl as [|c l Hc _ IH]; intros p Hok; [by apply t_ret|].
  unfold run_calls. cbn [for_each]. eapply t_bind; [by apply t_call|]. intros [] p' Hp'. by apply IH.
Qed.


(** *** What is stored is read *)

Lemma t_read_int ptr p z (Q : Z → parcel → Prop) :
  ptr ≠ 0 → parcel_ok p → in_s32 z → has p (align4 (pc_pos p)) (le_split 4 z) →
  align4 (pc_pos p) + 4 <= pc_size p → Q z (set_pos (align4 (pc_pos p) + 4) p) →
  triple (Parcel_nativeReadInt ptr) ptr p Q.
Proof.
  intros Hptr Hok Hz Hh Hs HQ. unfold Parcel_nativeReadInt.
  apply (t_bind _ _ _ _ (λ v p', s32 v = z ∧ p' = set_pos (align4 (pc_pos p) + 4) p)).
  - apply t_read_word; [done|done|lia| |].
    + intros bs Hbs _. unfold has in Hh. rewrite length_le_split in Hh. change (Z.of_nat 4) with 4 in *.
      rewrite Hbs in Hh. apply (inj Some) in Hh. subst bs. split; [|done]. rewrite le_combine_split.
      change (256 ^ Z.of_nat 4) with 4294967296. rewrite <- (s32_small z Hz) at 2. unfold s32.
      by rewrite Z.add_mod_idemp_l.
    + change (Z.of_nat 4) with 4. lia.
  - intros v p' [Hv ->]. apply t_ret. by rewrite Hv.
Qed.
Lemma t_read_long ptr p z (Q : Z → parcel → Prop) :
  ptr ≠ 0 → parcel_ok p → in_s64 z → has p (align4 (pc_pos p)) (le_split 8 z) →
  align4 (pc_pos p) + 8 <= pc_size p → Q z (set_pos (align4 (pc_pos p) + 8) p) →
  triple (Parcel_nativeReadLong ptr) ptr p Q.
Proof.
  intros Hptr Hok Hz Hh Hs HQ. unfold Parcel_nativeReadLong.
  apply (t_bind _ _ _ _ (λ v p', s64 v = z ∧ p' = set_pos (align4 (pc_pos p) + 8) p)).
  - apply t_read_word; [done|done|lia| |].
    + intros bs Hbs _. unfold has in Hh. rewrite length_le_split in Hh. change (Z.of_nat 8) with 8 in *.
      rewrite Hbs in Hh. apply (inj Some) in Hh. subst bs. split; [|done]. rewrite le_combine_split.
      change (256 ^ Z.of_nat 8) with 18446744073709551616. rewrite <- (s64_small z Hz) at 2. unfold s64.
      by rewrite Z.add_mod_idemp_l.
    + change (Z.of_nat 8) with 8. lia.
  - intros v p' [Hv ->]. apply t_ret. by rewrite Hv.
Qed.

Lemma has_prefix p off a b : has p off (a ++ b) → slice (pc_data p) off (Z.of_nat (length a)) = Some a.
Proof.
  unfold has. rewrite length_app. intros H. apply slice_Some in H as (H1 & H2 & H3). apply slice_Some.
  split; [done|]. split; [lia|]. rewrite Nat2Z.id in *.
  assert (take (length a) (a ++ b) = a) as Ha by apply take_app_length. rewrite <- Ha at 1. rewrite H3, take_take.
  f_equal. lia.
Qed.

Lemma c_string_id cs : cstring cs → c_string cs = cs.
Proof.
  induction 1 as [|c cs Hc _ IH]; [done|]. cbn. rewrite (proj2 (Z.eqb_neq c 0)) by lia. by rewrite IH.
Qed.
Lemma words_of_bytes cs : Forall in_u16 cs → words_of 2 (length cs) (word_bytes 2 cs) = cs.
Proof.
  induction 1 as [|c cs Hc _ IH]; [done|]. unfold word_bytes in *. cbn [fmap list_fmap concat length words_of].
  assert (length (le_split 2 c) = 2%nat) as Hl by apply length_le_split.
  rewrite take_app_length', drop_app_length' by done. rewrite IH, le_combine_split.
  change (256 ^ Z.of_nat 2) with 65536. by rewrite Z.mod_small by exact Hc.
Qed.

(** The characters behind a length. *)
Lemma t_read_chars {A} ptr p len pad bs (v : list Z → A) (Q : A → parcel → Prop) :
  parcel_ok p → slice (pc_data p) (pc_pos p) len = Some bs → 0 <= pad <= 2 ^ 44 → pc_pos p + pad <= pc_size p →
  Q (v bs) (set_pos (pc_pos p + pad) p) →
  triple (bs ← lift (slice (pc_data p) (pc_pos p) len); skip ptr pad ≫= λ _, mret (v bs)) ptr p Q.
Proof.
  intros Hok Hs Hp Hle HQ. apply (t_lift _ _ _ _ _ _ Hs).
  apply (t_bind _ _ _ _ (λ _ p', p' = set_pos (pc_pos p + pad) p)); [|intros _ p' ->; by apply t_ret].
  apply t_skip; [done|done|]. by rewrite (proj2 (Z.leb_le _ _)) by lia.
Qed.

(** Allocations up to [2 ^ 41] succeed. *)
Hypothesis alloc_small : ∀ n sz, sz <= 2 ^ 41 → alloc_ok n sz = true.

Lemma t_read_string8 ptr p cs (Q : option (list Z) → parcel → Prop) :
  ptr ≠ 0 → parcel_ok p → item_ok (IStr8 (Some cs)) → stored p (pc_pos p) (IStr8 (Some cs)) →
  Q (Some cs) (set_pos (next_pos (pc_pos p) (IStr8 (Some cs))) p) →
  triple (Parcel_nativeReadString8 alloc_ok ptr) ptr p Q.
Proof.
  intros Hptr Hok [Hcs Hlen] [Hsz [Hh1 Hh2]] HQ. unfold next_pos in *. pose proof (pos_align p Hok).
  pose proof (po_size _ Hok). pose proof (po_cap _ Hok).
  destruct (align4_range (Z.of_nat (length cs) + 1)) as [Hal _]; [lia|].
  unfold Parcel_nativeReadString8. rewrite (proj2 (Z.eqb_neq _ _) Hptr).
  set (q := align4 (pc_pos p) + 4) in *.
  apply (t_bind _ _ _ _ (λ z p', z = Z.of_nat (length cs) ∧ p' = set_pos q p)).
  { eapply t_read_int; [done|done| |exact Hh1|unfold q in *; lia|done]. unfold in_s32; lia. }
  intros len p1 [-> ->]. rewrite (proj2 (Z.ltb_ge _ _)) by lia.
  assert (parcel_ok (set_pos q p)) as Hok1 by (apply set_pos_ok; [unfold q; lia|done]).
  assert (q + align4 (Z.of_nat (length cs) + 1) = align4 (pc_pos p) + (4 + align4 (Z.of_nat (length cs) + 1))) as Eq
    by (unfold q; lia).
  destruct (Z.eqb_spec (Z.of_nat (length cs)) 0) as [E0|E0].
  { destruct cs as [|]; [|cbn in E0; lia]. change (align4 (Z.of_nat (length []) + 1)) with 4 in *.
    apply (t_bind _ _ _ _ (λ _ p', p' = set_pos (q + 4) p)); [|intros _ p' ->; apply t_ret; by rewrite Eq].
    apply t_skip; [done|lia|]. cbn [pc_pos set_pos]. rewrite (proj2 (Z.leb_le (q + 4) _)) by (cbn; lia). done. }
  cbv zeta. apply t_use. cbn [pc_pos set_pos pc_size]. rewrite (u64_small (q + _)) by (unfold in_u64; lia).
  rewrite (proj2 (Z.ltb_ge _ _)) by lia. apply t_alloc. intros k. rewrite alloc_small by lia. cbn [negb].
  apply (t_read_chars ptr (set_pos q p) (Z.of_nat (length cs)) _ cs (λ bs, Some (c_string bs))); [done| |lia|cbn; lia|].
  - by eapply (has_prefix p q cs).
  - rewrite c_string_id by done. cbn [pc_pos set_pos]. rewrite Eq. exact HQ.
Qed.

Lemma t_read_string16 ptr p cs (Q : option (list Z) → parcel → Prop) :
  ptr ≠ 0 → parcel_ok p → item_ok (IStr16 (Some cs)) → stored p (pc_pos p) (IStr16 (Some cs)) →
  Q (Some cs) (set_pos (next_pos (pc_pos p) (IStr16 (Some cs))) p) →
  triple (Parcel_nativeReadString16 ptr) ptr p Q.
Proof.
  intros Hptr Hok [Hcs Hlen] [Hsz [Hh1 Hh2]] HQ. unfold next_pos in *. pose proof (pos_align p Hok).
  pose proof (po_size _ Hok). pose proof (po_cap _ Hok).
  destruct (align4_range ((Z.of_nat (length cs) + 1) * 2)) as [Hal _]; [lia|].
  unfold Parcel_nativeReadString16. rewrite (proj2 (Z.eqb_neq _ _) Hptr).
  set (q := align4 (pc_pos p) + 4) in *.
  apply (t_bind _ _ _ _ (λ z p', z = Z.of_nat (length cs) ∧ p' = set_pos q p)).
  { eapply t_read_int; [done|done| |exact Hh1|unfold q in *; lia|done]. unfold in_s32; lia. }
  intros len p1 [-> ->]. rewrite (proj2 (Z.ltb_ge _ _)) by lia.
  assert (parcel_ok (set_pos q p)) as Hok1 by (apply set_pos_ok; [unfold q; lia|done]).
  assert (q + align4 ((Z.of_nat (length cs) + 1) * 2) = align4 (pc_pos p) + (4 + align4 ((Z.of_nat (length cs) + 1) * 2)))
    as Eq by (unfold q; lia).
  destruct (Z.eqb_spec (Z.of_nat (length cs)) 0) as [E0|E0].
  { destruct cs as [|]; [|cbn in E0; lia]. change (align4 ((Z.of_nat (length []) + 1) * 2)) with 4 in *.
    apply (t_bind _ _ _ _ (λ _ p', p' = set_pos (q + 4) p)); [|intros _ p' ->; apply t_ret; by rewrite Eq].
    apply t_skip; [done|lia|]. cbn [pc_pos set_pos]. rewrite (proj2 (Z.leb_le (q + 4) _)) by (cbn; lia). done. }
  cbv zeta. apply t_use. cbn [pc_pos set_pos pc_size]. rewrite (u64_small (q + _)) by (unfold in_u64; lia).
  rewrite (proj2 (Z.ltb_ge _ _)) by lia. rewrite Nat2Z.id.
  apply (t_read_chars ptr (set_pos q p) _ _ (word_bytes 2 cs) (λ bs, Some (words_of 2 (length cs) bs)));
    [done| |lia|cbn; lia|].
  - pose proof (has_prefix p q (word_bytes 2 cs) [0; 0] Hh2) as Hp. rewrite length_word_bytes in Hp.
    cbn [pc_data pc_pos set_pos]. by replace (Z.of_nat (length cs) * 2) with (Z.of_nat (2 * length cs)) by lia.
  - rewrite words_of_bytes by done. cbn [pc_pos set_pos]. rewrite Eq. exact HQ.
Qed.

Lemma t_read_item ptr p it (Q : item → parcel → Prop) :
  ptr ≠ 0 → parcel_ok p → item_ok it → stored p (pc_pos p) it →
  Q it (set_pos (next_pos (pc_pos p) it) p) → triple (read_item ptr it) ptr p Q.
Proof.
  intros Hptr Hok Hi Hst HQ. assert (ptr =? 0 = false) as E0 by lia.
  assert (∀ z, in_s32 z → has p (align4 (pc_pos p)) (le_split 4 z) → align4 (pc_pos p) + 4 <= pc_size p →
    triple (Parcel_nativeReadInt ptr) ptr p (λ v p', v = z ∧ p' = set_pos (align4 (pc_pos p) + 4) p)) as Hint.
  { intros z Hz Hh Hs. by eapply t_read_int. }
  assert (in_s32 (-1)) as Hm by (unfold in_s32; lia).
  destruct it as [z|z|[cs|]|[cs|]|[b|]]; cbn [read_item].
  - destruct Hst as [Hs Hh]. eapply t_bind; [by apply (Hint z)|]. intros v p' [-> ->]. by apply t_ret.
  - destruct Hst as [Hs Hh].
    apply (t_bind _ _ _ _ (λ v p', v = z ∧ p' = set_pos (align4 (pc_pos p) + 8) p)); [by eapply t_read_long|].
    intros v p' [-> ->]. by apply t_ret.
  - apply (t_bind _ _ _ _ (λ v p', v = Some cs ∧ p' = set_pos (next_pos (pc_pos p) (IStr8 (Some cs))) p));
      [by eapply t_read_string8|]. intros v p' [-> ->]. by apply t_ret.
  - destruct Hst as [Hs Hh]. unfold Parcel_nativeReadString8. rewrite E0.
    apply (t_bind _ _ _ _ (λ v p', v = None ∧ p' = set_pos (align4 (pc_pos p) + 4) p)).
    + eapply t_bind; [by apply (Hint (-1))|]. intros v p' [-> ->]. by apply t_ret.
    + intros v p' [-> ->]. by apply t_ret.
  - apply (t_bind _ _ _ _ (λ v p', v = Some cs ∧ p' = set_pos (next_pos (pc_pos p) (IStr16 (Some cs))) p));
      [by eapply t_read_string16|]. intros v p' [-> ->]. by apply t_ret.
  - destruct Hst as [Hs Hh]. unfold Parcel_nativeReadString16. rewrite E0.
    apply (t_bind _ _ _ _ (λ v p', v = None ∧ p' = set_pos (align4 (pc_pos p) + 4) p)).
    + eapply t_bind; [by apply (Hint (-1))|]. intros v p' [-> ->]. by apply t_ret.
    + intros v p' [-> ->]. by apply t_ret.
  - destruct Hst as (Hs & i & Hi' & Hh & Hb). unfold Parcel_nativeReadStrongBinder. rewrite E0.
    apply (t_bind _ _ _ _ (λ v p', v = Some b ∧ p' = set_pos (align4 (pc_pos p) + 4) p)).
    + eapply t_bind; [apply (Hint (Z.of_nat i)); [unfold in_s32; lia|done|done]|]. intros v p' [-> ->].
      rewrite (proj2 (Z.ltb_ge _ _)) by lia. apply t_use, t_ret. cbn [pc_binders set_pos].
      rewrite Nat2Z.id, Hb. done.
    + intros v p' [-> ->]. by apply t_ret.
  - destruct Hst as [Hs Hh]. unfold Parcel_nativeReadStrongBinder. rewrite E0.
    apply (t_bind _ _ _ _ (λ v p', v = None ∧ p' = set_pos (align4 (pc_pos p) + 4) p)).
    + eapply t_bind; [by apply (Hint (-1))|]. intros v p' [-> ->]. by apply t_ret.
    + intros v p' [-> ->]. by apply t_ret.
Qed.

(** ** Lists of values *)

Definition write_items (ptr : Z) (items : list item) : P () := for_each (write_item ptr) items.
Fixpoint read_items (ptr : Z) (items : list item) : P (list item) :=
  match items with
  | [] => mret []
  | it :: items => v ← read_item ptr it; vs ← read_items ptr items; mret (v :: vs)
  end.
Fixpoint all_stored (p : parcel) (pos : Z) (items : list item) : Prop :=
  match items with
  | [] => True
  | it :: items => stored p pos it ∧ all_stored p (next_pos pos it) items
  end.
(** The values end below half a terabyte. *)
Fixpoint room (pos : Z) (items : list item) : Prop :=
  match items with
  | [] => True
  | it :: items => next_pos pos it <= 2 ^ 39 ∧ room (next_pos pos it) items
  end.
(** The reference to a binder can be made. *)
Definition ref_ok (it : item) : Prop :=
  match it with IBinder (Some b) => new_global_ref b = true | _ => True end.

Lemma next_pos_ge pos it : 0 <= pos < 2 ^ 45 → item_ok it → pos < next_pos pos it.
Proof.
  intros Hp Hi. unfold next_pos. pose proof (align4_range pos ltac:(lia)).
  destruct it as [z|z|[cs|]|[cs|]|[b|]]; cbn in Hi; try lia.
  - pose proof (align4_range (Z.of_nat (length cs) + 1) ltac:(lia)). lia.
  - pose proof (align4_range ((Z.of_nat (length cs) + 1) * 2) ltac:(lia)). lia.
Qed.

Lemma all_stored_set_pos p z items pos : all_stored p pos items → all_stored (set_pos z p) pos items.
Proof.
  revert pos. induction items as [|it items IH]; intros pos; [done|]. intros [H1 H2]. split; [exact H1|by apply IH].
Qed.

Lemma t_write_items ptr items p (Q : () → parcel → Prop) :
  ptr ≠ 0 → parcel_ok p → Forall item_ok items → Forall ref_ok items → room (pc_pos p) items →
  Z.of_nat (length (pc_binders p) + length items) <= 2147483647 →
  (∀ p', all_stored p' (pc_pos p) items → later (pc_pos p) p p' → parcel_ok p' → Q () p') →
  triple (write_items ptr items) ptr p Q.
Proof.
  intros Hptr. revert p Q. induction items as [|it items IH]; intros p Q Hok Hi Hr Hroom Hn HQ.
  { apply t_ret. apply HQ; [done|apply later_refl|done]. }
  apply Forall_cons in Hi as [Hit Hi]. apply Forall_cons in Hr as [Hrt Hr]. destruct Hroom as [Hlt Hroom].
  cbn [length] in Hn. pose proof (pos_align p Hok).
  assert (exact p it) as Hex by (destruct it as [| | | |[b|]]; try done; split; [exact Hrt|lia]).
  unfold write_items. cbn [for_each]. apply (t_bind _ _ _ _ (λ _ p1, wrote p p1 it)).
  { apply t_write_item; [done|done|done|done|]. intros [(k & sz & Hsz & Hk)|Hne]; [|done].
    rewrite alloc_small in Hk; [done|]. unfold write_limit in Hsz. lia. }
  intros [] p1 [W1 W2 W3 W4 W5]. rewrite <- W2 in Hroom. apply IH; [done|done|done|done|lia|].
  intros p' Hall Hlater Hok'. rewrite W2 in *. pose proof (next_pos_ge (pc_pos p) it ltac:(lia) Hit).
  apply HQ; [split; [|exact Hall]| |done].
  - eapply stored_later; [|done|exact W1| |exact Hlater]; lia.
  - eapply later_trans; [|exact W3|exact Hlater]. lia.
Qed.

Lemma t_read_items ptr items p (Q : list item → parcel → Prop) :
  ptr ≠ 0 → parcel_ok p → Forall item_ok items → room (pc_pos p) items → all_stored p (pc_pos p) items →
  (∀ pos, Q items (set_pos pos p)) → triple (read_items ptr items) ptr p Q.
Proof.
  intros Hptr Hok Hi. revert p Q Hok. induction Hi as [|it items Hit _ IH]; intros p Q Hok Hroom Hst HQ.
  { apply t_ret. specialize (HQ (pc_pos p)). by destruct p. }
  destruct Hst as [Hst Hall], Hroom as [Hlt Hroom]. cbn [read_items]. pose proof (pos_align p Hok).
  pose proof (next_pos_ge (pc_pos p) it ltac:(lia) Hit).
  apply (t_bind _ _ _ _ (λ v p', v = it ∧ p' = set_pos (next_pos (pc_pos p) it) p)); [by apply t_read_item|].
  intros v p' [-> ->]. apply (t_bind _ _ _ _ (λ vs p', vs = items ∧ ∃ pos, p' = set_pos pos p)).
  - apply IH; [apply set_pos_ok; [lia|done]|done| |].
    + by apply all_stored_set_pos.
    + intros pos. split; [done|]. by exists pos.
  - intros vs p' [-> [pos ->]]. by apply t_ret.
Qed.

(** C13. Round trip: integers, longs, strings in both encodings, null strings
    and binders, written one after the other at any position of a parcel and
    read back from there, come back as they were, in order; nothing below the
    position, no other parcel and no binder stored before changes. *)
Theorem parcel_roundtrip ptr p items (s : heap) :
  hp_parcels s !! ptr = Some p → ptr ≠ 0 → parcel_ok p → pc_pos p <= 2147483647 →
  Forall item_ok items → Forall ref_ok items → room (pc_pos p) items →
  Z.of_nat (length (pc_binders p) + length items) <= 2147483647 →
  ∃ s' p', (write_items ptr items ≫= λ _, Parcel_nativeSetDataPosition ptr (pc_pos p) ≫= λ _,
            read_items ptr items) s = Done items s' ∧
    hp_parcels s' = <[ptr := p']> (hp_parcels s) ∧ later (pc_pos p) p p' ∧
    hp_refs s' = hp_refs s + (live_refs p' - live_refs p).
Proof.
  intros Hs Hptr Hok _ Hi Hr Hroom Hn.
  assert (triple (write_items ptr items ≫= λ _, Parcel_nativeSetDataPosition ptr (pc_pos p) ≫= λ _,
    read_items ptr items) ptr p (λ vs p', vs = items ∧ later (pc_pos p) p p')) as Ht.
  2: { destruct (Ht s Hs) as (vs & s' & p' & E & H1 & H2 & -> & H3). by exists s', p'. }
  eapply t_bind; [apply t_write_items with (Q := λ _ p', all_stored p' (pc_pos p) items ∧ later (pc_pos p) p p' ∧ parcel_ok p'); done|].
  intros _ p1 (Hall & Hlater & Hok1). pose proof (pos_align p Hok).
  apply (t_bind _ _ _ _ (λ _ p', p' = set_pos (pc_pos p) p1)).
  { unfold Parcel_nativeSetDataPosition. rewrite (proj2 (Z.eqb_neq _ _) Hptr), (proj2 (Z.ltb_ge _ _)) by lia.
    by apply t_use, t_assign. }
  intros _ p' ->. apply t_read_items; [done|apply set_pos_ok; [lia|done]|done|done| |].
  - by apply all_stored_set_pos.
  - intros pos. split; [done|]. by destruct Hlater.
Qed.
End Props.

(** Setting the size of a parcel breaks it when memory runs out: the
    growth that failed is not looked at, the size is set all the same, and the
    next read of a number behind the old capacity leaves the array. *)
Theorem set_size_breaks {obj : Type} alloc_ok ptr (p : @parcel obj) size (s : @heap obj) :
  hp_parcels s !! ptr = Some p → ptr ≠ 0 → parcel_ok p →
  (∀ n sz, size <= sz → alloc_ok n sz = false) → size <= 2147483647 →
  capacity p < align4 (pc_pos p) + 4 → align4 (pc_pos p) + 4 <= size →
  (Parcel_nativeSetDataSize alloc_ok ptr size ≫= λ _, Parcel_nativeReadInt ptr) s = Fault.
Proof.
  intros Hs Hptr Hok Ha Hmax Hcap Hsize. pose proof (pos_align p Hok) as Hpos.
  destruct (t_grow alloc_ok ptr p size (λ ok p', ok = false ∧ p' = p) Hok) with (s := s)
    as (ok & s1 & p1 & E & H1 & _ & -> & ->); [lia| |done|done|].
  { intros k Hk _ [->|[n Hn]]; [rewrite capacity_grown in Hk; lia|]. by rewrite Ha in Hn. }
  rewrite insert_id in H1 by done. unfold Parcel_nativeSetDataSize, Parcel_nativeReadInt, read_word.
  rewrite (proj2 (Z.eqb_neq _ _) Hptr), (proj2 (Z.ltb_ge size 0)) by lia. cbn [orb].
  unfold use, assign, get, lift, modify, mret, mbind, M_bind, M_ret. rewrite Hs.
  rewrite (proj2 (Z.ltb_lt (capacity p) size)) by lia. rewrite E, H1, Hs. cbn [hp_parcels].
  rewrite lookup_insert_eq. cbn [pc_pos pc_size pc_data]. rewrite (proj2 (Z.ltb_ge size (pc_pos p))) by lia.
  change (Z.of_nat 4) with 4. rewrite (u64_small (align4 (pc_pos p) + 4)) by (unfold in_u64; lia). rewrite (proj2 (Z.ltb_ge size _)) by lia.
  unfold slice. rewrite (proj2 (Z.leb_gt _ (Z.of_nat (length (pc_data p))))) by (unfold capacity in Hcap; lia).
  by rewrite andb_false_r.
Qed.

(** ** Witnesses *)

(** An allocator, and a heap with one parcel that was created just now. *)
Definition some_memory (n : nat) (size : Z) : bool := size <=? 2 ^ 42.
Definition new_parcel : @parcel nat := Parcel [] 0 0 [] 0.
Definition one_parcel : @heap nat := Heap {[ 4096 := new_parcel ]} 0 0.
Lemma new_parcel_ok : parcel_ok new_parcel.
Proof. split; unfold capacity; cbn; lia. Qed.

(** Witness of [parcel_roundtrip]. *)
Definition demo_items : list (@item nat) :=
  [IInt (-5); IStr8 (Some [104; 105]); ILong (-1); IBinder (Some 7%nat); IStr16 (Some [0; 955]); IStr16 None; IStr8 (Some [])].
Lemma parcel_roundtrip_witness :
  ∃ s' p', (write_items some_memory (λ _, true) 4096 demo_items ≫= λ _,
            Parcel_nativeSetDataPosition 4096 (pc_pos new_parcel) ≫= λ _,
            read_items some_memory 4096 demo_items) one_parcel = Done demo_items s' ∧
    hp_parcels s' = <[4096 := p']> (hp_parcels one_parcel) ∧ later (pc_pos new_parcel) new_parcel p' ∧
    hp_refs s' = hp_refs one_parcel + (live_refs p' - live_refs new_parcel).
Proof.
  apply (parcel_roundtrip some_memory (λ _, true)).
  - intros n sz. unfold some_memory. lia.
  - intros n sz. unfold some_memory. lia.
  - apply lookup_singleton_eq.
  - lia.
  - apply new_parcel_ok.
  - cbn. lia.
  - unfold demo_items, item_ok, cstring, in_s32, in_s64, in_u16. repeat (apply Forall_cons; split); try apply Forall_nil; try exact I;
      cbn; repeat split; try lia; repeat (apply Forall_cons; split); try apply Forall_nil; try exact I; lia.
  - unfold demo_items, ref_ok. repeat (apply Forall_cons; split); try apply Forall_nil; try exact I; reflexivity.
  - unfold demo_items. vm_compute. repeat split; intros H; discriminate H.
  - vm_compute. intros H; discriminate H.
Defined.


(** Witness of [set_size_breaks]: a new parcel, and no memory. *)
Lemma set_size_breaks_witness :
  (Parcel_nativeSetDataSize (λ _ _, false) 4096 4 ≫= λ _, Parcel_nativeReadInt 4096) one_parcel = Fault.
Proof.
  apply (set_size_breaks (λ _ _, false) 4096 new_parcel 4).
  - apply lookup_singleton_eq.
  - lia.
  - apply new_parcel_ok.
  - intros n sz _. reflexivity.
  - lia.
  - reflexivity.
  - vm_compute. intros H; discriminate H.
Defined.
