(* ===== verification/ShimFrame.v ===== *)
(** * Publishing a frame

    platform/android-aarch64/art-shim/muplar_android_art_shim.c:354-365,
    407-640 and 7912-7983: the pixels of a bitmap are composed over a light
    grey, sent over a socket to the host's window and, when a path is given,
    written to a temporary file that is renamed to it.  The operating system is
    modelled by what the code uses of it: a file is its bytes under its path, a
    connection is the bytes sent over it, and the outcomes of the calls are
    parameters.  Definitions only; ShimFrameProps has the proofs. *)

From S2P Require Import Prelude Machine Float32 ShimTables ShimRaster.

(** A path: its bytes. *)
Definition fpath := list Z.

(** The socket, when there is one, as the bytes sent over it; the streams of
    the connections that were closed; the files; the directories that were
    asked for; the number of calls whose outcome was asked. *)
Record fstate := FState {
  fr_sock : option (list Z);
  fr_closed : list (list Z);
  fr_files : gmap fpath (list Z);
  fr_dirs : list fpath;
  fr_calls : nat
}.

Section Frame.
(** What the [n]th call of write answers when asked for so many bytes; whether
    a call of malloc, open or rename succeeds; whether a connection can be
    made: the path is set, and socket and connect succeed. *)
Variable write_ret : nat → Z → Z.
Variable malloc_ok : nat → Z → bool.
Variable open_ok : nat → bool.
Variable rename_ok : nat → bool.
Variable connect_ok : nat → bool.

Definition Fr := M fstate.
Definition set_sock c s := FState c (fr_closed s) (fr_files s) (fr_dirs s) (fr_calls s).
Definition set_files f s := FState (fr_sock s) (fr_closed s) f (fr_dirs s) (fr_calls s).
Definition add_dir d s := FState (fr_sock s) (fr_closed s) (fr_files s) (fr_dirs s ++ [d]) (fr_calls s).
(** The outcome of the next call. *)
Definition next_call {A} (f : nat → A) : Fr A :=
  s ← get;
  put (FState (fr_sock s) (fr_closed s) (fr_files s) (fr_dirs s) (S (fr_calls s))) ≫= λ _,
  mret (f (fr_calls s)).

(** ** Writing *)

(** Where bytes go: the socket or a file. *)
Inductive sink := Socket | File (path : fpath).
Definition deliver (k : sink) (bs : list Z) (s : fstate) : fstate :=
  match k with
  | Socket => set_sock (option_map (λ old, old ++ bs) (fr_sock s)) s
  | File path => set_files (alter (λ old, old ++ bs) path (fr_files s)) s
  end.
(** platform/android-aarch64/art-shim/muplar_android_art_shim.c:354-365 (muplar_write_all)
    Each round writes at least one byte, so the length bounds the rounds. *)
Fixpoint write_all_go (fuel : nat) (k : sink) (data : list Z) : Fr bool :=
  match data with
  | [] => mret true
  | _ =>
      match fuel with
      | O => out_of_fuel
      | S fuel =>
          written ← next_call (λ n, write_ret n (Z.of_nat (length data)));
          if written <=? 0 then mret false else
          modify (deliver k (take (Z.to_nat written) data)) ≫= λ _,
          write_all_go fuel k (drop (Z.to_nat written) data)
      end
  end.
(** platform/android-aarch64/art-shim/muplar_android_art_shim.c:354-365 (muplar_write_all) *)
Definition muplar_write_all (k : sink) (data : list Z) : Fr bool := write_all_go (length data) k data.

(** platform/android-aarch64/art-shim/muplar_android_art_shim.c:409-435 (muplar_get_frame_socket)
    Whether there is a connection now. *)
Definition muplar_get_frame_socket : Fr bool :=
  s ← get;
  match fr_sock s with
  | Some _ => mret true
  | None =>
      ok ← next_call connect_ok;
      if (ok : bool) then modify (set_sock (Some [])) ≫= λ _, mret true else mret false
  end.
(** platform/android-aarch64/art-shim/muplar_android_art_shim.c:510-511 (muplar_write_bitmap_frame) *)
Definition close_socket : Fr () :=
  modify (λ s, FState None (fr_closed s ++ match fr_sock s with Some c => [c] | None => [] end)
                 (fr_files s) (fr_dirs s) (fr_calls s)).

(** ** The frame *)

(** platform/android-aarch64/art-shim/muplar_android_art_shim.c:476-489 (muplar_write_bitmap_frame)
    A pixel over a light grey. *)
Definition over_grey (c a : Z) : Z := u8 ((c * a + 238 * (255 - a)) / 255).
(** platform/android-aarch64/art-shim/muplar_android_art_shim.c:475-490 (muplar_write_bitmap_frame) *)
Definition frame_pixel (argb : Z) : list Z :=
  let a := u8 (Z.shiftr argb 24) in
  let r := u8 (Z.shiftr argb 16) in
  let g := u8 (Z.shiftr argb 8) in
  let b := u8 argb in
  if a <? 255 then [over_grey r a; over_grey g a; over_grey b a; 255] else [r; g; b; 255].
(** platform/android-aarch64/art-shim/muplar_android_art_shim.c:185-191 (muplar_frame_header)
    The bytes of the header. *)
Definition frame_header (width height : Z) : list Z :=
  le_split 4 0x4d485231 ++ le_split 4 width ++ le_split 4 height ++ le_split 4 width ++
  le_split 8 (u64 (u64 (width * height) * 4)).

(** ** Paths *)

(** strncmp of a prefix, and what is behind it. *)
Fixpoint strip_prefix (pre s : fpath) : option fpath :=
  match pre, s with
  | [], s => Some s
  | a :: pre, b :: s => if a =? b then strip_prefix pre s else None
  | _ :: _, [] => None
  end.
(** platform/android-aarch64/art-shim/muplar_android_art_shim.c:525-526 (muplar_write_bitmap_frame) *)
Fixpoint skip_slashes (s : fpath) : fpath :=
  match s with
  | [] => []
  | c :: s' => if c =? 47 then skip_slashes s' else s
  end.
(** platform/android-aarch64/art-shim/muplar_android_art_shim.c:520-526 (muplar_write_bitmap_frame) *)
Definition frame_path (path : fpath) : fpath :=
  skip_slashes
    match strip_prefix (cs "/data/local/tmp/") path with
    | Some rest => rest
    | None => match strip_prefix (cs "data/local/tmp/") path with Some rest => rest | None => path end
    end.
(** platform/android-aarch64/art-shim/muplar_android_art_shim.c:531 (muplar_write_bitmap_frame) *)
Definition tmp_path (file_path : fpath) : fpath := file_path ++ cs ".tmp".

(** What is before the last slash. *)
Fixpoint before_last_slash (s : fpath) : option fpath :=
  match s with
  | [] => None
  | c :: s => match before_last_slash s with
              | Some d => Some (c :: d)
              | None => if c =? 47 then Some [] else None
              end
  end.
(** platform/android-aarch64/art-shim/muplar_android_art_shim.c:447-453 (muplar_ensure_parent_dir)
    The directories above [pre ++ s] whose slash is in [s]. *)
Fixpoint parents (pre s : fpath) : list fpath :=
  match s with
  | [] => []
  | c :: s => (if c =? 47 then [pre] else []) ++ parents (pre ++ [c]) s
  end.
(** platform/android-aarch64/art-shim/muplar_android_art_shim.c:437-456 (muplar_ensure_parent_dir)
    The path does not start with a slash; whether a directory is made is not
    looked at. *)
Definition muplar_ensure_parent_dir (file_path : fpath) : Fr () :=
  match file_path with
  | [] => mret ()
  | _ =>
      match before_last_slash (take 511 file_path) with
      | None => mret ()
      | Some dir => for_each (λ d, modify (add_dir d)) (parents (take 1 dir) (drop 1 dir) ++ [dir])
      end
  end.

(** ** Publishing *)

(** platform/android-aarch64/art-shim/muplar_android_art_shim.c:518-545 (muplar_write_bitmap_frame)
    Write the temporary file and rename it. *)
Definition write_file (path : fpath) (header rgba : list Z) : Fr bool :=
  let file_path := frame_path path in
  if 512 <=? Z.of_nat (length file_path) + 5 then mret false else
  let tmp := tmp_path file_path in
  muplar_ensure_parent_dir tmp ≫= λ _,
  ok ← next_call open_ok;
  if negb ok then mret false else
  modify (λ s, set_files (<[tmp := []]> (fr_files s)) s) ≫= λ _,
  ok ← muplar_write_all (File tmp) header;
  ok ← (if (ok : bool) then muplar_write_all (File tmp) rgba else mret false);
  if negb ok then modify (λ s, set_files (delete tmp (fr_files s)) s) ≫= λ _, mret false else
  ok ← next_call rename_ok;
  if (ok : bool) then
    modify (λ s, set_files (<[file_path := default [] (fr_files s !! tmp)]> (delete tmp (fr_files s))) s) ≫= λ _,
    mret true
  else mret false.

(** platform/android-aarch64/art-shim/muplar_android_art_shim.c:492-516 (muplar_write_bitmap_frame)
    Send the frame, then write it if there is a path; the empty path is none. *)
Definition publish (path : fpath) (header rgba : list Z) : Fr bool :=
  conn ← muplar_get_frame_socket;
  if (conn : bool) then
    ok ← muplar_write_all Socket header;
    ok ← (if (ok : bool) then muplar_write_all Socket rgba else mret false);
    if (ok : bool) then
      match path with [] => mret true | _ => write_file path header rgba end
    else
      close_socket ≫= λ _,
      match path with [] => mret false | _ => write_file path header rgba end
  else
    match path with [] => mret false | _ => write_file path header rgba end.

(** The first [count] pixels of an array, which must have them. *)
Definition first_pixels (count : Z) (px : list Z) : option (list Z) :=
  if count <=? Z.of_nat (length px) then Some (take (Z.to_nat count) px) else None.
(** platform/android-aarch64/art-shim/muplar_android_art_shim.c:458-547 (muplar_write_bitmap_frame) *)
Definition muplar_write_bitmap_frame (bitmap : bitmap_state) (path : fpath) : Fr bool :=
  match bs_pixels bitmap with
  | None => mret false
  | Some px =>
      let count := u64 (bs_width bitmap * bs_height bitmap) in
      ok ← next_call (λ n, malloc_ok n (u64 (count * 4)));
      if negb ok then mret false else
      px ← lift (first_pixels count px);
      publish path (frame_header (bs_width bitmap) (bs_height bitmap)) (concat (frame_pixel <$> px))
  end.
(** platform/android-aarch64/art-shim/muplar_android_art_shim.c:549-640 (muplar_write_raw_frame) *)
Definition muplar_write_raw_frame (pixels : list Z) (width height : Z) (path : fpath) : Fr bool :=
  if (width <=? 0) || (height <=? 0) then mret false else
  let count := u64 (width * height) in
  ok ← next_call (λ n, malloc_ok n (u64 (count * 4)));
  if negb ok then mret false else
  px ← lift (first_pixels count pixels);
  publish path (frame_header width height) (concat (frame_pixel <$> px)).

(** platform/android-aarch64/art-shim/muplar_android_art_shim.c:7912-7983 (Java_com_muplar_runtime_MuplarFramePresenter_writeBitmapNative)
    A Java bitmap: its native bitmap, when its class has the field and the
    token names one; and what its methods getWidth, getHeight and getPixels
    answer, [None] when one of them is missing or fails. *)
Definition writeBitmapNative (native : option bitmap_state) (java : option (Z * Z * list Z))
    (path : fpath) : Fr bool :=
  ok ← (match native with Some bmp => muplar_write_bitmap_frame bmp path | None => mret false end);
  if (ok : bool) then mret true else
  match java with
  | Some (w, h, px) =>
      if (0 <? w) && (0 <? h) then lift (ck (w * h)) ≫= λ _, muplar_write_raw_frame px w h path
      else mret false
  | None => mret false
  end.
End Frame.
