(* ===== verification/ShimFrameProps.v ===== *)
(** * Frames arrive whole or not at all

    A reader of the frame file sees the old file or a complete new frame; the
    host's end of a connection gets complete frames, one after the other, and
    at most one cut frame at the end of a connection that is closed then. *)

From S2P Require Import Prelude Machine Float32 ShimTables ShimRaster ShimFrame.

(** ** Frames and streams *)

(** A complete frame of [w] by [h] pixels. *)
Definition frame_bytes (w h : Z) (px : list Z) : list Z :=
  frame_header w h ++ concat (frame_pixel <$> px).
Definition is_frame (bs : list Z) : Prop :=
  ∃ w h px, bs = frame_bytes w h px ∧ Z.of_nat (length px) = w * h.
(** Complete frames one after the other. *)
Inductive frames : list Z → Prop :=
| frames_nil : frames []
| frames_snoc c f : frames c → is_frame f → frames (c ++ f).
(** Frames, and a part of one more. *)
Definition cut_frames (bs : list Z) : Prop :=
  ∃ c f p, bs = c ++ p ∧ frames c ∧ is_frame f ∧ p `prefix_of` f.

Record streams_ok (s : fstate) : Prop := {
  sk_now : ∀ c, fr_sock s = Some c → frames c;
  sk_closed : Forall cut_frames (fr_closed s)
}.

Section Props.
Variable write_ret : nat → Z → Z.
Variable malloc_ok : nat → Z → bool.
Variable open_ok : nat → bool.
Variable rename_ok : nat → bool.
Variable connect_ok : nat → bool.

Abbreviation write_all := (muplar_write_all write_ret).

Lemma bind_bind_step {S A B C} (m : M S A) (g : A → M S B) (K : B → M S C) s b s1 :
  (m ≫= g) s = Done b s1 → (m ≫= λ x, g x ≫= K) s = K b s1.
Proof. unfold mbind, M_bind. destruct (m s) as [a s2| | |]; [|done..]. by intros ->. Qed.

Definition with_calls (n : nat) (s : fstate) : fstate :=
  FState (fr_sock s) (fr_closed s) (fr_files s) (fr_dirs s) n.

Lemma next_call_eq {A} (f : nat → A) s : next_call f s = Done (f (fr_calls s)) (with_calls (S (fr_calls s)) s).
Proof. done. Qed.

Lemma deliver_calls k bs n s : deliver k bs (with_calls n s) = with_calls n (deliver k bs s).
Proof. by destruct k. Qed.
Lemma alter_app (m : gmap fpath (list Z)) p a b :
  alter (λ old, old ++ b) p (alter (λ old, old ++ a) p m) = alter (λ old, old ++ (a ++ b)) p m.
Proof. rewrite alter_alter_eq. apply alter_ext. intros x _. cbn. by rewrite <- app_assoc. Qed.
Lemma deliver_app k a b s : deliver k b (deliver k a s) = deliver k (a ++ b) s.
Proof.
  destruct k as [|p]; unfold deliver, set_sock, set_files; cbn.
  - destruct (fr_sock s) as [c|]; cbn; [by rewrite <- app_assoc|done].
  - by rewrite alter_app.
Qed.
Lemma deliver_nil k s : deliver k [] s = s.
Proof.
  destruct k as [|p], s as [sk cl fs ds n]; unfold deliver, set_sock, set_files; cbn.
  - destruct sk; cbn; by rewrite ?app_nil_r.
  - f_equal. apply alter_id. intros x _. apply app_nil_r.
Qed.

(** [muplar_write_all] ends; it delivers a prefix, and all of it when it says
    so. *)
Lemma write_all_go_spec fuel k data s :
  (length data <= fuel)%nat → ∃ r n m, write_all_go write_ret fuel k data s =
    Done r (with_calls n (deliver k (take m data) s)) ∧ (r = true → take m data = data).
Proof.
  revert data s. induction fuel as [|fuel IH]; intros data s Hl.
  { destruct data; [|cbn in Hl; lia]. exists true, (fr_calls s), 0%nat. rewrite deliver_nil. split; [by destruct s|done]. }
  destruct data as [|b data].
  { exists true, (fr_calls s), 0%nat. rewrite deliver_nil. split; [by destruct s|done]. }
  cbn [write_all_go]. set (all := b :: data) in *. unfold next_call, get, put, mret, mbind, M_bind, M_ret.
  set (w := write_ret (fr_calls s) (Z.of_nat (length all))).
  fold (with_calls (S (fr_calls s)) s). destruct (Z.leb_spec w 0) as [Hw|Hw].
  { exists false, (S (fr_calls s)), 0%nat. cbn [take]. by rewrite deliver_nil. }
  unfold modify. rewrite deliver_calls.
  destruct (IH (drop (Z.to_nat w) all) (with_calls (S (fr_calls s)) (deliver k (take (Z.to_nat w) all) s)))
    as (r & n & m & E & Hr); [rewrite length_drop; unfold all in *; cbn [length] in *; lia|].
  exists r, n, (Z.to_nat w + m)%nat. rewrite deliver_calls, deliver_app in E.
  assert (take (Z.to_nat w) all ++ take m (drop (Z.to_nat w) all) = take (Z.to_nat w + m) all) as Et.
  { by rewrite take_take_drop. }
  rewrite Et in E. split; [exact E|]. intros H. rewrite <- Et, Hr by done. apply take_drop.
Qed.
Lemma write_all_spec k data s :
  ∃ r n m, write_all k data s = Done r (with_calls n (deliver k (take m data) s)) ∧ (r = true → take m data = data).
Proof. by apply write_all_go_spec. Qed.

(** Two writes, of the header and the pixels. *)
Lemma write_both k h d s :
  ∃ r n m, (ok ← write_all k h; if (ok : bool) then write_all k d else mret false) s =
    Done r (with_calls n (deliver k (take m (h ++ d)) s)) ∧ (r = true → take m (h ++ d) = h ++ d).
Proof.
  destruct (write_all_spec k h s) as (r & n & m & E & Hr). unfold mbind, M_bind. rewrite E.
  destruct r.
  - rewrite Hr by done. destruct (write_all_spec k d (with_calls n (deliver k h s))) as (r & n' & m' & E' & Hr').
    exists r, n', (length h + m')%nat. rewrite E', deliver_calls, deliver_app. rewrite take_app_add.
    split; [done|]. intros H. by rewrite Hr'.
  - exists false, n, (Nat.min m (length h)). split; [|done]. unfold mret, M_ret. do 3 f_equal.
    rewrite take_app_le by lia. destruct (Nat.le_ge_cases m (length h)).
    + by rewrite Nat.min_l.
    + rewrite Nat.min_r by done. by rewrite !take_ge by lia.
Qed.

(** ** The file *)

Lemma tmp_ne p : tmp_path p ≠ p.
Proof. intros H. apply (f_equal length) in H. unfold tmp_path in H. rewrite length_app in H. cbn in H. lia. Qed.

Lemma add_dirs ds s :
  for_each (λ d, modify (add_dir d)) ds s =
  Done () (FState (fr_sock s) (fr_closed s) (fr_files s) (fr_dirs s ++ ds) (fr_calls s)).
Proof.
  revert s. induction ds as [|d ds IH]; intros s; [cbn; rewrite app_nil_r; by destruct s|].
  cbn [for_each]. rewrite (bind_step _ _ _ () (add_dir d s)) by done. rewrite IH. cbn. by rewrite <- app_assoc.
Qed.
Lemma ensure_parent_dir_spec p s : ∃ ds, muplar_ensure_parent_dir p s =
  Done () (FState (fr_sock s) (fr_closed s) (fr_files s) ds (fr_calls s)).
Proof.
  unfold muplar_ensure_parent_dir. destruct p as [|c p]; [exists (fr_dirs s); by destruct s|].
  destruct (before_last_slash _) as [dir|]; [|exists (fr_dirs s); by destruct s].
  rewrite add_dirs. by eexists.
Qed.

(** What [write_file] does to the files; connections stay. *)
Record file_written (path : fpath) (frame : list Z) (r : bool) (s s' : fstate) : Prop := {
  fw_sock : fr_sock s' = fr_sock s;
  fw_closed : fr_closed s' = fr_closed s;
  fw_other : ∀ q, q ≠ tmp_path (frame_path path) → q ≠ frame_path path → fr_files s' !! q = fr_files s !! q;
  fw_file : fr_files s' !! frame_path path = if r then Some frame else fr_files s !! frame_path path
}.

Lemma file_same path frame s s' :
  fr_sock s' = fr_sock s → fr_closed s' = fr_closed s →
  (∀ q, q ≠ tmp_path (frame_path path) → fr_files s' !! q = fr_files s !! q) → file_written path frame false s s'.
Proof. intros H1 H2 H3. split; [done|done|auto|]. apply H3. symmetry. apply tmp_ne. Qed.

Lemma write_file_spec path h d s :
  ∃ r s', write_file write_ret open_ok rename_ok path h d s = Done r s' ∧ file_written path (h ++ d) r s s'.
Proof.
  unfold write_file. destruct (512 <=? _).
  { exists false, s. split; [done|]. by apply file_same. }
  cbv zeta. set (target := frame_path path). set (tmp := tmp_path target).
  destruct (ensure_parent_dir_spec tmp s) as [ds Ed]. set (s1 := FState _ _ _ _ _) in Ed.
  rewrite (bind_step _ _ _ _ _ Ed), (bind_step _ _ _ _ _ (next_call_eq _ _)).
  set (s2 := with_calls _ s1). destruct (open_ok (fr_calls s1)); cbn [negb].
  2: { exists false, s2. split; [done|]. by apply file_same. }
  rewrite (bind_step (modify _) _ s2 () (set_files (<[tmp := []]> (fr_files s2)) s2)) by done.
  set (s3 := set_files _ _). destruct (write_both (File tmp) h d s3) as (r & n & m & E & Hr).
  rewrite (bind_bind_step _ _ _ _ _ _ E). clear E.
  set (s4 := with_calls n _). 
  assert (∀ q, q ≠ tmp → fr_files s4 !! q = fr_files s !! q) as Hq.
  { intros q Hq. cbn. rewrite lookup_alter_ne by done. by rewrite lookup_insert_ne by done. }
  assert (fr_files s4 !! tmp = Some (take m (h ++ d))) as Ht.
  { cbn. by rewrite lookup_alter_eq, lookup_insert_eq. }
  destruct r; cbn [negb].
  2: { rewrite (bind_step (modify _) _ s4 () (set_files (delete tmp (fr_files s4)) s4)) by done.
       eexists false, _. split; [reflexivity|]. apply file_same; [done|done|]. intros q Hq'. cbn [fr_files set_files].
       rewrite lookup_delete_ne by done. by apply Hq. }
  rewrite Hr in Ht by done. rewrite (bind_step _ _ _ _ _ (next_call_eq _ _)). set (s5 := with_calls _ s4).
  destruct (rename_ok (fr_calls s4)).
  - eexists true, _. split; [reflexivity|]. change (fr_files s5) with (fr_files s4). rewrite Ht.
    split; cbn [fr_sock fr_closed fr_files set_files default]; [done|done| |apply lookup_insert_eq].
    intros q Hq1 Hq2. rewrite lookup_insert_ne by done. rewrite lookup_delete_ne by done. by apply Hq.
  - exists false, s5. split; [done|]. by apply file_same.
Qed.

(** ** Connections *)

(** What one publication does: to a connection, by its outcome, and to the file. *)
Lemma publish_spec path h d s :
  ∃ r s1 s', publish write_ret open_ok rename_ok connect_ok path h d s = Done r s' ∧
    fr_files s1 = fr_files s ∧
    (path = [] → s' = s1) ∧ (path ≠ [] → file_written path (h ++ d) r s1 s') ∧
    ((fr_sock s1 = None ∧ (fr_closed s1 = fr_closed s ∧ fr_sock s = None ∨
        ∃ m, fr_closed s1 = fr_closed s ++ [default [] (fr_sock s) ++ take m (h ++ d)]) ∧ (path = [] → r = false)) ∨
     (fr_sock s1 = Some (default [] (fr_sock s) ++ h ++ d) ∧ fr_closed s1 = fr_closed s ∧ (path = [] → r = true))).
Proof.
  unfold publish.
  assert (∃ conn s0, muplar_get_frame_socket connect_ok s = Done conn s0 ∧ fr_files s0 = fr_files s ∧
    fr_closed s0 = fr_closed s ∧ (if conn then fr_sock s0 = Some (default [] (fr_sock s)) else fr_sock s0 = None ∧ fr_sock s = None))
    as (conn & s0 & E & Hf & Hc & Hs).
  { unfold muplar_get_frame_socket. rewrite (bind_step get _ s s s) by done.
    destruct (fr_sock s) as [c|] eqn:Ec; [by exists true, s|]. rewrite (bind_step _ _ _ _ _ (next_call_eq _ _)).
    destruct (connect_ok (fr_calls s)); [eexists true, _|eexists false, _]; (split; [reflexivity|]); done. }
  rewrite (bind_step _ _ _ _ _ E). destruct conn.
  - destruct (write_both Socket h d s0) as (r & n & m & Ew & Hr). rewrite (bind_bind_step _ _ _ _ _ _ Ew). clear Ew E.
    set (s1 := with_calls n _).
    assert (fr_sock s1 = Some (default [] (fr_sock s) ++ take m (h ++ d))) as Hs1 by (cbn; by rewrite Hs).
    destruct r.
    + rewrite Hr in Hs1 by done. destruct path as [|c path].
      * exists true, s1, s1. split; [done|]. split; [done|]. split; [done|]. split; [done|]. by right.
      * destruct (write_file_spec (c :: path) h d s1) as (r & s' & E' & Hw).
        exists r, s1, s'. split; [exact E'|]. split; [done|]. split; [done|]. split; [done|]. by right.
    + rewrite (bind_step close_socket _ s1 () (FState None (fr_closed s1 ++ [default [] (fr_sock s) ++ take m (h ++ d)])
        (fr_files s1) (fr_dirs s1) (fr_calls s1))) by (unfold close_socket, modify; by rewrite Hs1).
      set (s2 := FState _ _ _ _ _).
      assert (fr_closed s2 = fr_closed s ++ [default [] (fr_sock s) ++ take m (h ++ d)]) as Hc2.
      { cbn. by rewrite Hc. }
      destruct path as [|c path].
      * exists false, s2, s2. split; [done|]. split; [done|]. split; [done|]. split; [done|]. left. eauto.
      * destruct (write_file_spec (c :: path) h d s2) as (r & s' & E' & Hw).
        exists r, s2, s'. split; [exact E'|]. split; [done|]. split; [done|]. split; [done|]. left. split; [done|].
        split; [eauto|done].
  - destruct Hs as [Hs0 Hs]. destruct path as [|c path].
    + exists false, s0, s0. split; [done|]. split; [done|]. split; [done|]. split; [done|]. left. auto.
    + destruct (write_file_spec (c :: path) h d s0) as (r & s' & E' & Hw).
      exists r, s0, s'. split; [exact E'|]. split; [done|]. split; [done|]. split; [done|]. left. split; [done|].
      split; [auto|done].
Qed.

(** ** Theorems *)

(** A bitmap with its pixels. *)
Definition whole (w h : Z) (px : list Z) : Prop :=
  Z.of_nat (length px) = w * h ∧ w * h <= 2147483647 * 2147483647.
Lemma whole_pixels w h px : whole w h px → first_pixels (u64 (w * h)) px = Some px.
Proof.
  intros [Hl Hb]. rewrite u64_small by (unfold in_u64; lia). unfold first_pixels.
  rewrite (proj2 (Z.leb_le _ _)) by lia. by rewrite take_ge by lia.
Qed.

(** C16. Publishing a frame is atomic for the readers of its file: when it
    succeeds the file is the complete frame, header and pixels, when it fails,
    wherever the calls of the system fail, the file is what it was; no other
    file but the temporary one is touched, and none without a path. *)
Theorem frame_published b px path s :
  bs_pixels b = Some px → whole (bs_width b) (bs_height b) px →
  let target := frame_path path in
  ∃ r s', muplar_write_bitmap_frame write_ret malloc_ok open_ok rename_ok connect_ok b path s = Done r s' ∧
    (path = [] → fr_files s' = fr_files s) ∧
    (path ≠ [] → fr_files s' !! target =
      if r then Some (frame_bytes (bs_width b) (bs_height b) px) else fr_files s !! target) ∧
    ∀ q, q ≠ target → q ≠ tmp_path target → fr_files s' !! q = fr_files s !! q.
Proof.
  intros Hpx Hw target. unfold muplar_write_bitmap_frame. rewrite Hpx. cbv zeta.
  rewrite (bind_step _ _ _ _ _ (next_call_eq _ _)). set (s0 := with_calls _ s).
  destruct (malloc_ok _ _); cbn [negb]; [|by exists false, s0].
  rewrite whole_pixels by done. rewrite (bind_step _ _ s0 px s0) by done.
  destruct (publish_spec path (frame_header (bs_width b) (bs_height b)) (concat (frame_pixel <$> px)) s0)
    as (r & s1 & s' & E & Hf & Hnil & Hcons & _).
  exists r, s'. split; [exact E|]. destruct path as [|c path].
  - rewrite (Hnil eq_refl). split; [by intros _|]. split; [done|]. intros q _ _. by rewrite Hf.
  - destruct (Hcons ltac:(done)) as [_ _ Ho Hfile]. fold target in Ho, Hfile. rewrite Hf in Ho, Hfile.
    split; [done|]. split; [by intros _|]. intros q H1 H2. by apply Ho.
Qed.

(** The streams are whole, and so is every file that has changed. *)
Record good (s s' : fstate) : Prop := {
  gd_streams : streams_ok s';
  gd_files : ∀ q, (∀ p, q ≠ tmp_path p) →
    fr_files s' !! q = fr_files s !! q ∨ ∃ f, fr_files s' !! q = Some f ∧ is_frame f
}.
Lemma good_refl s : streams_ok s → good s s.
Proof. intros H. split; [done|auto]. Qed.
Lemma good_trans s1 s2 s3 : good s1 s2 → good s2 s3 → good s1 s3.
Proof.
  intros [_ F1] [H2 F2]. split; [done|]. intros q Hq. destruct (F2 q Hq) as [->|?]; [by apply F1|by right].
Qed.

Lemma good_calls n s : streams_ok s → good s (with_calls n s).
Proof. intros [H1 H2]. by split; [split|auto]. Qed.

(** A step from a good state ends in a good state. *)
Definition okay {A} (m : Fr A) (s : fstate) : Prop := ∃ r s', m s = Done r s' ∧ good s s'.
Lemma okay_ret {A} (a : A) s : streams_ok s → okay (mret a) s.
Proof. intros Hs. exists a, s. split; [done|by apply good_refl]. Qed.
Lemma okay_bind {A B} (m : Fr A) (f : A → Fr B) s :
  okay m s → (∀ a s1, streams_ok s1 → okay (f a) s1) → okay (m ≫= f) s.
Proof.
  intros (a & s1 & E & G) Hf. destruct (Hf a s1 (gd_streams _ _ G)) as (b & s2 & E2 & G2).
  exists b, s2. rewrite (bind_step _ _ _ _ _ E). split; [done|by eapply good_trans].
Qed.
Lemma okay_call {A} (f : nat → A) s : streams_ok s → okay (next_call f) s.
Proof. intros Hs. eexists _, _. split; [apply next_call_eq|by apply good_calls]. Qed.
Lemma okay_lift {A B} (o : option A) a (f : A → Fr B) s : o = Some a → okay (f a) s → okay (lift o ≫= f) s.
Proof. intros ->. done. Qed.

Lemma publish_good path w h px s :
  whole w h px → streams_ok s →
  okay (publish write_ret open_ok rename_ok connect_ok path (frame_header w h) (concat (frame_pixel <$> px))) s.
Proof.
  intros [Hl _] [Hnow Hcl]. set (f := frame_header w h ++ concat (frame_pixel <$> px)).
  assert (is_frame f) as Hfr by (by exists w, h, px).
  assert (frames (default [] (fr_sock s))) as Hold.
  { destruct (fr_sock s) as [c|] eqn:E; [by apply Hnow|constructor]. }
  destruct (publish_spec path (frame_header w h) (concat (frame_pixel <$> px)) s)
    as (r & s1 & s' & E & Hf & Hnil & Hcons & Hconn). fold f in Hcons, Hconn.
  exists r, s'. split; [exact E|].
  assert (streams_ok s1) as Hs1.
  { destruct Hconn as [(H1 & H2 & _)|(H1 & H2 & _)].
    - split; [intros c Hc; congruence|]. destruct H2 as [[-> _]|[m ->]]; [done|].
      apply Forall_app. split; [done|]. apply Forall_singleton. exists (default [] (fr_sock s)), f, (take m f).
      split; [done|]. split; [done|]. split; [done|]. by apply prefix_take.
    - split; [|by rewrite H2]. intros c Hc. rewrite H1 in Hc. injection Hc as <-. by apply frames_snoc. }
  destruct path as [|c path].
  - rewrite (Hnil eq_refl). split; [done|]. intros q _. left. by rewrite Hf.
  - destruct (Hcons ltac:(done)) as [Hsk Hcl' Ho Hfile]. rewrite Hf in Ho, Hfile. split.
    + destruct Hs1 as [K1 K2]. split; [intros c' Hc'; apply K1; congruence|by rewrite Hcl'].
    + intros q Hq. destruct (decide (q = frame_path (c :: path))) as [->|Hne].
      * rewrite Hfile. destruct r; [right; by exists f|by left].
      * left. apply Ho; [apply Hq|done].
Qed.

(** A request of the Java side: the native bitmap, what the Java methods give,
    and the path. *)
Definition request : Type := option bitmap_state * option (Z * Z * list Z) * fpath.
Definition request_ok (q : request) : Prop :=
  (∀ b px, q.1.1 = Some b → bs_pixels b = Some px → whole (bs_width b) (bs_height b) px) ∧
  (∀ w h px, q.1.2 = Some (w, h, px) → 0 < w → 0 < h → w * h <= 2147483647 ∧ Z.of_nat (length px) = w * h).
Definition send_frame (q : request) : Fr () :=
  writeBitmapNative write_ret malloc_ok open_ok rename_ok connect_ok q.1.1 q.1.2 q.2 ≫= λ _, mret ().

Lemma write_bitmap_good b path s :
  (∀ px, bs_pixels b = Some px → whole (bs_width b) (bs_height b) px) → streams_ok s →
  okay (muplar_write_bitmap_frame write_ret malloc_ok open_ok rename_ok connect_ok b path) s.
Proof.
  intros Hb Hs. unfold muplar_write_bitmap_frame. destruct (bs_pixels b) as [px|]; [|by apply okay_ret].
  cbv zeta. apply okay_bind; [by apply okay_call|]. intros ok s1 Hs1. destruct ok; cbn [negb]; [|by apply okay_ret].
  eapply okay_lift; [by apply whole_pixels, Hb|]. apply publish_good; [by apply Hb|done].
Qed.
Lemma write_raw_good w h px path s :
  0 < w → 0 < h → whole w h px → streams_ok s →
  okay (muplar_write_raw_frame write_ret malloc_ok open_ok rename_ok connect_ok px w h path) s.
Proof.
  intros Hw Hh Hp Hs. unfold muplar_write_raw_frame. rewrite (proj2 (Z.leb_gt w 0)), (proj2 (Z.leb_gt h 0)) by lia.
  cbn [orb]. cbv zeta. apply okay_bind; [by apply okay_call|]. intros ok s1 Hs1.
  destruct ok; cbn [negb]; [|by apply okay_ret]. eapply okay_lift; [by apply whole_pixels|]. by apply publish_good.
Qed.

Lemma send_frame_good q s : request_ok q → streams_ok s → okay (send_frame q) s.
Proof.
  intros [Hb Hj] Hs. destruct q as [[native java] path]. cbn [fst snd] in *. unfold send_frame, writeBitmapNative. cbn [fst snd].
  apply okay_bind; [|intros; by apply okay_ret]. apply okay_bind.
  { destruct native as [b|]; [|by apply okay_ret]. apply write_bitmap_good; [intros px Hpx; by apply Hb|done]. }
  intros ok s1 Hs1. destruct ok; [by apply okay_ret|]. destruct java as [[[w h] px]|]; [|by apply okay_ret].
  destruct (Z.ltb_spec 0 w); [|by apply okay_ret]. destruct (Z.ltb_spec 0 h); [|by apply okay_ret]. cbn [andb].
  destruct (Hj w h px eq_refl) as [Hmax Hl]; [done|done|].
  assert (ck (w * h) = Some (w * h)) as Eck.
  { unfold ck. rewrite (proj2 (Z.leb_le _ _)) by nia. by rewrite (proj2 (Z.leb_le _ _)) by lia. }
  eapply okay_lift; [exact Eck|]. apply write_raw_good; [done|done| |done]. split; [done|lia].
Qed.

(** C15. However the calls of the system fail or write less than asked, after any
    sequence of frames every connection that is open has been sent complete
    frames only, one after the other, so that the receiver is never out of
    step; a connection that was cut in a frame is closed; and every file that
    has changed, the temporary ones apart, is a complete frame.  Every request
    ends. *)
Theorem frames_whole l s :
  streams_ok s → Forall request_ok l →
  ∃ s', for_each send_frame l s = Done () s' ∧ streams_ok s' ∧
    ∀ q, (∀ p, q ≠ tmp_path p) →
      fr_files s' !! q = fr_files s !! q ∨ ∃ f, fr_files s' !! q = Some f ∧ is_frame f.
Proof.
  intros Hs Hl. assert (okay (for_each send_frame l) s) as ([] & s' & E & [G1 G2]); [|by exists s'].
  revert s Hs. induction Hl as [|q l Hq _ IH]; intros s Hs; [by apply okay_ret|]. cbn [for_each].
  apply okay_bind; [by apply send_frame_good|]. intros _ s1 Hs1. by apply IH.
Qed.

(** ** Progress *)

Lemma write_all_go_progress fuel k data s :
  (∀ n z, 0 < z → 0 < write_ret n z) → (length data <= fuel)%nat →
  ∃ s', write_all_go write_ret fuel k data s = Done true s'.
Proof.
  intros Hw. revert data s. induction fuel as [|fuel IH]; intros data s Hl.
  { destruct data; [by exists s|cbn in Hl; lia]. }
  destruct data as [|b data]; [by exists s|]. cbn [write_all_go]. rewrite (bind_step _ _ _ _ _ (next_call_eq _ _)).
  specialize (Hw (fr_calls s) (Z.of_nat (length (b :: data))) ltac:(cbn [length]; lia)).
  rewrite (proj2 (Z.leb_gt _ _)) by lia.
  rewrite (bind_step (modify _) _ _ () _ (eq_refl : modify _ (with_calls _ s) = Done () _)).
  apply IH. rewrite length_drop. cbn [length] in *. lia.
Qed.

End Props.

(** ** Witnesses *)

(** A system that writes three bytes at a time and fails now and then. *)
Definition short_write (n : nat) (k : Z) : Z := if (n mod 7 =? 6)%nat then -1 else Z.min k 3.
Definition demo_frame : bitmap_state := BitmapState 0x40000100 2 1 4 5 (Some [0xff102030; 0x80ffffff]).
Definition no_files : fstate := FState None [] ∅ [] 0.
Lemma demo_frame_whole : whole 2 1 [0xff102030; 0x80ffffff].
Proof. split; [reflexivity|lia]. Qed.

(** Witness of [frame_published]: all calls succeed. *)
Lemma frame_published_witness :
  let path := cs "/data/local/tmp/f" in
  ∃ r s', muplar_write_bitmap_frame (λ _ k, Z.min k 3) (λ _ _, true) (λ _, true) (λ _, true) (λ _, false)
      demo_frame path no_files = Done r s' ∧
    (path = [] → fr_files s' = fr_files no_files) ∧
    (path ≠ [] → fr_files s' !! frame_path path =
      if r then Some (frame_bytes 2 1 [0xff102030; 0x80ffffff]) else fr_files no_files !! frame_path path) ∧
    ∀ q, q ≠ frame_path path → q ≠ tmp_path (frame_path path) → fr_files s' !! q = fr_files no_files !! q.
Proof.
  apply (frame_published (λ _ k, Z.min k 3) (λ _ _, true) (λ _, true) (λ _, true) (λ _, false)); [reflexivity|].
  apply demo_frame_whole.
Defined.

(** Witness of [frames_whole]: three frames over a system that fails. *)
Lemma frames_whole_witness :
  let l : list request := [(Some demo_frame, None, []); (None, Some (1, 1, [7]), cs "a/b"); (Some demo_frame, None, cs "c")] in
  let send := send_frame short_write (λ _ _, true) (λ _, true) Nat.even Nat.odd in
  ∃ s', for_each send l no_files = Done () s' ∧ streams_ok s' ∧
    ∀ q, (∀ p, q ≠ tmp_path p) →
      fr_files s' !! q = fr_files no_files !! q ∨ ∃ f, fr_files s' !! q = Some f ∧ is_frame f.
Proof.
  apply (frames_whole short_write (λ _ _, true) (λ _, true) Nat.even Nat.odd).
  - split; [done|constructor].
  - assert (∀ p, request_ok (Some demo_frame, None, p)) as Hd.
    { intros p. split; [|done]. intros b px [= <-] [= <-]. apply demo_frame_whole. }
    repeat (apply Forall_cons; split); [apply Hd| |apply Hd|apply Forall_nil; exact I].
    split; [done|]. intros w h px [= <- <- <-] _ _. split; [lia|reflexivity].
Defined.

