(* ===== verification/Numbers.v ===== *)
(** * Numbers in C++ texts

    std::stol, std::stoi, std::stoull and std::stof, which skip blanks, read
    as much of a number as there is and throw when there is none or when it is
    out of range; std::to_string of a float and the output of a float to a
    stream, which print the value rounded to a number of digits.  A text is
    read in the C locale.  The sign of a NaN is not kept. *)

From S2P Require Import Prelude Decimal Cxx Float32.

(** ** Integers *)

(** Blanks, a sign, digits: whether the sign is a minus, the number, and what
    follows; nothing if there is no digit. *)
Definition scan_sign (s : list Z) : bool * list Z :=
  match s with
  | b :: s' => if b =? 45 then (true, s') else if b =? 43 then (false, s') else (false, s)
  | [] => (false, s)
  end.
Definition scan_int (value : list Z) : option (bool * Z * list Z) :=
  let '(neg, s) := scan_sign (skip_space value) in
  match s with
  | b :: _ => if is_digit b then let '(n, rest) := read_digits s 0 in Some (neg, n, rest) else None
  | [] => None
  end.

(** The number and what follows it. *)
Definition stol (value : list Z) : res (Z * list Z) :=
  match scan_int value with
  | None => Throw invalid_argument
  | Some (neg, n, rest) =>
      let z := if (neg : bool) then - n else n in
      if (-9223372036854775808 <=? z) && (z <=? 9223372036854775807) then Ok (z, rest)
      else Throw out_of_range
  end.
Definition stoi (value : list Z) : res Z :=
  '(z, _) ← stol value;
  if (-2147483648 <=? z) && (z <=? 2147483647) then Ok z else Throw out_of_range.
(** A minus negates modulo 2^64. *)
Definition stoull (value : list Z) : res Z :=
  match scan_int value with
  | None => Throw invalid_argument
  | Some (neg, n, _) =>
      if 18446744073709551615 <? n then Throw out_of_range
      else Ok (u64 (if (neg : bool) then - n else n))
  end.

(** ** Reading floats *)

(** The digits of a base up to a byte that is none: their number, how many. *)
Definition digit_value (b : Z) : option Z :=
  if is_digit b then Some (b - 48)
  else if (97 <=? to_lower b) && (to_lower b <=? 102) then Some (to_lower b - 87) else None.
Fixpoint scan_digits (base : Z) (s : list Z) (acc n : Z) : Z * Z * list Z :=
  match s with
  | b :: s' =>
      match digit_value b with
      | Some d => if d <? base then scan_digits base s' (acc * base + d) (n + 1) else (acc, n, s)
      | None => (acc, n, s)
      end
  | [] => (acc, n, s)
  end.
(** Digits with a point among them: the number without the point, how many
    digits are behind it, and what follows; nothing if there is no digit. *)
Definition scan_fraction (base : Z) (s : list Z) : option (Z * Z * list Z) :=
  let '(a, n, s1) := scan_digits base s 0 0 in
  let '(a, k, s2) := match s1 with
                     | 46 :: s' => let '(a, k, s2) := scan_digits base s' a 0 in (a, k, s2)
                     | _ => (a, 0, s1)
                     end in
  if n + k =? 0 then None else Some (a, k, s2).
(** An exponent behind one of the letters, if there is one with digits. *)
Definition scan_exponent (letter : Z) (s : list Z) : Z * list Z :=
  match s with
  | b :: s' =>
      if to_lower b =? letter then
        let '(neg, t) := scan_sign s' in
        match t with
        | d :: _ => if is_digit d then let '(n, rest) := read_digits t 0 in (if neg then - n else n, rest)
                    else (0, s)
        | [] => (0, s)
        end
      else (0, s)
  | [] => (0, s)
  end.
Fixpoint drop_prefix_ci (p s : list Z) : option (list Z) :=
  match p, s with
  | [], _ => Some s
  | a :: p, b :: s => if a =? to_lower b then drop_prefix_ci p s else None
  | _, _ => None
  end.

(** The binary32 number nearest to [num / den], and whether that is out of
    range: too large, or too small to be held exactly. *)
Definition f32_quotient (neg : bool) (num den : Z) : res f32 :=
  match num, den with
  | Zpos n, Zpos d =>
      let x := SFdiv 24 128 (S754_finite neg n 0) (S754_finite false d 0) in
      match x with
      | S754_infinity _ => Throw out_of_range
      | S754_zero _ => Throw out_of_range
      | S754_finite _ m e =>
          if (num * 2 ^ 126 <? den) && negb (Zpos m * den =? num * 2 ^ (- e)) then Throw out_of_range else Ok x
      | S754_nan => Ok x
      end
  | _, _ => Ok (S754_zero neg)
  end.
(** [a * base^e] *)
Definition f32_scaled (neg : bool) (a base e : Z) : res f32 :=
  if 0 <=? e then f32_quotient neg (a * base ^ e) 1 else f32_quotient neg a (base ^ (- e)).

(** What is in the parentheses of a NaN. *)
Definition skip_nan_chars (s : list Z) : list Z :=
  let fix go t := match t with
                  | b :: t' => if is_alnum b || (b =? 95) then go t' else if b =? 41 then Some t' else None
                  | [] => None
                  end in
  match s with 40 :: t => default s (go t) | _ => s end.

(** The number and what follows it. *)
Definition stof (value : list Z) : res (f32 * list Z) :=
  let '(neg, s) := scan_sign (skip_space value) in
  let decimal_number :=
    match scan_fraction 10 s with
    | None => Throw invalid_argument
    | Some (a, k, s) =>
        let '(e, s) := scan_exponent 101 s in
        x ← f32_scaled neg a 10 (e - k); Ok (x, s)
    end in
  match drop_prefix_ci (cs "infinity") s with
  | Some rest => Ok (S754_infinity neg, rest)
  | None =>
  match drop_prefix_ci (cs "inf") s with
  | Some rest => Ok (S754_infinity neg, rest)
  | None =>
  match drop_prefix_ci (cs "nan") s with
  | Some rest => Ok (S754_nan, skip_nan_chars rest)
  | None =>
  match drop_prefix_ci (cs "0x") s with
  | Some h =>
      match scan_fraction 16 h with
      | Some (a, k, h) =>
          let '(e, h) := scan_exponent 112 h in
          x ← f32_scaled neg a 2 (e - 4 * k); Ok (x, h)
      | None => decimal_number
      end
  | None => decimal_number
  end end end end.

(** ** Printing floats *)

(** [num / den] to the nearest integer, to the even one if there are two. *)
Definition round_half_even (num den : Z) : Z :=
  let q := num / den in
  let r := 2 * (num mod den) in
  if r <? den then q else if den <? r then q + 1 else if Z.even q then q else q + 1.
(** The value of a finite number times a power of ten, rounded. *)
Definition scaled_value (m : positive) (e k : Z) : Z :=
  round_half_even (Zpos m * 2 ^ Z.max 0 e * 10 ^ Z.max 0 k) (2 ^ Z.max 0 (- e) * 10 ^ Z.max 0 (- k)).
Definition minus (s : bool) : list Z := if s then [45] else [].
(** A number in decimal with at least so many digits. *)
Definition decimal_pad (width : nat) (z : Z) : list Z :=
  let d := digits 60 z [] in replicate (width - length d) 48 ++ d.

(** std::to_string: six digits behind the point. *)
Definition to_string_f32 (x : f32) : list Z :=
  let fixed s n := minus s ++ decimal_pad 1 (n / 1000000) ++ [46] ++ decimal_pad 6 (n mod 1000000) in
  match x with
  | S754_zero s => fixed s 0
  | S754_infinity s => minus s ++ cs "inf"
  | S754_nan => cs "nan"
  | S754_finite s m e => fixed s (scaled_value m e 6)
  end.

(** The decimal exponent of a number from [x] down: the greatest power of ten
    that is not above it. *)
Fixpoint exponent10 (fuel : nat) (m : positive) (e x : Z) : Z :=
  match fuel with
  | O => x
  | S fuel => if Zpos m * 2 ^ Z.max 0 e * 10 ^ Z.max 0 (- x) <? 2 ^ Z.max 0 (- e) * 10 ^ Z.max 0 x
              then exponent10 fuel m e (x - 1) else x
  end.
Fixpoint strip_zeros (rev_digits : list Z) : list Z :=
  match rev_digits with 48 :: s => strip_zeros s | _ => rev_digits end.
Definition with_fraction (int frac : list Z) : list Z :=
  let frac := reverse (strip_zeros (reverse frac)) in
  match frac with [] => int | _ => int ++ [46] ++ frac end.
(** [out << x]: six digits, without zeros at the end, with an exponent if it
    is below -4 or above 5. *)
Definition stream_f32 (x : f32) : list Z :=
  match x with
  | S754_zero s => minus s ++ cs "0"
  | S754_infinity s => minus s ++ cs "inf"
  | S754_nan => cs "nan"
  | S754_finite s m e =>
      let x := exponent10 100 m e 39 in
      let n := scaled_value m e (5 - x) in
      let '(x, n) := if n =? 1000000 then (x + 1, 100000) else (x, n) in
      let d := decimal_pad 6 n in
      minus s ++
      if (x <? -4) || (5 <? x) then
        with_fraction (take 1 d) (drop 1 d) ++ [101] ++ (if x <? 0 then [45] else [43]) ++ decimal_pad 2 (Z.abs x)
      else if x <? 0 then with_fraction [48] (replicate (Z.to_nat (- x - 1)) 48 ++ d)
      else with_fraction (take (Z.to_nat (x + 1)) d) (drop (Z.to_nat (x + 1)) d)
  end.

(** ** Checks *)

Example stof_texts :
  (fst <$> stof (cs " 0.75")) = Ok (f32_lit 3 4) ∧ (fst <$> stof (cs "-1.5e2x")) = Ok (f32_of_Z (-150)) ∧
  (fst <$> stof (cs "0x1.8p1")) = Ok (f32_of_Z 3) ∧ stof (cs "1e") = Ok (f32_of_Z 1, cs "e") ∧
  stof (cs ".") = Throw invalid_argument ∧ stof (cs "1e39") = Throw out_of_range ∧
  (fst <$> stof (cs "0.1")) = Ok (f32_lit 1 10) ∧ stof (cs "1e-50") = Throw out_of_range.
Proof. vm_compute. repeat split. Qed.
Example to_string_texts :
  to_string_f32 (f32_lit 3 4) = cs "0.750000" ∧ to_string_f32 (f32_lit (-1) 10) = cs "-0.100000" ∧
  to_string_f32 (f32_of_Z 4098) = cs "4098.000000" ∧ to_string_f32 (f32_lit 1 3) = cs "0.333333".
Proof. vm_compute. repeat split. Qed.
Example stream_texts :
  stream_f32 (f32_lit 241 2) = cs "120.5" ∧ stream_f32 (f32_of_Z 1234567) = cs "1.23457e+06" ∧
  stream_f32 (f32_lit 1 100000) = cs "1e-05" ∧ stream_f32 (f32_lit (-1) 1000) = cs "-0.001" ∧
  stream_f32 (f32_of_Z 240) = cs "240".
Proof. vm_compute. repeat split. Qed.

(** ** What is printed is read back *)

Lemma scan_int_digits n : 0 <= n < 10 ^ 20 →
  ∃ b l, digits 20 n [] = b :: l ∧ is_digit b = true ∧ read_digits (b :: l) 0 = (n, []).
Proof.
  intros Hn. destruct (digits_head 20 n []) as (b & l & E & Hb); [lia..|].
  destruct (read_digits_spec 20 n [] 0) as (k & _ & _ & Er); [lia..|].
  exists b, l. split_and!; [done..|]. rewrite <- E, Er. reflexivity.
Qed.
Lemma digit_range b : is_digit b = true → 48 <= b <= 57.
Proof. unfold is_digit. intros [?%Z.leb_le ?%Z.leb_le]%andb_true_iff. lia. Qed.
Lemma scan_digit neg b l : is_digit b = true →
  scan_sign (skip_space (if (neg : bool) then 45 :: b :: l else b :: l)) = (neg, b :: l).
Proof.
  intros Hb%digit_range. destruct neg; [done|]. cbn [skip_space]. unfold is_space.
  rewrite (proj2 (Z.eqb_neq b 32)), (proj2 (Z.leb_gt b 13)), andb_false_r by lia. cbn [orb scan_sign].
  by rewrite (proj2 (Z.eqb_neq b 45)), (proj2 (Z.eqb_neq b 43)) by lia.
Qed.
Lemma scan_int_decimal z : - 10 ^ 20 < z < 10 ^ 20 → scan_int (decimal z) = Some (z <? 0, Z.abs z, []).
Proof.
  intros Hz. unfold scan_int, decimal.
  destruct (scan_int_digits (Z.abs z)) as (b & l & E & Hb & Hr); [lia|].
  destruct (Z.ltb_spec z 0).
  - rewrite Z.abs_neq in * by lia. rewrite E. pose proof (scan_digit true b l Hb) as Hs. cbv iota in Hs.
    by rewrite Hs, Hb, Hr.
  - rewrite Z.abs_eq in * by lia. rewrite E. pose proof (scan_digit false b l Hb) as Hs. cbv iota in Hs.
    by rewrite Hs, Hb, Hr.
Qed.
Lemma stol_decimal z : in_s64 z → stol (decimal z) = Ok (z, []).
Proof.
  unfold in_s64. intros Hz. unfold stol. rewrite scan_int_decimal by lia.
  replace (if z <? 0 then - Z.abs z else Z.abs z) with z by (destruct (Z.ltb_spec z 0); lia).
  by rewrite !(proj2 (Z.leb_le _ _)) by lia.
Qed.
Lemma stoi_decimal z : in_s32 z → stoi (decimal z) = Ok z.
Proof.
  unfold in_s32. intros Hz. unfold stoi. rewrite stol_decimal by (unfold in_s64; lia). cbn [mbind res_bind].
  by rewrite !(proj2 (Z.leb_le _ _)) by lia.
Qed.
Lemma stoull_decimal z : in_u64 z → stoull (decimal z) = Ok z.
Proof.
  unfold in_u64. intros Hz. unfold stoull. rewrite scan_int_decimal by lia.
  rewrite (proj2 (Z.ltb_ge z 0)), (proj2 (Z.ltb_ge _ _)) by lia.
  by rewrite Z.abs_eq, u64_small by (unfold in_u64; lia).
Qed.

(** Printed numbers are digits and perhaps a minus. *)
Lemma digits_chars fuel n acc : 0 <= n → Forall (λ b, 48 <= b <= 57) acc → Forall (λ b, 48 <= b <= 57) (digits fuel n acc).
Proof.
  revert n acc. induction fuel as [|fuel IH]; intros n acc Hn Ha; cbn [digits]; [done|].
  pose proof (Z.mod_pos_bound n 10 ltac:(lia)).
  destruct (Z.ltb_spec n 10); [|apply IH; [zdm|]]; (constructor; [lia|done]).
Qed.
Lemma decimal_chars z b : b ∈ decimal z → b = 45 ∨ 48 <= b <= 57.
Proof.
  unfold decimal. destruct (Z.ltb_spec z 0).
  - intros [->|Hb]%elem_of_cons; [by left|right]. revert b Hb. apply Forall_forall, digits_chars; [lia|done].
  - intros Hb. right. revert b Hb. apply Forall_forall, digits_chars; [lia|done].
Qed.
