(* ===== verification/Muplard.v ===== *)
(** * The service daemon: protocol and data

    platform/android-aarch64/services/muplard_protocol.h and the functions of
    muplard.cpp that do not touch a connection: messages, the catalogue of
    services, settings and their file, users and permissions, surfaces, and
    the state of the device.  An unordered_map is a [gmap] where the code
    sorts what it holds before use; a number is parsed and printed as in
    Numbers.  MuplardServer is the daemon itself. *)

From S2P Require Import Prelude Decimal Cxx Float32 Numbers.

(** ** Messages *)

(** platform/android-aarch64/services/muplard_protocol.h:8-11 (kProtocolMagic, kProtocolVersion, kReplyFlag, kMaxPayloadSize) *)
Definition kProtocolMagic : Z := 0x4d555044.
Definition kProtocolVersion : Z := 1.
Definition kReplyFlag : Z := 0x8000.
Definition kMaxPayloadSize : Z := 1048576.

(** platform/android-aarch64/services/muplard_protocol.h:13-45 (Opcode) *)
Inductive Opcode :=
  | Ping | ListServices | RegisterService | CheckService | SubscribePackages | PackageChanged
  | ClientInfo | QueryPackages | AppSession | QueryTasks | FdEcho | GetSetting | PutSetting
  | BinderTransact | BinderIncoming | BinderReply | ServiceState | QueryUsers | CheckPermission
  | SetPermission | ApplySurfaceTransaction | QuerySurfaces | DeviceAction | QueryDeviceState
  | SubscribeDeviceActions | DeviceActionChanged | DeviceInput | SubscribeDeviceInputs
  | DeviceInputChanged | TabFinished | QueryTabFinished.
(** platform/android-aarch64/services/muplard_protocol.h:13-45 (Opcode)
    In the order of their numbers, from 1. *)
Definition opcodes : list Opcode :=
  [ Ping; ListServices; RegisterService; CheckService; SubscribePackages; PackageChanged;
    ClientInfo; QueryPackages; AppSession; QueryTasks; FdEcho; GetSetting; PutSetting;
    BinderTransact; BinderIncoming; BinderReply; ServiceState; QueryUsers; CheckPermission;
    SetPermission; ApplySurfaceTransaction; QuerySurfaces; DeviceAction; QueryDeviceState;
    SubscribeDeviceActions; DeviceActionChanged; DeviceInput; SubscribeDeviceInputs;
    DeviceInputChanged; TabFinished; QueryTabFinished ].
#[global] Instance Opcode_eq_dec : EqDecision Opcode.
Proof. solve_decision. Defined.
(** [static_cast<uint16_t>(opcode)] *)
Definition opcode_number (o : Opcode) : Z :=
  match find_idx (λ o', bool_decide (o' = o)) opcodes with Some i => Z.of_nat i + 1 | None => 0 end.
(** [static_cast<Opcode>(n)], compared with the constants: none of them for
    another number. *)
Definition opcode_of (n : Z) : option Opcode :=
  if 1 <=? n then opcodes !! Z.to_nat (n - 1) else None.

(** platform/android-aarch64/services/muplard_protocol.h:47-53 (MessageHeader) *)
Record MessageHeader := Header {
  h_magic : Z;
  h_version : Z;
  h_opcode : Z;
  h_payload_size : Z;
  h_request_id : Z;
}.
#[global] Instance MessageHeader_eq_dec : EqDecision MessageHeader.
Proof. solve_decision. Defined.
(** The bytes of a header: 24, four of them, here [pad], belong to no member. *)
Definition header_bytes (pad : list Z) (h : MessageHeader) : list Z :=
  le_split 4 (h_magic h) ++ le_split 2 (h_version h) ++ le_split 2 (h_opcode h) ++
  le_split 4 (h_payload_size h) ++ pad ++ le_split 8 (h_request_id h).
Definition header_of (bs : list Z) : MessageHeader :=
  Header (le_combine (take 4 bs)) (le_combine (take 2 (drop 4 bs))) (le_combine (take 2 (drop 6 bs)))
         (le_combine (take 4 (drop 8 bs))) (le_combine (take 8 (drop 16 bs))).
(** platform/android-aarch64/services/muplard.cpp:62-71 (send_message)
    The header of a message that is sent. *)
Definition message_header (opcode : Opcode) (request_id : Z) (payload : list Z) (reply : bool) : MessageHeader :=
  Header kProtocolMagic kProtocolVersion
    (Z.lor (opcode_number opcode) (if reply then kReplyFlag else 0)) (u32 (size payload)) request_id.
(** platform/android-aarch64/services/muplard.cpp:155-158 (receive_message)
    A header a receiver goes on with. *)
Definition header_ok (h : MessageHeader) : bool :=
  (h_magic h =? kProtocolMagic) && (h_version h =? kProtocolVersion) &&
  negb (kMaxPayloadSize <? h_payload_size h).

(** ** The bytes of a connection *)

(** What the calls of recv on a connection find, one after the other; a call
    takes what it finds up to the size it asks for, the rest stays.  At the
    end of the list the connection is closed. *)
Definition recv (chunks : list (list Z)) (n : Z) : list Z * list (list Z) :=
  match chunks with
  | [] => ([], [])
  | c :: cs => if size c <=? n then (c, cs) else (take (Z.to_nat n) c, drop (Z.to_nat n) c :: cs)
  end.
(** platform/android-aarch64/services/muplard.cpp:83-94 (receive_exact)
    Each call gives a byte or ends it. *)
Fixpoint receive_go (fuel : nat) (chunks : list (list Z)) (n : Z) (got : list Z)
  : option (list Z) * list (list Z) :=
  if n <=? 0 then (Some got, chunks) else
  match fuel with
  | O => (None, chunks)
  | S fuel =>
      let '(c, cs) := recv chunks n in
      match c with [] => (None, cs) | _ => receive_go fuel cs (n - size c) (got ++ c) end
  end.
(** platform/android-aarch64/services/muplard.cpp:83-94 (receive_exact) *)
Definition receive_exact (chunks : list (list Z)) (n : Z) : option (list Z) * list (list Z) :=
  receive_go (Z.to_nat n) chunks n [].
(** platform/android-aarch64/services/muplard.cpp:153-163 (receive_message) *)
Definition receive_message (chunks : list (list Z)) : option (MessageHeader * list Z) * list (list Z) :=
  match receive_exact chunks 24 with
  | (Some bs, cs) =>
      let h := header_of bs in
      if negb (header_ok h) then (None, cs)
      else match receive_exact cs (h_payload_size h) with
           | (Some payload, cs) => (Some (h, payload), cs)
           | (None, cs) => (None, cs)
           end
  | (None, cs) => (None, cs)
  end.

(** ** Splitting *)

(** platform/android-aarch64/services/muplard.cpp:434-440 (apply_device_action)
    One field of a text; the same loop is in user_exists,
    apply_device_input and apply_surface_transaction. *)
Definition split_body (c : Z) (s : list Z) (st : Z * list (list Z))
  : res (ctl (Z * list (list Z)) (list (list Z))) :=
  let '(start, fields) := st in
  if start <=? size s then
    let end_ := str_find s [c] start in
    field ← substr s start (u64 (end_ - start));
    Ok (if end_ =? npos then Stop (fields ++ [field]) else Next (u64 (end_ + 1), fields ++ [field]))
  else Ok (Stop fields).
(** platform/android-aarch64/services/muplard.cpp:432-440 (apply_device_action) *)
Definition split_fields (c : Z) (s : list Z) : res (list (list Z)) :=
  loop (S (length s)) (split_body c s) (0, []).
(** [fields.size() > i ? fields[i] : std::string()] *)
Definition field_or (fields : list (list Z)) (i : nat) : list Z := default [] (fields !! i).
Definition newline : Z := 10.
Definition tab : Z := 9.

(** ** Services *)

(** Strings joined with a line break, one in front of each but the first that
    follows something. *)
Definition join_lines (lines : list (list Z)) : list Z :=
  foldl (λ result line, (if eq_str result [] then result else result ++ [newline]) ++ line) [] lines.
(** platform/android-aarch64/services/muplard.cpp:165-179 (service_list) *)
Definition service_list (services : gmap (list Z) Z) : list Z :=
  join_lines (sort_strings (map_to_list services).*1).
(** platform/android-aarch64/services/muplard.cpp:181-189 (builtin_services) *)
Definition builtin_services : gmap (list Z) Z :=
  list_to_map ((λ s, (cs s, -1)) <$>
    [ "activity"; "package"; "launcherapps"; "shortcut"; "appwidget"; "window"; "input_method";
      "permission"; "user"; "settings"; "surfaceflinger" ]%string).
(** platform/android-aarch64/services/muplard.cpp:191-203 (framework_service_state) *)
Definition framework_service_state (services : gmap (list Z) Z) (generation uptime : Z) : list Z :=
  cs "state=ready" ++ [newline] ++ cs "generation=" ++ decimal generation ++ [newline] ++
  cs "uptimeMillis=" ++ decimal uptime ++ [newline] ++
  cs "services=" ++ decimal (Z.of_nat (base.size services)) ++ [newline] ++
  cs "serviceNames=" ++ service_list services.
(** platform/android-aarch64/services/muplard.cpp:205-219 (run_lifecycle_self_test) *)
Definition run_lifecycle_self_test (uptime : Z) : Z :=
  let state := framework_service_state builtin_services 42 uptime in
  if forallb (λ s, contains state (cs s))
       ["state=ready"; "generation=42"; "activity"; "permission"; "surfaceflinger"]%string
  then 0 else 1.
