(* ===== verification/MuplardState.v ===== *)
(** * The service daemon: settings, permissions, surfaces, device

    platform/android-aarch64/services/muplard.cpp:221-680: what the daemon
    keeps, how requests change it, and how it is printed in replies.  Settings
    are a file of pairs of quoted strings, written and read with std::quoted. *)

From S2P Require Import Prelude Decimal Cxx Float32 Numbers Muplard.

(** ** Settings *)

Definition quote : Z := 34.
Definition escape : Z := 92.

(** [out << std::quoted(s)] *)
Definition quoted (s : list Z) : list Z :=
  [quote] ++ concat ((λ c, if (c =? quote) || (c =? escape) then [escape; c] else [c]) <$> s) ++ [quote].
(** [in >> std::quoted(s)] behind the opening quote: the string and what
    follows its closing quote, or that the input ends before it. *)
Fixpoint read_quoted_tail (s acc : list Z) : option (list Z * list Z) :=
  match s with
  | [] => None
  | c :: s =>
      if c =? escape then match s with [] => None | c :: s => read_quoted_tail s (acc ++ [c]) end
      else if c =? quote then Some (acc, s)
      else read_quoted_tail s (acc ++ [c])
  end.
(** [in >> word] *)
Fixpoint read_word (s acc : list Z) : list Z * list Z :=
  match s with
  | [] => (acc, [])
  | c :: s' => if is_space c then (acc, s) else read_word s' (acc ++ [c])
  end.
(** [in >> std::quoted(s)]: a string without a quote is read as a word. *)
Definition read_quoted (s : list Z) : option (list Z * list Z) :=
  match skip_space s with
  | [] => None
  | c :: s' => if c =? quote then read_quoted_tail s' [] else Some (read_word (c :: s') [])
  end.

(** platform/android-aarch64/services/muplard.cpp:246-248 (load_settings)
    Each pair takes at least a byte. *)
Fixpoint parse_settings (fuel : nat) (s : list Z) (result : gmap (list Z) (list Z)) : gmap (list Z) (list Z) :=
  match fuel with
  | O => result
  | S fuel =>
      match read_quoted s with
      | None => result
      | Some (key, s) =>
          match read_quoted s with
          | None => result
          | Some (value, s) => parse_settings fuel s (<[key := value]> result)
          end
      end
  end.
(** platform/android-aarch64/services/muplard.cpp:240-249 (load_settings)
    The file may be missing. *)
Definition load_settings (file : option (list Z)) : gmap (list Z) (list Z) :=
  match file with None => ∅ | Some text => parse_settings (S (length text)) text ∅ end.
(** platform/android-aarch64/services/muplard.cpp:261-267 (save_settings) *)
Definition settings_text (settings : gmap (list Z) (list Z)) : list Z :=
  concat ((λ key, quoted key ++ [32] ++ quoted (default [] (settings !! key)) ++ [newline]) <$>
          sort_strings (map_to_list settings).*1).

(** The files the daemon works with, by path, and what the operating system
    answers, by the number of the call: what a file is left with and whether
    the stream was good to its end, none if it does not open; whether a file
    is renamed, or removed. *)
Class Files := {
  fs_write : nat → list Z → option (list Z * bool);
  fs_rename : nat → bool;
  fs_remove : nat → bool;
  fs_pid : Z;
}.
(** A stream that is good to its end has written all. *)
Class FilesLaws (f : Files) := {
  write_whole n data stored : fs_write n data = Some (stored, true) → stored = data;
}.
Abbreviation files := (gmap (list Z) (list Z)).

Section Save.
Context `{Files}.

(** [fs::rename(a, b, ec)] *)
Definition rename (n : nat) (a b : list Z) (m : files) : files * bool :=
  match m !! a with
  | Some bytes => if fs_rename n then (<[b := bytes]> (delete a m), true) else (m, false)
  | None => (m, false)
  end.
(** platform/android-aarch64/services/muplard.cpp:256-257 (save_settings) *)
Definition temporary_path (path : list Z) : list Z := path ++ cs ".tmp-" ++ decimal fs_pid.
(** platform/android-aarch64/services/muplard.cpp:251-278 (save_settings)
    The calls are numbered from [n]; there are four. *)
Definition save_settings (n : nat) (path : list Z) (settings : gmap (list Z) (list Z)) (m : files)
  : files * bool :=
  let temporary := temporary_path path in
  match fs_write n (settings_text settings) with
  | None => (m, false)
  | Some (stored, good) =>
      let m := <[temporary := stored]> m in
      if negb good then (m, false)
      else
        let '(m, ok) := rename (n + 1) temporary path m in
        if (ok : bool) then (m, true)
        else rename (n + 3) temporary path (if fs_remove (n + 2) then delete path m else m)
  end.
End Save.

(** ** Users and permissions *)

(** platform/android-aarch64/services/muplard.cpp:286-293 (user_exists) *)
Definition user_body (users user : list Z) (start : Z) : res (ctl Z bool) :=
  if start <=? size users then
    let end_ := str_find users (cs ",") start in
    field ← substr users start (u64 (end_ - start));
    Ok (if eq_str field user then Stop true
        else if end_ =? npos then Stop false else Next (u64 (end_ + 1)))
  else Ok (Stop false).
(** platform/android-aarch64/services/muplard.cpp:280-295 (user_exists) *)
Definition user_exists (settings : gmap (list Z) (list Z)) (user : list Z) : res bool :=
  let users := default (cs "0") (settings !! cs "users") in
  loop (S (length users)) (user_body users user) 0.
(** platform/android-aarch64/services/muplard.cpp:297-302 (permission_key) *)
Definition permission_key (package user permission : list Z) : list Z :=
  cs "permission:" ++ user ++ cs ":" ++ package ++ cs ":" ++ permission.
(** platform/android-aarch64/services/muplard.cpp:310-319 (permission_granted) *)
Definition dangerous : list (list Z) :=
  cs <$> [ "android.permission.CAMERA"; "android.permission.RECORD_AUDIO";
    "android.permission.READ_CONTACTS"; "android.permission.WRITE_CONTACTS";
    "android.permission.ACCESS_FINE_LOCATION"; "android.permission.ACCESS_COARSE_LOCATION";
    "android.permission.READ_EXTERNAL_STORAGE"; "android.permission.WRITE_EXTERNAL_STORAGE" ]%string.
(** platform/android-aarch64/services/muplard.cpp:304-325 (permission_granted) *)
Definition permission_granted (settings : gmap (list Z) (list Z)) (package user permission : list Z) : res bool :=
  match settings !! permission_key package user permission with
  | Some value => Ok (eq_str value (cs "grant"))
  | None =>
      known ← user_exists settings user;
      Ok (known && negb (eq_str package []) && negb (eq_str permission []) &&
          negb (bool_decide (permission ∈ dangerous)))
  end.
(** platform/android-aarch64/services/muplard.cpp:327-349 (run_policy_self_test) *)
Definition run_policy_self_test `{Files} (settings_path : list Z) (m : files) : res Z :=
  let settings := <[cs "users" := cs "0,10"]> (load_settings (m !! settings_path)) in
  let package := cs "com.muplar.policytest" in
  let camera := cs "android.permission.CAMERA" in
  let internet := cs "android.permission.INTERNET" in
  a ← permission_granted settings package (cs "10") camera;
  if (a : bool) then Ok 1 else
  b ← permission_granted settings package (cs "10") internet;
  if negb b then Ok 1 else
  c ← permission_granted settings package (cs "11") internet;
  if (c : bool) then Ok 1 else
  let settings := <[permission_key package (cs "10") camera := cs "grant"]> settings in
  let '(m, saved) := save_settings 0 settings_path settings m in
  if negb saved then Ok 1 else
  let reloaded := load_settings (m !! settings_path) in
  a ← permission_granted reloaded package (cs "10") camera;
  if negb a then Ok 1 else
  b ← user_exists reloaded (cs "0");
  if negb b then Ok 1 else
  c ← user_exists reloaded (cs "10");
  Ok (if (c : bool) then 0 else 1).

(** ** Surfaces *)

(** platform/android-aarch64/services/muplard.cpp:351-362 (SurfaceState) *)
Record SurfaceState := Surface {
  su_name : list Z;
  su_width : Z; su_height : Z; su_layer : Z;
  su_alpha : f32; su_x : f32; su_y : f32;
  su_crop_width : Z; su_crop_height : Z;
  su_visible : bool;
}.
Abbreviation surfaces := (gmap Z SurfaceState).
Definition set_visible (v : bool) (s : SurfaceState) : SurfaceState :=
  Surface (su_name s) (su_width s) (su_height s) (su_layer s) (su_alpha s) (su_x s) (su_y s)
    (su_crop_width s) (su_crop_height s) v.
Definition set_layer (layer : Z) (s : SurfaceState) : SurfaceState :=
  Surface (su_name s) (su_width s) (su_height s) layer (su_alpha s) (su_x s) (su_y s)
    (su_crop_width s) (su_crop_height s) (su_visible s).
Definition set_alpha (alpha : f32) (s : SurfaceState) : SurfaceState :=
  Surface (su_name s) (su_width s) (su_height s) (su_layer s) alpha (su_x s) (su_y s)
    (su_crop_width s) (su_crop_height s) (su_visible s).
Definition set_position (x y : f32) (s : SurfaceState) : SurfaceState :=
  Surface (su_name s) (su_width s) (su_height s) (su_layer s) (su_alpha s) x y
    (su_crop_width s) (su_crop_height s) (su_visible s).
Definition set_crop (w h : Z) (s : SurfaceState) : SurfaceState :=
  Surface (su_name s) (su_width s) (su_height s) (su_layer s) (su_alpha s) (su_x s) (su_y s)
    w h (su_visible s).

(** platform/android-aarch64/services/muplard.cpp:540-551 (apply_surface_transaction)
    A line that creates a surface: none if it is not valid. *)
Definition create_surface (updated : surfaces) (fields : list (list Z)) : res (option surfaces) :=
  id ← stoull (field_or fields 1);
  width ← stoi (field_or fields 3);
  height ← stoi (field_or fields 4);
  let surface := Surface (field_or fields 2) width height 0 (f32_of_Z 1) (f32_of_Z 0) (f32_of_Z 0)
                   width height false in
  Ok (if negb (id =? 0) && (0 <=? width) && (0 <=? height) && negb (bool_decide (is_Some (updated !! id)))
      then Some (<[id := surface]> updated) else None).
(** platform/android-aarch64/services/muplard.cpp:552-576 (apply_surface_transaction)
    A line that changes a surface. *)
Definition change_surface (updated : surfaces) (fields : list (list Z)) : res (option surfaces) :=
  id ← stoull (field_or fields 1);
  match updated !! id with
  | None => Ok None
  | Some s =>
      let n := Z.of_nat (length fields) in
      let op := field_or fields 0 in
      if eq_str op (cs "show") then Ok (Some (<[id := set_visible true s]> updated))
      else if eq_str op (cs "hide") then Ok (Some (<[id := set_visible false s]> updated))
      else if (n =? 3) && eq_str op (cs "layer") then
        layer ← stoi (field_or fields 2); Ok (Some (<[id := set_layer layer s]> updated))
      else if (n =? 3) && eq_str op (cs "alpha") then
        '(alpha, _) ← stof (field_or fields 2); Ok (Some (<[id := set_alpha alpha s]> updated))
      else if (n =? 4) && eq_str op (cs "position") then
        '(x, _) ← stof (field_or fields 2); '(y, _) ← stof (field_or fields 3);
        Ok (Some (<[id := set_position x y s]> updated))
      else if (n =? 4) && eq_str op (cs "crop") then
        w ← stoi (field_or fields 2); h ← stoi (field_or fields 3);
        Ok (Some (<[id := set_crop w h s]> updated))
      else Ok None
  end.
(** platform/android-aarch64/services/muplard.cpp:537-582 (apply_surface_transaction)
    One line: what the surfaces become, none if it is not valid; a number
    that cannot be read makes it invalid. *)
Definition surface_line (updated : surfaces) (fields : list (list Z)) : res (option surfaces) :=
  let n := Z.of_nat (length fields) in
  catch
    (if (2 <=? n) && eq_str (field_or fields 0) (cs "remove") then
       id ← stoull (field_or fields 1); Ok (Some (delete id updated))
     else if (n =? 5) && eq_str (field_or fields 0) (cs "create") then create_surface updated fields
     else if 2 <=? n then change_surface updated fields
     else Ok None)
    (Ok None).
(** platform/android-aarch64/services/muplard.cpp:526-586 (apply_surface_transaction) *)
Definition transaction_body (payload : list Z) (st : Z * surfaces) : res (ctl (Z * surfaces) (option surfaces)) :=
  let '(start, updated) := st in
  if start <? size payload then
    let end_ := str_find payload [newline] start in
    line ← substr payload start (u64 (end_ - start));
    fields ← split_fields tab line;
    next ← surface_line updated fields;
    Ok (match next with
        | None => Stop None
        | Some updated => if end_ =? npos then Stop (Some updated) else Next (u64 (end_ + 1), updated)
        end)
  else Ok (Stop (Some updated)).
(** platform/android-aarch64/services/muplard.cpp:519-589 (apply_surface_transaction)
    The surfaces afterwards and whether the transaction was valid. *)
Definition apply_surface_transaction (now : surfaces) (payload : list Z) : res (surfaces * bool) :=
  r ← loop (S (length payload)) (transaction_body payload) (0, now);
  Ok (match r with Some updated => (updated, true) | None => (now, false) end).

(** platform/android-aarch64/services/muplard.cpp:597-602 (surface_list) *)
Definition surface_le (a b : Z * SurfaceState) : Prop :=
  if su_layer a.2 =? su_layer b.2 then a.1 <= b.1 else su_layer a.2 < su_layer b.2.
#[global] Instance surface_le_dec : RelDecision surface_le.
Proof. intros a b. unfold surface_le. destruct (_ =? _); apply _. Defined.
(** platform/android-aarch64/services/muplard.cpp:604-614 (surface_list) *)
Definition surface_row (entry : Z * SurfaceState) : list Z :=
  let '(id, s) := entry in
  [newline] ++ decimal id ++ [tab] ++ su_name s ++ [tab] ++ decimal (su_layer s) ++ [tab] ++
  cs (if su_visible s then "visible" else "hidden") ++ [tab] ++ to_string_f32 (su_alpha s) ++ [tab] ++
  to_string_f32 (su_x s) ++ cs "," ++ to_string_f32 (su_y s) ++ [tab] ++
  decimal (su_crop_width s) ++ cs "x" ++ decimal (su_crop_height s).
(** platform/android-aarch64/services/muplard.cpp:591-616 (surface_list) *)
Definition surface_list (m : surfaces) (generation : Z) : list Z :=
  cs "generation=" ++ decimal generation ++ concat (surface_row <$> merge_sort surface_le (map_to_list m)).
(** Lines of fields separated by tabs. *)
Definition rows (lines : list (list string)) : list Z :=
  concat ((λ l, concat ((λ '(i, s), (if decide (i = 0%nat) then [] else [tab]) ++ cs s) <$> imap pair l) ++ [newline]) <$> lines).
(** platform/android-aarch64/services/muplard.cpp:621-626 (run_surface_self_test) *)
Definition self_test_transaction : list Z :=
  rows [["create"; "1"; "background"; "800"; "600"]; ["create"; "2"; "launcher"; "400"; "300"];
        ["layer"; "1"; "0"]; ["layer"; "2"; "10"]; ["show"; "2"]; ["alpha"; "2"; "0.75"];
        ["position"; "2"; "20"; "30"]; ["crop"; "2"; "320"; "240"]]%string.
(** platform/android-aarch64/services/muplard.cpp:618-640 (run_surface_self_test) *)
Definition run_surface_self_test : res Z :=
  '(now, ok) ← apply_surface_transaction ∅ (take (length self_test_transaction - 1) self_test_transaction);
  if negb ok then Ok 1 else
  '(after, ok) ← apply_surface_transaction now (cs "show" ++ [tab] ++ cs "1" ++ [newline] ++ cs "layer" ++ [tab] ++ cs "999" ++ [tab] ++ cs "4");
  if (ok : bool) || negb (base.size after =? base.size now)%nat ||
     match after !! 1 with Some s => su_visible s | None => false end then Ok 1 else
  let text := surface_list after 1 in
  Ok (if contains text (cs "2" ++ [tab] ++ cs "launcher" ++ [tab] ++ cs "10" ++ [tab] ++ cs "visible") &&
         contains text (cs "0.750000") && contains text (cs "320x240") then 0 else 1).

(** ** The device *)

(** platform/android-aarch64/services/muplard.cpp:364-372 (DeviceState) *)
Record DeviceState := Device {
  de_generation : Z;
  de_action : list Z; de_tab : list Z; de_apk : list Z;
  de_package_name : list Z; de_activity : list Z; de_application : list Z;
}.
(** platform/android-aarch64/services/muplard.cpp:374-384 (DeviceInputState) *)
Record DeviceInputState := Input {
  in_generation : Z;
  in_tab : list Z;
  in_type : Z; in_action : Z; in_source : Z; in_device_id : Z; in_key_code : Z;
  in_x : f32; in_y : f32;
}.
(** platform/android-aarch64/services/muplard.cpp:386-389 (TabFinishedState) *)
Record TabFinishedState := Tab { ta_generation : Z; ta_tab : list Z }.

(** [parsed] of the number functions equals the size: nothing follows. *)
Definition all_parsed {A} (r : res (A * list Z)) : option A :=
  match r with Ok (a, []) => Some a | _ => None end.
(** platform/android-aarch64/services/muplard.cpp:391-404 (parse_int32) *)
Definition parse_int32 (value : list Z) : option Z :=
  z ← all_parsed (stol value);
  if (z <? -2147483648) || (2147483647 <? z) then None else Some z.
(** platform/android-aarch64/services/muplard.cpp:406-418 (parse_float) *)
Definition parse_float (value : list Z) : option f32 := all_parsed (stof value).

(** platform/android-aarch64/services/muplard.cpp:420-428 (valid_device_action) *)
Definition valid_device_action (action : list Z) : bool :=
  bool_decide (action ∈ cs <$> [ "back"; "home"; "recents"; "settings"; "install-apk"; "focus-tab";
    "close-tab"; "package-installed"; "all-apps" ]%string).
(** platform/android-aarch64/services/muplard.cpp:430-453 (apply_device_action) *)
Definition apply_device_action (state : DeviceState) (payload : list Z) : res (DeviceState * bool) :=
  fields ← split_fields newline payload;
  if negb (valid_device_action (field_or fields 0)) then Ok (state, false)
  else Ok (Device (u64 (de_generation state + 1)) (field_or fields 0) (field_or fields 1) (field_or fields 2)
             (field_or fields 3) (field_or fields 4) (field_or fields 5), true).
(** platform/android-aarch64/services/muplard.cpp:465-480 (apply_device_input) *)
Definition parse_input (generation : Z) (fields : list (list Z)) : option DeviceInputState :=
  match fields with
  | [tab; type; action; source; device_id; key_code; x; y] =>
      type ← parse_int32 type;
      action ← parse_int32 action;
      source ← parse_int32 source;
      device_id ← parse_int32 device_id;
      key_code ← parse_int32 key_code;
      x ← parse_float x;
      y ← parse_float y;
      if negb (type =? 1) && negb (type =? 2) then None
      else Some (Input (u64 (generation + 1)) tab type action source device_id key_code x y)
  | _ => None
  end.
(** platform/android-aarch64/services/muplard.cpp:455-482 (apply_device_input) *)
Definition apply_device_input (state : DeviceInputState) (payload : list Z) : res (DeviceInputState * bool) :=
  fields ← split_fields newline payload;
  Ok (match parse_input (in_generation state) fields with Some next => (next, true) | None => (state, false) end).
(** A line of a reply. *)
Definition line (name : string) (value : list Z) : list Z := [newline] ++ cs name ++ value.
(** platform/android-aarch64/services/muplard.cpp:484-491 (device_state_reply) *)
Definition device_state_reply (s : DeviceState) : list Z :=
  cs "generation=" ++ decimal (de_generation s) ++ line "action=" (de_action s) ++ line "tab=" (de_tab s) ++
  line "apk=" (de_apk s) ++ line "package=" (de_package_name s) ++ line "activity=" (de_activity s) ++
  line "application=" (de_application s).
(** platform/android-aarch64/services/muplard.cpp:493-502 (device_input_reply) *)
Definition device_input_reply (s : DeviceInputState) : list Z :=
  cs "generation=" ++ decimal (in_generation s) ++ line "tab=" (in_tab s) ++
  line "type=" (decimal (in_type s)) ++ line "action=" (decimal (in_action s)) ++
  line "source=" (decimal (in_source s)) ++ line "deviceId=" (decimal (in_device_id s)) ++
  line "keyCode=" (decimal (in_key_code s)) ++ line "x=" (to_string_f32 (in_x s)) ++
  line "y=" (to_string_f32 (in_y s)).
(** platform/android-aarch64/services/muplard.cpp:504-511 (apply_tab_finished) *)
Definition apply_tab_finished (state : TabFinishedState) (payload : list Z) : TabFinishedState * bool :=
  if eq_str payload [] then (state, false) else (Tab (u64 (ta_generation state + 1)) payload, true).
(** platform/android-aarch64/services/muplard.cpp:513-517 (tab_finished_reply) *)
Definition tab_finished_reply (s : TabFinishedState) : list Z :=
  cs "generation=" ++ decimal (ta_generation s) ++ line "tab=" (ta_tab s).

Definition no_device : DeviceState := Device 0 [] [] [] [] [] [].
Definition no_input : DeviceInputState := Input 0 [] 0 0 0 0 0 (f32_of_Z 0) (f32_of_Z 0).
Definition no_tab : TabFinishedState := Tab 0 [].
(** The fields of a request, a line each. *)
Definition fields_text (fields : list string) : list Z :=
  concat (imap (λ i s, (if decide (i = 0%nat) then [] else [newline]) ++ cs s) fields).
(** platform/android-aarch64/services/muplard.cpp:642-680 (run_device_self_test) *)
Definition run_device_self_test : res Z :=
  '(state, ok) ← apply_device_action no_device (fields_text ["invalid"; "launcher"]%string);
  if (ok : bool) then Ok 1 else
  '(state, ok) ← apply_device_action state
     (fields_text ["focus-tab"; "launcher"; "/apk.apk"; "pkg"; ".Main"; "pkg.App"]%string);
  if negb ok || negb (de_generation state =? 1) || negb (eq_str (de_action state) (cs "focus-tab")) ||
     negb (eq_str (de_tab state) (cs "launcher")) || negb (eq_str (de_apk state) (cs "/apk.apk")) ||
     negb (eq_str (de_package_name state) (cs "pkg")) || negb (eq_str (de_activity state) (cs ".Main")) ||
     negb (eq_str (de_application state) (cs "pkg.App")) then Ok 1 else
  '(state, ok) ← apply_device_action state (fields_text ["back"; "launcher"]%string);
  if negb ok || negb (de_generation state =? 2) || negb (eq_str (de_action state) (cs "back")) then Ok 1 else
  let reply := device_state_reply state in
  if negb (forallb (λ s, contains reply (cs s)) ["generation=2"; "action=back"; "tab=launcher"]%string)
  then Ok 1 else
  '(input, ok) ← apply_device_input no_input
     (fields_text ["launcher"; "2"; "0"; "4098"; "1"; "0"; "120.5"; "240"]%string);
  if negb ok || negb (in_generation input =? 1) || negb (in_type input =? 2) || negb (in_action input =? 0) ||
     negb (feq (in_x input) (f32_lit 241 2)) then Ok 1 else
  '(input, ok) ← apply_device_input input
     (fields_text ["launcher"; "9"; "0"; "4098"; "1"; "0"; "0"; "0"]%string);
  if (ok : bool) then Ok 1 else
  let reply := device_input_reply input in
  if negb (forallb (λ s, contains reply (cs s)) ["generation=1"; "type=2"; "x=120.500000"]%string)
  then Ok 1 else Ok 0.

(** ** The program's own tests *)

Example surface_self_test : run_surface_self_test = Ok 0.
Proof. vm_compute. reflexivity. Qed.
Example device_self_test : run_device_self_test = Ok 0.
Proof. vm_compute. reflexivity. Qed.
