(* ===== verification/MuplardServer.v ===== *)
(** * The service daemon

    platform/android-aarch64/services/muplard.cpp:39-81, 119-151 and 821-1285:
    the loop of main, which accepts clients, takes one message at a time from
    those that are ready, answers it, forwards binder transactions between
    clients, and forgets clients that are gone.  What the operating system
    answers is the class [Os]; the results of poll, accept and recv are the
    arguments of a round.  What the daemon does with its connections is kept
    as a list of events. *)

From S2P Require Import Prelude Decimal Cxx Float32 Numbers Muplard MuplardState.

(** ** The state *)

(** platform/android-aarch64/services/muplard.cpp:44-54 (Client) *)
Record Client := NewClient {
  cl_fd : Z; cl_pid : Z; cl_uid : Z;
  cl_package_subscriber : bool;
  cl_device_action_subscriber : bool;
  cl_device_input_subscriber : bool;
  cl_owned_services : gset (list Z);
  cl_app_package : list Z; cl_app_activity : list Z;
}.
(** platform/android-aarch64/services/muplard.cpp:911-915 (PendingTransaction) *)
Record PendingTransaction := Pending { pt_caller_fd : Z; pt_owner_fd : Z; pt_caller_request_id : Z }.

(** What happened on a descriptor; of a message that is sent, how many of its
    bytes went out. *)
Inductive event :=
  | Accepted (fd : Z)
  | Received (fd : Z) (h : MessageHeader) (payload : list Z)
  | Sent (fd : Z) (h : MessageHeader) (payload : list Z) (count : Z)
  | Closed (fd : Z).

(** platform/android-aarch64/services/muplard.cpp:910-931 (main)
    The variables of main; then the calls of the operating system so far, the
    events, the files, and how many descriptors that clients have passed are
    open. *)
Record daemon := Daemon {
  d_services : gmap (list Z) Z;
  d_pending : gmap Z PendingTransaction;
  d_surfaces : surfaces;
  d_surface_generation : Z;
  d_device : DeviceState;
  d_input : DeviceInputState;
  d_tab : TabFinishedState;
  d_next_transaction_id : Z;
  d_clients : list Client;
  d_package_generation : Z;
  d_stamp : Z;
  d_settings : gmap (list Z) (list Z);
  d_calls : nat;
  d_events : list event;
  d_files : files;
  d_passed : Z;
}.

Definition set_services x d := Daemon x (d_pending d) (d_surfaces d) (d_surface_generation d) (d_device d)
  (d_input d) (d_tab d) (d_next_transaction_id d) (d_clients d) (d_package_generation d) (d_stamp d)
  (d_settings d) (d_calls d) (d_events d) (d_files d) (d_passed d).
Definition set_pending x d := Daemon (d_services d) x (d_surfaces d) (d_surface_generation d) (d_device d)
  (d_input d) (d_tab d) (d_next_transaction_id d) (d_clients d) (d_package_generation d) (d_stamp d)
  (d_settings d) (d_calls d) (d_events d) (d_files d) (d_passed d).
Definition set_surfaces x g d := Daemon (d_services d) (d_pending d) x g (d_device d)
  (d_input d) (d_tab d) (d_next_transaction_id d) (d_clients d) (d_package_generation d) (d_stamp d)
  (d_settings d) (d_calls d) (d_events d) (d_files d) (d_passed d).
Definition set_device x d := Daemon (d_services d) (d_pending d) (d_surfaces d) (d_surface_generation d) x
  (d_input d) (d_tab d) (d_next_transaction_id d) (d_clients d) (d_package_generation d) (d_stamp d)
  (d_settings d) (d_calls d) (d_events d) (d_files d) (d_passed d).
Definition set_input x d := Daemon (d_services d) (d_pending d) (d_surfaces d) (d_surface_generation d)
  (d_device d) x (d_tab d) (d_next_transaction_id d) (d_clients d) (d_package_generation d) (d_stamp d)
  (d_settings d) (d_calls d) (d_events d) (d_files d) (d_passed d).
Definition set_tab x d := Daemon (d_services d) (d_pending d) (d_surfaces d) (d_surface_generation d)
  (d_device d) (d_input d) x (d_next_transaction_id d) (d_clients d) (d_package_generation d) (d_stamp d)
  (d_settings d) (d_calls d) (d_events d) (d_files d) (d_passed d).
Definition set_next_transaction_id x d := Daemon (d_services d) (d_pending d) (d_surfaces d)
  (d_surface_generation d) (d_device d) (d_input d) (d_tab d) x (d_clients d) (d_package_generation d)
  (d_stamp d) (d_settings d) (d_calls d) (d_events d) (d_files d) (d_passed d).
Definition set_clients x d := Daemon (d_services d) (d_pending d) (d_surfaces d) (d_surface_generation d)
  (d_device d) (d_input d) (d_tab d) (d_next_transaction_id d) x (d_package_generation d) (d_stamp d)
  (d_settings d) (d_calls d) (d_events d) (d_files d) (d_passed d).
Definition set_registry g stamp d := Daemon (d_services d) (d_pending d) (d_surfaces d) (d_surface_generation d)
  (d_device d) (d_input d) (d_tab d) (d_next_transaction_id d) (d_clients d) g stamp
  (d_settings d) (d_calls d) (d_events d) (d_files d) (d_passed d).
Definition set_settings x d := Daemon (d_services d) (d_pending d) (d_surfaces d) (d_surface_generation d)
  (d_device d) (d_input d) (d_tab d) (d_next_transaction_id d) (d_clients d) (d_package_generation d)
  (d_stamp d) x (d_calls d) (d_events d) (d_files d) (d_passed d).
Definition add_calls n d := Daemon (d_services d) (d_pending d) (d_surfaces d) (d_surface_generation d)
  (d_device d) (d_input d) (d_tab d) (d_next_transaction_id d) (d_clients d) (d_package_generation d)
  (d_stamp d) (d_settings d) (d_calls d + n) (d_events d) (d_files d) (d_passed d).
Definition add_event e d := Daemon (d_services d) (d_pending d) (d_surfaces d) (d_surface_generation d)
  (d_device d) (d_input d) (d_tab d) (d_next_transaction_id d) (d_clients d) (d_package_generation d)
  (d_stamp d) (d_settings d) (d_calls d) (d_events d ++ [e]) (d_files d) (d_passed d).
Definition set_files x d := Daemon (d_services d) (d_pending d) (d_surfaces d) (d_surface_generation d)
  (d_device d) (d_input d) (d_tab d) (d_next_transaction_id d) (d_clients d) (d_package_generation d)
  (d_stamp d) (d_settings d) (d_calls d) (d_events d) x (d_passed d).
Definition add_passed n d := Daemon (d_services d) (d_pending d) (d_surfaces d) (d_surface_generation d)
  (d_device d) (d_input d) (d_tab d) (d_next_transaction_id d) (d_clients d) (d_package_generation d)
  (d_stamp d) (d_settings d) (d_calls d) (d_events d) (d_files d) (d_passed d + n).

(** ** Computations on it *)

(** An exception that no handler catches ends the process: it is [Throw]. *)
Definition Srv (A : Type) : Type := daemon → res (A * daemon).
#[global] Instance Srv_ret : MRet Srv := λ A a d, Ok (a, d).
#[global] Instance Srv_bind : MBind Srv := λ A B f m d, '(a, d) ← m d; f a d.
Definition get {A} (f : daemon → A) : Srv A := λ d, Ok (f d, d).
Definition modify (f : daemon → daemon) : Srv () := λ d, Ok ((), f d).
Definition pure {A} (r : res A) : Srv A := λ d, a ← r; Ok (a, d).
(** [for (const auto &x : l)] *)
Fixpoint each {A} (f : A → Srv ()) (l : list A) : Srv () :=
  match l with [] => mret () | x :: l => _ ← f x; each f l end.

(** The operating system, by the number of the call: what send answers when
    asked for so many bytes, the milliseconds since the start, the text and
    the stamp of the registry; the four bytes of a header that belong to no
    member, the path of the settings, and the order an unordered_map is
    walked in. *)
Class Os := {
  os_files :: Files;
  os_send : nat → Z → Z → Z;
  os_uptime : nat → Z;
  os_registry : nat → option (list Z);
  os_stamp : nat → Z;
  os_pad : list Z;
  os_settings_path : list Z;
  os_order : gmap Z PendingTransaction → list (Z * PendingTransaction);
}.
Class OsLaws (os : Os) := {
  os_files_laws :: FilesLaws os_files;
  send_asked n fd k : os_send n fd k <= k;
  pad_length : length os_pad = 4%nat;
  order_all m : os_order m ≡ₚ map_to_list m;
}.

(** What poll says of a client and what is read from it then: whether it is
    gone, whether it is ready; the bytes recvmsg gives and the descriptor that
    came with them, as the size fstat tells or that fstat fails; what recv
    gives. *)
Record revent := Revent {
  re_gone : bool; re_in : bool;
  re_header : list Z; re_passed : option (option Z); re_chunks : list (list Z);
}.
Definition no_event : revent := Revent false false [] None [].
(** One call of poll: whether it fails, whether there is a connection to
    accept and what accept gives (its descriptor, process and user; nothing if
    it fails), and the clients. *)
Record poll_result := Polled {
  po_failed : bool; po_ready : bool; po_accept : option (Z * Z * Z); po_clients : list revent;
}.

Section Server.
Context `{Os}.

(** The number of a call, and that there was one more. *)
Definition call : Srv nat := n ← get d_calls; _ ← modify (add_calls 1); mret n.

(** ** Messages *)

(** platform/android-aarch64/services/muplard.cpp:72-79 (send_message)
    How many bytes went out; each call sends one or ends it. *)
Fixpoint send_go (fuel : nat) (fd total sent : Z) : Srv Z :=
  if total <=? sent then mret sent else
  match fuel with
  | O => λ _, Spin
  | S fuel =>
      n ← call;
      let count := os_send n fd (total - sent) in
      if count <=? 0 then mret sent else send_go fuel fd total (sent + count)
  end.
(** platform/android-aarch64/services/muplard.cpp:56-81 (send_message) *)
Definition send_message (fd : Z) (opcode : Opcode) (request_id : Z) (payload : list Z) (is_reply : bool) : Srv bool :=
  let h := message_header opcode request_id payload is_reply in
  let total := size (header_bytes os_pad h ++ payload) in
  sent ← send_go (Z.to_nat total) fd total 0;
  _ ← modify (add_event (Sent fd h payload sent));
  mret (total <=? sent).

(** [clients[i]] *)
Definition client (i : nat) : Srv Client := cs ← get d_clients; pure (at_ cs (Z.of_nat i)).
Definition change_client (i : nat) (f : Client → Client) : Srv () :=
  modify (λ d, set_clients (alter f i (d_clients d)) d).
(** The answer to the client a message is from, whose failure is not looked
    at. *)
Definition reply (i : nat) (opcode : Opcode) (h : MessageHeader) (payload : list Z) : Srv () :=
  c ← client i;
  _ ← send_message (cl_fd c) opcode (h_request_id h) payload true;
  mret ().
(** [valid ? "1" : "0"], [valid ? std::to_string(n) : "0"] *)
Definition yes_no (b : bool) : list Z := cs (if b then "1" else "0").
Definition number_or_0 (b : bool) (n : Z) : list Z := if b then decimal n else cs "0".

(** ** Requests *)

(** platform/android-aarch64/services/muplard.cpp:982-988 (main) *)
Definition check_service (i : nat) (h : MessageHeader) (payload : list Z) : Srv () :=
  services ← get d_services;
  reply i CheckService h
    (cs match services !! payload with None => "0" | Some fd => if 0 <=? fd then "2" else "1" end).
(** platform/android-aarch64/services/muplard.cpp:989-999 (main) *)
Definition register_service (i : nat) (h : MessageHeader) (payload : list Z) : Srv () :=
  services ← get d_services;
  c ← client i;
  let available := negb (eq_str payload []) &&
                   match services !! payload with None => true | Some fd => fd <? 0 end in
  _ ← (if available then
         _ ← modify (set_services (<[payload := cl_fd c]> services));
         change_client i (λ c, NewClient (cl_fd c) (cl_pid c) (cl_uid c) (cl_package_subscriber c)
           (cl_device_action_subscriber c) (cl_device_input_subscriber c)
           ({[payload]} ∪ cl_owned_services c) (cl_app_package c) (cl_app_activity c))
       else mret ());
  reply i RegisterService h (yes_no available).
(** platform/android-aarch64/services/muplard.cpp:1000-1004 (main) *)
Definition subscribe_packages (i : nat) (h : MessageHeader) : Srv () :=
  _ ← change_client i (λ c, NewClient (cl_fd c) (cl_pid c) (cl_uid c) true
        (cl_device_action_subscriber c) (cl_device_input_subscriber c)
        (cl_owned_services c) (cl_app_package c) (cl_app_activity c));
  g ← get d_package_generation;
  reply i SubscribePackages h (decimal g).
(** platform/android-aarch64/services/muplard.cpp:1005-1009 (main) *)
Definition client_info (i : nat) (h : MessageHeader) : Srv () :=
  c ← client i;
  reply i ClientInfo h (cs "pid=" ++ decimal (cl_pid c) ++ line "uid=" (decimal (cl_uid c))).
(** platform/android-aarch64/services/muplard.cpp:231-238 (read_text_file)
    and 1010-1013. *)
Definition query_packages (i : nat) (h : MessageHeader) : Srv () :=
  n ← call;
  reply i QueryPackages h (default (cs "count=0" ++ [newline]) (os_registry n)).
(** platform/android-aarch64/services/muplard.cpp:1014-1024 (main) *)
Definition app_session (i : nat) (h : MessageHeader) (payload : list Z) : Srv () :=
  let separator := str_find payload [newline] 0 in
  package ← pure (substr payload 0 separator);
  activity ← pure (if separator =? npos then Ok [] else substr payload (u64 (separator + 1)) npos);
  _ ← change_client i (λ c, NewClient (cl_fd c) (cl_pid c) (cl_uid c) (cl_package_subscriber c)
        (cl_device_action_subscriber c) (cl_device_input_subscriber c)
        (cl_owned_services c) package activity);
  reply i AppSession h (yes_no (negb (eq_str package []))).
(** platform/android-aarch64/services/muplard.cpp:1026-1036 (main) *)
Definition task_rows (clients : list Client) : list Z :=
  join_lines ((λ c, cl_app_package c ++ [tab] ++ cl_app_activity c ++ [tab] ++
                    decimal (cl_pid c) ++ [tab] ++ decimal (cl_uid c)) <$>
              filter (λ c, cl_app_package c ≠ []) clients).
(** platform/android-aarch64/services/muplard.cpp:1025-1038 (main) *)
Definition query_tasks (i : nat) (h : MessageHeader) : Srv () :=
  clients ← get d_clients;
  reply i QueryTasks h (task_rows clients).
(** platform/android-aarch64/services/muplard.cpp:1039-1045 (main)
    The descriptor that came with the message, as what fstat tells of it. *)
Definition fd_echo (i : nat) (h : MessageHeader) (passed : option (option Z)) : Srv () :=
  reply i FdEcho h (match passed with Some (Some n) => decimal n | _ => cs "-1" end).
(** platform/android-aarch64/services/muplard.cpp:1046-1051 (main) *)
Definition get_setting (i : nat) (h : MessageHeader) (payload : list Z) : Srv () :=
  settings ← get d_settings;
  reply i GetSetting h (default [] (settings !! payload)).
(** platform/android-aarch64/services/muplard.cpp:1060-1061 (main)
    Change a setting and write the file; the change stays when that fails. *)
Definition store_setting (key value : list Z) : Srv bool :=
  settings ← get d_settings;
  let settings := <[key := value]> settings in
  _ ← modify (set_settings settings);
  n ← get d_calls;
  _ ← modify (add_calls 4);
  m ← get d_files;
  let '(m, ok) := save_settings n os_settings_path settings m in
  _ ← modify (set_files m);
  mret ok.
(** platform/android-aarch64/services/muplard.cpp:1052-1064 (main) *)
Definition put_setting (i : nat) (h : MessageHeader) (payload : list Z) : Srv () :=
  let separator := str_find payload [newline] 0 in
  key ← pure (if separator =? npos then Ok [] else substr payload 0 separator);
  valid ← (if negb (separator =? npos) && negb (eq_str key []) then
             value ← pure (substr payload (u64 (separator + 1)) npos);
             store_setting key value
           else mret false);
  reply i PutSetting h (yes_no valid).
(** platform/android-aarch64/services/muplard.cpp:1065-1070 (main) *)
Definition service_state (i : nat) (h : MessageHeader) : Srv () :=
  services ← get d_services;
  n ← call;
  reply i ServiceState h (framework_service_state services fs_pid (os_uptime n)).
(** platform/android-aarch64/services/muplard.cpp:1071-1073 (main)
    [settings["users"]] adds the key if it is not there. *)
Definition query_users (i : nat) (h : MessageHeader) : Srv () :=
  settings ← get d_settings;
  let users := default [] (settings !! cs "users") in
  _ ← modify (set_settings (<[cs "users" := users]> settings));
  reply i QueryUsers h users.
(** platform/android-aarch64/services/muplard.cpp:1074-1093 (main) *)
Definition check_permission (i : nat) (h : MessageHeader) (payload : list Z) : Srv () :=
  let first := str_find payload [newline] 0 in
  let second := if first =? npos then npos else str_find payload [newline] (u64 (first + 1)) in
  package ← pure (substr payload 0 first);
  user ← pure (if first =? npos then Ok []
               else substr payload (u64 (first + 1)) (u64 (second - first - 1)));
  permission ← pure (if second =? npos then Ok [] else substr payload (u64 (second + 1)) npos);
  settings ← get d_settings;
  granted ← pure (permission_granted settings package user permission);
  reply i CheckPermission h (cs (if granted : bool then "0" else "-1")).
(** platform/android-aarch64/services/muplard.cpp:1094-1123 (main) *)
Definition set_permission (i : nat) (h : MessageHeader) (payload : list Z) : Srv () :=
  let first := str_find payload [newline] 0 in
  let second := if first =? npos then npos else str_find payload [newline] (u64 (first + 1)) in
  let third := if second =? npos then npos else str_find payload [newline] (u64 (second + 1)) in
  valid ← (if negb (first =? npos) && negb (second =? npos) && negb (third =? npos) then
             package ← pure (substr payload 0 first);
             user ← pure (substr payload (u64 (first + 1)) (u64 (second - first - 1)));
             permission ← pure (substr payload (u64 (second + 1)) (u64 (third - second - 1)));
             value ← pure (substr payload (u64 (third + 1)) npos);
             if negb (eq_str package []) && negb (eq_str user []) && negb (eq_str permission []) &&
                (eq_str value (cs "grant") || eq_str value (cs "deny"))
             then store_setting (permission_key package user permission) value
             else mret false
           else mret false);
  reply i SetPermission h (yes_no valid).
(** platform/android-aarch64/services/muplard.cpp:1124-1132 (main) *)
Definition surface_transaction (i : nat) (h : MessageHeader) (payload : list Z) : Srv () :=
  now ← get d_surfaces;
  g ← get d_surface_generation;
  '(now, valid) ← pure (apply_surface_transaction now payload);
  let g := if (valid : bool) then u64 (g + 1) else g in
  _ ← modify (set_surfaces now g);
  reply i ApplySurfaceTransaction h (number_or_0 valid g).
(** platform/android-aarch64/services/muplard.cpp:1133-1136 (main) *)
Definition query_surfaces (i : nat) (h : MessageHeader) : Srv () :=
  now ← get d_surfaces;
  g ← get d_surface_generation;
  reply i QuerySurfaces h (surface_list now g).
(** platform/android-aarch64/services/muplard.cpp:1137-1141 (main) *)
Definition subscribe_device_actions (i : nat) (h : MessageHeader) : Srv () :=
  _ ← change_client i (λ c, NewClient (cl_fd c) (cl_pid c) (cl_uid c) (cl_package_subscriber c)
        true (cl_device_input_subscriber c) (cl_owned_services c) (cl_app_package c) (cl_app_activity c));
  s ← get d_device;
  reply i SubscribeDeviceActions h (device_state_reply s).
(** platform/android-aarch64/services/muplard.cpp:1142-1146 (main) *)
Definition subscribe_device_inputs (i : nat) (h : MessageHeader) : Srv () :=
  _ ← change_client i (λ c, NewClient (cl_fd c) (cl_pid c) (cl_uid c) (cl_package_subscriber c)
        (cl_device_action_subscriber c) true (cl_owned_services c) (cl_app_package c) (cl_app_activity c));
  s ← get d_input;
  reply i SubscribeDeviceInputs h (device_input_reply s).
(** platform/android-aarch64/services/muplard.cpp:1157-1163 (main)
    A message to all clients of a kind; the same loop is at 1175-1181 and
    1270-1275. *)
Definition notify (subscriber : Client → bool) (opcode : Opcode) (payload : list Z) : Srv () :=
  clients ← get d_clients;
  each (λ c, if subscriber c then _ ← send_message (cl_fd c) opcode 0 payload false; mret () else mret ())
    clients.
(** platform/android-aarch64/services/muplard.cpp:1147-1164 (main) *)
Definition device_action (i : nat) (h : MessageHeader) (payload : list Z) : Srv () :=
  s ← get d_device;
  '(s, valid) ← pure (apply_device_action s payload);
  _ ← modify (set_device s);
  _ ← reply i DeviceAction h (number_or_0 valid (de_generation s));
  if (valid : bool) then notify cl_device_action_subscriber DeviceActionChanged (device_state_reply s)
  else mret ().
(** platform/android-aarch64/services/muplard.cpp:1165-1182 (main) *)
Definition device_input (i : nat) (h : MessageHeader) (payload : list Z) : Srv () :=
  s ← get d_input;
  '(s, valid) ← pure (apply_device_input s payload);
  _ ← modify (set_input s);
  _ ← reply i DeviceInput h (number_or_0 valid (in_generation s));
  if (valid : bool) then notify cl_device_input_subscriber DeviceInputChanged (device_input_reply s)
  else mret ().
(** platform/android-aarch64/services/muplard.cpp:1183-1186 (main) *)
Definition query_device_state (i : nat) (h : MessageHeader) : Srv () :=
  s ← get d_device; reply i QueryDeviceState h (device_state_reply s).
(** platform/android-aarch64/services/muplard.cpp:1187-1194 (main) *)
Definition tab_finished (i : nat) (h : MessageHeader) (payload : list Z) : Srv () :=
  s ← get d_tab;
  let '(s, valid) := apply_tab_finished s payload in
  _ ← modify (set_tab s);
  reply i TabFinished h (number_or_0 valid (ta_generation s)).
(** platform/android-aarch64/services/muplard.cpp:1195-1198 (main) *)
Definition query_tab_finished (i : nat) (h : MessageHeader) : Srv () :=
  s ← get d_tab; reply i QueryTabFinished h (tab_finished_reply s).

(** ** Binder transactions *)

(** platform/android-aarch64/services/muplard.cpp:1199-1221 (main) *)
Definition binder_transact (i : nat) (h : MessageHeader) (payload : list Z) : Srv () :=
  let separator := str_find payload [newline] 0 in
  service ← pure (substr payload 0 separator);
  services ← get d_services;
  c ← client i;
  match services !! service with
  | Some owner =>
      if (separator =? npos) || (owner <? 0) then reply i BinderTransact h (cs "DEAD_OBJECT")
      else
        id ← get d_next_transaction_id;
        _ ← modify (set_next_transaction_id (u64 (id + 1)));
        pending ← get d_pending;
        _ ← modify (set_pending (<[id := Pending (cl_fd c) owner (h_request_id h)]> pending));
        body ← pure (substr payload (u64 (separator + 1)) npos);
        sent ← send_message owner BinderIncoming id body false;
        if (sent : bool) then mret ()
        else
          pending ← get d_pending;
          _ ← modify (set_pending (delete id pending));
          reply i BinderTransact h (cs "DEAD_OBJECT")
  | None => reply i BinderTransact h (cs "DEAD_OBJECT")
  end.
(** platform/android-aarch64/services/muplard.cpp:1222-1233 (main) *)
Definition binder_reply (i : nat) (h : MessageHeader) (payload : list Z) : Srv () :=
  pending ← get d_pending;
  c ← client i;
  match pending !! h_request_id h with
  | Some p =>
      if pt_owner_fd p =? cl_fd c then
        _ ← send_message (pt_caller_fd p) BinderTransact (pt_caller_request_id p) payload true;
        modify (set_pending (delete (h_request_id h) pending))
      else mret ()
  | None => mret ()
  end.

(** platform/android-aarch64/services/muplard.cpp:974-1234 (main)
    A message with another opcode is not answered. *)
Definition dispatch (i : nat) (h : MessageHeader) (payload : list Z) (passed : option (option Z)) : Srv () :=
  match opcode_of (h_opcode h) with
  | Some Ping => reply i Ping h (cs "pong")
  | Some ListServices => services ← get d_services; reply i ListServices h (service_list services)
  | Some CheckService => check_service i h payload
  | Some RegisterService => register_service i h payload
  | Some SubscribePackages => subscribe_packages i h
  | Some ClientInfo => client_info i h
  | Some QueryPackages => query_packages i h
  | Some AppSession => app_session i h payload
  | Some QueryTasks => query_tasks i h
  | Some FdEcho => fd_echo i h passed
  | Some GetSetting => get_setting i h payload
  | Some PutSetting => put_setting i h payload
  | Some ServiceState => service_state i h
  | Some QueryUsers => query_users i h
  | Some CheckPermission => check_permission i h payload
  | Some SetPermission => set_permission i h payload
  | Some ApplySurfaceTransaction => surface_transaction i h payload
  | Some QuerySurfaces => query_surfaces i h
  | Some SubscribeDeviceActions => subscribe_device_actions i h
  | Some SubscribeDeviceInputs => subscribe_device_inputs i h
  | Some DeviceAction => device_action i h payload
  | Some DeviceInput => device_input i h payload
  | Some QueryDeviceState => query_device_state i h
  | Some TabFinished => tab_finished i h payload
  | Some QueryTabFinished => query_tab_finished i h
  | Some BinderTransact => binder_transact i h payload
  | Some BinderReply => binder_reply i h payload
  | Some PackageChanged | Some BinderIncoming | Some DeviceActionChanged | Some DeviceInputChanged
  | None => mret ()
  end.

(** ** Clients *)

Definition is_passed (passed : option (option Z)) : Z := match passed with Some _ => 1 | None => 0 end.
(** platform/android-aarch64/services/muplard.cpp:119-151 (receive_header_with_fd)
    and 956-1238: take a message and answer it; whether the client is to be
    removed.  A descriptor that comes with less than a header stays open. *)
Definition serve_client (i : nat) (ev : revent) : Srv bool :=
  c ← client i;
  _ ← modify (add_passed (is_passed (re_passed ev)));
  if negb (size (re_header ev) =? 24) then mret true
  else
    let h := header_of (re_header ev) in
    remove ←
      (if negb (header_ok h) then mret true
       else match (receive_exact (re_chunks ev) (h_payload_size h)).1 with
            | None => mret true
            | Some payload =>
                _ ← modify (add_event (Received (cl_fd c) h payload));
                _ ← dispatch i h payload (re_passed ev);
                mret false
            end);
    _ ← modify (add_passed (- is_passed (re_passed ev)));
    mret remove.

(** platform/android-aarch64/services/muplard.cpp:1241-1255 (main)
    One pending transaction when a client goes: if it was the owner, the
    caller is told; either way the transaction is forgotten. *)
Definition drop_pending (fd : Z) (entry : Z * PendingTransaction) : Srv () :=
  let '(id, p) := entry in
  if pt_owner_fd p =? fd then
    _ ← send_message (pt_caller_fd p) BinderTransact (pt_caller_request_id p) (cs "DEAD_OBJECT") true;
    modify (λ d, set_pending (delete id (d_pending d)) d)
  else if pt_caller_fd p =? fd then modify (λ d, set_pending (delete id (d_pending d)) d)
  else mret ().
(** platform/android-aarch64/services/muplard.cpp:1256-1261 (main) *)
Definition drop_services (fd : Z) (owned : gset (list Z)) (services : gmap (list Z) Z) : gmap (list Z) Z :=
  filter (λ '(name, owner), ¬ (name ∈ owned ∧ owner = fd)) services.
(** platform/android-aarch64/services/muplard.cpp:1240-1264 (main) *)
Definition remove_client (i : nat) : Srv () :=
  c ← client i;
  pending ← get d_pending;
  _ ← each (drop_pending (cl_fd c)) (os_order pending);
  services ← get d_services;
  _ ← modify (set_services (drop_services (cl_fd c) (cl_owned_services c) services));
  _ ← modify (add_event (Closed (cl_fd c)));
  modify (λ d, set_clients (delete i (d_clients d)) d).
(** platform/android-aarch64/services/muplard.cpp:953-1265 (main) *)
Definition handle_client (i : nat) (ev : revent) : Srv () :=
  remove ← (if re_gone ev then mret true else if re_in ev then serve_client i ev else mret false);
  if (remove : bool) then remove_client i else mret ().
(** platform/android-aarch64/services/muplard.cpp:953-954 (main)
    The clients below [n], the last one first. *)
Fixpoint handle_clients (n : nat) (events : list revent) : Srv () :=
  match n with
  | O => mret ()
  | S i => _ ← handle_client i (default no_event (events !! i)); handle_clients i events
  end.

(** ** Rounds *)

(** platform/android-aarch64/services/muplard.cpp:943-951 (main)
    and 682-704 (identify_client). *)
Definition accept_client (fd pid uid : Z) : Srv () :=
  _ ← modify (add_event (Accepted fd));
  modify (λ d, set_clients (d_clients d ++ [NewClient fd pid uid false false false ∅ [] []]) d).
(** platform/android-aarch64/services/muplard.cpp:1267-1275 (main) *)
Definition check_registry : Srv () :=
  n ← call;
  stamp ← get d_stamp;
  if os_stamp n =? stamp then mret ()
  else
    g ← get d_package_generation;
    let g := u64 (g + 1) in
    _ ← modify (set_registry g (os_stamp n));
    notify cl_package_subscriber PackageChanged (decimal g).
(** platform/android-aarch64/services/muplard.cpp:934-1276 (main)
    One pass of the loop; whether there is another. *)
Definition round (p : poll_result) : Srv bool :=
  before ← get (λ d, length (d_clients d));
  if po_failed p then mret false
  else
    _ ← (if po_ready p then
           match po_accept p with Some (fd, pid, uid) => accept_client fd pid uid | None => mret () end
         else mret ());
    n ← get (λ d, length (d_clients d));
    _ ← handle_clients n (take before (po_clients p));
    _ ← check_registry;
    mret true.
(** platform/android-aarch64/services/muplard.cpp:934-1276 (main)
    The passes with these results of poll, until the daemon is told to stop. *)
Fixpoint rounds (ps : list poll_result) : Srv () :=
  match ps with
  | [] => mret ()
  | p :: ps => more ← round p; if (more : bool) then rounds ps else mret ()
  end.
(** platform/android-aarch64/services/muplard.cpp:1278-1279 (main) *)
Definition close_all : Srv () :=
  clients ← get d_clients;
  each (λ c, modify (add_event (Closed (cl_fd c)))) clients.
(** platform/android-aarch64/services/muplard.cpp:910-931 (main) *)
Definition start (m : files) : daemon :=
  let settings := load_settings (m !! os_settings_path) in
  Daemon builtin_services ∅ ∅ 0 no_device no_input no_tab 1 [] 1 (os_stamp 0)
    (match settings !! cs "users" with
     | Some _ => settings
     | None => <[cs "users" := cs "0"]> settings
     end) 1 [] m 0.
(** platform/android-aarch64/services/muplard.cpp:910-1279 (main)
    The daemon from its start to its end. *)
Definition main (m : files) (ps : list poll_result) : res daemon :=
  snd <$> (_ ← rounds ps; close_all) (start m).
End Server.
