(* ===== verification/MuplardProps.v ===== *)
(** * The service daemon: messages, settings, permissions, surfaces

    Messages arrive as they were sent, however they are cut; settings survive
    their file; permissions are of their user; a surface transaction is all or
    nothing. *)

From S2P Require Import Prelude Decimal Cxx Float32 Numbers Muplard MuplardState.

(** ** Messages *)

(** The chunks of a connection hold some bytes; no call of recv finds nothing
    before the end. *)
Definition arrives (chunks : list (list Z)) (bs : list Z) : Prop :=
  concat chunks = bs ∧ Forall (λ c, c ≠ []) chunks.

Lemma recv_spec chunks n bs : arrives chunks bs → 0 < n → bs ≠ [] →
  ∃ c rest, bs = c ++ rest ∧ c ≠ [] ∧ size c <= n ∧ (recv chunks n).1 = c ∧ arrives (recv chunks n).2 rest.
Proof.
  intros [<- Hc] Hn Hne. destruct chunks as [|c cs]; [done|]. inversion Hc as [|? ? Hc1 Hcs]; subst.
  cbn [recv concat]. destruct (Z.leb_spec (size c) n).
  - exists c, (concat cs). split_and!; try done.
  - unfold size in *. exists (take (Z.to_nat n) c), (drop (Z.to_nat n) c ++ concat cs).
    split_and!; cbn.
    + by rewrite app_assoc, take_drop.
    + destruct c, (Z.to_nat n) eqn:E; [done|done|lia|done].
    + rewrite length_take. lia.
    + done.
    + split; [done|]. constructor; [|done]. intros E%(f_equal length). rewrite length_drop in E. cbn in E. lia.
Qed.
Lemma receive_go_spec fuel chunks n got bs rest :
  arrives chunks (bs ++ rest) → size bs = n → (Z.to_nat n <= fuel)%nat →
  ∃ cs, receive_go fuel chunks n got = (Some (got ++ bs), cs) ∧ arrives cs rest.
Proof.
  revert chunks n got bs. induction fuel as [|fuel IH]; intros chunks n got bs Ha Hn Hf; cbn [receive_go].
  - destruct bs; unfold size in Hn; cbn in Hn; [|lia]. subst n. exists chunks. by rewrite app_nil_r.
  - destruct (Z.leb_spec n 0).
    { destruct bs; unfold size in Hn; cbn in Hn; [|lia]. exists chunks. by rewrite app_nil_r. }
    destruct (recv_spec chunks n (bs ++ rest) Ha) as (c & r & E & Hc & Hcn & Er & Har); [lia| |].
    { destruct bs; [unfold size in Hn; cbn in Hn; lia|done]. }
    destruct (recv chunks n) as [c' cs]. cbn in Er, Har. subst c'.
    assert (∃ bs', bs = c ++ bs' ∧ r = bs' ++ rest) as (bs' & -> & ->).
    { exists (drop (length c) bs). pose proof (f_equal (take (length c)) E) as E1.
      rewrite take_app_length, take_app_le in E1 by (unfold size in *; lia).
      split; [rewrite <- E1 at 1; by rewrite take_drop|].
      pose proof (f_equal (drop (length c)) E) as E2.
      by rewrite drop_app_length, drop_app_le in E2 by (unfold size in *; lia). }
    sizes. destruct c as [|b c]; [done|]. sizes. pose proof (size_nonneg c). pose proof (size_nonneg bs').
    rewrite app_assoc.
    apply IH; [done|lia|lia].
Qed.
Lemma receive_exact_spec chunks bs rest :
  arrives chunks (bs ++ rest) →
  ∃ cs, receive_exact chunks (size bs) = (Some bs, cs) ∧ arrives cs rest.
Proof. intros Ha. by apply (receive_go_spec _ _ _ []). Qed.

Definition header_valid (h : MessageHeader) : Prop :=
  in_u32 (h_magic h) ∧ in_u16 (h_version h) ∧ in_u16 (h_opcode h) ∧ in_u32 (h_payload_size h) ∧
  in_u64 (h_request_id h).
Lemma header_roundtrip pad h : length pad = 4%nat → header_valid h → header_of (header_bytes pad h) = h.
Proof.
  intros Hp (? & ? & ? & ? & ?). destruct h as [m v o p r]. unfold header_of, header_bytes. cbn [h_magic h_version h_opcode h_payload_size h_request_id] in *.
  assert (∀ n (z : Z) w, take n (le_split n z ++ w) = le_split n z) as Ht.
  { intros n z w. rewrite take_app_le by (rewrite length_le_split; lia).
    apply take_ge. rewrite length_le_split. lia. }
  assert (∀ k n (z : Z) w, (n <= k)%nat → drop k (le_split n z ++ w) = drop (k - n) w) as Hd.
  { intros k n z w Hk. rewrite drop_app_ge by (rewrite length_le_split; lia). by rewrite length_le_split. }
  assert (∀ k w, (4 <= k)%nat → drop k (pad ++ w) = drop (k - 4) w) as Hdp.
  { intros k w Hk. rewrite drop_app_ge by lia. by rewrite Hp. }
  rewrite Ht. repeat (rewrite Hd by lia; cbn [Nat.sub]; rewrite ?drop_0). rewrite !Ht.
  rewrite Hdp by lia. cbn [Nat.sub]. rewrite drop_0.
  rewrite (take_ge (le_split 8 r)) by (rewrite length_le_split; lia).
  rewrite !le_combine_split. f_equal; apply Z.mod_small; words; cbn; lia.
Qed.
Lemma size_header pad h : length pad = 4%nat → size (header_bytes pad h) = 24.
Proof. intros Hp. unfold header_bytes. sizes. unfold size. by rewrite Hp. Qed.

(** A message: its opcode, its number, its text and whether it is a reply. *)
Record message := Message { ms_opcode : Opcode; ms_id : Z; ms_payload : list Z; ms_reply : bool }.
Definition ms_header (m : message) : MessageHeader :=
  message_header (ms_opcode m) (ms_id m) (ms_payload m) (ms_reply m).
Definition ms_bytes (pad : list Z) (m : message) : list Z := header_bytes pad (ms_header m) ++ ms_payload m.
Definition message_ok (m : message) : Prop := in_u64 (ms_id m) ∧ size (ms_payload m) <= kMaxPayloadSize.

Lemma opcode_range o : 1 <= opcode_number o <= 31.
Proof. destruct o; vm_compute; split; discriminate. Qed.
Lemma opcode_back o : opcode_of (opcode_number o) = Some o.
Proof. by destruct o. Qed.
(** The flag of a reply does not mix with the opcode. *)
Lemma opcode_flag o (b : bool) :
  Z.lor (opcode_number o) (if b then kReplyFlag else 0) = opcode_number o + (if b then kReplyFlag else 0).
Proof. by destruct o, b. Qed.
Lemma ms_header_valid m : message_ok m →
  header_valid (ms_header m) ∧ header_ok (ms_header m) = true ∧ h_payload_size (ms_header m) = size (ms_payload m).
Proof.
  intros [Hid Hs]. unfold kMaxPayloadSize in Hs. pose proof (size_nonneg (ms_payload m)).
  unfold header_valid, header_ok, ms_header, message_header. cbn. rewrite opcode_flag.
  pose proof (opcode_range (ms_opcode m)).
  rewrite !u32_small by (words; lia). split_and!; try (words; lia).
  - unfold kProtocolMagic. words. lia.
  - unfold kProtocolVersion. words. lia.
  - unfold kReplyFlag. destruct (ms_reply m); words; lia.
  - unfold kProtocolMagic, kProtocolVersion, kMaxPayloadSize. cbn. by rewrite (proj2 (Z.ltb_ge _ _)) by lia.
Qed.

(** One message at the front of what arrives. *)
Lemma receive_message_spec pad m chunks rest :
  length pad = 4%nat → message_ok m → arrives chunks (ms_bytes pad m ++ rest) →
  ∃ cs, receive_message chunks = (Some (ms_header m, ms_payload m), cs) ∧ arrives cs rest.
Proof.
  intros Hp Hm Ha. destruct (ms_header_valid m Hm) as (Hv & Hok & Hsz). unfold ms_bytes in Ha.
  rewrite <- app_assoc in Ha. destruct (receive_exact_spec _ _ _ Ha) as (cs & E & Ha').
  rewrite size_header in E by done. unfold receive_message. rewrite E, header_roundtrip by done.
  rewrite Hok. cbn [negb]. rewrite Hsz. destruct (receive_exact_spec _ _ _ Ha') as (cs' & E' & Ha2).
  rewrite E'. by exists cs'.
Qed.

(** Receiving so many messages. *)
Fixpoint receive_messages (n : nat) (chunks : list (list Z)) : option (list (MessageHeader * list Z)) :=
  match n with
  | O => Some []
  | S n =>
      let '(m, cs) := receive_message chunks in
      m ← m; ms ← receive_messages n cs; Some (m :: ms)
  end.

(** C27. Messages written to a connection one after the other are received one
    after the other as they were: opcode, request number, payload; however
    the bytes are cut into pieces on their way, and whatever the unused bytes
    of the headers are. *)
Theorem messages_roundtrip pad ms chunks :
  length pad = 4%nat → Forall message_ok ms → arrives chunks (concat (ms_bytes pad <$> ms)) →
  receive_messages (length ms) chunks = Some ((λ m, (ms_header m, ms_payload m)) <$> ms).
Proof.
  intros Hp Hms. revert chunks. induction Hms as [|m ms Hm Hms IH]; intros chunks Ha; [done|].
  cbn [fmap list_fmap concat length receive_messages] in *.
  destruct (receive_message_spec pad m chunks _ Hp Hm Ha) as (cs & -> & Ha'). cbn [mbind option_bind].
  by rewrite (IH cs Ha').
Qed.

(** Witness of [messages_roundtrip] *)
Lemma messages_roundtrip_witness :
  receive_messages 2
    ((λ b, [b]) <$> concat (ms_bytes [0; 1; 2; 3] <$> [Message Ping 7 [] false; Message GetSetting 8 (cs "users") true])) =
  Some [(Header 0x4d555044 1 1 0 7, []); (Header 0x4d555044 1 0x800c 5 8, cs "users")].
Proof.
  apply (messages_roundtrip [0; 1; 2; 3] [Message Ping 7 [] false; Message GetSetting 8 (cs "users") true]).
  - done.
  - repeat constructor; vm_compute; congruence.
  - split; [by vm_compute|]. apply (bool_decide_unpack _). vm_compute. exact I.
Defined.

(** ** The settings file *)

Lemma read_quoted_tail_spec s acc rest :
  read_quoted_tail (concat ((λ c, if (c =? quote) || (c =? escape) then [escape; c] else [c]) <$> s) ++
                    [quote] ++ rest) acc = Some (acc ++ s, rest).
Proof.
  revert acc. induction s as [|c s IH]; intros acc; [by rewrite app_nil_r|].
  cbn [fmap list_fmap concat]. rewrite <- app_assoc.
  destruct ((c =? quote) || (c =? escape)) eqn:E.
  - cbn [app read_quoted_tail]. rewrite Z.eqb_refl, IH. by rewrite <- app_assoc.
  - apply orb_false_iff in E as [Eq Ee]. cbn [app read_quoted_tail]. rewrite Ee, Eq, IH. by rewrite <- app_assoc.
Qed.
Lemma read_quoted_spec pre s rest : Forall (λ c, is_space c = true) pre →
  read_quoted (pre ++ quoted s ++ rest) = Some (s, rest).
Proof.
  intros Hp. unfold read_quoted.
  assert (skip_space (pre ++ quoted s ++ rest) = quoted s ++ rest) as ->.
  { induction Hp as [|c pre Hc _ IH]; [done|]. cbn [app skip_space]. by rewrite Hc. }
  unfold quoted. rewrite <- !app_assoc. cbn [app]. rewrite Z.eqb_refl. apply read_quoted_tail_spec.
Qed.

Definition row (kv : list Z * list Z) : list Z := quoted kv.1 ++ [32] ++ quoted kv.2 ++ [newline].
Lemma parse_rows fuel kvs pre result :
  (length kvs <= fuel)%nat → Forall (λ c, is_space c = true) pre →
  parse_settings fuel (pre ++ concat (row <$> kvs)) result =
  foldl (λ r kv, <[kv.1 := kv.2]> r) result kvs.
Proof.
  revert kvs pre result. induction fuel as [|fuel IH]; intros [|[k v] kvs] pre result Hl Hp;
    cbn [length] in Hl; try lia; cbn [parse_settings fmap list_fmap concat foldl]; [done| |].
  - rewrite app_nil_r. unfold read_quoted.
    by replace (skip_space pre) with (@nil Z) by
      (clear -Hp; induction Hp as [|c pre Hc _ IH]; [done|]; cbn [skip_space]; by rewrite Hc).
  - unfold row at 1. cbn [fst snd]. rewrite <- !app_assoc.
    rewrite (read_quoted_spec pre) by done.
    rewrite (read_quoted_spec [32]) by by repeat constructor.
    apply (IH kvs [newline]); [lia|by repeat constructor].
Qed.

Lemma foldl_insert_lookup (kvs : list (list Z * list Z)) (r : gmap (list Z) (list Z)) k :
  NoDup kvs.*1 →
  foldl (λ r kv, <[kv.1 := kv.2]> r) r kvs !! k =
  match (list_to_map kvs : gmap (list Z) (list Z)) !! k with Some v => Some v | None => r !! k end.
Proof.
  revert r. induction kvs as [|[k' v] kvs IH]; intros r Hn; cbn [foldl fst snd].
  { by rewrite list_to_map_nil, lookup_empty. }
  rewrite list_to_map_cons.
  inversion Hn as [|? ? Hk Hn']; subst. rewrite IH by done. destruct (decide (k = k')) as [->|Hne].
  - rewrite lookup_insert_eq. rewrite (not_elem_of_list_to_map_1 kvs k') by done. by rewrite lookup_insert_eq.
  - by rewrite !lookup_insert_ne by done.
Qed.

Definition settings_rows (m : gmap (list Z) (list Z)) : list (list Z * list Z) :=
  (λ k, (k, default [] (m !! k))) <$> sort_strings (map_to_list m).*1.
Lemma settings_rows_text m : settings_text m = concat (row <$> settings_rows m).
Proof. unfold settings_text, settings_rows. by rewrite <- list_fmap_compose. Qed.
Lemma settings_rows_map m : NoDup (settings_rows m).*1 ∧ (list_to_map (settings_rows m) : gmap (list Z) (list Z)) = m.
Proof.
  assert ((settings_rows m).*1 = sort_strings (map_to_list m).*1) as Ek.
  { unfold settings_rows. rewrite <- list_fmap_compose. apply list_fmap_id. }
  assert (NoDup (settings_rows m).*1) as Hn.
  { rewrite Ek, sort_strings_Permutation. apply NoDup_fst_map_to_list. }
  split; [done|]. apply map_eq. intros k. destruct (m !! k) as [v|] eqn:E.
  - apply elem_of_list_to_map_1; [done|]. unfold settings_rows. apply list_elem_of_fmap.
    exists k. rewrite E. split; [done|]. rewrite sort_strings_Permutation. apply list_elem_of_fmap.
    exists (k, v). split; [done|]. by apply elem_of_map_to_list.
  - apply not_elem_of_list_to_map_1. rewrite Ek, sort_strings_Permutation.
    intros ([k' v] & -> & Hk)%list_elem_of_fmap. apply elem_of_map_to_list in Hk. cbn in *. congruence.
Qed.
Lemma row_length kv : (0 < length (row kv))%nat.
Proof. unfold row, quoted. rewrite !length_app. cbn. lia. Qed.
Lemma load_text m : load_settings (Some (settings_text m)) = m.
Proof.
  unfold load_settings. rewrite settings_rows_text. destruct (settings_rows_map m) as [Hn Hm].
  assert (∀ kvs, length kvs <= length (concat (row <$> kvs)))%nat as Hl.
  { intros kvs. induction kvs as [|kv kvs IH]; [done|]. cbn. rewrite length_app. pose proof (row_length kv). lia. }
  pose proof (parse_rows (S (length (concat (row <$> settings_rows m)))) (settings_rows m) [] ∅) as Hp.
  cbn [app] in Hp. rewrite Hp by (first [by constructor|specialize (Hl (settings_rows m)); lia]).
  apply map_eq. intros k. rewrite foldl_insert_lookup, Hm by done. by destruct (m !! k).
Qed.

(** The file with the settings is not where the new one is written. *)
Lemma temporary_ne `{Files} path : temporary_path path ≠ path.
Proof.
  unfold temporary_path. intros E%(f_equal length). rewrite !length_app in E. cbn in E. lia.
Qed.

(** C26. Saving the settings leaves other files than theirs and the temporary
    one alone.  If it says it succeeded, loading the file gives the settings
    back; if not, the file is as it was, or, only when both renames failed and
    the removal between them did not, it is gone. *)
Theorem settings_saved `{FilesLaws} n path settings m m' ok :
  save_settings n path settings m = (m', ok) →
  (∀ p, p ≠ path → p ≠ temporary_path path → m' !! p = m !! p) ∧
  if ok then load_settings (m' !! path) = settings
  else m' !! path = m !! path ∨
       m' !! path = None ∧ fs_rename (n + 1) = false ∧ fs_remove (n + 2) = true ∧ fs_rename (n + 3) = false.
Proof.
  pose proof (temporary_ne path) as Hne. unfold save_settings, rename.
  destruct (fs_write n _) as [[stored good]|] eqn:Ew.
  2:{ intros [= <- <-]. split; [done|by left]. }
  destruct good; cbn [negb].
  2:{ intros [= <- <-]. split; [|left]; intros; by rewrite lookup_insert_ne. }
  apply write_whole in Ew as ->. rewrite lookup_insert_eq.
  destruct (fs_rename (n + 1)) eqn:E1.
  { intros [= <- <-]. split.
    - intros p Hp Ht. by rewrite lookup_insert_ne, lookup_delete_ne, lookup_insert_ne.
    - rewrite lookup_insert_eq. apply load_text. }
  set (m1 := if fs_remove (n + 2) then _ else _).
  assert (m1 !! temporary_path path = Some (settings_text settings)) as Et.
  { unfold m1. destruct (fs_remove _); rewrite ?lookup_delete_ne by done; apply lookup_insert_eq. }
  assert (∀ p, p ≠ path → p ≠ temporary_path path → m1 !! p = m !! p) as Ho.
  { intros p ? ?. unfold m1. destruct (fs_remove _); rewrite ?lookup_delete_ne by done; by rewrite lookup_insert_ne. }
  rewrite Et. destruct (fs_rename (n + 3)) eqn:E3; intros [= <- <-].
  - split.
    + intros p ? ?. rewrite lookup_insert_ne, lookup_delete_ne by done. by apply Ho.
    + rewrite lookup_insert_eq. apply load_text.
  - split; [done|]. unfold m1. destruct (fs_remove (n + 2)) eqn:E2.
    + right. by rewrite lookup_delete_eq.
    + left. by rewrite lookup_insert_ne.
Qed.

(** Files where every operation succeeds. *)
Definition toy_files : Files := {|
  fs_write n data := Some (data, true); fs_rename n := true; fs_remove n := true; fs_pid := 42 |}.
#[export] Instance toy_files_laws : FilesLaws toy_files.
Proof. split. by intros n data stored [= ->]. Qed.
Definition toy_settings : gmap (list Z) (list Z) :=
  {[ cs "users" := cs "0,10"; cs "a b" := [34; 92; 10; 0; 255]; [] := cs "empty key" ]}.

(** Witness of [settings_saved] *)
Lemma settings_saved_witness :
  let r := @save_settings toy_files 0 (cs "/s") toy_settings {[ cs "/other" := [1] ]} in
  r.2 = true ∧ load_settings (r.1 !! cs "/s") = toy_settings ∧ r.1 !! cs "/other" = Some [1].
Proof.
  set (r := @save_settings _ _ _ _ _). cbv zeta.
  assert (r = (r.1, true)) as E by (vm_compute; reflexivity). split; [by rewrite E|].
  destruct (@settings_saved toy_files _ 0 (cs "/s") toy_settings {[ cs "/other" := [1] ]} r.1 true E) as [Ho Hl].
  split; [exact Hl|]. rewrite Ho; [by vm_compute|decides..].
Defined.

(** ** The service daemon: texts of requests

    What the loops over the fields of a text compute; users and permissions;
    surface transactions, which are all or nothing and do what their commands
    say. *)

(** ** Fields *)

Lemma split_loop u s c fuel fields :
  size (u ++ s) < 4611686018427387904 → (length s < fuel)%nat →
  loop fuel (split_body c (u ++ s)) (size u, fields) = Ok (fields ++ split_on c s).
Proof.
  revert u s fields. induction fuel as [|fuel IH]; intros u s fields Hs Hl; [lia|].
  pose proof (size_nonneg s).
  assert (size u <=? size (u ++ s) = true) as Hle by (apply Z.leb_le; sizes; lia).
  destruct (next_field u s c Hs) as [(En & Ef & Es)|(f & r & -> & En & Ef & Eu & Es)].
  - apply loop_stop. unfold split_body. rewrite Hle, Ef, En. cbn [mbind res_bind].
    by rewrite Z.eqb_refl, Es.
  - rewrite (loop_next _ fuel _ (size (u ++ f ++ [c]), fields ++ [f])).
    2:{ unfold split_body. rewrite Hle, Ef, Eu. cbn [mbind res_bind].
        by rewrite (proj2 (Z.eqb_neq _ npos)) by done. }
    rewrite Es. replace (u ++ f ++ c :: r) with ((u ++ f ++ [c]) ++ r) in * by by rewrite <- !app_assoc.
    rewrite IH; [by rewrite <- app_assoc|done|]. rewrite length_app in Hl. cbn in Hl. lia.
Qed.
Lemma split_fields_eq c s : size s < 4611686018427387904 → split_fields c s = Ok (split_on c s).
Proof. intros Hs. apply (split_loop [] s); [done|lia]. Qed.

(** ** Users and permissions *)

Lemma user_loop u s user fuel :
  size (u ++ s) < 4611686018427387904 → (length s < fuel)%nat →
  loop fuel (user_body (u ++ s) user) (size u) = Ok (bool_decide (user ∈ split_on 44 s)).
Proof.
  revert u s. induction fuel as [|fuel IH]; intros u s Hs Hl; [lia|]. pose proof (size_nonneg s).
  assert (size u <=? size (u ++ s) = true) as Hle by (apply Z.leb_le; sizes; lia).
  destruct (next_field u s 44 Hs) as [(En & Ef & Es)|(f & r & -> & En & Ef & Eu & Es)]; rewrite Es.
  - apply loop_stop. unfold user_body. change (cs ",") with [44]. rewrite Hle, Ef, En. cbn [mbind res_bind].
    rewrite Z.eqb_refl. unfold eq_str. f_equal. case_bool_decide as E; case_bool_decide as E2; set_solver.
  - assert (user_body (u ++ f ++ 44 :: r) user (size u) =
      Ok (if eq_str f user then Stop true else Next (size (u ++ f ++ [44])))) as Eb.
    { unfold user_body. change (cs ",") with [44]. rewrite Hle, Ef, Eu. cbn [mbind res_bind].
      by rewrite (proj2 (Z.eqb_neq _ npos)) by done. }
    unfold eq_str in Eb. case_bool_decide as E.
    + rewrite (loop_stop _ fuel _ _ Eb). rewrite bool_decide_eq_true_2; [done|set_solver].
    + rewrite (loop_next _ fuel _ _ Eb).
      replace (u ++ f ++ 44 :: r) with ((u ++ f ++ [44]) ++ r) in * by by rewrite <- !app_assoc.
      rewrite IH; [|done|rewrite length_app in Hl; cbn in Hl; lia].
      f_equal. apply bool_decide_ext. set_solver.
Qed.
(** The users are the fields of the setting. *)
Definition users (settings : gmap (list Z) (list Z)) : list (list Z) :=
  split_on 44 (default (cs "0") (settings !! cs "users")).
Definition users_fit (settings : gmap (list Z) (list Z)) : Prop :=
  ∀ v, settings !! cs "users" = Some v → size v < 4611686018427387904.
Lemma user_exists_eq settings user : users_fit settings →
  user_exists settings user = Ok (bool_decide (user ∈ users settings)).
Proof.
  intros Hf. unfold user_exists, users. apply (user_loop []); [|lia]. cbn [app].
  destruct (settings !! cs "users") as [v|] eqn:E; [by apply Hf|done].
Qed.

Definition colon : Z := 58.
Lemma app_sep_inj (a b a' b' : list Z) c : c ∉ a → c ∉ a' → a ++ c :: b = a' ++ c :: b' → a = a' ∧ b = b'.
Proof.
  revert a'. induction a as [|x a IH]; intros [|y a'] Ha Ha' E; cbn [app] in E; simplify_eq;
    [done|set_solver|set_solver|].
  edestruct (IH a') as [-> ->]; [set_solver..|done|done].
Qed.
(** Names without colons are told apart by their keys. *)
Lemma permission_key_inj p u r p' u' r' :
  colon ∉ u → colon ∉ u' → colon ∉ p → colon ∉ p' →
  permission_key p u r = permission_key p' u' r' → p = p' ∧ u = u' ∧ r = r'.
Proof.
  intros ? ? ? ? E. unfold permission_key in E. apply app_inv_head in E.
  apply (app_sep_inj u _ u') in E as [-> E]; [|done..].
  by apply (app_sep_inj p _ p') in E as [-> ->].
Qed.
Lemma permission_key_users p u r : permission_key p u r ≠ cs "users".
Proof. by intros [=]. Qed.

(** What is granted without a decision. *)
Definition default_grant (settings : gmap (list Z) (list Z)) (package user permission : list Z) : Prop :=
  user ∈ users settings ∧ package ≠ [] ∧ permission ≠ [] ∧ (permission ∉ dangerous).
#[global] Instance default_grant_dec settings p u r : Decision (default_grant settings p u r).
Proof. unfold default_grant. apply _. Defined.
(** The decision, or the default. *)
Definition granted (settings : gmap (list Z) (list Z)) (package user permission : list Z) : Prop :=
  match settings !! permission_key package user permission with
  | Some v => v = cs "grant"
  | None => default_grant settings package user permission
  end.
#[global] Instance granted_dec settings p u r : Decision (granted settings p u r).
Proof. unfold granted. destruct (_ !! _); apply _. Defined.
Lemma permission_granted_eq settings p u r : users_fit settings →
  permission_granted settings p u r = Ok (bool_decide (granted settings p u r)).
Proof.
  intros Hf. unfold permission_granted. destruct (settings !! _) as [v|] eqn:E.
  { unfold eq_str. f_equal. apply bool_decide_ext. unfold granted. by rewrite E. }
  rewrite user_exists_eq by done. cbn [mbind res_bind]. unfold eq_str.
  rewrite <- !bool_decide_not, <- !bool_decide_and. f_equal. apply bool_decide_ext.
  unfold granted, default_grant. rewrite E. tauto.
Qed.

(** After a permission of a package and a user is decided, it is granted
    just when the decision says so, and every other triple of names without
    colons is as before; a triple without a decision is granted to a user that
    exists unless the permission is a dangerous one. *)
Theorem permission_policy settings p u r v p' u' r' :
  users_fit settings → colon ∉ u → colon ∉ u' → colon ∉ p → colon ∉ p' →
  let decided := <[permission_key p u r := v]> settings in
  permission_granted decided p u r = Ok (bool_decide (v = cs "grant")) ∧
  ((p', u', r') ≠ (p, u, r) → permission_granted decided p' u' r' = permission_granted settings p' u' r') ∧
  (settings !! permission_key p u r = None →
   permission_granted settings p u r = Ok (bool_decide (default_grant settings p u r))).
Proof.
  intros Hf ? ? ? ? decided.
  assert (decided !! cs "users" = settings !! cs "users") as Eu.
  { apply lookup_insert_ne, permission_key_users. }
  assert (users_fit decided) as Hf' by (unfold users_fit; by rewrite Eu).
  split_and!.
  - rewrite permission_granted_eq by done. f_equal. apply bool_decide_ext. unfold granted, decided.
    by rewrite lookup_insert_eq.
  - intros Hne. rewrite !permission_granted_eq by done. f_equal. apply bool_decide_ext.
    unfold granted, default_grant, users. rewrite Eu. unfold decided. rewrite lookup_insert_ne; [done|].
    intros E%permission_key_inj; [|done..]. naive_solver.
  - intros E. rewrite permission_granted_eq by done. f_equal. apply bool_decide_ext. unfold granted. by rewrite E.
Qed.

(** Witness of [permission_policy] *)
Lemma permission_policy_witness :
  let settings := {[ cs "users" := cs "0,10" ]} in
  let camera := cs "android.permission.CAMERA" in
  permission_granted settings (cs "com.a") (cs "10") camera = Ok false ∧
  permission_granted (<[permission_key (cs "com.a") (cs "10") camera := cs "grant"]> settings)
    (cs "com.a") (cs "10") camera = Ok true.
Proof.
  cbv zeta. assert (users_fit {[ cs "users" := cs "0,10" ]}) as Hf.
  { intros v. rewrite lookup_singleton_eq. intros [= <-]. by vm_compute. }
  split.
  - destruct (permission_policy {[ cs "users" := cs "0,10" ]} (cs "com.a") (cs "10")
      (cs "android.permission.CAMERA") [] [] [] [] Hf) as (_ & _ & Hd); [decides..|].
    rewrite Hd; [by vm_compute|by vm_compute].
  - destruct (permission_policy {[ cs "users" := cs "0,10" ]} (cs "com.a") (cs "10")
      (cs "android.permission.CAMERA") (cs "grant") [] [] [] Hf) as (Hg & _ & _); [decides..|].
    rewrite Hg. by vm_compute.
Defined.
(** Names with colons share a decision. *)
Example permission_keys_meet : permission_key (cs "b:c") (cs "a") (cs "p") = permission_key (cs "c") (cs "a:b") (cs "p").
Proof. reflexivity. Qed.

(** ** Surface transactions *)

(** The lines of a payload: its fields between line breaks, without an empty
    one at the end. *)
Fixpoint payload_lines (ls : list (list Z)) : list (list Z) :=
  match ls with
  | [] => []
  | [x] => match x with [] => [] | _ => [x] end
  | x :: ls => x :: payload_lines ls
  end.

(** A line never throws. *)
Lemma stoull_res s : (∃ z, stoull s = Ok z) ∨ (∃ e, stoull s = Throw e).
Proof. unfold stoull. repeat case_match; eauto. Qed.
Lemma stoi_res s : (∃ z, stoi s = Ok z) ∨ (∃ e, stoi s = Throw e).
Proof. unfold stoi, stol. repeat (case_match; cbn [mbind res_bind]); eauto. Qed.
Lemma f32_scaled_res neg a b e : (∃ x, f32_scaled neg a b e = Ok x) ∨ (∃ x, f32_scaled neg a b e = Throw x).
Proof. unfold f32_scaled, f32_quotient. repeat case_match; eauto. Qed.
Lemma stof_res s : (∃ x, stof s = Ok x) ∨ (∃ e, stof s = Throw e).
Proof.
  unfold stof. repeat (case_match; cbn [mbind res_bind]); eauto;
    match goal with |- context [f32_scaled ?n ?a ?b ?e] =>
      destruct (f32_scaled_res n a b e) as [[? ->]|[? ->]]; cbn; eauto end.
Qed.
Ltac numbers := repeat match goal with
  | |- context [stoull ?s] => destruct (stoull_res s) as [[? ->]|[? ->]]; cbn [mbind res_bind catch]; [|by eauto]
  | |- context [stoi ?s] => destruct (stoi_res s) as [[? ->]|[? ->]]; cbn [mbind res_bind catch]; [|by eauto]
  | |- context [stof ?s] => destruct (stof_res s) as [[[? ?] ->]|[? ->]]; cbn [mbind res_bind catch]; [|by eauto]
  end.
Lemma surface_line_total m fields : ∃ o, surface_line m fields = Ok o.
Proof.
  unfold surface_line, create_surface, change_surface.
  destruct (_ && eq_str (field_or fields 0) (cs "remove")); [numbers; by eauto|].
  destruct (_ && eq_str (field_or fields 0) (cs "create")); [numbers; by eauto|].
  destruct (2 <=? _); [|by eauto]. numbers. destruct (m !! _); [|by eauto].
  repeat (match goal with |- context [if ?b then _ else _] => destruct b end; [numbers; by eauto|]). by eauto.
Qed.
(** What a line makes of the surfaces. *)
Definition do_line (m : surfaces) (l : list Z) : option surfaces :=
  match surface_line m (split_on tab l) with Ok o => o | _ => None end.
Definition do_lines (ls : list (list Z)) (m : surfaces) : option surfaces :=
  foldl (λ o l, m ← o; do_line m l) (Some m) ls.
Lemma do_lines_cons l ls m : do_lines (l :: ls) m = m ← do_line m l; do_lines ls m.
Proof.
  unfold do_lines. cbn [foldl mbind option_bind]. destruct (do_line m l); [done|]. cbn.
  induction ls as [|l' ls IH]; [done|]. by cbn.
Qed.

Lemma transaction_loop u s fuel m :
  size (u ++ s) < 4611686018427387904 → (length s < fuel)%nat →
  loop fuel (transaction_body (u ++ s)) (size u, m) = Ok (do_lines (payload_lines (split_on newline s)) m).
Proof.
  revert u s m. induction fuel as [|fuel IH]; intros u s m Hs Hl; [lia|].
  destruct (decide (s = [])) as [->|Hne].
  { apply loop_stop. unfold transaction_body. by rewrite app_nil_r, Z.ltb_irrefl. }
  assert (size u <? size (u ++ s) = true) as Hlt.
  { apply Z.ltb_lt. rewrite size_app. destruct s; [done|]. rewrite size_cons. pose proof (size_nonneg s). lia. }
  assert (∀ a f b, u ++ s = a ++ f ++ b → size f < 4611686018427387904) as Hf.
  { intros a f b E. rewrite E in Hs. sizes. pose proof (size_nonneg a). pose proof (size_nonneg b). lia. }
  destruct (next_field u s newline Hs) as [(En & Ef & Es)|(f & r & -> & En & Ef & Eu & Es)]; rewrite Es.
  - apply loop_stop. unfold transaction_body. rewrite Hlt, Ef, En. cbn [mbind res_bind].
    rewrite split_fields_eq by (apply (Hf u s []); by rewrite app_nil_r). cbn [mbind res_bind].
    destruct (surface_line_total m (split_on tab s)) as [o Ho]. rewrite Ho. cbn [mbind res_bind].
    rewrite Z.eqb_refl. cbn [payload_lines]. destruct s; [done|]. rewrite do_lines_cons. unfold do_line.
    rewrite Ho. by destruct o.
  - pose proof (split_on_nonempty newline r) as Hr.
    assert (payload_lines (f :: split_on newline r) = f :: payload_lines (split_on newline r)) as ->.
    { by destruct (split_on newline r). }
    rewrite do_lines_cons. unfold do_line. destruct (surface_line_total m (split_on tab f)) as [o Ho]. rewrite Ho.
    assert (transaction_body (u ++ f ++ newline :: r) (size u, m) =
      Ok (match o with None => Stop None | Some m => Next (size (u ++ f ++ [newline]), m) end)) as Eb.
    { unfold transaction_body. rewrite Hlt, Ef, Eu. cbn [mbind res_bind].
      rewrite split_fields_eq by (by apply (Hf u f (newline :: r))). cbn [mbind res_bind]. rewrite Ho.
      cbn [mbind res_bind]. by rewrite (proj2 (Z.eqb_neq _ npos)) by done. }
    destruct o as [m'|]; cbn [mbind option_bind].
    + rewrite (loop_next _ fuel _ _ Eb).
      replace (u ++ f ++ newline :: r) with ((u ++ f ++ [newline]) ++ r) in * by by rewrite <- !app_assoc.
      apply IH; [done|]. rewrite length_app in Hl. cbn in Hl. lia.
    + by rewrite (loop_stop _ fuel _ _ Eb).
Qed.
(** A transaction is all of its lines or nothing. *)
Lemma apply_surface_transaction_eq m payload : size payload < 4611686018427387904 →
  apply_surface_transaction m payload =
  Ok (match do_lines (payload_lines (split_on newline payload)) m with
      | Some m' => (m', true)
      | None => (m, false)
      end).
Proof.
  intros Hs. unfold apply_surface_transaction.
  pose proof (transaction_loop [] payload (S (length payload)) m Hs ltac:(lia)) as E.
  cbn [app] in E. change (size []) with 0 in E. by rewrite E.
Qed.

(** *** Commands *)

(** A number with a point is given by its text. *)
Inductive command :=
  | Create (id : Z) (name : list Z) (width height : Z)
  | Remove (id : Z)
  | Show (id : Z)
  | Hide (id : Z)
  | Layer (id layer : Z)
  | Alpha (id : Z) (alpha : list Z)
  | Position (id : Z) (x y : list Z)
  | Crop (id width height : Z).
Definition command_fields (c : command) : list (list Z) :=
  match c with
  | Create id name w h => [cs "create"; decimal id; name; decimal w; decimal h]
  | Remove id => [cs "remove"; decimal id]
  | Show id => [cs "show"; decimal id]
  | Hide id => [cs "hide"; decimal id]
  | Layer id l => [cs "layer"; decimal id; decimal l]
  | Alpha id a => [cs "alpha"; decimal id; a]
  | Position id x y => [cs "position"; decimal id; x; y]
  | Crop id w h => [cs "crop"; decimal id; decimal w; decimal h]
  end.
(** What a command means: none if it cannot be done. *)
Definition upd (m : surfaces) (id : Z) (f : SurfaceState → SurfaceState) : option surfaces :=
  s ← m !! id; Some (<[id := f s]> m).
Definition number (text : list Z) : option f32 := match stof text with Ok (x, _) => Some x | _ => None end.
Definition run_command (m : surfaces) (c : command) : option surfaces :=
  match c with
  | Create id name w h =>
      if decide (id ≠ 0 ∧ 0 <= w ∧ 0 <= h ∧ m !! id = None)
      then Some (<[id := Surface name w h 0 (f32_of_Z 1) (f32_of_Z 0) (f32_of_Z 0) w h false]> m) else None
  | Remove id => Some (delete id m)
  | Show id => upd m id (set_visible true)
  | Hide id => upd m id (set_visible false)
  | Layer id l => upd m id (set_layer l)
  | Alpha id a => if m !! id then a ← number a; upd m id (set_alpha a) else None
  | Position id x y => if m !! id then x ← number x; y ← number y; upd m id (set_position x y) else None
  | Crop id w h => upd m id (set_crop w h)
  end.
Definition run_commands (cs : list command) (m : surfaces) : option surfaces :=
  foldl (λ o c, m ← o; run_command m c) (Some m) cs.
Definition plain (t : list Z) : Prop := tab ∉ t ∧ newline ∉ t.
Definition command_ok (c : command) : Prop :=
  match c with
  | Create id name w h => in_u64 id ∧ plain name ∧ in_s32 w ∧ in_s32 h
  | Remove id | Show id | Hide id => in_u64 id
  | Layer id l => in_u64 id ∧ in_s32 l
  | Alpha id a => in_u64 id ∧ plain a
  | Position id x y => in_u64 id ∧ plain x ∧ plain y
  | Crop id w h => in_u64 id ∧ in_s32 w ∧ in_s32 h
  end.

(** The text of a transaction: a line for each command. *)
Fixpoint join_with (c : Z) (fields : list (list Z)) : list Z :=
  match fields with [] => [] | [f] => f | f :: fs => f ++ c :: join_with c fs end.
Definition transaction_text (cs : list command) : list Z :=
  concat ((λ c, join_with tab (command_fields c) ++ [newline]) <$> cs).

Lemma split_join c fields : fields ≠ [] → Forall (λ f, c ∉ f) fields → split_on c (join_with c fields) = fields.
Proof.
  induction fields as [|f fields IH]; [done|]. intros _ Hf. inversion Hf as [|? ? Hf1 Hfs]; subst.
  destruct fields as [|f2 fields]; [by apply split_on_none|].
  change (join_with c (f :: f2 :: fields)) with (f ++ c :: join_with c (f2 :: fields)).
  rewrite split_on_field by done. by rewrite IH.
Qed.
Lemma join_no_sep c sep fields : c ≠ sep → Forall (λ f, c ∉ f) fields → c ∉ join_with sep fields.
Proof.
  intros Hne. induction fields as [|f fields IH]; intros Hf; [set_solver|]. inversion Hf as [|? ? Hf1 Hfs]; subst.
  destruct fields as [|f2 fields]; [done|]. change (c ∉ f ++ sep :: join_with sep (f2 :: fields)).
  specialize (IH Hfs). set_solver.
Qed.
Lemma decimal_plain z : plain (decimal z).
Proof. unfold plain, tab, newline. split; intros [?|?]%decimal_chars; lia. Qed.
Lemma command_fields_plain c : command_ok c → Forall plain (command_fields c).
Proof.
  intros Hc. destruct c; cbn [command_fields command_ok] in *; destruct_and?;
    repeat apply Forall_cons_2; try apply Forall_nil_2;
    first [apply decimal_plain|assumption|split; decides].
Qed.

(** The tests of literals in the goal. *)
Ltac literals := repeat match goal with
  | |- context [eq_str ?a ?b] => let v := eval vm_compute in (eq_str a b) in
      first [unify v true|unify v false]; change (eq_str a b) with v
  | |- context [Z.of_nat ?n =? ?k] => let v := eval vm_compute in (Z.of_nat n =? k) in
      change (Z.of_nat n =? k) with v
  end; cbn [andb].
Lemma run_line m c : command_ok c → do_line m (join_with tab (command_fields c)) = run_command m c.
Proof.
  intros Hc. pose proof (command_fields_plain c Hc) as Hp. unfold do_line.
  rewrite split_join; [|by destruct c|eapply Forall_impl; [done|]; by intros f [? _]].
  destruct c; cbn [command_fields command_ok run_command] in *; destruct_and?;
    unfold surface_line, create_surface, change_surface, field_or, upd, number;
    cbn [length Z.of_nat lookup list_lookup default]; unfold Datatypes.id;
    change (2 <=? _) with true; cbn [andb]; literals;
    rewrite stoull_decimal by done; cbn [mbind res_bind catch option_bind]; try done.
  - rewrite !stoi_decimal by done. cbn [mbind res_bind catch]. destruct (decide _) as [(? & ? & ? & ->)|Hn].
    + by rewrite (proj2 (Z.eqb_neq _ _)), !(proj2 (Z.leb_le _ _)) by done.
    + match goal with |- context [if ?b then _ else _] => destruct b eqn:Ht; [exfalso; apply Hn|done] end.
      rewrite !andb_true_iff, !negb_true_iff, Z.eqb_neq, !Z.leb_le, bool_decide_eq_false in Ht.
      rewrite eq_None_not_Some. tauto.
  - by destruct (m !! id).
  - by destruct (m !! id).
  - destruct (m !! id); [|done]. by rewrite stoi_decimal.
  - destruct (m !! id); [|done]. by destruct (stof_res alpha) as [[[? ?] ->]|[? ->]].
  - destruct (m !! id); [|done]. destruct (stof_res x) as [[[? ?] ->]|[? ->]]; [|done].
    by destruct (stof_res y) as [[[? ?] ->]|[? ->]].
  - destruct (m !! id); [|done]. by rewrite !stoi_decimal.
Qed.

Lemma payload_lines_text cs : Forall command_ok cs →
  payload_lines (split_on newline (transaction_text cs)) = (λ c, join_with tab (command_fields c)) <$> cs.
Proof.
  unfold transaction_text. induction 1 as [|c cs Hc _ IH]; [done|].
  cbn [fmap list_fmap concat]. rewrite <- app_assoc. cbn [app]. rewrite split_on_field.
  - rewrite <- IH. pose proof (split_on_nonempty newline (concat ((λ c, join_with tab (command_fields c) ++ [newline]) <$> cs))).
    by destruct (split_on newline _).
  - apply join_no_sep; [done|]. eapply Forall_impl; [by apply command_fields_plain|]. by intros f [_ ?].
Qed.

(** C24. A transaction made of commands does them in order if each of them can
    be done, and nothing otherwise; and whatever its text is, a transaction
    that is refused changes nothing. *)
Theorem surface_transactions m cs payload :
  Forall command_ok cs → size (transaction_text cs) < 4611686018427387904 →
  size payload < 4611686018427387904 →
  apply_surface_transaction m (transaction_text cs) =
    Ok (match run_commands cs m with Some m' => (m', true) | None => (m, false) end) ∧
  ∃ m' ok, apply_surface_transaction m payload = Ok (m', ok) ∧ (ok = false → m' = m).
Proof.
  intros Hc Hs Hp. split.
  - rewrite apply_surface_transaction_eq, payload_lines_text by done.
    assert (∀ o, foldl (λ o l, m ← o; do_line m l) o ((λ c, join_with tab (command_fields c)) <$> cs) =
                 foldl (λ o c, m ← o; run_command m c) o cs) as E.
    { clear -Hc. induction Hc as [|c cs Hc _ IH]; intros o; [done|]. cbn [fmap list_fmap foldl]. rewrite IH.
      f_equal. destruct o; [|done]. by apply run_line. }
    unfold do_lines, run_commands. by rewrite E.
  - rewrite apply_surface_transaction_eq by done. destruct (do_lines _ m) as [m'|]; [by exists m', true|by exists m, false].
Qed.

(** Witness of [surface_transactions] *)
Lemma surface_transactions_witness :
  let m := {[ 1 := Surface (cs "base") 8 6 0 (f32_of_Z 1) (f32_of_Z 0) (f32_of_Z 0) 8 6 false ]} in
  apply_surface_transaction m (transaction_text [Show 1; Layer 2 5]) = Ok (m, false) ∧
  apply_surface_transaction m (transaction_text [Create 2 (cs "top") 4 3; Layer 2 5; Remove 1]) =
    Ok ({[ 2 := Surface (cs "top") 4 3 5 (f32_of_Z 1) (f32_of_Z 0) (f32_of_Z 0) 4 3 false ]}, true).
Proof.
  cbv zeta. split.
  - destruct (surface_transactions {[ 1 := Surface (cs "base") 8 6 0 (f32_of_Z 1) (f32_of_Z 0) (f32_of_Z 0) 8 6 false ]}
      [Show 1; Layer 2 5] []) as [-> _]; [|by vm_compute..|reflexivity].
    repeat constructor; vm_compute; congruence.
  - destruct (surface_transactions {[ 1 := Surface (cs "base") 8 6 0 (f32_of_Z 1) (f32_of_Z 0) (f32_of_Z 0) 8 6 false ]}
      [Create 2 (cs "top") 4 3; Layer 2 5; Remove 1] []) as [-> _]; [|by vm_compute..|reflexivity].
    repeat constructor; try (vm_compute; congruence); decides.
Defined.
