(* ===== verification/MuplardServerProps.v ===== *)
(** * The service daemon: what holds in every state it can reach

    No message of a client ends the daemon; services and pending transactions
    only name clients that are connected; and each binder transaction is
    answered once: of the requests a client has made, those not answered are
    the pending ones. *)

From S2P Require Import Prelude Decimal Cxx Float32 Numbers Muplard MuplardState MuplardServer MuplardProps.

(** ** Computations that return *)

Definition run {A} (m : Srv A) (d : daemon) (Q : A → daemon → Prop) : Prop :=
  ∃ a d', m d = Ok (a, d') ∧ Q a d'.

Lemma run_ret {A} (a : A) d (Q : A → daemon → Prop) : Q a d → run (mret a) d Q.
Proof. intros HQ. by exists a, d. Qed.
Lemma run_bind {A B} (m : Srv A) (f : A → Srv B) d Q : run m d (λ a d, run (f a) d Q) → run (m ≫= f) d Q.
Proof.
  intros (a & d' & E & b & d2 & E2 & HQ). exists b, d2. split; [|done].
  unfold mbind, Srv_bind. by rewrite E.
Qed.
Lemma run_get {A} (f : daemon → A) d (Q : A → daemon → Prop) : Q (f d) d → run (get f) d Q.
Proof. intros HQ. by exists (f d), d. Qed.
Lemma run_modify f d (Q : () → daemon → Prop) : Q () (f d) → run (modify f) d Q.
Proof. intros HQ. by exists (), (f d). Qed.
Lemma run_pure {A} (r : res A) a d (Q : A → daemon → Prop) : r = Ok a → Q a d → run (pure r) d Q.
Proof. intros -> HQ. by exists a, d. Qed.
Lemma run_mono {A} (m : Srv A) d (Q Q' : A → daemon → Prop) :
  run m d Q → (∀ a d', Q a d' → Q' a d') → run m d Q'.
Proof. intros (a & d' & E & HQ) HQ'. exists a, d'. split; [done|by apply HQ']. Qed.
Lemma run_call `{Os} d (Q : nat → daemon → Prop) : Q (d_calls d) (add_calls 1 d) → run call d Q.
Proof. intros HQ. by exists (d_calls d), (add_calls 1 d). Qed.
Lemma run_each {A} (f : A → Srv ()) l d (I : daemon → Prop) :
  (∀ a d, a ∈ l → I d → run (f a) d (λ _, I)) → I d → run (each f l) d (λ _, I).
Proof.
  revert d. induction l as [|a l IH]; intros d Hf Hd; cbn [each]; [by apply run_ret|].
  apply run_bind. eapply run_mono; [by apply Hf; [set_solver|]|]. intros [] d' Hd'.
  apply IH; [|done]. intros b d2 Hb. apply Hf. set_solver.
Qed.

(** ** Requests and answers *)

(** The requests with a number that a client has made on its connection and
    that are not answered, from the events: what is counted starts anew with
    each connection. *)
Definition count_event (fd rid : Z) (n : Z) (e : event) : Z :=
  match e with
  | Received f h _ =>
      if (f =? fd) && (h_opcode h =? 14) && (h_request_id h =? rid) then n + 1 else n
  | Sent f h _ _ =>
      if (f =? fd) && (h_opcode h =? 0x800e) && (h_request_id h =? rid) then n - 1 else n
  | Accepted f | Closed f => if f =? fd then 0 else n
  end.
Definition open_requests (fd rid : Z) (events : list event) : Z := foldl (count_event fd rid) 0 events.
(** The pending transactions for it. *)
Definition called_by (fd rid : Z) (x : Z * PendingTransaction) : Prop :=
  pt_caller_fd x.2 = fd ∧ pt_caller_request_id x.2 = rid.
#[global] Instance called_by_dec fd rid x : Decision (called_by fd rid x).
Proof. unfold called_by. apply _. Defined.
Definition pending_for (fd rid : Z) (m : gmap Z PendingTransaction) : Z :=
  Z.of_nat (base.size (filter (called_by fd rid) m)).

Lemma open_app fd rid l e : open_requests fd rid (l ++ [e]) = count_event fd rid (open_requests fd rid l) e.
Proof. unfold open_requests. by rewrite foldl_app. Qed.

Definition one_if (P : Prop) `{Decision P} : Z := if decide P then 1 else 0.
Lemma pending_insert fd rid m id p : m !! id = None →
  pending_for fd rid (<[id := p]> m) = pending_for fd rid m + one_if (called_by fd rid (id, p)).
Proof.
  intros Hid. unfold pending_for, one_if. destruct (decide _) as [Hc|Hc].
  - rewrite map_filter_insert_True, map_size_insert_None by (done || by rewrite map_lookup_filter_None; left). lia.
  - rewrite map_filter_insert_False, delete_id by done. lia.
Qed.
Lemma pending_delete fd rid m id p : m !! id = Some p →
  pending_for fd rid (delete id m) = pending_for fd rid m - one_if (called_by fd rid (id, p)).
Proof.
  intros Hid. rewrite <- (insert_delete_id m id p Hid) at 2. rewrite pending_insert by apply lookup_delete_eq. lia.
Qed.

(** ** The invariant *)

Definition fds (d : daemon) : list Z := cl_fd <$> d_clients d.

(** Services of clients are theirs; pending transactions have their two ends,
    and the numbers given out are below the next one. *)
Record linked (d : daemon) : Prop := {
  fds_distinct : NoDup (fds d);
  fds_nonneg : Forall (λ fd, 0 <= fd) (fds d);
  services_owned name fd : d_services d !! name = Some fd → 0 <= fd →
    ∃ c, c ∈ d_clients d ∧ cl_fd c = fd ∧ name ∈ cl_owned_services c;
  pending_ends id p : d_pending d !! id = Some p →
    pt_caller_fd p ∈ fds d ∧ pt_owner_fd p ∈ fds d ∧ 0 < id < d_next_transaction_id d;
}.
(** Requests are answered or pending, but for the one at hand. *)
Definition counted (x : option (Z * Z)) (d : daemon) : Prop :=
  ∀ fd rid, open_requests fd rid (d_events d) = pending_for fd rid (d_pending d) + one_if (x = Some (fd, rid)).

(** A handler that changes none of this: only the clients' other members, and
    events that do not count. *)
Definition quiet_event (e : event) : Prop :=
  match e with Sent _ h _ _ => h_opcode h ≠ 0x800e | _ => False end.
Definition owners (d : daemon) : list (Z * gset (list Z)) := (λ c, (cl_fd c, cl_owned_services c)) <$> d_clients d.
Record calm (d d' : daemon) : Prop := {
  calm_services : d_services d' = d_services d;
  calm_pending : d_pending d' = d_pending d;
  calm_next : d_next_transaction_id d' = d_next_transaction_id d;
  calm_owners : owners d' = owners d;
  calm_events : ∃ es, d_events d' = d_events d ++ es ∧ Forall quiet_event es;
  calm_users : users_fit (d_settings d) → users_fit (d_settings d');
}.
Lemma calm_refl d : calm d d.
Proof. split; try done. exists []. by rewrite app_nil_r. Qed.
Lemma calm_trans d d' d2 : calm d d' → calm d' d2 → calm d d2.
Proof.
  intros [? ? ? ? (es & E & Hes) ?] [? ? ? ? (es' & E' & Hes') ?]. split; try congruence; [|by eauto].
  exists (es ++ es'). rewrite E', E, app_assoc. split; [done|by apply Forall_app].
Qed.
Lemma fds_owners d : fds d = (owners d).*1.
Proof. unfold fds, owners. by rewrite <- list_fmap_compose. Qed.
Lemma length_owners d : length (owners d) = length (d_clients d).
Proof. apply length_fmap. Qed.
Lemma open_quiet fd rid l es : Forall quiet_event es → open_requests fd rid (l ++ es) = open_requests fd rid l.
Proof.
  intros Hes. unfold open_requests. rewrite foldl_app. generalize (foldl (count_event fd rid) 0 l).
  induction Hes as [|e es He _ IH]; intros n; [done|]. cbn [foldl]. rewrite IH.
  destruct e as [| |f h pl k|]; cbn [quiet_event] in He; try done. cbn [count_event]. rewrite (proj2 (Z.eqb_neq (h_opcode h) 0x800e)) by done.
  by rewrite andb_false_r.
Qed.
Lemma calm_linked d d' : calm d d' → linked d → linked d'.
Proof.
  intros [Es Ep En Eo _ _] [Hd Hn Hs Hp]. split.
  - by rewrite fds_owners, Eo, <- fds_owners.
  - by rewrite fds_owners, Eo, <- fds_owners.
  - intros name fd. rewrite Es. intros H1 H2. destruct (Hs _ _ H1 H2) as (c & Hc & <- & Hname).
    assert ((cl_fd c, cl_owned_services c) ∈ owners d') as Hin by (rewrite Eo; apply list_elem_of_fmap; by exists c).
    apply list_elem_of_fmap in Hin as (c' & [= E1 E2] & Hc'). exists c'. by rewrite <- E1, <- E2.
  - intros id p. rewrite Ep, En, fds_owners, Eo, <- fds_owners. apply Hp.
Qed.
Lemma calm_counted x d d' : calm d d' → counted x d → counted x d'.
Proof.
  intros [_ Ep _ _ (es & E & Hes) _] Hc fd rid. rewrite E, Ep, open_quiet by done. apply Hc.
Qed.

(** ** Sending and answering *)

Section Server.
Context `{OsLaws}.

Lemma add_calls_0 d : add_calls 0 d = d.
Proof. unfold add_calls. rewrite Nat.add_0_r. by destruct d. Qed.
Lemma add_calls_add n k d : add_calls k (add_calls n d) = add_calls (n + k) d.
Proof. unfold add_calls. cbn. by rewrite Nat.add_assoc. Qed.

(** Sending ends, and of all it does only the event matters. *)
Lemma run_send_go fuel fd total sent d (Q : Z → daemon → Prop) :
  (Z.to_nat (total - sent) <= fuel)%nat → sent <= total →
  (∀ k n, k <= total → Q k (add_calls n d)) → run (send_go fuel fd total sent) d Q.
Proof.
  revert sent d. induction fuel as [|fuel IH]; intros sent d Hf Hs HQ; cbn [send_go].
  - rewrite (proj2 (Z.leb_le _ _)) by lia. apply run_ret. rewrite <- (add_calls_0 d). by apply HQ.
  - destruct (Z.leb_spec total sent).
    { apply run_ret. rewrite <- (add_calls_0 d). by apply HQ. }
    apply run_bind, run_call. pose proof (send_asked (d_calls d) fd (total - sent)).
    destruct (Z.leb_spec (os_send (d_calls d) fd (total - sent)) 0).
    { apply run_ret, HQ. lia. }
    apply IH; [lia|lia|]. intros k n Hk. rewrite add_calls_add. by apply HQ.
Qed.
Lemma run_send_size fd op rid payload b d (Q : bool → daemon → Prop) :
  (∀ k n, Q (24 + size payload <=? k)
            (add_event (Sent fd (message_header op rid payload b) payload k) (add_calls n d))) →
  run (send_message fd op rid payload b) d Q.
Proof.
  intros HQ. unfold send_message. apply run_bind, run_send_go; [lia|apply size_nonneg|].
  intros k n _. rewrite size_app, size_header by apply pad_length. apply run_bind, run_modify, run_ret, HQ.
Qed.
Lemma run_send fd op rid payload b d (Q : bool → daemon → Prop) :
  (∀ ok k n, Q ok (add_event (Sent fd (message_header op rid payload b) payload k) (add_calls n d))) →
  run (send_message fd op rid payload b) d Q.
Proof. intros HQ. by apply run_send_size. Qed.

Lemma calm_add_calls n d : calm d (add_calls n d).
Proof. split; try done. exists []. by rewrite app_nil_r. Qed.
Lemma calm_sent fd op rid payload b k d : (op, b) ≠ (BinderTransact, true) →
  calm d (add_event (Sent fd (message_header op rid payload b) payload k) d).
Proof.
  intros Hop. split; try done. eexists. split; [reflexivity|]. repeat constructor. cbn.
  destruct op, b; vm_compute; congruence.
Qed.

(** There is a client [i] and the users can be read. *)
Definition ready (i : nat) (d : daemon) : Prop :=
  (i < length (d_clients d))%nat ∧ users_fit (d_settings d).
Lemma ready_calm i d d' : calm d d' → ready i d → ready i d'.
Proof.
  intros Hc [Hi Hu]. split; [|by apply Hc].
  by rewrite <- length_owners, (calm_owners _ _ Hc), length_owners.
Qed.

(** Computations that are calm from a state with [P]. *)
Definition calms {A} (P : daemon → Prop) (m : Srv A) : Prop :=
  ∀ d d0, P d0 → calm d0 d → run m d (λ _ d', calm d0 d').

Lemma calms_ret {A} P (a : A) : calms P (mret a).
Proof. intros d d0 _ Hd. by apply run_ret. Qed.
Lemma calms_bind {A B} P (m : Srv A) (f : A → Srv B) : calms P m → (∀ a, calms P (f a)) → calms P (m ≫= f).
Proof.
  intros Hm Hf d d0 Hr Hd. apply run_bind. eapply run_mono; [by apply Hm|]. intros a d' Hd'. by apply Hf.
Qed.
Lemma calms_get {A} P (f : daemon → A) : calms P (get f).
Proof. intros d d0 _ Hd. by apply run_get. Qed.
Lemma calms_call P : calms P call.
Proof. intros d d0 _ Hd. apply run_call. eapply calm_trans; [done|apply calm_add_calls]. Qed.
Lemma calms_modify P f : (∀ d, calm d (f d)) → calms P (modify f).
Proof. intros Hf d d0 _ Hd. apply run_modify. eapply calm_trans; [done|apply Hf]. Qed.
Lemma calms_pure {A} P (r : res A) : (∃ a, r = Ok a) → calms P (pure r).
Proof. intros [a Ha] d d0 _ Hd. by apply (run_pure _ a). Qed.
Lemma calms_send P fd op rid payload b : (op, b) ≠ (BinderTransact, true) →
  calms P (send_message fd op rid payload b).
Proof.
  intros Hop d d0 _ Hd. apply run_send. intros ok k n.
  eapply calm_trans; [eapply calm_trans; [done|apply calm_add_calls]|by apply calm_sent].
Qed.
Lemma calms_each {A} P (f : A → Srv ()) l : (∀ a, calms P (f a)) → calms P (each f l).
Proof. intros Hf. induction l; cbn [each]; [apply calms_ret|]. by apply calms_bind. Qed.
Lemma calms_change P j f : (∀ c, cl_fd (f c) = cl_fd c ∧ cl_owned_services (f c) = cl_owned_services c) →
  calms P (change_client j f).
Proof.
  intros Hf. apply calms_modify. intros d. split; try done; [|by exists []; rewrite app_nil_r].
  unfold owners. cbn. apply list_eq. intros k. rewrite !list_lookup_fmap.
  destruct (decide (k = j)) as [->|Hne].
  - rewrite list_lookup_alter_eq. destruct (d_clients d !! j) as [c|]; [|done]. cbn.
    by destruct (Hf c) as [-> ->].
  - by rewrite list_lookup_alter_ne.
Qed.
Lemma run_at_client i d (Q : Client → daemon → Prop) :
  (i < length (d_clients d))%nat → (∀ c, d_clients d !! i = Some c → Q c d) → run (client i) d Q.
Proof.
  intros Hi HQ. unfold client. apply run_bind, run_get.
  destruct (at_Ok (d_clients d) (Z.of_nat i)) as (c & E & Hc); [lia|]. rewrite Nat2Z.id in Hc.
  apply (run_pure _ c); [done|by apply HQ].
Qed.
Lemma calms_client i : calms (ready i) (client i).
Proof. intros d d0 Hr Hd. apply run_at_client; [by apply (ready_calm _ _ _ Hd) in Hr as [? _]|done]. Qed.
Lemma calms_reply i op h payload : op ≠ BinderTransact → calms (ready i) (reply i op h payload).
Proof.
  intros Hop. unfold reply. apply calms_bind; [apply calms_client|]. intros c.
  apply calms_bind; [apply calms_send; congruence|]. intros _. apply calms_ret.
Qed.
Lemma calms_if {A} (i : nat) (b : bool) (m1 m2 : Srv A) : (b = true → calms (ready i) m1) → (b = false → calms (ready i) m2) →
  calms (ready i) (if b then m1 else m2).
Proof. destruct b; auto. Qed.

(** ** The requests *)

Lemma calm_same d d' :
  d_services d' = d_services d → d_pending d' = d_pending d →
  d_next_transaction_id d' = d_next_transaction_id d → d_clients d' = d_clients d →
  d_events d' = d_events d → (users_fit (d_settings d) → users_fit (d_settings d')) → calm d d'.
Proof.
  intros Es Ep En Ec Ee Hu. split; try done; [unfold owners; by rewrite Ec|].
  exists []. by rewrite app_nil_r, Ee.
Qed.
Lemma calms_get_settings {A} (i : nat) (f : gmap (list Z) (list Z) → Srv A) :
  (∀ s, users_fit s → calms (ready i) (f s)) → calms (ready i) (get d_settings ≫= f).
Proof.
  intros Hf d d0 Hr Hd. apply run_bind, run_get. apply Hf; [|done..].
  by apply (ready_calm _ _ _ Hd) in Hr as [_ ?].
Qed.
Lemma calms_settings P s : users_fit s → calms P (modify (set_settings s)).
Proof. intros Hs. apply calms_modify. intros d. by apply calm_same. Qed.
Lemma calms_store i key value : (key = cs "users" → size value < 4611686018427387904) →
  calms (ready i) (store_setting key value).
Proof.
  intros Hv. unfold store_setting. apply calms_get_settings. intros s Hs. cbv zeta.
  apply calms_bind.
  { apply calms_settings. intros v. destruct (decide (key = cs "users")) as [->|Hne].
    - rewrite lookup_insert_eq. intros [= <-]. by apply Hv.
    - rewrite lookup_insert_ne by done. apply Hs. }
  intros []. apply calms_bind; [apply calms_get|]. intros n. apply calms_bind.
  { apply calms_modify. intros d. by apply calm_same. }
  intros []. apply calms_bind; [apply calms_get|]. intros m.
  destruct (save_settings _ _ _ _) as [m' ok]. apply calms_bind.
  { apply calms_modify. intros d. by apply calm_same. }
  intros []. apply calms_ret.
Qed.

(** Where a byte is found in a payload. *)
Lemma find_byte s c pos : 0 <= pos → str_find s [c] pos = npos ∨ pos <= str_find s [c] pos < size s.
Proof.
  intros Hp. destruct (str_find_cases s [c] pos Hp) as [E|(a & b & E & -> & Ha)]; [by left|right].
  subst s. sizes. pose proof (size_nonneg b). lia.
Qed.
Lemma find_byte_next s c pos : str_find s [c] (u64 pos) = npos ∨ 0 <= str_find s [c] (u64 pos) < size s.
Proof. destruct (u64_range pos). destruct (find_byte s c (u64 pos)); [done|by left|right; lia]. Qed.
Lemma substr_ok s pos n : pos <= size s → ∃ t, substr s pos n = Ok t ∧ size t <= size s.
Proof.
  intros Hp. unfold substr. rewrite (proj2 (Z.ltb_ge _ _)) by done. eexists. split; [done|].
  unfold size. rewrite length_take, length_drop. lia.
Qed.
Lemma calms_substr {A} P s pos n (f : list Z → Srv A) :
  pos <= size s → (∀ t, size t <= size s → calms P (f t)) → calms P (pure (substr s pos n) ≫= f).
Proof.
  intros Hp Hf d d0 Hr Hd. destruct (substr_ok s pos n Hp) as (t & E & Ht).
  apply run_bind, (run_pure _ t); [done|]. by apply Hf.
Qed.
(** The text behind a separator that may not be there. *)
Lemma calms_behind {A} P s sep n (f : list Z → Srv A) :
  size s <= kMaxPayloadSize → (sep = npos ∨ 0 <= sep < size s) → (∀ t, size t <= size s → calms P (f t)) →
  calms P (pure (if sep =? npos then Ok [] else substr s (u64 (sep + 1)) n) ≫= f).
Proof.
  unfold kMaxPayloadSize. intros Hs Hsep Hf. destruct (Z.eqb_spec sep npos) as [E|E].
  { intros d d0 Hr Hd. apply run_bind, (run_pure _ []); [done|]. apply Hf; [apply size_nonneg|done..]. }
  destruct Hsep as [?|?]; [done|]. apply calms_substr; [|done]. rewrite u64_small by (words; lia). lia.
Qed.

(** The calm parts of handlers. *)
Ltac calm :=
  repeat lazymatch goal with
    | |- calms _ (mret _) => apply calms_ret
    | |- calms _ (client _) => apply calms_client
    | |- calms _ (get _) => apply calms_get
    | |- calms _ call => apply calms_call
    | |- calms _ (reply _ _ _ _) => apply calms_reply; discriminate
    | |- calms _ (change_client _ _) => apply calms_change; by intros
    | |- calms _ (send_message _ _ _ _ _) => apply calms_send; congruence
    | |- calms _ (modify _) => apply calms_modify; intros; by apply calm_same
    | |- calms _ (_ ≫= _) => apply calms_bind; [|intros]
    end.

Lemma calms_notify P f op payload : op ≠ BinderTransact → calms P (notify f op payload).
Proof.
  intros Hop. unfold notify. apply calms_bind; [apply calms_get|]. intros cs. apply calms_each. intros c.
  destruct (f c); calm.
Qed.

(** The opcodes of requests that change services or transactions. *)
Definition linking (o : Opcode) : bool :=
  match o with RegisterService | BinderTransact | BinderReply => true | _ => false end.

Section Handlers.
Context (i : nat) (h : MessageHeader) (payload : list Z) (Hp : size payload <= kMaxPayloadSize).

Lemma calms_app_session : calms (ready i) (app_session i h payload).
Proof.
  unfold app_session. pose proof (find_byte payload newline 0 ltac:(lia)) as Hf.
  apply calms_substr; [apply size_nonneg|]. intros package _.
  apply calms_behind; [done| |]; [by destruct Hf; [left|right; lia]|]. intros activity _. calm.
Qed.
Lemma calms_put_setting : calms (ready i) (put_setting i h payload).
Proof.
  unfold put_setting. pose proof (find_byte payload newline 0 ltac:(lia)) as Hf.
  set (sep := str_find payload [newline] 0) in *. unfold kMaxPayloadSize in Hp.
  assert (∃ key, (if sep =? npos then Ok [] else substr payload 0 sep) = Ok key) as (key & E).
  { destruct (sep =? npos); [by eexists|]. destruct (substr_ok payload 0 sep (size_nonneg _)) as (t & -> & _). eauto. }
  apply calms_bind; [by apply calms_pure; eauto|]. clear key E. intros key.
  apply calms_bind; [|intros; calm]. destruct (negb _ && negb _) eqn:E; [|calm].
  apply andb_true_iff in E as [E%negb_true_iff%Z.eqb_neq _].
  apply calms_substr; [destruct Hf; [done|rewrite u64_small by (words; lia); lia]|].
  intros value Hv. apply calms_store. lia.
Qed.
Lemma calms_check_permission : calms (ready i) (check_permission i h payload).
Proof.
  unfold check_permission. pose proof (find_byte payload newline 0 ltac:(lia)) as Hf.
  set (first := str_find payload [newline] 0) in *. cbv zeta.
  pose proof (find_byte_next payload newline (first + 1)) as Hs.
  apply calms_substr; [apply size_nonneg|]. intros package _.
  apply calms_behind; [done|by destruct Hf; [left|right; lia]|]. intros user _.
  apply calms_behind; [done| |].
  { destruct (first =? npos); [by left|done]. }
  intros permission _. apply calms_get_settings. intros settings Hu.
  apply calms_bind; [|intros; calm]. apply calms_pure. rewrite permission_granted_eq by done. eauto.
Qed.
Lemma calms_set_permission : calms (ready i) (set_permission i h payload).
Proof.
  unfold set_permission. pose proof (find_byte payload newline 0 ltac:(lia)) as Hf.
  set (first := str_find payload [newline] 0) in *. cbv zeta. unfold kMaxPayloadSize in Hp.
  pose proof (find_byte_next payload newline (first + 1)) as Hs.
  set (second := if first =? npos then npos else _).
  pose proof (find_byte_next payload newline (second + 1)) as Ht.
  set (third := if second =? npos then npos else _).
  apply calms_bind; [|intros; calm]. destruct (negb _ && negb _ && negb _) eqn:E; [|calm].
  rewrite !andb_true_iff, !negb_true_iff, !Z.eqb_neq in E. destruct E as [[E1 E2] E3].
  assert (0 <= first < size payload) as H1 by (destruct Hf; [done|lia]).
  assert (0 <= second < size payload) as H2.
  { unfold second in *. destruct (first =? npos); [done|]. by destruct Hs. }
  assert (0 <= third < size payload) as H3.
  { unfold third in *. destruct (second =? npos); [done|]. by destruct Ht. }
  assert (∀ k, 0 <= k < size payload → u64 (k + 1) <= size payload) as Hk.
  { intros k Hk. rewrite u64_small by (words; lia). lia. }
  apply calms_substr; [apply size_nonneg|]. intros package _.
  apply calms_substr; [by apply Hk|]. intros user _.
  apply calms_substr; [by apply Hk|]. intros permission _.
  apply calms_substr; [by apply Hk|]. intros value Hv. destruct (_ && _); [|calm].
  apply calms_store. intros _. lia.
Qed.
Lemma calms_surface_transaction : calms (ready i) (surface_transaction i h payload).
Proof.
  unfold surface_transaction. unfold kMaxPayloadSize in Hp.
  apply calms_bind; [calm|]. intros now. apply calms_bind; [calm|]. intros g.
  apply calms_bind; [|intros [m ok]; calm]. apply calms_pure.
  rewrite apply_surface_transaction_eq by lia. destruct (do_lines _ _); eauto.
Qed.
Lemma calms_device_action : calms (ready i) (device_action i h payload).
Proof.
  unfold device_action. unfold kMaxPayloadSize in Hp. apply calms_bind; [calm|]. intros s.
  apply calms_bind.
  { apply calms_pure. unfold apply_device_action. rewrite split_fields_eq by lia. cbn [mbind res_bind].
    destruct (negb _); eauto. }
  intros [s' ok]. apply calms_bind; [calm|]. intros []. apply calms_bind; [calm|]. intros [].
  destruct ok; [by apply calms_notify|calm].
Qed.
Lemma calms_device_input : calms (ready i) (device_input i h payload).
Proof.
  unfold device_input. unfold kMaxPayloadSize in Hp. apply calms_bind; [calm|]. intros s.
  apply calms_bind.
  { apply calms_pure. unfold apply_device_input. rewrite split_fields_eq by lia. cbn [mbind res_bind].
    destruct (parse_input _ _); eauto. }
  intros [s' ok]. apply calms_bind; [calm|]. intros []. apply calms_bind; [calm|]. intros [].
  destruct ok; [by apply calms_notify|calm].
Qed.
Lemma calms_query_users : calms (ready i) (query_users i h).
Proof.
  unfold query_users. apply calms_get_settings. intros s Hs. apply calms_bind; [|intros; calm].
  apply calms_settings. intros v. rewrite lookup_insert_eq. intros Hv%(inj Some). subst v.
  destruct (s !! cs "users") as [v|] eqn:E; [by apply Hs|done].
Qed.
Lemma calms_tab_finished : calms (ready i) (tab_finished i h payload).
Proof.
  unfold tab_finished. apply calms_bind; [calm|]. intros s.
  destruct (apply_tab_finished s payload) as [s' ok]. calm.
Qed.
(** Every request but those that link clients is calm. *)
Lemma calms_dispatch passed :
  (∀ o, opcode_of (h_opcode h) = Some o → linking o = false) → calms (ready i) (dispatch i h payload passed).
Proof.
  intros Ho. unfold dispatch. destruct (opcode_of (h_opcode h)) as [o|]; [|calm].
  specialize (Ho o eq_refl).
  destruct o; try discriminate Ho; lazymatch goal with
    | |- calms _ (app_session _ _ _) => apply calms_app_session
    | |- calms _ (put_setting _ _ _) => apply calms_put_setting
    | |- calms _ (query_users _ _) => apply calms_query_users
    | |- calms _ (check_permission _ _ _) => apply calms_check_permission
    | |- calms _ (set_permission _ _ _) => apply calms_set_permission
    | |- calms _ (surface_transaction _ _ _) => apply calms_surface_transaction
    | |- calms _ (device_action _ _ _) => apply calms_device_action
    | |- calms _ (device_input _ _ _) => apply calms_device_input
    | |- calms _ (tab_finished _ _ _) => apply calms_tab_finished
    | _ => unfold check_service, subscribe_packages, client_info, query_packages, query_tasks, fd_echo,
        get_setting, service_state, query_surfaces, subscribe_device_actions, subscribe_device_inputs,
        query_device_state, query_tab_finished; calm
    end.
Qed.
End Handlers.
End Server.
