(* ===== verification/MuplardReach.v ===== *)
(** * The service daemon: reachable states

    The requests that link clients, the removal of a client, and whole rounds
    keep the invariant; so it holds in every state the daemon reaches, it
    never ends by an exception, and each binder transaction is answered once.
    At the end the daemon is run with two clients. *)

From S2P Require Import Prelude Decimal Cxx Float32 Numbers Muplard MuplardState MuplardServer MuplardProps MuplardServerProps.

(** The invariant: [x] is the request at hand, [n] bounds the number of the
    next transaction. *)
Record inv (x : option (Z * Z)) (n : Z) (d : daemon) : Prop := Inv {
  inv_linked : linked d;
  inv_counted : counted x d;
  inv_users : users_fit (d_settings d);
  inv_next : 1 <= d_next_transaction_id d <= n;
}.
Definition max_messages : Z := 18446744073709551615.

Lemma inv_calm x n d d' : calm d d' → inv x n d → inv x n d'.
Proof.
  intros Hc [Hl Hco Hu Hn]. split; [by eapply calm_linked|by eapply calm_counted|by apply Hc|].
  by rewrite (calm_next _ _ Hc).
Qed.
Lemma inv_more x n n' d : n <= n' → inv x n d → inv x n' d.
Proof. intros Hn [? ? ? ?]. split; [done..|lia]. Qed.

(** An answer to the request at hand. *)
Lemma counted_answer x y fd rid payload k d d' :
  (∀ f r, pending_for f r (d_pending d') + one_if (y = Some (f, r)) =
          pending_for f r (d_pending d) + one_if (x = Some (f, r)) - one_if ((f, r) = (fd, rid))) →
  d_events d' = d_events d ++ [Sent fd (message_header BinderTransact rid payload true) payload k] →
  counted x d → counted y d'.
Proof.
  intros Hp He Hc f r. rewrite He, open_app, Hc, Hp. cbn [count_event message_header h_opcode h_request_id].
  change (Z.lor _ _ =? _) with true. unfold one_if.
  destruct (Z.eqb_spec fd f), (Z.eqb_spec rid r); cbn [andb]; destruct (decide ((f, r) = (fd, rid)));
    subst; try done; try lia; naive_solver.
Qed.

Section Reach.
Context `{OsLaws}.

Lemma set_events_linked d d' :
  d_services d' = d_services d → d_pending d' = d_pending d → d_clients d' = d_clients d →
  d_next_transaction_id d' = d_next_transaction_id d → linked d → linked d'.
Proof.
  intros Es Ep Ec En [Hd Hn Hs Hp]. unfold fds in *. split; unfold fds.
  - by rewrite Ec.
  - by rewrite Ec.
  - intros name fd. rewrite Es, Ec. apply Hs.
  - intros id p. rewrite Ep, Ec, En. apply Hp.
Qed.

(** [reply] to a binder transaction, which answers it. *)
Lemma run_dead i c h payload n d (Q : () → daemon → Prop) :
  d_clients d !! i = Some c → inv (Some (cl_fd c, h_request_id h)) n d →
  (∀ d', inv None n d' → fds d' = fds d → Q () d') → run (reply i BinderTransact h payload) d Q.
Proof.
  intros Hc Hinv HQ. unfold reply. apply run_bind, run_at_client; [by eapply lookup_lt_Some|].
  intros c' [= <-]%(eq_trans (eq_sym Hc)). apply run_bind, run_send. intros ok k m. apply run_ret, HQ; [|done].
  destruct Hinv as [Hl Hco Hu Hn]. split; [by apply (set_events_linked d)| |done|done].
  eapply counted_answer; [|reflexivity|exact Hco]. intros f r. cbn.
  unfold one_if. repeat destruct (decide _); try lia; naive_solver.
Qed.

Lemma register_linked i c name d : d_clients d !! i = Some c → name ≠ [] →
  (∀ fd, d_services d !! name = Some fd → fd < 0) → linked d →
  linked (set_clients (alter (λ c, NewClient (cl_fd c) (cl_pid c) (cl_uid c) (cl_package_subscriber c)
           (cl_device_action_subscriber c) (cl_device_input_subscriber c)
           ({[name]} ∪ cl_owned_services c) (cl_app_package c) (cl_app_activity c)) i (d_clients d))
         (set_services (<[name := cl_fd c]> (d_services d)) d)).
Proof.
  intros Hc Hne Hfree [Hd Hn Hs Hp]. set (f := λ c, NewClient _ _ _ _ _ _ _ _ _).
  assert (cl_fd <$> alter f i (d_clients d) = cl_fd <$> d_clients d) as Ef.
  { apply list_eq. intros j. rewrite !list_lookup_fmap. destruct (decide (j = i)) as [->|Hj].
    - rewrite list_lookup_alter_eq, Hc. done.
    - by rewrite list_lookup_alter_ne. }
  split; unfold fds in *; cbn; rewrite ?Ef; try done.
  intros name' fd Hl H0. destruct (decide (name' = name)) as [->|Hn'].
  - rewrite lookup_insert_eq in Hl. injection Hl as <-. exists (f c). split_and!; [|done|set_solver].
    apply list_elem_of_lookup_2 with i. by rewrite list_lookup_alter_eq, Hc.
  - rewrite lookup_insert_ne in Hl by done. destruct (Hs _ _ Hl H0) as (c' & Hc' & <- & Ho).
    apply list_elem_of_lookup in Hc' as [j Hj]. destruct (decide (j = i)) as [->|Hji].
    + rewrite Hc in Hj. injection Hj as <-. exists (f c). split_and!; [|done|set_solver].
      apply list_elem_of_lookup_2 with i. by rewrite list_lookup_alter_eq, Hc.
    + exists c'. split_and!; [|done..]. apply list_elem_of_lookup_2 with j. by rewrite list_lookup_alter_ne.
Qed.
Lemma run_register i h payload n d : (i < length (d_clients d))%nat → inv None n d →
  run (register_service i h payload) d (λ _ d', inv None n d' ∧ fds d' = fds d).
Proof.
  intros Hi Hinv. destruct (lookup_lt_is_Some_2 _ _ Hi) as [c Hc]. unfold register_service.
  apply run_bind, run_get, run_bind, run_at_client; [done|]. intros c' [= <-]%(eq_trans (eq_sym Hc)).
  set (available := _ && _).
  assert (∀ d', inv None n d' → fds d' = fds d →
    run (reply i RegisterService h (yes_no available)) d' (λ _ d', inv None n d' ∧ fds d' = fds d)) as Hrep.
  { intros d' Hinv' Ef.
    assert (ready i d') as Hr.
    { split; [|by destruct Hinv']. apply (f_equal length) in Ef. unfold fds in Ef. rewrite !length_fmap in Ef. lia. }
    eapply run_mono; [by apply (calms_reply i RegisterService h (yes_no available)); [|exact Hr|apply calm_refl]|].
    intros [] d2 Hcalm. split; [by eapply inv_calm|]. by rewrite fds_owners, (calm_owners _ _ Hcalm), <- fds_owners. }
  destruct available eqn:Ea; [|by apply run_bind, run_ret, Hrep].
  apply andb_true_iff in Ea as [Ene Efree]. apply negb_true_iff, bool_decide_eq_false in Ene.
  apply run_bind, run_bind, run_modify, run_modify, Hrep.
  - destruct Hinv as [Hl Hco Hu Hn]. split; [|exact Hco|done|done].
    apply (register_linked i c payload d); [done|done| |done]. intros fd Hfd. rewrite Hfd in Efree. by apply Z.ltb_lt in Efree.
  - unfold fds. cbn. apply list_eq. intros j. rewrite !list_lookup_fmap. destruct (decide (j = i)) as [->|Hj].
    + rewrite list_lookup_alter_eq. by rewrite Hc.
    + by rewrite list_lookup_alter_ne.
Qed.

(** ** Binder transactions *)

Lemma run_transact i c h payload n d :
  d_clients d !! i = Some c → size payload <= kMaxPayloadSize → n < max_messages →
  inv (Some (cl_fd c, h_request_id h)) n d →
  run (binder_transact i h payload) d (λ _ d', inv None (n + 1) d' ∧ fds d' = fds d).
Proof.
  intros Hc Hp Hmax Hinv. unfold binder_transact, max_messages, kMaxPayloadSize in *.
  assert (i < length (d_clients d))%nat as Hi by by eapply lookup_lt_Some.
  pose proof (find_byte payload newline 0 ltac:(lia)) as Hf. set (sep := str_find _ _ _) in *.
  destruct (substr_ok payload 0 sep (size_nonneg _)) as (service & Es & _).
  apply run_bind, (run_pure _ service); [done|]. apply run_bind, run_get, run_bind, run_at_client; [done|].
  intros c' [= <-]%(eq_trans (eq_sym Hc)).
  assert (run (reply i BinderTransact h (cs "DEAD_OBJECT")) d
    (λ _ d', inv None (n + 1) d' ∧ fds d' = fds d)) as Hdead.
  { eapply run_dead; [done..|]. intros d' Hi' Ef. split; [by eapply inv_more; [|done]; lia|done]. }
  destruct (d_services d !! service) as [owner|] eqn:Eo; [|done].
  destruct ((sep =? npos) || (owner <? 0)) eqn:E; [done|].
  apply orb_false_iff in E as [Esep%Z.eqb_neq Eown%Z.ltb_ge]. destruct Hf as [?|Hf]; [done|].
  apply run_bind, run_get, run_bind, run_modify, run_bind, run_get, run_bind, run_modify.
  destruct (substr_ok payload (u64 (sep + 1)) npos) as (body & Eb & _).
  { rewrite u64_small by (words; lia). lia. }
  apply run_bind, (run_pure _ body); [done|].
  destruct Hinv as [Hl Hco Hu Hn]. set (id := d_next_transaction_id d) in *.
  set (p := Pending (cl_fd c) owner (h_request_id h)). cbn [d_pending set_next_transaction_id].
  assert (d_pending d !! id = None) as Hfresh.
  { destruct (d_pending d !! id) eqn:Ep; [|done]. apply (pending_ends _ Hl) in Ep. unfold id in Ep. lia. }
  set (d1 := set_pending _ _).
  assert (d_next_transaction_id d1 = id + 1) as En1 by (cbn; apply u64_small; words; lia).
  assert (linked d1) as Hl1.
  { destruct Hl as [Hd Hnn Hs Hpe]. split; try done. intros id' p' Hl'. rewrite En1. cbn in Hl'.
    destruct (decide (id' = id)) as [->|Hne].
    - rewrite lookup_insert_eq in Hl'. injection Hl' as <-. cbn. split_and!; [| |lia|lia].
      + apply list_elem_of_fmap. exists c. split; [done|by eapply list_elem_of_lookup_2].
      + destruct (Hs _ _ Eo Eown) as (co & Hco' & <- & _). apply list_elem_of_fmap. by exists co.
    - rewrite lookup_insert_ne in Hl' by done. destruct (Hpe _ _ Hl') as (? & ? & ?). split_and!; [done..|lia|fold id in H2; lia]. }
  assert (inv None (n + 1) d1) as Hinv1.
  { split; [done| |done|rewrite En1; lia]. intros f r.
    rewrite (Hco f r : open_requests f r (d_events d1) = _).
    change (d_pending d1) with (<[id := p]> (d_pending d)). rewrite pending_insert by done.
    unfold one_if, called_by. cbn. repeat destruct (decide _); try lia; naive_solver. }
  apply run_bind, run_send. intros ok k m. set (d2 := add_event _ _).
  assert (calm d1 d2) as Hcalm.
  { eapply calm_trans; [apply calm_add_calls|by apply calm_sent]. }
  pose proof (inv_calm _ _ _ _ Hcalm Hinv1) as Hinv2.
  destruct ok; [by apply run_ret|]. apply run_bind, run_get, run_bind, run_modify.
  eapply run_dead; [exact Hc| |].
  - destruct Hinv2 as [Hl2 Hc2 Hu2 Hn2]. split; [| |done|exact Hn2].
    + destruct Hl2 as [? ? ? Hpe]. split; try done. intros id' p'. cbn.
      intros [_ Hl']%lookup_delete_Some. by apply Hpe.
    + intros f r. cbn [set_pending d_pending d_events]. rewrite (Hc2 f r).
      change (d_pending d2) with (<[id := p]> (d_pending d)).
      rewrite (pending_delete _ _ _ _ p) by apply lookup_insert_eq.
      unfold one_if, called_by. cbn. repeat destruct (decide _); try lia; naive_solver.
  - intros d' Hinv' Ef. by rewrite Ef.
Qed.

Lemma run_binder_reply i h payload n d :
  (i < length (d_clients d))%nat → inv None n d →
  run (binder_reply i h payload) d (λ _ d', inv None n d' ∧ fds d' = fds d).
Proof.
  intros Hi Hinv. unfold binder_reply. apply run_bind, run_get, run_bind, run_at_client; [done|].
  intros c Hc. destruct (d_pending d !! h_request_id h) as [p|] eqn:Ep; [|by apply run_ret].
  destruct (_ =? _); [|by apply run_ret]. apply run_bind, run_send. intros ok k m. apply run_modify.
  split; [|done]. destruct Hinv as [Hl Hco Hu Hn]. split; [| |done|done].
  - destruct Hl as [? ? ? Hpe]. split; try done. intros id' p'. cbn.
    intros [_ Hl']%lookup_delete_Some. by apply Hpe.
  - eapply counted_answer; [|reflexivity|exact Hco]. intros f r. cbn. rewrite (pending_delete _ _ _ _ p) by done.
    unfold one_if, called_by. cbn. repeat destruct (decide _); try lia; naive_solver.
Qed.

(** ** Removing a client *)

Definition involves (fd : Z) (p : PendingTransaction) : Prop := pt_owner_fd p = fd ∨ pt_caller_fd p = fd.
(** Requests of the other clients are answered or pending. *)
Definition others_counted (fd : Z) (d : daemon) : Prop :=
  ∀ f r, f ≠ fd → open_requests f r (d_events d) = pending_for f r (d_pending d).
(** The rest of the state is as it was. *)
Definition same_rest (d d' : daemon) : Prop :=
  d_services d' = d_services d ∧ d_clients d' = d_clients d ∧
  d_next_transaction_id d' = d_next_transaction_id d ∧ d_settings d' = d_settings d.
(** Transactions that involve the client are forgotten among those of [l]. *)
Definition forgotten (fd : Z) (l : list (Z * PendingTransaction)) (d d' : daemon) : Prop :=
  ∀ id p, d_pending d' !! id = Some p ↔ d_pending d !! id = Some p ∧ ¬ (id ∈ l.*1 ∧ involves fd p).

Lemma run_drop_one fd id p d : d_pending d !! id = Some p → others_counted fd d →
  run (drop_pending fd (id, p)) d (λ _ d', same_rest d d' ∧ others_counted fd d' ∧ forgotten fd [(id, p)] d d').
Proof.
  intros Hp Hco.
  assert (involves fd p → ∀ d', d_pending d' = delete id (d_pending d) → forgotten fd [(id, p)] d d') as Hdel.
  { intros Hi d' E id' p'. rewrite E, lookup_delete_Some. cbn. rewrite list_elem_of_singleton. split.
    - intros [Hne Hl]. split; [done|]. intros [-> _]. done.
    - intros [Hl Hn]. split; [|done]. intros <-. apply Hn. split; [done|]. congruence. }
  unfold drop_pending. destruct (Z.eqb_spec (pt_owner_fd p) fd) as [Ho|Ho].
  - apply run_bind, run_send. intros ok k n. apply run_modify. split_and!; [done| |by apply Hdel; [left|]].
    intros f r Hf. cbn [set_pending add_event add_calls d_events d_pending]. rewrite open_app, (Hco f r Hf).
    rewrite (pending_delete _ _ _ _ p) by done. cbn [count_event message_header h_opcode h_request_id].
    change (Z.lor _ _ =? _) with true. unfold one_if, called_by. cbn.
    destruct (Z.eqb_spec (pt_caller_fd p) f), (Z.eqb_spec (pt_caller_request_id p) r), (decide _);
      cbn; try lia; naive_solver.
  - destruct (Z.eqb_spec (pt_caller_fd p) fd) as [Hc|Hc].
    + apply run_modify. split_and!; [done| |by apply Hdel; [right|]].
      intros f r Hf. cbn [set_pending d_events d_pending]. rewrite (Hco f r Hf), (pending_delete _ _ _ _ p) by done.
      unfold one_if, called_by. cbn. destruct (decide _); [naive_solver|lia].
    + apply run_ret. split_and!; [done..|]. intros id' p'. cbn. rewrite list_elem_of_singleton.
      split; [|tauto]. intros Hl. split; [done|]. intros [-> [?|?]]; congruence.
Qed.
Lemma run_drop fd l d : NoDup l.*1 → (∀ id p, (id, p) ∈ l → d_pending d !! id = Some p) → others_counted fd d →
  run (each (drop_pending fd) l) d (λ _ d', same_rest d d' ∧ others_counted fd d' ∧ forgotten fd l d d').
Proof.
  revert d. induction l as [|[id p] l IH]; intros d Hn Hl Hco; cbn [each].
  { apply run_ret. split_and!; [done..|]. intros id p. cbn. set_solver. }
  inversion Hn as [|? ? Hid Hn']; subst. apply run_bind.
  eapply run_mono; [apply run_drop_one; [apply Hl; set_solver|done]|].
  intros [] d1 (Hs1 & Hc1 & Hf1). eapply run_mono; [apply IH; [done| |done]|].
  - intros id' p' Hin. apply Hf1. split; [apply Hl; set_solver|]. cbn. rewrite list_elem_of_singleton.
    intros [-> _]. apply Hid, list_elem_of_fmap. by exists (id, p').
  - intros [] d2 (Hs2 & Hc2 & Hf2). split_and!; [|done|].
    + unfold same_rest in *. destruct_and!. split_and!; congruence.
    + intros id' p'. rewrite (Hf2 id' p'), (Hf1 id' p'). cbn. rewrite list_elem_of_singleton, elem_of_cons. tauto.
Qed.

Lemma run_remove i n d : (i < length (d_clients d))%nat → inv None n d →
  run (remove_client i) d (λ _ d', inv None n d' ∧ length (d_clients d') = (length (d_clients d) - 1)%nat ∧
    ∀ c, d_clients d !! i = Some c →
      d_services d' = drop_services (cl_fd c) (cl_owned_services c) (d_services d)).
Proof.
  intros Hi [Hl Hco Hu Hn]. unfold remove_client. apply run_bind, run_at_client; [done|]. intros c Hc.
  apply run_bind, run_get, run_bind.
  assert (∀ id p, (id, p) ∈ os_order (d_pending d) ↔ d_pending d !! id = Some p) as Ho.
  { intros id p. rewrite order_all. apply elem_of_map_to_list. }
  eapply run_mono; [apply run_drop|].
  { rewrite order_all. apply NoDup_fst_map_to_list. }
  { by intros id p ?%Ho. }
  { intros f r _. rewrite Hco. unfold one_if. rewrite decide_False by done. lia. }
  intros [] d1 ((Es & Ec & En & Ese) & Hoc & Hf).
  assert (∀ id p, d_pending d1 !! id = Some p ↔ d_pending d !! id = Some p ∧ ¬ involves (cl_fd c) p) as Hpe.
  { intros id p. rewrite (Hf id p). split; [|tauto]. intros [Hp Hn']. split; [done|]. intros Hinv. apply Hn'.
    split; [|done]. apply list_elem_of_fmap. exists (id, p). by rewrite Ho. }
  apply run_bind, run_get, run_bind, run_modify, run_bind, run_modify, run_modify. cbn. rewrite Ec.
  split; [|split; [|intros c' [= <-]%(eq_trans (eq_sym Hc)); by rewrite Es]].
  2:{ pose proof (length_delete (d_clients d) i ltac:(eauto)). lia. }
  destruct Hl as [Hd Hnn Hs Hp].
  assert (d_clients d ≡ₚ c :: delete i (d_clients d)) as Hperm by by apply delete_Permutation.
  assert (fds d ≡ₚ cl_fd c :: (cl_fd <$> delete i (d_clients d))) as Hfds by exact (Permutation_map cl_fd Hperm).
  rewrite Hfds in Hd, Hnn. inversion Hd as [|? ? Hout Hd']; subst. inversion Hnn as [|? ? _ Hnn']; subst.
  split; [split|intros f r|..]; cbn; rewrite ?Ec, ?Es, ?En, ?Ese; try done.
  - intros name fd [Hname Hkeep]%map_lookup_filter_Some H0. destruct (Hs _ _ Hname H0) as (c' & Hc' & <- & Ho').
    rewrite Hperm in Hc'. apply elem_of_cons in Hc' as [->|Hc']; [|by exists c'].
    exfalso. by apply Hkeep.
  - intros id p [Hpd Hninv]%Hpe. destruct (Hp _ _ Hpd) as (Hcf & Hof & Hid).
    rewrite Hfds in Hcf, Hof. unfold involves in Hninv. unfold fds. cbn [set_clients d_clients].
    apply elem_of_cons in Hcf as [?|?]; [tauto|]. apply elem_of_cons in Hof as [?|?]; [tauto|].
    split_and!; [done|done|lia|lia].
  - fold (open_requests f r (d_events d1 ++ [Closed (cl_fd c)])). rewrite open_app. cbn [count_event]. destruct (Z.eqb_spec (cl_fd c) f) as [<-|Hne].
    + unfold one_if. rewrite decide_False by done. unfold pending_for.
      assert (filter (called_by (cl_fd c) r) (d_pending d1) = ∅) as ->; [|done].
      apply map_empty. intros id. apply map_lookup_filter_None. right.
      intros p [_ Hninv]%Hpe [Hcall _]. apply Hninv. by right.
    + rewrite (Hoc f r) by done. unfold one_if. rewrite decide_False by done. lia.
Qed.

(** ** One client *)

Lemma opcode_of_number n o : opcode_of n = Some o → n = opcode_number o.
Proof.
  unfold opcode_of. destruct (Z.leb_spec 1 n); [|done]. intros Hl.
  assert (∀ k o, opcodes !! k = Some o → opcode_number o = Z.of_nat k + 1) as Hk.
  { intros k o' Hk. pose proof (lookup_lt_Some _ _ _ Hk) as Hlt. cbn in Hlt.
    do 31 (destruct k as [|k]; [injection Hk as <-; reflexivity|]). lia. }
  apply Hk in Hl. lia.
Qed.

(** The request at hand when a message is taken. *)
Definition at_hand (fd : Z) (h : MessageHeader) : option (Z * Z) :=
  if h_opcode h =? 14 then Some (fd, h_request_id h) else None.
Lemma inv_received fd h payload n d :
  inv None n d → inv (at_hand fd h) n (add_event (Received fd h payload) d).
Proof.
  intros [Hl Hco Hu Hn]. split; [by apply (set_events_linked d)| |done|done].
  intros f r. cbn [add_event d_events d_pending]. rewrite open_app, Hco. cbn [count_event].
  unfold at_hand, one_if. rewrite decide_False by done.
  destruct (Z.eqb_spec (h_opcode h) 14), (Z.eqb_spec fd f), (Z.eqb_spec (h_request_id h) r); cbn [andb];
    destruct (decide _); try lia; naive_solver.
Qed.
Lemma run_dispatch i c h payload passed n d :
  d_clients d !! i = Some c → size payload <= kMaxPayloadSize → n < max_messages →
  inv (at_hand (cl_fd c) h) n d →
  run (dispatch i h payload passed) d (λ _ d', inv None (n + 1) d' ∧ fds d' = fds d).
Proof.
  intros Hc Hp Hn Hinv. assert (i < length (d_clients d))%nat as Hi by by eapply lookup_lt_Some.
  destruct (opcode_of (h_opcode h)) as [o|] eqn:Eo.
  2:{ unfold dispatch. rewrite Eo. apply run_ret. unfold at_hand in Hinv.
      destruct (Z.eqb_spec (h_opcode h) 14) as [E|]; [by rewrite E in Eo|].
      split; [eapply inv_more; [|done]; lia|done]. }
  pose proof (opcode_of_number _ _ Eo) as En. unfold at_hand in Hinv. rewrite En in Hinv.
  destruct (linking o) eqn:El.
  - unfold dispatch. rewrite Eo. destruct o; try discriminate El; cbn in Hinv.
    + eapply run_mono; [by apply run_register|]. intros [] d' [Hi' Hf].
      split; [eapply inv_more; [|done]; lia|done].
    + by eapply run_transact.
    + eapply run_mono; [by apply run_binder_reply|]. intros [] d' [Hi' Hf].
      split; [eapply inv_more; [|done]; lia|done].
  - assert (inv None n d) as Hinv' by by destruct o.
    eapply run_mono.
    { apply (calms_dispatch i h payload Hp passed); [|split; [exact Hi|by destruct Hinv']|apply calm_refl].
      intros o' [= <-]%(eq_trans (eq_sym Eo)). done. }
    intros [] d' Hcalm. split; [eapply inv_more; [|by eapply inv_calm]; lia|].
    by rewrite fds_owners, (calm_owners _ _ Hcalm), <- fds_owners.
Qed.

Lemma inv_passed x n k d : inv x n d → inv x n (add_passed k d).
Proof. apply inv_calm, calm_same; done. Qed.
(** What receive_exact gives has the size asked for. *)
Lemma receive_go_size fuel chunks n got bs : 0 <= n →
  (receive_go fuel chunks n got).1 = Some bs → size bs = size got + n.
Proof.
  revert chunks n got. induction fuel as [|fuel IH]; intros chunks n got Hn; cbn [receive_go].
  - destruct (Z.leb_spec n 0); [|done]. intros [= <-]. lia.
  - destruct (Z.leb_spec n 0); [intros [= <-]; lia|].
    assert (size (recv chunks n).1 <= n) as Hr.
    { destruct chunks as [|c cs]; cbn [recv fst]; [rewrite size_nil; lia|]. destruct (Z.leb_spec (size c) n); [done|].
      cbn. unfold size. rewrite length_take. lia. }
    destruct (recv chunks n) as [[|b c] cs]; [done|]. cbn [fst] in Hr. intros E%IH; [|lia]. sizes. lia.
Qed.
Lemma receive_exact_size chunks n bs : n <= kMaxPayloadSize →
  (receive_exact chunks n).1 = Some bs → size bs <= kMaxPayloadSize.
Proof.
  intros Hn E. destruct (Z.le_gt_cases n 0) as [Hle|].
  - unfold receive_exact in E. replace (Z.to_nat n) with O in E by lia. cbn [receive_go] in E.
    rewrite (proj2 (Z.leb_le _ _)) in E by lia. injection E as <-. by vm_compute.
  - apply receive_go_size in E; [|lia]. rewrite E, size_nil. lia.
Qed.

Lemma run_serve i ev n d : (i < length (d_clients d))%nat → n < max_messages → inv None n d →
  run (serve_client i ev) d (λ _ d', inv None (n + 1) d' ∧ length (d_clients d') = length (d_clients d)).
Proof.
  intros Hi Hn Hinv. unfold serve_client. apply run_bind, run_at_client; [done|]. intros c Hc.
  apply run_bind, run_modify. set (d1 := add_passed _ d).
  assert (inv None n d1) as Hinv1 by by apply inv_passed.
  destruct (negb _); [apply run_ret; split; [eapply inv_more; [|done]; lia|done]|].
  apply run_bind. eapply run_mono.
  { instantiate (1 := λ _ d', inv None (n + 1) d' ∧ length (d_clients d') = length (d_clients d)).
    destruct (header_ok _) eqn:Eh; cbn [negb]; [|apply run_ret; split; [eapply inv_more; [|done]; lia|done]].
    destruct (receive_exact _ _).1 as [payload|] eqn:Er;
      [|apply run_ret; split; [eapply inv_more; [|done]; lia|done]].
    unfold header_ok in Eh. apply andb_true_iff in Eh as [_ Eh%negb_true_iff%Z.ltb_ge].
    apply run_bind, run_modify, run_bind. eapply run_mono.
    { apply (run_dispatch _ c); [exact Hc|by eapply receive_exact_size|exact Hn|]. by apply inv_received. }
    intros [] d2 [Hinv2 Hf]. apply run_ret. split; [done|].
    apply (f_equal length) in Hf. unfold fds in Hf. by rewrite !length_fmap in Hf. }
  intros b d2 [Hinv2 Hlen]. apply run_bind, run_modify, run_ret. split; [by apply inv_passed|done].
Qed.
(** An event of a client lets at most one message in. *)
Lemma run_handle i ev n d : (i < length (d_clients d))%nat → n < max_messages → inv None n d →
  run (handle_client i ev) d (λ _ d', inv None (n + 1) d' ∧ (i <= length (d_clients d'))%nat).
Proof.
  intros Hi Hn Hinv. unfold handle_client. apply run_bind.
  assert (∀ d', inv None (n + 1) d' → length (d_clients d') = length (d_clients d) →
    run (remove_client i) d' (λ _ d', inv None (n + 1) d' ∧ (i <= length (d_clients d'))%nat)) as Hrem.
  { intros d' Hd' Hl. eapply run_mono; [apply run_remove; [by rewrite Hl|done]|]. intros [] d2 (? & E & _).
    split; [done|]. rewrite E. lia. }
  destruct (re_gone ev).
  { apply run_ret, Hrem; [eapply inv_more; [|done]; lia|done]. }
  destruct (re_in ev).
  - eapply run_mono; [by apply run_serve|]. intros b d' [Hd' Hl]. destruct b; [by apply Hrem|].
    apply run_ret. split; [done|lia].
  - apply run_ret, run_ret. split; [eapply inv_more; [|done]; lia|lia].
Qed.
Lemma run_handles k events n d : (k <= length (d_clients d))%nat →
  n + Z.of_nat (Nat.min k (length events)) <= max_messages → inv None n d →
  run (handle_clients k events) d (λ _ d', inv None (n + Z.of_nat (Nat.min k (length events))) d').
Proof.
  revert n d. induction k as [|k IH]; intros n d Hk Hn Hinv; cbn [handle_clients].
  { apply run_ret. by rewrite Z.add_0_r. }
  apply run_bind. destruct (events !! k) as [ev|] eqn:Ee; cbn [default].
  - apply lookup_lt_Some in Ee. eapply run_mono; [apply (run_handle k ev n); [lia|lia|done]|].
    intros [] d' [Hinv' Hk']. replace (n + Z.of_nat (S k `min` length events)) with (n + 1 + Z.of_nat (k `min` length events)) by lia.
    apply IH; [done|lia|done].
  - apply lookup_ge_None in Ee. unfold handle_client. cbn [no_event re_gone re_in]. apply run_bind, run_ret, run_ret.
    replace (S k `min` length events)%nat with (k `min` length events)%nat by lia. apply IH; [lia|lia|done].
Qed.

(** ** Rounds *)

Lemma run_accept fd pid uid n d : 0 <= fd → fd ∉ fds d → inv None n d →
  run (accept_client fd pid uid) d (λ _ d', inv None n d' ∧ length (d_clients d') = S (length (d_clients d))).
Proof.
  intros H0 Hfd [Hl Hco Hu Hn]. unfold accept_client. apply run_bind, run_modify, run_modify. split.
  2:{ cbn. rewrite length_app. cbn. lia. }
  destruct Hl as [Hd Hnn Hs Hp]. unfold fds in *. split; [split|intros f r|..]; unfold fds; cbn; try done.
  - rewrite fmap_app. apply NoDup_app. split_and!; [done| |apply NoDup_singleton]. intros x Hx. cbn. set_solver.
  - rewrite fmap_app. apply Forall_app. split; [done|]. by repeat constructor.
  - intros name f Hname Hf. destruct (Hs _ _ Hname Hf) as (c & Hc & <- & Ho). exists c. split_and!; [set_solver|done..].
  - intros id p Hid. destruct (Hp _ _ Hid) as (? & ? & ?). rewrite fmap_app. split_and!; [set_solver|set_solver|lia|lia].
  - fold (open_requests f r (d_events d ++ [Accepted fd])). rewrite open_app. cbn [count_event].
    destruct (Z.eqb_spec fd f) as [->|]; [|apply Hco]. unfold one_if. rewrite decide_False by done. unfold pending_for.
    assert (filter (called_by f r) (d_pending d) = ∅) as ->; [|done].
    apply map_empty. intros id. apply map_lookup_filter_None. right.
    intros p Hid [Hcall _]. cbn in Hcall. destruct (Hp _ _ Hid) as (Hin & _). rewrite Hcall in Hin. by apply Hfd.
Qed.
Lemma run_registry n d : inv None n d → run check_registry d (λ _ d', inv None n d').
Proof.
  intros Hinv. assert (calms (λ _, True) check_registry) as Hc.
  { unfold check_registry. apply calms_bind; [apply calms_call|]. intros k.
    apply calms_bind; [apply calms_get|]. intros stamp. destruct (_ =? _); [apply calms_ret|].
    apply calms_bind; [apply calms_get|]. intros g. cbv zeta.
    apply calms_bind; [apply calms_modify; intros; by apply calm_same|]. intros []. by apply calms_notify. }
  eapply run_mono; [by apply (Hc d d); [|apply calm_refl]|]. intros [] d' Hcalm. by eapply inv_calm.
Qed.

(** The descriptor accept gives is one that is not in use. *)
Definition fresh (p : poll_result) (d : daemon) : Prop :=
  match po_accept p with Some (fd, _, _) => 0 <= fd ∧ fd ∉ fds d | None => True end.
Lemma run_round p n d : fresh p d → n + Z.of_nat (length (po_clients p)) <= max_messages → inv None n d →
  run (round p) d (λ _ d', inv None (n + Z.of_nat (length (po_clients p))) d').
Proof.
  intros Hf Hn Hinv. unfold round. apply run_bind, run_get. destruct (po_failed p).
  { apply run_ret. eapply inv_more; [|done]. lia. }
  apply run_bind. eapply run_mono.
  { instantiate (1 := λ _ d', inv None n d' ∧ (length (d_clients d) <= length (d_clients d'))%nat).
    destruct (po_ready p); [|by apply run_ret]. unfold fresh in Hf.
    destruct (po_accept p) as [[[fd pid] uid]|]; [|by apply run_ret]. destruct Hf as [H0 Hfd].
    eapply run_mono; [by apply run_accept|]. intros [] d' [? ->]. split; [done|lia]. }
  intros [] d1 [Hinv1 Hl]. apply run_bind, run_get, run_bind.
  set (events := take _ _). assert (length events <= length (po_clients p))%nat as Hle.
  { unfold events. rewrite length_take. lia. }
  eapply run_mono; [apply (run_handles _ events n); [done|lia|done]|]. intros [] d2 Hinv2.
  apply run_bind. eapply run_mono; [by apply run_registry|]. intros [] d3 Hinv3. apply run_ret.
  eapply inv_more; [|done]. lia.
Qed.

(** The states the daemon reaches with so many messages at most. *)
Inductive reached (m : files) : Z → daemon → Prop :=
  | reached_start : reached m 1 (start m)
  | reached_round n d p b d' : reached m n d → fresh p d → round p d = Ok (b, d') →
      reached m (n + Z.of_nat (length (po_clients p))) d'.

Lemma builtin_unowned name fd : builtin_services !! name = Some fd → fd = -1.
Proof.
  unfold builtin_services. intros Hn%elem_of_list_to_map_2.
  apply list_elem_of_fmap in Hn as (s & [= _ ->] & _). done.
Qed.
Lemma start_inv m : users_fit (load_settings (m !! os_settings_path)) → inv None 1 (start m).
Proof.
  intros Hu. split; [split|intros f r|..].
  - apply NoDup_nil_2.
  - apply Forall_nil_2.
  - intros name fd Hname H0. apply (builtin_unowned name) in Hname. lia.
  - intros id p. cbn [start d_pending]. by rewrite lookup_empty.
  - done.
  - cbn [start d_settings]. destruct (load_settings _ !! cs "users") as [v|] eqn:E; [done|].
    intros v. rewrite lookup_insert_eq. intros Hv%(inj Some). subst v. by vm_compute.
  - cbn [start d_next_transaction_id]. lia.
Qed.
Lemma reached_inv m n d : users_fit (load_settings (m !! os_settings_path)) →
  reached m n d → n <= max_messages → inv None n d.
Proof.
  intros Hu. induction 1 as [|n d p b d' _ IH Hf Hr]; intros Hn; [by apply start_inv|].
  destruct (run_round p n d Hf Hn) as (b' & d2 & E & Hinv); [apply IH; lia|]. rewrite Hr in E. by injection E as -> ->.
Qed.

(** C22. In every state the daemon reaches, the services that belong to clients
    belong to connected ones, and each pending transaction has a connected
    caller and a connected owner; no two clients share a descriptor. *)
Theorem links_connected m n d :
  users_fit (load_settings (m !! os_settings_path)) → reached m n d → n <= max_messages →
  NoDup (fds d) ∧
  (∀ name fd, d_services d !! name = Some fd → 0 <= fd →
     ∃ c, c ∈ d_clients d ∧ cl_fd c = fd ∧ name ∈ cl_owned_services c) ∧
  (∀ id p, d_pending d !! id = Some p → pt_caller_fd p ∈ fds d ∧ pt_owner_fd p ∈ fds d).
Proof.
  intros Hu Hr Hn. destruct (reached_inv _ _ _ Hu Hr Hn) as [[Hd _ Hs Hp] _ _ _].
  split_and!; [done..|]. intros id p Hid. by apply Hp in Hid as (? & ? & _).
Qed.


(** C21. Each binder transaction is answered once: of the requests with a
    number that a client has made on its connection, those that are not
    answered are pending, and no other answer was sent. *)
Theorem transactions_answered_once m n d fd rid :
  users_fit (load_settings (m !! os_settings_path)) → reached m n d → n <= max_messages →
  open_requests fd rid (d_events d) = pending_for fd rid (d_pending d).
Proof.
  intros Hu Hr Hn. destruct (reached_inv _ _ _ Hu Hr Hn) as [_ Hco _ _]. rewrite Hco.
  unfold one_if. rewrite decide_False by done. lia.
Qed.

(** A reply of the owner of a pending transaction goes to its caller, with
    the number of the caller's request and the payload as it is, and ends the
    transaction; a reply of anyone else, or to no transaction, does nothing. *)
Theorem replies_routed i c h payload d :
  d_clients d !! i = Some c →
  (∀ p, d_pending d !! h_request_id h = Some p → pt_owner_fd p = cl_fd c →
    ∃ k n, binder_reply i h payload d = Ok ((),
      set_pending (delete (h_request_id h) (d_pending d))
        (add_event (Sent (pt_caller_fd p) (message_header BinderTransact (pt_caller_request_id p) payload true)
                      payload k) (add_calls n d)))) ∧
  ((∀ p, d_pending d !! h_request_id h = Some p → pt_owner_fd p ≠ cl_fd c) →
    binder_reply i h payload d = Ok ((), d)).
Proof.
  intros Hc. assert (i < length (d_clients d))%nat as Hi by by eapply lookup_lt_Some. split.
  - intros p Hp Ho. assert (run (binder_reply i h payload) d (λ _ d', ∃ k n, d' =
      set_pending (delete (h_request_id h) (d_pending d))
        (add_event (Sent (pt_caller_fd p) (message_header BinderTransact (pt_caller_request_id p) payload true)
                      payload k) (add_calls n d)))) as ([] & d' & E & k & n & ->); [|by exists k, n].
    unfold binder_reply. apply run_bind, run_get, run_bind, run_at_client; [done|].
    intros c' [= <-]%(eq_trans (eq_sym Hc)). rewrite Hp, Ho, Z.eqb_refl. apply run_bind, run_send.
    intros ok k n. apply run_modify. by exists k, n.
  - intros Hp. assert (run (binder_reply i h payload) d (λ _ d', d' = d)) as ([] & d' & E & ->); [|done].
    unfold binder_reply. apply run_bind, run_get, run_bind, run_at_client; [done|].
    intros c' [= <-]%(eq_trans (eq_sym Hc)). destruct (d_pending d !! _) as [p|]; [|by apply run_ret].
    rewrite (proj2 (Z.eqb_neq _ _)) by by apply Hp. by apply run_ret.
Qed.

(** When a client goes, just the services registered by it are gone; a
    service of the daemon's own catalogue that a client had taken over is not
    declared again. *)
Theorem services_of_client_lost m n d i c d' :
  users_fit (load_settings (m !! os_settings_path)) → reached m n d → n <= max_messages →
  d_clients d !! i = Some c → remove_client i d = Ok ((), d') →
  d_services d' = filter (λ '(_, fd), fd ≠ cl_fd c) (d_services d).
Proof.
  intros Hu Hr Hn Hc E. pose proof (reached_inv _ _ _ Hu Hr Hn) as Hinv.
  assert (i < length (d_clients d))%nat as Hi by by eapply lookup_lt_Some.
  destruct (run_remove i n d Hi Hinv) as ([] & d2 & E2 & _ & _ & Hs). rewrite E in E2. injection E2 as <-.
  rewrite (Hs c Hc). destruct Hinv as [[Hd Hnn Hown _] _ _ _].
  assert (0 <= cl_fd c) as H0.
  { rewrite Forall_forall in Hnn. apply Hnn, list_elem_of_fmap. exists c. split; [done|by eapply list_elem_of_lookup_2]. }
  apply map_filter_ext. intros name fd Hname. split; [|tauto]. intros Hno ->. apply Hno. split; [|done].
  destruct (Hown _ _ Hname H0) as (c' & Hc' & Efd & Ho). apply list_elem_of_lookup in Hc' as [j Hj].
  assert (j = i) as ->; [|congruence].
  eapply (NoDup_lookup (fds d)); [done|unfold fds; by rewrite list_lookup_fmap, Hj|].
  unfold fds. by rewrite list_lookup_fmap, Hc, Efd.
Qed.
End Reach.

(** ** The service daemon at work

    A system where every call succeeds, and two clients of which one registers
    a service and the other calls it: the theorems of MuplardReach at the
    states this goes through. *)

#[export] Instance toy_os : Os := {|
  os_files := toy_files;
  os_send n fd k := k;
  os_uptime n := Z.of_nat n;
  os_registry n := None;
  os_stamp n := 0;
  os_pad := [0; 0; 0; 0];
  os_settings_path := cs "/settings";
  os_order := map_to_list;
|}.
#[export] Instance toy_os_laws : OsLaws toy_os.
Proof. split; [apply toy_files_laws|intros; cbn; lia|done|done]. Qed.

(** A message of a client, as poll and recv give it. *)
Definition sends (o : Opcode) (id : Z) (payload : list Z) : revent :=
  Revent false true (header_bytes os_pad (message_header o id payload false)) None [payload].
Definition accepts (fd : Z) (events : list revent) : poll_result :=
  Polled false true (Some (fd, 100 + fd, 501)) events.
Definition polls (events : list revent) : poll_result := Polled false false None events.

(** The state after a round. *)
Definition after (p : poll_result) (d : daemon) : daemon := match round p d with Ok (_, d) => d | _ => d end.
Lemma reached_after n d p : reached ∅ n d → fresh p d →
  match round p d with Ok _ => true | _ => false end = true →
  reached ∅ (n + Z.of_nat (length (po_clients p))) (after p d).
Proof.
  intros Hr Hf Hok. unfold after. destruct (round p d) as [[b d']| | |] eqn:E; [|done..]. by eapply reached_round.
Qed.

(** Client 5 takes over the service window and calls nothing; client 6 calls
    it and is answered; client 5 goes. *)
Definition round1 := accepts 5 [].
Definition round2 := accepts 6 [sends RegisterService 1 (cs "window")].
Definition round3 := polls [no_event; sends BinderTransact 9 (cs "window" ++ [newline] ++ cs "hello")].
Definition round4 := polls [sends BinderReply 1 (cs "hi"); no_event].
Definition toy1 := after round1 (start ∅).
Definition toy2 := after round2 toy1.
Definition toy3 := after round3 toy2.
Definition toy4 := after round4 toy3.

Lemma toy_users : users_fit (load_settings ((∅ : files) !! os_settings_path)).
Proof. intros v. cbn. by rewrite lookup_empty. Qed.
Lemma toy1_reached : reached ∅ 1 toy1.
Proof. apply (reached_after 1 _ round1); [apply reached_start|split; [done|decides]|by vm_compute]. Qed.
Lemma toy2_reached : reached ∅ 2 toy2.
Proof. apply (reached_after 1 _ round2); [apply toy1_reached|split; [done|decides]|by vm_compute]. Qed.
Lemma toy3_reached : reached ∅ 4 toy3.
Proof. apply (reached_after 2 _ round3); [apply toy2_reached|done|by vm_compute]. Qed.
Lemma toy4_reached : reached ∅ 6 toy4.
Proof. apply (reached_after 4 _ round4); [apply toy3_reached|done|by vm_compute]. Qed.

(** What went over the connection of a client, decoded. *)
Definition traffic (fd : Z) (d : daemon) : list (Z * Z * list Z) :=
  omap (λ e, match e with
             | Sent f h payload _ => if f =? fd then Some (h_opcode h, h_request_id h, payload) else None
             | _ => None
             end) (d_events d).
Example toy_traffic :
  traffic 5 toy4 = [(0x8003, 1, cs "1"); (15, 1, cs "hello")] ∧ traffic 6 toy4 = [(0x800e, 9, cs "hi")].
Proof. split; by vm_compute. Qed.

(** Witness of [links_connected] *)
Lemma links_connected_witness :
  NoDup (fds toy3) ∧
  (∃ c, c ∈ d_clients toy3 ∧ cl_fd c = 5 ∧ cs "window" ∈ cl_owned_services c) ∧
  (∀ id p, d_pending toy3 !! id = Some p → pt_caller_fd p ∈ fds toy3 ∧ pt_owner_fd p ∈ fds toy3).
Proof.
  destruct (links_connected ∅ 4 toy3 toy_users toy3_reached) as (Hd & Hs & Hp); [by vm_compute|].
  split; [exact Hd|]. split; [|exact Hp]. apply (Hs (cs "window") 5); by vm_compute.
Defined.


(** Witness of [transactions_answered_once] *)
Lemma transactions_answered_once_witness :
  open_requests 6 9 (d_events toy3) = pending_for 6 9 (d_pending toy3) ∧ pending_for 6 9 (d_pending toy3) = 1 ∧
  open_requests 6 9 (d_events toy4) = pending_for 6 9 (d_pending toy4) ∧ pending_for 6 9 (d_pending toy4) = 0.
Proof.
  split; [apply (transactions_answered_once ∅ 4 toy3); [apply toy_users|apply toy3_reached|by vm_compute]|].
  split; [by vm_compute|].
  split; [apply (transactions_answered_once ∅ 6 toy4); [apply toy_users|apply toy4_reached|by vm_compute]|].
  by vm_compute.
Defined.

Definition client5 : Client := NewClient 5 105 501 false false false {[ cs "window" ]} [] [].

(** Witness of [replies_routed] *)
Lemma replies_routed_witness :
  ∃ k n, binder_reply 0 (Header 0 0 16 0 1) (cs "hi") toy3 = Ok ((),
    set_pending (delete 1 (d_pending toy3))
      (add_event (Sent 6 (message_header BinderTransact 9 (cs "hi") true) (cs "hi") k) (add_calls n toy3))).
Proof.
  destruct (replies_routed 0 client5 (Header 0 0 16 0 1) (cs "hi") toy3) as [Hr _]; [by vm_compute|].
  apply (Hr (Pending 6 5 9)); by vm_compute.
Defined.

(** Witness of [services_of_client_lost]: there is no window service after. *)
Lemma services_of_client_lost_witness :
  match remove_client 0 toy4 with
  | Ok (_, d') => d_services d' = filter (λ '(_, fd), fd ≠ 5) (d_services toy4) ∧ d_services d' !! cs "window" = None
  | _ => False
  end ∧ d_services toy1 !! cs "window" = Some (-1).
Proof.
  split; [|by vm_compute]. destruct (remove_client 0 toy4) as [[[] d']| | |] eqn:E; [|by vm_compute in E..].
  pose proof (services_of_client_lost ∅ 6 toy4 0 client5 d' toy_users toy4_reached) as Hs.
  rewrite Hs; [|by vm_compute|by vm_compute|exact E]. split; [reflexivity|by vm_compute].
Defined.
