(* ===== verification/MuplardClient.v ===== *)
(** * Clients of the service daemon

    platform/android-aarch64/services/muplard_client.cpp, the class through
    which other parts of the program talk to the daemon, and the command-line
    client of muplard.cpp:706-817.  A connection is what its calls answer:
    whether it is made, how many bytes send takes, what recv finds. *)

From S2P Require Import Prelude Decimal Cxx Float32 Numbers Muplard MuplardState MuplardServer.

(** platform/android-aarch64/services/muplard_client.h:9-13 (ServiceState) *)
Inductive service_status := Missing | Declared | Owned.

(** What the system answers on a connection; the most bytes a path of a socket
    has, with its terminator. *)
Class Net := {
  net_path_max : Z;
  net_connects : bool;
  net_send : nat → Z → Z;
  net_pad : list Z;
  net_chunks : list (list Z);
}.

Section Client.
Context `{Net}.

(** platform/android-aarch64/services/muplard_client.cpp:18-30 (transfer_all)
    Sending: whether all bytes went out. *)
Fixpoint transfer_send (fuel : nat) (call : nat) (size offset : Z) : bool :=
  if size <=? offset then true else
  match fuel with
  | O => false
  | S fuel =>
      let count := net_send call (size - offset) in
      if count <=? 0 then false else transfer_send fuel (S call) size (offset + count)
  end.
(** platform/android-aarch64/services/muplard_client.cpp:145-153 (request) *)
Definition request_header (opcode : Z) (payload : list Z) : MessageHeader :=
  Header kProtocolMagic kProtocolVersion opcode (u32 (size payload)) 1.
(** platform/android-aarch64/services/muplard_client.cpp:158-163 (request) *)
Definition response_ok (opcode : Z) (h : MessageHeader) : bool :=
  (h_magic h =? kProtocolMagic) && (h_version h =? kProtocolVersion) &&
  (h_opcode h =? Z.lor opcode kReplyFlag) && (h_payload_size h <=? kMaxPayloadSize).
(** What recv finds up to the end of a connection, with zeros up to a size. *)
Fixpoint up_to_end (chunks : list (list Z)) : list Z :=
  match chunks with [] :: _ | [] => [] | c :: cs => c ++ up_to_end cs end.
Definition part_received (chunks : list (list Z)) (n : Z) : list Z :=
  let got := up_to_end chunks in got ++ replicate (Z.to_nat (n - size got)) 0.
(** platform/android-aarch64/services/muplard_client.cpp:125-170 (request)
    Whether it succeeded, and the reply, which is as it was if no connection
    was made and empty if the response is not one. *)
Definition request (socket_path : list Z) (opcode : Z) (payload reply : list Z) : bool * list Z :=
  if eq_str socket_path [] || (net_path_max <=? size socket_path) || (kMaxPayloadSize <? size payload)
  then (false, reply)
  else if negb net_connects then (false, reply)
  else
    let packet := header_bytes net_pad (request_header opcode payload) ++ payload in
    if negb (transfer_send (length packet) 0 (size packet) 0) then (false, [])
    else
      match receive_exact net_chunks 24 with
      | (None, _) => (false, [])
      | (Some bs, chunks) =>
          let response := header_of bs in
          if negb (response_ok opcode response) then (false, [])
          else if h_payload_size response =? 0 then (true, [])
          else match receive_exact chunks (h_payload_size response) with
               | (Some bs, _) => (true, bs)
               | (None, _) => (false, part_received chunks (h_payload_size response))
               end
      end.

(** platform/android-aarch64/services/muplard_client.cpp:41-46 (available) *)
Definition available (socket_path : list Z) : bool :=
  let '(ok, reply) := request socket_path (opcode_number Ping) [] [] in ok && eq_str reply (cs "pong").
(** platform/android-aarch64/services/muplard_client.cpp:48-58 (check_service) *)
Definition check_service (socket_path name : list Z) : service_status :=
  let '(ok, reply) := request socket_path (opcode_number CheckService) name [] in
  if negb ok then Missing
  else if eq_str reply (cs "2") then Owned
  else if eq_str reply (cs "1") then Declared else Missing.
(** platform/android-aarch64/services/muplard_client.cpp:60-67 (transact) *)
Definition transact (socket_path service request_payload reply : list Z) : bool * list Z :=
  let '(ok, reply) := request socket_path (opcode_number BinderTransact)
                        (service ++ [newline] ++ request_payload) reply in
  (ok && negb (eq_str reply (cs "DEAD_OBJECT")), reply).
(** platform/android-aarch64/services/muplard_client.cpp:76-89 (device_action) *)
Definition action_payload (action tab apk package_name activity application : list Z) : list Z :=
  action ++ [newline] ++ tab ++ [newline] ++ apk ++ [newline] ++ package_name ++ [newline] ++
  activity ++ [newline] ++ application.
(** platform/android-aarch64/services/muplard_client.cpp:76-89 (device_action) *)
Definition device_action (socket_path action tab apk package_name activity application generation : list Z)
  : bool * list Z :=
  let '(ok, generation) := request socket_path (opcode_number DeviceAction)
                             (action_payload action tab apk package_name activity application) generation in
  (ok && negb (eq_str generation (cs "0")), generation).
(** platform/android-aarch64/services/muplard_client.cpp:101-109 (device_input) *)
Definition input_payload (tab : list Z) (type action source device_id key_code : Z) (x y : f32) : list Z :=
  tab ++ [newline] ++ decimal type ++ [newline] ++ decimal action ++ [newline] ++ decimal source ++ [newline] ++
  decimal device_id ++ [newline] ++ decimal key_code ++ [newline] ++ stream_f32 x ++ [newline] ++ stream_f32 y.
(** platform/android-aarch64/services/muplard_client.cpp:91-113 (device_input) *)
Definition device_input (socket_path tab : list Z) (type action source device_id key_code : Z) (x y : f32)
    (generation : list Z) : bool * list Z :=
  let '(ok, generation) := request socket_path (opcode_number DeviceInput)
                             (input_payload tab type action source device_id key_code x y) generation in
  (ok && negb (eq_str generation (cs "0")), generation).
(** platform/android-aarch64/services/muplard_client.cpp:115-118 (query_device_state) *)
Definition query_device_state (socket_path state : list Z) : bool * list Z :=
  request socket_path (opcode_number QueryDeviceState) [] state.
(** platform/android-aarch64/services/muplard_client.cpp:120-123 (query_tab_finished) *)
Definition query_tab_finished (socket_path state : list Z) : bool * list Z :=
  request socket_path (opcode_number QueryTabFinished) [] state.

(** ** The command line *)

(** platform/android-aarch64/services/muplard.cpp:757-782 (run_client) *)
Definition client_opcode (operation : list Z) : Opcode :=
  let table :=
    [ ("subscribe-packages", SubscribePackages); ("list-services", ListServices);
      ("query-packages", QueryPackages); ("app-session", AppSession); ("query-tasks", QueryTasks);
      ("fd-echo", FdEcho); ("settings-get", GetSetting); ("settings-put", PutSetting);
      ("check-service", CheckService); ("service-state", ServiceState); ("query-users", QueryUsers);
      ("check-permission", CheckPermission); ("set-permission", SetPermission);
      ("surface-transaction", ApplySurfaceTransaction); ("query-surfaces", QuerySurfaces);
      ("device-action", DeviceAction); ("query-device-state", QueryDeviceState);
      ("tab-finished", TabFinished); ("query-tab-finished", QueryTabFinished);
      ("device-input", DeviceInput); ("subscribe-device-inputs", SubscribeDeviceInputs);
      ("subscribe-device-actions", SubscribeDeviceActions); ("binder-transact", BinderTransact) ]%string in
  match find_idx (λ x : string * Opcode, eq_str operation (cs x.1)) table with
  | Some i => match table !! i with Some (_, o) => o | None => Ping end
  | None => Ping
  end.
(** platform/android-aarch64/services/muplard.cpp:811-814 (run_client) *)
Definition goes_on (operation : list Z) : bool :=
  existsb (λ s, eq_str operation (cs s))
    [ "subscribe-packages"; "app-session"; "subscribe-device-actions"; "subscribe-device-inputs" ]%string.
(** platform/android-aarch64/services/muplard.cpp:797-815 (run_client)
    Printing what arrives; each message takes 24 bytes of what there is. *)
Fixpoint print_messages (fuel : nat) (operation : list Z) (chunks : list (list Z)) : list (list Z) :=
  match fuel with
  | O => []
  | S fuel =>
      match receive_message chunks with
      | (None, _) => []
      | (Some (_, payload), chunks) =>
          payload :: if goes_on operation then print_messages fuel operation chunks else []
      end
  end.
(** platform/android-aarch64/services/muplard.cpp:742-752 (run_client)
    A service that answers each transaction with its payload; [sends] says
    whether the nth reply goes out.  The replies. *)
Fixpoint echo_messages (fuel : nat) (sends : nat → bool) (n : nat) (chunks : list (list Z))
  : list (Z * list Z) :=
  match fuel with
  | O => []
  | S fuel =>
      match receive_message chunks with
      | (None, _) => []
      | (Some (h, payload), chunks) =>
          if h_opcode h =? opcode_number BinderIncoming then
            if sends n then (h_request_id h, payload) :: echo_messages fuel sends (S n) chunks else []
          else echo_messages fuel sends n chunks
      end
  end.
(** What a run of the client does: the number it ends with, the messages it
    sends, the lines it prints. *)
Record client_run := Ran { cr_code : Z; cr_sent : list (Opcode * Z * list Z); cr_printed : list (list Z) }.
(** platform/android-aarch64/services/muplard.cpp:706-817 (run_client)
    [sends] says whether the nth message goes out, [opens] whether the file to
    pass can be opened. *)
Definition run_client (socket_path operation request_payload : list Z) (opens : bool) (sends : nat → bool)
  : client_run :=
  let fuel := S (length (concat net_chunks)) in
  if net_path_max <=? size socket_path then Ran 2 [] []
  else if negb net_connects then Ran 1 [] []
  else if eq_str operation (cs "binder-serve") then
    if negb (sends 0%nat) then Ran 1 [] []
    else
      match receive_message net_chunks with
      | (Some (_, registration), chunks) =>
          if eq_str registration (cs "1") then
            let replies := echo_messages fuel sends 1 chunks in
            Ran 0 ((RegisterService, 1, request_payload) :: ((λ r, (BinderReply, r.1, r.2)) <$> replies))
              [cs "registered"]
          else Ran 1 [(RegisterService, 1, request_payload)] []
      | (None, _) => Ran 1 [(RegisterService, 1, request_payload)] []
      end
  else
    let opcode := client_opcode operation in
    let payload := if decide (opcode = FdEcho) then [] else request_payload in
    if (if decide (opcode = FdEcho) then opens && sends 0%nat else sends 0%nat) then
      Ran 0 [(opcode, 1, payload)] (print_messages fuel operation net_chunks)
    else Ran 1 [] [].
End Client.
