(* ===== verification/MuplardClientProps.v ===== *)
(** * Clients and the daemon together

    A request of a client is a message the daemon receives, and the client
    gets the payload of the daemon's reply; what a client writes into the
    payload of a binder transaction or of an input event is what the daemon
    reads from it. *)

From S2P Require Import Prelude Decimal Cxx Float32 Numbers Muplard MuplardState MuplardServer MuplardProps MuplardServerProps MuplardReach MuplardClient.

(** ** Requests *)

(** Each call of send takes some of the bytes. *)
Definition progresses `{Net} : Prop := ∀ n k, 0 < k → 0 < net_send n k.
Lemma transfer_send_all `{Net} fuel call total offset : progresses →
  (Z.to_nat (total - offset) <= fuel)%nat → transfer_send fuel call total offset = true.
Proof.
  intros Hp. revert call offset. induction fuel as [|fuel IH]; intros call offset Hf; cbn [transfer_send].
  - by rewrite (proj2 (Z.leb_le _ _)) by lia.
  - destruct (Z.leb_spec total offset); [done|]. pose proof (Hp call (total - offset) ltac:(lia)).
    rewrite (proj2 (Z.leb_gt _ _)) by lia. apply IH. lia.
Qed.
(** The request as a message. *)
Lemma request_header_message op payload :
  request_header (opcode_number op) payload = ms_header (Message op 1 payload false).
Proof. unfold ms_header, message_header, request_header. cbn. by rewrite Z.lor_0_r. Qed.
Lemma response_ok_message op id payload : message_ok (Message op id payload true) →
  response_ok (opcode_number op) (ms_header (Message op id payload true)) = true.
Proof.
  intros Hm. destruct (ms_header_valid _ Hm) as (_ & _ & Hs). destruct Hm as [_ Hl]. cbn [ms_payload] in *.
  unfold response_ok. rewrite Hs. cbn. rewrite Z.eqb_refl. by apply Z.leb_le.
Qed.

(** A request is a message the daemon can receive, and when the daemon's
    reply to it arrives, in whatever pieces and whatever follows it, the
    client gives its payload. *)
Theorem request_answered `{Net} path op payload answer reply pad rest :
  path ≠ [] → size path < net_path_max → net_connects = true → progresses → length pad = 4%nat →
  length net_pad = 4%nat →
  message_ok (Message op 1 payload false) → message_ok (Message op 1 answer true) →
  arrives net_chunks (ms_bytes pad (Message op 1 answer true) ++ rest) →
  request path (opcode_number op) payload reply = (true, answer) ∧
  receive_messages 1 [header_bytes net_pad (request_header (opcode_number op) payload) ++ payload] =
    Some [(request_header (opcode_number op) payload, payload)].
Proof.
  intros Hp Hl Hc Hs Hpad Hnpad Hreq Hans Ha. split.
  - unfold request, eq_str. rewrite bool_decide_eq_false_2 by done.
    destruct Hreq as [_ Hreq]. cbn [ms_payload] in Hreq.
    rewrite (proj2 (Z.leb_gt _ _)), (proj2 (Z.ltb_ge _ _)) by lia. rewrite Hc. cbn [orb negb].
    rewrite transfer_send_all by (done || unfold size; lia). cbn [negb].
    unfold ms_bytes in Ha. rewrite <- app_assoc in Ha.
    destruct (ms_header_valid _ Hans) as (Hv & _ & Hsz).
    destruct (receive_exact_spec _ _ _ Ha) as (cs & E & Ha'). rewrite size_header in E by done.
    rewrite E, header_roundtrip, response_ok_message by done. cbn [negb]. rewrite Hsz. cbn [ms_payload].
    destruct (Z.eqb_spec (size answer) 0) as [E0|E0].
    { destruct answer; [done|]. rewrite size_cons in E0. pose proof (size_nonneg answer). lia. }
    destruct (receive_exact_spec _ _ _ Ha') as (cs' & E' & _). cbn [ms_payload] in E'. by rewrite E'.
  - rewrite request_header_message. cbn [receive_messages].
    destruct (receive_message_spec net_pad (Message op 1 payload false)
      [ms_bytes net_pad (Message op 1 payload false)] []) as (cs & E & _); [done..| |].
    { split; [cbn; by rewrite !app_nil_r|]. repeat constructor. unfold ms_bytes, header_bytes. discriminate. }
    unfold ms_bytes in E. cbn [ms_payload] in E. by rewrite E.
Qed.

#[local] Instance toy_net : Net := {|
  net_path_max := 104; net_connects := true; net_send n k := 1; net_pad := [9; 9; 9; 9];
  net_chunks := [ms_bytes [0; 0; 0; 0] (Message Ping 1 (cs "pong") true)] |}.

(** Witness of [request_answered] *)
Lemma request_answered_witness :
  available (cs "/run/muplard") = true ∧
  request (cs "/run/muplard") (opcode_number Ping) [] [] = (true, cs "pong").
Proof.
  split; [by vm_compute|].
  apply (request_answered (cs "/run/muplard") Ping [] (cs "pong") [] [0; 0; 0; 0] []); try done.
  split; [by vm_compute|]. repeat constructor. discriminate.
Defined.

(** ** Binder transactions *)

(** What is in front of a separator and behind it. *)
Lemma separator a b : newline ∉ a → size (a ++ [newline] ++ b) < 4611686018427387904 →
  let s := a ++ [newline] ++ b in
  let k := str_find s [newline] 0 in
  k ≠ npos ∧ substr s 0 k = Ok a ∧ substr s (u64 (k + 1)) npos = Ok b.
Proof.
  intros Ha Hs. cbv zeta. cbn [app] in *.
  destruct (find_char [] (a ++ newline :: b) newline) as [[_ Hn]|(f & r & E & Hf & Ek)]; [set_solver|].
  apply app_sep_inj in E as [<- <-]; [|done..]. cbn [app] in Ek. change (size []) with 0 in Ek. rewrite Ek.
  pose proof (size_nonneg a). pose proof (size_nonneg b). sizes. split_and!; [unfold npos; lia| |].
  - apply (substr_field [] a).
  - rewrite u64_small by (words; lia).
    replace (0 + size a + 1) with (size (a ++ [newline])) by (sizes; lia).
    replace (a ++ newline :: b) with ((a ++ [newline]) ++ b) by by rewrite <- app_assoc.
    apply substr_all. unfold npos. lia.
Qed.

(** A transaction was forwarded: it is pending if all of it went out, and
    otherwise its caller was told. *)
Definition forwarded (caller owner : Z) (h : MessageHeader) (body : list Z) (d d' : daemon) : Prop :=
  let id := d_next_transaction_id d in
  let pending := <[id := Pending caller owner (h_request_id h)]> (d_pending d) in
  d_next_transaction_id d' = u64 (id + 1) ∧
  ∃ k, let events := d_events d ++ [Sent owner (message_header BinderIncoming id body false) body k] in
  if 24 + size body <=? k then d_pending d' = pending ∧ d_events d' = events
  else d_pending d' = delete id pending ∧
       ∃ k', d_events d' = events ++
         [Sent caller (message_header BinderTransact (h_request_id h) (cs "DEAD_OBJECT") true)
            (cs "DEAD_OBJECT") k'].

(** What [transact] of a client sends for a service that another client
    has registered, the daemon forwards to that client: the payload as it is,
    under a new number; if it went out whole, the transaction is pending, and
    otherwise the caller is told. *)
Theorem transact_forwarded `{OsLaws} i c h service body owner d :
  d_clients d !! i = Some c → newline ∉ service →
  size (service ++ [newline] ++ body) <= kMaxPayloadSize →
  d_services d !! service = Some owner → 0 <= owner →
  ∃ d', binder_transact i h (service ++ [newline] ++ body) d = Ok ((), d') ∧
    forwarded (cl_fd c) owner h body d d'.
Proof.
  intros Hc Hn Hsz Hs Ho. unfold kMaxPayloadSize in Hsz.
  assert (i < length (d_clients d))%nat as Hi by by eapply lookup_lt_Some.
  destruct (separator service body Hn ltac:(lia)) as (Hk & Ea & Eb).
  set (payload := service ++ [newline] ++ body) in *. set (sep := str_find _ _ _) in *.
  assert (run (binder_transact i h payload) d (λ _ d', forwarded (cl_fd c) owner h body d d'))
    as ([] & d' & E & HQ); [|by exists d'].
  unfold binder_transact. fold sep. apply run_bind, (run_pure _ service); [done|].
  apply run_bind, run_get, run_bind, run_at_client; [done|]. intros c' [= <-]%(eq_trans (eq_sym Hc)).
  rewrite Hs, (proj2 (Z.eqb_neq _ _)), (proj2 (Z.ltb_ge _ _)) by done. cbn [orb].
  apply run_bind, run_get, run_bind, run_modify, run_bind, run_get, run_bind, run_modify.
  apply run_bind, (run_pure _ body); [done|]. apply run_bind, run_send_size. intros k n.
  unfold forwarded. cbv zeta. destruct (24 + size body <=? k) eqn:Ek.
  - apply run_ret. split; [done|]. exists k. by rewrite Ek.
  - apply run_bind, run_get, run_bind, run_modify. unfold reply. apply run_bind, run_at_client; [done|].
    intros c' Hc'. cbn in Hc'. rewrite Hc in Hc'. injection Hc' as <-. apply run_bind, run_send.
    intros ok k' n'. apply run_ret. split; [done|]. exists k. rewrite Ek. split; [done|]. by exists k'.
Qed.

(** Witness of [transact_forwarded] *)
Lemma transact_forwarded_witness :
  ∃ d', binder_transact 1 (Header 0 0 14 0 9) (cs "window" ++ [newline] ++ cs "hello") toy2 = Ok ((), d') ∧
    forwarded 6 5 (Header 0 0 14 0 9) (cs "hello") toy2 d'.
Proof.
  apply (transact_forwarded 1 (NewClient 6 106 501 false false false ∅ [] [])); first [by vm_compute|decides].
Defined.

(** ** Input events *)

(** The text of a number with a point is one line. *)
Definition one_line (s : list Z) : Prop := Forall (λ b, b ≠ newline) s.
Lemma one_line_pad width z : 0 <= z → one_line (decimal_pad width z).
Proof.
  intros Hz. unfold decimal_pad, one_line. apply Forall_app. split; [by apply Forall_replicate|].
  eapply Forall_impl; [by apply (digits_chars 60 z [])|]. intros b Hb. unfold newline. cbn in Hb. lia.
Qed.
Lemma scaled_nonneg m e k : 0 <= scaled_value m e k.
Proof.
  unfold scaled_value. set (a := Zpos m * _ * _). set (b := _ * _).
  assert (0 <= a) by (unfold a; lia). assert (0 < b) by (unfold b; lia).
  pose proof (Z.div_pos a b ltac:(lia) ltac:(lia)). unfold round_half_even. repeat case_match; lia.
Qed.
Lemma strip_zeros_suffix s : strip_zeros s `suffix_of` s.
Proof.
  induction s as [|b s IH]; [done|]. cbn [strip_zeros]. repeat case_match; try done; by apply suffix_cons_r.
Qed.
Lemma one_line_fraction a b : one_line a → one_line b → one_line (with_fraction a b).
Proof.
  intros Ha Hb. unfold with_fraction. set (f := reverse _). assert (one_line f) as Hf.
  { unfold f. destruct (strip_zeros_suffix (reverse b)) as [k E].
    assert (one_line (reverse b)) as Hr by by apply Forall_reverse.
    rewrite E in Hr. apply Forall_app in Hr as [_ Hr]. by apply Forall_reverse. }
  clearbody f. destruct f; [done|]. apply Forall_app. split; [done|]. by constructor.
Qed.
Lemma one_line_stream x : newline ∉ stream_f32 x.
Proof.
  assert (one_line (stream_f32 x)) as Hf.
  2:{ intros Hin. unfold one_line in Hf. rewrite Forall_forall in Hf. by apply (Hf newline). }
  assert (∀ s, one_line (minus s)) as Hm by (intros []; by repeat constructor).
  destruct x as [s|s| |s m e]; cbn [stream_f32]; [apply Forall_app; split; [apply Hm|by repeat constructor]..|by repeat constructor|].
  set (x := exponent10 100 m e 39). clearbody x.
  assert (∃ x' n', 0 <= n' ∧ (if scaled_value m e (5 - x) =? 1000000 then (x + 1, 100000) else (x, scaled_value m e (5 - x))) = (x', n'))
    as (x' & n' & Hn & ->).
  { destruct (_ =? _); [by exists (x + 1), 100000|]. exists x, (scaled_value m e (5 - x)). split; [apply scaled_nonneg|done]. }
  pose proof (one_line_pad 6 n' Hn) as Hd. set (d := decimal_pad 6 n') in *. clearbody d.
  apply Forall_app. split; [apply Hm|]. destruct (_ || _); [|destruct (x' <? 0)].
  - apply Forall_app. split; [apply one_line_fraction; [by apply Forall_take|by apply Forall_drop]|].
    apply Forall_app. split; [by repeat constructor|]. apply Forall_app. split; [by destruct (x' <? 0); repeat constructor|].
    apply one_line_pad. lia.
  - apply one_line_fraction; [by repeat constructor|]. apply Forall_app. split; [by apply Forall_replicate|done].
  - apply one_line_fraction; [by apply Forall_take|by apply Forall_drop].
Qed.

(** The daemon reads from the payload [device_input] of a client sends just
    the numbers that were put in, and takes the event if its type is one of
    the two there are; the coordinates are those of their texts. *)
Theorem device_input_understood state tab type action source device_id key_code x y x' y' :
  newline ∉ tab →
  in_s32 type → in_s32 action → in_s32 source → in_s32 device_id → in_s32 key_code →
  size (input_payload tab type action source device_id key_code x y) <= kMaxPayloadSize →
  parse_float (stream_f32 x) = Some x' → parse_float (stream_f32 y) = Some y' →
  apply_device_input state (input_payload tab type action source device_id key_code x y) =
  Ok (if bool_decide (type = 1 ∨ type = 2)
      then (Input (u64 (in_generation state + 1)) tab type action source device_id key_code x' y', true)
      else (state, false)).
Proof.
  intros Ht H1 H2 H3 H4 H5 Hsz Ex Ey. pose proof (one_line_stream x) as Hx. pose proof (one_line_stream y) as Hy. unfold apply_device_input, kMaxPayloadSize in *.
  rewrite split_fields_eq by lia. cbn [mbind res_bind].
  assert (∀ z, newline ∉ decimal z) as Hd by apply decimal_plain.
  assert (∀ z, in_s32 z → parse_int32 (decimal z) = Some z) as Hp.
  { intros z Hz. unfold parse_int32. rewrite stol_decimal by (words; lia). cbn. unfold in_s32 in Hz.
    by rewrite !(proj2 (Z.ltb_ge _ _)) by lia. }
  unfold input_payload. cbn [app]. rewrite !split_on_field, split_on_none by done.
  unfold parse_input. rewrite !Hp, Ex, Ey by done. cbn [mbind option_bind].
  destruct (Z.eqb_spec type 1), (Z.eqb_spec type 2); cbn [negb andb];
    first [rewrite bool_decide_eq_true_2 by tauto|rewrite bool_decide_eq_false_2 by tauto]; done.
Qed.

(** Witness of [device_input_understood] *)
Lemma device_input_understood_witness :
  apply_device_input no_input (input_payload (cs "launcher") 2 0 4098 1 0 (f32_lit 241 2) (f32_of_Z 240)) =
  Ok (Input 1 (cs "launcher") 2 0 4098 1 0 (f32_lit 241 2) (f32_of_Z 240), true).
Proof.
  apply (device_input_understood no_input (cs "launcher") 2 0 4098 1 0 (f32_lit 241 2) (f32_of_Z 240)
    (f32_lit 241 2) (f32_of_Z 240)); first [decides|words; lia|by vm_compute].
Defined.
