(* ===== verification/GuestMem.v ===== *)
(** * Computations with a state, and the memory of the guest

    Methods of C++ classes change the fields of their object and may throw.
    [St S A] is such a computation on a state [S]: a function to the results of
    Cxx.  [holds m s Q] is its program logic: started in [s], [m] stays inside
    of all objects and ends; it throws, or returns a value and leaves a state
    that satisfy [Q].  [Guest] is the memory of the guest. *)

From S2P Require Import Prelude Decimal Cxx.

Definition St (S A : Type) : Type := S → res (A * S).
#[global] Instance St_ret S : MRet (St S) := λ A a s, Ok (a, s).
#[global] Instance St_bind S : MBind (St S) := λ A B f m s, '(a, s) ← m s; f a s.

Definition get {S A} (f : S → A) : St S A := λ s, Ok (f s, s).
Definition modify {S} (f : S → S) : St S () := λ s, Ok ((), f s).
Definition pure {S A} (r : res A) : St S A := λ s, a ← r; Ok (a, s).
Definition throw {S A} (e : exn) : St S A := λ s, Throw e.
(** A method of a member object. *)
Definition member {S T A} (part : S → T) (with_ : T → S → S) (m : St T A) : St S A :=
  λ s, '(a, t) ← m (part s); Ok (a, with_ t s).
(** [for (const auto &x : l)] *)
Fixpoint each {S A} (f : A → St S ()) (l : list A) : St S () :=
  match l with [] => mret () | x :: l => _ ← f x; each f l end.

Definition holds {S A} (m : St S A) (s : S) (Q : A → S → Prop) : Prop := wp (m s) (λ '(a, s), Q a s).

Section rules.
Context {S : Type}.
Implicit Types (s : S).

Lemma holds_ret {A} (a : A) s (Q : A → S → Prop) : Q a s → holds (mret a) s Q.
Proof. done. Qed.
Lemma holds_bind {A B} (m : St S A) (f : A → St S B) s Q :
  holds m s (λ a s, holds (f a) s Q) → holds (m ≫= f) s Q.
Proof. unfold holds, mbind, St_bind. by destruct (m s) as [[a s1]| | |]. Qed.
Lemma holds_get {A} (f : S → A) s (Q : A → S → Prop) : Q (f s) s → holds (get f) s Q.
Proof. done. Qed.
Lemma holds_modify f s (Q : () → S → Prop) : Q () (f s) → holds (modify f) s Q.
Proof. done. Qed.
Lemma holds_throw {A} e s (Q : A → S → Prop) : holds (throw e) s Q.
Proof. done. Qed.
Lemma holds_pure {A} (r : res A) s (Q : A → S → Prop) : wp r (λ a, Q a s) → holds (pure r) s Q.
Proof. unfold holds, pure. by destruct r. Qed.
Lemma holds_pure_same {A} (r : res A) s (Q : A → Prop) : wp r Q → holds (pure r) s (λ a s', s' = s ∧ Q a).
Proof. unfold holds, pure. by destruct r. Qed.
Lemma holds_mono {A} (m : St S A) s (Q Q' : A → S → Prop) :
  holds m s Q → (∀ a s, Q a s → Q' a s) → holds m s Q'.
Proof. unfold holds. intros H HQ. eapply wp_mono; [exact H|]. intros [a s1]. apply HQ. Qed.
Lemma holds_Ok {A} (m : St S A) s a s1 (Q : A → S → Prop) : holds m s Q → m s = Ok (a, s1) → Q a s1.
Proof. unfold holds. intros H Hm. by rewrite Hm in H. Qed.
Lemma holds_if {A} (b : bool) (m n : St S A) s Q :
  (b = true → holds m s Q) → (b = false → holds n s Q) → holds (if b then m else n) s Q.
Proof. destruct b; auto. Qed.
Lemma holds_each {A} (f : A → St S ()) l s (I : S → Prop) :
  (∀ x s, x ∈ l → I s → holds (f x) s (λ _, I)) → I s → holds (each f l) s (λ _, I).
Proof.
  revert s. induction l as [|x l IH]; intros s Hf Hs; [done|]. cbn [each].
  apply holds_bind. eapply holds_mono; [apply Hf; [left|done]|]. intros [] s1 H1.
  apply IH; [|done]. intros y s2 Hy. apply Hf. by right.
Qed.
Lemma holds_member {T A} (part : S → T) with_ (m : St T A) s (Q : A → S → Prop) :
  holds m (part s) (λ a t, Q a (with_ t s)) → holds (member part with_ m) s Q.
Proof. unfold holds, member. by destruct (m (part s)) as [[a t]| | |]. Qed.

(** Runs. *)
Lemma bind_run {A B} (m : St S A) (f : A → St S B) s a s1 : m s = Ok (a, s1) → (m ≫= f) s = f a s1.
Proof. intros H. unfold mbind, St_bind. by rewrite H. Qed.
Lemma bind_St_Ok {A B} (m : St S A) (f : A → St S B) s r :
  (m ≫= f) s = Ok r ↔ ∃ a s1, m s = Ok (a, s1) ∧ f a s1 = Ok r.
Proof.
  unfold mbind, St_bind. destruct (m s) as [[a s1]| | |]; cbn; [|naive_solver..].
  split; [eauto|]. by intros (? & ? & [= <- <-] & ?).
Qed.
End rules.

(** ** The memory of the guest

    The host reads and writes the memory of the machine it runs through
    functions of its virtual machine monitor (core/guest.h, not part of this
    repository): [Guest] has what the program calls of it and [GuestLaws] what
    it relies on.  [byte g a] is what the guest has at the address [a]. *)

(** guest_t with guest_read, which fills a buffer and says whether all could
    be read; guest_write; guest_read_str, which fills a buffer with a string;
    the fields elf_load_min and guest_size. *)
Class Guest := {
  guest : Type;
  guest_read : guest → Z → list Z → bool * list Z;
  guest_write : guest → Z → list Z → bool * guest;
  guest_read_str : guest → Z → list Z → list Z;
  elf_load_min : guest → Z;
  guest_size : guest → Z;
}.

(** A string of C at [a], shorter than [n]. *)
Definition holds_at (byte : Z → Z) (a : Z) (bs : list Z) : Prop :=
  ∀ i b, bs !! i = Some b → byte (a + Z.of_nat i) = b.

Class GuestLaws (G : Guest) := {
  byte : guest → Z → Z;
  mapped : guest → Z → bool;
  byte_u8 g a : in_u8 (byte g a);
  read_length g a buf : length (guest_read g a buf).2 = length buf;
  read_bytes g a buf : bytes buf → bytes (guest_read g a buf).2;
  read_all g a buf :
    (∀ x, a <= x < a + size buf → mapped g x = true) → (guest_read g a buf).1 = true;
  read_value g a buf :
    (guest_read g a buf).1 = true → holds_at (byte g) a (guest_read g a buf).2;
  write_all g a bs :
    (∀ x, a <= x < a + size bs → mapped g x = true) → (guest_write g a bs).1 = true;
  write_value g a bs :
    (guest_write g a bs).1 = true → bytes bs → holds_at (byte (guest_write g a bs).2) a bs;
  write_other g a bs x :
    ¬ (a <= x < a + size bs) → byte (guest_write g a bs).2 x = byte g x;
  write_mapped g a bs x : mapped (guest_write g a bs).2 x = mapped g x;
  write_load_min g a bs : elf_load_min (guest_write g a bs).2 = elf_load_min g;
  read_str_length g a buf : length (guest_read_str g a buf) = length buf;
  read_str_ends g a buf : buf ≠ [] → 0 ∈ guest_read_str g a buf;
  read_str_bytes g a buf : bytes buf → bytes (guest_read_str g a buf);
  read_str_value g a buf s :
    (∀ x, a <= x <= a + size s → mapped g x = true) → cstring s → size s < size buf →
    holds_at (byte g) a (s ++ [0]) → take (S (length s)) (guest_read_str g a buf) = s ++ [0];
}.

(** ** Consequences *)

Lemma holds_at_app byte a u v :
  holds_at byte a (u ++ v) ↔ holds_at byte a u ∧ holds_at byte (a + size u) v.
Proof.
  unfold holds_at, size. split.
  - intros H. split.
    + intros i b Hi. apply H. by apply lookup_app_l_Some.
    + intros i b Hi. rewrite <-Z.add_assoc, <-Nat2Z.inj_add. apply H.
      rewrite lookup_app_r; [|lia]. by replace (length u + i - length u)%nat with i by lia.
  - intros [Hu Hv] i b. rewrite lookup_app_Some. intros [Hi|[Hl Hi]]; [by apply Hu|].
    replace (a + Z.of_nat i) with (a + Z.of_nat (length u) + Z.of_nat (i - length u)) by lia.
    by apply Hv.
Qed.
Lemma holds_at_ext (f h : Z → Z) a bs :
  (∀ x, a <= x < a + size bs → f x = h x) → holds_at f a bs → holds_at h a bs.
Proof.
  intros He H i b Hi. rewrite <-He; [by apply H|]. apply lookup_lt_Some in Hi. unfold size. lia.
Qed.
Lemma holds_at_eq byte a u v : holds_at byte a u → holds_at byte a v → length u = length v → u = v.
Proof.
  intros Hu Hv Hl. apply list_eq. intros i. destruct (u !! i) eqn:Ei.
  - destruct (lookup_lt_is_Some_2 v i) as [b Hb]; [rewrite <-Hl; by eapply lookup_lt_Some|].
    rewrite Hb. f_equal. by rewrite <-(Hu _ _ Ei), <-(Hv _ _ Hb).
  - symmetry. apply lookup_ge_None. rewrite <-Hl. by apply lookup_ge_None.
Qed.

Section laws.
Context `{G : Guest} `{!GuestLaws G}.
Implicit Types (g : guest).

(** What is at a range that can be read. *)
Lemma read_exact g a buf bs :
  (∀ x, a <= x < a + size buf → mapped g x = true) → length bs = length buf →
  holds_at (byte g) a bs → guest_read g a buf = (true, bs).
Proof.
  intros Hm Hl Hb. pose proof (read_all g a buf Hm) as Ht. pose proof (read_value g a buf Ht) as Hv.
  pose proof (read_length g a buf) as Hn. destruct (guest_read g a buf) as [ok v]. cbn in *. subst ok.
  f_equal. eapply holds_at_eq; [done..|]. lia.
Qed.
(** What has been written is there; what was elsewhere is still. *)
Lemma write_there g a bs :
  (∀ x, a <= x < a + size bs → mapped g x = true) → bytes bs → holds_at (byte (guest_write g a bs).2) a bs.
Proof. intros Hm Hb. apply write_value; [by apply write_all|done]. Qed.
Lemma write_keeps g a bs a' bs' :
  (a' + size bs' <= a ∨ a + size bs <= a') → holds_at (byte g) a' bs' →
  holds_at (byte (guest_write g a bs).2) a' bs'.
Proof. intros Hd. apply holds_at_ext. intros x Hx. symmetry. apply write_other. lia. Qed.
End laws.

(** ** Alignment *)

(** [x & ~(2^k - 1)], with the mask of 64 bits. *)
Lemma land_high_mask x k :
  0 <= k < 64 → 0 <= x < 18446744073709551616 → Z.land x (u64 (Z.lnot (2 ^ k - 1))) = x / 2 ^ k * 2 ^ k.
Proof.
  intros Hk Hx. assert (0 < 2 ^ k) as Hp by (apply Z.pow_pos_nonneg; lia).
  assert (u64 (Z.lnot (2 ^ k - 1)) = Z.shiftl (Z.ones (64 - k)) k) as ->.
  { rewrite Z.shiftl_mul_pow2, Z.ones_equiv by lia.
    replace (Z.lnot (2 ^ k - 1)) with (- 2 ^ k) by (unfold Z.lnot; lia).
    assert (2 ^ (64 - k) * 2 ^ k = 18446744073709551616) as He
      by (rewrite <- Z.pow_add_r by lia; by replace (64 - k + k) with 64 by lia).
    replace (Z.pred (2 ^ (64 - k)) * 2 ^ k) with (18446744073709551616 - 2 ^ k) by (unfold Z.pred; nia).
    assert (2 ^ k < 18446744073709551616) as Hlt.
    { change 18446744073709551616 with (2 ^ 64). apply Z.pow_lt_mono_r; lia. }
    unfold u64. rewrite <- (Z.mod_add _ 1) by lia. rewrite Z.mod_small; lia. }
  rewrite <- Z.shiftr_div_pow2, <- Z.shiftl_mul_pow2 by lia. apply Z.bits_inj'. intros i Hi.
  rewrite Z.land_spec, Z.shiftl_spec by done. rewrite (Z.shiftl_spec _ k) by done.
  destruct (Z.ltb_spec i k) as [Hl|Hl].
  - rewrite (Z.testbit_neg_r _ (i - k)), andb_false_r by lia. by rewrite Z.testbit_neg_r by lia.
  - rewrite Z.shiftr_spec by lia. replace (i - k + k) with i by lia.
    destruct (Z.ltb_spec (i - k) (64 - k)) as [Hh|Hh].
    + by rewrite Z.ones_spec_low, andb_true_r by lia.
    + rewrite Z.ones_spec_high, andb_false_r by lia. symmetry. apply (testbit_high _ 64); [|lia].
      change (2 ^ 64) with 18446744073709551616. lia.
Qed.
