(* ===== verification/JniEnv.v ===== *)
(** * The JNI environment

    platform/android-aarch64/jni/jni_env.h and jni_env.cpp: the classes,
    methods, objects, strings and arrays the guest knows by their handles, and
    the calls of the JNI on them ([dispatch]).  An unordered_map is a [gmap];
    the one place where the code walks one takes the order from [Lib], which
    also says whether a vector of so many bytes can be had.  The elements of
    arrays are the unsigned numbers of their bits. *)

From S2P Require Import Prelude Decimal Cxx GuestMem.

(** The C++ library: memory, and the order in which the methods or fields are
    walked. *)
Class Lib := {
  alloc_ok : Z → bool;
  walk {A : Type} : gmap Z A → list (Z * A);
}.
Class LibLaws (l : Lib) := {
  walk_all {A} (m : gmap Z A) : walk m ≡ₚ map_to_list m;
}.

(** ** The state *)

(** platform/android-aarch64/jni/jni_env.h:40-44 (NativeMethod) *)
Record NativeMethod := Native { nm_name : list Z; nm_signature : list Z; nm_fnptr : Z }.
(** platform/android-aarch64/jni/jni_env.h:49-52 (JClass) *)
Record JClass := Class_ { jc_descriptor : list Z; jc_methods : list NativeMethod }.
(** platform/android-aarch64/jni/jni_env.h:229-242 (MethodEntry, FieldEntry) *)
Record MemberEntry := Member { me_class : Z; me_name : list Z; me_sig : list Z }.
(** platform/android-aarch64/jni/jni_env.h:245-249 (ObjectEntry) *)
Record ObjectEntry := Object_ { oe_class : Z; oe_address : Z; oe_capacity : Z }.

(** platform/android-aarch64/jni/jni_env.h:225-272 (JniEnv) *)
Record jni := Jni {
  classes_ : gmap Z JClass;
  class_by_desc_ : gmap (list Z) Z;
  methods_ : gmap Z MemberEntry;
  fields_ : gmap Z MemberEntry;
  objects_ : gmap Z ObjectEntry;
  strings_ : gmap Z (list Z);
  byte_arrays_ : gmap Z (list Z);
  int_arrays_ : gmap Z (list Z);
  long_arrays_ : gmap Z (list Z);
  float_arrays_ : gmap Z (list Z);
  object_arrays_ : gmap Z (list Z);
  pending_exception_ : bool;
  jni_table_gpa_ : Z;
  next_handle_ : Z;
  package_name_ : list Z;
  package_code_path_ : list Z;
}.
Definition set_classes x j := Jni x (class_by_desc_ j) (methods_ j) (fields_ j) (objects_ j) (strings_ j)
  (byte_arrays_ j) (int_arrays_ j) (long_arrays_ j) (float_arrays_ j) (object_arrays_ j)
  (pending_exception_ j) (jni_table_gpa_ j) (next_handle_ j) (package_name_ j) (package_code_path_ j).
Definition set_class_by_desc x j := Jni (classes_ j) x (methods_ j) (fields_ j) (objects_ j) (strings_ j)
  (byte_arrays_ j) (int_arrays_ j) (long_arrays_ j) (float_arrays_ j) (object_arrays_ j)
  (pending_exception_ j) (jni_table_gpa_ j) (next_handle_ j) (package_name_ j) (package_code_path_ j).
Definition set_methods x j := Jni (classes_ j) (class_by_desc_ j) x (fields_ j) (objects_ j) (strings_ j)
  (byte_arrays_ j) (int_arrays_ j) (long_arrays_ j) (float_arrays_ j) (object_arrays_ j)
  (pending_exception_ j) (jni_table_gpa_ j) (next_handle_ j) (package_name_ j) (package_code_path_ j).
Definition set_fields x j := Jni (classes_ j) (class_by_desc_ j) (methods_ j) x (objects_ j) (strings_ j)
  (byte_arrays_ j) (int_arrays_ j) (long_arrays_ j) (float_arrays_ j) (object_arrays_ j)
  (pending_exception_ j) (jni_table_gpa_ j) (next_handle_ j) (package_name_ j) (package_code_path_ j).
Definition set_objects x j := Jni (classes_ j) (class_by_desc_ j) (methods_ j) (fields_ j) x (strings_ j)
  (byte_arrays_ j) (int_arrays_ j) (long_arrays_ j) (float_arrays_ j) (object_arrays_ j)
  (pending_exception_ j) (jni_table_gpa_ j) (next_handle_ j) (package_name_ j) (package_code_path_ j).
Definition set_strings x j := Jni (classes_ j) (class_by_desc_ j) (methods_ j) (fields_ j) (objects_ j) x
  (byte_arrays_ j) (int_arrays_ j) (long_arrays_ j) (float_arrays_ j) (object_arrays_ j)
  (pending_exception_ j) (jni_table_gpa_ j) (next_handle_ j) (package_name_ j) (package_code_path_ j).
Definition set_byte_arrays x j := Jni (classes_ j) (class_by_desc_ j) (methods_ j) (fields_ j) (objects_ j)
  (strings_ j) x (int_arrays_ j) (long_arrays_ j) (float_arrays_ j) (object_arrays_ j)
  (pending_exception_ j) (jni_table_gpa_ j) (next_handle_ j) (package_name_ j) (package_code_path_ j).
Definition set_int_arrays x j := Jni (classes_ j) (class_by_desc_ j) (methods_ j) (fields_ j) (objects_ j)
  (strings_ j) (byte_arrays_ j) x (long_arrays_ j) (float_arrays_ j) (object_arrays_ j)
  (pending_exception_ j) (jni_table_gpa_ j) (next_handle_ j) (package_name_ j) (package_code_path_ j).
Definition set_long_arrays x j := Jni (classes_ j) (class_by_desc_ j) (methods_ j) (fields_ j) (objects_ j)
  (strings_ j) (byte_arrays_ j) (int_arrays_ j) x (float_arrays_ j) (object_arrays_ j)
  (pending_exception_ j) (jni_table_gpa_ j) (next_handle_ j) (package_name_ j) (package_code_path_ j).
Definition set_float_arrays x j := Jni (classes_ j) (class_by_desc_ j) (methods_ j) (fields_ j) (objects_ j)
  (strings_ j) (byte_arrays_ j) (int_arrays_ j) (long_arrays_ j) x (object_arrays_ j) (pending_exception_ j)
  (jni_table_gpa_ j) (next_handle_ j) (package_name_ j) (package_code_path_ j).
Definition set_object_arrays x j := Jni (classes_ j) (class_by_desc_ j) (methods_ j) (fields_ j)
  (objects_ j) (strings_ j) (byte_arrays_ j) (int_arrays_ j) (long_arrays_ j) (float_arrays_ j) x
  (pending_exception_ j) (jni_table_gpa_ j) (next_handle_ j) (package_name_ j) (package_code_path_ j).
Definition set_pending_exception x j := Jni (classes_ j) (class_by_desc_ j) (methods_ j) (fields_ j)
  (objects_ j) (strings_ j) (byte_arrays_ j) (int_arrays_ j) (long_arrays_ j) (float_arrays_ j)
  (object_arrays_ j) x (jni_table_gpa_ j) (next_handle_ j) (package_name_ j) (package_code_path_ j).
Definition set_jni_table_gpa x j := Jni (classes_ j) (class_by_desc_ j) (methods_ j) (fields_ j)
  (objects_ j) (strings_ j) (byte_arrays_ j) (int_arrays_ j) (long_arrays_ j) (float_arrays_ j)
  (object_arrays_ j) (pending_exception_ j) x (next_handle_ j) (package_name_ j) (package_code_path_ j).
Definition set_next_handle x j := Jni (classes_ j) (class_by_desc_ j) (methods_ j) (fields_ j) (objects_ j)
  (strings_ j) (byte_arrays_ j) (int_arrays_ j) (long_arrays_ j) (float_arrays_ j) (object_arrays_ j)
  (pending_exception_ j) (jni_table_gpa_ j) x (package_name_ j) (package_code_path_ j).
Definition set_package_name x j := Jni (classes_ j) (class_by_desc_ j) (methods_ j) (fields_ j) (objects_ j)
  (strings_ j) (byte_arrays_ j) (int_arrays_ j) (long_arrays_ j) (float_arrays_ j) (object_arrays_ j)
  (pending_exception_ j) (jni_table_gpa_ j) (next_handle_ j) x (package_code_path_ j).
Definition set_package_code_path x j := Jni (classes_ j) (class_by_desc_ j) (methods_ j) (fields_ j)
  (objects_ j) (strings_ j) (byte_arrays_ j) (int_arrays_ j) (long_arrays_ j) (float_arrays_ j)
  (object_arrays_ j) (pending_exception_ j) (jni_table_gpa_ j) (next_handle_ j) (package_name_ j) x.

(** platform/android-aarch64/jni/jni_env.h:268-268 (next_handle_) *)
Definition first_handle : Z := 1879048193.
(** platform/android-aarch64/jni/jni_env.h:225-272 (JniEnv) *)
Definition new_env : jni :=
  Jni ∅ ∅ ∅ ∅ ∅ ∅ ∅ ∅ ∅ ∅ ∅ false 0 first_handle (cs "muplar") [].

(** The arrays of numbers, by the type of their elements. *)
Inductive kind := Byte | Int | Long | Float.
#[global] Instance kind_dec : EqDecision kind.
Proof. solve_decision. Defined.
Definition width (k : kind) : nat := match k with Byte => 1 | Int => 4 | Long => 8 | Float => 4 end.
Definition arrays (k : kind) : jni → gmap Z (list Z) :=
  match k with Byte => byte_arrays_ | Int => int_arrays_ | Long => long_arrays_ | Float => float_arrays_ end.
Definition set_arrays (k : kind) : gmap Z (list Z) → jni → jni :=
  match k with
  | Byte => set_byte_arrays | Int => set_int_arrays | Long => set_long_arrays | Float => set_float_arrays
  end.
Definition array_class (k : kind) : list Z :=
  cs match k with Byte => "[B" | Int => "[I" | Long => "[J" | Float => "[F" end.

(** ** Numbers of the calls *)

(** platform/android-aarch64/jni/jni_env.cpp:19 *)
Definition JNI_GetVersion : Z := 4096.
(** platform/android-aarch64/jni/jni_env.cpp:20 *)
Definition JNI_FindClass : Z := 4097.
(** platform/android-aarch64/jni/jni_env.cpp:21 *)
Definition JNI_RegisterNatives : Z := 4098.
(** platform/android-aarch64/jni/jni_env.cpp:22 *)
Definition JNI_GetMethodID : Z := 4099.
(** platform/android-aarch64/jni/jni_env.cpp:23 *)
Definition JNI_CallVoidMethod : Z := 4100.
(** platform/android-aarch64/jni/jni_env.cpp:24 *)
Definition JNI_CallIntMethod : Z := 4101.
(** platform/android-aarch64/jni/jni_env.cpp:25 *)
Definition JNI_NewStringUTF : Z := 4102.
(** platform/android-aarch64/jni/jni_env.cpp:26 *)
Definition JNI_GetStringUTFChars : Z := 4103.
(** platform/android-aarch64/jni/jni_env.cpp:27 *)
Definition JNI_ReleaseStringUTFChars : Z := 4104.
(** platform/android-aarch64/jni/jni_env.cpp:28 *)
Definition JNI_NewByteArray : Z := 4105.
(** platform/android-aarch64/jni/jni_env.cpp:29 *)
Definition JNI_SetByteArrayRegion : Z := 4106.
(** platform/android-aarch64/jni/jni_env.cpp:30 *)
Definition JNI_GetByteArrayElements : Z := 4107.
(** platform/android-aarch64/jni/jni_env.cpp:31 *)
Definition JNI_ReleaseByteArrayElements : Z := 4108.
(** platform/android-aarch64/jni/jni_env.cpp:32 *)
Definition JNI_ExceptionCheck : Z := 4109.
(** platform/android-aarch64/jni/jni_env.cpp:33 *)
Definition JNI_ExceptionClear : Z := 4110.
(** platform/android-aarch64/jni/jni_env.cpp:34 *)
Definition JNI_DeleteLocalRef : Z := 4111.
(** platform/android-aarch64/jni/jni_env.cpp:35 *)
Definition JNI_GetObjectClass : Z := 4112.
(** platform/android-aarch64/jni/jni_env.cpp:36 *)
Definition JNI_CallObjectMethod : Z := 4113.
(** platform/android-aarch64/jni/jni_env.cpp:37 *)
Definition JNI_GetFieldID : Z := 4114.
(** platform/android-aarch64/jni/jni_env.cpp:38 *)
Definition JNI_ExceptionOccurred : Z := 4115.
(** platform/android-aarch64/jni/jni_env.cpp:39 *)
Definition JNI_ExceptionDescribe : Z := 4116.
(** platform/android-aarch64/jni/jni_env.cpp:40 *)
Definition JNI_PushLocalFrame : Z := 4117.
(** platform/android-aarch64/jni/jni_env.cpp:41 *)
Definition JNI_PopLocalFrame : Z := 4118.
(** platform/android-aarch64/jni/jni_env.cpp:42 *)
Definition JNI_NewGlobalRef : Z := 4119.
(** platform/android-aarch64/jni/jni_env.cpp:43 *)
Definition JNI_DeleteGlobalRef : Z := 4120.
(** platform/android-aarch64/jni/jni_env.cpp:44 *)
Definition JNI_IsSameObject : Z := 4121.
(** platform/android-aarch64/jni/jni_env.cpp:45 *)
Definition JNI_NewLocalRef : Z := 4122.
(** platform/android-aarch64/jni/jni_env.cpp:46 *)
Definition JNI_EnsureLocalCapacity : Z := 4123.
(** platform/android-aarch64/jni/jni_env.cpp:47 *)
Definition JNI_NewDirectByteBuffer : Z := 4124.
(** platform/android-aarch64/jni/jni_env.cpp:48 *)
Definition JNI_GetDirectBufferAddress : Z := 4125.
(** platform/android-aarch64/jni/jni_env.cpp:49 *)
Definition JNI_GetDirectBufferCapacity : Z := 4126.
(** platform/android-aarch64/jni/jni_env.cpp:50 *)
Definition JNI_GetArrayLength : Z := 4127.
(** platform/android-aarch64/jni/jni_env.cpp:51 *)
Definition JNI_NewObjectArray : Z := 4128.
(** platform/android-aarch64/jni/jni_env.cpp:52 *)
Definition JNI_GetObjectArrayElement : Z := 4129.
(** platform/android-aarch64/jni/jni_env.cpp:53 *)
Definition JNI_SetObjectArrayElement : Z := 4130.
(** platform/android-aarch64/jni/jni_env.cpp:54 *)
Definition JNI_NewIntArray : Z := 4131.
(** platform/android-aarch64/jni/jni_env.cpp:55 *)
Definition JNI_NewLongArray : Z := 4132.
(** platform/android-aarch64/jni/jni_env.cpp:56 *)
Definition JNI_NewFloatArray : Z := 4133.
(** platform/android-aarch64/jni/jni_env.cpp:57 *)
Definition JNI_GetIntArrayElements : Z := 4134.
(** platform/android-aarch64/jni/jni_env.cpp:58 *)
Definition JNI_GetLongArrayElements : Z := 4135.
(** platform/android-aarch64/jni/jni_env.cpp:59 *)
Definition JNI_GetFloatArrayElements : Z := 4136.
(** platform/android-aarch64/jni/jni_env.cpp:60 *)
Definition JNI_ReleaseIntArrayElements : Z := 4137.
(** platform/android-aarch64/jni/jni_env.cpp:61 *)
Definition JNI_ReleaseLongArrayElements : Z := 4138.
(** platform/android-aarch64/jni/jni_env.cpp:62 *)
Definition JNI_ReleaseFloatArrayElements : Z := 4139.
(** platform/android-aarch64/jni/jni_env.cpp:63 *)
Definition JNI_GetIntArrayRegion : Z := 4140.
(** platform/android-aarch64/jni/jni_env.cpp:64 *)
Definition JNI_GetLongArrayRegion : Z := 4141.
(** platform/android-aarch64/jni/jni_env.cpp:65 *)
Definition JNI_GetFloatArrayRegion : Z := 4142.
(** platform/android-aarch64/jni/jni_env.cpp:66 *)
Definition JNI_SetIntArrayRegion : Z := 4143.
(** platform/android-aarch64/jni/jni_env.cpp:67 *)
Definition JNI_SetLongArrayRegion : Z := 4144.
(** platform/android-aarch64/jni/jni_env.cpp:68 *)
Definition JNI_SetFloatArrayRegion : Z := 4145.

(** platform/android-aarch64/jni/jni_env.h:30-30 *)
Definition JNI_NULL : Z := 0.
(** platform/android-aarch64/jni/jni_env.h:33-33 *)
Definition JNI_VERSION_1_6 : Z := 65542.
(** platform/android-aarch64/jni/jni_env.h:36-36 *)
Definition JNI_OK : Z := 0.
(** [static_cast<uint64_t>(-1)] *)
Definition minus_1 : Z := 18446744073709551615.
(** [args[i]] *)
Definition arg (a : list Z) (i : nat) : Z := nth i a 0.

Section Env.
Context `{Lib}.

(** ** Tables *)

(** platform/android-aarch64/jni/jni_env.h:269-269 (alloc_handle) *)
Definition alloc_handle : St jni Z :=
  h ← get next_handle_; _ ← modify (set_next_handle (u64 (h + 1))); mret h.
(** [std::vector<T> v(n, x)] with elements of [w] bytes. *)
Definition new_vector (w : nat) (n x : Z) : St jni (list Z) :=
  if (9223372036854775808 <=? n * Z.of_nat w) || negb (alloc_ok (n * Z.of_nat w)) then throw bad_alloc
  else mret (replicate (Z.to_nat n) x).

(** platform/android-aarch64/jni/jni_env.cpp:329-338 (register_class) *)
Definition register_class (descriptor : list Z) : St jni () :=
  known ← get (λ j, class_by_desc_ j !! descriptor);
  match known with
  | Some _ => mret ()
  | None =>
      h ← alloc_handle;
      _ ← modify (λ j, set_classes (<[h := Class_ descriptor []]> (classes_ j)) j);
      modify (λ j, set_class_by_desc (<[descriptor := h]> (class_by_desc_ j)) j)
  end.
(** platform/android-aarch64/jni/jni_env.cpp:340-344 (find_class) *)
Definition find_class (descriptor : list Z) : St jni Z :=
  get (λ j, default JNI_NULL (class_by_desc_ j !! descriptor)).
(** [objects_[h] = {find_class(descriptor), address, capacity}] *)
Definition add_object (h : Z) (descriptor : list Z) (address capacity : Z) : St jni () :=
  cls ← find_class descriptor;
  modify (λ j, set_objects (<[h := Object_ cls address capacity]> (objects_ j)) j).
(** platform/android-aarch64/jni/jni_env.cpp:346-353 (register_object) *)
Definition register_object (class_descriptor : list Z) : St jni Z :=
  _ ← register_class class_descriptor;
  cls ← find_class class_descriptor;
  obj ← alloc_handle;
  _ ← modify (λ j, set_objects (<[obj := Object_ cls 0 0]> (objects_ j)) j);
  mret obj.
(** platform/android-aarch64/jni/jni_env.cpp:355-361 (set_app_context) *)
Definition set_app_context (package_name package_code_path : list Z) : St jni () :=
  _ ← modify (λ j, if bool_decide (package_name = []) then j else set_package_name package_name j);
  modify (set_package_code_path package_code_path).
(** platform/android-aarch64/jni/jni_env.cpp:363-370 (make_string) *)
Definition make_string (value : list Z) : St jni Z :=
  h ← alloc_handle;
  _ ← modify (λ j, set_strings (<[h := value]> (strings_ j)) j);
  _ ← register_class (cs "java/lang/String");
  _ ← add_object h (cs "java/lang/String") 0 0;
  mret h.
(** platform/android-aarch64/jni/jni_env.cpp:372-406 (make_byte_array, make_int_array, make_long_array, make_float_array) *)
Definition make_array (k : kind) (length : Z) : St jni Z :=
  _ ← register_class (array_class k);
  h ← alloc_handle;
  _ ← add_object h (array_class k) 0 0;
  v ← new_vector (width k) length 0;
  _ ← modify (λ j, set_arrays k (<[h := v]> (arrays k j)) j);
  mret h.
(** platform/android-aarch64/jni/jni_env.cpp:408-418 (make_object_array) *)
Definition array_descriptor (element_descriptor : list Z) : list Z :=
  let desc := if bool_decide (element_descriptor = []) then cs "java/lang/Object" else element_descriptor in
  let desc := if negb (hd 0 desc =? 91) && negb ((hd 0 desc =? 76) && (List.last desc 0 =? 59))
              then cs "L" ++ desc ++ cs ";" else desc in
  cs "[" ++ desc.
(** platform/android-aarch64/jni/jni_env.cpp:408-424 (make_object_array) *)
Definition make_object_array (element_descriptor : list Z) (length initial : Z) : St jni Z :=
  let array_desc := array_descriptor element_descriptor in
  _ ← register_class array_desc;
  h ← alloc_handle;
  _ ← add_object h array_desc 0 0;
  v ← new_vector 8 length initial;
  _ ← modify (λ j, set_object_arrays (<[h := v]> (object_arrays_ j)) j);
  mret h.
(** platform/android-aarch64/jni/jni_env.cpp:426-433 (make_direct_buffer) *)
Definition make_direct_buffer (guest_address capacity : Z) : St jni Z :=
  _ ← register_class (cs "java/nio/DirectByteBuffer");
  h ← alloc_handle;
  _ ← add_object h (cs "java/nio/DirectByteBuffer") guest_address capacity;
  mret h.
(** platform/android-aarch64/jni/jni_env.cpp:435-439 (get_string) *)
Definition get_string (handle : Z) (j : jni) : option (list Z) := strings_ j !! handle.
(** platform/android-aarch64/jni/jni_env.cpp:696-699 (intern_string) *)
Definition intern_string (gpa : Z) (value : list Z) : St jni () :=
  modify (λ j, set_strings (<[gpa := value]> (strings_ j)) j).
(** [pending_exception_ = true; return r;] *)
Definition raise (r : Z) : St jni Z := _ ← modify (set_pending_exception true); mret r.

(** ** Natives *)

(** platform/android-aarch64/jni/jni_env.cpp:583-588 (register_native) *)
Fixpoint replace_native (name sig : list Z) (fnptr : Z) (ms : list NativeMethod) : option (list NativeMethod) :=
  match ms with
  | [] => None
  | m :: ms =>
      if eq_str (nm_name m) name && eq_str (nm_signature m) sig
      then Some (Native (nm_name m) (nm_signature m) fnptr :: ms)
      else (m ::.) <$> replace_native name sig fnptr ms
  end.
(** platform/android-aarch64/jni/jni_env.cpp:572-593 (register_native) *)
Definition register_native (class_handle : Z) (name sig : list Z) (fnptr_guest : Z) : St jni () :=
  c ← get (λ j, classes_ j !! class_handle);
  match c with
  | None => mret ()
  | Some c =>
      let methods := match replace_native name sig fnptr_guest (jc_methods c) with
                     | Some ms => ms
                     | None => jc_methods c ++ [Native name sig fnptr_guest]
                     end in
      modify (λ j, set_classes (<[class_handle := Class_ (jc_descriptor c) methods]> (classes_ j)) j)
  end.
(** platform/android-aarch64/jni/jni_env.cpp:602-606 (find_native) *)
Fixpoint native_of (name sig : list Z) (ms : list NativeMethod) : Z :=
  match ms with
  | [] => 0
  | m :: ms => if eq_str (nm_name m) name && eq_str (nm_signature m) sig then nm_fnptr m else native_of name sig ms
  end.
(** platform/android-aarch64/jni/jni_env.cpp:595-607 (find_native) *)
Definition find_native (class_handle : Z) (name sig : list Z) (j : jni) : Z :=
  match classes_ j !! class_handle with None => 0 | Some c => native_of name sig (jc_methods c) end.

(** ** Arrays *)

(** platform/android-aarch64/jni/jni_env.cpp:808-858 (set_byte_array_region, set_int_array_region, set_long_array_region, set_float_array_region)
    The sum of the check is one of 64 bits. *)
Definition set_array_region (k : kind) (handle start : Z) (src : list Z) (len : Z) : St jni () :=
  a ← get (λ j, arrays k j !! handle);
  match a with
  | None => mret ()
  | Some v =>
      if size v <? u64 (start + len) then mret () else
      if size v <? start + len then pure Stray else
      modify (λ j, set_arrays k (<[handle := take (Z.to_nat start) v ++ take (Z.to_nat len) src ++
                                             drop (Z.to_nat (start + len)) v]> (arrays k j)) j)
  end.
(** platform/android-aarch64/jni/jni_env.cpp:860-882 (get_byte_array, get_int_array, get_long_array, get_float_array) *)
Definition get_array (k : kind) (handle : Z) (j : jni) : option (list Z) := arrays k j !! handle.
(** platform/android-aarch64/jni/jni_env.cpp:884-888 (get_object_array) *)
Definition get_object_array (handle : Z) (j : jni) : option (list Z) := object_arrays_ j !! handle.
(** platform/android-aarch64/jni/jni_env.cpp:890-903 (array_length) *)
Definition array_length (handle : Z) (j : jni) : Z :=
  match byte_arrays_ j !! handle with Some v => size v | None =>
  match int_arrays_ j !! handle with Some v => size v | None =>
  match long_arrays_ j !! handle with Some v => size v | None =>
  match float_arrays_ j !! handle with Some v => size v | None =>
  match object_arrays_ j !! handle with Some v => size v | None => 0 end end end end end.

(** ** Calls of the guest *)

(** platform/android-aarch64/jni/jni_env.cpp:447-450 (jni_GetVersion) *)
Definition jni_GetVersion (a : list Z) : St jni Z := mret JNI_VERSION_1_6.
(** platform/android-aarch64/jni/jni_env.cpp:458-481 (jni_FindClass) *)
Definition jni_FindClass (a : list Z) : St jni Z :=
  s ← get (λ j, strings_ j !! arg a 1);
  match s with
  | Some descriptor =>
      c ← get (λ j, class_by_desc_ j !! descriptor);
      match c with
      | Some h => mret h
      | None =>
          _ ← register_class descriptor;
          find_class descriptor
      end
  | None => raise JNI_NULL
  end.
(** platform/android-aarch64/jni/jni_env.cpp:504-508 (jni_GetMethodID)
    The loop over the methods or the fields. *)
Fixpoint find_member (cls : Z) (name sig : list Z) (ms : list (Z * MemberEntry)) : option Z :=
  match ms with
  | [] => None
  | (h, m) :: ms =>
      if (me_class m =? cls) && eq_str (me_name m) name && eq_str (me_sig m) sig then Some h
      else find_member cls name sig ms
  end.
(** platform/android-aarch64/jni/jni_env.cpp:484-519 (jni_GetMethodID) *)
Definition jni_GetMethodID (a : list Z) : St jni Z :=
  let cls_h := arg a 1 in
  c ← get (λ j, classes_ j !! cls_h);
  match c with
  | None => raise JNI_NULL
  | Some _ =>
      name ← get (λ j, default [] (strings_ j !! arg a 2));
      sig ← get (λ j, default [] (strings_ j !! arg a 3));
      known ← get (λ j, find_member cls_h name sig (walk (methods_ j)));
      match known with
      | Some h => mret h
      | None =>
          mh ← alloc_handle;
          _ ← modify (λ j, set_methods (<[mh := Member cls_h name sig]> (methods_ j)) j);
          mret mh
      end
  end.
(** platform/android-aarch64/jni/jni_env.cpp:522-555 (jni_GetFieldID) *)
Definition jni_GetFieldID (a : list Z) : St jni Z :=
  let cls_h := arg a 1 in
  c ← get (λ j, classes_ j !! cls_h);
  match c with
  | None => raise JNI_NULL
  | Some _ =>
      name ← get (λ j, default [] (strings_ j !! arg a 2));
      sig ← get (λ j, default [] (strings_ j !! arg a 3));
      known ← get (λ j, find_member cls_h name sig (walk (fields_ j)));
      match known with
      | Some h => mret h
      | None =>
          fh ← alloc_handle;
          _ ← modify (λ j, set_fields (<[fh := Member cls_h name sig]> (fields_ j)) j);
          mret fh
      end
  end.
(** platform/android-aarch64/jni/jni_env.cpp:558-570 (jni_RegisterNatives) *)
Definition jni_RegisterNatives (a : list Z) : St jni Z := mret JNI_OK.
(** platform/android-aarch64/jni/jni_env.cpp:610-623 (jni_CallVoidMethod) *)
Definition jni_CallVoidMethod (a : list Z) : St jni Z :=
  m ← get (λ j, methods_ j !! arg a 2);
  match m with None => raise 0 | Some _ => mret 0 end.
(** platform/android-aarch64/jni/jni_env.cpp:625-637 (jni_CallIntMethod) *)
Definition jni_CallIntMethod (a : list Z) : St jni Z :=
  m ← get (λ j, methods_ j !! arg a 2);
  match m with None => raise minus_1 | Some _ => mret 0 end.
(** platform/android-aarch64/jni/jni_env.cpp:639-654 (jni_GetObjectClass) *)
Definition jni_GetObjectClass (a : list Z) : St jni Z :=
  o ← get (λ j, objects_ j !! arg a 1);
  match o with
  | Some o => mret (oe_class o)
  | None =>
      c ← get (λ j, classes_ j !! arg a 1);
      match c with
      | Some _ =>
          _ ← register_class (cs "java/lang/Class");
          find_class (cs "java/lang/Class")
      | None => raise JNI_NULL
      end
  end.
(** platform/android-aarch64/jni/jni_env.cpp:656-681 (jni_CallObjectMethod) *)
Definition jni_CallObjectMethod (a : list Z) : St jni Z :=
  m ← get (λ j, methods_ j !! arg a 2);
  match m with
  | None => raise JNI_NULL
  | Some m =>
      if eq_str (me_name m) (cs "getPackageName") && eq_str (me_sig m) (cs "()Ljava/lang/String;") then
        name ← get package_name_; make_string name
      else if (eq_str (me_name m) (cs "getPackageCodePath") || eq_str (me_name m) (cs "getPackageResourcePath")) &&
              eq_str (me_sig m) (cs "()Ljava/lang/String;") then
        path ← get package_code_path_; make_string path
      else raise JNI_NULL
  end.
(** platform/android-aarch64/jni/jni_env.cpp:684-694 (jni_NewStringUTF) *)
Definition jni_NewStringUTF (a : list Z) : St jni Z :=
  let str_gpa := arg a 1 in
  s ← get (λ j, strings_ j !! str_gpa);
  _ ← match s with Some _ => mret () | None => intern_string str_gpa (cs "(unresolved)") end;
  value ← get (λ j, default [] (strings_ j !! str_gpa));
  make_string value.
(** platform/android-aarch64/jni/jni_env.cpp:702-714 (jni_GetStringUTFChars) *)
Definition jni_GetStringUTFChars (a : list Z) : St jni Z :=
  s ← get (λ j, strings_ j !! arg a 1);
  match s with None => mret JNI_NULL | Some _ => mret (arg a 1) end.
(** platform/android-aarch64/jni/jni_env.cpp:716-720 (jni_ReleaseStringUTFChars) *)
Definition jni_ReleaseStringUTFChars (a : list Z) : St jni Z := mret 0.
(** platform/android-aarch64/jni/jni_env.cpp:722-725 (jni_GetArrayLength) *)
Definition jni_GetArrayLength (a : list Z) : St jni Z := get (array_length (arg a 1)).
(** platform/android-aarch64/jni/jni_env.cpp:727-736 (jni_NewObjectArray) *)
Definition jni_NewObjectArray (a : list Z) : St jni Z :=
  c ← get (λ j, classes_ j !! arg a 2);
  let element_desc := match c with Some c => jc_descriptor c | None => cs "java/lang/Object" end in
  make_object_array element_desc (arg a 1) (arg a 3).
(** platform/android-aarch64/jni/jni_env.cpp:738-747 (jni_GetObjectArrayElement) *)
Definition jni_GetObjectArrayElement (a : list Z) : St jni Z :=
  v ← get (λ j, object_arrays_ j !! arg a 1);
  match v with
  | None => raise JNI_NULL
  | Some v => if size v <=? arg a 2 then raise JNI_NULL else pure (at_ v (arg a 2))
  end.
(** platform/android-aarch64/jni/jni_env.cpp:749-759 (jni_SetObjectArrayElement) *)
Definition jni_SetObjectArrayElement (a : list Z) : St jni Z :=
  v ← get (λ j, object_arrays_ j !! arg a 1);
  match v with
  | None => raise 1
  | Some v =>
      if size v <=? arg a 2 then raise 1 else
      _ ← modify (λ j, set_object_arrays (<[arg a 1 := <[Z.to_nat (arg a 2) := arg a 3]> v]> (object_arrays_ j)) j);
      mret 0
  end.
(** platform/android-aarch64/jni/jni_env.cpp:761-780 (jni_NewByteArray, jni_NewIntArray, jni_NewLongArray, jni_NewFloatArray) *)
Definition jni_NewArray (k : kind) (a : list Z) : St jni Z := make_array k (arg a 1).
(** platform/android-aarch64/jni/jni_env.cpp:762-765 (jni_NewByteArray) *)
Definition jni_NewByteArray := jni_NewArray Byte.
(** platform/android-aarch64/jni/jni_env.cpp:767-770 (jni_NewIntArray) *)
Definition jni_NewIntArray := jni_NewArray Int.
(** platform/android-aarch64/jni/jni_env.cpp:772-775 (jni_NewLongArray) *)
Definition jni_NewLongArray := jni_NewArray Long.
(** platform/android-aarch64/jni/jni_env.cpp:777-780 (jni_NewFloatArray) *)
Definition jni_NewFloatArray := jni_NewArray Float.
(** platform/android-aarch64/jni/jni_env.cpp:783-806 (jni_SetByteArrayRegion)
    and 947-975: the check alone; the data are moved by the bridge. *)
Definition jni_Region (k : kind) (a : list Z) : St jni Z :=
  v ← get (λ j, arrays k j !! arg a 1);
  match v with
  | None => raise 1
  | Some v => if size v <? u64 (arg a 2 + arg a 3) then raise 1 else mret 0
  end.
(** platform/android-aarch64/jni/jni_env.cpp:783-806 (jni_SetByteArrayRegion) *)
Definition jni_SetByteArrayRegion := jni_Region Byte.
(** platform/android-aarch64/jni/jni_env.cpp:947-955 (jni_GetIntArrayRegion) *)
Definition jni_GetIntArrayRegion := jni_Region Int.
(** platform/android-aarch64/jni/jni_env.cpp:957-965 (jni_GetLongArrayRegion) *)
Definition jni_GetLongArrayRegion := jni_Region Long.
(** platform/android-aarch64/jni/jni_env.cpp:967-975 (jni_GetFloatArrayRegion) *)
Definition jni_GetFloatArrayRegion := jni_Region Float.
(** platform/android-aarch64/jni/jni_env.cpp:977-980 (jni_SetIntArrayRegion) *)
Definition jni_SetIntArrayRegion := jni_GetIntArrayRegion.
(** platform/android-aarch64/jni/jni_env.cpp:982-985 (jni_SetLongArrayRegion) *)
Definition jni_SetLongArrayRegion := jni_GetLongArrayRegion.
(** platform/android-aarch64/jni/jni_env.cpp:987-990 (jni_SetFloatArrayRegion) *)
Definition jni_SetFloatArrayRegion := jni_GetFloatArrayRegion.
(** platform/android-aarch64/jni/jni_env.cpp:906-910 (jni_GetByteArrayElements) *)
Definition jni_GetByteArrayElements (a : list Z) : St jni Z := mret (arg a 1).
(** platform/android-aarch64/jni/jni_env.cpp:917-920 (jni_GetIntArrayElements) *)
Definition jni_GetIntArrayElements (a : list Z) : St jni Z := mret (arg a 1).
(** platform/android-aarch64/jni/jni_env.cpp:922-925 (jni_GetLongArrayElements) *)
Definition jni_GetLongArrayElements (a : list Z) : St jni Z := mret (arg a 1).
(** platform/android-aarch64/jni/jni_env.cpp:927-930 (jni_GetFloatArrayElements) *)
Definition jni_GetFloatArrayElements (a : list Z) : St jni Z := mret (arg a 1).
(** platform/android-aarch64/jni/jni_env.cpp:912-915 (jni_ReleaseByteArrayElements) *)
Definition jni_ReleaseByteArrayElements (a : list Z) : St jni Z := mret 0.
(** platform/android-aarch64/jni/jni_env.cpp:932-935 (jni_ReleaseIntArrayElements) *)
Definition jni_ReleaseIntArrayElements (a : list Z) : St jni Z := mret 0.
(** platform/android-aarch64/jni/jni_env.cpp:937-940 (jni_ReleaseLongArrayElements) *)
Definition jni_ReleaseLongArrayElements (a : list Z) : St jni Z := mret 0.
(** platform/android-aarch64/jni/jni_env.cpp:942-945 (jni_ReleaseFloatArrayElements) *)
Definition jni_ReleaseFloatArrayElements (a : list Z) : St jni Z := mret 0.
(** platform/android-aarch64/jni/jni_env.cpp:992-995 (jni_ExceptionCheck) *)
Definition jni_ExceptionCheck (a : list Z) : St jni Z :=
  p ← get pending_exception_; mret (if p : bool then 1 else 0).
(** platform/android-aarch64/jni/jni_env.cpp:997-1001 (jni_ExceptionClear) *)
Definition jni_ExceptionClear (a : list Z) : St jni Z := _ ← modify (set_pending_exception false); mret 0.
(** platform/android-aarch64/jni/jni_env.cpp:1003-1007 (jni_DeleteLocalRef) *)
Definition jni_DeleteLocalRef (a : list Z) : St jni Z := mret 0.
(** platform/android-aarch64/jni/jni_env.cpp:1009-1014 (jni_ExceptionOccurred) *)
Definition jni_ExceptionOccurred (a : list Z) : St jni Z :=
  p ← get pending_exception_;
  if negb p then mret JNI_NULL else register_object (cs "java/lang/Throwable").
(** platform/android-aarch64/jni/jni_env.cpp:1016-1021 (jni_ExceptionDescribe) *)
Definition jni_ExceptionDescribe (a : list Z) : St jni Z := mret 0.
(** platform/android-aarch64/jni/jni_env.cpp:1023-1026 (jni_PushLocalFrame) *)
Definition jni_PushLocalFrame (a : list Z) : St jni Z := mret 0.
(** platform/android-aarch64/jni/jni_env.cpp:1028-1031 (jni_PopLocalFrame) *)
Definition jni_PopLocalFrame (a : list Z) : St jni Z := mret (arg a 1).
(** platform/android-aarch64/jni/jni_env.cpp:1033-1036 (jni_NewGlobalRef) *)
Definition jni_NewGlobalRef (a : list Z) : St jni Z := mret (arg a 1).
(** platform/android-aarch64/jni/jni_env.cpp:1038-1041 (jni_DeleteGlobalRef) *)
Definition jni_DeleteGlobalRef (a : list Z) : St jni Z := mret 0.
(** platform/android-aarch64/jni/jni_env.cpp:1043-1046 (jni_IsSameObject) *)
Definition jni_IsSameObject (a : list Z) : St jni Z := mret (if arg a 1 =? arg a 2 then 1 else 0).
(** platform/android-aarch64/jni/jni_env.cpp:1048-1051 (jni_NewLocalRef) *)
Definition jni_NewLocalRef (a : list Z) : St jni Z := mret (arg a 1).
(** platform/android-aarch64/jni/jni_env.cpp:1053-1056 (jni_EnsureLocalCapacity) *)
Definition jni_EnsureLocalCapacity (a : list Z) : St jni Z := mret 0.
(** platform/android-aarch64/jni/jni_env.cpp:1058-1061 (jni_NewDirectByteBuffer) *)
Definition jni_NewDirectByteBuffer (a : list Z) : St jni Z := make_direct_buffer (arg a 1) (arg a 2).
(** platform/android-aarch64/jni/jni_env.cpp:1063-1069 (jni_GetDirectBufferAddress) *)
Definition jni_GetDirectBufferAddress (a : list Z) : St jni Z :=
  o ← get (λ j, objects_ j !! arg a 1);
  mret (match o with None => JNI_NULL | Some o => oe_address o end).
(** platform/android-aarch64/jni/jni_env.cpp:1071-1077 (jni_GetDirectBufferCapacity) *)
Definition jni_GetDirectBufferCapacity (a : list Z) : St jni Z :=
  o ← get (λ j, objects_ j !! arg a 1);
  mret (match o with None => minus_1 | Some o => oe_capacity o end).

(** ** Dispatch *)

(** platform/android-aarch64/jni/jni_env.cpp:74-181 (dispatch)
    The cases of the switch. *)
Definition handlers : list (Z * (list Z → St jni Z)) :=
  [
   (JNI_GetVersion, jni_GetVersion); (JNI_FindClass, jni_FindClass);
   (JNI_RegisterNatives, jni_RegisterNatives); (JNI_GetMethodID, jni_GetMethodID);
   (JNI_CallVoidMethod, jni_CallVoidMethod); (JNI_CallIntMethod, jni_CallIntMethod);
   (JNI_NewStringUTF, jni_NewStringUTF); (JNI_GetStringUTFChars, jni_GetStringUTFChars);
   (JNI_ReleaseStringUTFChars, jni_ReleaseStringUTFChars); (JNI_NewByteArray, jni_NewByteArray);
   (JNI_SetByteArrayRegion, jni_SetByteArrayRegion);
   (JNI_GetByteArrayElements, jni_GetByteArrayElements);
   (JNI_ReleaseByteArrayElements, jni_ReleaseByteArrayElements);
   (JNI_ExceptionCheck, jni_ExceptionCheck); (JNI_ExceptionClear, jni_ExceptionClear);
   (JNI_DeleteLocalRef, jni_DeleteLocalRef); (JNI_GetObjectClass, jni_GetObjectClass);
   (JNI_CallObjectMethod, jni_CallObjectMethod); (JNI_GetFieldID, jni_GetFieldID);
   (JNI_ExceptionOccurred, jni_ExceptionOccurred); (JNI_ExceptionDescribe, jni_ExceptionDescribe);
   (JNI_PushLocalFrame, jni_PushLocalFrame); (JNI_PopLocalFrame, jni_PopLocalFrame);
   (JNI_NewGlobalRef, jni_NewGlobalRef); (JNI_DeleteGlobalRef, jni_DeleteGlobalRef);
   (JNI_IsSameObject, jni_IsSameObject); (JNI_NewLocalRef, jni_NewLocalRef);
   (JNI_EnsureLocalCapacity, jni_EnsureLocalCapacity);
   (JNI_NewDirectByteBuffer, jni_NewDirectByteBuffer);
   (JNI_GetDirectBufferAddress, jni_GetDirectBufferAddress);
   (JNI_GetDirectBufferCapacity, jni_GetDirectBufferCapacity);
   (JNI_GetArrayLength, jni_GetArrayLength); (JNI_NewObjectArray, jni_NewObjectArray);
   (JNI_GetObjectArrayElement, jni_GetObjectArrayElement);
   (JNI_SetObjectArrayElement, jni_SetObjectArrayElement); (JNI_NewIntArray, jni_NewIntArray);
   (JNI_NewLongArray, jni_NewLongArray); (JNI_NewFloatArray, jni_NewFloatArray);
   (JNI_GetIntArrayElements, jni_GetIntArrayElements);
   (JNI_GetLongArrayElements, jni_GetLongArrayElements);
   (JNI_GetFloatArrayElements, jni_GetFloatArrayElements);
   (JNI_ReleaseIntArrayElements, jni_ReleaseIntArrayElements);
   (JNI_ReleaseLongArrayElements, jni_ReleaseLongArrayElements);
   (JNI_ReleaseFloatArrayElements, jni_ReleaseFloatArrayElements);
   (JNI_GetIntArrayRegion, jni_GetIntArrayRegion); (JNI_GetLongArrayRegion, jni_GetLongArrayRegion);
   (JNI_GetFloatArrayRegion, jni_GetFloatArrayRegion); (JNI_SetIntArrayRegion, jni_SetIntArrayRegion);
   (JNI_SetLongArrayRegion, jni_SetLongArrayRegion);
   (JNI_SetFloatArrayRegion, jni_SetFloatArrayRegion)].
Definition case_of (call_nr : Z) : list (Z * (list Z → St jni Z)) → option (list Z → St jni Z) :=
  fix go hs := match hs with [] => None | (n, f) :: hs => if n =? call_nr then Some f else go hs end.
(** platform/android-aarch64/jni/jni_env.cpp:74-181 (dispatch) *)
Definition dispatch (call_nr : Z) (args : list Z) : St jni Z :=
  match case_of call_nr handlers with Some f => f args | None => mret minus_1 end.
End Env.

(** ** The table *)

(** platform/android-aarch64/jni/jni_env.cpp:240-240 (JNI_STUB_SIZE) *)
Definition JNI_STUB_SIZE : Z := 12.
(** platform/android-aarch64/jni/jni_env.cpp:269-271 (install_entries) *)
Definition stub (stub_base_gpa call_nr : Z) : Z := u64 (stub_base_gpa + u32 (call_nr - 4096) * JNI_STUB_SIZE).
(** platform/android-aarch64/jni/jni_env.cpp:272-323 (install_entries) *)
Definition table_slots : list (Z * Z) :=
  [
   (4, JNI_GetVersion); (6, JNI_FindClass); (15, JNI_ExceptionOccurred); (16, JNI_ExceptionDescribe);
   (17, JNI_ExceptionClear); (19, JNI_PushLocalFrame); (20, JNI_PopLocalFrame); (21, JNI_NewGlobalRef);
   (22, JNI_DeleteGlobalRef); (23, JNI_DeleteLocalRef); (24, JNI_IsSameObject); (25, JNI_NewLocalRef);
   (26, JNI_EnsureLocalCapacity); (31, JNI_GetObjectClass); (33, JNI_GetMethodID);
   (34, JNI_CallObjectMethod); (49, JNI_CallIntMethod); (61, JNI_CallVoidMethod); (94, JNI_GetFieldID);
   (167, JNI_NewStringUTF); (169, JNI_GetStringUTFChars); (170, JNI_ReleaseStringUTFChars);
   (171, JNI_GetArrayLength); (172, JNI_NewObjectArray); (173, JNI_GetObjectArrayElement);
   (174, JNI_SetObjectArrayElement); (176, JNI_NewByteArray); (179, JNI_NewIntArray);
   (180, JNI_NewLongArray); (181, JNI_NewFloatArray); (184, JNI_GetByteArrayElements);
   (187, JNI_GetIntArrayElements); (188, JNI_GetLongArrayElements); (189, JNI_GetFloatArrayElements);
   (192, JNI_ReleaseByteArrayElements); (195, JNI_ReleaseIntArrayElements);
   (196, JNI_ReleaseLongArrayElements); (197, JNI_ReleaseFloatArrayElements);
   (203, JNI_GetIntArrayRegion); (204, JNI_GetLongArrayRegion); (205, JNI_GetFloatArrayRegion);
   (208, JNI_SetByteArrayRegion); (211, JNI_SetIntArrayRegion); (212, JNI_SetLongArrayRegion);
   (213, JNI_SetFloatArrayRegion); (215, JNI_RegisterNatives); (228, JNI_ExceptionCheck);
   (229, JNI_NewDirectByteBuffer); (230, JNI_GetDirectBufferAddress);
   (231, JNI_GetDirectBufferCapacity)].
(** platform/android-aarch64/jni/jni_env.cpp:266-324 (install_entries) *)
Definition install_entries (stub_base_gpa : Z) : list (Z * Z) :=
  (λ '(slot, call_nr), (slot, stub stub_base_gpa call_nr)) <$> table_slots.
(** platform/android-aarch64/jni/jni_env.cpp:242-262 (install_table) *)
Definition install_table (table_gpa : Z) : St jni () := modify (set_jni_table_gpa table_gpa).
