(* ===== verification/JniBridge.v ===== *)
(** * The JNI bridge

    platform/android-aarch64/jni/jni_bridge.cpp: between the memory of the
    guest and the JNI environment.  It writes the table of functions the guest
    calls, reads the strings and arrays the guest passes, and puts those it
    asks for into two scratch areas. *)

From S2P Require Import Prelude Decimal Cxx GuestMem JniEnv.

(** platform/android-aarch64/jni/jni_bridge.cpp:33-33 *)
Definition JNI_ABORT : Z := 2.

(** platform/android-aarch64/jni/jni_bridge.cpp:35-43 (encode_hvc_stub)
    movz x8, #call_nr; hvc #6; ret *)
Definition encode_hvc_stub (call_nr : Z) : list Z :=
  le_split 4 (Z.lor 3531603976 (Z.shiftl (Z.land call_nr 65535) 5)) ++
  le_split 4 (Z.lor 3556769794 (Z.shiftl 6 5)) ++
  le_split 4 3596551104.

(** [std::string s{buf}]: up to the NUL, which has to be there. *)
Fixpoint c_string (buf : list Z) : res (list Z) :=
  match buf with [] => Stray | b :: buf => if b =? 0 then Ok [] else (b ::.) <$> c_string buf end.

Section Bridge.
Context `{Guest} `{Lib}.
(** platform/android-aarch64/jni/jni_bridge.h:83-84 (JniBridge) *)
Variables (table_gpa_ stub_base_gpa_ : Z).

(** platform/android-aarch64/jni/jni_bridge.h:81-88 (JniBridge)
    The guest and the environment it points to, and the bumps. *)
Record bridge := Bridge {
  br_guest : guest; br_env : jni; string_chars_bump_ : Z; array_elements_bump_ : Z;
}.
Definition set_guest g b := Bridge g (br_env b) (string_chars_bump_ b) (array_elements_bump_ b).
Definition set_env j b := Bridge (br_guest b) j (string_chars_bump_ b) (array_elements_bump_ b).
Definition set_string_bump n b := Bridge (br_guest b) (br_env b) n (array_elements_bump_ b).
Definition set_array_bump n b := Bridge (br_guest b) (br_env b) (string_chars_bump_ b) n.

(** platform/android-aarch64/jni/jni_bridge.cpp:45-56 (JniBridge) *)
Definition string_chars_base_gpa_ : Z := u64 (stub_base_gpa_ + 2048).
(** platform/android-aarch64/jni/jni_bridge.cpp:45-56 (JniBridge) *)
Definition array_elements_base_gpa_ : Z := u64 (stub_base_gpa_ + 53248).

(** [env_->m] *)
Definition env {A} (m : St jni A) : St bridge A := member br_env set_env m.
(** [guest_write(guest_, gpa, bs, n)], whose result is not looked at. *)
Definition put (gpa : Z) (bs : list Z) : St bridge () :=
  modify (λ b, set_guest (guest_write (br_guest b) gpa bs).2 b).
(** [guest_read(guest_, gpa, buf, n)] *)
Definition fetch (gpa : Z) (buf : list Z) : St bridge (bool * list Z) :=
  get (λ b, guest_read (br_guest b) gpa buf).
Definition when (c : bool) (m : St bridge ()) : St bridge () := if c then m else mret ().

(** ** Guest memory *)

(** platform/android-aarch64/jni/jni_bridge.cpp:59-64 (read_str) *)
Definition read_str (gpa : Z) : St bridge (list Z) :=
  buf ← get (λ b, guest_read_str (br_guest b) gpa (replicate 512 0));
  pure (c_string buf).
(** platform/android-aarch64/jni/jni_bridge.cpp:66-69 (write_u64) *)
Definition write_u64 (gpa value : Z) : St bridge () := put gpa (le_split 8 value).
(** platform/android-aarch64/jni/jni_bridge.cpp:71-76 (rebase_if_needed) *)
Definition rebase_if_needed (gpa : Z) : St bridge Z :=
  m ← get (λ b, elf_load_min (br_guest b));
  mret (if (gpa =? 0) || (m =? 0) then gpa else if gpa <? m then u64 (m + gpa) else gpa).

(** platform/android-aarch64/jni/jni_bridge.cpp:96-103 (install) *)
Definition install_entry (e : Z * Z) : St bridge () :=
  let '(slot, stub_gpa) := e in
  let call_nr := u32 (4096 + u32 (u64 (stub_gpa - stub_base_gpa_) / JNI_STUB_SIZE)) in
  _ ← put stub_gpa (encode_hvc_stub call_nr);
  write_u64 (u64 (table_gpa_ + slot * 8)) stub_gpa.
(** platform/android-aarch64/jni/jni_bridge.cpp:88-111 (install) *)
Definition install : St bridge () :=
  _ ← put table_gpa_ (replicate (233 * 8) 0);
  _ ← each install_entry (install_entries stub_base_gpa_);
  env (install_table table_gpa_).

(** platform/android-aarch64/jni/jni_bridge.cpp:117-123 (intern_char_arg) *)
Definition intern_char_arg (gpa : Z) : St bridge () :=
  if gpa =? 0 then mret () else s ← read_str gpa; env (intern_string gpa s).

(** platform/android-aarch64/jni/jni_bridge.cpp:131-131 (kStringScratchSize) *)
Definition kStringScratchSize : Z := 1792.
(** platform/android-aarch64/jni/jni_bridge.cpp:125-145 (materialize_string_chars) *)
Definition materialize_string_chars (string_handle : Z) : St bridge Z :=
  value ← get (λ b, get_string string_handle (br_env b));
  match value with
  | None => mret 0
  | Some value =>
      let len := u64 (size value + 1) in
      let len := if kStringScratchSize <? len then kStringScratchSize else len in
      bump ← get string_chars_bump_;
      let bump := if kStringScratchSize <? u64 (bump + len) then 0 else bump in
      let gpa := u64 (string_chars_base_gpa_ + bump) in
      tmp ← pure (substr value 0 (len - 1));
      _ ← put gpa (tmp ++ [0]);
      _ ← modify (set_string_bump (u64 (bump + Z.land (u64 (len + 7)) (u64 (Z.lnot 7)))));
      mret gpa
  end.

(** platform/android-aarch64/jni/jni_bridge.cpp:153-153 (kArrayScratchSize) *)
Definition kArrayScratchSize : Z := 65536.
(** platform/android-aarch64/jni/jni_bridge.cpp:147-166 (write_scratch_bytes)
    With the base and the bump of the bridge; the bytes of [data]. *)
Definition write_scratch_bytes (data : list Z) : St bridge Z :=
  let bytes := Z.max (size data) 1 in
  let bytes := Z.land (u64 (bytes + 15)) (u64 (Z.lnot 15)) in
  if kArrayScratchSize <? bytes then mret 0 else
  bump ← get array_elements_bump_;
  let bump := if kArrayScratchSize <? u64 (bump + bytes) then 0 else bump in
  let gpa := u64 (array_elements_base_gpa_ + bump) in
  _ ← when (0 <? size data) (put gpa data);
  _ ← modify (set_array_bump (u64 (bump + bytes)));
  mret gpa.
(** platform/android-aarch64/jni/jni_bridge.cpp:168-206 (materialize_byte_array, materialize_int_array, materialize_long_array, materialize_float_array) *)
Definition materialize_array (k : kind) (array_handle : Z) : St bridge Z :=
  value ← get (λ b, get_array k array_handle (br_env b));
  match value with
  | None => mret 0
  | Some value => write_scratch_bytes (word_bytes (width k) value)
  end.

(** ** Natives *)

(** platform/android-aarch64/jni/jni_bridge.cpp:226-232 (register_natives_from_guest)
    A member of an entry. *)
Definition read_member (gpa : Z) : St bridge Z :=
  r ← fetch (u64 gpa) (le_split 8 0);
  rebase_if_needed (le_combine r.2).
(** platform/android-aarch64/jni/jni_bridge.cpp:223-239 (register_natives_from_guest) *)
Definition register_entry (class_handle entry_gpa : Z) : St bridge () :=
  name_gpa ← read_member (entry_gpa + 0);
  sig_gpa ← read_member (entry_gpa + 8);
  fn_gpa ← read_member (entry_gpa + 16);
  name ← read_str name_gpa;
  sig ← read_str sig_gpa;
  env (register_native class_handle name sig fn_gpa).
(** platform/android-aarch64/jni/jni_bridge.cpp:217-240 (register_natives_from_guest) *)
Definition register_natives_from_guest (class_handle array_gpa count : Z) : St bridge () :=
  each (λ i, register_entry class_handle (u64 (array_gpa + Z.of_nat i * 24))) (seq 0 (Z.to_nat count)).

(** ** Calls *)

(** platform/android-aarch64/jni/jni_bridge.cpp:251-272 (handle_hvc) *)
Definition intern_args (call_nr : Z) (regs : list Z) : St bridge () :=
  if call_nr =? JNI_FindClass then intern_char_arg (arg regs 1)
  else if (call_nr =? JNI_GetMethodID) || (call_nr =? JNI_GetFieldID) then
    _ ← intern_char_arg (arg regs 2);
    intern_char_arg (arg regs 3)
  else if call_nr =? JNI_NewStringUTF then intern_char_arg (arg regs 1)
  else mret ().

(** The calls on arrays of numbers. *)
Inductive array_call := Elements | Release | GetRegion | SetRegion.
Definition array_call_of (call_nr : Z) : option (array_call * kind) :=
  if call_nr =? JNI_GetByteArrayElements then Some (Elements, Byte)
  else if call_nr =? JNI_GetIntArrayElements then Some (Elements, Int)
  else if call_nr =? JNI_GetLongArrayElements then Some (Elements, Long)
  else if call_nr =? JNI_GetFloatArrayElements then Some (Elements, Float)
  else if call_nr =? JNI_ReleaseByteArrayElements then Some (Release, Byte)
  else if call_nr =? JNI_ReleaseIntArrayElements then Some (Release, Int)
  else if call_nr =? JNI_ReleaseLongArrayElements then Some (Release, Long)
  else if call_nr =? JNI_ReleaseFloatArrayElements then Some (Release, Float)
  else if call_nr =? JNI_SetByteArrayRegion then Some (SetRegion, Byte)
  else if call_nr =? JNI_SetIntArrayRegion then Some (SetRegion, Int)
  else if call_nr =? JNI_SetLongArrayRegion then Some (SetRegion, Long)
  else if call_nr =? JNI_SetFloatArrayRegion then Some (SetRegion, Float)
  else if call_nr =? JNI_GetIntArrayRegion then Some (GetRegion, Int)
  else if call_nr =? JNI_GetLongArrayRegion then Some (GetRegion, Long)
  else if call_nr =? JNI_GetFloatArrayRegion then Some (GetRegion, Float)
  else None.

(** platform/android-aarch64/jni/jni_bridge.cpp:283-299 (handle_hvc) *)
Definition elements (k : kind) (regs : list Z) (ret : Z) : St bridge Z :=
  _ ← when (negb (arg regs 2 =? 0)) (put (arg regs 2) [1]);
  materialize_array k ret.
(** platform/android-aarch64/jni/jni_bridge.cpp:310-323 (handle_hvc) *)
Definition set_bytes (regs : list Z) : St bridge () :=
  let len := arg regs 3 in
  when ((0 <? len) && negb (arg regs 4 =? 0))
    (tmp ← env (new_vector 1 len 0);
     r ← fetch (arg regs 4) tmp;
     when r.1 (env (set_array_region Byte (arg regs 1) (arg regs 2) r.2 len))).
(** platform/android-aarch64/jni/jni_bridge.cpp:325-372 (handle_hvc) *)
Definition release (k : kind) (regs : list Z) : St bridge () :=
  when (negb (arg regs 2 =? 0) && negb (arg regs 3 =? JNI_ABORT))
    (current ← get (λ b, get_array k (arg regs 1) (br_env b));
     match current with
     | None => mret ()
     | Some current =>
         tmp ← env (new_vector (width k) (size current) 0);
         let bytes := word_bytes (width k) tmp in
         if bool_decide (bytes = []) then mret () else
         r ← fetch (arg regs 2) bytes;
         when r.1 (env (set_array_region k (arg regs 1) 0 (words_of (width k) (length current) r.2) (size current)))
     end).
(** platform/android-aarch64/jni/jni_bridge.cpp:374-398 (handle_hvc) *)
Definition get_region (k : kind) (regs : list Z) (ret : Z) : St bridge () :=
  when ((ret =? 0) && negb (arg regs 4 =? 0))
    (let start := arg regs 2 in
     let len := arg regs 3 in
     current ← get (λ b, get_array k (arg regs 1) (br_env b));
     match current with
     | None => mret ()
     | Some v =>
         if size v <? u64 (start + len) then mret () else
         if size v <? start + len then pure Stray else
         put (arg regs 4) (word_bytes (width k) (take (Z.to_nat len) (drop (Z.to_nat start) v)))
     end).
(** platform/android-aarch64/jni/jni_bridge.cpp:400-424 (handle_hvc) *)
Definition set_region (k : kind) (regs : list Z) (ret : Z) : St bridge () :=
  when ((ret =? 0) && negb (arg regs 4 =? 0))
    (let start := arg regs 2 in
     let len := arg regs 3 in
     tmp ← env (new_vector (width k) len 0);
     let bytes := word_bytes (width k) tmp in
     if bool_decide (bytes = []) then mret () else
     r ← fetch (arg regs 4) bytes;
     when r.1 (env (set_array_region k (arg regs 1) start (words_of (width k) (length tmp) r.2) len))).

(** platform/android-aarch64/jni/jni_bridge.cpp:249-427 (handle_hvc) *)
Definition handle_hvc (call_nr : Z) (regs : list Z) : St bridge Z :=
  _ ← intern_args call_nr regs;
  ret ← env (dispatch call_nr regs);
  if call_nr =? JNI_GetStringUTFChars then
    _ ← when (negb (arg regs 2 =? 0)) (put (arg regs 2) [0]);
    materialize_string_chars ret
  else if call_nr =? JNI_RegisterNatives then
    _ ← register_natives_from_guest (arg regs 1) (arg regs 2) (arg regs 3);
    mret ret
  else match array_call_of call_nr with
  | None => mret ret
  | Some (Elements, k) => elements k regs ret
  | Some (SetRegion, Byte) => _ ← set_bytes regs; mret ret
  | Some (Release, k) => _ ← release k regs; mret ret
  | Some (GetRegion, k) => _ ← get_region k regs ret; mret ret
  | Some (SetRegion, k) => _ ← set_region k regs ret; mret ret
  end.
End Bridge.
