(* ===== verification/HostFile.v ===== *)
(** * Files of the host

    How fopen, fseek and fread are used on ELF files: a file is the list of its
    bytes and a position, which an offset that is negative as a long leaves
    where it was.  [Disk] says what is in a file.  The structures of ELF are
    read from the bytes of their fields. *)

From S2P Require Import Prelude Decimal Cxx Elf.

Class Disk := { fopen : list Z → option (list Z) }.

Definition fseek (pos off : Z) : Z := if s64 off <? 0 then pos else s64 off.
(** The bytes fread gives when asked for [n]. *)
Definition fread (c : list Z) (pos n : Z) : list Z :=
  if size c <=? pos then [] else take (Z.to_nat (Z.min n (size c))) (drop (Z.to_nat pos) c).
(** The characters before the first NUL of a buffer that ends in one. *)
Fixpoint c_chars (buf : list Z) : list Z :=
  match buf with [] => [] | b :: buf => if b =? 0 then [] else b :: c_chars buf end.

(** Elf64_Ehdr *)
Definition elf_magic : list Z := [127; 69; 76; 70].
Definition is_aarch64 (eh : list Z) : bool :=
  eq_str (take 4 eh) elf_magic && (field 4 1 eh =? 2) && (field 18 2 eh =? 183).
Definition e_phoff_of := field 32 8.
Definition e_shoff := field 40 8.
Definition e_phnum_of := field 56 2.
Definition e_shentsize := field 58 2.
Definition e_shnum := field 60 2.
(** Elf64_Shdr *)
Definition SHT_SYMTAB : Z := 2.
Definition SHT_DYNSYM : Z := 11.
Definition sh_type := field 4 4.
Definition sh_offset := field 24 8.
Definition sh_size := field 32 8.
Definition sh_link := field 40 4.
(** Elf64_Sym *)
Definition sym_name := field 0 4.
Definition sym_info := field 4 1.
Definition sym_shndx := field 6 2.
Definition sym_value := field 8 8.

(** ** Lemmas *)

Lemma size_fread c pos n : 0 <= n → size (fread c pos n) <= n.
Proof. intros Hn. unfold fread, size. destruct (_ <=? _); cbn; [lia|]. rewrite length_take. lia. Qed.
Lemma fread_end c pos n : size c <= pos → fread c pos n = [].
Proof. intros Hp. unfold fread. by destruct (Z.leb_spec (size c) pos); [|lia]. Qed.
Lemma fread_short c pos n : 0 <= pos → 0 < n → size c < pos + n → size (fread c pos n) < n.
Proof.
  intros Hp Hn Hs. unfold fread. destruct (Z.leb_spec (size c) pos); [done|].
  unfold size in *. rewrite length_take, length_drop. lia.
Qed.
(** Reading what is there. *)
Lemma fread_app u s w : fread (u ++ s ++ w) (size u) (size s) = s.
Proof.
  unfold fread. destruct (Z.leb_spec (size (u ++ s ++ w)) (size u)) as [Hs|Hs].
  - rewrite !size_app in Hs. assert (size s = 0) as Hz by (pose proof (size_nonneg s); pose proof (size_nonneg w); lia).
    unfold size in Hz. symmetry. apply nil_length_inv. lia.
  - rewrite drop_size_app. rewrite Z.min_l by (rewrite !size_app; pose proof (size_nonneg u); pose proof (size_nonneg w); lia).
    apply take_size_app.
Qed.
