(* ===== verification/JniOnload.v ===== *)
(** * Loading JNI libraries and calling into the guest

    platform/android-aarch64/jni/jni_onload.h and jni_onload.cpp: the table of
    the JavaVM, the search for exported symbols, the calls of the guest that
    are not of the JNIEnv, and how the host calls a function of the guest.
    The virtual processor is the class [Cpu]; the loop that runs it, a
    parameter, may do anything to it and to the guest. *)

From S2P Require Import Prelude Decimal Cxx GuestMem Elf HostFile JniEnv JniBridge.

(** The registers of the processor that the host looks at. *)
Inductive reg :=
  | X (i : nat) | PC | FPCR | FPSR | CPSR | SP_EL0 | SP_EL1 | SPSR_EL1 | SCTLR_EL1.
#[global] Instance reg_dec : EqDecision reg.
Proof. solve_decision. Defined.
(** HV_REG_LR is X30. *)
Definition LR : reg := X 30.

(** hv_vcpu_get_reg, hv_vcpu_set_reg and those of the system registers. *)
Class Cpu := { cpu : Type; get_reg : reg → cpu → Z; set_reg : reg → Z → cpu → cpu }.
Class CpuLaws (C : Cpu) := {
  get_set r r' v c : get_reg r (set_reg r' v c) = if decide (r = r') then v else get_reg r c;
}.

(** platform/android-aarch64/jni/jni_onload.cpp:39-43 *)
Definition OFFSET_VM_TABLE : Z := 0.
Definition OFFSET_VM_PTR : Z := 64.
Definition OFFSET_ENV_PTR : Z := 72.
Definition STUB_SIZE : Z := 12.
Definition ARENA_SIZE : Z := 256.
(** platform/android-aarch64/jni/jni_onload.h:171-171 *)
Definition HVC_JNI_ONLOAD_RETURN : Z := 8191.
(** platform/android-aarch64/jni/jni_onload.cpp:87-91 (install) *)
Definition HVC_VM_GETENV : Z := 8176.
Definition HVC_VM_ATTACH : Z := 8177.
Definition HVC_VM_DETACH : Z := 8178.
Definition HVC_VM_DESTROY : Z := 8179.
Definition HVC_VM_ATTACH_DAEMON : Z := 8180.

(** ** Symbols *)

Section Symbols.
Context `{Disk}.

(** platform/android-aarch64/jni/jni_onload.cpp:180-206 (find_symbol)
    The section headers from the [i]th on: the offset and the size of the
    symbols, the offset of their names, and the position in the file.  The product of two ints may
    overflow, that with an unsigned one wraps. *)
Fixpoint find_dynsym (c eh : list Z) (n : nat) (i pos : Z) : res (Z * Z * Z * Z) :=
  match n with
  | O => Ok (0, 0, 0, pos)
  | S n =>
      if 2147483648 <=? i * e_shentsize eh then Stray else
      let pos := fseek pos (u64 (e_shoff eh + i * e_shentsize eh)) in
      let sh := fread c pos 64 in
      if size sh <? 64 then Ok (0, 0, 0, pos) else
      if sh_type sh =? SHT_DYNSYM then
        let pos := fseek (pos + 64) (u64 (e_shoff eh + u32 (sh_link sh * e_shentsize eh))) in
        let strshdr := fread c pos 64 in
        Ok (sh_offset sh, sh_size sh, if size strshdr <? 64 then 0 else sh_offset strshdr, pos + 64)
      else find_dynsym c eh n (i + 1) (pos + 64)
  end.

(** platform/android-aarch64/jni/jni_onload.cpp:218-243 (find_symbol)
    The symbols at [pos]; the value of the first that has the name. *)
Fixpoint walk_symbols (c symbol_name : list Z) (dynstr_off : Z) (n : nat) (pos : Z) : option Z :=
  match n with
  | O => None
  | S n =>
      let sym := fread c pos 24 in
      if size sym <? 24 then None else
      if sym_name sym =? 0 then walk_symbols c symbol_name dynstr_off n (pos + 24) else
      let name := fread c (fseek (pos + 24) (u64 (dynstr_off + sym_name sym))) 255 in
      if eq_str symbol_name (c_chars name) then Some (sym_value sym)
      else walk_symbols c symbol_name dynstr_off n (pos + 24)
  end.
(** A round reads 24 bytes of the file, so that it has less than so many. *)
Definition symbol_rounds (c : list Z) (sym_count : Z) : nat := Z.to_nat (Z.min sym_count (size c / 24 + 1)).

(** platform/android-aarch64/jni/jni_onload.cpp:154-249 (find_symbol) *)
Definition find_symbol (so_load_base : Z) (so_path symbol_name : list Z) : res Z :=
  match fopen so_path with
  | None => Ok 0
  | Some c =>
      let eh := fread c 0 64 in
      if size eh <? 64 then Ok 0 else
      if negb (is_aarch64 eh) then Ok 0 else
      '(dynsym_off, dynsym_size, dynstr_off, pos) ← find_dynsym c eh (Z.to_nat (e_shnum eh)) 0 64;
      if (dynsym_off =? 0) || (dynstr_off =? 0) then Ok 0 else
      let sym_count := dynsym_size / 24 in
      match walk_symbols c symbol_name dynstr_off (symbol_rounds c sym_count)
              (fseek pos dynsym_off) with
      | Some value => Ok (u64 (so_load_base + value))
      | None => Ok 0
      end
  end.
(** platform/android-aarch64/jni/jni_onload.cpp:251-262 (find_jni_onload) *)
Definition find_jni_onload (so_load_base : Z) (so_path : list Z) : res Z :=
  find_symbol so_load_base so_path (cs "JNI_OnLoad").
End Symbols.

(** ** The JavaVM *)

Section Vm.
Context `{Guest} `{Lib} `{Cpu}.
(** platform/android-aarch64/jni/jni_onload.h:161-165 (arena_gpa_) *)
Variables (table_gpa_ stub_base_gpa_ arena_gpa_ : Z).

(** platform/android-aarch64/jni/jni_onload.h:161-175 (JniOnLoad)
    The bridge, which has the guest and the environment, the processor, and
    the fields. *)
Record vm := Vm {
  vm_bridge : bridge; vm_cpu : cpu;
  java_vm_table_gpa_ : Z; java_vm_ptr_gpa_ : Z; jni_env_ptr_gpa_ : Z;
  onload_returned_ : bool; onload_retval_ : Z; sentinel_stub_gpa_ : Z;
}.
Definition set_bridge b v := Vm b (vm_cpu v) (java_vm_table_gpa_ v) (java_vm_ptr_gpa_ v) (jni_env_ptr_gpa_ v)
  (onload_returned_ v) (onload_retval_ v) (sentinel_stub_gpa_ v).
Definition set_cpu c v := Vm (vm_bridge v) c (java_vm_table_gpa_ v) (java_vm_ptr_gpa_ v) (jni_env_ptr_gpa_ v)
  (onload_returned_ v) (onload_retval_ v) (sentinel_stub_gpa_ v).
Definition set_tables t p e v := Vm (vm_bridge v) (vm_cpu v) t p e
  (onload_returned_ v) (onload_retval_ v) (sentinel_stub_gpa_ v).
Definition set_returned r x v := Vm (vm_bridge v) (vm_cpu v) (java_vm_table_gpa_ v) (java_vm_ptr_gpa_ v)
  (jni_env_ptr_gpa_ v) r x (sentinel_stub_gpa_ v).
Definition set_sentinel g v := Vm (vm_bridge v) (vm_cpu v) (java_vm_table_gpa_ v) (java_vm_ptr_gpa_ v)
  (jni_env_ptr_gpa_ v) (onload_returned_ v) (onload_retval_ v) g.

(** [bridge_->m], [guest_write(guest_, ...)] *)
Definition on_bridge {A} (m : St bridge A) : St vm A := member vm_bridge set_bridge m.
(** platform/android-aarch64/jni/jni_onload.cpp:54-60 (write_u64) *)
Definition write_vm (gpa value : Z) : St vm () := on_bridge (write_u64 gpa value).
(** platform/android-aarch64/jni/jni_onload.cpp:74-84 (install) *)
Definition write_vm_stub (gpa hvc_nr : Z) : St vm Z :=
  _ ← on_bridge (put gpa (encode_hvc_stub hvc_nr)); mret gpa.
(** platform/android-aarch64/jni/jni_onload.cpp:112-124 (install)
    movz x8, #HVC_JNI_ONLOAD_RETURN; hvc #6; hvc #0 *)
Definition sentinel_stub : list Z :=
  le_split 4 (Z.lor 3531603976 (Z.shiftl (Z.land HVC_JNI_ONLOAD_RETURN 65535) 5)) ++
  le_split 4 (Z.lor 3556769794 (Z.shiftl 6 5)) ++
  le_split 4 (Z.lor 3556769794 (Z.shiftl 0 5)).
(** platform/android-aarch64/jni/jni_onload.cpp:63-142 (install) *)
Definition install_vm : St vm () :=
  let vm_table := u64 (arena_gpa_ + OFFSET_VM_TABLE) in
  let vm_ptr := u64 (arena_gpa_ + OFFSET_VM_PTR) in
  let env_ptr := u64 (arena_gpa_ + OFFSET_ENV_PTR) in
  _ ← modify (set_tables vm_table vm_ptr env_ptr);
  _ ← on_bridge (put arena_gpa_ (replicate (Z.to_nat ARENA_SIZE) 0));
  let vm_stub_base := u64 (arena_gpa_ + 80) in
  stub_destroy ← write_vm_stub (u64 (vm_stub_base + 0 * STUB_SIZE)) HVC_VM_DESTROY;
  stub_attach ← write_vm_stub (u64 (vm_stub_base + 1 * STUB_SIZE)) HVC_VM_ATTACH;
  stub_detach ← write_vm_stub (u64 (vm_stub_base + 2 * STUB_SIZE)) HVC_VM_DETACH;
  stub_getenv ← write_vm_stub (u64 (vm_stub_base + 3 * STUB_SIZE)) HVC_VM_GETENV;
  stub_daemon ← write_vm_stub (u64 (vm_stub_base + 4 * STUB_SIZE)) HVC_VM_ATTACH_DAEMON;
  let gpa := u64 (vm_stub_base + 5 * STUB_SIZE) in
  _ ← on_bridge (put gpa sentinel_stub);
  _ ← modify (set_sentinel gpa);
  _ ← write_vm (u64 (vm_table + 3 * 8)) stub_destroy;
  _ ← write_vm (u64 (vm_table + 4 * 8)) stub_attach;
  _ ← write_vm (u64 (vm_table + 5 * 8)) stub_detach;
  _ ← write_vm (u64 (vm_table + 6 * 8)) stub_getenv;
  _ ← write_vm (u64 (vm_table + 7 * 8)) stub_daemon;
  _ ← write_vm vm_ptr vm_table;
  table ← get (λ v, jni_table_gpa_ (br_env (vm_bridge v)));
  write_vm env_ptr table.

(** platform/android-aarch64/jni/jni_onload.cpp:493-495 (try_intercept) and 501-503. *)
Definition give_env (regs : list Z) : St vm () :=
  if arg regs 1 =? 0 then mret () else
  env_ptr ← get jni_env_ptr_gpa_;
  on_bridge (put (arg regs 1) (le_split 8 env_ptr)).
(** platform/android-aarch64/jni/jni_onload.cpp:465-516 (try_intercept)
    What is written to [x0_out], if the call is one of ours. *)
Definition try_intercept (hvc_nr : Z) (regs : list Z) : St vm (option Z) :=
  if (hvc_nr <? 4096) || (8191 <? hvc_nr) then mret None else
  if hvc_nr =? HVC_JNI_ONLOAD_RETURN then
    _ ← modify (set_returned true (arg regs 0)); mret (Some 0)
  else if hvc_nr =? HVC_VM_GETENV then
    if negb (arg regs 2 =? 65542) then mret (Some (u64 (-2))) else
    _ ← give_env regs; mret (Some 0)
  else if (hvc_nr =? HVC_VM_ATTACH) || (hvc_nr =? HVC_VM_ATTACH_DAEMON) then
    _ ← give_env regs; mret (Some 0)
  else if (hvc_nr =? HVC_VM_DETACH) || (hvc_nr =? HVC_VM_DESTROY) then mret (Some 0)
  else r ← on_bridge (handle_hvc stub_base_gpa_ hvc_nr regs); mret (Some r).

(** ** Calls of the guest *)

(** vcpu_run_loop: the guest runs until its call has come back. *)
Variable run_loop_cb : St vm ().

Definition get_r (r : reg) : St vm Z := get (λ v, get_reg r (vm_cpu v)).
Definition set_r (r : reg) (x : Z) : St vm () := modify (λ v, set_cpu (set_reg r x (vm_cpu v)) v).
Fixpoint get_all (rs : list reg) : St vm (list Z) :=
  match rs with [] => mret [] | r :: rs => x ← get_r r; xs ← get_all rs; mret (x :: xs) end.
Fixpoint set_all (rs : list reg) (xs : list Z) : St vm () :=
  match rs, xs with r :: rs, x :: xs => _ ← set_r r x; set_all rs xs | _, _ => mret () end.

(** platform/android-aarch64/jni/jni_onload.cpp:270-326 (call_jni_onload)
    The int is the low half of the register. *)
Definition call_jni_onload (jni_onload_gpa : Z) : St vm Z :=
  saved ← get_all [PC; LR; X 0; X 1; SP_EL1];
  call_sp ← get_r SP_EL0;
  saved_sctlr ← get_r SCTLR_EL1;
  _ ← (if call_sp =? 0 then mret () else set_r SP_EL1 call_sp);
  _ ← set_r SCTLR_EL1 (Z.lor saved_sctlr 64);
  vm_ptr ← get java_vm_ptr_gpa_;
  _ ← set_r (X 0) vm_ptr;
  _ ← set_r (X 1) 0;
  sentinel ← get sentinel_stub_gpa_;
  _ ← set_r LR sentinel;
  _ ← set_r PC jni_onload_gpa;
  _ ← modify (set_returned false 0);
  _ ← run_loop_cb;
  _ ← set_all [PC; LR; X 0; X 1; SP_EL1] saved;
  _ ← set_r SCTLR_EL1 saved_sctlr;
  r ← get onload_retval_;
  mret (s32 r).

(** platform/android-aarch64/jni/jni_onload.cpp:346-360 (call_guest_function)
    What is saved, in the order in which it is. *)
Definition saved_registers : list reg :=
  PC :: (X <$> seq 0 29) ++ [X 29; LR; FPCR; FPSR; CPSR; SP_EL0; SP_EL1; SPSR_EL1; SCTLR_EL1].
(** platform/android-aarch64/jni/jni_onload.cpp:364-366 (call_guest_function) *)
Definition call_stack (saved_sp_el0 saved_sp_el1 : Z) : Z :=
  if negb (saved_sp_el1 =? 0) && (saved_sp_el1 <? 4294967296) then saved_sp_el1 else saved_sp_el0.
(** platform/android-aarch64/jni/jni_onload.cpp:329-409 (call_guest_function) *)
Definition call_guest_function (entry_gpa : Z) (args : list Z) : St vm Z :=
  saved ← get_all saved_registers;
  sp_el0 ← get_r SP_EL0;
  sp_el1 ← get_r SP_EL1;
  sctlr ← get_r SCTLR_EL1;
  let call_sp := call_stack sp_el0 sp_el1 in
  _ ← (if call_sp =? 0 then mret () else set_r SP_EL1 call_sp);
  _ ← set_r SCTLR_EL1 (Z.lor sctlr 64);
  _ ← set_all (X <$> seq 0 8) (replicate 8 0);
  _ ← set_all (X <$> seq 0 8) args;
  sentinel ← get sentinel_stub_gpa_;
  _ ← set_r LR sentinel;
  _ ← set_r PC entry_gpa;
  _ ← modify (set_returned false 0);
  _ ← run_loop_cb;
  _ ← set_all saved_registers saved;
  r ← get onload_retval_;
  mret (s64 r).
(** platform/android-aarch64/jni/jni_onload.cpp:426-451 (call_native) *)
Definition call_native (native_gpa thiz : Z) (args : list Z) : St vm Z :=
  env_ptr ← get jni_env_ptr_gpa_;
  call_guest_function native_gpa (env_ptr :: thiz :: (u64 <$> take 6 args)).
(** platform/android-aarch64/jni/jni_onload.cpp:412-423 (call_native_int2) *)
Definition call_native_int2 (native_gpa thiz a b : Z) : St vm Z :=
  r ← call_native native_gpa thiz [a; b]; mret (s32 r).
End Vm.
