(* ===== verification/JniProps.v ===== *)
(** * The JNI environment: what holds in every state

    Handles are never given twice and name one thing each; classes and their
    descriptors correspond; objects have classes and arrays are objects of
    their class ([jni_ok]).  What a handle names stays what it is ([grows]).
    Both hold for every call of the guest. *)

From S2P Require Import Prelude Decimal Cxx GuestMem JniEnv.

(** ** The invariant *)

Definition in_word (k : kind) (x : Z) : Prop := 0 <= x < 256 ^ Z.of_nat (width k).

(** The tables: a handle in use is below [next], and used once. *)
Record tables_ok (cls : gmap Z JClass) (by_desc : gmap (list Z) Z) (ms fs : gmap Z MemberEntry)
    (os : gmap Z ObjectEntry) (next : Z) : Prop := TablesOk {
  ok_next : first_handle <= next;
  ok_classes h c : cls !! h = Some c → first_handle <= h < next ∧ by_desc !! jc_descriptor c = Some h;
  ok_by_desc d h : by_desc !! d = Some h → ∃ c, cls !! h = Some c ∧ jc_descriptor c = d;
  ok_natives h c : cls !! h = Some c → NoDup ((λ m, (nm_name m, nm_signature m)) <$> jc_methods c);
  ok_methods h m : ms !! h = Some m → first_handle <= h < next ∧ is_Some (cls !! me_class m);
  ok_methods_once h h' m : ms !! h = Some m → ms !! h' = Some m → h = h';
  ok_fields h m : fs !! h = Some m → first_handle <= h < next ∧ is_Some (cls !! me_class m);
  ok_fields_once h h' m : fs !! h = Some m → fs !! h' = Some m → h = h';
  ok_objects h o : os !! h = Some o → first_handle <= h < next ∧ is_Some (cls !! oe_class o);
  ok_class_object h c o : cls !! h = Some c → os !! h = Some o → False;
}.
(** An array is an object of its class, and fits into memory. *)
Definition array_ok (cls : gmap Z JClass) (os : gmap Z ObjectEntry) (h : Z) (d : list Z) : Prop :=
  ∃ o c, os !! h = Some o ∧ cls !! oe_class o = Some c ∧ jc_descriptor c = d.
Record arrays_ok (j : jni) : Prop := ArraysOk {
  ok_array k h v : arrays k j !! h = Some v →
    array_ok (classes_ j) (objects_ j) h (array_class k) ∧
    size v * Z.of_nat (width k) < 9223372036854775808 ∧ Forall (in_word k) v;
  ok_object_array h v : object_arrays_ j !! h = Some v →
    (∃ e, array_ok (classes_ j) (objects_ j) h (array_descriptor e)) ∧ size v * 8 < 9223372036854775808;
}.
Definition jni_ok (j : jni) : Prop :=
  tables_ok (classes_ j) (class_by_desc_ j) (methods_ j) (fields_ j) (objects_ j) (next_handle_ j) ∧ arrays_ok j.

(** There are [n] more handles. *)
Definition room (n : Z) (j : jni) : Prop := next_handle_ j + n < 18446744073709551616.

(** From [j] to [j'] at most [n] handles were given, and what they name is as
    it was, but for the natives of classes and the contents of arrays. *)
Record grows (n : Z) (j j' : jni) : Prop := Grows {
  gr_next : next_handle_ j <= next_handle_ j' <= next_handle_ j + n;
  gr_classes h c : classes_ j !! h = Some c → ∃ ms, classes_ j' !! h = Some (Class_ (jc_descriptor c) ms);
  gr_by_desc : class_by_desc_ j ⊆ class_by_desc_ j';
  gr_methods : methods_ j ⊆ methods_ j';
  gr_fields : fields_ j ⊆ fields_ j';
  gr_objects : objects_ j ⊆ objects_ j';
  gr_arrays k h v : arrays k j !! h = Some v → ∃ v', arrays k j' !! h = Some v' ∧ length v' = length v;
}.

Lemma grows_refl j : grows 0 j j.
Proof. split; try done; [lia|..]; [intros h [d ms]; eauto|eauto]. Qed.
Lemma grows_trans n m j1 j2 j3 : grows n j1 j2 → grows m j2 j3 → grows (n + m) j1 j3.
Proof.
  intros [N1 C1 B1 M1 F1 O1 A1] [N2 C2 B2 M2 F2 O2 A2]. split; try (by etrans); [lia|..].
  - intros h c Hc. destruct (C1 _ _ Hc) as [ms Hms]. destruct (C2 _ _ Hms) as [ms' H']. by exists ms'.
  - intros k h v Hv. destruct (A1 _ _ _ Hv) as (v1 & H1 & L1). destruct (A2 _ _ _ H1) as (v2 & H2 & L2).
    exists v2. split; [done|congruence].
Qed.
Lemma grows_weaken n m j j' : grows n j j' → n <= m → grows m j j'.
Proof. intros [N C B M F O A] Hn. split; try done. lia. Qed.

(** What a computation does to a good state with room for [n] handles. *)
Definition keeps {A} (n : Z) (m : St jni A) : Prop :=
  ∀ j, jni_ok j → room n j → holds m j (λ _ j', jni_ok j' ∧ grows n j j').

Lemma keeps_bind {A B} n m p (x : St jni A) (f : A → St jni B) :
  keeps n x → (∀ a, keeps m (f a)) → n + m <= p → 0 <= n → 0 <= m → keeps p (x ≫= f).
Proof.
  intros Hx Hf Hp Hn Hm j Hj Hr. apply holds_bind. eapply holds_mono; [apply Hx; [done|unfold room in *; lia]|].
  intros a j1 [Hj1 G1]. eapply holds_mono; [apply Hf; [done|]|].
  - unfold room in *. pose proof (gr_next _ _ _ G1). lia.
  - intros b j2 [Hj2 G2]. split; [done|]. eapply grows_weaken; [by eapply grows_trans|done].
Qed.
Lemma keeps_get {A} n (f : jni → A) : 0 <= n → keeps n (get f).
Proof. intros Hn j Hj _. split; [done|]. by eapply grows_weaken; [apply grows_refl|]. Qed.
Lemma keeps_ret {A} n (a : A) : 0 <= n → keeps n (mret a).
Proof. intros Hn j Hj _. split; [done|]. by eapply grows_weaken; [apply grows_refl|]. Qed.
Lemma keeps_mono {A} n m (x : St jni A) : keeps n x → n <= m → keeps m x.
Proof.
  intros Hx Hn j Hj Hr. eapply holds_mono; [apply Hx; [done|unfold room in *; lia]|].
  intros a j' [Hj' G]. split; [done|]. by eapply grows_weaken.
Qed.
(** A change of a field no handle depends on. *)
Lemma keeps_modify n (f : jni → jni) :
  (∀ j, jni_ok j → jni_ok (f j) ∧ grows 0 j (f j)) → 0 <= n → keeps n (modify f).
Proof. intros Hf Hn j Hj _. destruct (Hf j Hj) as [H1 H2]. split; [done|]. by eapply grows_weaken. Qed.

(** Such changes. *)
Ltac same_tables := intros j Hj; split; [destruct Hj as [HT [HA HO]]; split; [exact HT|split; [intros [] h v; [exact (HA Byte h v)|exact (HA Int h v)|exact (HA Long h v)|exact (HA Float h v)]|exact HO]]
  |split; cbn; try done; [lia|intros h [d ms]; eauto|intros [] h v Hv; eauto]].

(** ** New entries *)

Section Tables.
Context {cls : gmap Z JClass} {by_desc : gmap (list Z) Z} {ms fs : gmap Z MemberEntry} {os : gmap Z ObjectEntry}.
Context {next : Z} (HT : tables_ok cls by_desc ms fs os next).

Lemma tables_next next' : next <= next' → tables_ok cls by_desc ms fs os next'.
Proof.
  intros Hn. destruct HT. split; try done; [lia|..].
  - intros h c Hc. destruct (ok_classes0 h c Hc). split; [lia|done].
  - intros h m Hm. destruct (ok_methods0 h m Hm). split; [lia|done].
  - intros h m Hm. destruct (ok_fields0 h m Hm). split; [lia|done].
  - intros h m Hm. destruct (ok_objects0 h m Hm). split; [lia|done].
Qed.

(** A class with a descriptor that had none. *)
Lemma tables_class h d :
  first_handle <= h < next → cls !! h = None → os !! h = None → by_desc !! d = None →
  tables_ok (<[h := Class_ d []]> cls) (<[d := h]> by_desc) ms fs os next.
Proof.
  intros Hh Hc Ho Hd. destruct HT.
  assert (∀ x, is_Some (cls !! x) → is_Some (<[h := Class_ d []]> cls !! x)) as Hsome.
  { intros x Hx. rewrite lookup_insert_is_Some. destruct (decide (h = x)); auto. }
  split; try done.
  - intros x c. rewrite lookup_insert_Some. intros [[<- <-]|[Hx Hs]]; cbn; [by rewrite lookup_insert_eq|].
    destruct (ok_classes0 x c Hs) as [? Hb]. split; [done|]. rewrite lookup_insert_ne; [done|]. intros Hd2. congruence.
  - intros e x. rewrite lookup_insert_Some. intros [[<- <-]|[Hx Hs]].
    + exists (Class_ d []). by rewrite lookup_insert_eq.
    + destruct (ok_by_desc0 e x Hs) as (c & Hs' & He). exists c. rewrite lookup_insert_ne; [done|]. congruence.
  - intros x c. rewrite lookup_insert_Some. intros [[<- <-]|[Hx Hs]]; [by constructor|by eapply ok_natives0].
  - intros x m Hm. destruct (ok_methods0 x m Hm). auto.
  - intros x m Hm. destruct (ok_fields0 x m Hm). auto.
  - intros x m Hm. destruct (ok_objects0 x m Hm). auto.
  - intros x c o. rewrite lookup_insert_Some. intros [[<- <-]|[Hx Hs]]; [congruence|by eapply ok_class_object0].
Qed.

(** Other natives of a class. *)
Lemma tables_natives h c l :
  cls !! h = Some c → NoDup ((λ m, (nm_name m, nm_signature m)) <$> l) →
  tables_ok (<[h := Class_ (jc_descriptor c) l]> cls) by_desc ms fs os next.
Proof.
  intros Hc Hl. destruct HT.
  assert (∀ x, is_Some (cls !! x) → is_Some (<[h := Class_ (jc_descriptor c) l]> cls !! x)) as Hsome.
  { intros x Hx. rewrite lookup_insert_is_Some. destruct (decide (h = x)); auto. }
  split; try done.
  - intros x c'. rewrite lookup_insert_Some. intros [[<- <-]|[Hx Hs]]; [exact (ok_classes0 _ _ Hc)|by apply ok_classes0].
  - intros e x Hx. destruct (ok_by_desc0 e x Hx) as (c' & Hs & He). destruct (decide (h = x)) as [->|Hn].
    + eexists. rewrite lookup_insert_eq. split; [done|]. cbn. congruence.
    + exists c'. by rewrite lookup_insert_ne.
  - intros x c'. rewrite lookup_insert_Some. intros [[<- <-]|[Hx Hs]]; [done|by eapply ok_natives0].
  - intros x m Hm. destruct (ok_methods0 x m Hm). auto.
  - intros x m Hm. destruct (ok_fields0 x m Hm). auto.
  - intros x m Hm. destruct (ok_objects0 x m Hm). auto.
  - intros x c' o. rewrite lookup_insert_Some. intros [[<- <-]|[Hx Hs]]; by eapply ok_class_object0.
Qed.

Lemma tables_object h o :
  first_handle <= h < next → cls !! h = None → is_Some (cls !! oe_class o) →
  tables_ok cls by_desc ms fs (<[h := o]> os) next.
Proof.
  intros Hh Hc Ho. destruct HT. split; try done.
  - intros x o'. rewrite lookup_insert_Some. intros [[<- <-]|[Hx Hs]]; [done|by apply ok_objects0].
  - intros x c o' Hx. rewrite lookup_insert_Some. intros [[<- <-]|[? Hs]]; [congruence|by eapply ok_class_object0].
Qed.

Lemma tables_method h m :
  first_handle <= h < next → is_Some (cls !! me_class m) → (∀ x, ms !! x ≠ Some m) →
  tables_ok cls by_desc (<[h := m]> ms) fs os next.
Proof.
  intros Hh Hc Hm. destruct HT. split; try done.
  - intros x o'. rewrite lookup_insert_Some. intros [[<- <-]|[Hx Hs]]; [done|by apply ok_methods0].
  - intros x y m'. rewrite !lookup_insert_Some. intros [[<- <-]|[Hx Hs]] [[<- E]|[Hy Hs']]; try done.
    + by apply Hm in Hs'.
    + subst m'. by apply Hm in Hs.
    + by eapply ok_methods_once0.
Qed.

Lemma tables_field h m :
  first_handle <= h < next → is_Some (cls !! me_class m) → (∀ x, fs !! x ≠ Some m) →
  tables_ok cls by_desc ms (<[h := m]> fs) os next.
Proof.
  intros Hh Hc Hm. destruct HT. split; try done.
  - intros x o'. rewrite lookup_insert_Some. intros [[<- <-]|[Hx Hs]]; [done|by apply ok_fields0].
  - intros x y m'. rewrite !lookup_insert_Some. intros [[<- <-]|[Hx Hs]] [[<- E]|[Hy Hs']]; try done.
    + by apply Hm in Hs'.
    + subst m'. by apply Hm in Hs.
    + by eapply ok_fields_once0.
Qed.

(** Nothing has the next handle. *)
Lemma tables_fresh : cls !! next = None ∧ os !! next = None ∧ ms !! next = None ∧ fs !! next = None.
Proof.
  assert (∀ A (m : gmap Z A), (∀ h x, m !! h = Some x → h < next) → m !! next = None) as Hnone.
  { intros A m Hm. destruct (m !! next) eqn:E; [|done]. apply Hm in E. lia. }
  destruct HT. split_and!; apply Hnone; intros h x Hx.
  - apply ok_classes0 in Hx. lia.
  - apply ok_objects0 in Hx. lia.
  - apply ok_methods0 in Hx. lia.
  - apply ok_fields0 in Hx. lia.
Qed.
End Tables.

(** Arrays stay arrays when classes keep their descriptors and objects stay. *)
Lemma arrays_mono j j' :
  arrays_ok j → (∀ k, arrays k j' = arrays k j) → object_arrays_ j' = object_arrays_ j →
  (∀ h c, classes_ j !! h = Some c → ∃ l, classes_ j' !! h = Some (Class_ (jc_descriptor c) l)) →
  objects_ j ⊆ objects_ j' → arrays_ok j'.
Proof.
  intros [HA HO] Ha Ho Hc Hs.
  assert (∀ h d, array_ok (classes_ j) (objects_ j) h d → array_ok (classes_ j') (objects_ j') h d) as Hmono.
  { intros h d (o & c & H1 & H2 & H3). destruct (Hc _ _ H2) as [l Hl]. exists o. eexists. split_and!; [|exact Hl|done].
    by eapply lookup_weaken. }
  split.
  - intros k h v. rewrite Ha. intros Hv. destruct (HA k h v Hv) as (? & ? & ?). auto.
  - intros h v. rewrite Ho. intros Hv. destruct (HO h v Hv) as ((e & He) & ?). split; [|done]. exists e. auto.
Qed.

Section Ops.
Context `{Lib}.
Implicit Types (j : jni).

(** A handle that has been given but names nothing yet. *)
Definition unused (h : Z) (j : jni) : Prop :=
  first_handle <= h < next_handle_ j ∧ classes_ j !! h = None ∧ objects_ j !! h = None ∧
  methods_ j !! h = None ∧ fields_ j !! h = None.

Lemma holds_alloc j (Q : Z → jni → Prop) :
  jni_ok j → room 1 j →
  (let h := next_handle_ j in let j' := set_next_handle (h + 1) j in
   jni_ok j' → grows 1 j j' → unused h j' → Q h j') →
  holds alloc_handle j Q.
Proof.
  intros [HT HA] Hr HQ. pose proof (ok_next _ _ _ _ _ _ HT) as Hn.
  unfold alloc_handle. apply holds_bind, holds_get, holds_bind, holds_modify, holds_ret.
  unfold room, first_handle in *. rewrite (u64_small (next_handle_ j + 1)) by (unfold in_u64; lia).
  apply HQ.
  - split; [apply (tables_next HT); cbn; lia|]. eapply arrays_mono; [exact HA|by intros []|done| |done].
    intros h [d l]. cbn. eauto.
  - split; cbn; try done; [lia|intros h [d ms]; eauto|intros [] h v Hv; eauto].
  - destruct (tables_fresh HT) as (? & ? & ? & ?). unfold unused, first_handle. cbn. split_and!; try done; lia.
Qed.

Lemma holds_register_class d j (Q : () → jni → Prop) :
  jni_ok j → room 1 j →
  (∀ j', jni_ok j' → grows 1 j j' → is_Some (class_by_desc_ j' !! d) → objects_ j' = objects_ j →
         strings_ j' = strings_ j → (∀ h, unused h j → unused h j') → Q () j') →
  holds (register_class d) j Q.
Proof.
  intros Hj Hr HQ. unfold register_class. apply holds_bind, holds_get.
  destruct (class_by_desc_ j !! d) as [h|] eqn:E.
  - apply holds_ret. apply HQ; try done. eapply grows_weaken; [apply grows_refl|lia].
  - apply holds_bind, holds_alloc; [done..|]. intros h1 j1 [HT HA] G1 U1.
    apply holds_bind, holds_modify, holds_modify.
    destruct U1 as (Hh & Hc & Ho & Hm & Hf).
    apply HQ; try done.
    + split; [by apply (tables_class HT)|].
      eapply arrays_mono; [exact HA|by intros []|done| |done].
      intros x [dx lx] Hx. exists lx. cbn [classes_ set_classes set_class_by_desc].
      rewrite lookup_insert_ne; [done|]. intros <-. congruence.
    + destruct G1 as [N C B M F O A]. split; try done.
      * intros x c Hx. destruct (C _ _ Hx) as [l Hl]. exists l. cbn [classes_ set_classes set_class_by_desc].
        rewrite lookup_insert_ne; [done|]. intros <-. congruence.
      * cbn. etrans; [exact B|]. by apply insert_subseteq.
      * intros [] x v Hx; eauto.
    + cbn. by rewrite lookup_insert_eq.
    + intros x (Hx & Hxc & Hxo & Hxm & Hxf). unfold unused in *. cbn in *. split_and!; try done; [lia..|].
      rewrite lookup_insert_ne; [done|]. lia.
Qed.

Lemma holds_add_object h d address capacity j (Q : () → jni → Prop) :
  jni_ok j → unused h j → is_Some (class_by_desc_ j !! d) →
  (∀ j', jni_ok j' → grows 0 j j' → array_ok (classes_ j') (objects_ j') h d → strings_ j' = strings_ j →
         (∀ k, arrays k j' = arrays k j) → object_arrays_ j' = object_arrays_ j → next_handle_ j' = next_handle_ j →
         Q () j') →
  holds (add_object h d address capacity) j Q.
Proof.
  intros [HT HA] (Hh & Hc & Ho & _) [x Hx] HQ. unfold add_object, find_class.
  apply holds_bind, holds_get, holds_modify. rewrite Hx. cbn [default].
  destruct (ok_by_desc _ _ _ _ _ _ HT _ _ Hx) as (c & Hcx & Hd).
  apply HQ; try done; [|..|by intros []].
  - split; [apply (tables_object HT); eauto|].
    eapply arrays_mono; [exact HA|by intros []|done| |by apply insert_subseteq]. intros y [e l]. cbn. eauto.
  - split; cbn; try done; [lia|intros y [e l]; eauto|by apply insert_subseteq|intros [] y v Hv; eauto].
  - exists (Object_ x address capacity), c. cbn. by rewrite lookup_insert_eq.
Qed.

(** ** The operations *)

Lemma strings_same m j : jni_ok j → jni_ok (set_strings m j) ∧ grows 0 j (set_strings m j).
Proof. revert j. same_tables. Qed.
Lemma keeps_strings n f : 0 <= n → keeps n (modify (λ j, set_strings (f j) j)).
Proof. apply keeps_modify. intros j. apply strings_same. Qed.
Lemma keeps_raise n r : 0 <= n → keeps n (raise r).
Proof.
  intros Hn. unfold raise. apply (keeps_bind 0 0); [|intros; by apply keeps_ret|lia..].
  apply keeps_modify; [|lia]. same_tables.
Qed.
Lemma keeps_register_class d : keeps 1 (register_class d).
Proof. intros j Hj Hr. by apply holds_register_class. Qed.

(** An object of a class that is made known first. *)
Lemma holds_new_object {A} d address capacity (k : Z → St jni A) (Q : A → jni → Prop) j :
  jni_ok j → room 2 j →
  (∀ h j', jni_ok j' → grows 2 j j' → array_ok (classes_ j') (objects_ j') h d → strings_ j' = strings_ j →
           (∀ k, arrays k j' !! h = None) → object_arrays_ j' !! h = None → next_handle_ j <= h < next_handle_ j' →
           holds (k h) j' Q) →
  holds (_ ← register_class d; h ← alloc_handle; _ ← add_object h d address capacity; k h) j Q.
Proof.
  intros Hj Hr HQ. unfold room in *. apply holds_bind, holds_register_class; [done|unfold room; lia|].
  intros j1 Hj1 G1 Hd1 _ Hs1 _. pose proof (gr_next _ _ _ G1) as N1.
  apply holds_bind, holds_alloc; [done|unfold room; lia|]. intros h j2 Hj2 G2 U2.
  apply holds_bind, holds_add_object; [done|done|exact Hd1|]. intros j3 Hj3 G3 HO Hs3 HA3 HO3 N3.
  destruct Hj2 as [_ HA2]. destruct U2 as (Hh & _ & Ho & _).
  apply HQ; try done.
  - eapply grows_weaken; [eapply grows_trans; [exact G1|eapply grows_trans; [exact G2|exact G3]]|lia].
  - by rewrite Hs3.
  - intros k0. rewrite HA3. destruct (arrays k0 j2 !! h) eqn:E; [|done].
    destruct (ok_array _ HA2 _ _ _ E) as ((o & c & E1 & _) & _). congruence.
  - rewrite HO3. destruct (object_arrays_ j2 !! h) eqn:E; [|done].
    destruct (ok_object_array _ HA2 _ _ E) as ((e & o & c & E1 & _) & _). congruence.
  - rewrite N3. cbn in *. subst h. cbn. lia.
Qed.

Lemma keeps_make_direct_buffer address capacity : keeps 2 (make_direct_buffer address capacity).
Proof. intros j Hj Hr. unfold make_direct_buffer. by apply holds_new_object. Qed.
Lemma keeps_make_string v : keeps 2 (make_string v).
Proof.
  intros j Hj Hr. unfold make_string, room in *.
  apply holds_bind, holds_alloc; [done|unfold room; lia|]. intros h j1 Hj1 G1 U1.
  apply holds_bind, holds_modify, holds_bind. pose proof (gr_next _ _ _ G1) as N1.
  destruct (strings_same (<[h := v]> (strings_ j1)) j1 Hj1) as [Hj1' G1'].
  apply holds_register_class; [done|unfold room; cbn in *; lia|].
  intros j2 Hj2 G2 Hd2 _ _ HU. apply holds_bind, holds_add_object; [done|by apply HU|done|].
  intros j3 Hj3 G3 _ _ _ _ _. apply holds_ret. split; [done|].
  eapply grows_weaken; [eapply grows_trans; [exact G1|eapply grows_trans; [exact G1'|eapply grows_trans; [exact G2|exact G3]]]|lia].
Qed.
Lemma keeps_register_object d : keeps 2 (register_object d).
Proof.
  intros j Hj Hr. unfold register_object, room in *.
  apply holds_bind, holds_register_class; [done|unfold room; lia|]. intros j1 Hj1 G1 Hd1 _ _ _.
  pose proof (gr_next _ _ _ G1) as N1. apply holds_bind, holds_get.
  apply holds_bind, holds_alloc; [done|unfold room; lia|]. intros h j2 Hj2 G2 U2.
  assert (holds (_ ← add_object h d 0 0; mret h) j2 (λ _ j', jni_ok j' ∧ grows 2 j j')) as HQ; [|exact HQ].
  apply holds_bind, holds_add_object; [done|done|exact Hd1|]. intros j3 Hj3 G3 _ _ _ _ _.
  apply holds_ret. split; [done|].
  eapply grows_weaken; [eapply grows_trans; [exact G1|eapply grows_trans; [exact G2|exact G3]]|lia].
Qed.

(** [std::vector<T> v(n, x)] *)
Lemma holds_new_vector w n x (Q : list Z → jni → Prop) j :
  0 <= n → (n * Z.of_nat w < 9223372036854775808 → Q (replicate (Z.to_nat n) x) j) → holds (new_vector w n x) j Q.
Proof.
  intros Hn HQ. unfold new_vector. apply holds_if; [intros; apply holds_throw|].
  intros Hb. apply holds_ret, HQ. apply orb_false_iff in Hb as [Hb _]. by apply Z.leb_gt in Hb.
Qed.
Lemma size_replicate n x : 0 <= n → size (replicate (Z.to_nat n) x) = n.
Proof. intros Hn. unfold size. rewrite length_replicate. lia. Qed.
Lemma arrays_set k k' m j : arrays k (set_arrays k' m j) = if decide (k = k') then m else arrays k j.
Proof. by destruct k, k'. Qed.
(** Other contents of the array of a handle. *)
Lemma arrays_put j k h v :
  jni_ok j → array_ok (classes_ j) (objects_ j) h (array_class k) →
  size v * Z.of_nat (width k) < 9223372036854775808 → Forall (in_word k) v →
  (∀ v0, arrays k j !! h = Some v0 → length v0 = length v) →
  jni_ok (set_arrays k (<[h := v]> (arrays k j)) j) ∧ grows 0 j (set_arrays k (<[h := v]> (arrays k j)) j).
Proof.
  intros [HT [HA HO]] Hh Hs Hw Hl. split.
  - split; [by destruct k|]. split; [|by destruct k]. intros k' x v'. rewrite arrays_set.
    assert (classes_ (set_arrays k (<[h:=v]> (arrays k j)) j) = classes_ j ∧
            objects_ (set_arrays k (<[h:=v]> (arrays k j)) j) = objects_ j) as [-> ->] by by destruct k.
    case_decide as Ek; [subst k'|by apply HA]. rewrite lookup_insert_Some.
    intros [[<- <-]|[_ Hx]]; [done|by apply HA].
  - split; [by destruct k; cbn; lia|by destruct k; intros x [d l]; eauto|by destruct k..|].
    intros k' x v'. rewrite arrays_set. case_decide as Ek; [subst k'|eauto].
    intros Hx. destruct (decide (x = h)) as [->|Hn].
    + exists v. rewrite lookup_insert_eq. split; [done|]. symmetry. by apply Hl.
    + exists v'. by rewrite lookup_insert_ne.
Qed.
Lemma keeps_make_array k n : 0 <= n → keeps 2 (make_array k n).
Proof.
  intros Hn j Hj Hr. unfold make_array. apply holds_new_object; [done..|].
  intros h j1 Hj1 G1 HO _ Hnone _ _. apply holds_bind, holds_new_vector; [done|]. intros Hs.
  apply holds_bind, holds_modify, holds_ret.
  destruct (arrays_put j1 k h (replicate (Z.to_nat n) 0)) as [Hj2 G2]; try done.
  - by rewrite size_replicate.
  - apply Forall_replicate. unfold in_word. lia.
  - intros v0. by rewrite Hnone.
  - split; [done|]. eapply grows_weaken; [eapply grows_trans; [exact G1|exact G2]|lia].
Qed.
Lemma keeps_object_arrays j h v e :
  jni_ok j → array_ok (classes_ j) (objects_ j) h (array_descriptor e) → size v * 8 < 9223372036854775808 →
  jni_ok (set_object_arrays (<[h := v]> (object_arrays_ j)) j) ∧
  grows 0 j (set_object_arrays (<[h := v]> (object_arrays_ j)) j).
Proof.
  intros [HT [HA HO]] Hh Hs. split.
  - split; [done|]. split; [intros [] x v'; [exact (HA Byte x v')|exact (HA Int x v')|exact (HA Long x v')|exact (HA Float x v')]|].
    intros x v'. cbn [object_arrays_ objects_ classes_ set_object_arrays]. rewrite lookup_insert_Some.
    intros [[<- <-]|[_ Hx]]; [split; [by exists e|done]|by apply HO].
  - split; cbn; try done; [lia|intros x [d l]; eauto|intros [] x v' Hv; eauto].
Qed.
Lemma keeps_make_object_array e n x : 0 <= n → keeps 2 (make_object_array e n x).
Proof.
  intros Hn j Hj Hr. unfold make_object_array. apply holds_new_object; [done..|].
  intros h j1 Hj1 G1 HO _ _ _ _. apply holds_bind, holds_new_vector; [done|]. intros Hs.
  apply holds_bind, holds_modify, holds_ret.
  destruct (keeps_object_arrays j1 h (replicate (Z.to_nat n) x) e) as [Hj2 G2]; try done.
  - by rewrite size_replicate.
  - split; [done|]. eapply grows_weaken; [eapply grows_trans; [exact G1|exact G2]|lia].
Qed.
End Ops.

Lemma eq_str_true s t : eq_str s t = true ↔ s = t.
Proof. unfold eq_str. apply bool_decide_eq_true. Qed.

Section Calls.
Context `{!Lib} `{!LibLaws _}.
Implicit Types (j : jni).

(** The loop over the methods or fields finds the entry, whatever the order. *)
Lemma find_member_in cls name sig l :
  match find_member cls name sig l with
  | Some h => (h, Member cls name sig) ∈ l
  | None => ∀ h, (h, Member cls name sig) ∉ l
  end.
Proof.
  induction l as [|[h [c n s]] l IH]; cbn [find_member]; [intros h Hh; by apply not_elem_of_nil in Hh|].
  cbn. destruct ((c =? cls) && eq_str n name && eq_str s sig) eqn:E.
  - apply andb_true_iff in E as [[E1 E2]%andb_true_iff E3].
    apply Z.eqb_eq in E1. apply eq_str_true in E2, E3. subst. left.
  - destruct (find_member cls name sig l); [by right|]. intros x [Hx|Hx]%elem_of_cons; [|by apply (IH x)].
    injection Hx as -> -> -> ->. rewrite Z.eqb_refl in E.
    rewrite (proj2 (eq_str_true n n) eq_refl), (proj2 (eq_str_true s s) eq_refl) in E. done.
Qed.
Lemma find_member_spec cls name sig (ms : gmap Z MemberEntry) :
  match find_member cls name sig (walk ms) with
  | Some h => ms !! h = Some (Member cls name sig)
  | None => ∀ h, ms !! h ≠ Some (Member cls name sig)
  end.
Proof.
  pose proof (find_member_in cls name sig (walk ms)) as Hf.
  assert (∀ x, x ∈ walk ms ↔ ms !! x.1 = Some x.2) as Hw.
  { intros [h m]. rewrite <- elem_of_map_to_list. by rewrite walk_all. }
  destruct (find_member cls name sig (walk ms)) as [h|].
  - by apply Hw in Hf.
  - intros h Hh. apply (Hf h). by apply Hw.
Qed.

Lemma keeps_FindClass a : keeps 1 (jni_FindClass a).
Proof.
  intros j Hj Hr. unfold jni_FindClass. apply holds_bind, holds_get.
  destruct (strings_ j !! arg a 1) as [d|]; [|by apply (keeps_raise 1)].
  apply holds_bind, holds_get. destruct (class_by_desc_ j !! d); [by apply (keeps_ret 1)|].
  apply holds_bind, holds_register_class; [done..|]. intros j1 Hj1 G1 _ _ _ _. by apply holds_get.
Qed.
(** The identifier of a method, and that nothing else changes. *)
Lemma holds_GetMethodID a j :
  jni_ok j → room 1 j →
  holds (jni_GetMethodID a) j (λ h j', jni_ok j' ∧ grows 1 j j' ∧
    (is_Some (classes_ j !! arg a 1) →
     methods_ j' !! h = Some (Member (arg a 1) (default [] (strings_ j !! arg a 2)) (default [] (strings_ j !! arg a 3))))).
Proof.
  intros Hj Hr. unfold jni_GetMethodID. apply holds_bind, holds_get.
  destruct (classes_ j !! arg a 1) as [c|] eqn:Hc.
  2:{ eapply holds_mono; [by apply (keeps_raise 1)|]. intros h j' [? ?]. split_and!; done. }
  do 3 (apply holds_bind, holds_get).
  pose proof (find_member_spec (arg a 1) (default [] (strings_ j !! arg a 2)) (default [] (strings_ j !! arg a 3)) (methods_ j)) as Hf.
  destruct (find_member _ _ _ _) as [h|].
  - apply holds_ret. split_and!; try done. eapply grows_weaken; [apply grows_refl|lia].
  - apply holds_bind, holds_alloc; [done..|]. intros h j1 [HT HA] G1 (Hh & _ & _ & Hm & _).
    apply holds_bind, holds_modify, holds_ret. split_and!.
    + split; [apply (tables_method HT); [done|cbn; by rewrite Hc|exact Hf]|].
      eapply arrays_mono; [exact HA|by intros []|done| |done]. intros x [d l]. cbn. eauto.
    + destruct G1 as [N C B M F O A]. split; try done; [cbn; etrans; [exact M|by apply insert_subseteq]|].
      intros [] x v Hx; eauto.
    + intros _. cbn. by rewrite lookup_insert_eq.
Qed.
Lemma holds_GetFieldID a j :
  jni_ok j → room 1 j →
  holds (jni_GetFieldID a) j (λ h j', jni_ok j' ∧ grows 1 j j' ∧
    (is_Some (classes_ j !! arg a 1) →
     fields_ j' !! h = Some (Member (arg a 1) (default [] (strings_ j !! arg a 2)) (default [] (strings_ j !! arg a 3))))).
Proof.
  intros Hj Hr. unfold jni_GetFieldID. apply holds_bind, holds_get.
  destruct (classes_ j !! arg a 1) as [c|] eqn:Hc.
  2:{ eapply holds_mono; [by apply (keeps_raise 1)|]. intros h j' [? ?]. split_and!; done. }
  do 3 (apply holds_bind, holds_get).
  pose proof (find_member_spec (arg a 1) (default [] (strings_ j !! arg a 2)) (default [] (strings_ j !! arg a 3)) (fields_ j)) as Hf.
  destruct (find_member _ _ _ _) as [h|].
  - apply holds_ret. split_and!; try done. eapply grows_weaken; [apply grows_refl|lia].
  - apply holds_bind, holds_alloc; [done..|]. intros h j1 [HT HA] G1 (Hh & _ & _ & _ & Hm).
    apply holds_bind, holds_modify, holds_ret. split_and!.
    + split; [apply (tables_field HT); [done|cbn; by rewrite Hc|exact Hf]|].
      eapply arrays_mono; [exact HA|by intros []|done| |done]. intros x [d l]. cbn. eauto.
    + destruct G1 as [N C B M F O A]. split; try done; [cbn; etrans; [exact F|by apply insert_subseteq]|].
      intros [] x v Hx; eauto.
    + intros _. cbn. by rewrite lookup_insert_eq.
Qed.

Lemma keeps_GetObjectClass a : keeps 1 (jni_GetObjectClass a).
Proof.
  intros j Hj Hr. unfold jni_GetObjectClass. apply holds_bind, holds_get.
  destruct (objects_ j !! arg a 1); [by apply (keeps_ret 1)|]. apply holds_bind, holds_get.
  destruct (classes_ j !! arg a 1); [|by apply (keeps_raise 1)].
  apply holds_bind, holds_register_class; [done..|]. intros j1 Hj1 G1 _ _ _ _. by apply holds_get.
Qed.
Lemma keeps_CallObjectMethod a : keeps 2 (jni_CallObjectMethod a).
Proof.
  intros j Hj Hr. unfold jni_CallObjectMethod. apply holds_bind, holds_get.
  destruct (methods_ j !! arg a 2); [|by apply (keeps_raise 2)].
  apply holds_if; intros _; [apply holds_bind, holds_get; by apply keeps_make_string|].
  apply holds_if; intros _; [apply holds_bind, holds_get; by apply keeps_make_string|by apply (keeps_raise 2)].
Qed.
Lemma keeps_NewStringUTF a : keeps 2 (jni_NewStringUTF a).
Proof.
  apply (keeps_bind 0 2); [by apply keeps_get| |lia..]. intros s.
  apply (keeps_bind 0 2); [|intros _|lia..].
  - destruct s; [by apply keeps_ret|]. by apply (keeps_strings 0 (λ j, <[arg a 1 := cs "(unresolved)"]> (strings_ j))).
  - apply (keeps_bind 0 2); [by apply keeps_get|intros v; apply keeps_make_string|lia..].
Qed.
Lemma keeps_NewObjectArray a : 0 <= arg a 1 → keeps 2 (jni_NewObjectArray a).
Proof.
  intros Ha. apply (keeps_bind 0 2); [by apply keeps_get|intros c; by apply keeps_make_object_array|lia..].
Qed.
Lemma keeps_GetObjectArrayElement a : 0 <= arg a 2 → keeps 0 (jni_GetObjectArrayElement a).
Proof.
  intros Ha j Hj Hr. unfold jni_GetObjectArrayElement. apply holds_bind, holds_get.
  destruct (object_arrays_ j !! arg a 1) as [v|]; [|by apply (keeps_raise 0)].
  apply holds_if; [intros; by apply (keeps_raise 0)|]. intros Hs. apply Z.leb_gt in Hs.
  destruct (at_Ok v (arg a 2)) as (x & Hx & _); [done|]. unfold holds, pure. rewrite Hx.
  split; [done|apply grows_refl].
Qed.
Lemma keeps_SetObjectArrayElement a : keeps 0 (jni_SetObjectArrayElement a).
Proof.
  intros j Hj Hr. unfold jni_SetObjectArrayElement. apply holds_bind, holds_get.
  destruct (object_arrays_ j !! arg a 1) as [v|] eqn:Hv; [|by apply (keeps_raise 0)].
  apply holds_if; [intros; by apply (keeps_raise 0)|]. intros _.
  apply holds_bind, holds_modify, holds_ret.
  destruct Hj as [HT HA]. destruct (ok_object_array _ HA _ _ Hv) as ((e & He) & Hs).
  apply (keeps_object_arrays _ _ _ e); [done|done|]. unfold size in *. by rewrite length_insert.
Qed.
Lemma keeps_Region k a : keeps 0 (jni_Region k a).
Proof.
  intros j Hj Hr. unfold jni_Region. apply holds_bind, holds_get.
  destruct (arrays k j !! arg a 1) as [v|]; [|by apply (keeps_raise 0)].
  apply holds_if; intros _; [by apply (keeps_raise 0)|by apply (keeps_ret 0)].
Qed.
Lemma keeps_ExceptionOccurred a : keeps 2 (jni_ExceptionOccurred a).
Proof.
  apply (keeps_bind 0 2); [by apply keeps_get|intros []; [by apply keeps_register_object|by apply keeps_ret]|lia..].
Qed.
Lemma keeps_ExceptionClear a : keeps 0 (jni_ExceptionClear a).
Proof. apply (keeps_bind 0 0); [|intros; by apply keeps_ret|lia..]. apply keeps_modify; [same_tables|lia]. Qed.

(** ** Dispatch *)

Lemma case_of_in nr hs f : case_of nr hs = Some f → (nr, f) ∈ hs.
Proof.
  induction hs as [|[n g] hs IH]; [done|]. cbn [case_of]. destruct (Z.eqb_spec n nr) as [->|_].
  - intros [= ->]. left.
  - intros Hf. right. by apply IH.
Qed.
Lemma arg_u64 a i : Forall in_u64 a → in_u64 (arg a i).
Proof.
  intros Ha. unfold arg. destruct (nth_in_or_default i a 0) as [Hin| ->]; [|done].
  eapply Forall_forall; [exact Ha|]. by apply list_elem_of_In.
Qed.
(** Every call keeps the invariant and gives at most two handles. *)
Lemma keeps_handlers a : Forall in_u64 a → Forall (λ c, keeps 2 (c.2 a)) handlers.
Proof.
  intros Ha. pose proof (arg_u64 a 1 Ha) as H1. pose proof (arg_u64 a 2 Ha) as H2. unfold in_u64 in *.
  unfold handlers. repeat apply Forall_cons_2; try apply Forall_nil_2; cbn [snd];
  lazymatch goal with
  | |- keeps _ (jni_FindClass _) => by (eapply keeps_mono; [apply keeps_FindClass|])
  | |- keeps _ (jni_GetMethodID _) =>
      by (intros j Hj Hr; eapply holds_mono; [apply holds_GetMethodID; [done|unfold room in *; lia]|];
          intros h j' (? & ? & _); split; [done|by eapply grows_weaken])
  | |- keeps _ (jni_GetFieldID _) =>
      by (intros j Hj Hr; eapply holds_mono; [apply holds_GetFieldID; [done|unfold room in *; lia]|];
          intros h j' (? & ? & _); split; [done|by eapply grows_weaken])
  | |- keeps _ (jni_GetObjectClass _) => by (eapply keeps_mono; [apply keeps_GetObjectClass|])
  | |- keeps _ (jni_CallObjectMethod _) => apply keeps_CallObjectMethod
  | |- keeps _ (jni_NewStringUTF _) => apply keeps_NewStringUTF
  | |- keeps _ (jni_NewObjectArray _) => apply keeps_NewObjectArray; lia
  | |- keeps _ (jni_GetObjectArrayElement _) =>
      by (eapply keeps_mono; [apply keeps_GetObjectArrayElement; lia|])
  | |- keeps _ (jni_SetObjectArrayElement _) => by (eapply keeps_mono; [apply keeps_SetObjectArrayElement|])
  | |- keeps _ (jni_NewByteArray _) => apply keeps_make_array; lia
  | |- keeps _ (jni_NewIntArray _) => apply keeps_make_array; lia
  | |- keeps _ (jni_NewLongArray _) => apply keeps_make_array; lia
  | |- keeps _ (jni_NewFloatArray _) => apply keeps_make_array; lia
  | |- keeps _ (jni_SetByteArrayRegion _) => by (eapply keeps_mono; [apply (keeps_Region Byte)|])
  | |- keeps _ (jni_GetIntArrayRegion _) => by (eapply keeps_mono; [apply (keeps_Region Int)|])
  | |- keeps _ (jni_SetIntArrayRegion _) => by (eapply keeps_mono; [apply (keeps_Region Int)|])
  | |- keeps _ (jni_GetLongArrayRegion _) => by (eapply keeps_mono; [apply (keeps_Region Long)|])
  | |- keeps _ (jni_SetLongArrayRegion _) => by (eapply keeps_mono; [apply (keeps_Region Long)|])
  | |- keeps _ (jni_GetFloatArrayRegion _) => by (eapply keeps_mono; [apply (keeps_Region Float)|])
  | |- keeps _ (jni_SetFloatArrayRegion _) => by (eapply keeps_mono; [apply (keeps_Region Float)|])
  | |- keeps _ (jni_ExceptionOccurred _) => apply keeps_ExceptionOccurred
  | |- keeps _ (jni_ExceptionClear _) => by (eapply keeps_mono; [apply keeps_ExceptionClear|])
  | |- keeps _ (jni_NewDirectByteBuffer _) => exact (keeps_make_direct_buffer (arg a 1) (arg a 2))
  | |- keeps _ (jni_GetArrayLength _) => by apply keeps_get
  | |- keeps _ (jni_CallVoidMethod _) =>
      apply (keeps_bind 0 0); [by apply keeps_get|intros []; [by apply keeps_ret|by apply keeps_raise]|lia..]
  | |- keeps _ (jni_CallIntMethod _) =>
      apply (keeps_bind 0 0); [by apply keeps_get|intros []; [by apply keeps_ret|by apply keeps_raise]|lia..]
  | |- keeps _ (jni_GetStringUTFChars _) =>
      apply (keeps_bind 0 0); [by apply keeps_get|intros []; by apply keeps_ret|lia..]
  | |- keeps _ (jni_ExceptionCheck _) =>
      apply (keeps_bind 0 0); [by apply keeps_get|intros []; by apply keeps_ret|lia..]
  | |- keeps _ (jni_GetDirectBufferAddress _) =>
      apply (keeps_bind 0 0); [by apply keeps_get|intros []; by apply keeps_ret|lia..]
  | |- keeps _ (jni_GetDirectBufferCapacity _) =>
      apply (keeps_bind 0 0); [by apply keeps_get|intros []; by apply keeps_ret|lia..]
  | |- keeps _ (?f _) => unfold f; by apply keeps_ret
  end.
Qed.
Lemma keeps_dispatch nr a : Forall in_u64 a → keeps 2 (dispatch nr a).
Proof.
  intros Ha. unfold dispatch. destruct (case_of nr handlers) as [f|] eqn:Ef; [|by apply keeps_ret].
  apply case_of_in in Ef. pose proof (keeps_handlers a Ha) as Hf. rewrite Forall_forall in Hf.
  exact (Hf _ Ef).
Qed.
End Calls.

(** ** Natives and contents of arrays *)

Section Host.
Context `{!Lib}.
Implicit Types (j : jni).

Definition native_key (m : NativeMethod) : list Z * list Z := (nm_name m, nm_signature m).
Lemma native_key_eq m name sig :
  eq_str (nm_name m) name && eq_str (nm_signature m) sig = bool_decide (native_key m = (name, sig)).
Proof.
  unfold eq_str, native_key. destruct m as [n s f]; cbn. repeat case_bool_decide; naive_solver.
Qed.
(** Either the list has the key, and keeps its keys, or not. *)
Lemma replace_native_keys name sig fn ms :
  match replace_native name sig fn ms with
  | Some ms' => native_key <$> ms' = native_key <$> ms ∧
                ∀ n s, native_of n s ms' = if decide ((n, s) = (name, sig)) then fn else native_of n s ms
  | None => (name, sig) ∉ native_key <$> ms
  end.
Proof.
  induction ms as [|m ms IH]; cbn [replace_native]; [apply not_elem_of_nil|].
  rewrite native_key_eq. case_bool_decide as E.
  - split; [done|]. intros n s. cbn [native_of]. rewrite !native_key_eq. cbn [nm_fnptr].
    assert (native_key (Native (nm_name m) (nm_signature m) fn) = native_key m) as -> by done. rewrite E.
    case_bool_decide as E1; case_decide as E2; naive_solver.
  - destruct (replace_native name sig fn ms) as [ms'|]; cbn [fmap option_fmap option_map].
    + destruct IH as [H1 H2]. split; [by rewrite !fmap_cons, H1|]. intros n s. cbn [native_of].
      rewrite native_key_eq. case_bool_decide as E1; [|apply H2]. case_decide; [congruence|done].
    + rewrite fmap_cons. intros [Hin|Hin]%elem_of_cons; [congruence|done].
Qed.
(** The natives of a class after one more is registered. *)
Definition with_native (name sig : list Z) (fn : Z) (ms : list NativeMethod) : list NativeMethod :=
  match replace_native name sig fn ms with Some ms' => ms' | None => ms ++ [Native name sig fn] end.
Lemma native_of_app n s ms m :
  native_key m ∉ native_key <$> ms →
  native_of n s (ms ++ [m]) = if decide ((n, s) = native_key m) then nm_fnptr m else native_of n s ms.
Proof.
  intros Hm. induction ms as [|x ms IH]; cbn [app native_of].
  - rewrite native_key_eq. case_bool_decide; case_decide; congruence.
  - rewrite fmap_cons, not_elem_of_cons in Hm. destruct Hm as [Hx Hm].
    rewrite native_key_eq. case_bool_decide as E; [|by apply IH]. case_decide; [congruence|done].
Qed.
Lemma native_of_with name sig fn ms n s :
  native_of n s (with_native name sig fn ms) = if decide ((n, s) = (name, sig)) then fn else native_of n s ms.
Proof.
  unfold with_native. pose proof (replace_native_keys name sig fn ms) as Hr.
  destruct (replace_native name sig fn ms) as [ms'|]; [apply Hr|]. by rewrite native_of_app.
Qed.
Lemma with_native_keys name sig fn ms : NoDup (native_key <$> ms) → NoDup (native_key <$> with_native name sig fn ms).
Proof.
  intros Hd. unfold with_native. pose proof (replace_native_keys name sig fn ms) as Hr.
  destruct (replace_native name sig fn ms) as [ms'|]; [by destruct Hr as [-> _]|].
  rewrite fmap_app. apply NoDup_app. split_and!; [done| |apply NoDup_singleton].
  intros x Hx. rewrite list_fmap_singleton, list_elem_of_singleton. by intros ->.
Qed.

(** What is registered is found; nothing else changes. *)
Lemma holds_register_native h name sig fn j :
  jni_ok j →
  holds (register_native h name sig fn) j (λ _ j', jni_ok j' ∧ grows 0 j j' ∧
    ∀ h' n s, find_native h' n s j' =
      if decide (h' = h ∧ (n, s) = (name, sig) ∧ is_Some (classes_ j !! h)) then fn else find_native h' n s j).
Proof.
  intros [HT HA]. unfold register_native. apply holds_bind, holds_get.
  destruct (classes_ j !! h) as [c|] eqn:Hc.
  - apply holds_modify. fold (with_native name sig fn (jc_methods c)). split_and!.
    + split; [apply (tables_natives HT); [done|apply with_native_keys; by eapply ok_natives]|].
      eapply arrays_mono; [exact HA|by intros []|done| |done]. intros x [d l] Hx.
      cbn [classes_ set_classes]. destruct (decide (x = h)) as [->|Hn].
      * rewrite lookup_insert_eq. assert (c = Class_ d l) as -> by congruence. by eexists.
      * rewrite lookup_insert_ne by done. by eexists.
    + split; cbn; try done; [lia| |intros [] x v Hv; eauto]. intros x [d l] Hx.
      destruct (decide (x = h)) as [->|Hn].
      * rewrite lookup_insert_eq. assert (c = Class_ d l) as -> by congruence. by eexists.
      * rewrite lookup_insert_ne by done. by eexists.
    + intros h' n s. unfold find_native. cbn [classes_ set_classes].
      destruct (decide (h' = h)) as [->|Hn].
      * rewrite lookup_insert_eq, Hc. cbn [jc_methods]. rewrite native_of_with.
        repeat case_decide; naive_solver.
      * rewrite lookup_insert_ne by done. case_decide; naive_solver.
  - apply holds_ret. split_and!; [done|apply grows_refl|]. intros h' n s. case_decide as E; [|done].
    destruct E as (_ & _ & [? ?]). done.
Qed.

(** Writing a part of an array, in bounds. *)
Definition overwrite (v : list Z) (start : Z) (src : list Z) : list Z :=
  take (Z.to_nat start) v ++ src ++ drop (Z.to_nat (start + size src)) v.
Lemma length_overwrite v start src :
  0 <= start → start + size src <= size v → length (overwrite v start src) = length v.
Proof. unfold overwrite, size. intros H1 H2. rewrite !length_app, length_take, length_drop. lia. Qed.
Lemma holds_set_array_region k h start src j :
  jni_ok j → 0 <= start → start + size src < 18446744073709551616 → Forall (in_word k) src →
  holds (set_array_region k h start src (size src)) j (λ _ j', jni_ok j' ∧ grows 0 j j' ∧ strings_ j' = strings_ j ∧
    ∀ v, arrays k j !! h = Some v → start + size src <= size v →
      arrays k j' !! h = Some (overwrite v start src)).
Proof.
  intros Hj Hs Hw Hf. pose proof Hj as [_ HA]. unfold set_array_region. apply holds_bind, holds_get.
  destruct (arrays k j !! h) as [v|] eqn:Hv.
  2:{ apply holds_ret. split_and!; [done|apply grows_refl|done|done]. }
  rewrite (u64_small (start + size src)) by (unfold in_u64; pose proof (size_nonneg src); lia).
  apply holds_if; intros Hb.
  { apply Z.ltb_lt in Hb. apply holds_ret. split_and!; [done|apply grows_refl|done|]. intros v' [= ->]. lia. }
  rewrite Hb. apply Z.ltb_ge in Hb. apply holds_modify.
  assert (take (Z.to_nat (size src)) src = src) as -> by (apply take_ge; unfold size; lia).
  fold (overwrite v start src). destruct (ok_array _ HA _ _ _ Hv) as (Ha & Hz & Hin).
  destruct (arrays_put j k h (overwrite v start src)) as [H1 H2]; [done|done|..].
  - unfold size in *. by rewrite length_overwrite.
  - unfold overwrite. rewrite !Forall_app. split_and!; [by apply Forall_take|done|by apply Forall_drop].
  - intros v0. rewrite Hv. intros [= ->]. by rewrite length_overwrite.
  - split_and!; [done|done|by destruct k|]. intros v' [= ->] _.
    rewrite arrays_set. rewrite decide_True by done. by rewrite lookup_insert_eq.
Qed.
End Host.
