(* ===== verification/JniBridgeProps.v ===== *)
(** * The JNI bridge: safety of every call

    Whatever the guest calls with whatever arguments, the host stays inside of
    its objects and keeps the invariant of the environment, as long as the
    start and the length of a region do not wrap around 64 bits when added;
    when they do, the host reads or writes outside of an array. *)

From S2P Require Import Prelude Decimal Cxx GuestMem JniEnv JniBridge JniProps.

Lemma bytes_replicate n : bytes (replicate n 0).
Proof. apply Forall_replicate. unfold in_u8. lia. Qed.
Lemma bytes_word_bytes w ws : bytes (word_bytes w ws).
Proof.
  unfold word_bytes. apply Forall_concat. apply Forall_fmap, Forall_true. intros x. apply le_split_bytes.
Qed.
Lemma words_in k count bs : bytes bs → length bs = (width k * count)%nat → Forall (in_word k) (words_of (width k) count bs).
Proof. intros Hb Hl. apply words_of_range; [done|]. lia. Qed.
Lemma c_string_ends buf : 0 ∈ buf → ∃ s, c_string buf = Ok s.
Proof.
  induction buf as [|b buf IH]; [by intros ?%not_elem_of_nil|]. cbn [c_string].
  destruct (Z.eqb_spec b 0) as [->|Hb]; [by exists []|]. intros [Hi|Hi]%elem_of_cons; [congruence|].
  destruct (IH Hi) as [s ->]. by exists (b :: s).
Qed.

Section Safe.
Context `{G : Guest} `{!GuestLaws G} `{L : Lib} `{!LibLaws L}.
Variables (stub_base_gpa_ : Z).
Implicit Types (b : bridge).

(** What a method of the bridge does to a bridge whose environment is good and
    has room for [n] handles. *)
Definition keeps_b {A} (n : Z) (m : St bridge A) : Prop :=
  ∀ b, jni_ok (br_env b) → room n (br_env b) →
       holds m b (λ _ b', jni_ok (br_env b') ∧ grows n (br_env b) (br_env b')).

Lemma keeps_b_bind {A B} n m p (x : St bridge A) (f : A → St bridge B) :
  keeps_b n x → (∀ a, keeps_b m (f a)) → n + m <= p → 0 <= n → 0 <= m → keeps_b p (x ≫= f).
Proof.
  intros Hx Hf Hp Hn Hm b Hb Hr. apply holds_bind. eapply holds_mono; [apply Hx; [done|unfold room in *; lia]|].
  intros a b1 [Hb1 G1]. eapply holds_mono; [apply Hf; [done|]|].
  - unfold room in *. pose proof (gr_next _ _ _ G1). lia.
  - intros c b2 [Hb2 G2]. split; [done|]. eapply grows_weaken; [by eapply grows_trans|done].
Qed.
Lemma keeps_b_ret {A} n (a : A) : 0 <= n → keeps_b n (mret a).
Proof. intros Hn b Hb _. split; [done|]. by eapply grows_weaken; [apply grows_refl|]. Qed.
Lemma keeps_b_get {A} n (f : bridge → A) : 0 <= n → keeps_b n (get f).
Proof. intros Hn b Hb _. split; [done|]. by eapply grows_weaken; [apply grows_refl|]. Qed.
Lemma keeps_b_modify n f : (∀ b, br_env (f b) = br_env b) → 0 <= n → keeps_b n (modify f).
Proof.
  intros Hf Hn b Hb _. apply holds_modify. rewrite Hf. split; [done|]. by eapply grows_weaken; [apply grows_refl|].
Qed.
Lemma keeps_b_env {A} n (m : St jni A) : keeps n m → keeps_b n (env m).
Proof. intros Hm b Hb Hr. apply holds_member. eapply holds_mono; [by apply Hm|]. done. Qed.
Lemma keeps_b_mono {A} n m (x : St bridge A) : keeps_b n x → n <= m → keeps_b m x.
Proof.
  intros Hx Hn b Hb Hr. eapply holds_mono; [apply Hx; [done|unfold room in *; lia]|].
  intros a b' [Hb' Gr]. split; [done|]. by eapply grows_weaken.
Qed.
Lemma keeps_b_when n c m : (c = true → keeps_b n m) → 0 <= n → keeps_b n (when c m).
Proof. intros Hm Hn. destruct c; [by apply Hm|by apply keeps_b_ret]. Qed.
Lemma keeps_b_each {A} (f : A → St bridge ()) l : (∀ x, x ∈ l → keeps_b 0 (f x)) → keeps_b 0 (each f l).
Proof.
  induction l as [|x l IH]; intros Hf; [by apply keeps_b_ret|]. cbn [each].
  apply (keeps_b_bind 0 0); [apply Hf; left|intros _; apply IH; intros y Hy; apply Hf; by right|lia..].
Qed.
Lemma keeps_b_put n gpa bs : 0 <= n → keeps_b n (put gpa bs).
Proof. by apply keeps_b_modify. Qed.
(** Bytes that are read are bytes, and as many as were asked for. *)
Lemma keeps_b_fetch {A} n gpa buf (f : bool * list Z → St bridge A) :
  bytes buf → 0 <= n →
  (∀ r, bytes r.2 → length r.2 = length buf → keeps_b n (f r)) → keeps_b n (fetch gpa buf ≫= f).
Proof.
  intros Hbuf Hn Hf b Hb Hr. apply holds_bind, holds_get. apply Hf; [by apply read_bytes|apply read_length|done|done].
Qed.
Lemma keeps_b_read_str gpa : keeps_b 0 (read_str gpa).
Proof.
  intros b Hb Hr. unfold read_str. apply holds_bind, holds_get. unfold holds, pure.
  destruct (c_string_ends (guest_read_str (br_guest b) gpa (replicate 512 0))) as [s ->]; [by apply read_str_ends|].
  split; [done|apply grows_refl].
Qed.
Lemma keeps_b_new_vector {A} k m n x (f : list Z → St bridge A) :
  0 <= n → 0 <= m → keeps_b m (f (replicate (Z.to_nat n) x)) → keeps_b m (env (new_vector (width k) n x) ≫= f).
Proof.
  intros Hn Hm Hf b Hb Hr. apply holds_bind, holds_member, holds_new_vector; [done|]. intros _.
  destruct b as [g j c1 c2]. apply Hf; done.
Qed.

(** ** Reading from the guest *)

Lemma keeps_b_intern_char_arg gpa : keeps_b 0 (intern_char_arg gpa).
Proof.
  unfold intern_char_arg. destruct (gpa =? 0); [by apply keeps_b_ret|].
  apply (keeps_b_bind 0 0); [apply keeps_b_read_str| |lia..]. intros s. apply keeps_b_env.
  by apply (keeps_strings 0 (λ j, <[gpa := s]> (strings_ j))).
Qed.
Lemma keeps_b_intern_args nr regs : keeps_b 0 (intern_args nr regs).
Proof.
  unfold intern_args. repeat case_match; try apply keeps_b_intern_char_arg; [|by apply keeps_b_ret].
  apply (keeps_b_bind 0 0); [apply keeps_b_intern_char_arg|intros _; apply keeps_b_intern_char_arg|lia..].
Qed.
Lemma keeps_b_register_entry cls gpa : keeps_b 0 (register_entry cls gpa).
Proof.
  assert (∀ a, keeps_b 0 (read_member a)) as Hm.
  { intros a. unfold read_member. apply keeps_b_fetch; [apply le_split_bytes|lia|]. intros r _ _.
    unfold rebase_if_needed. apply (keeps_b_bind 0 0); [by apply keeps_b_get|intros m; by apply keeps_b_ret|lia..]. }
  unfold register_entry.
  do 3 (apply (keeps_b_bind 0 0); [apply Hm|intros ?|lia..]).
  do 2 (apply (keeps_b_bind 0 0); [apply keeps_b_read_str|intros ?|lia..]).
  apply keeps_b_env. intros j Hj _. eapply holds_mono; [by apply holds_register_native|]. intros ? ? (? & ? & _). done.
Qed.
Lemma keeps_b_register_natives cls gpa n : keeps_b 0 (register_natives_from_guest cls gpa n).
Proof. apply keeps_b_each. intros i _. apply keeps_b_register_entry. Qed.

(** ** Arrays *)

Lemma keeps_b_set k h start src len :
  len = size src → 0 <= start → start + len < 18446744073709551616 → Forall (in_word k) src →
  keeps_b 0 (env (set_array_region k h start src len)).
Proof.
  intros -> Hs Hw Hf. apply keeps_b_env. intros j Hj _.
  eapply holds_mono; [by apply holds_set_array_region|]. intros ? ? (? & ? & _). done.
Qed.
Lemma keeps_b_materialize_array k h : keeps_b 0 (materialize_array stub_base_gpa_ k h).
Proof.
  apply (keeps_b_bind 0 0); [by apply keeps_b_get| |lia..]. intros [v|]; [|by apply keeps_b_ret].
  unfold write_scratch_bytes. case_match; [by apply keeps_b_ret|].
  apply (keeps_b_bind 0 0); [by apply keeps_b_get|intros bump|lia..].
  apply (keeps_b_bind 0 0); [apply keeps_b_when; [intros _; by apply keeps_b_put|lia]|intros _|lia..].
  apply (keeps_b_bind 0 0); [by apply keeps_b_modify|intros _; by apply keeps_b_ret|lia..].
Qed.
Lemma keeps_b_materialize_string h : keeps_b 0 (materialize_string_chars stub_base_gpa_ h).
Proof.
  apply (keeps_b_bind 0 0); [by apply keeps_b_get| |lia..]. intros [v|]; [|by apply keeps_b_ret].
  apply (keeps_b_bind 0 0); [by apply keeps_b_get|intros bump|lia..].
  apply (keeps_b_bind 0 0); [|intros tmp|lia..].
  { intros b Hb _. unfold holds, pure, substr. destruct (Z.ltb_spec (size v) 0) as [Hs|_].
    - pose proof (size_nonneg v). lia.
    - split; [done|apply grows_refl]. }
  apply (keeps_b_bind 0 0); [by apply keeps_b_put|intros _|lia..].
  apply (keeps_b_bind 0 0); [by apply keeps_b_modify|intros _; by apply keeps_b_ret|lia..].
Qed.
Lemma length_fetched k n (r : list Z) :
  0 <= n → length r = length (word_bytes (width k) (replicate (Z.to_nat n) 0)) →
  length r = (width k * Z.to_nat n)%nat.
Proof. intros Hn ->. by rewrite length_word_bytes, length_replicate. Qed.
Lemma size_words_of k n (r : list Z) : 0 <= n → size (words_of (width k) (Z.to_nat n) r) = n.
Proof. intros Hn. unfold size. rewrite length_words_of. lia. Qed.

Lemma keeps_b_set_bytes regs :
  Forall in_u64 regs → arg regs 2 + arg regs 3 < 18446744073709551616 → keeps_b 0 (set_bytes regs).
Proof.
  intros Hr Hw. pose proof (arg_u64 regs 2 Hr) as H2. pose proof (arg_u64 regs 3 Hr) as H3. unfold in_u64 in *.
  unfold set_bytes. apply keeps_b_when; [|lia]. intros _.
  apply (keeps_b_new_vector Byte); [lia..|]. apply keeps_b_fetch; [apply bytes_replicate|lia|].
  intros r Hb Hl. apply keeps_b_when; [|lia]. intros _. rewrite length_replicate in Hl.
  apply keeps_b_set; [unfold size; rewrite Hl; lia|lia|lia|].
  eapply Forall_impl; [exact Hb|]. intros x Hx. unfold in_word, in_u8 in *. cbn. lia.
Qed.
Lemma keeps_b_release k regs : Forall in_u64 regs → keeps_b 0 (release k regs).
Proof.
  intros Hr b Hb Hroom. unfold release, when. apply holds_if; [|intros _; by apply (keeps_b_ret 0)]. intros _.
  apply holds_bind, holds_get. unfold get_array. destruct (arrays k (br_env b) !! arg regs 1) as [v|] eqn:Hv; [|by apply (keeps_b_ret 0)].
  pose proof Hb as [_ HA]. destruct (ok_array _ HA _ _ _ Hv) as (_ & Hs & _).
  pose proof (size_nonneg v) as Hn.
  apply (keeps_b_new_vector k 0 (size v) 0); [done|lia| |done|done].
  case_bool_decide; [by apply keeps_b_ret|]. apply keeps_b_fetch; [apply bytes_word_bytes|lia|].
  intros r Hrb Hl. apply keeps_b_when; [|lia]. intros _. apply length_fetched in Hl; [|done].
  replace (length v) with (Z.to_nat (size v)) by (unfold size; lia).
  apply keeps_b_set; [by rewrite size_words_of|lia| |by apply words_in].
  destruct k; cbn in Hs; lia.
Qed.
Lemma keeps_b_get_region k regs ret :
  arg regs 2 + arg regs 3 < 18446744073709551616 → Forall in_u64 regs → keeps_b 0 (get_region k regs ret).
Proof.
  intros Hw Hr. pose proof (arg_u64 regs 2 Hr) as H2. pose proof (arg_u64 regs 3 Hr) as H3. unfold in_u64 in *.
  unfold get_region. apply keeps_b_when; [|lia]. intros _.
  apply (keeps_b_bind 0 0); [by apply keeps_b_get| |lia..]. intros [v|]; [|by apply keeps_b_ret].
  rewrite (u64_small (arg regs 2 + arg regs 3)) by (unfold in_u64; lia).
  destruct (size v <? _) eqn:E; [by apply keeps_b_ret|]. rewrite ?E. by apply keeps_b_put.
Qed.
Lemma keeps_b_set_region k regs ret :
  arg regs 2 + arg regs 3 < 18446744073709551616 → Forall in_u64 regs → keeps_b 0 (set_region k regs ret).
Proof.
  intros Hw Hr. pose proof (arg_u64 regs 2 Hr) as H2. pose proof (arg_u64 regs 3 Hr) as H3. unfold in_u64 in *.
  unfold set_region. apply keeps_b_when; [|lia]. intros _.
  apply keeps_b_new_vector; [lia..|]. case_bool_decide; [by apply keeps_b_ret|].
  apply keeps_b_fetch; [apply bytes_word_bytes|lia|]. intros r Hrb Hl. apply keeps_b_when; [|lia]. intros _.
  apply length_fetched in Hl; [|lia]. rewrite length_replicate.
  apply keeps_b_set; [rewrite size_words_of; lia|lia|lia|by apply words_in].
Qed.

(** ** All calls *)

(** A call whose registers are words, and whose region does not wrap. *)
Definition no_wrap (call_nr : Z) (regs : list Z) : Prop :=
  match array_call_of call_nr with
  | Some (GetRegion, _) | Some (SetRegion, _) => arg regs 2 + arg regs 3 < 18446744073709551616
  | _ => True
  end.
Lemma keeps_b_handle_hvc nr regs :
  Forall in_u64 regs → no_wrap nr regs → keeps_b 2 (handle_hvc stub_base_gpa_ nr regs).
Proof.
  intros Hr Hw. unfold handle_hvc. apply (keeps_b_bind 0 2); [apply keeps_b_intern_args|intros _|lia..].
  apply (keeps_b_bind 2 0); [by apply keeps_b_env, keeps_dispatch|intros ret|lia..].
  destruct (nr =? JNI_GetStringUTFChars).
  { apply (keeps_b_bind 0 0); [|intros _; apply keeps_b_materialize_string|lia..].
    apply keeps_b_when; [intros _; by apply keeps_b_put|lia]. }
  destruct (nr =? JNI_RegisterNatives).
  { apply (keeps_b_bind 0 0); [apply keeps_b_register_natives|intros _; by apply keeps_b_ret|lia..]. }
  unfold no_wrap in Hw. destruct (array_call_of nr) as [[[] k]|]; [| | | |by apply keeps_b_ret].
  - apply (keeps_b_bind 0 0); [|intros _; apply keeps_b_materialize_array|lia..].
    apply keeps_b_when; [intros _; by apply keeps_b_put|lia].
  - apply (keeps_b_bind 0 0); [by apply keeps_b_release|intros _; by apply keeps_b_ret|lia..].
  - apply (keeps_b_bind 0 0); [by apply keeps_b_get_region|intros _; by apply keeps_b_ret|lia..].
  - destruct k.
    1: apply (keeps_b_bind 0 0); [by apply keeps_b_set_bytes|intros _; by apply keeps_b_ret|lia..].
    all: apply (keeps_b_bind 0 0); [by apply keeps_b_set_region|intros _; by apply keeps_b_ret|lia..].
Qed.

(** The calls of a guest, one after the other. *)
Definition hvcs (l : list (Z * list Z)) : St bridge () :=
  each (λ c, _ ← handle_hvc stub_base_gpa_ c.1 c.2; mret ()) l.
Lemma keeps_b_hvcs l :
  Forall (λ c, Forall in_u64 c.2 ∧ no_wrap c.1 c.2) l → keeps_b (2 * Z.of_nat (length l)) (hvcs l).
Proof.
  unfold hvcs. induction l as [|c l IH]; intros Hl; [by apply keeps_b_ret|].
  apply Forall_cons in Hl as [[Hr Hw] Hl]. cbn [each length].
  apply (keeps_b_bind 2 (2 * Z.of_nat (length l))); [|intros _; by apply IH|lia..].
  apply (keeps_b_bind 2 0); [by apply keeps_b_handle_hvc|intros _; by apply keeps_b_ret|lia..].
Qed.

Lemma new_env_ok : jni_ok new_env.
Proof.
  split.
  - split; try (intros; rewrite ?lookup_empty in *; congruence); try (unfold first_handle; lia).
    all: cbn; intros *; rewrite ?lookup_empty; intros [=].
  - split; [intros [] h v|intros h v]; cbn; rewrite lookup_empty; intros [=].
Qed.

(** C6. *)
Theorem jni_calls_safe l b :
  jni_ok (br_env b) → room (2 * Z.of_nat (length l)) (br_env b) →
  Forall (λ c, Forall in_u64 c.2 ∧ no_wrap c.1 c.2) l →
  holds (hvcs l) b (λ _ b', jni_ok (br_env b') ∧ grows (2 * Z.of_nat (length l)) (br_env b) (br_env b')).
Proof. intros Hb Hr Hl. by apply keeps_b_hvcs. Qed.
End Safe.
