(* ===== verification/JniArrays.v ===== *)
(** * The JNI bridge: arrays and strings

    Elements and regions of arrays, and strings, arrive as they were written,
    in both directions; what happens when the bounds of a region wrap, and
    when two arrays are lent out at once. *)

From S2P Require Import Prelude Decimal Cxx GuestMem JniEnv JniBridge JniProps JniBridgeProps.

(** The calls of a kind. *)
Definition set_nr (k : kind) : Z :=
  match k with Byte => JNI_SetByteArrayRegion | Int => JNI_SetIntArrayRegion
          | Long => JNI_SetLongArrayRegion | Float => JNI_SetFloatArrayRegion end.
Definition get_nr (k : kind) : option Z :=
  match k with Byte => None | Int => Some JNI_GetIntArrayRegion
          | Long => Some JNI_GetLongArrayRegion | Float => Some JNI_GetFloatArrayRegion end.
Definition elements_nr (k : kind) : Z :=
  match k with Byte => JNI_GetByteArrayElements | Int => JNI_GetIntArrayElements
          | Long => JNI_GetLongArrayElements | Float => JNI_GetFloatArrayElements end.
Definition release_nr (k : kind) : Z :=
  match k with Byte => JNI_ReleaseByteArrayElements | Int => JNI_ReleaseIntArrayElements
          | Long => JNI_ReleaseLongArrayElements | Float => JNI_ReleaseFloatArrayElements end.

Section Regions.
Context `{G : Guest} `{!GuestLaws G} `{L : Lib} `{!LibLaws L}.
Variables (stub_base_gpa_ : Z).
Implicit Types (b : bridge) (k : kind).
Abbreviation hvc := (handle_hvc stub_base_gpa_).

(** The calls, by kind. *)
Lemma hvc_set k regs b :
  hvc (set_nr k) regs b =
  (ret ← env (jni_Region k regs);
   _ ← match k with Byte => set_bytes regs | _ => set_region k regs ret end; mret ret) b.
Proof. by destruct k. Qed.
Lemma hvc_get k nr regs b :
  get_nr k = Some nr → hvc nr regs b = (ret ← env (jni_Region k regs); _ ← get_region k regs ret; mret ret) b.
Proof. by destruct k; intros [= <-]. Qed.
Lemma hvc_elements k regs b :
  hvc (elements_nr k) regs b = elements stub_base_gpa_ k regs (arg regs 1) b.
Proof. by destruct k, b. Qed.
Lemma hvc_release k regs b :
  hvc (release_nr k) regs b = (_ ← release k regs; mret 0) b.
Proof. by destruct k, b. Qed.

(** ** Steps *)

Lemma new_vector_run w n x (j : jni) :
  n * Z.of_nat w < 9223372036854775808 → alloc_ok (n * Z.of_nat w) = true →
  new_vector w n x j = Ok (replicate (Z.to_nat n) x, j).
Proof.
  intros Hn Ha. unfold new_vector. rewrite Ha. destruct (Z.leb_spec 9223372036854775808 (n * Z.of_nat w)); [lia|done].
Qed.
Lemma env_run {A} (m : St jni A) b a j : m (br_env b) = Ok (a, j) → env m b = Ok (a, set_env j b).
Proof. intros Hm. unfold env, member. by rewrite Hm. Qed.
Lemma set_env_id b : set_env (br_env b) b = b.
Proof. by destruct b. Qed.
Lemma region_run k regs (j : jni) v :
  arrays k j !! arg regs 1 = Some v → u64 (arg regs 2 + arg regs 3) <= size v → jni_Region k regs j = Ok (0, j).
Proof.
  intros Hv Hs. unfold jni_Region. rewrite (bind_run _ _ _ _ _ eq_refl), Hv.
  by destruct (Z.ltb_spec (size v) (u64 (arg regs 2 + arg regs 3))); [lia|].
Qed.
(** The bytes of a vector of words. *)
Lemma fetch_run b gpa buf bs :
  (∀ x, gpa <= x < gpa + size buf → mapped (br_guest b) x = true) → length bs = length buf →
  holds_at (byte (br_guest b)) gpa bs → fetch gpa buf b = Ok ((true, bs), b).
Proof. intros Hm Hl Hb. unfold fetch, get. by rewrite (read_exact _ _ _ bs). Qed.
Lemma word_bytes_nil k n : 0 < n → word_bytes (width k) (replicate (Z.to_nat n) 0) ≠ [].
Proof.
  intros Hn He. apply (f_equal length) in He. rewrite length_word_bytes, length_replicate in He.
  destruct k; cbn in He; lia.
Qed.
Lemma size_word_bytes k n : 0 <= n → size (word_bytes (width k) (replicate (Z.to_nat n) 0)) = n * Z.of_nat (width k).
Proof. intros Hn. unfold size. rewrite length_word_bytes, length_replicate. lia. Qed.

Lemma words_of_1 bs : bytes bs → words_of 1 (length bs) bs = bs.
Proof.
  intros Hb. induction Hb as [|x l Hx Hl IH]; [done|]. cbn [length words_of take drop].
  rewrite take_0, drop_0, IH. f_equal. cbn. unfold in_u8 in Hx. lia.
Qed.

(** What the bridge does with the data, for the bytes as for the others. *)
Section SetData.
Context (k : kind) (regs bs : list Z) (b : bridge).
Context (Hn : 0 < arg regs 3) (Hp : arg regs 4 ≠ 0).
Context (Hs : arg regs 3 * Z.of_nat (width k) < 9223372036854775808).
Context (Ha : alloc_ok (arg regs 3 * Z.of_nat (width k)) = true).
Context (Hm : ∀ x, arg regs 4 <= x < arg regs 4 + arg regs 3 * Z.of_nat (width k) → mapped (br_guest b) x = true).
Context (Hl : size bs = arg regs 3 * Z.of_nat (width k)) (Hb : bytes bs).
Context (Hbs : holds_at (byte (br_guest b)) (arg regs 4) bs).

Lemma tmp_run : env (new_vector (width k) (arg regs 3) 0) b = Ok (replicate (Z.to_nat (arg regs 3)) 0, b).
Proof. rewrite (env_run _ _ _ _ (new_vector_run _ _ _ _ Hs Ha)). by rewrite set_env_id. Qed.
Lemma set_region_run :
  set_region k regs 0 b =
  env (set_array_region k (arg regs 1) (arg regs 2) (words_of (width k) (Z.to_nat (arg regs 3)) bs) (arg regs 3)) b.
Proof.
  assert (fetch (arg regs 4) (word_bytes (width k) (replicate (Z.to_nat (arg regs 3)) 0)) b = Ok ((true, bs), b)) as Hf.
  { apply fetch_run; [|by pose proof (size_word_bytes k (arg regs 3)); unfold size in *; lia|done].
    rewrite size_word_bytes by lia. done. }
  unfold set_region. rewrite (proj2 (negb_true_iff _) (proj2 (Z.eqb_neq _ _) Hp)). cbn [andb when Z.eqb].
  rewrite (bind_run _ _ _ _ _ tmp_run), bool_decide_eq_false_2 by by apply word_bytes_nil.
  rewrite (bind_run _ _ _ _ _ Hf). by rewrite length_replicate.
Qed.
Lemma set_bytes_run :
  k = Byte →
  set_bytes regs b =
  env (set_array_region k (arg regs 1) (arg regs 2) (words_of (width k) (Z.to_nat (arg regs 3)) bs) (arg regs 3)) b.
Proof.
  intros E. pose proof tmp_run as Ht. subst k. cbn [width] in *.
  assert (fetch (arg regs 4) (replicate (Z.to_nat (arg regs 3)) 0) b = Ok ((true, bs), b)) as Hf.
  { apply fetch_run; [|by rewrite length_replicate; unfold size in *; lia|done].
    rewrite size_replicate by lia. intros x Hx. apply Hm. lia. }
  unfold set_bytes. rewrite (proj2 (negb_true_iff _) (proj2 (Z.eqb_neq _ _) Hp)), (proj2 (Z.ltb_lt 0 (arg regs 3)) Hn).
  cbn [andb when]. rewrite (bind_run _ _ _ _ _ Ht), (bind_run _ _ _ _ _ Hf). cbn [fst snd].
  replace (Z.to_nat (arg regs 3)) with (length bs) by (unfold size in Hl; lia). by rewrite words_of_1.
Qed.
Lemma set_data_run :
  match k with Byte => set_bytes regs | _ => set_region k regs 0 end b =
  env (set_array_region k (arg regs 1) (arg regs 2) (words_of (width k) (Z.to_nat (arg regs 3)) bs) (arg regs 3)) b.
Proof. pose proof set_bytes_run. pose proof set_region_run. destruct k; auto. Qed.

(** The whole call. *)
Lemma hvc_set_run v :
  arrays k (br_env b) !! arg regs 1 = Some v → u64 (arg regs 2 + arg regs 3) <= size v →
  hvc (set_nr k) regs b =
  (_ ← env (set_array_region k (arg regs 1) (arg regs 2) (words_of (width k) (Z.to_nat (arg regs 3)) bs) (arg regs 3));
   mret 0) b.
Proof.
  intros Hv Hu. rewrite hvc_set. rewrite (bind_run _ _ b 0 b); [|by rewrite (env_run _ _ _ _ (region_run k regs _ v Hv Hu)), set_env_id].
  unfold mbind, St_bind. rewrite <- set_data_run. by destruct k.
Qed.
End SetData.

(** ** Regions *)

(** The registers of a call on a region. *)
Definition region_regs (h start len buf : Z) : list Z := [0; h; start; len; buf; 0; 0; 0].

Lemma set_array_region_run k h start src (j : jni) v :
  arrays k j !! h = Some v → 0 <= start → start + size src <= size v → size v < 18446744073709551616 →
  set_array_region k h start src (size src) j =
  Ok ((), set_arrays k (<[h := overwrite v start src]> (arrays k j)) j).
Proof.
  intros Hv Hs Hb Hz. unfold set_array_region. rewrite (bind_run _ _ _ _ _ eq_refl), Hv.
  rewrite u64_small by (unfold in_u64; pose proof (size_nonneg src); lia).
  destruct (Z.ltb_spec (size v) (start + size src)); [lia|]. unfold overwrite.
  by replace (take (Z.to_nat (size src)) src) with src by (symmetry; apply take_ge; unfold size; lia).
Qed.
Lemma set_array_region_wraps k h start src len (j : jni) v :
  arrays k j !! h = Some v → u64 (start + len) <= size v → size v < start + len →
  set_array_region k h start src len j = Stray.
Proof.
  intros Hv Hu Hs. unfold set_array_region. rewrite (bind_run _ _ _ _ _ eq_refl), Hv.
  destruct (Z.ltb_spec (size v) (u64 (start + len))); [lia|].
  by destruct (Z.ltb_spec (size v) (start + len)); [|lia].
Qed.
Lemma get_region_run k regs b v :
  arrays k (br_env b) !! arg regs 1 = Some v → arg regs 4 ≠ 0 → u64 (arg regs 2 + arg regs 3) <= size v →
  get_region k regs 0 b =
  if size v <? arg regs 2 + arg regs 3 then Stray
  else put (arg regs 4) (word_bytes (width k) (take (Z.to_nat (arg regs 3)) (drop (Z.to_nat (arg regs 2)) v))) b.
Proof.
  intros Hv Hp Hu. unfold get_region. rewrite (proj2 (negb_true_iff _) (proj2 (Z.eqb_neq _ _) Hp)).
  cbn [andb when Z.eqb]. rewrite (bind_run _ _ _ (Some v) b) by (unfold get, get_array; by rewrite Hv).
  destruct (Z.ltb_spec (size v) (u64 (arg regs 2 + arg regs 3))); [lia|].
  by destruct (size v <? arg regs 2 + arg regs 3).
Qed.
Lemma hvc_get_run k nr regs b v :
  get_nr k = Some nr → arrays k (br_env b) !! arg regs 1 = Some v → u64 (arg regs 2 + arg regs 3) <= size v →
  hvc nr regs b = (_ ← get_region k regs 0; mret 0) b.
Proof.
  intros Hn Hv Hu. rewrite (hvc_get _ _ _ _ Hn).
  by rewrite (bind_run _ _ b 0 b); [|rewrite (env_run _ _ _ _ (region_run k regs _ v Hv Hu)), set_env_id].
Qed.
Lemma take_drop_overwrite (v : list Z) start src :
  0 <= start → start + size src <= size v →
  take (Z.to_nat (size src)) (drop (Z.to_nat start) (overwrite v start src)) = src.
Proof.
  intros Hs Hb. unfold overwrite, size in *. rewrite drop_app_ge by (rewrite length_take; lia).
  rewrite length_take. replace (Z.to_nat start - Z.to_nat start `min` length v)%nat with 0%nat by lia.
  rewrite drop_0, take_app_le by lia. apply take_ge. lia.
Qed.

(** C29. What a guest writes into a region of an array it reads back from it:
    the bytes at [src] arrive at [dst]. *)
Theorem region_roundtrip k nr b h v start len src dst bs :
  get_nr k = Some nr → jni_ok (br_env b) → arrays k (br_env b) !! h = Some v →
  0 <= start → 0 < len → start + len <= size v → src ≠ 0 → dst ≠ 0 →
  alloc_ok (len * Z.of_nat (width k)) = true →
  (∀ x, src <= x < src + size bs → mapped (br_guest b) x = true) →
  (∀ x, dst <= x < dst + size bs → mapped (br_guest b) x = true) →
  size bs = len * Z.of_nat (width k) → bytes bs → holds_at (byte (br_guest b)) src bs →
  ∃ b1 b2,
    hvc (set_nr k) (region_regs h start len src) b = Ok (0, b1) ∧
    hvc nr (region_regs h start len dst) b1 = Ok (0, b2) ∧
    arrays k (br_env b2) !! h = Some (overwrite v start (words_of (width k) (Z.to_nat len) bs)) ∧
    holds_at (byte (br_guest b2)) dst bs.
Proof.
  intros Hnr Hj Hv Hs Hl Hb Hsrc Hdst Ha Hms Hmd Hz Hbb Hbs.
  pose proof Hj as [_ HA]. destruct (ok_array _ HA _ _ _ Hv) as (_ & Hvz & _).
  assert (size v < 9223372036854775808) as Hv63 by (destruct k; cbn in Hvz; pose proof (size_nonneg v); lia).
  assert (len * Z.of_nat (width k) < 9223372036854775808) as Hlw by nia.
  pose proof (size_words_of k len bs ltac:(lia)) as Hw.
  set (ws := words_of (width k) (Z.to_nat len) bs) in *.
  pose (b1 := set_env (set_arrays k (<[h := overwrite v start ws]> (arrays k (br_env b))) (br_env b)) b).
  exists b1. eexists. split; [|split; [|split]].
  - rewrite (hvc_set_run k (region_regs h start len src) bs b Hl Hsrc Hlw Ha ltac:(cbn [arg region_regs nth]; by rewrite <- Hz)
      Hz Hbb Hbs v Hv) by (cbn [arg region_regs nth]; rewrite u64_small by (unfold in_u64; lia); lia).
    cbn [arg region_regs nth]. fold ws.
    assert (set_array_region k h start ws len (br_env b) =
            Ok ((), set_arrays k (<[h := overwrite v start ws]> (arrays k (br_env b))) (br_env b))) as Hrun.
    { rewrite <- Hw at 1. apply set_array_region_run; [done|lia|lia|lia]. }
    by rewrite (bind_run _ _ _ _ _ (env_run _ _ _ _ Hrun)).
  - assert (arrays k (br_env b1) !! h = Some (overwrite v start ws)) as Hv1.
    { cbn [b1 br_env set_env]. rewrite arrays_set, decide_True by done. by rewrite lookup_insert_eq. }
    assert (size (overwrite v start ws) = size v) as Hsz by (unfold size; rewrite length_overwrite; lia).
    assert (u64 (start + len) <= size (overwrite v start ws)) as Hu
      by (rewrite u64_small by (unfold in_u64; lia); lia).
    rewrite (hvc_get_run k nr (region_regs h start len dst) b1 _ Hnr Hv1 Hu).
    assert (get_region k (region_regs h start len dst) 0 b1 =
            put dst (word_bytes (width k) ws) b1) as Hg.
    { rewrite (get_region_run k (region_regs h start len dst) b1 _ Hv1 Hdst Hu).
      cbn [arg region_regs nth]. rewrite Hsz. destruct (Z.ltb_spec (size v) (start + len)); [lia|].
      rewrite <- Hw at 1. by rewrite take_drop_overwrite by lia. }
    unfold mbind, St_bind. rewrite Hg. reflexivity.
  - cbn [br_env set_guest b1 set_env]. rewrite arrays_set, decide_True by done. by rewrite lookup_insert_eq.
  - cbn [br_guest set_guest b1 set_env].
    assert (word_bytes (width k) ws = bs) as ->.
    { apply word_bytes_of; [done|]. unfold size in Hz. destruct k; cbn in *; lia. }
    by apply write_there.
Qed.

(** A start and a length whose sum wraps pass the check of a region, and
    the host then reads or writes in front of the array or behind it. *)
Theorem regions_wrap k b h v start len buf bs :
  arrays k (br_env b) !! h = Some v →
  0 <= start → 0 < len → size v < start + len → u64 (start + len) <= size v → buf ≠ 0 →
  len * Z.of_nat (width k) < 9223372036854775808 → alloc_ok (len * Z.of_nat (width k)) = true →
  (∀ x, buf <= x < buf + size bs → mapped (br_guest b) x = true) →
  size bs = len * Z.of_nat (width k) → bytes bs → holds_at (byte (br_guest b)) buf bs →
  hvc (set_nr k) (region_regs h start len buf) b = Stray ∧
  ∀ nr, get_nr k = Some nr → hvc nr (region_regs h start len buf) b = Stray.
Proof.
  intros Hv Hs Hl Hb Hu Hbuf Hlw Ha Hm Hz Hbb Hbs. split.
  - rewrite (hvc_set_run k (region_regs h start len buf) bs b Hl Hbuf Hlw Ha ltac:(cbn [arg region_regs nth]; by rewrite <- Hz)
      Hz Hbb Hbs v Hv Hu). cbn [arg region_regs nth].
    unfold mbind, St_bind, env, member. by rewrite (set_array_region_wraps _ _ _ _ _ _ v Hv Hu Hb).
  - intros nr Hnr. rewrite (hvc_get_run k nr (region_regs h start len buf) b v Hnr Hv Hu). unfold mbind, St_bind.
    rewrite (get_region_run k (region_regs h start len buf) b v Hv Hbuf Hu). cbn [arg region_regs nth].
    by destruct (Z.ltb_spec (size v) (start + len)); [|lia].
Qed.
End Regions.

(** ** The JNI bridge: strings and elements in the scratch areas

    A string of the guest comes back to it as it was; the elements of an array
    are given out and taken back; both stay inside of their scratch area, and
    large arrays that are held at the same time share it. *)

Section Strings.
Context `{G : Guest} `{!GuestLaws G} `{L : Lib} `{!LibLaws L}.
Variables (stub_base_gpa_ : Z).
Implicit Types (b : bridge) (k : kind).
Abbreviation hvc := (handle_hvc stub_base_gpa_).

(** The scratch areas are inside of the address space. *)
Definition base_ok : Prop := 0 <= stub_base_gpa_ < 18446744073709430784.
Definition mapped_at (g : guest) (a n : Z) : Prop := ∀ x, a <= x < a + n → mapped g x = true.

(** ** Strings *)

(** The bump of strings: a multiple of eight in the area. *)
Definition bump_ok (n : Z) : Prop := 0 <= n <= 1792 ∧ n mod 8 = 0.

Lemma make_string_run v (j : jni) :
  ∃ j', make_string v j = Ok (next_handle_ j, j') ∧ strings_ j' = <[next_handle_ j := v]> (strings_ j).
Proof.
  unfold make_string, alloc_handle, register_class, add_object, find_class.
  rewrite (bind_run _ _ _ (next_handle_ j) (set_next_handle (u64 (next_handle_ j + 1)) j)) by done.
  set (j1 := set_next_handle (u64 (next_handle_ j + 1)) j).
  rewrite (bind_run _ _ _ () (set_strings (<[next_handle_ j := v]> (strings_ j1)) j1)) by done.
  set (j2 := set_strings (<[next_handle_ j := v]> (strings_ j1)) j1).
  destruct (class_by_desc_ j2 !! cs "java/lang/String") as [c|] eqn:E.
  - erewrite (bind_run _ _ j2 () j2) by (unfold mbind, St_bind, get, mbind, res_bind; by rewrite E).
    eexists. split; [reflexivity|done].
  - erewrite (bind_run _ _ j2 ()); [|unfold mbind, St_bind, get, mbind, res_bind; rewrite E; reflexivity].
    eexists. split; [reflexivity|done].
Qed.
Lemma materialize_string_run h s b :
  base_ok → strings_ (br_env b) !! h = Some s → size s < 1792 → bump_ok (string_chars_bump_ b) →
  ∃ gpa bump, materialize_string_chars stub_base_gpa_ h b =
              Ok (gpa, set_string_bump bump (set_guest (guest_write (br_guest b) gpa (s ++ [0])).2 b)) ∧
    stub_base_gpa_ + 2048 <= gpa ∧ gpa + size s + 1 <= stub_base_gpa_ + 3840 ∧ bump_ok bump.
Proof.
  intros HB Hs Hz [Hb H8]. pose proof (size_nonneg s) as Hn. unfold base_ok in HB.
  unfold materialize_string_chars. rewrite (bind_run _ _ b (Some s) b) by (unfold get, get_string; by rewrite Hs).
  rewrite (u64_small (size s + 1)) by (unfold in_u64; lia). unfold kStringScratchSize, string_chars_base_gpa_.
  destruct (Z.ltb_spec 1792 (size s + 1)); [lia|]. rewrite (bind_run _ _ _ _ _ eq_refl).
  rewrite (u64_small (string_chars_bump_ b + (size s + 1))) by (unfold in_u64; lia).
  set (bump := if 1792 <? string_chars_bump_ b + (size s + 1) then 0 else string_chars_bump_ b).
  assert (0 <= bump ∧ bump + size s + 1 <= 1792 ∧ bump mod 8 = 0) as Hbump.
  { unfold bump. destruct (Z.ltb_spec 1792 (string_chars_bump_ b + (size s + 1))); split_and!; try done; lia. }
  rewrite (u64_small (stub_base_gpa_ + 2048)) by (unfold in_u64; lia).
  rewrite (u64_small (stub_base_gpa_ + 2048 + bump)) by (unfold in_u64; lia).
  assert (substr s 0 (size s + 1 - 1) = Ok s) as Hsub.
  { pose proof (substr_all [] s (size s + 1 - 1)) as Ha. cbn in Ha. apply Ha. lia. }
  rewrite (bind_run _ _ b s b) by (unfold pure; by rewrite Hsub).
  eexists _, _. split; [reflexivity|]. change (u64 (Z.lnot 7)) with (u64 (Z.lnot (2 ^ 3 - 1))).
  rewrite (u64_small (size s + 1 + 7)) by (unfold in_u64; lia). rewrite land_high_mask by lia.
  change (2 ^ 3) with 8. cbn [string_chars_bump_ set_guest].
  rewrite (u64_small (bump + _)) by (unfold in_u64; zdm). split; [lia|]. split; [lia|].
  unfold bump_ok. split; zdm.
Qed.

(** A string in the memory of the guest. *)
Definition string_at (g : guest) (a : Z) (s : list Z) : Prop :=
  cstring s ∧ size s < 512 ∧ mapped_at g a (size s + 1) ∧ holds_at (byte g) a (s ++ [0]).
Lemma c_string_app s r : cstring s → c_string (s ++ 0 :: r) = Ok s.
Proof.
  intros Hs. induction Hs as [|x l Hx Hl IH]; [done|]. cbn [app c_string].
  destruct (Z.eqb_spec x 0); [lia|]. by rewrite IH.
Qed.
Lemma read_str_run b a s : string_at (br_guest b) a s → read_str a b = Ok (s, b).
Proof.
  intros (Hs & Hz & Hm & Hh). unfold read_str. rewrite (bind_run _ _ _ _ _ eq_refl).
  assert (take (S (length s)) (guest_read_str (br_guest b) a (replicate 512 0)) = s ++ [0]) as Ht.
  { apply read_str_value; [|done|unfold size; rewrite length_replicate; unfold size in Hz; lia|done].
    intros x Hx. apply Hm. lia. }
  unfold pure. rewrite <- (take_drop (S (length s)) (guest_read_str _ _ _)), Ht, <- app_assoc.
  cbn [app]. by rewrite c_string_app.
Qed.

(** A string of the guest that fits into the buffers comes back to the
    guest as it was, inside of the scratch area. *)
Theorem string_roundtrip b ptr s :
  base_ok → bump_ok (string_chars_bump_ b) → ptr ≠ 0 → string_at (br_guest b) ptr s →
  mapped_at (br_guest b) (stub_base_gpa_ + 2048) 1792 →
  ∃ h b1 gpa b2,
    hvc JNI_NewStringUTF [0; ptr; 0; 0; 0; 0; 0; 0] b = Ok (h, b1) ∧
    hvc JNI_GetStringUTFChars [0; h; 0; 0; 0; 0; 0; 0] b1 = Ok (gpa, b2) ∧
    stub_base_gpa_ + 2048 <= gpa ∧ gpa + size s + 1 <= stub_base_gpa_ + 3840 ∧
    holds_at (byte (br_guest b2)) gpa (s ++ [0]) ∧ bump_ok (string_chars_bump_ b2).
Proof.
  intros HB Hbump Hp Hs Hscratch. pose proof Hs as (Hc & Hz & _ & _).
  set (b0 := set_env (set_strings (<[ptr := s]> (strings_ (br_env b))) (br_env b)) b).
  assert (intern_char_arg ptr b = Ok ((), b0)) as Hi.
  { unfold intern_char_arg. rewrite (proj2 (Z.eqb_neq _ _) Hp). by rewrite (bind_run _ _ _ _ _ (read_str_run b ptr s Hs)). }
  destruct (make_string_run s (br_env b0)) as (j & Hj & Hjs). set (h := next_handle_ (br_env b0)) in *.
  assert (hvc JNI_NewStringUTF [0; ptr; 0; 0; 0; 0; 0; 0] b = Ok (h, set_env j b0)) as Hnew.
  { unfold handle_hvc. rewrite (bind_run _ _ b () b0) by exact Hi.
    rewrite (bind_run _ _ b0 h (set_env j b0)); [done|]. apply env_run.
    change (dispatch _ _) with (jni_NewStringUTF [0; ptr; 0; 0; 0; 0; 0; 0]). unfold jni_NewStringUTF.
    cbn [arg nth]. rewrite (bind_run _ _ (br_env b0) (Some s) (br_env b0)) by
      (unfold get; cbn [b0 br_env set_env strings_ set_strings]; by rewrite lookup_insert_eq).
    rewrite (bind_run _ _ (br_env b0) () (br_env b0)) by done.
    rewrite (bind_run _ _ (br_env b0) s (br_env b0)) by
      (unfold get; cbn [b0 br_env set_env strings_ set_strings]; by rewrite lookup_insert_eq).
    exact Hj. }
  destruct (materialize_string_run h s (set_env j b0)) as (gpa & bump & Hm & H1 & H2 & H3);
    [done|cbn; rewrite Hjs; by rewrite lookup_insert_eq|lia|done|].
  exists h, (set_env j b0), gpa. eexists. split; [exact Hnew|]. split; [|split; [done|split; [done|split]]].
  - unfold handle_hvc. rewrite (bind_run _ _ _ () (set_env j b0)) by done.
    rewrite (bind_run _ _ (set_env j b0) h (set_env j b0)); [exact Hm|].
    unfold env, member. change (dispatch _ _) with (jni_GetStringUTFChars [0; h; 0; 0; 0; 0; 0; 0]).
    unfold jni_GetStringUTFChars. cbn [arg nth]. cbn [br_env set_env].
    rewrite (bind_run _ _ j (Some s) j) by (unfold get; rewrite Hjs; by rewrite lookup_insert_eq). done.
  - cbn [br_guest set_string_bump set_guest]. apply write_there.
    + intros x Hx. apply Hscratch. rewrite size_app in Hx. change (size [0]) with 1 in Hx. lia.
    + apply Forall_app. split; [by apply cstring_bytes|by repeat constructor].
  - done.
Qed.

(** ** Elements *)

(** Sixteen bytes at a time. *)
Definition rounded (n : Z) : Z := (n + 15) / 16 * 16.
Lemma materialize_run k h v b :
  base_ok → arrays k (br_env b) !! h = Some v → 0 <= array_elements_bump_ b <= 65536 →
  let data := word_bytes (width k) v in
  0 < size data <= 65536 →
  let bump := if 65536 <? array_elements_bump_ b + rounded (size data) then 0 else array_elements_bump_ b in
  let gpa := stub_base_gpa_ + 53248 + bump in
  materialize_array stub_base_gpa_ k h b =
  Ok (gpa, set_array_bump (bump + rounded (size data)) (set_guest (guest_write (br_guest b) gpa data).2 b)).
Proof.
  intros HB Hv Hb data Hd bump gpa. unfold base_ok in HB.
  assert (size data <= rounded (size data) <= 65536) as Hr by (unfold rounded; zdm).
  unfold materialize_array. rewrite (bind_run _ _ b (Some v) b) by (unfold get, get_array; by rewrite Hv).
  fold data. unfold write_scratch_bytes, kArrayScratchSize, array_elements_base_gpa_.
  rewrite Z.max_l by lia. rewrite (u64_small (size data + 15)) by (unfold in_u64; lia).
  change (u64 (Z.lnot 15)) with (u64 (Z.lnot (2 ^ 4 - 1))). rewrite land_high_mask by lia.
  change ((size data + 15) / 2 ^ 4 * 2 ^ 4) with (rounded (size data)).
  destruct (Z.ltb_spec 65536 (rounded (size data))); [lia|]. rewrite (bind_run _ _ _ _ _ eq_refl).
  rewrite (u64_small (array_elements_bump_ b + _)) by (unfold in_u64; lia). fold bump.
  assert (0 <= bump <= 65536) as Hbump by (unfold bump; destruct (_ <? _); lia).
  rewrite (u64_small (stub_base_gpa_ + 53248)) by (unfold in_u64; lia).
  rewrite (u64_small (stub_base_gpa_ + 53248 + bump)) by (unfold in_u64; lia). fold gpa.
  rewrite (proj2 (Z.ltb_lt 0 (size data))) by lia. cbn [when].
  rewrite (bind_run _ _ b () (set_guest (guest_write (br_guest b) gpa data).2 b)) by done.
  by rewrite u64_small by (unfold in_u64; lia).
Qed.
(** Taking the elements back. *)
Lemma release_run k b h v p mode bs :
  jni_ok (br_env b) → arrays k (br_env b) !! h = Some v → v ≠ [] → p ≠ 0 → mode ≠ JNI_ABORT →
  alloc_ok (size v * Z.of_nat (width k)) = true →
  mapped_at (br_guest b) p (size bs) → size bs = size v * Z.of_nat (width k) → bytes bs →
  holds_at (byte (br_guest b)) p bs →
  hvc (release_nr k) [0; h; p; mode; 0; 0; 0; 0] b =
  Ok (0, set_env (set_arrays k (<[h := words_of (width k) (length v) bs]> (arrays k (br_env b))) (br_env b)) b).
Proof.
  intros Hj Hv Hne Hp Hmode Ha Hm Hz Hbb Hbs. pose proof Hj as [_ HA].
  destruct (ok_array _ HA _ _ _ Hv) as (_ & Hs & _). pose proof (size_nonneg v) as Hn.
  assert (0 < size v) as Hpos by (destruct v; [done|]; rewrite size_cons; pose proof (size_nonneg v); lia).
  rewrite hvc_release. unfold release. cbn [arg nth].
  rewrite (proj2 (negb_true_iff _) (proj2 (Z.eqb_neq _ _) Hp)), (proj2 (negb_true_iff _) (proj2 (Z.eqb_neq _ _) Hmode)).
  cbn [andb when].
  assert (env (new_vector (width k) (size v) 0) b = Ok (replicate (Z.to_nat (size v)) 0, b)) as Ht.
  { rewrite (env_run _ _ _ _ (new_vector_run _ _ _ _ Hs Ha)). by rewrite set_env_id. }
  assert (fetch p (word_bytes (width k) (replicate (Z.to_nat (size v)) 0)) b = Ok ((true, bs), b)) as Hf.
  { apply fetch_run; [|by pose proof (size_word_bytes k (size v)); unfold size in *; lia|done].
    rewrite size_word_bytes by lia. by rewrite <- Hz. }
  assert (Z.to_nat (size v) = length v) as Hl by (unfold size; lia).
  pose proof (size_words_of k (size v) bs Hn) as Hw. rewrite Hl in Hw.
  assert (size v < 9223372036854775808) as Hv63 by (destruct k; cbn in Hs; lia).
  pose proof (set_array_region_run k h 0 (words_of (width k) (length v) bs) (br_env b) v Hv) as Hset.
  rewrite Hw in Hset. specialize (Hset ltac:(lia) ltac:(lia) ltac:(lia)).
  assert (overwrite v 0 (words_of (width k) (length v) bs) = words_of (width k) (length v) bs) as Ho.
  { unfold overwrite. rewrite Hw, Z.add_0_l, Hl. cbn [Z.to_nat take app]. by rewrite drop_all, app_nil_r. }
  rewrite Ho in Hset.
  assert ((current ← get (λ b, get_array k h (br_env b));
     match current with
     | None => mret ()
     | Some current =>
         tmp ← env (new_vector (width k) (size current) 0);
         let bytes := word_bytes (width k) tmp in
         if bool_decide (bytes = []) then mret () else
         r ← fetch p bytes;
         when r.1 (env (set_array_region k h 0 (words_of (width k) (length current) r.2) (size current)))
     end) b = Ok ((), set_env (set_arrays k (<[h := words_of (width k) (length v) bs]> (arrays k (br_env b))) (br_env b)) b)) as Hrun.
  { rewrite (bind_run _ _ b (Some v) b) by (unfold get, get_array; by rewrite Hv).
    rewrite (bind_run _ _ _ _ _ Ht). cbn zeta. rewrite bool_decide_eq_false_2 by by apply word_bytes_nil.
    rewrite (bind_run _ _ _ _ _ Hf). cbn [fst snd when]. by rewrite (env_run _ _ _ _ Hset). }
  by rewrite (bind_run _ _ _ _ _ Hrun).
Qed.

(** The elements of an array are given out in the scratch area, and what
    the guest makes of them there is what the array holds when they are taken
    back. *)
Theorem elements_roundtrip k b h v :
  base_ok → jni_ok (br_env b) → arrays k (br_env b) !! h = Some v →
  0 < size v * Z.of_nat (width k) <= 65536 → 0 <= array_elements_bump_ b <= 65536 →
  alloc_ok (size v * Z.of_nat (width k)) = true →
  mapped_at (br_guest b) (stub_base_gpa_ + 53248) 131072 →
  ∃ p b1,
    hvc (elements_nr k) [0; h; 0; 0; 0; 0; 0; 0] b = Ok (p, b1) ∧
    stub_base_gpa_ + 53248 <= p ∧ p + size v * Z.of_nat (width k) <= stub_base_gpa_ + 118784 ∧
    holds_at (byte (br_guest b1)) p (word_bytes (width k) v) ∧
    ∀ g mode bs,
      mapped_at g p (size bs) → size bs = size v * Z.of_nat (width k) → bytes bs → holds_at (byte g) p bs →
      mode ≠ JNI_ABORT →
      ∃ b2, hvc (release_nr k) [0; h; p; mode; 0; 0; 0; 0] (set_guest g b1) = Ok (0, b2) ∧
            arrays k (br_env b2) !! h = Some (words_of (width k) (length v) bs).
Proof.
  intros HB Hj Hv Hs Hb Ha Hm.
  assert (size (word_bytes (width k) v) = size v * Z.of_nat (width k)) as Hd
    by (unfold size; rewrite length_word_bytes; lia).
  pose proof (materialize_run k h v b HB Hv Hb) as Hmat. cbn zeta in Hmat. rewrite Hd in Hmat. specialize (Hmat Hs).
  set (bump := if 65536 <? _ then _ else _) in Hmat.
  assert (0 <= bump ∧ bump + size v * Z.of_nat (width k) <= 65536) as Hbump.
  { unfold bump, rounded. destruct (Z.ltb_spec 65536 (array_elements_bump_ b + (size v * Z.of_nat (width k) + 15) / 16 * 16)); zdm. }
  eexists _, _. split; [rewrite hvc_elements; unfold elements; cbn [arg nth]; exact Hmat|].
  split; [lia|]. split; [lia|]. split.
  - cbn [br_guest set_array_bump set_guest]. apply write_there; [|apply bytes_word_bytes].
    intros x Hx. apply Hm. lia.
  - intros g mode bs Hg Hz Hbb Hbs Hmode. eexists. split.
    + eapply release_run; try done; [|unfold base_ok in HB; lia].
      intros ->. change (size []) with 0 in Hs. lia.
    + cbn [br_env set_env set_array_bump set_guest]. rewrite arrays_set, decide_True by done. by rewrite lookup_insert_eq.
Qed.

(** Two arrays that together are larger than the scratch area are given
    out at the same place: when the first is taken back it has become the
    second. *)
Theorem elements_clobbered b h1 h2 v1 v2 :
  base_ok → jni_ok (br_env b) →
  byte_arrays_ (br_env b) !! h1 = Some v1 → byte_arrays_ (br_env b) !! h2 = Some v2 →
  32768 < size v1 <= 65536 → size v2 = size v1 → array_elements_bump_ b = 0 → alloc_ok (size v1) = true →
  mapped_at (br_guest b) (stub_base_gpa_ + 53248) 131072 →
  ∃ p b1 b2 b3,
    hvc JNI_GetByteArrayElements [0; h1; 0; 0; 0; 0; 0; 0] b = Ok (p, b1) ∧
    hvc JNI_GetByteArrayElements [0; h2; 0; 0; 0; 0; 0; 0] b1 = Ok (p, b2) ∧
    hvc JNI_ReleaseByteArrayElements [0; h1; p; 0; 0; 0; 0; 0] b2 = Ok (0, b3) ∧
    byte_arrays_ (br_env b3) !! h1 = Some v2.
Proof.
  intros HB Hj Hv1 Hv2 Hs Hs2 Hb Ha Hm.
  assert (∀ v, bytes v → word_bytes 1 v = v) as Hwb.
  { intros v Hv. rewrite <- (words_of_1 v Hv) at 1. apply word_bytes_of; [done|lia]. }
  pose proof Hj as [_ HA].
  assert (∀ h v, byte_arrays_ (br_env b) !! h = Some v → bytes v) as Hbytes.
  { intros h v Hv. destruct (ok_array _ HA Byte h v Hv) as (_ & _ & Hw). eapply Forall_impl; [exact Hw|].
    intros x Hx. unfold in_word, in_u8 in *. cbn in Hx. lia. }
  pose proof (Hbytes _ _ Hv1) as Hb1. pose proof (Hbytes _ _ Hv2) as Hb2.
  assert (size v1 <= rounded (size v1) <= 65536) as Hr by (unfold rounded; zdm).
  pose proof (materialize_run Byte h1 v1 b HB Hv1 ltac:(lia)) as M1. cbn zeta in M1.
  cbn [width] in M1. rewrite Hwb in M1 by done. specialize (M1 ltac:(lia)). rewrite Hb in M1.
  destruct (Z.ltb_spec 65536 (0 + rounded (size v1))) as [?|_]; [lia|]. rewrite !Z.add_0_r, Z.add_0_l in M1.
  set (p := stub_base_gpa_ + 53248) in *.
  set (b1 := set_array_bump _ _) in M1.
  pose proof (materialize_run Byte h2 v2 b1 HB Hv2 ltac:(cbn; lia)) as M2. cbn zeta in M2.
  cbn [width] in M2. rewrite Hwb in M2 by done. specialize (M2 ltac:(lia)).
  assert ((65536 <? array_elements_bump_ b1 + rounded (size v2)) = true) as E2.
  { apply Z.ltb_lt. cbn [b1 array_elements_bump_ set_array_bump]. rewrite Hs2. lia. }
  rewrite E2, Z.add_0_r, Z.add_0_l in M2. fold p in M2. set (b2 := set_array_bump _ _) in M2.
  exists p, b1, b2. eexists. split; [|split; [|split]].
  - change JNI_GetByteArrayElements with (elements_nr Byte). rewrite hvc_elements. exact M1.
  - change JNI_GetByteArrayElements with (elements_nr Byte). rewrite hvc_elements. exact M2.
  - change JNI_ReleaseByteArrayElements with (release_nr Byte).
    apply (release_run Byte b2 h1 v1 p 0 v2); try done;
      [intros E; rewrite E in Hs; change (size []) with 0 in Hs; lia|unfold p, base_ok in *; lia|..].
    + cbn [width]. by rewrite Z.mul_1_r.
    + intros x Hx. cbn [b2 b1 br_guest set_array_bump set_guest]. rewrite !write_mapped. apply Hm. unfold p in *. lia.
    + cbn [width]. lia.
    + cbn [b2 br_guest set_array_bump set_guest]. apply write_there; [|done].
      intros x Hx. cbn [b1 br_guest set_array_bump set_guest]. rewrite write_mapped. apply Hm. unfold p in *. lia.
  - cbn [br_env set_env byte_arrays_ set_arrays set_byte_arrays width]. rewrite lookup_insert_eq.
    f_equal. replace (length v1) with (length v2) by (unfold size in Hs2; lia). by apply words_of_1.
Qed.
End Strings.
