(* ===== verification/JniCallProps.v ===== *)
(** * The JNI: methods, natives, the table, and calls into the guest

    Identifiers of methods stand for one method each and stay valid; natives
    a library registers from its memory are found under their names; the
    functions of the table lead to stubs that make their calls; a call into
    the guest leaves the registers as they were. *)

From S2P Require Import Prelude Decimal Cxx Elf GuestMem JniEnv JniBridge HostFile JniOnload JniProps JniBridgeProps JniArrays.

Section Calls.
Context `{G : Guest} `{!GuestLaws G} `{L : Lib} `{!LibLaws L}.
Variables (stub_base_gpa_ : Z).
Implicit Types (b : bridge).
Abbreviation hvc := (handle_hvc stub_base_gpa_).

(** ** Identifiers of methods *)

Definition method_regs (cls name sig : Z) : list Z := [0; cls; name; sig; 0; 0; 0; 0].

(** The bridge makes the strings known before the call. *)
Lemma hvc_GetMethodID b cls n s name sig :
  n ≠ 0 → s ≠ 0 → string_at (br_guest b) n name → string_at (br_guest b) s sig →
  ∃ j, hvc JNI_GetMethodID (method_regs cls n s) b = env (jni_GetMethodID (method_regs cls n s)) (set_env j b) ∧
       j = set_strings (strings_ j) (br_env b) ∧ strings_ j !! n = Some name ∧ strings_ j !! s = Some sig.
Proof.
  intros Hn0 Hs0 Hn Hs.
  set (j1 := set_strings (<[n := name]> (strings_ (br_env b))) (br_env b)).
  set (j2 := set_strings (<[s := sig]> (strings_ j1)) j1).
  exists j2. split; [|split; [done|split]].
  - unfold handle_hvc, intern_args. change (JNI_GetMethodID =? JNI_FindClass) with false.
    change ((JNI_GetMethodID =? JNI_GetMethodID) || (JNI_GetMethodID =? JNI_GetFieldID)) with true. cbv iota.
    unfold intern_char_arg. cbn [arg method_regs nth]. rewrite (proj2 (Z.eqb_neq _ _) Hn0), (proj2 (Z.eqb_neq _ _) Hs0).
    rewrite (bind_run _ _ b () (set_env j2 b)).
    + change (dispatch _ _) with (jni_GetMethodID (method_regs cls n s)).
      unfold mbind, St_bind. destruct (env (jni_GetMethodID (method_regs cls n s)) (set_env j2 b)) as [[r b']| | |]; done.
    + rewrite (bind_run _ _ b () (set_env j1 b)) by (by rewrite (bind_run _ _ _ _ _ (read_str_run b n name Hn))).
      by rewrite (bind_run _ _ _ _ _ (read_str_run (set_env j1 b) s sig Hs)).
  - cbn. destruct (decide (n = s)) as [->|Hne].
    + rewrite lookup_insert_eq. pose proof (read_str_run b s name Hn) as H1.
      rewrite (read_str_run b s sig Hs) in H1. by injection H1 as ->.
    + rewrite lookup_insert_ne by done. by rewrite lookup_insert_eq.
  - cbn. by rewrite lookup_insert_eq.
Qed.
Lemma method_call b cls n s name sig m b1 :
  jni_ok (br_env b) → room 1 (br_env b) → is_Some (classes_ (br_env b) !! cls) →
  n ≠ 0 → s ≠ 0 → string_at (br_guest b) n name → string_at (br_guest b) s sig →
  hvc JNI_GetMethodID (method_regs cls n s) b = Ok (m, b1) →
  jni_ok (br_env b1) ∧ grows 1 (br_env b) (br_env b1) ∧ methods_ (br_env b1) !! m = Some (Member cls name sig).
Proof.
  intros Hj Hr Hc Hn Hs Hname Hsig. destruct (hvc_GetMethodID b cls n s name sig Hn Hs Hname Hsig) as (j & -> & Ej & Hjn & Hjs).
  destruct (strings_same (strings_ j) (br_env b) Hj) as [Hj' G']. rewrite <- Ej in Hj', G'.
  assert (room 1 j) as Hr' by (rewrite Ej; exact Hr).
  pose proof (holds_GetMethodID (method_regs cls n s) j Hj' Hr') as HG.
  unfold holds in HG. unfold env, member. cbn [br_env set_env].
  destruct (jni_GetMethodID (method_regs cls n s) j) as [[m' j']| | |]; [|done..].
  destruct HG as (H1 & H2 & H3). cbn. intros [= <- <-]. cbn [br_env set_env]. split; [done|]. split.
  - eapply grows_weaken; [eapply grows_trans; [exact G'|exact H2]|lia].
  - cbn [arg method_regs nth] in H3. rewrite Hjn, Hjs in H3. apply H3. rewrite Ej. exact Hc.
Qed.

(** C33. Whatever the guest calls in between, two calls of GetMethodID give the
    same identifier just when they are for the same class, name and signature. *)
Theorem method_ids b c1 n1 s1 name1 sig1 m1 b1 l b2 c2 n2 s2 name2 sig2 m2 b3 :
  jni_ok (br_env b) → room (2 + 2 * Z.of_nat (length l)) (br_env b) →
  is_Some (classes_ (br_env b) !! c1) → is_Some (classes_ (br_env b2) !! c2) →
  n1 ≠ 0 → s1 ≠ 0 → n2 ≠ 0 → s2 ≠ 0 →
  string_at (br_guest b) n1 name1 → string_at (br_guest b) s1 sig1 →
  string_at (br_guest b2) n2 name2 → string_at (br_guest b2) s2 sig2 →
  Forall (λ c, Forall in_u64 c.2 ∧ no_wrap c.1 c.2) l →
  hvc JNI_GetMethodID (method_regs c1 n1 s1) b = Ok (m1, b1) →
  hvcs stub_base_gpa_ l b1 = Ok ((), b2) →
  hvc JNI_GetMethodID (method_regs c2 n2 s2) b2 = Ok (m2, b3) →
  m1 = m2 ↔ (c1, name1, sig1) = (c2, name2, sig2).
Proof.
  intros Hj Hr Hc1 Hc2 Hn1 Hs1 Hn2 Hs2 N1 S1 N2 S2 Hl R1 RL R2. unfold room in *.
  destruct (method_call _ _ _ _ _ _ _ _ Hj ltac:(unfold room; lia) Hc1 Hn1 Hs1 N1 S1 R1) as (J1 & G1 & M1).
  pose proof (gr_next _ _ _ G1) as X1.
  pose proof (keeps_b_hvcs stub_base_gpa_ l Hl b1 J1 ltac:(unfold room; lia)) as HL.
  unfold holds in HL. rewrite RL in HL. destruct HL as [J2 G2]. pose proof (gr_next _ _ _ G2) as X2.
  destruct (method_call _ _ _ _ _ _ _ _ J2 ltac:(unfold room; lia) Hc2 Hn2 Hs2 N2 S2 R2) as (J3 & G3 & M2).
  assert (methods_ (br_env b3) !! m1 = Some (Member c1 name1 sig1)) as M1'.
  { eapply lookup_weaken; [|exact (gr_methods _ _ _ G3)]. eapply lookup_weaken; [exact M1|exact (gr_methods _ _ _ G2)]. }
  split.
  - intros ->. congruence.
  - intros [= -> -> ->]. destruct J3 as [HT _]. by eapply (ok_methods_once _ _ _ _ _ _ HT).
Qed.

(** ** Natives *)

(** An entry of the guest: the pointers, and the strings they point to. *)
Record native_entry := NE { ne_name_ptr : Z; ne_sig_ptr : Z; ne_fn : Z; ne_name : list Z; ne_sig : list Z }.
Definition rebased (g : guest) (a : Z) : Z :=
  if (a =? 0) || (elf_load_min g =? 0) then a else if a <? elf_load_min g then u64 (elf_load_min g + a) else a.
Definition entry_at (g : guest) (a : Z) (e : native_entry) : Prop :=
  0 <= a ∧ a + 24 <= 18446744073709551616 ∧
  in_u64 (ne_name_ptr e) ∧ in_u64 (ne_sig_ptr e) ∧ in_u64 (ne_fn e) ∧ mapped_at g a 24 ∧
  holds_at (byte g) a (le_split 8 (ne_name_ptr e) ++ le_split 8 (ne_sig_ptr e) ++ le_split 8 (ne_fn e)) ∧
  string_at g (rebased g (ne_name_ptr e)) (ne_name e) ∧ string_at g (rebased g (ne_sig_ptr e)) (ne_sig e).
(** What is registered in the end: the last entry of a name and signature. *)
Definition registered (g : guest) (es : list native_entry) (n s : list Z) (before : Z) : Z :=
  foldl (λ fn e, if decide ((n, s) = (ne_name e, ne_sig e)) then rebased g (ne_fn e) else fn) before es.

Lemma read_member_run b a x :
  in_u64 x → in_u64 a → mapped_at (br_guest b) a 8 → holds_at (byte (br_guest b)) a (le_split 8 x) →
  read_member a b = Ok (rebased (br_guest b) x, b).
Proof.
  intros Hx Ha Hm Hh. unfold read_member. rewrite u64_small by done.
  rewrite (bind_run _ _ _ _ _ (fetch_run b a (le_split 8 0) (le_split 8 x) Hm ltac:(by rewrite !length_le_split) Hh)).
  cbn [snd]. rewrite le_combine_split. change (256 ^ Z.of_nat 8) with 18446744073709551616.
  rewrite Z.mod_small by exact Hx. reflexivity.
Qed.
Lemma register_native_run h name sig fn (j : jni) : ∃ j', register_native h name sig fn j = Ok ((), j').
Proof.
  unfold register_native. rewrite (bind_run _ _ _ _ _ eq_refl). destruct (classes_ j !! h); eexists; reflexivity.
Qed.
Lemma register_entry_run b cls a e :
  jni_ok (br_env b) → is_Some (classes_ (br_env b) !! cls) → entry_at (br_guest b) a e →
  ∃ j', register_entry cls a b = Ok ((), set_env j' b) ∧ jni_ok j' ∧ grows 0 (br_env b) j' ∧
    ∀ h n s, find_native h n s j' =
      if decide (h = cls ∧ (n, s) = (ne_name e, ne_sig e)) then rebased (br_guest b) (ne_fn e)
      else find_native h n s (br_env b).
Proof.
  intros Hj Hc (Ha & Ha' & Hn & Hs & Hf & Hm & Hh & Hname & Hsig).
  apply holds_at_app in Hh as [H1 Hh]. apply holds_at_app in Hh as [H2 H3]. rewrite !size_le_split in H2, H3.
  destruct (register_native_run cls (ne_name e) (ne_sig e) (rebased (br_guest b) (ne_fn e)) (br_env b)) as [j' Hj'].
  pose proof (holds_register_native cls (ne_name e) (ne_sig e) (rebased (br_guest b) (ne_fn e)) (br_env b) Hj) as HR.
  unfold holds in HR. rewrite Hj' in HR. destruct HR as (HR1 & HR2 & HR3).
  exists j'. split; [|split; [done|split; [done|]]].
  - unfold register_entry, mapped_at in *.
    rewrite (bind_run _ _ _ _ _ (read_member_run b (a + 0) _ Hn ltac:(unfold in_u64; lia)
      ltac:(intros x Hx; apply Hm; lia) ltac:(by rewrite Z.add_0_r))).
    rewrite (bind_run _ _ _ _ _ (read_member_run b (a + 8) _ Hs ltac:(unfold in_u64; lia)
      ltac:(intros x Hx; apply Hm; lia) H2)).
    rewrite (bind_run _ _ _ _ _ (read_member_run b (a + 16) _ Hf ltac:(unfold in_u64; lia)
      ltac:(intros x Hx; apply Hm; lia) ltac:(by replace (a + 16) with (a + 8 + 8) by lia))).
    rewrite (bind_run _ _ _ _ _ (read_str_run b _ _ Hname)), (bind_run _ _ _ _ _ (read_str_run b _ _ Hsig)).
    by rewrite (env_run _ _ _ _ Hj').
  - intros h n s. rewrite HR3. repeat case_decide; naive_solver.
Qed.

(** C32. The natives of an array in the memory of the guest are found under
    their names and signatures, the last entry of each; the others stay. *)
Theorem natives_registered b cls arr es :
  jni_ok (br_env b) → is_Some (classes_ (br_env b) !! cls) →
  (∀ i e, es !! i = Some e → entry_at (br_guest b) (arr + Z.of_nat i * 24) e) →
  ∃ b', hvc JNI_RegisterNatives [0; cls; arr; Z.of_nat (length es); 0; 0; 0; 0] b = Ok (0, b') ∧
    br_guest b' = br_guest b ∧ jni_ok (br_env b') ∧
    ∀ h n s, find_native h n s (br_env b') =
      if decide (h = cls) then registered (br_guest b) es n s (find_native h n s (br_env b))
      else find_native h n s (br_env b).
Proof.
  intros Hj Hc He.
  assert (∀ es k b, jni_ok (br_env b) → is_Some (classes_ (br_env b) !! cls) →
    (∀ i e, es !! i = Some e → entry_at (br_guest b) (arr + Z.of_nat (k + i) * 24) e) →
    ∃ b', each (λ i, register_entry cls (u64 (arr + Z.of_nat i * 24))) (seq k (length es)) b = Ok ((), b') ∧
      br_guest b' = br_guest b ∧ jni_ok (br_env b') ∧
      ∀ h n s, find_native h n s (br_env b') =
        if decide (h = cls) then registered (br_guest b) es n s (find_native h n s (br_env b))
        else find_native h n s (br_env b)) as Hgo.
  { clear. intros es. induction es as [|e es IH]; intros k b Hj Hc He.
    - exists b. split; [done|]. split; [done|]. split; [done|]. intros h n s. by case_decide.
    - pose proof (He 0%nat e eq_refl) as He0. rewrite Nat.add_0_r in He0.
      destruct (register_entry_run b cls _ e Hj Hc He0) as (j' & R & J & Gr & F).
      destruct Hc as [c Hc]. destruct (gr_classes _ _ _ Gr _ _ Hc) as [ms Hms].
      destruct (IH (S k) (set_env j' b)) as (b' & R' & G' & J' & F'); [done|by eexists|..].
      { intros i e' Hi. replace (S k + i)%nat with (k + S i)%nat by lia. by apply He. }
      exists b'. split; [|split; [done|split; [done|]]].
      + cbn [length seq each]. rewrite u64_small by (destruct He0 as (? & ? & _); unfold in_u64; lia).
        by rewrite (bind_run _ _ _ _ _ R).
      + intros h n s. rewrite F'. cbn [br_env br_guest set_env]. rewrite F. unfold registered. cbn [foldl].
        destruct (decide (h = cls)) as [->|Hn].
        * destruct (decide ((n, s) = (ne_name e, ne_sig e))) as [E|E].
          -- by rewrite decide_True.
          -- rewrite decide_False; [done|]. intros [_ E']. done.
        * rewrite decide_False; [done|]. intros [E' _]. done. }
  destruct (Hgo es 0%nat b Hj Hc He) as (b' & R & G' & J' & F). exists b'. split; [|done].
  unfold handle_hvc. rewrite (bind_run _ _ b () b) by done.
  rewrite (bind_run _ _ b 0 b) by (unfold env, member; change (dispatch _ _) with (jni_RegisterNatives [0; cls; arr; Z.of_nat (length es); 0; 0; 0; 0]); by destruct b).
  change (JNI_RegisterNatives =? JNI_GetStringUTFChars) with false. rewrite Z.eqb_refl. cbn [arg nth].
  unfold register_natives_from_guest. rewrite Nat2Z.id. by rewrite (bind_run _ _ _ _ _ R).
Qed.
End Calls.

(** ** The tables of the JNI

    What [install] leaves in the memory of the guest: every function of the
    table leads to a stub that makes the call the dispatcher has for it. *)

(** The immediate of the [movz x8] a stub starts with, when the rest of it is
    hvc #6 and ret. *)
Definition call_of_stub (bs : list Z) : option Z :=
  let movz := le_combine (take 4 bs) in
  if bool_decide (drop 4 bs = le_split 4 3556769986 ++ le_split 4 3596551104) &&
     (Z.land movz 4292870175 =? 3531603976)
  then Some (Z.land (Z.shiftr movz 5) 65535) else None.

Section Puts.
Context `{G : Guest} `{!GuestLaws G}.

(** Writes one after the other. *)
Definition puts (ws : list (Z * list Z)) (g : guest) : guest :=
  foldl (λ g w, (guest_write g w.1 w.2).2) g ws.
Definition apart (w v : Z * list Z) : Prop := w.1 + size w.2 <= v.1 ∨ v.1 + size v.2 <= w.1.

Lemma puts_mapped ws g x : mapped (puts ws g) x = mapped g x.
Proof.
  revert g. induction ws as [|w ws IH]; intros g; [done|]. cbn [puts foldl]. unfold puts in IH. rewrite IH.
  apply write_mapped.
Qed.
Lemma puts_keep ws g v : Forall (apart v) ws → holds_at (byte g) v.1 v.2 → holds_at (byte (puts ws g)) v.1 v.2.
Proof.
  revert g. induction ws as [|w ws IH]; intros g Hw Hv; [done|]. apply Forall_cons in Hw as [Ha Hw].
  cbn [puts foldl]. apply IH; [done|]. apply write_keeps; [|done]. destruct Ha; auto.
Qed.
Lemma puts_app u v g : puts (u ++ v) g = puts v (puts u g).
Proof. apply foldl_app. Qed.
(** A write that later ones leave alone. *)
Lemma puts_there ws1 w ws2 g :
  mapped_at g w.1 (size w.2) → bytes w.2 → Forall (apart w) ws2 →
  holds_at (byte (puts (ws1 ++ w :: ws2) g)) w.1 w.2.
Proof.
  intros Hm Hb Ha. rewrite puts_app. cbn [puts foldl]. apply puts_keep; [done|]. apply write_there; [|done].
  intros x Hx. rewrite puts_mapped. by apply Hm.
Qed.
End Puts.

Section Table.
Context `{G : Guest} `{!GuestLaws G} `{L : Lib} `{!LibLaws L}.
Variables (table_gpa_ stub_base_gpa_ : Z).
Implicit Types (b : bridge).

(** The writes of an entry. *)
Definition entry_writes (e : Z * Z) : list (Z * list Z) :=
  [(stub_base_gpa_ + (e.2 - 4096) * 12, encode_hvc_stub e.2);
   (table_gpa_ + e.1 * 8, le_split 8 (stub_base_gpa_ + (e.2 - 4096) * 12))].
Definition table_writes : list (Z * list Z) :=
  (table_gpa_, replicate (233 * 8) 0) :: concat (entry_writes <$> table_slots).

(** Table and stubs are in the address space and apart. *)
Definition areas_ok : Prop :=
  0 <= table_gpa_ ∧ table_gpa_ + 1864 <= 18446744073709551616 ∧
  0 <= stub_base_gpa_ ∧ stub_base_gpa_ + 600 <= 18446744073709551616 ∧
  (table_gpa_ + 1864 <= stub_base_gpa_ ∨ stub_base_gpa_ + 600 <= table_gpa_).
Definition slot_ok (e : Z * Z) : Prop := 0 <= e.1 < 233 ∧ 4096 <= e.2 < 4146.

Lemma slots_ok : Forall slot_ok table_slots.
Proof. unfold slot_ok. decides. Qed.
Lemma slots_once : NoDup table_slots.*1 ∧ NoDup table_slots.*2.
Proof. split; decides. Qed.

Lemma install_entry_run e b :
  areas_ok → slot_ok e →
  install_entry table_gpa_ stub_base_gpa_ (e.1, stub stub_base_gpa_ e.2) b =
  Ok ((), set_guest (puts (entry_writes e) (br_guest b)) b).
Proof.
  intros (H1 & H2 & H3 & H4 & _) [Hs Hc]. destruct e as [slot nr]. cbn [fst snd] in *.
  assert (stub stub_base_gpa_ nr = stub_base_gpa_ + (nr - 4096) * 12) as ->.
  { unfold stub, JNI_STUB_SIZE. rewrite (u32_small (nr - 4096)) by (unfold in_u32; lia).
    apply u64_small. unfold in_u64. lia. }
  unfold install_entry, JNI_STUB_SIZE.
  replace (stub_base_gpa_ + (nr - 4096) * 12 - stub_base_gpa_) with ((nr - 4096) * 12) by lia.
  rewrite (u64_small ((nr - 4096) * 12)) by (unfold in_u64; lia). rewrite Z.div_mul by lia.
  rewrite (u32_small (nr - 4096)) by (unfold in_u32; lia).
  replace (4096 + (nr - 4096)) with nr by lia. rewrite (u32_small nr) by (unfold in_u32; lia).
  rewrite (u64_small (table_gpa_ + slot * 8)) by (unfold in_u64; lia). by destruct b.
Qed.
Lemma install_run b :
  areas_ok →
  install table_gpa_ stub_base_gpa_ b =
  Ok ((), set_env (set_jni_table_gpa table_gpa_ (br_env b)) (set_guest (puts table_writes (br_guest b)) b)).
Proof.
  intros Ha. unfold install.
  set (b0 := set_guest (guest_write (br_guest b) table_gpa_ (replicate (233 * 8) 0)).2 b).
  rewrite (bind_run _ _ b () b0) by done.
  assert (∀ es b, Forall slot_ok es →
    each (install_entry table_gpa_ stub_base_gpa_) ((λ '(slot, call_nr), (slot, stub stub_base_gpa_ call_nr)) <$> es) b =
    Ok ((), set_guest (puts (concat (entry_writes <$> es)) (br_guest b)) b)) as Hgo.
  { clear b b0. intros es. induction es as [|e es IH]; intros b He; [by destruct b|].
    apply Forall_cons in He as [He Hes]. rewrite fmap_cons. cbn [each].
    replace ((λ '(slot, call_nr), (slot, stub stub_base_gpa_ call_nr)) e) with (e.1, stub stub_base_gpa_ e.2) by by destruct e.
    rewrite (bind_run _ _ _ _ _ (install_entry_run e b Ha He)), IH by done.
    rewrite fmap_cons. cbn [concat]. rewrite puts_app. done. }
  unfold install_entries. rewrite (bind_run _ _ _ _ _ (Hgo table_slots b0 slots_ok)). done.
Qed.

(** Stubs and slots of different entries do not meet. *)
Lemma entries_apart e e' w :
  areas_ok → slot_ok e → slot_ok e' → e.1 ≠ e'.1 → e.2 ≠ e'.2 → w ∈ entry_writes e → Forall (apart w) (entry_writes e').
Proof.
  intros (H1 & H2 & H3 & H4 & H5) [Hs Hc] [Hs' Hc'] Hn1 Hn2 Hw. unfold entry_writes in *.
  assert (∀ n, size (encode_hvc_stub n) = 12) as Hz by done.
  apply list_elem_of_In in Hw. cbn [In] in Hw.
  destruct Hw as [<-|[<-|[]]]; repeat apply Forall_cons_2; try apply Forall_nil_2;
    unfold apart; cbn [fst snd]; rewrite ?Hz, ?size_le_split; lia.
Qed.

Lemma encode_bytes n : bytes (encode_hvc_stub n).
Proof. unfold encode_hvc_stub. repeat apply Forall_app_2; apply le_split_bytes. Qed.
Lemma encode_decode n : 4096 <= n < 4146 → call_of_stub (encode_hvc_stub n) = Some n.
Proof.
  intros Hn. assert (n ∈ seqZ 4096 50) as Hi by (apply elem_of_seqZ; lia).
  assert (Forall (λ n, call_of_stub (encode_hvc_stub n) = Some n) (seqZ 4096 50)) as Hf by decides.
  rewrite Forall_forall in Hf. by apply Hf.
Qed.

(** The writes that come after those of an entry are apart from them. *)
Lemma later_apart slot nr l1 l2 w :
  areas_ok → table_slots = l1 ++ (slot, nr) :: l2 → w ∈ entry_writes (slot, nr) → Forall (apart w) (concat (entry_writes <$> l2)).
Proof.
  intros Ha El Hw. pose proof slots_ok as Hok. rewrite Forall_forall in Hok. destruct slots_once as [N1 N2].
  apply Forall_concat, Forall_fmap, Forall_forall. intros e' He'. cbn.
  assert ((slot, nr) ∈ table_slots) as He by (rewrite El; apply elem_of_app; right; left).
  assert (e' ∈ table_slots) as He2 by (rewrite El; apply elem_of_app; right; by right).
  rewrite El in N1, N2. rewrite fmap_app, fmap_cons in N1, N2.
  apply NoDup_app in N1 as (_ & _ & N1). apply NoDup_app in N2 as (_ & _ & N2).
  apply NoDup_cons in N1 as [N1 _]. apply NoDup_cons in N2 as [N2 _].
  eapply entries_apart; [done|exact (Hok _ He)|exact (Hok _ He2)| | |exact Hw]; cbn [fst snd].
  - intros ->. apply N1. apply list_elem_of_fmap. by exists e'.
  - intros ->. apply N2. apply list_elem_of_fmap. by exists e'.
Qed.
Lemma entry_written g slot nr :
  areas_ok → mapped_at g table_gpa_ 1864 → mapped_at g stub_base_gpa_ 600 → (slot, nr) ∈ table_slots →
  let a := stub_base_gpa_ + (nr - 4096) * 12 in
  holds_at (byte (puts table_writes g)) (table_gpa_ + slot * 8) (le_split 8 a) ∧
  holds_at (byte (puts table_writes g)) a (encode_hvc_stub nr).
Proof.
  intros Ha Hmt Hms He a. pose proof slots_ok as Hok. rewrite Forall_forall in Hok. pose proof (Hok _ He) as [Hs Hc].
  cbn [fst snd] in Hs, Hc. pose proof Ha as (B1 & B2 & B3 & B4 & B5).
  destruct (list_elem_of_split _ _ He) as (l1 & l2 & El). pose proof (λ w, later_apart slot nr l1 l2 w Ha El) as Hl2.
  assert (∃ u, table_writes = u ++ entry_writes (slot, nr) ++ concat (entry_writes <$> l2)) as [u ->].
  { unfold table_writes. rewrite El, fmap_app, fmap_cons, concat_app. cbn [concat]. eexists (_ :: _). cbn [app]. reflexivity. }
  unfold entry_writes. cbn [app fst snd]. fold a. split.
  - replace (u ++ (a, encode_hvc_stub nr) :: (table_gpa_ + slot * 8, le_split 8 a) :: concat (entry_writes <$> l2))
      with ((u ++ [(a, encode_hvc_stub nr)]) ++ (table_gpa_ + slot * 8, le_split 8 a) :: concat (entry_writes <$> l2))
      by by rewrite <- app_assoc.
    apply (puts_there (u ++ [(a, encode_hvc_stub nr)]) (table_gpa_ + slot * 8, le_split 8 a)).
    + cbn [fst snd]. rewrite size_le_split. intros x Hx. apply Hmt. lia.
    + apply le_split_bytes.
    + apply Hl2. right. left.
  - apply (puts_there u (a, encode_hvc_stub nr)).
    + cbn [fst snd]. change (size (encode_hvc_stub nr)) with 12. intros x Hx. apply Hms. unfold a in Hx. lia.
    + apply encode_bytes.
    + apply Forall_cons_2; [|apply Hl2; left].
      unfold apart. cbn [fst snd]. change (size (encode_hvc_stub nr)) with 12. rewrite size_le_split. unfold a. lia.
Qed.
Lemma slot_empty g slot :
  areas_ok → mapped_at g table_gpa_ 1864 → 0 <= slot < 233 → slot ∉ table_slots.*1 →
  holds_at (byte (puts table_writes g)) (table_gpa_ + slot * 8) (le_split 8 0).
Proof.
  intros (B1 & B2 & B3 & B4 & B5) Hmt Hs Hn. pose proof slots_ok as Hok. rewrite Forall_forall in Hok. unfold table_writes.
  match goal with |- context [puts (?w :: ?c) ?g] => change (puts (w :: c) g) with (puts c (puts [w] g)) end.
  apply (puts_keep _ _ (table_gpa_ + slot * 8, le_split 8 0)).
  - apply Forall_concat, Forall_fmap, Forall_forall. intros e He. cbv beta.
    pose proof (Hok _ He) as [Hes Hec]. assert (e.1 ≠ slot).
    { intros <-. apply Hn. apply list_elem_of_fmap. by exists e. }
    repeat apply Forall_cons_2; try apply Forall_nil_2; unfold apart; cbn [fst snd];
      change (size (encode_hvc_stub e.2)) with 12; rewrite ?size_le_split; lia.
  - cbn [fst snd puts foldl].
    pose proof (write_there g table_gpa_ (replicate (233 * 8) 0) Hmt (bytes_replicate _)) as Hz.
    assert (replicate (233 * 8) 0 = replicate (Z.to_nat (slot * 8)) 0 ++ le_split 8 0 ++ replicate (Z.to_nat ((232 - slot) * 8)) 0) as Es.
    { change (le_split 8 0) with (replicate 8 0). rewrite <- !replicate_add. f_equal. lia. }
    rewrite Es in Hz at 2. apply holds_at_app in Hz as [_ Hz]. apply holds_at_app in Hz as [Hz _].
    rewrite size_replicate in Hz by lia. exact Hz.
Qed.
Lemma slots_handled : Forall (λ e, is_Some (case_of e.2 handlers)) table_slots.
Proof. unfold table_slots. repeat (apply Forall_cons_2; [eexists; reflexivity|]). apply Forall_nil_2. Qed.

(** C31. After [install] every function of the table the bridge has leads to a
    stub that makes the call of its number, for which the dispatcher has a
    case; the other functions are null. *)
Theorem table_installed b :
  areas_ok → mapped_at (br_guest b) table_gpa_ 1864 → mapped_at (br_guest b) stub_base_gpa_ 600 →
  ∃ b', install table_gpa_ stub_base_gpa_ b = Ok ((), b') ∧
    jni_table_gpa_ (br_env b') = table_gpa_ ∧
    (∀ slot nr, (slot, nr) ∈ table_slots →
      ∃ a bs f, holds_at (byte (br_guest b')) (table_gpa_ + slot * 8) (le_split 8 a) ∧
        stub_base_gpa_ <= a < stub_base_gpa_ + 600 ∧
        holds_at (byte (br_guest b')) a bs ∧ call_of_stub bs = Some nr ∧ case_of nr handlers = Some f) ∧
    (∀ slot, 0 <= slot < 233 → slot ∉ table_slots.*1 →
      holds_at (byte (br_guest b')) (table_gpa_ + slot * 8) (le_split 8 0)).
Proof.
  intros Ha Hmt Hms. eexists. split; [by apply install_run|]. split; [done|]. cbn [br_guest set_env set_guest]. split.
  - intros slot nr He. pose proof (proj1 (Forall_forall _ _) slots_ok _ He) as [Hs Hc]. cbn [fst snd] in Hs, Hc.
    destruct (proj1 (Forall_forall _ _) slots_handled _ He) as [f Hf]. destruct (entry_written _ slot nr Ha Hmt Hms He) as [H1 H2].
    exists (stub_base_gpa_ + (nr - 4096) * 12), (encode_hvc_stub nr), f. split; [exact H1|]. split; [lia|].
    split; [exact H2|]. split; [by apply encode_decode|done].
  - intros slot Hs Hn. by apply slot_empty.
Qed.
End Table.

(** ** Calling into the guest

    A call of a guest function gives the guest its arguments and leaves the
    registers of the caller as they were, whatever the guest did; the search
    for a symbol comes to an end and finds the first symbol of the name. *)

(** ** Registers *)

Section Calls.
Context `{G : Guest} `{L : Lib} `{C : Cpu} `{!CpuLaws C}.
Implicit Types (v : vm).

Definition set_regs (rs : list reg) (xs : list Z) (c : cpu) : cpu :=
  foldl (λ c p, set_reg p.1 p.2 c) c (zip rs xs).

Lemma get_all_run rs v : get_all rs v = Ok ((λ r, get_reg r (vm_cpu v)) <$> rs, v).
Proof.
  induction rs as [|r rs IH]; [done|]. cbn [get_all]. rewrite (bind_run _ _ v (get_reg r (vm_cpu v)) v) by done.
  by rewrite (bind_run _ _ _ _ _ IH).
Qed.
Lemma set_all_run rs xs v : set_all rs xs v = Ok ((), set_cpu (set_regs rs xs (vm_cpu v)) v).
Proof.
  revert xs v. induction rs as [|r rs IH]; intros xs v; [by destruct v|]. destruct xs as [|x xs]; [by destruct v|].
  cbn [set_all]. rewrite (bind_run _ _ v () (set_cpu (set_reg r x (vm_cpu v)) v)) by done. by rewrite IH.
Qed.
Lemma get_set_other r rs xs c : r ∉ rs → get_reg r (set_regs rs xs c) = get_reg r c.
Proof.
  revert xs c. induction rs as [|r' rs IH]; intros xs c Hr; [done|]. destruct xs as [|x xs]; [done|].
  apply not_elem_of_cons in Hr as [Hn Hr]. unfold set_regs in *. cbn [zip zip_with foldl fst snd].
  rewrite IH by done. rewrite get_set. by rewrite decide_False.
Qed.
(** Registers set to what they were are what they were. *)
Lemma get_restored r rs (c0 c : cpu) :
  r ∈ rs → get_reg r (set_regs rs ((λ r, get_reg r c0) <$> rs) c) = get_reg r c0.
Proof.
  revert c. induction rs as [|r' rs IH]; intros c Hr; [by apply not_elem_of_nil in Hr|].
  unfold set_regs. rewrite fmap_cons. cbn [zip zip_with foldl fst snd].
  destruct (decide (r ∈ rs)) as [Hin|Hn]; [by apply IH|].
  apply elem_of_cons in Hr as [->|Hr]; [|done].
  assert (∀ c, get_reg r' (set_regs rs ((λ r, get_reg r c0) <$> rs) c) = get_reg r' c) as Ho
    by (intros; by apply get_set_other).
  unfold set_regs in Ho. rewrite Ho, get_set. by rewrite decide_True.
Qed.
(** The arguments in the first registers. *)
Lemma get_args k n xs c i :
  (i < n)%nat → get_reg (X (k + i)) (set_regs (X <$> seq k n) xs c) = default (get_reg (X (k + i)) c) (xs !! i).
Proof.
  revert k xs c i. induction n as [|n IH]; intros k xs c i Hi; [lia|]. cbn [seq]. rewrite fmap_cons.
  destruct xs as [|x xs]; [done|]. unfold set_regs. cbn [zip zip_with foldl fst snd].
  destruct i as [|i].
  - rewrite Nat.add_0_r. assert (X k ∉ X <$> seq (S k) n) as Hn.
    { intros (j & [= <-] & Hj)%list_elem_of_fmap. apply elem_of_seq in Hj. lia. }
    pose proof (get_set_other (X k) (X <$> seq (S k) n) xs (set_reg (X k) x c) Hn) as Ho. unfold set_regs in Ho.
    rewrite Ho, get_set. by rewrite decide_True.
  - specialize (IH (S k) xs (set_reg (X k) x c) i ltac:(lia)). unfold set_regs in IH.
    replace (k + S i)%nat with (S k + i)%nat by lia. rewrite IH, get_set.
    rewrite decide_False; [done|]. intros [= E]. lia.
Qed.

(** Every register of the processor is saved. *)
Lemma all_saved r : (∀ i, r = X i → (i < 31)%nat) → r ∈ saved_registers.
Proof.
  intros Hx. destruct r as [i| | | | | | | |]; [|refine (bool_decide_eq_true_1 _ _); by vm_compute..].
  specialize (Hx i eq_refl). do 31 (destruct i as [|i]; [refine (bool_decide_eq_true_1 _ _); by vm_compute|]). lia.
Qed.

Variable run_loop_cb : St vm ().

(** C30. A call enters the guest at the entry with its first eight arguments,
    a stack and the sentinel as return address; when the guest comes back,
    X0 to X30 and all other registers the host looks at are as they were
    before, and the result is what the sentinel has caught. *)
Theorem guest_call_transparent entry args v :
  ∃ ve,
    (∀ i, (i < 8)%nat → get_reg (X i) (vm_cpu ve) = default 0 (args !! i)) ∧
    get_reg PC (vm_cpu ve) = entry ∧ get_reg LR (vm_cpu ve) = sentinel_stub_gpa_ v ∧
    get_reg SP_EL1 (vm_cpu ve) =
      (let sp := call_stack (get_reg SP_EL0 (vm_cpu v)) (get_reg SP_EL1 (vm_cpu v)) in
       if sp =? 0 then get_reg SP_EL1 (vm_cpu v) else sp) ∧
    vm_bridge ve = vm_bridge v ∧
    ∀ v1, run_loop_cb ve = Ok ((), v1) →
      ∃ v2, call_guest_function run_loop_cb entry args v = Ok (s64 (onload_retval_ v1), v2) ∧
        (∀ r, (∀ i, r = X i → (i < 31)%nat) → get_reg r (vm_cpu v2) = get_reg r (vm_cpu v)) ∧
        vm_bridge v2 = vm_bridge v1.
Proof.
  set (sp := call_stack (get_reg SP_EL0 (vm_cpu v)) (get_reg SP_EL1 (vm_cpu v))).
  set (c1 := if sp =? 0 then vm_cpu v else set_reg SP_EL1 sp (vm_cpu v)).
  set (c2 := set_reg SCTLR_EL1 (Z.lor (get_reg SCTLR_EL1 (vm_cpu v)) 64) c1).
  set (c3 := set_regs (X <$> seq 0 8) (replicate 8 0) c2).
  set (c4 := set_regs (X <$> seq 0 8) args c3).
  set (c5 := set_reg PC entry (set_reg LR (sentinel_stub_gpa_ v) c4)).
  set (ve := set_returned false 0 (set_cpu c5 v)). exists ve.
  assert (∀ r, r ∉ X <$> seq 0 8 → get_reg r c4 = get_reg r c2) as Hc4.
  { intros r Hr. unfold c4, c3. by rewrite !get_set_other. }
  split; [|split; [|split; [|split; [|split; [done|]]]]].
  - intros i Hi. cbn [ve vm_cpu set_returned set_cpu]. unfold c5. rewrite !get_set, !decide_False by (try done; intros [= ->]; lia).
    unfold c4. pose proof (get_args 0 8 args c3 i Hi) as H4. cbn [Nat.add] in H4. rewrite H4.
    destruct (args !! i); [done|]. cbn [default]. unfold c3.
    pose proof (get_args 0 8 (replicate 8 0) c2 i Hi) as H3. cbn [Nat.add] in H3. rewrite H3.
    by rewrite lookup_replicate_2.
  - cbn [ve vm_cpu set_returned set_cpu]. unfold c5. rewrite get_set. by rewrite decide_True.
  - cbn [ve vm_cpu set_returned set_cpu]. unfold c5. rewrite !get_set. by rewrite decide_False, decide_True.
  - cbn [ve vm_cpu set_returned set_cpu]. unfold c5. rewrite !get_set, !decide_False by done.
    rewrite Hc4. 2:{ intros (j & [=] & _)%list_elem_of_fmap. }
    unfold c2. rewrite get_set, decide_False by done. cbn zeta. fold sp. unfold c1.
    destruct (sp =? 0); [done|]. rewrite get_set. by rewrite decide_True.
  - intros v1 Hrun.
    exists (set_cpu (set_regs saved_registers ((λ r, get_reg r (vm_cpu v)) <$> saved_registers) (vm_cpu v1)) v1).
    split; [|split; [|done]].
    + unfold call_guest_function. rewrite (bind_run _ _ _ _ _ (get_all_run saved_registers v)).
      do 3 (rewrite (bind_run _ _ _ _ _ eq_refl)). fold sp.
      rewrite (bind_run _ _ v () (set_cpu c1 v)) by (unfold c1; destruct (sp =? 0); [by destruct v|done]).
      rewrite (bind_run _ _ (set_cpu c1 v) () (set_cpu c2 v)) by done.
      rewrite (bind_run _ _ (set_cpu c2 v) () (set_cpu c3 v)) by (rewrite set_all_run; done).
      rewrite (bind_run _ _ (set_cpu c3 v) () (set_cpu c4 v)) by (rewrite set_all_run; done).
      rewrite (bind_run _ _ (set_cpu c4 v) (sentinel_stub_gpa_ v) (set_cpu c4 v)) by done.
      rewrite (bind_run _ _ (set_cpu c4 v) () (set_cpu (set_reg LR (sentinel_stub_gpa_ v) c4) v)) by done.
      rewrite (bind_run _ _ _ () (set_cpu c5 v)) by done.
      rewrite (bind_run _ _ (set_cpu c5 v) () ve) by done.
      rewrite (bind_run _ _ _ _ _ Hrun). by rewrite (bind_run _ _ _ _ _ (set_all_run _ _ _)).
    + intros r Hr. cbn [vm_cpu set_cpu]. apply get_restored. by apply all_saved.
Qed.
End Calls.

(** ** Symbols *)

Section Symbols.
Context `{Disk}.

(** The symbols of a table at [pos], as far as they are in the file. *)
Definition symbol_at (c : list Z) (pos : Z) (i : nat) : list Z := fread c (pos + Z.of_nat i * 24) 24.
Definition has_name (c name : list Z) (stroff : Z) (sym : list Z) (pos : Z) : bool :=
  negb (sym_name sym =? 0) &&
  eq_str name (c_chars (fread c (fseek pos (u64 (stroff + sym_name sym))) 255)).
(** The walk finds the first symbol of the name, and none if there is none. *)
Lemma walk_symbols_spec c name stroff n pos :
  0 <= pos → pos + Z.of_nat n * 24 <= size c →
  match walk_symbols c name stroff n pos with
  | Some value => ∃ i, (i < n)%nat ∧ value = sym_value (symbol_at c pos i) ∧
      has_name c name stroff (symbol_at c pos i) (pos + Z.of_nat i * 24 + 24) = true ∧
      ∀ j, (j < i)%nat → has_name c name stroff (symbol_at c pos j) (pos + Z.of_nat j * 24 + 24) = false
  | None => ∀ i, (i < n)%nat → has_name c name stroff (symbol_at c pos i) (pos + Z.of_nat i * 24 + 24) = false
  end.
Proof.
  revert pos. induction n as [|n IH]; intros pos Hp Hs; cbn [walk_symbols]; [intros i; lia|].
  assert (size (fread c pos 24) = 24) as Hz.
  { unfold fread, size in *. destruct (Z.leb_spec (Z.of_nat (length c)) pos); [lia|].
    rewrite length_take, length_drop. lia. }
  rewrite Hz. cbn [Z.ltb]. change (24 <? 24) with false. cbv iota.
  assert (symbol_at c pos 0 = fread c pos 24) as H0 by (unfold symbol_at; f_equal; lia).
  specialize (IH (pos + 24) ltac:(lia) ltac:(lia)).
  assert (∀ i, symbol_at c (pos + 24) i = symbol_at c pos (S i)) as Hsh by (intros i; unfold symbol_at; f_equal; lia).
  assert (∀ b, has_name c name stroff (symbol_at c pos 0) (pos + Z.of_nat 0 * 24 + 24) = b ↔
               has_name c name stroff (fread c pos 24) (pos + 24) = b) as Hn0
    by (intros b; rewrite H0; by replace (pos + Z.of_nat 0 * 24 + 24) with (pos + 24) by lia).
  assert (∀ b, has_name c name stroff (fread c pos 24) (pos + 24) = false →
    b = walk_symbols c name stroff n (pos + 24) →
    match b with
    | Some value => ∃ i, (i < S n)%nat ∧ value = sym_value (symbol_at c pos i) ∧
        has_name c name stroff (symbol_at c pos i) (pos + Z.of_nat i * 24 + 24) = true ∧
        ∀ j, (j < i)%nat → has_name c name stroff (symbol_at c pos j) (pos + Z.of_nat j * 24 + 24) = false
    | None => ∀ i, (i < S n)%nat → has_name c name stroff (symbol_at c pos i) (pos + Z.of_nat i * 24 + 24) = false
    end) as Hnext.
  { intros b Hf ->. destruct (walk_symbols c name stroff n (pos + 24)) as [value|].
    - destruct IH as (i & Hi & Hv & Ht & Hj). exists (S i). rewrite <- Hsh.
      replace (pos + Z.of_nat (S i) * 24) with (pos + 24 + Z.of_nat i * 24) by lia. split_and!; [lia|done|done|].
      intros [|j] Hlt; [by apply Hn0|]. rewrite <- Hsh.
      replace (pos + Z.of_nat (S j) * 24) with (pos + 24 + Z.of_nat j * 24) by lia. apply Hj. lia.
    - intros [|i] Hi; [by apply Hn0|]. rewrite <- Hsh.
      replace (pos + Z.of_nat (S i) * 24) with (pos + 24 + Z.of_nat i * 24) by lia. apply IH. lia. }
  unfold has_name in Hnext at 1. destruct (sym_name (fread c pos 24) =? 0) eqn:Ez; cbn [negb andb] in *.
  - by apply Hnext.
  - destruct (eq_str name _) eqn:En.
    + exists 0%nat. rewrite H0. split_and!; [lia|done| |intros j; lia].
      unfold has_name. rewrite Ez. replace (pos + Z.of_nat 0 * 24 + 24) with (pos + 24) by lia. by rewrite En.
    + by apply Hnext.
Qed.
(** More rounds than the file has symbols make no difference. *)
Lemma walk_symbols_enough c name stroff n k pos :
  0 <= pos → size c < pos + Z.of_nat n * 24 → walk_symbols c name stroff (n + k) pos = walk_symbols c name stroff n pos.
Proof.
  revert pos. induction n as [|n IH]; intros pos Hp Hs.
  - assert (size (fread c pos 24) < 24) as Hz by (rewrite fread_end by lia; done).
    destruct k; [done|]. cbn [Nat.add walk_symbols]. by destruct (Z.ltb_spec (size (fread c pos 24)) 24); [|lia].
  - cbn [Nat.add walk_symbols]. repeat case_match; try done; apply IH; lia.
Qed.
Lemma symbol_rounds_enough c name stroff count pos :
  0 <= pos → 0 <= count →
  walk_symbols c name stroff (symbol_rounds c count) pos = walk_symbols c name stroff (Z.to_nat count) pos.
Proof.
  intros Hp Hc. unfold symbol_rounds. pose proof (size_nonneg c) as Hn.
  destruct (Z.leb_spec count (size c / 24 + 1)); [by rewrite Z.min_l|]. rewrite Z.min_r by lia.
  replace (Z.to_nat count) with (Z.to_nat (size c / 24 + 1) + Z.to_nat (count - (size c / 24 + 1)))%nat by (zdm).
  rewrite walk_symbols_enough; [done|done|]. zdm.
Qed.
End Symbols.
