(* ===== verification/JniToy.v ===== *)
(** * The JNI at work

    A guest whose whole memory can be read and written, a library that has
    memory for up to a gigabyte, a processor that is its registers; and the
    theorems on the JNI at concrete states of these. *)

From S2P Require Import Prelude Decimal Cxx GuestMem HostFile JniEnv JniBridge JniOnload JniProps JniBridgeProps JniArrays JniCallProps.

(** ** The guest *)

Fixpoint toy_write (g : gmap Z Z) (a : Z) (bs : list Z) : gmap Z Z :=
  match bs with [] => g | b :: bs => <[a := b]> (toy_write g (a + 1) bs) end.
Fixpoint toy_read (g : gmap Z Z) (a : Z) (n : nat) : list Z :=
  match n with O => [] | S n => u8 (default 0 (g !! a)) :: toy_read g (a + 1) n end.
Definition toy_str (g : gmap Z Z) (a : Z) (buf : list Z) : list Z :=
  match buf with [] => [] | _ :: buf => toy_read g a (length buf) ++ [0] end.
#[global] Instance toy_guest : Guest := {
  guest := gmap Z Z;
  guest_read g a buf := (true, toy_read g a (length buf));
  guest_write g a bs := (true, toy_write g a bs);
  guest_read_str := toy_str;
  elf_load_min g := 0;
  guest_size g := 8589934592;
}.

Lemma length_toy_read g a n : length (toy_read g a n) = n.
Proof. revert a. induction n as [|n IH]; intros a; [done|]. cbn. by rewrite IH. Qed.
Lemma toy_read_bytes g a n : bytes (toy_read g a n).
Proof. revert a. induction n as [|n IH]; intros a; [constructor|]. cbn. constructor; [apply u8_range|apply IH]. Qed.
Lemma toy_read_at g a n : holds_at (λ x, u8 (default 0 (g !! x))) a (toy_read g a n).
Proof.
  revert a. induction n as [|n IH]; intros a i b; [done|]. cbn [toy_read]. destruct i as [|i]; cbn.
  - intros [= <-]. by rewrite Z.add_0_r.
  - intros Hi. rewrite <- (IH _ _ _ Hi). do 3 f_equal. lia.
Qed.
Lemma toy_write_lookup g a bs x :
  toy_write g a bs !! x = if decide (a <= x < a + size bs) then bs !! Z.to_nat (x - a) else g !! x.
Proof.
  revert a. induction bs as [|b bs IH]; intros a; cbn [toy_write].
  - rewrite decide_False; [done|]. rewrite size_nil. lia.
  - rewrite size_cons. pose proof (size_nonneg bs). destruct (decide (x = a)) as [->|Hn].
    + rewrite lookup_insert_eq, decide_True by lia. by rewrite Z.sub_diag.
    + rewrite lookup_insert_ne, IH by done. destruct (decide (a + 1 <= x < a + 1 + size bs)).
      * rewrite decide_True by lia. replace (Z.to_nat (x - a)) with (S (Z.to_nat (x - (a + 1)))) by lia. done.
      * rewrite decide_False by lia. done.
Qed.
#[global] Program Instance toy_guest_laws : GuestLaws toy_guest := {
  byte g x := u8 (default 0 ((g : gmap Z Z) !! x));
  mapped g x := true;
}.
Next Obligation. intros. apply u8_range. Qed.
Next Obligation. intros. apply length_toy_read. Qed.
Next Obligation. intros. apply toy_read_bytes. Qed.
Next Obligation. done. Qed.
Next Obligation. intros. apply toy_read_at. Qed.
Next Obligation. done. Qed.
Next Obligation.
  intros g a bs _ Hb i b Hi. cbn. rewrite toy_write_lookup. pose proof (lookup_lt_Some _ _ _ Hi) as Hl.
  rewrite decide_True by (unfold size; lia). replace (Z.to_nat (a + Z.of_nat i - a)) with i by lia. rewrite Hi. cbn.
  apply u8_small. eapply Forall_lookup_1; [exact Hb|exact Hi].
Qed.
Next Obligation. intros g a bs x Hx. cbn. by rewrite toy_write_lookup, decide_False. Qed.
Next Obligation. done. Qed.
Next Obligation. done. Qed.
Next Obligation. intros g a [|b buf]; [done|]. cbn. rewrite length_app, length_toy_read. cbn. lia. Qed.
Next Obligation. intros g a [|b buf]; [done|]. intros _. cbn. apply elem_of_app. right. left. Qed.
Next Obligation.
  intros g a [|b buf] _; [constructor|]. cbn. apply Forall_app_2; [apply toy_read_bytes|by repeat constructor].
Qed.
Next Obligation.
  intros g a buf s _ Hs Hz Hh. cbn in *. destruct buf as [|b buf]; [pose proof (size_nonneg s); change (size []) with 0 in Hz; lia|].
  cbn [toy_str]. rewrite size_cons in Hz. unfold size in Hz. pose proof (length_toy_read g a (length buf)) as Hl.
  destruct (decide (length s = length buf)) as [E|E].
  - rewrite take_ge by (rewrite length_app, Hl; cbn; lia). f_equal. apply holds_at_app in Hh as [Hh _].
    eapply holds_at_eq; [apply toy_read_at|exact Hh|lia].
  - rewrite take_app_le by lia. eapply holds_at_eq; [|exact Hh|].
    + intros i x Hi. apply lookup_take_Some in Hi as [Hi _]. by apply (toy_read_at g a (length buf)).
    + rewrite length_take, Hl, length_app. cbn [length]. lia.
Qed.

#[global] Instance toy_lib : Lib := { alloc_ok n := n <? 1073741824; walk A m := map_to_list m }.
#[global] Instance toy_lib_laws : LibLaws toy_lib.
Proof. by split. Qed.
#[global] Instance toy_cpu : Cpu := {
  cpu := reg → Z; get_reg r c := c r; set_reg r v c := λ r', if decide (r' = r) then v else c r'
}.
#[global] Instance toy_cpu_laws : CpuLaws toy_cpu.
Proof. by split. Qed.

(** Bytes that are written out. *)
Ltac some_bytes := repeat (apply Forall_cons_2; [unfold in_u8; lia|]); apply Forall_nil_2.

(** Checking what is at an address. *)
Fixpoint at_check (byte : Z → Z) (a : Z) (bs : list Z) : bool :=
  match bs with [] => true | b :: bs => (byte a =? b) && at_check byte (a + 1) bs end.
Lemma at_check_holds byte a bs : at_check byte a bs = true → holds_at byte a bs.
Proof.
  revert a. induction bs as [|b bs IH]; intros a; cbn [at_check]; [by intros _ i x|].
  intros [H1%Z.eqb_eq H2]%andb_true_iff i x. destruct i as [|i]; cbn.
  - intros [= <-]. by rewrite Z.add_0_r.
  - intros Hi. rewrite <- (IH _ H2 _ _ Hi). f_equal. lia.
Qed.
Lemma toy_string g a s :
  forallb (λ b, (1 <=? b) && (b <? 256)) s = true → size s < 512 →
  at_check (byte g) a (s ++ [0]) = true → string_at g a s.
Proof.
  intros Hs Hz Ha. split; [|split; [done|split; [done|by apply at_check_holds]]].
  apply Forall_forall. intros x Hx. rewrite forallb_forall in Hs.
  specialize (Hs x (proj1 (list_elem_of_In _ _) Hx)). lia.
Qed.

(** ** States *)

(** The state after a computation. *)
Definition left_by {S A} (s0 : S) (m : St S A) : S := match m s0 with Ok (_, s) => s | _ => s0 end.
Lemma left_ok {A} (m : St jni A) j :
  jni_ok j → holds m j (λ _ j', jni_ok j') → jni_ok (left_by j m).
Proof. unfold left_by, holds. destruct (m j) as [[a j']| | |]; auto. Qed.
Lemma keeps_left {A} n (m : St jni A) j : jni_ok j → room n j → keeps n m → jni_ok (left_by j m).
Proof. intros Hj Hr Hm. apply left_ok; [done|]. eapply holds_mono; [by apply Hm|]. by intros a j' [? _]. Qed.

(** A class, and arrays of two ints and of twice 40000 bytes. *)
Definition j_class : jni := left_by new_env (register_class (cs "com/example/Foo")).
Definition j_ints : jni := left_by j_class (make_array Int 2).
Definition j_bytes : jni := left_by j_ints (make_array Byte 40000).
Definition j_all : jni := left_by j_bytes (make_array Byte 40000).
Lemma j_class_ok : jni_ok j_class.
Proof. apply (keeps_left 1); [apply new_env_ok|done|apply keeps_register_class]. Qed.
Lemma j_ints_ok : jni_ok j_ints.
Proof. apply (keeps_left 2); [apply j_class_ok|vm_compute; done|by apply keeps_make_array]. Qed.
Lemma j_bytes_ok : jni_ok j_bytes.
Proof. apply (keeps_left 2); [apply j_ints_ok|vm_compute; done|by apply keeps_make_array]. Qed.
Lemma j_all_ok : jni_ok j_all.
Proof. apply (keeps_left 2); [apply j_bytes_ok|by vm_compute|by apply keeps_make_array]. Qed.

(** Names and a table of natives in the memory of the guest. *)
Definition toy_memory : gmap Z Z :=
  toy_write (toy_write (toy_write ∅ 4096 (cs "add" ++ [0])) 4128 (cs "(II)I" ++ [0])) 4160
    (le_split 8 4096 ++ le_split 8 4128 ++ le_split 8 8192).
Definition toy_bridge (j : jni) : bridge := Bridge toy_memory j 0 0.
Definition toy_stubs : Z := 8053063680.

(** Some calls: an array is made, an exception looked at, a region written. *)
Definition toy_calls : list (Z * list Z) :=
  [(JNI_NewIntArray, [0; 4; 0; 0; 0; 0; 0; 0]); (JNI_ExceptionOccurred, [0; 0; 0; 0; 0; 0; 0; 0]);
   (JNI_SetIntArrayRegion, [0; 1879048195; 1; 1; 4096; 0; 0; 0])].
Lemma jni_calls_safe_witness :
  ∃ l b, room (2 * Z.of_nat (length l)) (br_env b) ∧
    holds (hvcs toy_stubs l) b (λ _ b', jni_ok (br_env b') ∧ grows (2 * Z.of_nat (length l)) (br_env b) (br_env b')).
Proof.
  exists toy_calls, (toy_bridge j_ints). split; [by vm_compute|].
  apply jni_calls_safe; [apply j_ints_ok|by vm_compute|].
  repeat (apply Forall_cons_2; [split; [repeat (apply Forall_cons_2; [unfold in_u64; cbn; lia|]); apply Forall_nil_2|vm_compute; done]|]).
  apply Forall_nil_2.
Defined.
Lemma region_roundtrip_witness :
  ∃ b1 b2 bs,
    handle_hvc toy_stubs JNI_SetIntArrayRegion (region_regs 1879048195 1 1 4160) (toy_bridge j_ints) = Ok (0, b1) ∧
    handle_hvc toy_stubs JNI_GetIntArrayRegion (region_regs 1879048195 1 1 8192) b1 = Ok (0, b2) ∧
    holds_at (byte (br_guest b2)) 8192 bs ∧ bs = [0; 16; 0; 0].
Proof.
  destruct (region_roundtrip toy_stubs Int JNI_GetIntArrayRegion (toy_bridge j_ints) 1879048195 [0; 0] 1 1 4160 8192
              [0; 16; 0; 0]) as (b1 & b2 & H1 & H2 & _ & H4); try done.
  - apply j_ints_ok.
  - some_bytes.
  - apply at_check_holds. by vm_compute.
  - by exists b1, b2, [0; 16; 0; 0].
Defined.
(** A start of [2^64 - 1] and a length of one. *)
Lemma regions_wrap_witness :
  handle_hvc toy_stubs JNI_SetIntArrayRegion (region_regs 1879048195 18446744073709551615 1 4160) (toy_bridge j_ints) = Stray ∧
  handle_hvc toy_stubs JNI_GetIntArrayRegion (region_regs 1879048195 18446744073709551615 1 4160) (toy_bridge j_ints) = Stray.
Proof.
  destruct (regions_wrap toy_stubs Int (toy_bridge j_ints) 1879048195 [0; 0] 18446744073709551615 1 4160 [0; 16; 0; 0])
    as [H1 H2]; try done.
  - some_bytes.
  - apply at_check_holds. by vm_compute.
Defined.
Lemma string_roundtrip_witness :
  ∃ h b1 gpa b2,
    handle_hvc toy_stubs JNI_NewStringUTF [0; 4096; 0; 0; 0; 0; 0; 0] (toy_bridge j_class) = Ok (h, b1) ∧
    handle_hvc toy_stubs JNI_GetStringUTFChars [0; h; 0; 0; 0; 0; 0; 0] b1 = Ok (gpa, b2) ∧
    holds_at (byte (br_guest b2)) gpa (cs "add" ++ [0]).
Proof.
  destruct (string_roundtrip toy_stubs (toy_bridge j_class) 4096 (cs "add"))
    as (h & b1 & gpa & b2 & H1 & H2 & _ & _ & H3 & _); try done.
  - apply toy_string; by vm_compute.
  - by exists h, b1, gpa, b2.
Defined.
Lemma elements_roundtrip_witness :
  ∃ p b1 b2,
    handle_hvc toy_stubs JNI_GetIntArrayElements [0; 1879048195; 0; 0; 0; 0; 0; 0] (toy_bridge j_ints) = Ok (p, b1) ∧
    handle_hvc toy_stubs JNI_ReleaseIntArrayElements [0; 1879048195; p; 0; 0; 0; 0; 0]
      (set_guest (toy_write ∅ p [1; 0; 0; 0; 2; 0; 0; 0]) b1) = Ok (0, b2) ∧
    int_arrays_ (br_env b2) !! 1879048195 = Some [1; 2].
Proof.
  destruct (elements_roundtrip toy_stubs Int (toy_bridge j_ints) 1879048195 [0; 0]) as (p & b1 & H1 & _ & _ & _ & H2); try done.
  - apply j_ints_ok.
  - destruct (H2 (toy_write ∅ p [1; 0; 0; 0; 2; 0; 0; 0]) 0 [1; 0; 0; 0; 2; 0; 0; 0]) as (b2 & H3 & H4); try done.
    + some_bytes.
    + refine (write_there (∅ : gmap Z Z) p [1; 0; 0; 0; 2; 0; 0; 0] _ _); [done|]. some_bytes.
    + exists p, b1, b2. split; [exact H1|split; [exact H3|exact H4]].
Defined.
Definition zeros : list Z := replicate (Z.to_nat 40000) 0.
Lemma j_all_zeros : byte_arrays_ j_all !! 1879048197 = Some zeros ∧ byte_arrays_ j_all !! 1879048198 = Some zeros.
Proof. split; vm_cast_no_check (eq_refl (Some zeros)). Qed.
Lemma size_zeros : size zeros = 40000.
Proof. unfold size, zeros. rewrite length_replicate. lia. Qed.
Lemma elements_clobbered_witness :
  ∃ p b1 b2 b3,
    handle_hvc toy_stubs JNI_GetByteArrayElements [0; 1879048197; 0; 0; 0; 0; 0; 0] (toy_bridge j_all) = Ok (p, b1) ∧
    handle_hvc toy_stubs JNI_GetByteArrayElements [0; 1879048198; 0; 0; 0; 0; 0; 0] b1 = Ok (p, b2) ∧
    handle_hvc toy_stubs JNI_ReleaseByteArrayElements [0; 1879048197; p; 0; 0; 0; 0; 0] b2 = Ok (0, b3) ∧
    byte_arrays_ (br_env b3) !! 1879048197 = Some zeros.
Proof.
  apply (elements_clobbered toy_stubs (toy_bridge j_all) 1879048197 1879048198 zeros zeros).
  - by unfold base_ok, toy_stubs.
  - apply j_all_ok.
  - apply j_all_zeros.
  - apply j_all_zeros.
  - rewrite size_zeros. lia.
  - done.
  - done.
  - by rewrite size_zeros.
  - done.
Defined.

(** A method is looked up, an array made, the method looked up again. *)
Abbreviation toy_method := (handle_hvc toy_stubs JNI_GetMethodID (method_regs 1879048193 4096 4128)).
Definition runs {S A} (m : St S A) (s : S) : bool := match m s with Ok _ => true | _ => false end.
Lemma run_left {S A} (m : St S A) s : runs m s = true → ∃ x, m s = Ok (x, left_by s m).
Proof. unfold runs, left_by. destruct (m s) as [[x s']| | |]; [|done..]. by exists x. Qed.
Definition bridge1 : bridge := left_by (toy_bridge j_ints) toy_method.
Definition bridge2 : bridge := left_by bridge1 (hvcs toy_stubs toy_calls).
Lemma bridge2_class : is_Some (classes_ (br_env bridge2) !! 1879048193).
Proof. refine (bool_decide_eq_true_1 _ _). vm_cast_no_check (eq_refl true). Qed.
Lemma toy_name g : at_check (byte g) 4096 (cs "add" ++ [0]) = true → string_at (g : gmap Z Z) 4096 (cs "add").
Proof. by apply toy_string. Qed.
Lemma toy_sig g : at_check (byte g) 4128 (cs "(II)I" ++ [0]) = true → string_at (g : gmap Z Z) 4128 (cs "(II)I").
Proof. by apply toy_string. Qed.
Lemma bridge_ints_ok : jni_ok (br_env (toy_bridge j_ints)).
Proof. exact j_ints_ok. Qed.
#[local] Opaque j_ints bridge1 bridge2.
Lemma method_ids_witness :
  ∃ m1 m2 b3,
    toy_method (toy_bridge j_ints) = Ok (m1, bridge1) ∧ hvcs toy_stubs toy_calls bridge1 = Ok ((), bridge2) ∧
    toy_method bridge2 = Ok (m2, b3) ∧ m1 = m2.
Proof.
  destruct (run_left toy_method (toy_bridge j_ints)) as [m1 E1]; [vm_cast_no_check (eq_refl true)|].
  destruct (run_left (hvcs toy_stubs toy_calls) bridge1) as [[] E2]; [vm_cast_no_check (eq_refl true)|].
  destruct (run_left toy_method bridge2) as [m2 E3]; [vm_cast_no_check (eq_refl true)|].
  exists m1, m2, (left_by bridge2 toy_method). split; [exact E1|split; [exact E2|split; [exact E3|]]].
  refine (proj2 (method_ids toy_stubs (toy_bridge j_ints) 1879048193 4096 4128 (cs "add") (cs "(II)I") m1 bridge1
    toy_calls bridge2 1879048193 4096 4128 (cs "add") (cs "(II)I") m2 (left_by bridge2 toy_method)
    bridge_ints_ok _ _ bridge2_class _ _ _ _ _ _ _ _ _ E1 E2 E3) eq_refl).
  - vm_cast_no_check (eq_refl Lt).
  - refine (bool_decide_eq_true_1 _ _). vm_cast_no_check (eq_refl true).
  - done.
  - done.
  - done.
  - done.
  - apply toy_name. vm_cast_no_check (eq_refl true).
  - apply toy_sig. vm_cast_no_check (eq_refl true).
  - apply toy_name. vm_cast_no_check (eq_refl true).
  - apply toy_sig. vm_cast_no_check (eq_refl true).
  - repeat (apply Forall_cons_2; [split; [repeat (apply Forall_cons_2; [unfold in_u64; cbn; lia|]); apply Forall_nil_2|vm_compute; done]|]).
    apply Forall_nil_2.
Defined.

Definition toy_native : native_entry := NE 4096 4128 8192 (cs "add") (cs "(II)I").
Lemma natives_registered_witness :
  ∃ b', handle_hvc toy_stubs JNI_RegisterNatives [0; 1879048193; 4160; 1; 0; 0; 0; 0] (toy_bridge j_class) = Ok (0, b') ∧
    find_native 1879048193 (cs "add") (cs "(II)I") (br_env b') = 8192.
Proof.
  destruct (natives_registered toy_stubs (toy_bridge j_class) 1879048193 4160 [toy_native])
    as (b' & H1 & _ & _ & H2).
  - apply j_class_ok.
  - eexists. by vm_compute.
  - intros [|i] e; [|done]. intros [= <-]. split; [lia|split; [lia|]].
    split; [done|split; [done|split; [done|split; [done|split]]]].
    + apply at_check_holds. by vm_compute.
    + split; apply toy_string; by vm_compute.
  - exists b'. split; [exact H1|]. by rewrite H2.
Defined.

Lemma table_installed_witness :
  ∃ b', install 8053260288 toy_stubs (toy_bridge new_env) = Ok ((), b') ∧ jni_table_gpa_ (br_env b') = 8053260288.
Proof.
  destruct (table_installed 8053260288 toy_stubs (toy_bridge new_env)) as (b' & H1 & H2 & _); try done.
  - unfold areas_ok, toy_stubs. lia.
  - by exists b'.
Defined.

(** A guest that spoils registers and returns 7 at the sentinel. *)
Definition toy_run : St vm () :=
  λ v, Ok ((), Vm (vm_bridge v) (λ r, 13) (java_vm_table_gpa_ v) (java_vm_ptr_gpa_ v) (jni_env_ptr_gpa_ v) true 7
                  (sentinel_stub_gpa_ v)).
Definition toy_vm : vm := Vm (toy_bridge new_env) (λ r, 5) 0 0 0 false 0 8053063000.
Lemma guest_call_transparent_witness :
  ∃ v2, call_guest_function toy_run 8192 [1; 2] toy_vm = Ok (7, v2) ∧ get_reg (X 3) (vm_cpu v2) = 5.
Proof.
  destruct (guest_call_transparent toy_run 8192 [1; 2] toy_vm) as (ve & _ & _ & _ & _ & _ & H).
  edestruct H as (v2 & H1 & H2 & _); [reflexivity|]. exists v2. split; [exact H1|].
  rewrite H2; [done|]. intros i [= <-]. lia.
Defined.
