(* ===== verification/RunNames.v ===== *)
(** * The guest runner: environment and native calls

    platform/android-aarch64/elf/guest_runner.cpp: the environment of a guest,
    the names native methods are exported under, the signatures they have, and
    the arguments and structures the runner makes up for their calls. *)

From S2P Require Import Prelude Decimal Cxx GuestMem HostFile JniEnv JniBridge JniOnload.

(** ** The environment of the guest *)

(** platform/android-aarch64/elf/guest_runner.cpp:193-197 (env_key) *)
Definition env_key (env : list Z) : list Z :=
  let eq := str_find env (cs "=") 0 in
  if eq =? npos then env else take (Z.to_nat eq) env.
(** platform/android-aarch64/elf/guest_runner.cpp:199-209 (env_has_key) *)
Definition env_has_key (env : list (list Z)) (key : list Z) : bool :=
  let prefix := key ++ cs "=" in existsb (is_prefix prefix) env.
(** platform/android-aarch64/elf/guest_runner.cpp:222-229 (merge_environment) *)
Definition whitelist : list (list Z) :=
  [cs "TERM"; cs "LANG"; cs "LC_ALL"; cs "LC_CTYPE"; cs "WAYLAND_DISPLAY"; cs "XDG_RUNTIME_DIR";
   cs "MUPLAR_LAUNCHER3_SCREENSHOT"].
(** platform/android-aarch64/elf/guest_runner.cpp:249-280 (merge_environment)
    The keys that get a value, for Android and for others. *)
Definition guest_defaults (is_android : bool) : list (list Z * list Z) :=
  if is_android then
    [(cs "PATH", cs "/sbin:/system/sbin:/system/bin:/system/xbin"); (cs "HOME", cs "/data");
     (cs "USER", cs "root"); (cs "SHELL", cs "/system/bin/sh")]
  else
    [(cs "PATH", cs "/usr/local/sbin:/usr/local/bin:/usr/sbin:/usr/bin:/sbin:/bin"); (cs "HOME", cs "/home/muplar");
     (cs "USER", cs "muplar"); (cs "SHELL", cs "/bin/sh")].
(** platform/android-aarch64/elf/guest_runner.cpp:249-280 (merge_environment) *)
Definition add_default (env : list (list Z)) (d : list Z * list Z) : list (list Z) :=
  if env_has_key env d.1 then env else env ++ [d.1 ++ cs "=" ++ d.2].
(** platform/android-aarch64/elf/guest_runner.cpp:217-244 (merge_environment)
    What is taken from the host. *)
Definition inherited (environ overrides : list (list Z)) : list (list Z) :=
  let override_keys := env_key <$> overrides in
  filter (λ entry, env_key entry ∈ whitelist ∧ env_key entry ∉ override_keys) environ.
(** platform/android-aarch64/elf/guest_runner.cpp:211-283 (merge_environment) *)
Definition merge_environment (environ overrides : list (list Z)) (is_android : bool) : list (list Z) :=
  foldl add_default (inherited environ overrides ++ overrides) (guest_defaults is_android).

(** ** Names *)

(** platform/android-aarch64/elf/guest_runner.cpp:285-295 (normalize_jni_class_name) *)
Definition normalize_jni_class_name (name : list Z) : list Z :=
  let name := (λ c, if c =? 46 then 47 else c) <$> name in
  if (2 <=? size name) && (hd 0 name =? 76) && (List.last name 0 =? 59)
  then take (Z.to_nat (size name - 2)) (drop 1 name) else name.
(** A digit of [%04x]. *)
Definition hex_digit (n : Z) : Z := if n <? 10 then 48 + n else 87 + n.
(** platform/android-aarch64/elf/guest_runner.cpp:302-316 (jni_mangle)
    What a byte becomes. *)
Definition mangle_byte (c : Z) : list Z :=
  if is_alnum c then [c]
  else if (c =? 47) || (c =? 46) then cs "_"
  else if c =? 95 then cs "_1"
  else if c =? 59 then cs "_2"
  else if c =? 91 then cs "_3"
  else cs "_000" ++ [hex_digit (c / 16); hex_digit (c mod 16)].
(** platform/android-aarch64/elf/guest_runner.cpp:297-319 (jni_mangle) *)
Definition jni_mangle (value : list Z) : list Z := concat (mangle_byte <$> value).
(** platform/android-aarch64/elf/guest_runner.cpp:400-404 (jni_export_base) *)
Definition jni_export_base (class_name method_name : list Z) : list Z :=
  cs "Java_" ++ jni_mangle class_name ++ cs "_" ++ jni_mangle method_name.

(** ** Signatures *)

(** platform/android-aarch64/elf/guest_runner.cpp:321-332 (jni_argument_signature) *)
Definition jni_argument_signature (signature : list Z) : res (option (list Z)) :=
  let open := str_find signature (cs "(") 0 in
  let close := str_find signature (cs ")") (if open =? npos then 0 else open) in
  if (open =? npos) || (close =? npos) || (close <=? open) then Ok None
  else Some <$> substr signature (open + 1) (close - open - 1).
(** platform/android-aarch64/elf/guest_runner.cpp:344-345 (parse_jni_parameter_types) *)
Definition skip_brackets (args : list Z) (i : Z) : res Z :=
  loop (S (length args)) (λ i,
    if i <? size args then c ← at_ args i; Ok (if c =? 91 then Next (i + 1) else Stop i) else Ok (Stop i)) i.
(** platform/android-aarch64/elf/guest_runner.cpp:356-358 (parse_jni_parameter_types) *)
Definition is_primitive (c : Z) : bool := existsb (Z.eqb c) (cs "ZBCSIJFD").
(** platform/android-aarch64/elf/guest_runner.cpp:341-361 (parse_jni_parameter_types)
    A pass of the loop, with the types found so far. *)
Definition parameter_body (args : list Z) '((i, types) : Z * list (list Z)) :
    res (ctl (Z * list (list Z)) (option (list (list Z)))) :=
  if size args <=? i then Ok (Stop (Some types)) else
  let start := i in
  i ← skip_brackets args i;
  if size args <=? i then Ok (Stop None) else
  c ← at_ args i;
  let push i := t ← substr args start (i - start); Ok (Next (i, types ++ [t])) in
  if c =? 76 then
    let end_ := str_find args (cs ";") i in
    if end_ =? npos then Ok (Stop None) else push (end_ + 1)
  else if is_primitive c then push (i + 1) else Ok (Stop None).
(** platform/android-aarch64/elf/guest_runner.cpp:334-366 (parse_jni_parameter_types) *)
Definition parse_jni_parameter_types (signature : list Z) : res (option (list (list Z))) :=
  args ← jni_argument_signature signature;
  match args with
  | None => Ok None
  | Some args => loop (S (length args)) (parameter_body args) (0, [])
  end.
(** platform/android-aarch64/elf/guest_runner.cpp:368-371 (jni_type_is_object_like) *)
Definition jni_type_is_object_like (type : list Z) : bool :=
  negb (eq_str type []) && ((hd 0 type =? 76) || (hd 0 type =? 91)).
(** platform/android-aarch64/elf/guest_runner.cpp:373-378 (jni_class_from_type) *)
Definition jni_class_from_type (type : list Z) : list Z :=
  if (2 <=? size type) && (hd 0 type =? 76) && (List.last type 0 =? 59)
  then take (Z.to_nat (size type - 2)) (drop 1 type) else type.
(** platform/android-aarch64/elf/guest_runner.cpp:380-384 (jni_type_is_direct_buffer) *)
Definition jni_type_is_direct_buffer (type : list Z) : bool :=
  eq_str type (cs "Ljava/nio/Buffer;") || eq_str type (cs "Ljava/nio/ByteBuffer;") ||
  eq_str type (cs "Ljava/nio/DirectByteBuffer;").

(** ** Calls *)

(** platform/android-aarch64/elf/guest_runner.h:30-38 (JniCallConfig) *)
Record JniCallConfig := JniCall {
  jc_enabled : bool; jc_class_name : list Z; jc_method_name : list Z; jc_signature : list Z;
  jc_int_args : list Z; jc_receiver_explicit : bool; jc_receiver_static : bool;
}.

Section Calls.
Context `{G : Guest} `{L : Lib} `{D : Disk} `{C : Cpu}.

(** A method of the environment. *)
Definition on_env {A} (m : St jni A) : St vm A := on_bridge (env m).

(** platform/android-aarch64/elf/guest_runner.cpp:431-437 (resolve_jni_call_target) *)
Definition export_names (class_name : list Z) (call : JniCallConfig) : res (list (list Z)) :=
  let base := jni_export_base class_name (jc_method_name call) in
  args_sig ← jni_argument_signature (jc_signature call);
  Ok (base :: match args_sig with Some a => [base ++ cs "__" ++ jni_mangle a] | None => [] end).
(** platform/android-aarch64/elf/guest_runner.cpp:439-447 (resolve_jni_call_target) *)
Fixpoint first_symbol (so_load_base : Z) (so_path : list Z) (names : list (list Z)) : res Z :=
  match names with
  | [] => Ok 0
  | symbol :: names =>
      fn ← find_symbol so_load_base so_path symbol;
      if fn =? 0 then first_symbol so_load_base so_path names else Ok fn
  end.
(** platform/android-aarch64/elf/guest_runner.cpp:406-452 (resolve_jni_call_target)
    The function and the name of the class. *)
Definition resolve_jni_call_target (so_load_base : Z) (so_path : list Z) (call : JniCallConfig) : St vm (Z * list Z) :=
  let class_name := normalize_jni_class_name (jc_class_name call) in
  cls ← on_env (find_class class_name);
  fn ← (if cls =? 0 then mret 0
        else on_env (get (find_native cls (jc_method_name call) (jc_signature call))));
  if negb (fn =? 0) then mret (fn, class_name) else
  names ← pure (export_names class_name call);
  fn ← pure (first_symbol so_load_base so_path names);
  mret (fn, class_name).

(** [guest_write(g, gpa, bs, n)] *)
Definition put_vm (gpa : Z) (bs : list Z) : St vm () := on_bridge (put gpa bs).

(** platform/android-aarch64/elf/guest_runner.cpp:386-398 (alloc_guest_scratch)
    With the value of the bump, which is returned too. *)
Definition alloc_guest_scratch (bump sz fill : Z) : St vm (Z * Z) :=
  let ptr := Z.land (u64 (bump + 15)) (u64 (Z.lnot 15)) in
  let bump := u64 (ptr + Z.land (u64 (sz + 15)) (u64 (Z.lnot 15))) in
  bytes ← on_env (new_vector 1 sz fill);
  _ ← (if size bytes =? 0 then mret () else put_vm ptr bytes);
  mret (ptr, bump).

(** The arrays of numbers a type stands for. *)
Definition array_of_type (type : list Z) : option kind :=
  if eq_str type (cs "[B") then Some Byte else if eq_str type (cs "[I") then Some Int
  else if eq_str type (cs "[J") then Some Long else if eq_str type (cs "[F") then Some Float else None.
(** platform/android-aarch64/elf/guest_runner.cpp:2170-2179 (run)
    platform/android-aarch64/elf/guest_runner.cpp:2182-2192 (run) *)
Definition string_or_array (type : list Z) : option (St jni Z) :=
  if eq_str type (cs "Ljava/lang/String;") then Some (make_string (cs "muplar"))
  else (λ k, make_array k 4) <$> array_of_type type.
(** platform/android-aarch64/elf/guest_runner.cpp:2168-2205 (run)
    The value made up for a parameter, and the bump of the scratch area. *)
Definition synthetic_arg (type : list Z) (bump : Z) : St vm (Z * Z) :=
  match string_or_array type with
  | Some m => v ← on_env m; mret (v, bump)
  | None =>
      if negb (eq_str type []) && (hd 0 type =? 91) then
        let element_desc := drop 1 type in
        initial ← match string_or_array element_desc with Some m => on_env m | None => mret 0 end;
        v ← on_env (make_object_array (jni_class_from_type element_desc) 4 initial);
        mret (v, bump)
      else if jni_type_is_direct_buffer type then
        '(data, bump) ← alloc_guest_scratch bump 256 0;
        v ← on_env (make_direct_buffer data 256);
        mret (v, bump)
      else if jni_type_is_object_like type then
        v ← on_env (register_object (jni_class_from_type type));
        mret (v, bump)
      else mret (0, bump)
  end.
(** platform/android-aarch64/elf/guest_runner.cpp:2158-2207 (run)
    The parameters, the values that are given for the first of them, and the
    bump. *)
Fixpoint native_args (param_types : list (list Z)) (int_args : list Z) (bump : Z) : St vm (list Z) :=
  match param_types, int_args with
  | [], _ => mret []
  | _ :: types, i :: ints => args ← native_args types ints bump; mret (i :: args)
  | type :: types, [] =>
      '(value, bump) ← synthetic_arg type bump;
      args ← native_args types [] bump;
      mret (s64 value :: args)
  end.

Variable run_loop_cb : St vm ().

(** platform/android-aarch64/elf/guest_runner.cpp:2148-2156 (run) *)
Definition call_receiver (call : JniCallConfig) (class_name : list Z) : St vm Z :=
  if negb (jc_receiver_explicit call) then mret 0
  else if jc_receiver_static call then
    _ ← on_env (register_class class_name);
    on_env (find_class class_name)
  else on_env (register_object class_name).
(** platform/android-aarch64/elf/guest_runner.cpp:2121-2218 (run)
    The exit code, and what the method returned. *)
Definition run_jni_call (elf_load_min_ : Z) (elf_path : list Z) (synthetic_arg_gpa : Z) (call : JniCallConfig) :
    St vm (Z * option Z) :=
  types ← pure (parse_jni_parameter_types (jc_signature call));
  match types with
  | None => mret (1, None)
  | Some param_types =>
      if (6 <? Z.of_nat (length param_types)) || (Z.of_nat (length param_types) <? Z.of_nat (length (jc_int_args call)))
      then mret (1, None) else
      '(fn, class_name) ← resolve_jni_call_target elf_load_min_ elf_path call;
      if fn =? 0 then mret (1, None) else
      receiver ← call_receiver call class_name;
      args ← native_args param_types (jc_int_args call) synthetic_arg_gpa;
      ret ← call_native run_loop_cb fn receiver args;
      mret (0, Some ret)
  end.

(** ** Native activities *)

(** platform/android-aarch64/elf/guest_runner.cpp:464-467 (write_guest_string) *)
Definition write_guest_string (gpa : Z) (value : list Z) : St vm () := put_vm gpa (c_chars value ++ [0]).
(** platform/android-aarch64/elf/guest_runner.cpp:459-462 (write_guest_u64) *)
Definition write_guest_u64 (gpa value : Z) : St vm () := put_vm gpa (le_split 8 value).
(** platform/android-aarch64/elf/guest_runner.cpp:469-519 (prepare_native_activity) *)
Definition prepare_native_activity (scratch_gpa asset_manager_gpa activity_object : Z) (package_name : list Z) : St vm Z :=
  let activity_gpa := scratch_gpa in
  let callbacks_gpa := u64 (scratch_gpa + 256) in
  let internal_path_gpa := u64 (scratch_gpa + 512) in
  let external_path_gpa := u64 (scratch_gpa + 768) in
  let obb_path_gpa := u64 (scratch_gpa + 1024) in
  _ ← put_vm scratch_gpa (replicate (Z.to_nat 1280) 0);
  let package := if eq_str package_name [] then cs "muplar" else package_name in
  let internal_path := cs "/data/data/" ++ package in
  let external_path := cs "/sdcard/Android/data/" ++ package ++ cs "/files" in
  let obb_path := cs "/sdcard/Android/obb/" ++ package in
  _ ← write_guest_string internal_path_gpa internal_path;
  _ ← write_guest_string external_path_gpa external_path;
  _ ← write_guest_string obb_path_gpa obb_path;
  java_vm_ptr ← get java_vm_ptr_gpa_;
  jni_env_ptr ← get jni_env_ptr_gpa_;
  _ ← write_guest_u64 (u64 (activity_gpa + 0)) callbacks_gpa;
  _ ← write_guest_u64 (u64 (activity_gpa + 8)) java_vm_ptr;
  _ ← write_guest_u64 (u64 (activity_gpa + 16)) jni_env_ptr;
  _ ← write_guest_u64 (u64 (activity_gpa + 24)) activity_object;
  _ ← write_guest_u64 (u64 (activity_gpa + 32)) internal_path_gpa;
  _ ← write_guest_u64 (u64 (activity_gpa + 40)) external_path_gpa;
  _ ← put_vm (u64 (activity_gpa + 48)) (le_split 4 35);
  _ ← write_guest_u64 (u64 (activity_gpa + 56)) 0;
  _ ← write_guest_u64 (u64 (activity_gpa + 64)) asset_manager_gpa;
  _ ← write_guest_u64 (u64 (activity_gpa + 72)) obb_path_gpa;
  mret activity_gpa.
End Calls.
