(* ===== verification/RunNamesProps.v ===== *)
(** * The guest runner: environment, names and signatures

    Which value a variable has in the environment of a guest; that signatures
    are taken apart into exactly their types; that the names of native methods
    can be read back. *)

From S2P Require Import Prelude Decimal Cxx GuestMem HostFile JniEnv JniBridge JniOnload RunNames.

(** ** The environment *)

(** The value of a variable: of the first entry for it. *)
Fixpoint getenv (env : list (list Z)) (key : list Z) : option (list Z) :=
  match env with
  | [] => None
  | e :: env => if is_prefix (key ++ cs "=") e then Some (drop (S (length key)) e) else getenv env key
  end.
(** What a guest gets when nothing is said. *)
Definition default_of (is_android : bool) (key : list Z) : option (list Z) :=
  list_find (λ d, d.1 = key) (guest_defaults is_android) ≫= λ p, Some p.2.2.

Lemma getenv_app env1 env2 key :
  getenv (env1 ++ env2) key = match getenv env1 key with Some v => Some v | None => getenv env2 key end.
Proof. induction env1 as [|e env IH]; [done|]. cbn [app getenv]. by destruct (is_prefix _ e). Qed.
Lemma has_key_getenv env key : env_has_key env key = match getenv env key with Some _ => true | None => false end.
Proof.
  induction env as [|e env IH]; [done|]. unfold env_has_key in *. cbn [existsb getenv].
  destruct (is_prefix _ e); [done|]. by rewrite IH.
Qed.
(** Where a byte is for the first time. *)
Lemma split_unique (c : Z) a x b y : c ∉ a → c ∉ b → a ++ c :: x = b ++ c :: y → a = b ∧ x = y.
Proof.
  revert b. induction a as [|z a IH]; intros [|w b] Ha Hb He; cbn [app] in He.
  - by injection He as ->.
  - injection He as <- _. set_solver.
  - injection He as -> _. set_solver.
  - injection He as <- He. destruct (IH b) as [-> ->]; [set_solver|set_solver|done|done].
Qed.
(** The key of an entry for [key]. *)
Lemma env_key_of key e : 61 ∉ key → size e < npos → is_prefix (key ++ cs "=") e = true → env_key e = key.
Proof.
  intros Hk Hs [t ->]%is_prefix_spec. unfold env_key. cbv zeta.
  change (str_find ((key ++ cs "=") ++ t) (cs "=") 0) with (str_find ([] ++ ((key ++ [61]) ++ t)) [61] (size [])).
  rewrite <- app_assoc. cbn [app].
  destruct (find_char [] (key ++ 61 :: t) 61) as [[_ Hn]|(f & r & He & Hf & Hx)]; [set_solver|].
  cbn [app] in Hx. rewrite Hx, size_nil, Z.add_0_l.
  destruct (split_unique 61 key t f r Hk Hf He) as [<- _].
  rewrite (proj2 (Z.eqb_neq _ _)).
  - rewrite <- app_assoc. apply take_size_app.
  - rewrite !size_app in Hs. pose proof (size_nonneg t). pose proof (size_nonneg (cs "=")). lia.
Qed.
Lemma getenv_In env key v : 61 ∉ key → Forall (λ e, size e < npos) env → getenv env key = Some v → key ∈ env_key <$> env.
Proof.
  intros Hk Hs. induction Hs as [|e env He Hs IH]; [done|]. cbn [getenv]. rewrite fmap_cons.
  destruct (is_prefix _ e) eqn:E.
  - intros _. apply elem_of_cons. left. symmetry. by apply env_key_of.
  - intros H. apply elem_of_cons. right. by apply IH.
Qed.
Lemma getenv_filter (P Q : list Z → Prop) `{!∀ k, Decision (P k)} `{!∀ k, Decision (Q k)} env key :
  (∀ e, Q e ↔ P (env_key e)) → 61 ∉ key → Forall (λ e, size e < npos) env →
  getenv (filter Q env) key = if decide (P key) then getenv env key else None.
Proof.
  intros HQ Hk Hs. induction Hs as [|e env He Hs IH]; [by case_decide|]. rewrite filter_cons.
  cbn [getenv]. destruct (is_prefix (key ++ cs "=") e) eqn:E.
  - specialize (HQ e). rewrite (env_key_of key e) in HQ by done.
    destruct (decide (Q e)) as [q|q]; [cbn [getenv]; rewrite E, decide_True by tauto; done|].
    rewrite IH. by rewrite !decide_False by tauto.
  - destruct (decide (Q e)); [cbn [getenv]; rewrite E|]; exact IH.
Qed.
Lemma getenv_add env d key :
  61 ∉ d.1 → 61 ∉ key →
  getenv (add_default env d) key =
  match getenv env key with Some v => Some v | None => if decide (d.1 = key) then Some d.2 else None end.
Proof.
  intros Hd Hk. unfold add_default. rewrite has_key_getenv.
  assert (getenv [d.1 ++ cs "=" ++ d.2] key = if decide (d.1 = key) then Some d.2 else None) as Hone.
  { cbn [getenv]. destruct (decide (d.1 = key)) as [<-|Hn].
    - rewrite app_assoc, is_prefix_app. f_equal. rewrite <- app_assoc. replace (S (length d.1)) with (length (d.1 ++ cs "=")).
      2:{ rewrite length_app. cbn. lia. }
      rewrite app_assoc. apply drop_app_length.
    - destruct (is_prefix _ _) eqn:E; [|done]. exfalso. apply Hn. apply is_prefix_spec in E as [t E].
      rewrite <- app_assoc in E. cbn [cs app] in E. clear Hn. revert E Hd Hk. generalize (d.1) as u. intros u. revert key.
      induction u as [|x u IH]; intros [|y key] E Hu Hk; [done|injection E as E _; set_solver|injection E as E _; set_solver|].
      injection E as <- E. f_equal. apply (IH key E); set_solver. }
  destruct (getenv env d.1) as [w|] eqn:Ew.
  - destruct (getenv env key) eqn:Ek; [done|]. destruct (decide (d.1 = key)) as [<-|]; [congruence|done].
  - rewrite getenv_app, Hone. done.
Qed.
(** A variable of the guest has the value the overrides give it; else, if
    it is on the list of what may be inherited and no override mentions it,
    the value it has on the host; else the default. *)
Theorem environment_merged host overrides is_android key :
  61 ∉ key → Forall (λ e, size e < npos) host → Forall (λ e, size e < npos) overrides →
  getenv (merge_environment host overrides is_android) key =
    match getenv overrides key with
    | Some v => Some v
    | None =>
        match (if decide (key ∈ whitelist ∧ key ∉ env_key <$> overrides) then getenv host key else None) with
        | Some v => Some v
        | None => default_of is_android key
        end
    end.
Proof.
  intros Hk Hh Ho. unfold merge_environment.
  assert (∀ ds env, Forall (λ d, 61 ∉ d.1) ds →
    getenv (foldl add_default env ds) key =
    match getenv env key with Some v => Some v | None => list_find (λ d, d.1 = key) ds ≫= λ p, Some p.2.2 end) as Hds.
  { induction ds as [|d ds IH]; intros env Hf; cbn [foldl]; [by destruct (getenv env key)|].
    apply Forall_cons in Hf as [Hd Hf]. rewrite IH, getenv_add by done.
    destruct (getenv env key); [done|]. cbn [list_find]. destruct (decide (d.1 = key)); [done|].
    by destruct (list_find _ ds) as [[i x]|]. }
  rewrite Hds, getenv_app.
  2:{ destruct is_android; decides. }
  unfold inherited. cbv zeta.
  rewrite (getenv_filter (λ k, k ∈ whitelist ∧ k ∉ env_key <$> overrides)
             (λ e, env_key e ∈ whitelist ∧ env_key e ∉ env_key <$> overrides)) by done.
  destruct (getenv overrides key) as [v|] eqn:Ev.
  - rewrite decide_False; [done|]. intros [_ Hn]. by apply Hn, (getenv_In _ _ v).
  - unfold default_of. destruct (if decide _ then getenv host key else None); [done|].
    by destruct (list_find _ _) as [[i d]|].
Qed.

(** ** Signatures *)

(** The types of Java in a signature. *)
Inductive jtype : list Z → Prop :=
  | jt_primitive c : is_primitive c = true → jtype [c]
  | jt_class n : 59 ∉ n → jtype (76 :: n ++ [59])
  | jt_array t : jtype t → jtype (91 :: t).
(** The first type of a list of them, and the rest. *)
Fixpoint next_type (w : list Z) : option (list Z * list Z) :=
  match w with
  | [] => None
  | c :: w' =>
      if c =? 91 then '(t, r) ← next_type w'; Some (91 :: t, r)
      else if c =? 76 then
        match find_idx (Z.eqb 59) w' with
        | Some i => Some (76 :: take i w' ++ [59], drop (S i) w')
        | None => None
        end
      else if is_primitive c then Some ([c], w') else None
  end.

Lemma find_idx_split c n r : c ∉ n → find_idx (Z.eqb c) (n ++ c :: r) = Some (length n).
Proof.
  intros Hn. induction n as [|x n IH]; cbn [app find_idx]; [by rewrite Z.eqb_refl|].
  rewrite (proj2 (Z.eqb_neq _ _)) by set_solver. rewrite IH by set_solver. done.
Qed.
Lemma primitive_not c : is_primitive c = true → c ≠ 91 ∧ c ≠ 76 ∧ c ≠ 59.
Proof. intros H. split_and!; intros ->; done. Qed.
Lemma next_type_spec w t r : next_type w = Some (t, r) ↔ w = t ++ r ∧ jtype t.
Proof.
  split.
  - revert t r. induction w as [|c w IH]; intros t r; cbn [next_type]; [done|].
    destruct (Z.eqb_spec c 91) as [->|H1].
    { destruct (next_type w) as [[t' r']|]; [|done]. intros [= <- <-]. destruct (IH t' r' eq_refl) as [-> Ht].
      split; [done|by constructor]. }
    destruct (Z.eqb_spec c 76) as [->|H2].
    { destruct (find_idx (Z.eqb 59) w) as [i|] eqn:Ei; [|done]. intros [= <- <-].
      apply find_idx_Some in Ei as [(x & Hx & <-%Z.eqb_eq) Hbefore]. split.
      - cbn [app]. rewrite <- app_assoc. cbn [app]. f_equal. symmetry. by apply take_drop_middle.
      - constructor. intros [j Hj]%list_elem_of_lookup. apply lookup_take_Some in Hj as [Hj Hl].
        specialize (Hbefore j 59 Hl Hj). by rewrite Z.eqb_refl in Hbefore. }
    destruct (is_primitive c) eqn:Ep; [|done]. intros [= <- <-]. split; [done|by constructor].
  - intros [-> Ht]. induction Ht as [c Hc|n Hn|t Ht IH]; cbn [next_type app].
    + destruct (primitive_not c Hc) as (H1 & H2 & _). rewrite !(proj2 (Z.eqb_neq _ _)) by done. by rewrite Hc.
    + rewrite <- app_assoc. cbn [app]. rewrite find_idx_split by done. cbn. rewrite take_app_length.
      f_equal. f_equal. replace (S (length n)) with (length (n ++ [59])) by (rewrite length_app; cbn; lia).
      replace (n ++ 59 :: r) with ((n ++ [59]) ++ r) by (by rewrite <- app_assoc). apply drop_app_length.
    + by rewrite IH.
Qed.
Lemma jtype_nonempty t : jtype t → t ≠ [].
Proof. by destruct 1. Qed.

(** The brackets in front of a type. *)
Lemma brackets_split w : ∃ k w', w = replicate k 91 ++ w' ∧ hd 0 w' ≠ 91.
Proof.
  induction w as [|c w (k & w' & -> & Hw)]; [by exists 0%nat, []|].
  destruct (decide (c = 91)) as [->|Hc]; [by exists (S k), w'|]. by exists 0%nat, (c :: replicate k 91 ++ w').
Qed.
Lemma size_repeated k x : size (replicate k x) = Z.of_nat k.
Proof. unfold size. by rewrite length_replicate. Qed.
Definition bracket_body (args : list Z) (i : Z) : res (ctl Z Z) :=
  if i <? size args then c ← at_ args i; Ok (if c =? 91 then Next (i + 1) else Stop i) else Ok (Stop i).
Lemma bracket_stop u w : hd 0 w ≠ 91 → bracket_body (u ++ w) (size u) = Ok (Stop (size u)).
Proof.
  intros Hw. unfold bracket_body. rewrite size_app. destruct w as [|c w].
  - by rewrite size_nil, (proj2 (Z.ltb_ge _ _)) by lia.
  - rewrite size_cons. pose proof (size_nonneg w). rewrite (proj2 (Z.ltb_lt _ _)) by lia.
    unfold size. rewrite at_app. cbn [mbind res_bind]. cbn in Hw. by rewrite (proj2 (Z.eqb_neq c 91)).
Qed.
Lemma bracket_next u w : bracket_body (u ++ 91 :: w) (size u) = Ok (Next (size (u ++ [91]))).
Proof.
  unfold bracket_body. rewrite !size_app, size_cons. pose proof (size_nonneg w).
  rewrite (proj2 (Z.ltb_lt _ _)) by lia. unfold size. by rewrite at_app.
Qed.
Lemma skip_run u k w : hd 0 w ≠ 91 → skip_brackets (u ++ replicate k 91 ++ w) (size u) = Ok (size u + Z.of_nat k).
Proof.
  intros Hw. change (skip_brackets ?a ?i) with (loop (S (length a)) (bracket_body a) i).
  assert (∀ fuel k u, (k <= fuel)%nat →
    loop (S fuel) (bracket_body (u ++ replicate k 91 ++ w)) (size u) = Ok (size u + Z.of_nat k)) as H.
  { clear k u. induction fuel as [|fuel IH]; intros k u Hk.
    - destruct k as [|k]; [|lia]. cbn [replicate app]. rewrite Z.add_0_r. by rewrite (loop_stop _ _ _ _ (bracket_stop u w Hw)).
    - destruct k as [|k].
      + cbn [replicate app]. rewrite Z.add_0_r. by rewrite (loop_stop _ _ _ _ (bracket_stop u w Hw)).
      + cbn [replicate app]. rewrite (loop_next _ _ _ _ (bracket_next u (replicate k 91 ++ w))).
        specialize (IH k (u ++ [91]) ltac:(lia)). rewrite <- app_assoc in IH. cbn [app] in IH. rewrite IH.
        rewrite size_app, size_cons, size_nil. f_equal. lia. }
  apply H. rewrite !length_app, length_replicate. lia.
Qed.

Lemma next_brackets k w : next_type (replicate k 91 ++ w) = (λ '(t, r), (replicate k 91 ++ t, r)) <$> next_type w.
Proof.
  induction k as [|k IH]; cbn [replicate app].
  - by destruct (next_type w) as [[t r]|].
  - cbn [next_type]. rewrite Z.eqb_refl, IH. by destruct (next_type w) as [[t r]|].
Qed.
(** A pass takes the next type off. *)
Lemma parameter_body_run u w ts :
  size (u ++ w) < npos → w ≠ [] →
  parameter_body (u ++ w) (size u, ts) =
    Ok match next_type w with Some (t, r) => Next (size (u ++ t), ts ++ [t]) | None => Stop None end.
Proof.
  intros Hs Hne. unfold parameter_body. rewrite (proj2 (Z.leb_gt _ _)).
  2:{ rewrite size_app. destruct w; [done|]. rewrite size_cons. pose proof (size_nonneg w). lia. }
  destruct (brackets_split w) as (k & w' & -> & Hw). rewrite skip_run by done. rewrite next_brackets.
  set (bs := replicate k 91) in *. cbn [mbind res_bind].
  assert (size bs = Z.of_nat k) as Hbs by apply size_repeated.
  replace (size u + Z.of_nat k) with (size (u ++ bs)) by (rewrite size_app; lia).
  assert (∀ t r, w' = t ++ r →
    substr (u ++ bs ++ w') (size u) (size (u ++ bs) + size t - size u) = Ok (bs ++ t)) as Hsub.
  { intros t r ->. rewrite size_app. replace (size u + size bs + size t - size u) with (size (bs ++ t)) by (rewrite size_app; lia).
    rewrite (app_assoc bs t r). apply substr_field. }
  destruct w' as [|c w'].
  - rewrite app_nil_r. rewrite (proj2 (Z.leb_le _ _)) by lia. done.
  - pose proof (size_nonneg w'). rewrite (proj2 (Z.leb_gt _ _)) by (rewrite !size_app, size_cons; lia).
    assert (at_ (u ++ bs ++ c :: w') (size (u ++ bs)) = Ok c) as -> by (rewrite app_assoc; apply at_app).
    cbn [mbind res_bind]. cbn in Hw. cbn [next_type].
    rewrite (proj2 (Z.eqb_neq c 91)) by done. destruct (Z.eqb_spec c 76) as [->|H2].
    + destruct (find_char (u ++ bs) (76 :: w') 59) as [[Hf Hno]|(f & r & He & Hf & Hx)].
      * change (cs ";") with [59]. rewrite <- app_assoc in Hf. rewrite Hf. cbn [fmap option_fmap option_map].
        rewrite (proj2 (find_idx_None _ _)); [done|]. intros x Hx. apply Z.eqb_neq. intros <-. apply Hno. by right.
      * change (cs ";") with [59]. rewrite <- app_assoc in Hx. rewrite Hx. destruct f as [|y f]; [done|]. injection He as <- He.
        rewrite (proj2 (Z.eqb_neq _ _)).
        2:{ rewrite He in Hs. repeat rewrite ?size_app, ?size_cons in Hs. rewrite !size_app, !size_cons.
            pose proof (size_nonneg r). lia. }
        rewrite He, find_idx_split by set_solver. cbn [fmap option_fmap option_map].
        rewrite take_app_length. specialize (Hsub (76 :: f ++ [59]) r).
        replace (size (u ++ bs) + size (76 :: f) + 1) with (size (u ++ bs) + size (76 :: f ++ [59])).
        2:{ rewrite !size_cons, !size_app, size_cons, size_nil. lia. }
        rewrite <- He, Hsub.
        2:{ rewrite He. cbn [app]. f_equal. by rewrite <- app_assoc. }
        cbn. do 2 f_equal. f_equal. rewrite !size_app. lia.
    + destruct (is_primitive c); [|done]. specialize (Hsub [c] w' eq_refl).
      rewrite size_cons, size_nil in Hsub. cbn [app] in Hsub. rewrite Z.add_0_r in Hsub. rewrite Hsub. cbn. do 2 f_equal. f_equal.
      rewrite !size_app. rewrite size_cons, size_nil. lia.
Qed.

(** All types of a list of them. *)
Lemma types_loop fuel u w ts :
  size (u ++ w) < npos → (length w < fuel)%nat →
  ∃ r, loop fuel (parameter_body (u ++ w)) (size u, ts) = Ok r ∧
    ∀ ts', r = Some ts' ↔ ∃ tw, ts' = ts ++ tw ∧ w = concat tw ∧ Forall jtype tw.
Proof.
  revert u w ts. induction fuel as [|fuel IH]; intros u w ts Hs Hl; [lia|].
  destruct (decide (w = [])) as [->|Hne].
  { exists (Some ts). split.
    - apply loop_stop. unfold parameter_body. rewrite app_nil_r. by rewrite (proj2 (Z.leb_le _ _)) by lia.
    - intros ts'. split.
      + intros [= <-]. exists []. by rewrite app_nil_r.
      + intros (tw & -> & Hc & Ht). destruct Ht as [|t tw Ht _]; [by rewrite app_nil_r|].
        cbn [concat] in Hc. symmetry in Hc. apply app_eq_nil in Hc as [-> _]. by apply jtype_nonempty in Ht. }
  pose proof (parameter_body_run u w ts Hs Hne) as Hb. destruct (next_type w) as [[t r]|] eqn:En.
  - apply next_type_spec in En as [-> Ht]. pose proof (jtype_nonempty t Ht) as Htn.
    destruct (IH (u ++ t) r (ts ++ [t])) as (res & Hres & Hiff).
    { by rewrite <- app_assoc. }
    { rewrite length_app in Hl. destruct t; [done|]. cbn in Hl. lia. }
    exists res. split; [rewrite (loop_next _ _ _ _ Hb); by rewrite app_assoc|].
    intros ts'. rewrite Hiff. split.
    + intros (tw & -> & -> & Hf). exists (t :: tw). rewrite <- app_assoc. split; [done|split; [done|by constructor]].
    + intros (tw & -> & Hc & Hf). destruct Hf as [|t2 tw Ht2 Hf]; [done|]. cbn [concat] in Hc.
      assert (Some (t, r) = Some (t2, concat tw)) as [= <- ->].
      { rewrite <- (proj2 (next_type_spec (t ++ r) t r)) by done. by apply next_type_spec. }
      exists tw. by rewrite <- app_assoc.
  - exists None. split; [by apply loop_stop|]. intros ts'. split; [done|].
    intros (tw & _ & Hc & Hf). destruct Hf as [|t tw Ht _]; [done|]. cbn [concat] in Hc.
    by rewrite (proj2 (next_type_spec w t (concat tw))) in En.
Qed.
Lemma argument_signature_run sig : size sig < npos →
  ∃ r, jni_argument_signature sig = Ok r ∧
    ∀ args, r = Some args ↔ ∃ pre post, sig = pre ++ 40 :: args ++ 41 :: post ∧ 40 ∉ pre ∧ 41 ∉ args.
Proof.
  intros Hs. unfold jni_argument_signature. change (cs "(") with [40]. change (cs ")") with [41]. cbv zeta.
  destruct (find_char [] sig 40) as [[Ho Hn]|(f & r & -> & Hf & Ho)]; cbn [app] in Ho; change (size []) with 0 in Ho; rewrite Ho.
  { exists None. split; [done|]. intros args. split; [done|]. intros (pre & post & -> & _). set_solver. }
  rewrite Z.add_0_l. assert (size f < npos) as Hfs by (rewrite size_app, size_cons in Hs; pose proof (size_nonneg r); lia).
  rewrite (proj2 (Z.eqb_neq (size f) npos)) by lia. cbn [orb].
  destruct (find_char f (40 :: r) 41) as [[Hc Hn]|(g & post & He & Hg & Hc)]; rewrite Hc.
  { exists None. split; [done|]. intros args. split; [done|]. intros (pre & post & Hsig & Hpre & _).
    apply split_unique in Hsig as [-> ->]; [|done..]. set_solver. }
  destruct g as [|x g]; [done|]. injection He as <- ->. rewrite size_cons. pose proof (size_nonneg g). pose proof (size_nonneg post).
  rewrite (proj2 (Z.eqb_neq _ npos)) by (repeat rewrite ?size_app, ?size_cons in Hs; lia).
  rewrite (proj2 (Z.leb_gt _ _)) by lia. cbn [orb]. exists (Some g). split.
  - replace (size f + 1) with (size (f ++ [40])) by (rewrite size_app, size_cons, size_nil; lia).
    replace (size f + (1 + size g) - size f - 1) with (size g) by lia.
    replace (f ++ 40 :: g ++ 41 :: post) with ((f ++ [40]) ++ g ++ 41 :: post) by (by rewrite <- app_assoc).
    by rewrite substr_field.
  - intros args. split.
    + intros [= <-]. exists f, post. split_and!; [done|done|set_solver].
    + intros (pre & post' & Hsig & Hpre & Hargs). apply split_unique in Hsig as [-> Hsig]; [|done..].
      apply split_unique in Hsig as [-> _]; [done|set_solver|done].
Qed.
(** C12. Taking a signature apart always ends; it gives just the types whose
    concatenation is between the parentheses, and nothing when that is no
    sequence of types. *)
Theorem signature_parsed sig : size sig < npos →
  ∃ r, parse_jni_parameter_types sig = Ok r ∧
    ∀ ts, r = Some ts ↔ ∃ pre post,
      sig = pre ++ 40 :: concat ts ++ 41 :: post ∧ 40 ∉ pre ∧ 41 ∉ concat ts ∧ Forall jtype ts.
Proof.
  intros Hs. unfold parse_jni_parameter_types. destruct (argument_signature_run sig Hs) as (ra & -> & Ha). cbn [mbind res_bind].
  destruct ra as [args|].
  - destruct (proj1 (Ha args) eq_refl) as (pre & post & -> & Hpre & Hargs).
    destruct (types_loop (S (length args)) [] args []) as (r & Hr & Hiff); [|lia|].
    { cbn [app]. rewrite !size_app, size_cons, size_app in Hs. pose proof (size_nonneg pre). pose proof (size_nonneg (41 :: post)). lia. }
    exists r. split; [exact Hr|]. intros ts. rewrite Hiff. split.
    + intros (tw & -> & -> & Ht). cbn [app]. by exists pre, post.
    + intros (pre' & post' & He & Hp' & Hc & Ht). exists ts. cbn [app]. split; [done|split; [|done]].
      apply split_unique in He as [-> He]; [|done..]. by apply split_unique in He as [-> _].
  - exists None. split; [done|]. intros ts. split; [done|]. intros (pre & post & He & Hp & Hc & _).
    assert (None = Some (concat ts)) as [=]. apply Ha. by exists pre, post.
Qed.

(** ** Names of native methods *)

(** Reading a mangled name. *)
Definition hex_value (c : Z) : Z := if c <? 58 then c - 48 else c - 87.
Fixpoint unmangle (s : list Z) : list Z :=
  match s with
  | [] => []
  | c :: s1 =>
      if c =? 95 then
        match s1 with
        | d :: s2 =>
            if d =? 49 then 95 :: unmangle s2
            else if d =? 50 then 59 :: unmangle s2
            else if d =? 51 then 91 :: unmangle s2
            else if d =? 48 then
              match s2 with
              | _ :: _ :: h :: l :: s3 => hex_value h * 16 + hex_value l :: unmangle s3
              | _ => []
              end
            else 47 :: unmangle s1
        | [] => [47]
        end
      else c :: unmangle s1
  end.
(** Names whose parts do not start with a digit, with slashes for dots. *)
Fixpoint java_name (v : list Z) : Prop :=
  match v with
  | [] => True
  | c :: v => in_u8 c ∧ c ≠ 46 ∧ (c = 47 → is_digit (hd 0 v) = false) ∧ java_name v
  end.

Lemma hex_digit_value n : 0 <= n < 16 → hex_value (hex_digit n) = n.
Proof. intros Hn. unfold hex_value, hex_digit. destruct (Z.ltb_spec n 10); [rewrite (proj2 (Z.ltb_lt _ _)) by lia|rewrite (proj2 (Z.ltb_ge _ _)) by lia]; lia. Qed.
(** What a mangled name starts with. *)
Lemma mangle_hd v : is_digit (hd 0 v) = false → is_digit (hd 0 (jni_mangle v)) = false.
Proof.
  destruct v as [|c v]; [done|]. cbn [hd]. intros Hc. unfold jni_mangle. cbn [fmap list_fmap concat]. unfold mangle_byte.
  destruct (is_alnum c); [done|]. destruct ((c =? 47) || (c =? 46)); [done|].
  destruct (c =? 95); [done|]. destruct (c =? 59); [done|]. by destruct (c =? 91).
Qed.
Lemma unmangle_mangle v : java_name v → unmangle (jni_mangle v) = v.
Proof.
  induction v as [|c v IH]; [done|]. intros (Hb & H46 & Hd & Hv). specialize (IH Hv).
  change (jni_mangle (c :: v)) with (mangle_byte c ++ jni_mangle v). unfold mangle_byte.
  destruct (is_alnum c) eqn:Ea.
  { cbn [app unmangle]. rewrite (proj2 (Z.eqb_neq c 95)) by (intros ->; done). by rewrite IH. }
  destruct (Z.eqb_spec c 47) as [->|H47]; cbn [orb].
  { specialize (mangle_hd v (Hd eq_refl)). change (cs "_") with [95]. cbn [app unmangle]. rewrite Z.eqb_refl.
    destruct (jni_mangle v) as [|d s] eqn:Es; [intros _; cbn in IH; by rewrite <- IH|]. cbn [hd]. intros Hdig.
    unfold is_digit in Hdig. rewrite !(proj2 (Z.eqb_neq d _)) by (intros ->; done). by rewrite IH. }
  rewrite (proj2 (Z.eqb_neq c 46)) by done.
  destruct (Z.eqb_spec c 95) as [->|H95]; [cbn; by rewrite IH|].
  destruct (Z.eqb_spec c 59) as [->|H59]; [cbn; by rewrite IH|].
  destruct (Z.eqb_spec c 91) as [->|H91]; [cbn; by rewrite IH|].
  cbn. rewrite IH. f_equal. unfold in_u8 in Hb. rewrite !hex_digit_value by zdm. zdm.
Qed.
(** Different methods have different export names. *)
Theorem export_names_distinct c m c' m' :
  java_name (c ++ 47 :: m) → java_name (c' ++ 47 :: m') → 47 ∉ m → 47 ∉ m' →
  jni_export_base c m = jni_export_base c' m' → c = c' ∧ m = m'.
Proof.
  intros Hn Hn' Hm Hm'.
  assert (∀ c m, jni_export_base c m = cs "Java_" ++ jni_mangle (c ++ 47 :: m)) as Hbase.
  { intros. unfold jni_export_base, jni_mangle. by rewrite fmap_app, concat_app. }
  rewrite !Hbase. intros H%app_inv_head. apply (f_equal unmangle) in H. rewrite !unmangle_mangle in H by done.
  apply (f_equal reverse) in H. rewrite !reverse_app, !reverse_cons, <- !app_assoc in H. cbn [app] in H.
  apply split_unique in H as [H1 H2]; [|by rewrite elem_of_reverse..].
  split; apply (inj reverse); done.
Qed.
