(* ===== verification/GpuStubs.v ===== *)
(** * Stubs for the functions of system libraries

    platform/commons/runtime/gpu_bridge.h and gpu_bridge.cpp: the stubs in the
    memory of the guest that stand for functions of system libraries, and
    those made for functions there is nothing for.  What a handler does is not
    part of this: a handler is [Known] or one that ends the process. *)

From S2P Require Import Prelude Decimal Cxx GuestMem.

(** platform/commons/runtime/gpu_bridge.h:219-219 (HVC_STUB_SIZE) *)
Definition HVC_STUB_SIZE : Z := 16.
(** platform/commons/runtime/gpu_bridge.h:284-284 (HVC_UNSUPPORTED_IMPORT_BASE) *)
Definition HVC_UNSUPPORTED_IMPORT_BASE : Z := 11776.
(** platform/commons/runtime/gpu_bridge.h:285-285 (HVC_UNSUPPORTED_IMPORT_LIMIT) *)
Definition HVC_UNSUPPORTED_IMPORT_LIMIT : Z := 12288.
(** platform/commons/runtime/gpu_bridge.cpp:278-289 (encode_stub) *)
Definition encode_stub (hvc_nr : Z) : list Z :=
  le_split 4 (Z.lor 0xD2800008 (Z.shiftl (Z.land hvc_nr 65535) 5)) ++
  le_split 4 (Z.lor 0xD4000002 (Z.shiftl 6 5)) ++
  le_split 4 0x1E270000 ++
  le_split 4 0xD65F03C0.

(** What a call of a stub does: something known, or the end of the process
    with the name of the import in the log. *)
Inductive stub_handler := Known | Unsupported (key : list Z).

Section Stubs.
Context `{G : Guest}.

(** platform/commons/runtime/gpu_bridge.h:229-233 (GpuBridge)
    The guest, and the stubs there are. *)
Record gpu := Gpu {
  gpu_guest : guest;
  next_stub_gpa_ : Z;
  handlers_ : gmap Z stub_handler;
  sym_tables_ : gmap (list Z) (gmap (list Z) Z);
  unsupported_import_stubs_ : gmap (list Z) Z;
  next_unsupported_import_hvc_ : Z;
}.
Definition with_guest (g : guest) (s : gpu) : gpu :=
  Gpu g (next_stub_gpa_ s) (handlers_ s) (sym_tables_ s) (unsupported_import_stubs_ s) (next_unsupported_import_hvc_ s).
(** [guest_write(guest_, gpa, bs, n)] *)
Definition poke (gpa : Z) (bs : list Z) : St gpu () := modify (λ s, with_guest (guest_write (gpu_guest s) gpa bs).2 s).

(** platform/commons/runtime/gpu_bridge.cpp:208-216 (write_stub) *)
Definition write_stub (hvc_nr : Z) : St gpu Z :=
  gpa ← get next_stub_gpa_;
  _ ← poke gpa (encode_stub hvc_nr);
  _ ← modify (λ s, Gpu (gpu_guest s) (u64 (next_stub_gpa_ s + HVC_STUB_SIZE)) (handlers_ s) (sym_tables_ s)
                       (unsupported_import_stubs_ s) (next_unsupported_import_hvc_ s));
  mret gpa.
(** platform/commons/runtime/gpu_bridge.cpp:218-227 (add) *)
Definition add (soname symbol : list Z) (hvc_nr : Z) : St gpu Z :=
  gpa ← write_stub hvc_nr;
  _ ← modify (λ s, Gpu (gpu_guest s) (next_stub_gpa_ s) (<[hvc_nr := Known]> (handlers_ s))
        (<[soname := <[symbol := gpa]> (default ∅ (sym_tables_ s !! soname))]> (sym_tables_ s))
        (unsupported_import_stubs_ s) (next_unsupported_import_hvc_ s));
  mret gpa.
(** platform/commons/runtime/gpu_bridge.cpp:240-246 (builtin_symbols)
    platform/android-aarch64/android/android_runtime.cpp:975-983 (builtin_symbols)
    looks into the same tables once more. *)
Definition builtin_symbols (s : gpu) (soname : list Z) : gmap (list Z) Z := default ∅ (sym_tables_ s !! soname).
(** platform/commons/runtime/gpu_bridge.cpp:248-274 (unsupported_import_stub) *)
Definition unsupported_import_stub (soname symbol : list Z) : St gpu Z :=
  let key := soname ++ cs ":" ++ symbol in
  known ← get (λ s, unsupported_import_stubs_ s !! key);
  match known with
  | Some gpa => mret gpa
  | None =>
      hvc_nr ← get next_unsupported_import_hvc_;
      if HVC_UNSUPPORTED_IMPORT_LIMIT <=? hvc_nr then mret 0 else
      _ ← modify (λ s, Gpu (gpu_guest s) (next_stub_gpa_ s) (handlers_ s) (sym_tables_ s)
                           (unsupported_import_stubs_ s) (u32 (hvc_nr + 1)));
      gpa ← write_stub hvc_nr;
      _ ← modify (λ s, Gpu (gpu_guest s) (next_stub_gpa_ s) (<[hvc_nr := Unsupported key]> (handlers_ s)) (sym_tables_ s)
                           (<[key := gpa]> (unsupported_import_stubs_ s)) (next_unsupported_import_hvc_ s));
      mret gpa
  end.
End Stubs.
