(* ===== verification/RunSoLoad.v ===== *)
(** * The guest runner: loading shared objects

    platform/android-aarch64/elf/guest_runner.cpp: how the runner reads a
    shared object it maps itself, and how the libraries an object needs are
    looked for and mapped into the guest, each at the next free place.  Files
    are those of HostFile; every read seeks first, so that their position is
    not part of the state. *)

From S2P Require Import Prelude Decimal Cxx ApkZip Elf GuestMem HostFile GpuStubs.

(** ** Reading *)

(** platform/android-aarch64/elf/guest_runner.cpp:521-526 (read_at)
    The bytes read, fewer than [len] when that fails. *)
Definition read_some (c : list Z) (off len : Z) : list Z :=
  if s64 off <? 0 then [] else fread c (s64 off) len.
(** platform/android-aarch64/elf/guest_runner.cpp:521-526 (read_at) *)
Definition read_at (c : list Z) (off len : Z) : option (list Z) :=
  if s64 off <? 0 then None
  else let b := read_some c off len in if size b =? len then Some b else None.
(** platform/android-aarch64/elf/guest_runner.cpp:528-545 (vaddr_to_file_offset) *)
Fixpoint vaddr_to_file_offset (phdrs : list Elf64_Phdr) (vaddr sz : Z) : option Z :=
  match phdrs with
  | [] => None
  | ph :: phdrs =>
      if negb (p_type ph =? PT_LOAD) then vaddr_to_file_offset phdrs vaddr sz
      else if vaddr <? p_vaddr ph then vaddr_to_file_offset phdrs vaddr sz
      else
        let rel := vaddr - p_vaddr ph in
        if (p_filesz ph <? rel) || (p_filesz ph - rel <? sz) then vaddr_to_file_offset phdrs vaddr sz
        else Some (u64 (p_offset ph + rel))
  end.

(** ** Objects *)

(** platform/android-aarch64/elf/guest_runner.cpp:557-573 (DirectSoDyn) *)
Record DirectSoDyn := Dyn {
  strtab : Z; strsz : Z; symtab : Z; gnu_hash : Z; rela : Z; rela_size : Z; jmprel : Z; jmprel_size : Z;
  relr : Z; relr_size : Z; init : Z; init_array : Z; init_array_size : Z; soname_off : Z; needed_off : list Z;
}.
(** platform/android-aarch64/elf/guest_runner.cpp:557-573 (DirectSoDyn) *)
Definition no_dyn : DirectSoDyn := Dyn 0 0 0 0 0 0 0 0 0 0 0 0 0 0 [].
(** platform/android-aarch64/elf/guest_runner.cpp:575-584 (DirectSoObject) *)
Record DirectSoObject := Obj {
  so_path : list Z; soname : list Z; load_base : Z; load_min : Z; load_max : Z;
  so_phdrs : list Elf64_Phdr; so_dyn : DirectSoDyn; mapped_by_bootstrap : bool;
}.
Definition set_base (b : Z) (o : DirectSoObject) : DirectSoObject :=
  Obj (so_path o) (soname o) b (load_min o) (load_max o) (so_phdrs o) (so_dyn o) (mapped_by_bootstrap o).

(** platform/android-aarch64/elf/guest_runner.cpp:57-59 (MU_DT_ANDROID_RELR) *)
Definition MU_DT_ANDROID_RELR : Z := 0x6fffe000.
Definition MU_DT_ANDROID_RELRSZ : Z := 0x6fffe001.
Definition DT_INIT : Z := 12.
Definition DT_SONAME : Z := 14.
Definition DT_INIT_ARRAY : Z := 25.
Definition DT_INIT_ARRAYSZ : Z := 27.

(** platform/android-aarch64/elf/guest_runner.cpp:596-603 (read_dyn_string)
    The bytes from [pos] on, with those that have been read. *)
Fixpoint dyn_string (fuel : nat) (c : list Z) (limit off pos : Z) (out : list Z) : list Z :=
  match fuel with
  | O => out
  | S fuel =>
      if limit <=? u64 (off + size out) then out else
      match read_at c pos 1 with
      | Some [b] => if b =? 0 then out else dyn_string fuel c limit off (u64 (pos + 1)) (out ++ [b])
      | _ => out
      end
  end.
(** platform/android-aarch64/elf/guest_runner.cpp:586-605 (read_dyn_string)
    A round reads a byte of the file, so that there are no more than those. *)
Definition read_dyn_string (c : list Z) (phdrs : list Elf64_Phdr) (dyn : DirectSoDyn) (off : Z) : list Z :=
  if (strtab dyn =? 0) || (strsz dyn <=? off) then [] else
  match vaddr_to_file_offset phdrs (u64 (strtab dyn + off)) 1 with
  | None => []
  | Some file_off => dyn_string (S (length c)) c (strsz dyn) off file_off []
  end.

(** platform/android-aarch64/elf/guest_runner.cpp:607-610 (align_down_u64) *)
Definition align_down_u64 (value align : Z) : Z := Z.land value (u64 (Z.lnot (align - 1))).
(** platform/android-aarch64/elf/guest_runner.cpp:612-615 (align_up_u64) *)
Definition align_up_u64 (value align : Z) : Z := Z.land (u64 (value + align - 1)) (u64 (Z.lnot (align - 1))).
(** platform/android-aarch64/elf/guest_runner.cpp:617-625 (phdr_mem_perms)
    Whether the guest may read, write and execute. *)
Definition phdr_mem_perms (flags : Z) : bool * bool * bool :=
  (true, negb (Z.land flags PF_W =? 0), negb (Z.land flags PF_X =? 0)).

(** platform/android-aarch64/elf/guest_runner.cpp:656-665 (parse_direct_so_metadata)
    The range of the segments. *)
Definition load_range (phdrs : list Elf64_Phdr) : Z * Z :=
  foldl (λ '(lo, hi) ph,
    if negb (p_type ph =? PT_LOAD) then (lo, hi) else
    (Z.min lo (align_down_u64 (p_vaddr ph) 4096), Z.max hi (align_up_u64 (u64 (p_vaddr ph + p_memsz ph)) 4096)))
    (18446744073709551615, 0) phdrs.
(** platform/android-aarch64/elf/guest_runner.cpp:681-734 (parse_direct_so_metadata)
    What an entry of the dynamic section changes. *)
Definition dyn_entry (tag val : Z) (d : DirectSoDyn) : DirectSoDyn :=
  let '(Dyn strtab strsz symtab gnu_hash rela rela_size jmprel jmprel_size relr relr_size init init_array
            init_array_size soname_off needed_off) := d in
  if tag =? DT_STRTAB then Dyn val strsz symtab gnu_hash rela rela_size jmprel jmprel_size relr relr_size init init_array init_array_size soname_off needed_off
  else if tag =? DT_STRSZ then Dyn strtab val symtab gnu_hash rela rela_size jmprel jmprel_size relr relr_size init init_array init_array_size soname_off needed_off
  else if tag =? DT_SYMTAB then Dyn strtab strsz val gnu_hash rela rela_size jmprel jmprel_size relr relr_size init init_array init_array_size soname_off needed_off
  else if tag =? DT_GNU_HASH then Dyn strtab strsz symtab val rela rela_size jmprel jmprel_size relr relr_size init init_array init_array_size soname_off needed_off
  else if tag =? DT_RELA then Dyn strtab strsz symtab gnu_hash val rela_size jmprel jmprel_size relr relr_size init init_array init_array_size soname_off needed_off
  else if tag =? DT_RELASZ then Dyn strtab strsz symtab gnu_hash rela val jmprel jmprel_size relr relr_size init init_array init_array_size soname_off needed_off
  else if tag =? DT_JMPREL then Dyn strtab strsz symtab gnu_hash rela rela_size val jmprel_size relr relr_size init init_array init_array_size soname_off needed_off
  else if tag =? DT_PLTRELSZ then Dyn strtab strsz symtab gnu_hash rela rela_size jmprel val relr relr_size init init_array init_array_size soname_off needed_off
  else if tag =? DT_INIT then Dyn strtab strsz symtab gnu_hash rela rela_size jmprel jmprel_size relr relr_size val init_array init_array_size soname_off needed_off
  else if tag =? DT_INIT_ARRAY then Dyn strtab strsz symtab gnu_hash rela rela_size jmprel jmprel_size relr relr_size init val init_array_size soname_off needed_off
  else if tag =? DT_INIT_ARRAYSZ then Dyn strtab strsz symtab gnu_hash rela rela_size jmprel jmprel_size relr relr_size init init_array val soname_off needed_off
  else if tag =? MU_DT_ANDROID_RELR then Dyn strtab strsz symtab gnu_hash rela rela_size jmprel jmprel_size val relr_size init init_array init_array_size soname_off needed_off
  else if tag =? MU_DT_ANDROID_RELRSZ then Dyn strtab strsz symtab gnu_hash rela rela_size jmprel jmprel_size relr val init init_array init_array_size soname_off needed_off
  else if tag =? DT_SONAME then Dyn strtab strsz symtab gnu_hash rela rela_size jmprel jmprel_size relr relr_size init init_array init_array_size val needed_off
  else if tag =? DT_NEEDED then Dyn strtab strsz symtab gnu_hash rela rela_size jmprel jmprel_size relr relr_size init init_array init_array_size soname_off (needed_off ++ [u32 val])
  else d.
(** platform/android-aarch64/elf/guest_runner.cpp:675-735 (parse_direct_so_metadata)
    The entries at [off]. *)
Fixpoint dyn_entries (n : nat) (c : list Z) (off : Z) (d : DirectSoDyn) : DirectSoDyn :=
  match n with
  | O => d
  | S n =>
      match read_at c (u64 off) 16 with
      | None => d
      | Some e =>
          let tag := field 0 8 e in
          if tag =? DT_NULL then d else dyn_entries n c (off + 16) (dyn_entry tag (field 8 8 e) d)
      end
  end.
(** platform/android-aarch64/elf/guest_runner.cpp:671-737 (parse_direct_so_metadata)
    Of the first segment of that type; a round reads 16 bytes of the file. *)
Fixpoint so_dynamic (c : list Z) (phdrs : list Elf64_Phdr) : DirectSoDyn :=
  match phdrs with
  | [] => no_dyn
  | ph :: phdrs =>
      if negb (p_type ph =? PT_DYNAMIC) then so_dynamic c phdrs
      else dyn_entries (Z.to_nat (Z.min (p_filesz ph / 16) (size c / 16 + 1))) c (p_offset ph) no_dyn
  end.

Section Files.
Context `{D : Disk}.

(** platform/android-aarch64/elf/guest_runner.cpp:632-748 (parse_direct_so_metadata) *)
Definition parse_direct_so_metadata (path : list Z) : option DirectSoObject :=
  match fopen path with
  | None => None
  | Some c =>
      match read_at c 0 64 with
      | None => None
      | Some eh =>
          if negb (is_aarch64 eh) then None else
          match read_at c (e_phoff_of eh) (e_phnum_of eh * 56) with
          | None => None
          | Some bs =>
              let phdrs := phdrs_of_bytes (Z.to_nat (e_phnum_of eh)) bs in
              let '(load_min, load_max) := load_range phdrs in
              if load_min =? 18446744073709551615 then None else
              let dyn := so_dynamic c phdrs in
              let name := if soname_off dyn =? 0 then [] else read_dyn_string c phdrs dyn (u32 (soname_off dyn)) in
              let name := if eq_str name [] then path_filename path else name in
              Some (Obj path name 0 load_min load_max phdrs dyn false)
          end
      end
  end.
(** platform/android-aarch64/elf/guest_runner.cpp:750-764 (direct_so_needed_names) *)
Definition direct_so_needed_names (obj : DirectSoObject) : list (list Z) :=
  match fopen (so_path obj) with
  | None => []
  | Some c =>
      filter (λ n, n ≠ []) (read_dyn_string c (so_phdrs obj) (so_dyn obj) <$> needed_off (so_dyn obj))
  end.
End Files.

(** ** The guest runner: loading shared objects

    platform/android-aarch64/elf/guest_runner.cpp: how the libraries a shared
    object needs are looked for and mapped into the guest, each at the next
    free place.  The page tables of the guest and the host's view of its memory
    are operations of the virtual machine monitor, the class [Pages]. *)

(** ** The guest *)

(** guest_extend_page_tables and guest_update_perms, with whether they
    succeeded; a write of the host through host_base. *)
Class Pages (G : Guest) := {
  extend_page_tables : guest → Z → Z → bool * guest;
  update_perms : guest → Z → Z → bool * bool * bool → bool * guest;
  host_write : guest → Z → list Z → guest;
}.
(** [user g x]: the guest has memory at [x] that is not part of its page
    tables.  Such memory keeps its contents when page tables change; a range
    that has been added can be read and written, one with other permissions
    when these say so.  host_base is guest_size bytes long. *)
Class PagesLaws (G : Guest) `{!GuestLaws G} (P : Pages G) := {
  user : guest → Z → bool;
  mapped_user g x : mapped g x = true → user g x = true;
  write_user g a bs x : user (guest_write g a bs).2 x = user g x;
  write_size g a bs : guest_size (guest_write g a bs).2 = guest_size g;
  extend_user g a b x : user g x = true → user (extend_page_tables g a b).2 x = true;
  extend_byte g a b x : user g x = true → byte (extend_page_tables g a b).2 x = byte g x;
  extend_mapped g a b x : mapped g x = true → mapped (extend_page_tables g a b).2 x = true;
  extend_maps g a b x : (extend_page_tables g a b).1 = true → a <= x < b → mapped (extend_page_tables g a b).2 x = true;
  extend_size g a b : guest_size (extend_page_tables g a b).2 = guest_size g;
  perms_user g a b p x : user (update_perms g a b p).2 x = user g x;
  perms_byte g a b p x : user g x = true → byte (update_perms g a b p).2 x = byte g x;
  perms_mapped g a b p x :
    ¬ (a <= x < b) ∨ p.1.2 = true → mapped g x = true → mapped (update_perms g a b p).2 x = true;
  perms_size g a b p : guest_size (update_perms g a b p).2 = guest_size g;
  host_value g a bs : 0 <= a → a + size bs <= guest_size g → bytes bs → holds_at (byte (host_write g a bs)) a bs;
  host_other g a bs x : ¬ (a <= x < a + size bs) → byte (host_write g a bs) x = byte g x;
  host_mapped g a bs x : mapped (host_write g a bs) x = mapped g x;
  host_user g a bs x : user (host_write g a bs) x = user g x;
  host_size g a bs : guest_size (host_write g a bs) = guest_size g;
}.
(** std::filesystem::exists, which throws when it cannot say. *)
Class Dirs := { path_exists : list Z → option bool }.

Section Load.
Context `{G : Guest} `{P : !Pages G} `{D : Disk} `{E : Dirs}.

(** platform/android-aarch64/android/android_runtime.h:76-94 (KNOWN_SONAMES) *)
Definition KNOWN_SONAMES : list (list Z) :=
  [cs "libc.so"; cs "libm.so"; cs "libdl.so"; cs "libdl_android.so"; cs "liblog.so"; cs "libandroid.so";
   cs "libbinder_ndk.so"; cs "libcutils.so"; cs "libstdc++.so"; cs "libEGL.so"; cs "libGLESv2.so"; cs "libGLESv3.so";
   cs "libc++_shared.so"; cs "libc++abi.so"; cs "libunwind.so"; cs "libandroid_support.so"; cs "libjnigraphics.so";
   cs "libnativebridge.so"].
(** platform/android-aarch64/elf/guest_runner.cpp:766-780 (android_builtin_soname) *)
Definition android_builtin_soname (s : gpu) (soname : list Z) : bool :=
  negb (bool_decide (builtin_symbols s soname = ∅)) || existsb (eq_str soname) KNOWN_SONAMES ||
  eq_str soname (cs "libdl_android.so") || eq_str soname (cs "libc++_shared.so") || eq_str soname (cs "libz.so").
(** platform/android-aarch64/elf/guest_runner.cpp:782-790 (direct_so_already_loaded) *)
Definition direct_so_already_loaded (objects : list DirectSoObject) (name : list Z) : bool :=
  existsb (λ obj, eq_str (soname obj) name || eq_str (path_filename (so_path obj)) name) objects.
(** platform/android-aarch64/elf/guest_runner.cpp:792-804 (find_direct_so_dependency) *)
Fixpoint find_direct_so_dependency (search_dirs : list (list Z)) (name : list Z) : res (option (list Z)) :=
  match search_dirs with
  | [] => Ok None
  | dir :: dirs =>
      if eq_str dir [] then find_direct_so_dependency dirs name else
      let candidate := path_join dir name in
      match path_exists candidate with
      | None => Throw (fail "filesystem error")
      | Some true => Ok (Some candidate)
      | Some false => find_direct_so_dependency dirs name
      end
  end.

(** platform/android-aarch64/elf/guest_runner.cpp:815-816 (BLOCK_2MIB) *)
Definition BLOCK_2MIB : Z := 2097152.
(** A write of the host into the memory of the guest. *)
Definition poke_host (a : Z) (bs : list Z) : St guest () :=
  if size bs =? 0 then mret () else
  λ g, if (0 <=? a) && (a + size bs <=? guest_size g) then Ok ((), host_write g a bs) else Stray.
(** [rc < 0] *)
Definition change (f : guest → bool * guest) : St guest bool := λ g, let '(ok, g) := f g in Ok (ok, g).

(** platform/android-aarch64/elf/guest_runner.cpp:835-850 (map_direct_so_object)
    The contents of the segments. *)
Fixpoint fill_segments (c : list Z) (load_base : Z) (phdrs : list Elf64_Phdr) : St guest bool :=
  match phdrs with
  | [] => mret true
  | ph :: phdrs =>
      if negb (p_type ph =? PT_LOAD) then fill_segments c load_base phdrs else
      let dst_gpa := u64 (load_base + p_vaddr ph) in
      _ ← poke_host dst_gpa (replicate (Z.to_nat (p_memsz ph)) 0);
      if p_filesz ph =? 0 then fill_segments c load_base phdrs else
      let data := read_some c (p_offset ph) (p_filesz ph) in
      _ ← poke_host dst_gpa data;
      if size data =? p_filesz ph then fill_segments c load_base phdrs else mret false
  end.
(** platform/android-aarch64/elf/guest_runner.cpp:852-866 (map_direct_so_object)
    Their permissions. *)
Fixpoint protect_segments (load_base : Z) (phdrs : list Elf64_Phdr) : St guest bool :=
  match phdrs with
  | [] => mret true
  | ph :: phdrs =>
      if negb (p_type ph =? PT_LOAD) then protect_segments load_base phdrs else
      let seg_start := align_down_u64 (u64 (load_base + p_vaddr ph)) 4096 in
      let seg_end := align_up_u64 (u64 (load_base + p_vaddr ph + p_memsz ph)) 4096 in
      ok ← change (λ g, update_perms g seg_start seg_end (phdr_mem_perms (p_flags ph)));
      if (ok : bool) then protect_segments load_base phdrs else mret false
  end.
(** platform/android-aarch64/elf/guest_runner.cpp:806-870 (map_direct_so_object)
    The object with its base, if all went well. *)
Definition map_direct_so_object (obj : DirectSoObject) (runtime_min : Z) : St guest (option DirectSoObject) :=
  match fopen (so_path obj) with
  | None => mret None
  | Some c =>
      let obj := set_base (u64 (runtime_min - load_min obj)) obj in
      let runtime_end := u64 (load_base obj + load_max obj) in
      let map_start := align_down_u64 runtime_min BLOCK_2MIB in
      let map_end := align_up_u64 runtime_end BLOCK_2MIB in
      limit ← get guest_size;
      if limit <? map_end then mret None else
      ok ← change (λ g, extend_page_tables g map_start map_end);
      if negb ok then mret None else
      ok ← fill_segments c (load_base obj) (so_phdrs obj);
      if negb ok then mret None else
      ok ← protect_segments (load_base obj) (so_phdrs obj);
      mret (if (ok : bool) then Some obj else None)
  end.

(** [g] of the runner. *)
Definition on_guest {A} (m : St guest A) : St gpu A := member gpu_guest with_guest m.
(** platform/android-aarch64/elf/guest_runner.cpp:1009-1013 (load_direct_so_dependencies) *)
Definition first_base (objects : list DirectSoObject) : Z :=
  foldl (λ b obj, Z.max b (align_up_u64 (u64 (load_base obj + load_max obj)) BLOCK_2MIB)) 0x180000000 objects.
(** platform/android-aarch64/elf/guest_runner.cpp:1016-1049 (load_direct_so_dependencies)
    The names an object needs, with the objects there are and the next place;
    nothing when one could not be had. *)
Fixpoint load_names (search_dirs needed : list (list Z)) (objects : list DirectSoObject) (next_base : Z) :
    St gpu (option (list DirectSoObject * Z)) :=
  match needed with
  | [] => mret (Some (objects, next_base))
  | name :: needed =>
      if direct_so_already_loaded objects name then load_names search_dirs needed objects next_base else
      dep_path ← pure (find_direct_so_dependency search_dirs name);
      match dep_path with
      | None =>
          builtin ← get (λ s, android_builtin_soname s name);
          if (builtin : bool) then load_names search_dirs needed objects next_base else mret None
      | Some dep_path =>
          match parse_direct_so_metadata dep_path with
          | None => mret None
          | Some dep =>
              let runtime_min := align_up_u64 next_base BLOCK_2MIB in
              dep ← on_guest (map_direct_so_object dep runtime_min);
              match dep with
              | None => mret None
              | Some dep =>
                  let next_base := align_up_u64 (u64 (load_base dep + load_max dep)) BLOCK_2MIB in
                  load_names search_dirs needed (objects ++ [dep]) next_base
              end
          end
      end
  end.
(** platform/android-aarch64/elf/guest_runner.cpp:1015-1051 (load_direct_so_dependencies)
    From the [i]th object on. *)
Fixpoint load_rest (fuel : nat) (search_dirs : list (list Z)) (i : nat) (objects : list DirectSoObject) (next_base : Z) :
    St gpu (option (list DirectSoObject)) :=
  match fuel with
  | O => pure Spin
  | S fuel =>
      match objects !! i with
      | None => mret (Some objects)
      | Some obj =>
          r ← load_names search_dirs (direct_so_needed_names obj) objects next_base;
          match r with
          | None => mret None
          | Some (objects, next_base) => load_rest fuel search_dirs (S i) objects next_base
          end
      end
  end.
(** platform/android-aarch64/elf/guest_runner.cpp:1003-1054 (load_direct_so_dependencies) *)
Definition load_direct_so_dependencies (fuel : nat) (objects : list DirectSoObject) (search_dirs : list (list Z)) :
    St gpu (option (list DirectSoObject)) :=
  load_rest fuel search_dirs 0 objects (first_base objects).
End Load.
