(* ===== verification/RunSoReloc.v ===== *)
(** * The guest runner: relocating shared objects

    platform/android-aarch64/elf/guest_runner.cpp: the search for symbols in the
    objects that are loaded, the relocations of an object, and the patches
    that are made in its code. *)

From S2P Require Import Prelude Decimal Cxx ApkZip Elf GuestMem JniEnv HostFile GpuStubs RunSoLoad.

(** ** Symbols *)

(** platform/android-aarch64/elf/guest_runner.cpp:905-911 (gnu_hash_sym_count)
    The largest bucket from the [b]th on; the product has 32 bits. *)
Fixpoint max_bucket (n : nat) (c : list Z) (bucket_off b max_sym : Z) : Z :=
  match n with
  | O => max_sym
  | S n =>
      match read_at c (u64 (bucket_off + u32 (b * 4))) 4 with
      | None => max_sym
      | Some bs => let bucket_val := le_combine bs in
                   max_bucket n c bucket_off (b + 1) (if max_sym <? bucket_val then bucket_val else max_sym)
      end
  end.
(** platform/android-aarch64/elf/guest_runner.cpp:917-927 (gnu_hash_sym_count) *)
Fixpoint chain_end (n : nat) (c : list Z) (chain_base_off symndx sym : Z) : Z :=
  match n with
  | O => sym
  | S n =>
      match read_at c (u64 (chain_base_off + u32 (sym - symndx) * 4)) 4 with
      | None => sym
      | Some b => if Z.odd (le_combine b) then u32 (sym + 1) else chain_end n c chain_base_off symndx (u32 (sym + 1))
      end
  end.
(** platform/android-aarch64/elf/guest_runner.cpp:882-929 (gnu_hash_sym_count) *)
Definition gnu_hash_sym_count (c : list Z) (phdrs : list Elf64_Phdr) (gnu_hash_vaddr : Z) : Z :=
  if gnu_hash_vaddr =? 0 then 0 else
  match vaddr_to_file_offset phdrs gnu_hash_vaddr 16 with
  | None => 0
  | Some off =>
      match read_at c off 4, read_at c (u64 (off + 4)) 4, read_at c (u64 (off + 8)) 4 with
      | Some nb, Some sx, Some mw =>
          let nbuckets := le_combine nb in
          let symndx := le_combine sx in
          let bucket_off := u64 (off + 16 + le_combine mw * 8) in
          let max_sym := max_bucket (Z.to_nat nbuckets) c bucket_off 0 symndx in
          chain_end (Z.to_nat 65536) c (u64 (bucket_off + nbuckets * 4)) symndx max_sym
      | _, _, _ => 0
      end
  end.

(** [strncmp(a, b, n) == 0] *)
Fixpoint strncmp_eq (n : nat) (a b : list Z) : bool :=
  match n, a, b with
  | S n, x :: a, y :: b => (x =? y) && ((x =? 0) || strncmp_eq n a b)
  | S _, _, _ => false
  | O, _, _ => true
  end.
(** platform/android-aarch64/elf/guest_runner.cpp:985-994 (lookup_direct_symbol)
    Whether the string at [str_file_off] is the name: up to 255 bytes of it are
    compared. *)
Definition name_at (c : list Z) (str_file_off : Z) (name : list Z) : res bool :=
  let to_read := Z.min (size name + 1) 255 in
  match read_at c str_file_off to_read with
  | None => Ok false
  | Some b =>
      let buf := b ++ replicate (256 - length b) 0 in
      if strncmp_eq (length name) buf (name ++ [0]) then x ← at_ buf (size name); Ok (x =? 0) else Ok false
  end.
(** platform/android-aarch64/elf/guest_runner.cpp:958-995 (lookup_direct_symbol)
    The symbols from the [i]th on: the value of the first that has the name. *)
Fixpoint scan_symbols (n : nat) (c : list Z) (obj : DirectSoObject) (symtab_file_off i : Z) (name : list Z) : res (option Z) :=
  match n with
  | O => Ok None
  | S n =>
      match read_at c (u64 (symtab_file_off + i * 24)) 24 with
      | None => Ok None
      | Some sym =>
          if (sym_name sym =? 0) && (sym_value sym =? 0) && (1 <? i) then Ok None
          else if strsz (so_dyn obj) <=? sym_name sym then scan_symbols n c obj symtab_file_off (i + 1) name
          else if sym_shndx sym =? SHN_UNDEF then scan_symbols n c obj symtab_file_off (i + 1) name
          else if sym_value sym =? 0 then scan_symbols n c obj symtab_file_off (i + 1) name
          else match vaddr_to_file_offset (so_phdrs obj) (u64 (strtab (so_dyn obj) + sym_name sym)) 1 with
               | None => scan_symbols n c obj symtab_file_off (i + 1) name
               | Some str_file_off =>
                   same ← name_at c str_file_off name;
                   if (same : bool) then Ok (Some (sym_value sym)) else scan_symbols n c obj symtab_file_off (i + 1) name
               end
      end
  end.

(** Elf64_Rela *)
Definition rela_offset := field 0 8.
Definition rela_info := field 8 8.
Definition rela_addend := field 16 8.
Definition STB_WEAK : Z := 2.
Definition ELF64_ST_BIND (i : Z) : Z := Z.shiftr i 4.

Section Reloc.
Context `{G : Guest} `{P : !Pages G} `{D : Disk}.

(** platform/android-aarch64/elf/guest_runner.cpp:935-998 (lookup_direct_symbol)
    In one object; a round reads 24 bytes of the file. *)
Definition lookup_in (obj : DirectSoObject) (name : list Z) : res (option Z) :=
  let dyn := so_dyn obj in
  if (symtab dyn =? 0) || (strtab dyn =? 0) || (strsz dyn =? 0) then Ok None else
  match fopen (so_path obj) with
  | None => Ok None
  | Some c =>
      let sym_count := gnu_hash_sym_count c (so_phdrs obj) (gnu_hash dyn) in
      let sym_count := if (sym_count =? 0) || (131072 <? sym_count) then 131072 else sym_count in
      match vaddr_to_file_offset (so_phdrs obj) (symtab dyn) 24 with
      | None => Ok None
      | Some symtab_file_off =>
          v ← scan_symbols (Z.to_nat (Z.min (sym_count - 1) (size c / 24 + 1))) c obj symtab_file_off 1 name;
          Ok ((λ value, u64 (load_base obj + value)) <$> (v : option Z))
      end
  end.
(** platform/android-aarch64/elf/guest_runner.cpp:931-1001 (lookup_direct_symbol) *)
Fixpoint lookup_direct_symbol (objects : list DirectSoObject) (name : list Z) : res Z :=
  match objects with
  | [] => Ok 0
  | obj :: objects =>
      v ← lookup_in obj name;
      match v with Some a => Ok a | None => lookup_direct_symbol objects name end
  end.
(** platform/android-aarch64/elf/guest_runner.cpp:1056-1067 (resolve_android_symbol) *)
Definition resolve_android_symbol (s : gpu) (name : list Z) : Z :=
  default 0 (head (omap (λ soname, builtin_symbols s soname !! name) KNOWN_SONAMES)).

(** ** Relocations *)

(** platform/android-aarch64/elf/guest_runner.cpp:1108-1173 (apply_direct_so_rela)
    The value of a relocation to a symbol, and whether it is unresolved. *)
Definition symbol_value (c : list Z) (obj : DirectSoObject) (objects : list DirectSoObject) (sym_idx addend : Z) :
    St gpu (option Z * bool) :=
  let dyn := so_dyn obj in
  if (sym_idx =? 0) || (symtab dyn =? 0) then mret (None, false) else
  match vaddr_to_file_offset (so_phdrs obj) (u64 (symtab dyn + sym_idx * 24)) 24 with
  | None => mret (None, false)
  | Some sym_off =>
      match read_at c sym_off 24 with
      | None => mret (None, false)
      | Some sym =>
          if negb (sym_shndx sym =? SHN_UNDEF) then mret (Some (u64 (load_base obj + sym_value sym + addend)), false) else
          let name := read_dyn_string c (so_phdrs obj) dyn (sym_name sym) in
          resolved ← get (λ s, resolve_android_symbol s name);
          resolved ← (if resolved =? 0 then pure (lookup_direct_symbol objects name) else mret resolved);
          if negb (resolved =? 0) then mret (Some (u64 (resolved + addend)), false)
          else if ELF64_ST_BIND (sym_info sym) =? STB_WEAK then mret (Some addend, false)
          else
            trap ← unsupported_import_stub (soname obj) name;
            mret (if trap =? 0 then None else Some (u64 (trap + addend)), true)
      end
  end.
(** platform/android-aarch64/elf/guest_runner.cpp:1098-1183 (apply_direct_so_rela)
    An entry, with the numbers of applied and unresolved ones. *)
Definition apply_rela_entry (c : list Z) (obj : DirectSoObject) (objects : list DirectSoObject) (r : list Z)
    '((applied, unresolved) : Z * Z) : St gpu (Z * Z) :=
  let sym_idx := ELF64_R_SYM (rela_info r) in
  let type := ELF64_R_TYPE (rela_info r) in
  let slot_gpa := u64 (load_base obj + rela_offset r) in
  '(value, missing) ←
    (if type =? R_AARCH64_RELATIVE then mret (Some (u64 (load_base obj + rela_addend r)), false)
     else if (type =? R_AARCH64_GLOB_DAT) || (type =? R_AARCH64_JUMP_SLOT) || (type =? R_AARCH64_ABS64)
     then symbol_value c obj objects sym_idx (rela_addend r)
     else mret (None, false));
  let unresolved := if (missing : bool) then u64 (unresolved + 1) else unresolved in
  match value with
  | None => mret (applied, unresolved)
  | Some v => _ ← poke slot_gpa (le_split 8 v); mret (u64 (applied + 1), unresolved)
  end.
(** platform/android-aarch64/elf/guest_runner.cpp:1090-1184 (apply_direct_so_rela)
    The entries at [off]; nothing when one could not be read. *)
Fixpoint apply_rela_entries (n : nat) (c : list Z) (obj : DirectSoObject) (objects : list DirectSoObject) (off : Z)
    (counts : Z * Z) : St gpu (option (Z * Z)) :=
  match n with
  | O => mret (Some counts)
  | S n =>
      match read_at c (u64 off) 24 with
      | None => mret None
      | Some r =>
          counts ← apply_rela_entry c obj objects r counts;
          apply_rela_entries n c obj objects (off + 24) counts
      end
  end.
(** platform/android-aarch64/elf/guest_runner.cpp:1069-1187 (apply_direct_so_rela)
    A round reads 24 bytes of the file. *)
Definition apply_direct_so_rela (c : list Z) (obj : DirectSoObject) (objects : list DirectSoObject)
    (rela_vaddr rela_size_ : Z) (counts : Z * Z) : St gpu (option (Z * Z)) :=
  if (rela_vaddr =? 0) || (rela_size_ =? 0) then mret (Some counts) else
  match vaddr_to_file_offset (so_phdrs obj) rela_vaddr rela_size_ with
  | None => mret None
  | Some rela_off =>
      apply_rela_entries (Z.to_nat (Z.min (rela_size_ / 24) (size c / 24 + 1))) c obj objects rela_off counts
  end.

(** platform/android-aarch64/elf/guest_runner.cpp:1213-1217 (apply_direct_so_relr)
    platform/android-aarch64/elf/guest_runner.cpp:1224-1228 (apply_direct_so_relr) *)
Definition add_load_base (slot_gpa load_base applied : Z) : St gpu Z :=
  '(ok, current) ← get (λ s, guest_read (gpu_guest s) slot_gpa (le_split 8 0));
  if (ok : bool) then
    _ ← poke slot_gpa (le_split 8 (u64 (le_combine current + load_base)));
    mret (u64 (applied + 1))
  else mret applied.
(** platform/android-aarch64/elf/guest_runner.cpp:1220-1232 (apply_direct_so_relr)
    The bits of an entry; there are 63 of them. *)
Fixpoint relr_scan (n : nat) (bitmap scan_gpa load_base applied : Z) : St gpu Z :=
  match n with
  | O => mret applied
  | S n =>
      if bitmap =? 0 then mret applied else
      applied ← (if Z.odd bitmap then add_load_base scan_gpa load_base applied else mret applied);
      relr_scan n (Z.shiftr bitmap 1) (u64 (scan_gpa + 8)) load_base applied
  end.
(** platform/android-aarch64/elf/guest_runner.cpp:1206-1235 (apply_direct_so_relr)
    The entries at [off]. *)
Fixpoint relr_entries (n : nat) (c : list Z) (off slot_gpa load_base applied : Z) : St gpu Z :=
  match n with
  | O => mret applied
  | S n =>
      match read_at c (u64 off) 8 with
      | None => mret applied
      | Some b =>
          let entry := le_combine b in
          if Z.even entry then
            let slot_gpa := u64 (load_base + entry) in
            applied ← add_load_base slot_gpa load_base applied;
            relr_entries n c (off + 8) (u64 (slot_gpa + 8)) load_base applied
          else
            applied ← relr_scan 63 (Z.shiftr entry 1) slot_gpa load_base applied;
            relr_entries n c (off + 8) (u64 (slot_gpa + 504)) load_base applied
      end
  end.
(** platform/android-aarch64/elf/guest_runner.cpp:1189-1238 (apply_direct_so_relr)
    A round reads eight bytes of the file. *)
Definition apply_direct_so_relr (c : list Z) (phdrs : list Elf64_Phdr) (load_base relr_vaddr relr_size_ : Z) : St gpu Z :=
  if (relr_vaddr =? 0) || (relr_size_ =? 0) then mret 0 else
  match vaddr_to_file_offset phdrs relr_vaddr relr_size_ with
  | None => mret 0
  | Some relr_off => relr_entries (Z.to_nat (Z.min (relr_size_ / 8) (size c / 8 + 1))) c relr_off 0 load_base 0
  end.
(** platform/android-aarch64/elf/guest_runner.cpp:1240-1282 (apply_direct_so_relocations) *)
Definition apply_direct_so_relocations (obj : DirectSoObject) (objects : list DirectSoObject) (strict : bool) : St gpu bool :=
  match fopen (so_path obj) with
  | None => mret false
  | Some c =>
      let dyn := so_dyn obj in
      _ ← apply_direct_so_relr c (so_phdrs obj) (load_base obj) (relr dyn) (relr_size dyn);
      r ← apply_direct_so_rela c obj objects (rela dyn) (rela_size dyn) (0, 0);
      match r with
      | None => mret false
      | Some counts =>
          r ← apply_direct_so_rela c obj objects (jmprel dyn) (jmprel_size dyn) counts;
          match r with
          | None => mret false
          | Some (_, unresolved) => mret (negb (negb (unresolved =? 0) && strict))
          end
      end
  end.
End Reloc.

(** ** The guest runner: patches, and a shared object made ready

    platform/android-aarch64/elf/guest_runner.cpp: the patches the runner makes
    in the objects it has loaded, and how loading, relocation and patches are
    put together.  Vectors are had from the library of JniEnv, which may
    refuse. *)

Section Patch.
Context `{G : Guest} `{P : !Pages G} `{D : Disk} `{E : Dirs} `{L : Lib}.

(** [std::vector<T> v(n)], [n] bytes of it. *)
Definition vector (n : Z) : res () :=
  if (9223372036854775808 <=? n) || negb (alloc_ok n) then Throw bad_alloc else Ok ().
(** [strcmp(p, s) == 0] for the bytes from [p] to the end of their vector. *)
Fixpoint strcmp_eq (p s : list Z) : res bool :=
  match s, p with
  | _, [] => Stray
  | [], x :: _ => Ok (x =? 0)
  | y :: s, x :: p => if x =? y then strcmp_eq p s else Ok false
  end.
(** The bytes of a vector of [n] zeros after a read at [pos]. *)
Definition read_into (c : list Z) (pos n : Z) : list Z :=
  let b := fread c pos n in b ++ replicate (Z.to_nat n - length b) 0.
(** The structures of [w] bytes in a vector. *)
Fixpoint items (w n : nat) (bs : list Z) : list (list Z) :=
  match n with O => [] | S n => take w bs :: items w n (drop w bs) end.

(** platform/android-aarch64/elf/guest_runner.cpp:1354-1370 (patch_lse_atomics_flag)
    The value of the flag's symbol, if it is one of these. *)
Fixpoint lse_symbol (strs : list Z) (syms : list (list Z)) : res (option Z) :=
  match syms with
  | [] => Ok None
  | sym :: syms =>
      if (sym_name sym =? 0) || (size strs <=? sym_name sym) then lse_symbol strs syms else
      same ← strcmp_eq (drop (Z.to_nat (sym_name sym)) strs) (cs "__aarch64_have_lse_atomics");
      if (same : bool) then Ok (Some (sym_value sym)) else lse_symbol strs syms
  end.
(** platform/android-aarch64/elf/guest_runner.cpp:1338-1371 (patch_lse_atomics_flag)
    The same for the sections, with the position in the file. *)
Fixpoint lse_sections (c : list Z) (shdrs rest : list (list Z)) (pos : Z) : res (option Z) :=
  match rest with
  | [] => Ok None
  | shdr :: rest =>
      if negb ((sh_type shdr =? SHT_SYMTAB) || (sh_type shdr =? SHT_DYNSYM)) then lse_sections c shdrs rest pos else
      match shdrs !! Z.to_nat (sh_link shdr) with
      | None => lse_sections c shdrs rest pos
      | Some strhdr =>
          let count := sh_size shdr / 24 in
          _ ← vector (count * 24);
          let pos := fseek pos (sh_offset shdr) in
          let syms := read_into c pos (count * 24) in
          let pos := pos + size (fread c pos (count * 24)) in
          _ ← vector (sh_size strhdr);
          let pos := fseek pos (sh_offset strhdr) in
          let strs := read_into c pos (sh_size strhdr) in
          let pos := pos + size (fread c pos (sh_size strhdr)) in
          v ← lse_symbol strs (items 24 (Z.to_nat count) syms);
          match v with Some value => Ok (Some value) | None => lse_sections c shdrs rest pos end
      end
  end.
(** platform/android-aarch64/elf/guest_runner.cpp:1320-1352 (patch_lse_atomics_flag)
    The value of the flag's symbol in a file. *)
Definition lse_value (c : list Z) : res (option Z) :=
  let eh := fread c 0 64 in
  if size eh <? 64 then Ok None else
  _ ← vector (e_shnum eh * 64);
  let pos := fseek 64 (e_shoff eh) in
  let bs := fread c pos (e_shnum eh * 64) in
  if size bs <? e_shnum eh * 64 then Ok None else
  let shdrs := items 64 (Z.to_nat (e_shnum eh)) bs in
  lse_sections c shdrs shdrs (pos + size bs).
(** platform/android-aarch64/elf/guest_runner.cpp:1316-1375 (patch_lse_atomics_flag) *)
Definition patch_lse_atomics_flag (path : list Z) (load_base : Z) : St gpu bool :=
  match fopen path with
  | None => mret false
  | Some c =>
      v ← pure (lse_value c);
      match v with
      | None => mret false
      | Some value => _ ← poke (u64 (load_base + value)) [0]; mret true
      end
  end.

(** platform/android-aarch64/elf/guest_runner.cpp:1392-1396 (patch_unaligned_zero_vector_stack_stores)
    stur q0, [sp, #0x5c]; stp q0, q0, [sp, #0x40]; stp q0, q0, [sp, #0x20];
    str q0, [sp, #0x10]. *)
Definition bad_stores : list Z :=
  le_split 4 0x3C85C3E0 ++ le_split 4 0xAD0203E0 ++ le_split 4 0xAD0103E0 ++ le_split 4 0x3D8007E0.
(** platform/android-aarch64/elf/guest_runner.cpp:1396-1396 (patch_unaligned_zero_vector_stack_stores)
    stp xzr, xzr, [sp, #0x60] *)
Definition kStpXzrSp60 : Z := 0xA9067FFF.
(** platform/android-aarch64/elf/guest_runner.cpp:1407-1423 (patch_unaligned_zero_vector_stack_stores)
    The instructions of a segment from the one at [off] on, the first of [text]. *)
Fixpoint patch_text (n : nat) (text : list Z) (load_base vaddr off patched : Z) : St gpu Z :=
  match n with
  | O => mret patched
  | S n =>
      if size text <? 16 then mret patched else
      let next := patch_text n (drop 4 text) load_base vaddr (off + 4) in
      if negb (eq_str (take 16 text) bad_stores) then next patched else
      let gpa := u64 (load_base + vaddr + off) in
      limit ← get (λ s, guest_size (gpu_guest s));
      if limit <? u64 (gpa + 4) then next patched else
      _ ← on_guest (poke_host gpa (le_split 4 kStpXzrSp60));
      next (u64 (patched + 1))
  end.
(** platform/android-aarch64/elf/guest_runner.cpp:1399-1424 (patch_unaligned_zero_vector_stack_stores) *)
Fixpoint patch_segments (c : list Z) (load_base : Z) (phdrs : list Elf64_Phdr) (patched : Z) : St gpu Z :=
  match phdrs with
  | [] => mret patched
  | ph :: phdrs =>
      if negb (p_type ph =? PT_LOAD) || (Z.land (p_flags ph) PF_X =? 0) || (p_filesz ph <? 16)
      then patch_segments c load_base phdrs patched else
      _ ← pure (vector (p_filesz ph));
      match read_at c (p_offset ph) (p_filesz ph) with
      | None => patch_segments c load_base phdrs patched
      | Some text =>
          patched ← patch_text (length text) text load_base (p_vaddr ph) 0 patched;
          patch_segments c load_base phdrs patched
      end
  end.
(** platform/android-aarch64/elf/guest_runner.cpp:1377-1433 (patch_unaligned_zero_vector_stack_stores) *)
Definition patch_unaligned_zero_vector_stack_stores (obj : DirectSoObject) : St gpu Z :=
  match fopen (so_path obj) with
  | None => mret 0
  | Some c => patch_segments c (load_base obj) (so_phdrs obj) 0
  end.

(** platform/android-aarch64/elf/guest_runner.cpp:1722-1730 (run)
    The objects in the order given; whether all could be relocated. *)
Fixpoint relocate_each (objs objects : list DirectSoObject) (strict : bool) : St gpu bool :=
  match objs with
  | [] => mret true
  | obj :: objs =>
      ok ← apply_direct_so_relocations obj objects strict;
      rest ← relocate_each objs objects strict;
      mret ((ok : bool) && rest)
  end.
(** platform/android-aarch64/elf/guest_runner.cpp:1735-1738 (run) *)
Definition patch_each (objects : list DirectSoObject) : St gpu () :=
  each (λ obj, _ ← patch_unaligned_zero_vector_stack_stores obj;
               _ ← patch_lse_atomics_flag (so_path obj) (load_base obj);
               mret ()) objects.
(** platform/android-aarch64/elf/guest_runner.cpp:1686-1747 (run)
    The objects, and whether the program can be started. *)
Definition make_ready (fuel : nat) (elf_path : list Z) (native_lib_search_dirs : list (list Z)) (strict : bool) :
    St gpu (list DirectSoObject * bool) :=
  match parse_direct_so_metadata elf_path with
  | None => mret ([], false)
  | Some main_so =>
      load_min_ ← get (λ s, elf_load_min (gpu_guest s));
      let main_so := Obj (so_path main_so) (soname main_so) (u64 (load_min_ - load_min main_so)) (load_min main_so)
                         (load_max main_so) (so_phdrs main_so) (so_dyn main_so) true in
      let main_dir := path_parent elf_path in
      let lib_search_dirs :=
        if negb (eq_str main_dir []) && negb (existsb (eq_str main_dir) native_lib_search_dirs)
        then native_lib_search_dirs ++ [main_dir] else native_lib_search_dirs in
      objects ← load_direct_so_dependencies fuel [main_so] lib_search_dirs;
      match objects with
      | None => mret ([main_so], false)
      | Some objects =>
          ready ← relocate_each (reverse objects) objects strict;
          _ ← patch_each objects;
          mret (objects, ready)
      end
  end.
End Patch.
