(* ===== verification/RunSoLoadProps.v ===== *)
(** * The guest runner: loading is safe and complete

    Libraries with ordinary segments are mapped one behind the other, each
    holding what its file says, and nothing else of the guest is changed;
    loading ends, and leaves nothing that is needed out. *)

From S2P Require Import Prelude Decimal Cxx ApkZip Elf GuestMem HostFile GpuStubs RunSoLoad.

(** ** Alignment *)

Lemma align_down v k : 0 <= k < 64 → in_u64 v → align_down_u64 v (2 ^ k) = v / 2 ^ k * 2 ^ k.
Proof. intros Hk Hv. by apply land_high_mask. Qed.
Lemma align_up v k : 0 <= k < 64 → 0 <= v → v + 2 ^ k <= 18446744073709551616 →
  align_up_u64 v (2 ^ k) = (v + 2 ^ k - 1) / 2 ^ k * 2 ^ k.
Proof.
  intros Hk Hv Hs. unfold align_up_u64. assert (0 < 2 ^ k) by (apply Z.pow_pos_nonneg; lia).
  rewrite u64_small by (unfold in_u64; lia). apply land_high_mask; lia.
Qed.
Lemma page_down v : in_u64 v → align_down_u64 v 4096 = v / 4096 * 4096.
Proof. by apply (align_down v 12). Qed.
Lemma page_up v : 0 <= v <= 18446744073709547520 → align_up_u64 v 4096 = (v + 4095) / 4096 * 4096.
Proof. intros Hv. change 4096 with (2 ^ 12) at 1. rewrite align_up by lia. change (2 ^ 12) with 4096. by replace (v + 4096 - 1) with (v + 4095) by lia. Qed.
Lemma block_up v : 0 <= v <= 18446744073707454464 → align_up_u64 v BLOCK_2MIB = (v + 2097151) / 2097152 * 2097152.
Proof. intros Hv. change BLOCK_2MIB with (2 ^ 21). rewrite align_up by lia. change (2 ^ 21) with 2097152. by replace (v + 2097152 - 1) with (v + 2097151) by lia. Qed.
Lemma block_down v : in_u64 v → align_down_u64 v BLOCK_2MIB = v / 2097152 * 2097152.
Proof. by apply (align_down v 21). Qed.

(** ** Libraries *)

(** A bound on addresses that leaves room for sums. *)
Definition top : Z := 4611686018427387904.
(** An ordinary segment. *)
Definition seg_ok (ph : Elf64_Phdr) : Prop :=
  0 <= p_vaddr ph ∧ 0 <= p_filesz ph <= p_memsz ph ∧ 0 < p_memsz ph ∧ p_vaddr ph + p_memsz ph <= top.
Definition segs_apart (p q : Elf64_Phdr) : Prop :=
  p_vaddr p + p_memsz p <= p_vaddr q ∨ p_vaddr q + p_memsz q <= p_vaddr p.
(** The segments of an object that are loaded. *)
Definition loads (phdrs : list Elf64_Phdr) : list Elf64_Phdr := filter (λ ph, p_type ph = PT_LOAD) phdrs.
Definition phdrs_ok (phdrs : list Elf64_Phdr) : Prop :=
  Forall seg_ok (loads phdrs) ∧ ForallOrdPairs segs_apart (loads phdrs).

Lemma loads_cons ph phdrs : loads (ph :: phdrs) = if p_type ph =? PT_LOAD then ph :: loads phdrs else loads phdrs.
Proof.
  unfold loads. rewrite filter_cons. destruct (Z.eqb_spec (p_type ph) PT_LOAD); [by rewrite decide_True|by rewrite decide_False].
Qed.
(** The pages of a segment. *)
Definition first_page (ph : Elf64_Phdr) : Z := p_vaddr ph / 4096 * 4096.
Definition last_page (ph : Elf64_Phdr) : Z := (p_vaddr ph + p_memsz ph + 4095) / 4096 * 4096.
Lemma seg_pages ph : seg_ok ph →
  0 <= first_page ph < last_page ph ∧ last_page ph <= top + 4096 ∧ first_page ph <= p_vaddr ph ∧
  p_vaddr ph + p_memsz ph <= last_page ph ∧ first_page ph mod 4096 = 0 ∧ last_page ph mod 4096 = 0.
Proof.
  intros (H1 & H2 & H3 & H4). unfold first_page, last_page, top in *.
  split_and!; try (apply Z.mod_mul; lia); zdm.
Qed.
(** A pass over a segment. *)
Definition range_pass '((lo, hi) : Z * Z) (ph : Elf64_Phdr) : Z * Z :=
  if negb (p_type ph =? PT_LOAD) then (lo, hi) else
  (Z.min lo (align_down_u64 (p_vaddr ph) 4096), Z.max hi (align_up_u64 (u64 (p_vaddr ph + p_memsz ph)) 4096)).
Lemma range_skip lo hi ph : p_type ph ≠ PT_LOAD → range_pass (lo, hi) ph = (lo, hi).
Proof. intros Ht. unfold range_pass. by rewrite (proj2 (Z.eqb_neq _ _)). Qed.
Lemma range_take lo hi ph : p_type ph = PT_LOAD → seg_ok ph →
  range_pass (lo, hi) ph = (Z.min lo (first_page ph), Z.max hi (last_page ph)).
Proof.
  intros Ht (H1 & H2 & H3 & H4). unfold range_pass, top, first_page, last_page in *. rewrite Ht. cbn [negb].
  rewrite page_down by (unfold in_u64; lia). rewrite u64_small by (unfold in_u64; lia). by rewrite page_up by lia.
Qed.
(** The range of the segments: whole pages that hold them all. *)
Definition range_ok (lo hi : Z) (phs : list Elf64_Phdr) : Prop :=
  0 <= lo < hi ∧ hi <= top + 4096 ∧ lo mod 4096 = 0 ∧ hi mod 4096 = 0 ∧
  Forall (λ ph, lo <= first_page ph ∧ last_page ph <= hi) phs.
Lemma range_go phdrs lo hi :
  Forall seg_ok (loads phdrs) → range_ok lo hi [] →
  ∃ lo' hi', foldl range_pass (lo, hi) phdrs = (lo', hi') ∧ lo' <= lo ∧ hi <= hi' ∧ range_ok lo' hi' (loads phdrs).
Proof.
  revert lo hi. induction phdrs as [|ph phdrs IH]; intros lo hi Hs Hr; [by exists lo, hi|].
  cbn [foldl]. rewrite loads_cons in *. destruct (Z.eqb_spec (p_type ph) PT_LOAD) as [Et|Et].
  - apply Forall_cons in Hs as [Hseg Hs]. rewrite (range_take lo hi ph Et Hseg).
    pose proof (seg_pages ph Hseg) as (P1 & P2 & _ & _ & P3 & P4). destruct Hr as (R1 & R2 & R3 & R4 & _).
    destruct (IH (Z.min lo (first_page ph)) (Z.max hi (last_page ph)) Hs) as (lo' & hi' & E & H5 & H6 & R).
    { unfold range_ok, top in *. split; [lia|split; [lia|split; [|split; [|constructor]]]].
      - by destruct (Z.min_spec lo (first_page ph)) as [[_ ->]|[_ ->]].
      - by destruct (Z.max_spec hi (last_page ph)) as [[_ ->]|[_ ->]]. }
    exists lo', hi'. split; [done|split; [lia|split; [lia|]]]. destruct R as (Q1 & Q2 & Q3 & Q4 & Q5).
    split; [done|split; [done|split; [done|split; [done|]]]]. constructor; [lia|done].
  - rewrite range_skip by done. by apply IH.
Qed.
Lemma load_range_spec phdrs :
  Forall seg_ok (loads phdrs) → loads phdrs ≠ [] →
  ∃ lo hi, load_range phdrs = (lo, hi) ∧ range_ok lo hi (loads phdrs).
Proof.
  change (load_range phdrs) with (foldl range_pass (18446744073709551615, 0) phdrs).
  induction phdrs as [|ph phdrs IH]; [done|]. cbn [foldl]. rewrite loads_cons.
  destruct (Z.eqb_spec (p_type ph) PT_LOAD) as [Et|Et].
  - intros Hs _. apply Forall_cons in Hs as [Hseg Hs]. rewrite (range_take _ _ ph Et Hseg).
    pose proof (seg_pages ph Hseg) as (P1 & P2 & _ & _ & P3 & P4). unfold top in *.
    rewrite Z.min_r, Z.max_r by lia.
    destruct (range_go phdrs (first_page ph) (last_page ph) Hs) as (lo & hi & E & H5 & H6 & (Q1 & Q2 & Q3 & Q4 & Q5)).
    { unfold range_ok, top. split_and!; try done; lia. }
    exists lo, hi. split; [done|]. split; [done|split; [done|split; [done|split; [done|]]]]. constructor; [lia|done].
  - rewrite range_skip by done. apply IH.
Qed.

(** ** Mapping *)

Section Map.
Context `{G : Guest} `{!GuestLaws G} `{P : !Pages G} `{!PagesLaws G P} `{D : Disk} `{E : Dirs}.
Implicit Types (g : guest).

(** Nothing outside of a range has changed. *)
Definition keeps (lo hi : Z) g g' : Prop :=
  guest_size g' = guest_size g ∧
  ∀ x, user g x = true → user g' x = true ∧
    (¬ (lo <= x < hi) → byte g' x = byte g x ∧ (mapped g x = true → mapped g' x = true)).
Lemma keeps_refl lo hi g : keeps lo hi g g.
Proof. by split. Qed.
Lemma keeps_trans lo hi g1 g2 g3 : keeps lo hi g1 g2 → keeps lo hi g2 g3 → keeps lo hi g1 g3.
Proof.
  intros [S1 K1] [S2 K2]. split; [congruence|]. intros x Hx. destruct (K1 x Hx) as [U1 H1].
  destruct (K2 x U1) as [U2 H2]. split; [done|]. intros Ho. destruct (H1 Ho) as [<- M1]. destruct (H2 Ho) as [<- M2]. eauto.
Qed.
Lemma keeps_weaken lo hi lo' hi' g g' : lo' <= lo → hi <= hi' → keeps lo hi g g' → keeps lo' hi' g g'.
Proof. intros Hl Hh [S1 K1]. split; [done|]. intros x Hx. destruct (K1 x Hx) as [U1 H1]. split; [done|]. intros Ho. apply H1. lia. Qed.

(** A write of the host inside of the guest. *)
Lemma holds_poke_host lo hi a bs g :
  lo <= a → a + size bs <= hi → 0 <= a → a + size bs <= guest_size g → bytes bs →
  holds (poke_host a bs) g (λ _ g', keeps lo hi g g' ∧ (∀ x, mapped g' x = mapped g x) ∧
    holds_at (byte g') a bs ∧ ∀ x, ¬ (a <= x < a + size bs) → byte g' x = byte g x).
Proof.
  intros Hl Hh Ha Hs Hb. unfold poke_host. destruct (Z.eqb_spec (size bs) 0) as [Hz|Hz].
  - apply holds_ret. split; [apply keeps_refl|split; [done|split; [|done]]].
    destruct bs; [by intros i b|]. rewrite size_cons in Hz. pose proof (size_nonneg bs). lia.
  - unfold holds. rewrite !(proj2 (Z.leb_le _ _)) by lia. cbn [andb]. cbn. split; [|split; [apply host_mapped|split; [by apply host_value|]]].
    + split; [apply host_size|]. intros x Hx. rewrite host_user. split; [done|]. intros Ho. rewrite host_mapped.
      split; [apply host_other; lia|done].
    + intros x Hx. by apply host_other.
Qed.

(** What a segment holds: its bytes of the file, then zeros. *)
Definition image (c : list Z) (ph : Elf64_Phdr) : list Z :=
  read_some c (p_offset ph) (p_filesz ph) ++ replicate (Z.to_nat (p_memsz ph - p_filesz ph)) 0.
Definition image_at g (base : Z) (c : list Z) (ph : Elf64_Phdr) : Prop :=
  size (image c ph) = p_memsz ph ∧ holds_at (byte g) (base + p_vaddr ph) (image c ph).

Lemma bytes_zeros n : bytes (replicate n 0).
Proof. apply Forall_replicate. done. Qed.
Lemma bytes_fread c pos n : bytes c → bytes (fread c pos n).
Proof. intros Hc. unfold fread. destruct (_ <=? _); [constructor|]. by apply Forall_take, Forall_drop. Qed.
Lemma bytes_read_some c off n : bytes c → bytes (read_some c off n).
Proof. intros Hc. unfold read_some. destruct (_ <? _); [constructor|]. by apply bytes_fread. Qed.
Lemma size_read_some c off n : 0 <= n → size (read_some c off n) <= n.
Proof. intros Hn. unfold read_some. destruct (_ <? _); [done|]. by apply size_fread. Qed.
Lemma size_zero_run n : 0 <= n → size (replicate (Z.to_nat n) 0) = n.
Proof. intros Hn. unfold size. rewrite length_replicate. lia. Qed.

(** One segment. *)
Lemma holds_segment c base lo hi ph g :
  bytes c → seg_ok ph → lo <= first_page ph → last_page ph <= hi → 0 <= base + lo → base + hi <= guest_size g →
  holds (_ ← poke_host (base + p_vaddr ph) (replicate (Z.to_nat (p_memsz ph)) 0);
         poke_host (base + p_vaddr ph) (read_some c (p_offset ph) (p_filesz ph))) g
    (λ _ g', keeps (base + lo) (base + hi) g g' ∧ (∀ x, mapped g' x = mapped g x) ∧
      (size (read_some c (p_offset ph) (p_filesz ph)) = p_filesz ph → image_at g' base c ph) ∧
      ∀ x, ¬ (base + p_vaddr ph <= x < base + p_vaddr ph + p_memsz ph) → byte g' x = byte g x).
Proof.
  intros Hc Hseg Hlo Hhi H0 Hsz. pose proof (seg_pages ph Hseg) as (P1 & P2 & P3 & P4 & _). destruct Hseg as (S1 & S2 & S3 & S4).
  pose proof (size_zero_run (p_memsz ph) ltac:(lia)) as Hz. apply holds_bind.
  eapply holds_mono; [apply (holds_poke_host (base + lo) (base + hi)); rewrite ?Hz; try lia; apply bytes_zeros|].
  intros [] g1 (K1 & M1 & V1 & O1). rewrite Hz in O1.
  pose proof (size_read_some c (p_offset ph) (p_filesz ph) ltac:(lia)) as Hd. set (data := read_some c _ _) in *.
  eapply holds_mono; [apply (holds_poke_host (base + lo) (base + hi)); try (rewrite ?(proj1 K1); lia); by apply bytes_read_some|].
  intros [] g2 (K2 & M2 & V2 & O2). split; [by eapply keeps_trans|]. split; [intros x; by rewrite M2|]. split.
  - intros Hfull. unfold image_at, image. fold data. rewrite size_app, size_zero_run by lia. split; [lia|].
    apply holds_at_app. split; [done|]. rewrite Hfull. intros i b Hi.
    assert (i < Z.to_nat (p_memsz ph - p_filesz ph))%nat as Hlt
      by (apply lookup_lt_Some in Hi; by rewrite length_replicate in Hi).
    apply lookup_replicate in Hi as [-> _]. rewrite O2 by lia.
    replace (base + p_vaddr ph + p_filesz ph + Z.of_nat i) with (base + p_vaddr ph + Z.of_nat (Z.to_nat (p_filesz ph) + i)) by lia.
    apply V1. apply lookup_replicate_2. lia.
  - intros x Hx. rewrite O2, O1; [done|lia|lia].
Qed.

(** The place of a segment, with the sums of the code. *)
Lemma place_eq base v : 0 <= base + v < 18446744073709551616 → u64 (u64 base + v) = base + v.
Proof. intros H. rewrite u64_add_l. by apply u64_small. Qed.
Lemma fill_cons c b ph phdrs : p_type ph = PT_LOAD → 0 <= p_filesz ph →
  fill_segments c b (ph :: phdrs) =
    (_ ← poke_host (u64 (b + p_vaddr ph)) (replicate (Z.to_nat (p_memsz ph)) 0);
     _ ← poke_host (u64 (b + p_vaddr ph)) (read_some c (p_offset ph) (p_filesz ph));
     if size (read_some c (p_offset ph) (p_filesz ph)) =? p_filesz ph then fill_segments c b phdrs else mret false).
Proof.
  intros Ht Hf. cbn [fill_segments]. rewrite Ht. cbn [negb Z.eqb]. change (PT_LOAD =? PT_LOAD) with true. cbn [negb].
  destruct (Z.eqb_spec (p_filesz ph) 0) as [->|Hn]; [|done].
  pose proof (size_read_some c (p_offset ph) 0 ltac:(lia)) as Hz. destruct (read_some c (p_offset ph) 0) as [|x l]; [done|].
  rewrite size_cons in Hz. pose proof (size_nonneg l). lia.
Qed.
Lemma image_keeps g g' base c ph :
  image_at g base c ph → (∀ x, base + p_vaddr ph <= x < base + p_vaddr ph + p_memsz ph → byte g' x = byte g x) →
  image_at g' base c ph.
Proof. intros [Hz Hh] Hb. split; [done|]. eapply holds_at_ext; [|exact Hh]. intros x Hx. symmetry. apply Hb. lia. Qed.
(** All segments. *)
Lemma holds_fill c base lo hi phdrs g :
  bytes c → phdrs_ok phdrs → range_ok lo hi (loads phdrs) → 0 <= base + lo → base + hi <= guest_size g → guest_size g <= top →
  holds (fill_segments c (u64 base) phdrs) g
    (λ ok g', keeps (base + lo) (base + hi) g g' ∧ (∀ x, mapped g' x = mapped g x) ∧
      (ok = true → Forall (image_at g' base c) (loads phdrs)) ∧
      ∀ x, Forall (λ ph, ¬ (base + p_vaddr ph <= x < base + p_vaddr ph + p_memsz ph)) (loads phdrs) → byte g' x = byte g x).
Proof.
  intros Hc. revert g. induction phdrs as [|ph phdrs IH]; intros g Hok Hr H0 Hsz Htop.
  { apply holds_ret. split; [apply keeps_refl|split; [done|split; [constructor|done]]]. }
  unfold phdrs_ok in *. rewrite loads_cons in *. destruct (Z.eqb_spec (p_type ph) PT_LOAD) as [Et|Et].
  2:{ assert (fill_segments c (u64 base) (ph :: phdrs) = fill_segments c (u64 base) phdrs) as ->
        by (cbn [fill_segments]; by rewrite (proj2 (Z.eqb_neq _ _))). by apply IH. }
  destruct Hok as [[Hseg Hsegs]%Forall_cons Hap]. inversion Hap as [|? ? Hph Hrest]; subst.
  destruct Hr as (R1 & R2 & R3 & R4 & [[R5 R6] R7]%Forall_cons).
  pose proof (seg_pages ph Hseg) as (P1 & P2 & P3 & P4 & _).
  rewrite fill_cons by (try done; by destruct Hseg as (_ & [? _] & _)). rewrite place_eq by (destruct Hseg as (? & ? & ? & _); unfold top in *; lia).
  pose proof (holds_segment c base lo hi ph g Hc Hseg R5 R6 H0 Hsz) as HS.
  set (data := read_some c _ _) in *. set (a := base + p_vaddr ph) in *. set (z := replicate (Z.to_nat (p_memsz ph)) 0) in *.
  apply holds_bind. unfold holds in HS. unfold holds. unfold mbind, St_bind in HS.
  destruct (poke_host a z g) as [[[] g1]| | |]; [|done..]. cbn in HS. cbn. fold (holds (_ ← poke_host a data; if size data =? p_filesz ph then fill_segments c (u64 base) phdrs else mret false) g1
    (λ ok g', keeps (base + lo) (base + hi) g g' ∧ (∀ x, mapped g' x = mapped g x) ∧
      (ok = true → Forall (image_at g' base c) (ph :: loads phdrs)) ∧
      ∀ x, Forall (λ ph, ¬ (base + p_vaddr ph <= x < base + p_vaddr ph + p_memsz ph)) (ph :: loads phdrs) → byte g' x = byte g x)).
  apply holds_bind. eapply holds_mono; [exact HS|]. intros [] g2 (K2 & M2 & V2 & O2).
  apply holds_if; intros Hfull.
  - apply Z.eqb_eq in Hfull. specialize (V2 Hfull).
    eapply holds_mono; [apply (IH g2); [by split|by repeat split; try lia|lia|rewrite (proj1 K2); lia|rewrite (proj1 K2); lia]|].
    intros ok g3 (K3 & M3 & V3 & O3). split; [by eapply keeps_trans|]. split; [intros x; by rewrite M3|]. split.
    + intros Hok. constructor; [|by apply V3]. eapply image_keeps; [exact V2|]. intros x Hx. apply O3.
      eapply Forall_impl; [exact Hph|]. intros q Hq. unfold segs_apart in Hq. unfold a in *. lia.
    + intros x [Hx Hxs]%Forall_cons. rewrite O3 by done. by apply O2.
  - apply holds_ret. split; [done|split; [done|split; [done|]]]. intros x [Hx _]%Forall_cons. by apply O2.
Qed.

(** Permissions change nothing but what may be written. *)
Lemma holds_protect base lo hi phdrs g :
  Forall seg_ok (loads phdrs) → range_ok lo hi (loads phdrs) → 0 <= base + lo → base + hi <= top → base mod 4096 = 0 →
  holds (protect_segments (u64 base) phdrs) g
    (λ _ g', keeps (base + lo) (base + hi) g g' ∧ ∀ x, user g x = true → byte g' x = byte g x).
Proof.
  revert g. induction phdrs as [|ph phdrs IH]; intros g Hsegs Hr H0 Hsz Hb.
  { apply holds_ret. split; [apply keeps_refl|done]. }
  rewrite loads_cons in *. destruct (Z.eqb_spec (p_type ph) PT_LOAD) as [Et|Et].
  2:{ assert (protect_segments (u64 base) (ph :: phdrs) = protect_segments (u64 base) phdrs) as ->
        by (cbn [protect_segments]; by rewrite (proj2 (Z.eqb_neq _ _))). by apply IH. }
  apply Forall_cons in Hsegs as [Hseg Hsegs].
  destruct Hr as (R1 & R2 & R3 & R4 & [[R5 R6] R7]%Forall_cons).
  pose proof (seg_pages ph Hseg) as (P1 & P2 & P3 & P4 & P5 & P6). destruct Hseg as (S1 & S2 & S3 & S4).
  cbn [protect_segments]. rewrite Et. change (PT_LOAD =? PT_LOAD) with true. cbn [negb].
  replace (u64 base + p_vaddr ph + p_memsz ph) with (u64 base + (p_vaddr ph + p_memsz ph)) by lia.
  rewrite !place_eq by (unfold top in *; lia). rewrite page_down, page_up by (unfold in_u64, top in *; lia).
  set (a := (base + p_vaddr ph) / 4096 * 4096). set (b := (base + (p_vaddr ph + p_memsz ph) + 4095) / 4096 * 4096).
  assert (base + lo <= a ∧ b <= base + hi) as [Ha Hb'].
  { unfold a, b, first_page, last_page in *. clear -R5 R6 Hb. zdm. }
  apply holds_bind. unfold holds, change. destruct (update_perms g a b (phdr_mem_perms (p_flags ph))) as [ok g1] eqn:Eg. cbn.
  assert (g1 = (update_perms g a b (phdr_mem_perms (p_flags ph))).2) as Hg1 by (by rewrite Eg).
  assert (∀ x, user g x = true → byte g1 x = byte g x) as B1 by (intros x Hx; rewrite Hg1; by apply perms_byte).
  assert (keeps (base + lo) (base + hi) g g1) as K1.
  { split; [rewrite Hg1; apply perms_size|]. intros x Hx. split; [rewrite Hg1; by rewrite perms_user|].
    intros Ho. split; [by apply B1|]. intros Hm. rewrite Hg1. apply perms_mapped; [left; lia|done]. }
  destruct ok; [|by split].
  eapply holds_mono; [apply (IH g1); try done; by repeat split; try lia|]. intros r g2 [K2 B2].
  split; [by eapply keeps_trans|]. intros x Hx. rewrite B2; [by apply B1|]. by apply K1.
Qed.

(** An object that has been read. *)
Definition obj_ok (o : DirectSoObject) : Prop :=
  phdrs_ok (so_phdrs o) ∧ range_ok (load_min o) (load_max o) (loads (so_phdrs o)).
(** Where it is when it has been mapped at [m]. *)
Definition mapped_object g (m : Z) (o : DirectSoObject) : Prop :=
  load_base o = u64 (m - load_min o) ∧ (∀ x, m <= x < m + (load_max o - load_min o) → user g x = true) ∧
  ∃ c, fopen (so_path o) = Some c ∧ Forall (image_at g (m - load_min o) c) (loads (so_phdrs o)).
Definition extent (o : DirectSoObject) : Z := load_max o - load_min o.
(** The place behind an object, in whole blocks. *)
Definition behind (m : Z) (o : DirectSoObject) : Z := (m + extent o + 2097151) / 2097152 * 2097152.

Hypothesis disk_bytes : ∀ p c, fopen p = Some c → bytes c.
Lemma holds_map o m g :
  obj_ok o → 0 <= m <= top → m mod 2097152 = 0 → guest_size g <= top →
  holds (map_direct_so_object o m) g (λ r g',
    match r with
    | None => keeps m (Z.min (m + extent o) (guest_size g)) g g'
    | Some o' => keeps m (m + extent o) g g' ∧ behind m o <= guest_size g ∧ o' = set_base (u64 (m - load_min o)) o ∧ mapped_object g' m o'
    end).
Proof.
  intros [Hok Hr] Hm Hm2 Htop. pose proof Hr as (R1 & R2 & R3 & R4 & _). unfold map_direct_so_object.
  destruct (fopen (so_path o)) as [c|] eqn:Ec; [|by apply holds_ret, keeps_refl].
  pose proof (disk_bytes _ _ Ec) as Hc. cbn [load_base set_base load_min load_max so_phdrs].
  rewrite place_eq by (unfold top in *; lia).
  replace (m - load_min o + load_max o) with (m + extent o) by (unfold extent; lia).
  rewrite block_up by (unfold extent, top in *; lia). rewrite block_down by (unfold in_u64, top in *; lia). fold (behind m o).
  apply holds_bind, holds_get. apply holds_if; intros Hlim; [by apply holds_ret, keeps_refl|]. apply Z.ltb_ge in Hlim.
  assert (m + extent o <= behind m o) as Hbe by (unfold behind; zdm).
  apply holds_bind. unfold holds, change.
  destruct (extend_page_tables g (m / 2097152 * 2097152) (behind m o)) as [ok g1] eqn:Eg. cbn.
  assert (g1 = (extend_page_tables g (m / 2097152 * 2097152) (behind m o)).2) as Hg1 by (by rewrite Eg).
  assert (keeps m (m + extent o) g g1) as K1.
  { split; [rewrite Hg1; apply extend_size|]. intros x Hx. rewrite Hg1.
    split; [by apply extend_user|]. intros _. split; [by apply extend_byte|by apply extend_mapped]. }
  rewrite Z.min_l by lia. destruct ok; cbn [negb]; [|exact K1].
  assert (∀ x, m <= x < m + extent o → user g1 x = true) as U1.
  { intros x Hx. apply mapped_user. rewrite Hg1. apply extend_maps; [by rewrite Eg|]. clear -Hm2 Hx Hbe. zdm. }
  fold (holds (ok ← fill_segments c (u64 (m - load_min o)) (so_phdrs o);
    if negb ok then mret None else
    ok ← protect_segments (u64 (m - load_min o)) (so_phdrs o);
    mret (if (ok : bool) then Some (set_base (u64 (m - load_min o)) o) else None)) g1 (λ r g',
    match r with
    | None => keeps m (m + extent o) g g'
    | Some o' => keeps m (m + extent o) g g' ∧ behind m o <= guest_size g ∧ o' = set_base (u64 (m - load_min o)) o ∧ mapped_object g' m o'
    end)).
  apply holds_bind.
  pose proof (holds_fill c (m - load_min o) (load_min o) (load_max o) (so_phdrs o) g1 Hc Hok Hr ltac:(lia)
    ltac:(rewrite (proj1 K1); unfold extent in *; lia) ltac:(rewrite (proj1 K1); lia)) as HF.
  replace (m - load_min o + load_min o) with m in HF by lia.
  replace (m - load_min o + load_max o) with (m + extent o) in HF by (unfold extent; lia).
  eapply holds_mono; [exact HF|]. intros ok g2 (K2 & M2 & V2 & _). pose proof (keeps_trans _ _ _ _ _ K1 K2) as K12.
  destruct ok; cbn [negb]; [|by apply holds_ret]. apply holds_bind.
  pose proof (holds_protect (m - load_min o) (load_min o) (load_max o) (so_phdrs o) g2 (proj1 Hok) Hr ltac:(lia)
    ltac:(unfold extent, top in *; lia) ltac:(clear -Hm2 R3; zdm)) as HP.
  replace (m - load_min o + load_min o) with m in HP by lia.
  replace (m - load_min o + load_max o) with (m + extent o) in HP by (unfold extent; lia).
  eapply holds_mono; [exact HP|]. intros ok g3 [K3 B3]. pose proof (keeps_trans _ _ _ _ _ K12 K3) as K13.
  destruct ok; apply holds_ret; [|done]. split; [done|split; [done|split; [done|]]].
  assert (∀ x, m <= x < m + extent o → user g2 x = true) as U2 by (intros x Hx; by apply K2, U1).
  split; [done|]. split; [intros x Hx; by apply K3, U2|]. exists c. split; [done|]. apply Forall_forall. intros ph Hph.
  pose proof (proj1 (Forall_forall _ _) (V2 eq_refl) ph Hph) as Himg. eapply image_keeps; [exact Himg|].
  intros x Hx. apply B3. apply U2.
  pose proof (proj1 (Forall_forall _ _) (proj1 Hok) ph Hph) as Hseg. pose proof (seg_pages ph Hseg) as (P1 & P2 & P3 & P4 & _).
  destruct Hr as (_ & _ & _ & _ & R7). pose proof (proj1 (Forall_forall _ _) R7 ph Hph) as [Q1 Q2]. cbn [load_min set_base] in Hx. unfold extent. lia.
Qed.

(** ** Dependencies *)

(** An object mapped at [m] before. *)
Definition placed (m : Z) (o : DirectSoObject) : Prop :=
  obj_ok o ∧ 0 <= m ∧ load_base o = u64 (m - load_min o) ∧ m + extent o + 2097152 <= top.
Definition start (o : DirectSoObject) : Z := u64 (load_base o + load_min o).
Lemma start_of m o : load_base o = u64 (m - load_min o) → 0 <= m <= top → start o = m.
Proof.
  intros Hb Hm. unfold start. rewrite Hb, u64_add_l. replace (m - load_min o + load_min o) with m by lia.
  apply u64_small. unfold in_u64, top in *. lia.
Qed.
Lemma first_base_spec objs :
  Forall (λ o, ∃ m, placed m o) objs →
  6442450944 <= first_base objs <= top ∧ first_base objs mod 2097152 = 0 ∧
  Forall (λ o, start o + extent o <= first_base objs) objs.
Proof.
  intros Hp. unfold first_base.
  assert (∀ b, 6442450944 <= b <= top → b mod 2097152 = 0 →
    b <= foldl (λ b obj, Z.max b (align_up_u64 (u64 (load_base obj + load_max obj)) BLOCK_2MIB)) b objs <= top ∧
    foldl (λ b obj, Z.max b (align_up_u64 (u64 (load_base obj + load_max obj)) BLOCK_2MIB)) b objs mod 2097152 = 0 ∧
    Forall (λ o, start o + extent o <=
      foldl (λ b obj, Z.max b (align_up_u64 (u64 (load_base obj + load_max obj)) BLOCK_2MIB)) b objs) objs) as H.
  { induction Hp as [|o objs (m & Ho & Hm & Hb & Ht) Hp IH]; intros b Hb0 Hb1; cbn [foldl]; [split; [lia|split; [done|constructor]]|].
    destruct Ho as [_ (R1 & R2 & _)]. rewrite Hb, place_eq by (unfold extent, top in *; lia).
    replace (m - load_min o + load_max o) with (m + extent o) by (unfold extent; lia).
    rewrite block_up by (unfold extent, top in *; lia). fold (behind m o).
    assert (m + extent o <= behind m o <= top) by (unfold behind, extent, top in *; zdm).
    destruct (IH (Z.max b (behind m o))) as (I1 & I2 & I3); [lia| |].
    { destruct (Z.max_spec b (behind m o)) as [[_ ->]|[_ ->]]; [apply Z.mod_mul; lia|done]. }
    split; [lia|split; [done|]]. constructor; [|done]. rewrite (start_of m) by (try done; unfold extent in *; lia). lia. }
  destruct (H 6442450944) as (H1 & H2 & H3); [unfold top; lia|done|]. split; [lia|done].
Qed.

Lemma find_dependency_ends dirs name : wp (find_direct_so_dependency dirs name) (λ r,
  match r with Some p => ∃ dir, dir ∈ dirs ∧ p = path_join dir name | None => True end).
Proof.
  induction dirs as [|d dirs IH]; [done|]. cbn [find_direct_so_dependency].
  assert (wp (find_direct_so_dependency dirs name) (λ r,
    match r with Some p => ∃ dir, dir ∈ d :: dirs ∧ p = path_join dir name | None => True end)) as IH'.
  { eapply wp_mono; [exact IH|]. intros [p|]; [|done]. intros (dir & Hd & ->). exists dir. split; [by right|done]. }
  destruct (eq_str d []); [exact IH'|]. destruct (path_exists _) as [[]|]; [|exact IH'|done].
  exists d. split; [left|done].
Qed.
Lemma parse_path path o : parse_direct_so_metadata path = Some o → so_path o = path ∧
  (phdrs_ok (so_phdrs o) → obj_ok o).
Proof.
  unfold parse_direct_so_metadata. destruct (fopen path) as [c|]; [|done]. destruct (read_at c 0 64) as [eh|]; [|done].
  destruct (negb (is_aarch64 eh)); [done|]. destruct (read_at c _ _) as [bs|]; [|done].
  set (phdrs := phdrs_of_bytes _ bs). destruct (load_range phdrs) as [lo hi] eqn:El. cbv zeta.
  destruct (Z.eqb_spec lo 18446744073709551615) as [|Hlo]; [done|]. intros [= <-]. split; [done|].
  intros [Hs Ha]. split; [by split|]. cbn [load_min load_max so_phdrs] in *.
  destruct (load_range_spec phdrs Hs) as (lo' & hi' & El' & Hr).
  - intros Hn. apply Hlo. clear -El Hn.
    assert (∀ ps a, loads ps = [] → foldl range_pass a ps = a) as H.
    { induction ps as [|p ps IH]; intros a Hp; [done|]. rewrite loads_cons in Hp. cbn [foldl].
      destruct (Z.eqb_spec (p_type p) PT_LOAD) as [|Hne]; [done|]. destruct a as [x y]. rewrite range_skip by done. by apply IH. }
    change (load_range phdrs) with (foldl range_pass (18446744073709551615, 0) phdrs) in El. rewrite H in El by done. by injection El.
  - rewrite El in El'. by injection El' as <- <-.
Qed.
End Map.

(** ** The guest runner: what a shared object needs is loaded

    Loading the libraries an object needs, and those they need: it ends, puts
    each behind the others, leaves the rest of the guest alone, and leaves
    none out. *)

Section Deps.
Context `{G : Guest} `{!GuestLaws G} `{P : !Pages G} `{!PagesLaws G P} `{D : Disk} `{E : Dirs}.
Implicit Types (s : gpu).
(** What files hold are bytes, and the libraries have ordinary segments. *)
Hypothesis disk_bytes : ∀ p c, fopen p = Some c → bytes c.
Hypothesis libs_ok : ∀ p o, parse_direct_so_metadata p = Some o → phdrs_ok (so_phdrs o).
(** The directories, and the objects there are in the beginning. *)
Variables (dirs : list (list Z)) (objs0 : list DirectSoObject).
Hypothesis objs0_placed : Forall (λ o, ∃ m, placed m o) objs0.
Abbreviation base0 := (first_base objs0).

(** A library that has been loaded: behind what was there, with the contents of
    its file. *)
Definition loaded (g : guest) (o : DirectSoObject) : Prop :=
  obj_ok o ∧ base0 <= start o ∧ start o + extent o <= guest_size g ∧ mapped_object g (start o) o.
Definition behind_each_other (l : list DirectSoObject) : Prop :=
  ForallOrdPairs (λ o1 o2, start o1 + extent o1 <= start o2) l.
(** The state of the loop. *)
Definition inv s0 (objs : list DirectSoObject) (nb : Z) s : Prop :=
  s = with_guest (gpu_guest s) s0 ∧
  keeps base0 (guest_size (gpu_guest s0)) (gpu_guest s0) (gpu_guest s) ∧
  base0 <= nb <= Z.max base0 (guest_size (gpu_guest s0)) ∧ nb mod 2097152 = 0 ∧
  Z.of_nat (length objs) * 2097152 <= Z.of_nat (length objs0) * 2097152 + (nb - base0) ∧
  ∃ new, objs = objs0 ++ new ∧ behind_each_other new ∧
    Forall (λ o, loaded (gpu_guest s) o ∧ start o + extent o <= nb) new.

Lemma mapped_keeps lo hi g g' m o : obj_ok o →
  mapped_object g m o → keeps lo hi g g' → m + extent o <= lo → mapped_object g' m o.
Proof.
  intros [Hok (R1 & R2 & _ & _ & R5)] (Hb & Hu & c & Hc & Hi) [Hs Hk] Hlo. unfold extent in *.
  assert (∀ x, m <= x < m + (load_max o - load_min o) → user g' x = true ∧ byte g' x = byte g x) as H.
  { intros x Hx. destruct (Hk x (Hu x Hx)) as [H1 H2]. split; [done|]. apply H2. lia. }
  split; [done|]. split; [intros x Hx; by apply H|]. exists c. split; [done|]. apply Forall_forall. intros ph Hph.
  pose proof (proj1 (Forall_forall _ _) Hi ph Hph) as Himg. eapply image_keeps; [exact Himg|]. intros x Hx. apply H.
  pose proof (proj1 (Forall_forall _ _) (proj1 Hok) ph Hph) as Hseg. pose proof (seg_pages ph Hseg) as (P1 & P2 & P3 & P4 & _).
  pose proof (proj1 (Forall_forall _ _) R5 ph Hph) as [Q1 Q2]. lia.
Qed.
Lemma pairs_snoc {A} (R : A → A → Prop) l x : ForallOrdPairs R l → Forall (λ y, R y x) l → ForallOrdPairs R (l ++ [x]).
Proof.
  induction 1 as [|y l Hy Hl IH]; intros Hx; cbn [app]; [repeat constructor|].
  apply Forall_cons in Hx as [Hxy Hx]. constructor; [|by apply IH]. apply Forall_app. split; [done|by constructor].
Qed.
(** A library more. *)
Lemma inv_push s0 objs nb s dep g' :
  guest_size (gpu_guest s0) <= top → inv s0 objs nb s → obj_ok dep → nb <= top →
  keeps nb (nb + extent dep) (gpu_guest s) g' → behind nb dep <= guest_size (gpu_guest s) →
  load_base dep = u64 (nb - load_min dep) → mapped_object g' nb dep →
  inv s0 (objs ++ [dep]) (behind nb dep) (with_guest g' s).
Proof.
  intros Htop (E1 & K & Hnb & Hmod & Hc & new & -> & Hp & Hn) Hok Ht K' Hb Hbase Hmap.
  assert (start dep = nb) as Hst by (apply start_of; [done|]; pose proof (first_base_spec objs0 objs0_placed); lia).
  pose proof Hok as [_ (R1 & _)]. assert (nb + extent dep <= behind nb dep) as Hbe by (unfold behind; zdm).
  assert (nb + 2097152 <= behind nb dep) as Hbl by (unfold behind, extent in *; clear -Hmod R1; zdm).
  pose proof (proj1 K) as Hsz. pose proof (proj1 K') as Hsz'.
  split; [by rewrite E1|]. split.
  { cbn [gpu_guest with_guest]. eapply keeps_trans; [exact K|]. eapply keeps_weaken; [| |exact K']; lia. }
  split; [lia|]. split; [unfold behind; apply Z.mod_mul; lia|]. split.
  { rewrite length_app. cbn [length]. lia. }
  exists (new ++ [dep]). split; [by rewrite <- app_assoc|]. split.
  - apply pairs_snoc; [done|]. eapply Forall_impl; [exact Hn|]. intros o [_ Ho]. lia.
  - apply Forall_app. split.
    + eapply Forall_impl; [exact Hn|]. intros o [(O1 & O2 & O3 & O4) O5]. split; [|lia].
      split; [done|split; [done|split; [cbn; lia|]]]. cbn [gpu_guest with_guest]. eapply mapped_keeps; [done|exact O4|exact K'|lia].
    + constructor; [|constructor]. split; [|lia]. split; [done|]. rewrite Hst. cbn [gpu_guest with_guest].
      split; [lia|split; [lia|done]].
Qed.

(** The names that are needed and what is done for them. *)
Definition provides (name : list Z) (o : DirectSoObject) : Prop :=
  soname o = name ∨ path_filename (so_path o) = name ∨ ∃ dir, dir ∈ dirs ∧ so_path o = path_join dir name.
Definition provided s (objs : list DirectSoObject) (name : list Z) : Prop :=
  Exists (provides name) objs ∨ android_builtin_soname s name = true.
Lemma provided_app s objs more name : provided s objs name → provided s (objs ++ more) name.
Proof. intros [H|H]; [left; apply Exists_app; by left|by right]. Qed.
Lemma already_loaded_provided s objs name : direct_so_already_loaded objs name = true → provided s objs name.
Proof.
  intros H. left. unfold direct_so_already_loaded in H. apply existsb_exists in H as (o & Ho & Hn).
  apply Exists_exists. exists o. split; [by apply list_elem_of_In|]. unfold provides, eq_str in *.
  apply orb_true_iff in Hn as [Hn|Hn]; apply bool_decide_eq_true_1 in Hn; auto.
Qed.

(** After the names of an object. *)
Definition names_post s0 (objs : list DirectSoObject) (needed : list (list Z)) (r : option (list DirectSoObject * Z)) s' : Prop :=
  s' = with_guest (gpu_guest s') s0 ∧ keeps base0 (guest_size (gpu_guest s0)) (gpu_guest s0) (gpu_guest s') ∧
  match r with
  | None => True
  | Some (objs', nb') => inv s0 objs' nb' s' ∧ (∃ more, objs' = objs ++ more) ∧ Forall (provided s0 objs') needed
  end.
Lemma holds_names s0 needed objs nb s :
  guest_size (gpu_guest s0) <= top → inv s0 objs nb s →
  holds (load_names dirs needed objs nb) s (names_post s0 objs needed).
Proof.
  intros Htop. revert objs nb s. induction needed as [|name needed IH]; intros objs nb s Hi.
  { apply holds_ret. split; [apply Hi|split; [apply Hi|]]. split; [done|split; [exists []; by rewrite app_nil_r|constructor]]. }
  cbn [load_names]. pose proof Hi as (E1 & K & Hnb & Hmod & _).
  pose proof (first_base_spec objs0 objs0_placed) as (F1 & F2 & _). pose proof (proj1 K) as Hsz.
  assert (∀ objs1 nb1 s1, inv s0 objs1 nb1 s1 → (∃ more, objs1 = objs ++ more) → provided s0 objs1 name →
    holds (load_names dirs needed objs1 nb1) s1 (names_post s0 objs (name :: needed))) as Hgo.
  { intros objs1 nb1 s1 Hi1 [more ->] Hp. eapply holds_mono; [by apply IH|]. intros [[objs' nb']|] s' (H1 & H2 & H3); [|done].
    split; [done|split; [done|]]. destruct H3 as (H3 & [more' ->] & H5). split; [done|split].
    - exists (more ++ more'). by rewrite app_assoc.
    - constructor; [by apply provided_app|done]. }
  apply holds_if; intros Hl; [apply Hgo; [done|exists []; by rewrite app_nil_r|by apply already_loaded_provided]|].
  apply holds_bind. eapply holds_mono; [apply holds_pure_same, find_dependency_ends|].
  intros r s1 [-> HF]. destruct r as [path|].
  - destruct HF as (dir & Hdir & ->). destruct (parse_direct_so_metadata (path_join dir name)) as [dep|] eqn:Ep; [|by apply holds_ret; split; [|split]].
    pose proof (parse_path _ _ Ep) as [Hpath Hok]. specialize (Hok (libs_ok _ _ Ep)).
    rewrite block_up by (unfold top in *; lia).
    assert ((nb + 2097151) / 2097152 * 2097152 = nb) as -> by (clear -Hmod; zdm).
    assert (behind nb dep = align_up_u64 (u64 (u64 (nb - load_min dep) + load_max dep)) BLOCK_2MIB) as Hbh.
    { destruct Hok as [_ (R1 & R2 & _)]. rewrite place_eq by (unfold top in *; lia).
      replace (nb - load_min dep + load_max dep) with (nb + extent dep) by (unfold extent; lia).
      by rewrite block_up by (unfold extent, top in *; lia). }
    apply holds_bind. apply holds_member.
    eapply holds_mono; [apply holds_map; try done; lia|]. intros [dep'|] g' HM.
    + destruct HM as (K' & Hb & -> & Hmap). cbn [load_base set_base load_max]. rewrite <- Hbh.
      apply Hgo.
      * apply (inv_push s0 objs nb s (set_base (u64 (nb - load_min dep)) dep) g'); try done. lia.
      * by eexists.
      * left. apply Exists_app. right. constructor. right. right. exists dir. split; [done|exact Hpath].
    + apply holds_ret. split; [by rewrite E1|split; [|done]]. cbn [gpu_guest with_guest].
      eapply keeps_trans; [exact K|]. eapply keeps_weaken; [| |exact HM]; lia.
  - apply holds_bind, holds_get. apply holds_if; intros Hbu.
    + apply Hgo; [done|exists []; by rewrite app_nil_r|]. right. by rewrite E1 in Hbu.
    + apply holds_ret. by split; [|split].
Qed.

Definition complete s0 (objs all : list DirectSoObject) : Prop :=
  Forall (λ o, Forall (provided s0 all) (direct_so_needed_names o)) objs.
Lemma complete_app s0 objs all more : complete s0 objs all → complete s0 objs (all ++ more).
Proof. intros H. eapply Forall_impl; [exact H|]. intros o Ho. eapply Forall_impl; [exact Ho|]. intros n. apply provided_app. Qed.
Lemma holds_rest s0 fuel i objs nb s :
  0 <= guest_size (gpu_guest s0) <= top → inv s0 objs nb s → (i <= length objs)%nat → complete s0 (take i objs) objs →
  Z.of_nat (length objs0) + guest_size (gpu_guest s0) / 2097152 < Z.of_nat i + Z.of_nat fuel →
  holds (load_rest fuel dirs i objs nb) s (λ r s',
    s' = with_guest (gpu_guest s') s0 ∧ keeps base0 (guest_size (gpu_guest s0)) (gpu_guest s0) (gpu_guest s') ∧
    match r with None => True | Some objs' => ∃ nb', inv s0 objs' nb' s' ∧ complete s0 objs' objs' end).
Proof.
  intros Hgs. revert i objs nb s. induction fuel as [|fuel IH]; intros i objs nb s Hi Hl Hc Hf.
  { exfalso. destruct Hi as (_ & _ & Hnb & _ & Hcount & _).
    pose proof (first_base_spec objs0 objs0_placed) as (F1 & _). clear -Hgs Hl Hf Hcount Hnb F1. unfold top in *. zdm. }
  cbn [load_rest]. destruct (objs !! i) as [obj|] eqn:Eo.
  - apply holds_bind. eapply holds_mono; [apply (holds_names s0); [lia|exact Hi]|].
    intros [[objs' nb']|] s' (H1 & H2 & H3); [|by apply holds_ret].
    destruct H3 as (H3 & [more ->] & H5). apply (IH (S i)); [done| | |lia].
    + rewrite length_app. apply lookup_lt_Some in Eo. lia.
    + rewrite take_app_le by (apply lookup_lt_Some in Eo; lia). rewrite (take_S_r _ _ _ Eo). apply Forall_app. split.
      * by apply complete_app.
      * by constructor.
  - apply holds_ret. split; [apply Hi|split; [apply Hi|]]. exists nb. split; [done|].
    apply lookup_ge_None in Eo. by rewrite take_ge in Hc.
Qed.
Lemma holds_dependencies fuel s :
  0 <= guest_size (gpu_guest s) <= top →
  Z.of_nat (length objs0) + guest_size (gpu_guest s) / 2097152 < Z.of_nat fuel →
  holds (load_direct_so_dependencies fuel objs0 dirs) s (λ r s',
    s' = with_guest (gpu_guest s') s ∧ keeps base0 (guest_size (gpu_guest s)) (gpu_guest s) (gpu_guest s') ∧
    match r with None => True | Some objs' => ∃ nb', inv s objs' nb' s' ∧ complete s objs' objs' end).
Proof.
  intros Hgs Hf. apply holds_rest; [done| |lia|by constructor|lia].
  pose proof (first_base_spec objs0 objs0_placed) as (F1 & F2 & _).
  split; [by destruct s|]. split; [apply keeps_refl|]. split; [lia|]. split; [done|]. split; [lia|].
  exists []. split; [by rewrite app_nil_r|split; constructor].
Qed.

(** C10. When loading succeeds, everything any of the objects needs, those
    loaded on the way included, is one of the objects or built in. *)
Theorem dependencies_complete fuel s objs' s' :
  0 <= guest_size (gpu_guest s) <= top →
  Z.of_nat (length objs0) + guest_size (gpu_guest s) / 2097152 < Z.of_nat fuel →
  load_direct_so_dependencies fuel objs0 dirs s = Ok (Some objs', s') →
  ∀ o name, o ∈ objs' → name ∈ direct_so_needed_names o → provided s objs' name.
Proof.
  intros Hgs Hf Hrun o name Ho Hn. pose proof (holds_dependencies fuel s Hgs Hf) as H.
  apply (holds_Ok _ _ _ _ _ H) in Hrun as (_ & _ & nb & _ & Hc).
  pose proof (proj1 (Forall_forall _ _) Hc o Ho) as Hc'. exact (proj1 (Forall_forall _ _) Hc' name Hn).
Qed.
End Deps.
