(* ===== verification/RunSoRelocProps.v ===== *)
(** * The guest runner: relocations do what they stand for

    Symbols are found under their names only; a table of packed relocations
    adds the load base to just its slots; a table of relocations leaves in each
    slot the word it stands for, a stub that ends the process included. *)

From S2P Require Import Prelude Decimal Cxx Elf Rela GuestMem HostFile GpuStubs RunSoLoad RunSoReloc.

(** ** Reading files *)

(** [bs] is in the file at [off]. *)
Definition in_file (c : list Z) (off : Z) (bs : list Z) : Prop :=
  ∃ u w, c = u ++ bs ++ w ∧ size u = off.
Lemma read_at_in c off bs : size c < 9223372036854775808 → in_file c off bs → read_at c (u64 off) (size bs) = Some bs.
Proof.
  intros Hc (u & w & -> & <-). repeat rewrite size_app in Hc. pose proof (size_nonneg u). pose proof (size_nonneg bs). pose proof (size_nonneg w).
  unfold read_at, read_some. rewrite s64_u64, s64_small by (unfold in_s64; lia). rewrite (proj2 (Z.ltb_ge _ _)) by lia.
  rewrite fread_app. by rewrite Z.eqb_refl.
Qed.
Lemma in_file_app c off u v : in_file c off (u ++ v) → in_file c off u ∧ in_file c (off + size u) v.
Proof.
  intros (a & b & -> & <-). split.
  - exists a, (v ++ b). by rewrite <- !app_assoc.
  - exists (a ++ u), b. rewrite size_app, <- !app_assoc. done.
Qed.
Lemma in_file_size c off bs : in_file c off bs → 0 <= off ∧ off + size bs <= size c.
Proof.
  intros (u & w & -> & <-). rewrite !size_app. pose proof (size_nonneg u). pose proof (size_nonneg w). lia.
Qed.

(** Strings of the file have no NUL. *)
Lemma dyn_string_no_nul fuel c limit off pos out : 0 ∉ out → 0 ∉ dyn_string fuel c limit off pos out.
Proof.
  revert pos out. induction fuel as [|fuel IH]; intros pos out Ho; [done|]. cbn [dyn_string].
  destruct (_ <=? _); [done|]. destruct (read_at c pos 1) as [[|b [|]]|]; try done.
  destruct (Z.eqb_spec b 0); [done|]. apply IH. set_solver.
Qed.
Lemma read_dyn_string_no_nul c phdrs dyn off : 0 ∉ read_dyn_string c phdrs dyn off.
Proof.
  unfold read_dyn_string. destruct (_ || _); [set_solver|]. destruct (vaddr_to_file_offset _ _ _); [|set_solver].
  apply dyn_string_no_nul. set_solver.
Qed.

(** ** Names *)

Lemma strncmp_eq_no_nul b s r : 0 ∉ s → strncmp_eq (length s) b (s ++ r) = true → ∃ b', b = s ++ b'.
Proof.
  revert b. induction s as [|y s IH]; intros b Hs; [by exists b|]. cbn [length strncmp_eq app].
  destruct b as [|x b]; [done|]. rewrite andb_true_iff, Z.eqb_eq. intros [-> H].
  rewrite (proj2 (Z.eqb_neq y 0)) in H by set_solver. destruct (IH b ltac:(set_solver) H) as [b' ->]. by exists b'.
Qed.
Lemma strncmp_eq_same s b r : strncmp_eq (length s) (s ++ b) (s ++ r) = true.
Proof. induction s as [|x s IH]; [done|]. cbn. by rewrite Z.eqb_refl, IH, orb_true_r. Qed.
Lemma read_at_length c off n b : read_at c off n = Some b → size b = n.
Proof. unfold read_at. destruct (_ <? _); [done|]. destruct (Z.eqb_spec (size (read_some c off n)) n); [|done]. by intros [= <-]. Qed.
(** The name of a symbol: shorter than the buffer, it is the string there. *)
Lemma name_at_spec c off name : 0 ∉ name →
  ∃ r, name_at c off name = Ok r ∧
    (size name < 255 → r = true ↔ read_at c off (size name + 1) = Some (name ++ [0])).
Proof.
  intros Hn. unfold name_at. cbv zeta. destruct (read_at c off (Z.min (size name + 1) 255)) as [b|] eqn:Eb.
  2:{ exists false. split; [done|]. intros Hs. rewrite Z.min_l in Eb by lia. rewrite Eb. by split. }
  pose proof (read_at_length _ _ _ _ Eb) as Hb.
  destruct (strncmp_eq (length name) (b ++ replicate (256 - length b) 0) (name ++ [0])) eqn:Ec.
  - apply strncmp_eq_no_nul in Ec as [b' E]; [|done].
    assert (size name <= 255) as Hle.
    { destruct (Z.le_gt_cases (size name) 255) as [|Hg]; [done|]. exfalso.
      assert (name !! 255%nat = Some 0) as H0.
      { rewrite <- (lookup_app_l name b') by (unfold size in Hg; lia). rewrite <- E.
        unfold size in Hb. rewrite lookup_app_r by lia. apply lookup_replicate_2. lia. }
      apply Hn. by eapply list_elem_of_lookup_2. }
    assert (length (b ++ replicate (256 - length b) 0) = 256%nat) as Hl
      by (rewrite length_app, length_replicate; unfold size in Hb; lia).
    assert (∃ x b2, b' = x :: b2) as (x & b2 & ->).
    { destruct b' as [|x b2]; [|by eauto]. exfalso. rewrite E, app_nil_r in Hl. unfold size in Hle. lia. }
    rewrite E. unfold size at 1. rewrite at_app. cbn [mbind res_bind]. exists (x =? 0). split; [done|].
    intros Hs. rewrite Z.min_l in Eb by lia. rewrite Eb. rewrite Z.eqb_eq.
    assert (b = name ++ [x]) as ->.
    { apply (f_equal (take (length name + 1))) in E. rewrite take_app_le in E by (unfold size in *; lia).
      rewrite take_ge in E by (unfold size in *; lia). rewrite E. change (name ++ x :: b2) with (name ++ [x] ++ b2).
      rewrite app_assoc. replace (length name + 1)%nat with (length (name ++ [x])) by (rewrite length_app; cbn; lia). apply take_app_length. }
    split; [by intros ->|]. intros [= H]. by apply app_inv_head in H as [= ->].
  - exists false. split; [done|]. intros Hs. rewrite Z.min_l in Eb by lia. rewrite Eb. split; [done|]. intros [= ->].
    rewrite <- app_assoc in Ec. by rewrite strncmp_eq_same in Ec.
Qed.
(** The symbol at [i] is defined and has the name. *)
Definition symbol_named (c : list Z) (obj : DirectSoObject) (tab i : Z) (name : list Z) (value : Z) : Prop :=
  ∃ sym str, read_at c (u64 (tab + i * 24)) 24 = Some sym ∧ sym_shndx sym ≠ SHN_UNDEF ∧ sym_value sym = value ∧ value ≠ 0 ∧
    vaddr_to_file_offset (so_phdrs obj) (u64 (strtab (so_dyn obj) + sym_name sym)) 1 = Some str ∧
    read_at c str (size name + 1) = Some (name ++ [0]).
Lemma scan_symbols_spec n c obj tab i name : 0 ∉ name →
  ∃ r, scan_symbols n c obj tab i name = Ok r ∧
    (size name < 255 → ∀ value, r = Some value → ∃ j, i <= j < i + Z.of_nat n ∧ symbol_named c obj tab j name value).
Proof.
  intros Hn. revert i. induction n as [|n IH]; intros i; cbn [scan_symbols]; [by exists None|].
  destruct (read_at c (u64 (tab + i * 24)) 24) as [sym|] eqn:Es; [|by exists None].
  destruct (_ && _); [by exists None|]. destruct (IH (i + 1)) as (r & Hr & Hs).
  assert (size name < 255 → ∀ value, r = Some value → ∃ j, i <= j < i + Z.of_nat (S n) ∧ symbol_named c obj tab j name value) as Hs'.
  { intros Hz value Hv. destruct (Hs Hz value Hv) as (j & Hj & Hsym). exists j. split; [lia|done]. }
  destruct (_ <=? _); [by eauto|]. destruct (Z.eqb_spec (sym_shndx sym) SHN_UNDEF) as [|Hu]; [by eauto|].
  destruct (Z.eqb_spec (sym_value sym) 0) as [|Hv]; [by eauto|].
  destruct (vaddr_to_file_offset _ _ _) as [str|] eqn:Estr; [|by eauto].
  destruct (name_at_spec c str name Hn) as (same & -> & Hsame). cbn [mbind res_bind]. destruct same; [|by eauto].
  exists (Some (sym_value sym)). split; [done|]. intros Hz value [= <-]. exists i. split; [lia|].
  exists sym, str. split; [done|split; [done|split; [done|split; [done|split; [done|]]]]]. by apply Hsame.
Qed.

Section Lookup.
Context `{D : Disk}.
Lemma lookup_in_spec obj name : 0 ∉ name →
  ∃ r, lookup_in obj name = Ok r ∧
    (size name < 255 → ∀ a, r = Some a → ∃ c tab i value, fopen (so_path obj) = Some c ∧
      vaddr_to_file_offset (so_phdrs obj) (symtab (so_dyn obj)) 24 = Some tab ∧
      1 <= i ∧ symbol_named c obj tab i name value ∧ a = u64 (load_base obj + value)).
Proof.
  intros Hn. unfold lookup_in. cbv zeta. destruct (_ || _); [by exists None|]. destruct (fopen (so_path obj)) as [c|]; [|by exists None].
  destruct (vaddr_to_file_offset _ _ _) as [tab|]; [|by exists None].
  match goal with |- context [scan_symbols ?k c obj tab 1 name] => destruct (scan_symbols_spec k c obj tab 1 name Hn) as (r & -> & Hr) end.
  cbn [mbind res_bind]. eexists. split; [done|]. intros Hs a. destruct r as [value|]; [|done]. intros [= <-].
  destruct (Hr Hs value eq_refl) as (j & Hj & Hsym). exists c, tab, j, value. split_and!; try done; lia.
Qed.
Lemma lookup_total objs name : 0 ∉ name → ∃ a, lookup_direct_symbol objs name = Ok a.
Proof.
  intros Hn. induction objs as [|obj objs (a & IH)]; [by exists 0|]. cbn [lookup_direct_symbol].
  destruct (lookup_in_spec obj name Hn) as ([a'|] & -> & _); cbn; [by exists a'|by exists a].
Qed.
(** Looking a name up in the objects always ends, inside of all buffers;
    for a name of less than 255 bytes the address found is that of a defined
    symbol of one of the objects whose name is the one looked for. *)
Theorem symbol_found objs name : 0 ∉ name →
  ∃ a, lookup_direct_symbol objs name = Ok a ∧
    (size name < 255 → a ≠ 0 → ∃ obj c tab i value, obj ∈ objs ∧ fopen (so_path obj) = Some c ∧
      vaddr_to_file_offset (so_phdrs obj) (symtab (so_dyn obj)) 24 = Some tab ∧
      1 <= i ∧ symbol_named c obj tab i name value ∧ a = u64 (load_base obj + value)).
Proof.
  intros Hn. induction objs as [|obj objs (a & Ha & IH)]; [by exists 0|]. cbn [lookup_direct_symbol].
  destruct (lookup_in_spec obj name Hn) as ([a'|] & -> & Hin); cbn [mbind res_bind].
  - exists a'. split; [done|]. intros Hs _. destruct (Hin Hs a' eq_refl) as (c & tab & i & value & H). exists obj, c, tab, i, value.
    split; [left|exact H].
  - exists a. split; [done|]. intros Hs Hz. destruct (IH Hs Hz) as (o & c & tab & i & value & Ho & H). exists o, c, tab, i, value.
    split; [by right|exact H].
Qed.
End Lookup.

(** ** Packed relocations *)

Section Relr.
Context `{G : Guest} `{P : !Pages G}.
Implicit Types (g : guest) (s : gpu).

(** The load base added to a word, if it can be read. *)
Definition bump (base : Z) g (slot : Z) : guest :=
  let '(ok, current) := guest_read g slot (le_split 8 0) in
  if (ok : bool) then (guest_write g slot (le_split 8 (u64 (le_combine current + base)))).2 else g.
Definition bumps (base : Z) g (slots : list Z) : guest := foldl (bump base) g slots.
Lemma bumps_app base g l k : bumps base g (l ++ k) = bumps base (bumps base g l) k.
Proof. apply foldl_app. Qed.

Lemma with_guest_twice g g' s : with_guest g (with_guest g' s) = with_guest g s.
Proof. done. Qed.
Lemma with_guest_same s : with_guest (gpu_guest s) s = s.
Proof. by destruct s. Qed.
Lemma add_load_base_run slot base applied s :
  ∃ n, add_load_base slot base applied s = Ok (n, with_guest (bump base (gpu_guest s) slot) s).
Proof.
  unfold add_load_base, bump. rewrite (bind_run _ _ s (guest_read (gpu_guest s) slot (le_split 8 0)) s) by done.
  destruct (guest_read (gpu_guest s) slot (le_split 8 0)) as [ok current]. destruct ok; [by eexists|].
  exists applied. by rewrite with_guest_same.
Qed.
Lemma relr_scan_run fuel e i start base applied s :
  in_u64 e → 0 <= i → i + Z.of_nat fuel = 63 →
  ∃ n, relr_scan fuel (Z.shiftr e (i + 1)) (u64 (start + 8 * i)) base applied s =
    Ok (n, with_guest (bumps base (gpu_guest s)
      (u64 <$> ((λ k, start + 8 * k) <$> filter (λ k, Z.testbit e (k + 1) = true) (seqZ i (63 - i))))) s).
Proof.
  intros He. revert i applied s. induction fuel as [|fuel IH]; intros i applied s Hi Hf; cbn [relr_scan].
  - exists applied. replace (63 - i) with 0 by lia. change (seqZ i 0) with (@nil Z). cbn. by rewrite with_guest_same.
  - destruct (Z.eqb_spec (Z.shiftr e (i + 1)) 0) as [Hz|Hz].
    { exists applied. rewrite filter_none; [cbn; by rewrite with_guest_same|]. intros k Hk Hb. apply elem_of_seqZ in Hk.
      assert (Z.testbit (Z.shiftr e (i + 1)) (k - i) = true) as Hb'.
      { rewrite Z.shiftr_spec by lia. by replace (k - i + (i + 1)) with (k + 1) by lia. }
      rewrite Hz, Z.bits_0 in Hb'. done. }
    rewrite (filter_seqZ_shift _ i (63 - i)) by lia. rewrite !fmap_app, bumps_app.
    assert (Z.odd (Z.shiftr e (i + 1)) = Z.testbit e (i + 1)) as ->
      by (rewrite <- Z.bit0_odd, Z.shiftr_spec by lia; f_equal; lia).
    rewrite Z.shiftr_shiftr by lia. rewrite u64_add_l.
    replace (start + 8 * i + 8) with (start + 8 * (i + 1)) by lia. replace (63 - i - 1) with (63 - (i + 1)) by lia.
    destruct (Z.testbit e (i + 1)) eqn:Eb.
    + rewrite decide_True by done. destruct (add_load_base_run (u64 (start + 8 * i)) base applied s) as [a Ha].
      rewrite (bind_run _ _ _ _ _ Ha). destruct (IH (i + 1) a (with_guest (bump base (gpu_guest s) (u64 (start + 8 * i))) s)) as [n Hn]; [lia|lia|].
      exists n. rewrite Hn. cbn [gpu_guest with_guest]. by rewrite with_guest_twice.
    + rewrite decide_False by done. cbn [fmap list_fmap bumps foldl]. rewrite (bind_run _ _ s applied s) by done. by apply IH; lia.
Qed.
Lemma relr_slots_u64 base slot es : u64 <$> relr_slots base (u64 slot) es = u64 <$> relr_slots base slot es.
Proof.
  revert slot. induction es as [|e es IH]; intros slot; [done|]. cbn [relr_slots]. destruct (Z.even e); [done|].
  rewrite !fmap_app. f_equal.
  - unfold bitmap_slots. rewrite <- !list_fmap_compose. apply list_fmap_ext. intros k z _. cbn. by rewrite u64_add_l.
  - rewrite <- IH, <- (IH (slot + _)). by rewrite u64_add_l.
Qed.
Lemma relr_entries_run c es off slot base applied s :
  size c < 9223372036854775808 → Forall in_u64 es → in_file c off (word_bytes 8 es) →
  ∃ n, relr_entries (length es) c off (u64 slot) base applied s =
    Ok (n, with_guest (bumps base (gpu_guest s) (u64 <$> relr_slots base slot es)) s).
Proof.
  intros Hc He. revert off slot applied s. induction He as [|e es He Hes IH]; intros off slot applied s Hin; cbn [length relr_entries].
  { exists applied. cbn. by rewrite with_guest_same. }
  unfold word_bytes in Hin. rewrite fmap_cons in Hin. cbn [concat] in Hin. apply in_file_app in Hin as [Hin1 Hin2].
  pose proof (read_at_in c off _ Hc Hin1) as Hr. rewrite size_le_split in Hr, Hin2. change (Z.of_nat 8) with 8 in *. rewrite Hr.
  rewrite le_combine_split. change (256 ^ Z.of_nat 8) with 18446744073709551616. rewrite Z.mod_small by exact He.
  cbn [relr_slots]. cbv zeta. destruct (Z.even e).
  - destruct (add_load_base_run (u64 (base + e)) base applied s) as [a Ha]. rewrite (bind_run _ _ _ _ _ Ha).
    destruct (IH (off + 8) (u64 (e + base) + 8) a (with_guest (bump base (gpu_guest s) (u64 (base + e))) s) Hin2) as [n Hn].
    exists n. rewrite (Z.add_comm base e) in *. rewrite Hn. cbn [gpu_guest with_guest]. rewrite with_guest_twice.
    rewrite fmap_cons. cbn [bumps foldl]. by rewrite u64_idemp.
  - destruct (relr_scan_run 63 e 0 (u64 slot) base applied s He) as [a Ha]; [lia|lia|].
    rewrite Z.mul_0_r, Z.add_0_r, u64_idemp in Ha. change (0 + 1) with 1 in Ha. change (63 - 0) with 63 in Ha.
    rewrite (bind_run _ _ _ _ _ Ha).
    destruct (IH (off + 8) (slot + 8 * 63) a (with_guest (bumps base (gpu_guest s)
      (u64 <$> ((λ k, u64 slot + 8 * k) <$> filter (λ k, Z.testbit e (k + 1) = true) (seqZ 0 63)))) s) Hin2) as [n Hn].
    exists n. rewrite u64_add_l. change (slot + 8 * 63) with (slot + 504) in Hn. rewrite Hn. cbn [gpu_guest with_guest].
    rewrite with_guest_twice, fmap_app, bumps_app. do 4 f_equal. unfold bitmap_slots.
    rewrite <- !list_fmap_compose. f_equal. apply list_fmap_ext. intros k z _. cbn. by rewrite u64_add_l.
Qed.

Context `{!GuestLaws G}.
Definition word_mapped g (a : Z) : Prop := ∀ x, a <= x < a + 8 → mapped g x = true.
Definition word_at g (a w : Z) : Prop := holds_at (byte g) a (le_split 8 w).
Definition words_apart (a b : Z) : Prop := a + 8 <= b ∨ b + 8 <= a.
Definition untouched (slots : list Z) (x : Z) : Prop := Forall (λ a, ¬ (a <= x < a + 8)) slots.

Lemma bump_mapped base g a x : mapped (bump base g a) x = mapped g x.
Proof. unfold bump. destruct (guest_read g a (le_split 8 0)) as [[] b]; [apply write_mapped|done]. Qed.
Lemma bump_other base g a x : ¬ (a <= x < a + 8) → byte (bump base g a) x = byte g x.
Proof.
  intros Hx. unfold bump. destruct (guest_read g a (le_split 8 0)) as [[] b]; [|done]. apply write_other. by rewrite size_le_split.
Qed.
Lemma bump_word base g a w : in_u64 w → word_mapped g a → word_at g a w → word_at (bump base g a) a (u64 (w + base)).
Proof.
  intros Hw Hm Hv. unfold bump. rewrite (read_exact g a (le_split 8 0) (le_split 8 w)); [|by rewrite size_le_split|by rewrite !length_le_split|done].
  rewrite le_combine_split. change (256 ^ Z.of_nat 8) with 18446744073709551616. rewrite Z.mod_small by exact Hw.
  apply write_there; [by rewrite size_le_split|apply le_split_bytes].
Qed.
Lemma word_at_ext g g' a w : (∀ x, a <= x < a + 8 → byte g' x = byte g x) → word_at g a w → word_at g' a w.
Proof. intros H. apply holds_at_ext. intros x Hx. rewrite size_le_split in Hx. symmetry. by apply H. Qed.
Lemma bumps_spec base slots g :
  ForallOrdPairs words_apart slots → Forall (word_mapped g) slots →
  (∀ a w, a ∈ slots → in_u64 w → word_at g a w → word_at (bumps base g slots) a (u64 (w + base))) ∧
  (∀ x, untouched slots x → byte (bumps base g slots) x = byte g x) ∧
  ∀ x, mapped (bumps base g slots) x = mapped g x.
Proof.
  intros Hp. revert g. induction Hp as [|a slots Ha Hp IH]; intros g Hm; [by split; [intros a w Hin; set_solver|]|].
  apply Forall_cons in Hm as [Hma Hm]. cbn [bumps foldl]. change (foldl (bump base) ?g slots) with (bumps base g slots).
  destruct (IH (bump base g a)) as (I1 & I2 & I3).
  { eapply Forall_impl; [exact Hm|]. intros b Hb x Hx. rewrite bump_mapped. by apply Hb. }
  split_and!.
  - intros b w Hb Hw Hv. apply elem_of_cons in Hb as [->|Hb].
    + apply (word_at_ext (bump base g a)); [|by apply bump_word]. intros x Hx. apply I2.
      eapply Forall_impl; [exact Ha|]. intros b Hab. unfold words_apart in Hab. lia.
    + apply I1; [done|done|]. apply (word_at_ext g); [|done]. intros x Hx. apply bump_other.
      pose proof (proj1 (Forall_forall _ _) Ha b Hb) as Hab. unfold words_apart in Hab. cbn in Hab. lia.
  - intros x [Hx Hxs]%Forall_cons. rewrite I2 by done. by apply bump_other.
  - intros x. by rewrite I3, bump_mapped.
Qed.
(** C11. Packed relocations of a table in the file add the load base to each of
    the words the format stands for, once, and change nothing else. *)
Theorem relr_applied c phdrs base vaddr es off s :
  let slots := u64 <$> relr_slots base 0 es in
  size c < 9223372036854775808 → Forall in_u64 es → vaddr ≠ 0 → es ≠ [] →
  vaddr_to_file_offset phdrs vaddr (8 * Z.of_nat (length es)) = Some off → in_file c off (word_bytes 8 es) →
  ForallOrdPairs words_apart slots → Forall (word_mapped (gpu_guest s)) slots →
  ∃ n g', apply_direct_so_relr c phdrs base vaddr (8 * Z.of_nat (length es)) s = Ok (n, with_guest g' s) ∧
    (∀ a w, a ∈ slots → in_u64 w → word_at (gpu_guest s) a w → word_at g' a (u64 (w + base))) ∧
    (∀ x, untouched slots x → byte g' x = byte (gpu_guest s) x) ∧
    ∀ x, mapped g' x = mapped (gpu_guest s) x.
Proof.
  intros slots Hc He Hv Hne Hoff Hin Hp Hm. unfold apply_direct_so_relr.
  assert (0 < Z.of_nat (length es)) as Hl by (destruct es; [done|cbn; lia]).
  rewrite (proj2 (Z.eqb_neq vaddr 0)), (proj2 (Z.eqb_neq _ 0)) by lia. cbn [orb]. rewrite Hoff.
  pose proof (in_file_size _ _ _ Hin) as [H0 Hs]. unfold size at 1 in Hs. rewrite length_word_bytes in Hs.
  replace (Z.to_nat (Z.min (8 * Z.of_nat (length es) / 8) (size c / 8 + 1))) with (length es).
  2:{ rewrite (Z.mul_comm 8), Z.div_mul by lia. assert (Z.of_nat (length es) <= size c / 8 + 1) by zdm. lia. }
  destruct (relr_entries_run c es off 0 base 0 s Hc He Hin) as [n Hn]. change (u64 0) with 0 in Hn.
  exists n, (bumps base (gpu_guest s) slots). split; [exact Hn|]. by apply bumps_spec.
Qed.
End Relr.

(** ** The guest runner: tables of relocations

    A table of relocations leaves in each slot the word its entry stands for.
    A symbol nothing defines gets a stub, one for each library and name, whose
    call ends the process with that name. *)

(** ** Entries *)

(** An entry of a table. *)
Record rela_entry := RelaEntry { re_offset : Z; re_info : Z; re_addend : Z }.
Definition rela_bytes (r : rela_entry) : list Z :=
  le_split 8 (re_offset r) ++ le_split 8 (re_info r) ++ le_split 8 (re_addend r).
Definition entry_ok (r : rela_entry) : Prop := in_u64 (re_offset r) ∧ in_u64 (re_info r) ∧ in_u64 (re_addend r).
Lemma size_rela_bytes r : size (rela_bytes r) = 24.
Proof. unfold rela_bytes. by rewrite !size_app, !size_le_split. Qed.
Lemma le_split_8 v : in_u64 v → le_combine (le_split 8 v) = v.
Proof. intros Hv. rewrite le_combine_split. change (256 ^ Z.of_nat 8) with 18446744073709551616. by apply Z.mod_small. Qed.
Lemma field_in u v w off n : length u = off → length v = n → field off n (u ++ v ++ w) = le_combine v.
Proof. intros <- <-. unfold field. by rewrite drop_app_length, take_app_length. Qed.
Lemma rela_fields r : entry_ok r →
  rela_offset (rela_bytes r) = re_offset r ∧ rela_info (rela_bytes r) = re_info r ∧ rela_addend (rela_bytes r) = re_addend r.
Proof.
  intros (H1 & H2 & H3). unfold rela_offset, rela_info, rela_addend, rela_bytes. split_and!.
  - rewrite <- (app_nil_l (le_split 8 (re_offset r) ++ _)).
    rewrite field_in by (try apply length_le_split; done). by apply le_split_8.
  - rewrite (field_in (le_split 8 (re_offset r))) by apply length_le_split. by apply le_split_8.
  - rewrite (app_assoc (le_split 8 (re_offset r))). rewrite <- (app_nil_r (le_split 8 (re_addend r))).
    rewrite field_in by (rewrite ?length_app, !length_le_split; done). by apply le_split_8.
Qed.

Section Rela.
Context `{G : Guest} `{P : !Pages G} `{D : Disk}.
Implicit Types (s : gpu).

(** ** What entries stand for *)

(** Where a name is, among the functions of the system and the objects. *)
Definition address_of s (objects : list DirectSoObject) (name : list Z) : Z :=
  let a := resolve_android_symbol s name in
  if a =? 0 then match lookup_direct_symbol objects name with Ok a => a | _ => 0 end else a.
Definition import_key (obj : DirectSoObject) (name : list Z) : list Z := soname obj ++ cs ":" ++ name.
(** The word a symbol stands for, with the stubs in [stubs]. *)
Definition symbol_word s (stubs : gmap (list Z) Z) (c : list Z) (obj : DirectSoObject) (objects : list DirectSoObject)
    (sym_idx addend : Z) : option Z :=
  if (sym_idx =? 0) || (symtab (so_dyn obj) =? 0) then None else
  sym ← vaddr_to_file_offset (so_phdrs obj) (u64 (symtab (so_dyn obj) + sym_idx * 24)) 24 ≫= (λ off, read_at c off 24);
  if negb (sym_shndx sym =? SHN_UNDEF) then Some (u64 (load_base obj + sym_value sym + addend)) else
  let name := read_dyn_string c (so_phdrs obj) (so_dyn obj) (sym_name sym) in
  let a := address_of s objects name in
  if negb (a =? 0) then Some (u64 (a + addend))
  else if ELF64_ST_BIND (sym_info sym) =? STB_WEAK then Some addend
  else (λ stub, u64 (stub + addend)) <$> stubs !! import_key obj name.
(** The word of an entry; none for one that is left alone. *)
Definition rela_word s (stubs : gmap (list Z) Z) (c : list Z) (obj : DirectSoObject) (objects : list DirectSoObject)
    (r : rela_entry) : option Z :=
  let type := ELF64_R_TYPE (re_info r) in
  if type =? R_AARCH64_RELATIVE then Some (u64 (load_base obj + re_addend r))
  else if (type =? R_AARCH64_GLOB_DAT) || (type =? R_AARCH64_JUMP_SLOT) || (type =? R_AARCH64_ABS64)
  then symbol_word s stubs c obj objects (ELF64_R_SYM (re_info r)) (re_addend r)
  else None.
Definition rela_slot (obj : DirectSoObject) (r : rela_entry) : Z := u64 (load_base obj + re_offset r).

(** ** Stubs *)

Context `{!GuestLaws G}.

#[local] Arguments encode_stub : simpl never.
#[local] Arguments le_split : simpl never.
Lemma size_encode_stub nr : size (encode_stub nr) = 16.
Proof. done. Qed.
(** The end of the memory for stubs, with those that can still be made. *)
Definition stub_end s : Z := next_stub_gpa_ s + 16 * (HVC_UNSUPPORTED_IMPORT_LIMIT - next_unsupported_import_hvc_ s).
(** The stub of an import: it makes a call that ends the process, with the name
    of the import. *)
Definition import_stub_at s (lo : Z) (key : list Z) (gpa : Z) : Prop :=
  lo <= gpa ∧ gpa + 16 <= next_stub_gpa_ s ∧ ∃ nr, nr < next_unsupported_import_hvc_ s ∧
    handlers_ s !! nr = Some (Unsupported key) ∧ holds_at (byte (gpu_guest s)) gpa (encode_stub nr).
(** The stubs are in their memory, from [lo] on. *)
Definition stubs_ok (lo : Z) s : Prop :=
  0 < lo <= next_stub_gpa_ s ∧ 0 <= next_unsupported_import_hvc_ s <= HVC_UNSUPPORTED_IMPORT_LIMIT ∧
  stub_end s < 18446744073709551616 ∧
  (∀ x, next_stub_gpa_ s <= x < stub_end s → mapped (gpu_guest s) x = true) ∧
  ∀ key gpa, unsupported_import_stubs_ s !! key = Some gpa → import_stub_at s lo key gpa.
(** From one state to a later one: stubs are added, and the words at [slots]
    are written. *)
Definition rela_step (slots : list Z) s s' : Prop :=
  stub_end s' = stub_end s ∧ next_stub_gpa_ s <= next_stub_gpa_ s' ∧ sym_tables_ s' = sym_tables_ s ∧
  unsupported_import_stubs_ s ⊆ unsupported_import_stubs_ s' ∧
  (next_unsupported_import_hvc_ s = HVC_UNSUPPORTED_IMPORT_LIMIT →
    next_unsupported_import_hvc_ s' = HVC_UNSUPPORTED_IMPORT_LIMIT ∧ unsupported_import_stubs_ s' = unsupported_import_stubs_ s) ∧
  (∀ x, mapped (gpu_guest s') x = mapped (gpu_guest s) x) ∧
  ∀ x, untouched slots x → ¬ (next_stub_gpa_ s <= x < next_stub_gpa_ s') → byte (gpu_guest s') x = byte (gpu_guest s) x.
Lemma rela_step_refl s : rela_step [] s s.
Proof. by repeat split. Qed.
Lemma rela_step_trans l1 l2 s1 s2 s3 : rela_step l1 s1 s2 → rela_step l2 s2 s3 → rela_step (l1 ++ l2) s1 s3.
Proof.
  intros (A1 & A2 & A3 & A4 & A5 & A6 & A7) (B1 & B2 & B3 & B4 & B5 & B6 & B7). split_and!; try congruence.
  - lia.
  - by etrans.
  - intros H. destruct (A5 H) as [H1 H2]. destruct (B5 H1) as [H3 H4]. split; congruence.
  - intros x [H1 H2]%Forall_app Hx. rewrite B7, A7; [done|done|lia|done|lia].
Qed.

(** A stub more. *)
Lemma import_stub_run obj name lo s : stubs_ok lo s →
  ∃ gpa s', unsupported_import_stub (soname obj) name s = Ok (gpa, s') ∧ stubs_ok lo s' ∧ rela_step [] s s' ∧
    match unsupported_import_stubs_ s' !! import_key obj name with
    | Some stub => gpa = stub ∧ gpa ≠ 0
    | None => gpa = 0 ∧ next_unsupported_import_hvc_ s' = HVC_UNSUPPORTED_IMPORT_LIMIT
    end.
Proof.
  intros Hok. pose proof Hok as (H1 & H2 & H3 & H4 & H5). unfold unsupported_import_stub. fold (import_key obj name). cbv zeta.
  set (key := import_key obj name) in *.
  rewrite (bind_run _ _ s (unsupported_import_stubs_ s !! key) s) by done.
  destruct (unsupported_import_stubs_ s !! key) as [gpa|] eqn:Ek.
  { exists gpa, s. split; [done|split; [done|split; [apply rela_step_refl|]]]. rewrite Ek. split; [done|].
    destruct (H5 _ _ Ek) as (Hlo & _). lia. }
  rewrite (bind_run _ _ s (next_unsupported_import_hvc_ s) s) by done.
  destruct (Z.leb_spec HVC_UNSUPPORTED_IMPORT_LIMIT (next_unsupported_import_hvc_ s)) as [Hl|Hl].
  { exists 0, s. split; [done|split; [done|split; [apply rela_step_refl|]]]. rewrite Ek. split; [done|lia]. }
  set (nr := next_unsupported_import_hvc_ s) in *. set (gpa := next_stub_gpa_ s) in *.
  unfold stub_end, HVC_UNSUPPORTED_IMPORT_LIMIT in *. fold nr gpa in H3, H4.
  pose proof (size_encode_stub nr) as Hsz.
  exists gpa, (Gpu (guest_write (gpu_guest s) gpa (encode_stub nr)).2 (gpa + 16) (<[nr := Unsupported key]> (handlers_ s))
    (sym_tables_ s) (<[key := gpa]> (unsupported_import_stubs_ s)) (nr + 1)).
  assert (u64 (gpa + HVC_STUB_SIZE) = gpa + 16) as E1 by (apply u64_small; unfold in_u64; lia).
  assert (u32 (nr + 1) = nr + 1) as E2 by (apply u32_small; unfold in_u32; lia).
  split; [rewrite <- E1, E2; done|].
  set (g' := (guest_write (gpu_guest s) gpa (encode_stub nr)).2) in *.
  assert (holds_at (byte g') gpa (encode_stub nr)) as Hh.
  { apply write_there; [intros x Hx; apply H4; lia|]. unfold encode_stub. repeat apply Forall_app_2; apply le_split_bytes. }
  split; [|split; [|cbn; rewrite lookup_insert_eq; split; [done|lia]]].
  - unfold stubs_ok, stub_end, HVC_UNSUPPORTED_IMPORT_LIMIT. cbn. fold nr gpa. split; [lia|split; [lia|split; [lia|split]]].
    + intros x Hx. unfold g'. rewrite write_mapped. apply H4. lia.
    + intros k a. rewrite lookup_insert_Some. intros [[<- <-]|[Hk Ha]].
      * unfold import_stub_at. cbn. split; [lia|split; [lia|]]. exists nr. split; [lia|]. by rewrite lookup_insert_eq.
      * destruct (H5 _ _ Ha) as (I1 & I2 & nr' & I3 & I4 & I5). unfold import_stub_at. cbn. fold gpa nr in I2, I3.
        split; [lia|split; [lia|]]. exists nr'. split; [lia|]. rewrite lookup_insert_ne by lia. split; [done|].
        eapply write_keeps; [|exact I5]. left. rewrite size_encode_stub. lia.
  - unfold rela_step, stub_end, HVC_UNSUPPORTED_IMPORT_LIMIT. cbn. fold nr gpa. split; [lia|split; [lia|split; [done|]]].
    split; [by apply insert_subseteq|split; [lia|split; [intros x; apply write_mapped|]]].
    intros x _ Hx. apply write_other. lia.
Qed.

(** A slot that is apart from the stubs. *)
Definition off_stubs (lo : Z) s (a : Z) : Prop := a + 8 <= lo ∨ stub_end s <= a.
Lemma stubs_ok_write lo s a w :
  stubs_ok lo s → off_stubs lo s a → word_mapped (gpu_guest s) a →
  let s' := with_guest (guest_write (gpu_guest s) a (le_split 8 w)).2 s in
  stubs_ok lo s' ∧ rela_step [a] s s' ∧ word_at (gpu_guest s') a w.
Proof.
  intros (H1 & H2 & H3 & H4 & H5) Ha Hm s'. unfold off_stubs in Ha. split; [|split].
  - split; [exact H1|split; [exact H2|split; [exact H3|split]]].
    + intros x Hx. cbn. rewrite write_mapped. by apply H4.
    + intros k gpa Hk. destruct (H5 k gpa Hk) as (I1 & I2 & nr & I3 & I4 & I5). split; [done|split; [done|]].
      exists nr. split; [done|split; [done|]]. eapply (write_keeps (gpu_guest s)); [|exact I5]. rewrite size_le_split, size_encode_stub.
      unfold stub_end in *. lia.
  - split_and!; try done; cbn.
    + intros x. apply write_mapped.
    + intros x Hx _. apply write_other. rewrite size_le_split. apply Forall_inv in Hx. exact Hx.
  - apply write_there; [by rewrite size_le_split|apply le_split_bytes].
Qed.

(** ** The table *)

Lemma symbol_word_same s s' stubs c obj objects i a :
  sym_tables_ s' = sym_tables_ s → symbol_word s' stubs c obj objects i a = symbol_word s stubs c obj objects i a.
Proof.
  intros H. unfold symbol_word, address_of, resolve_android_symbol, builtin_symbols. by rewrite H.
Qed.
Lemma rela_word_same s s' stubs c obj objects r :
  sym_tables_ s' = sym_tables_ s → rela_word s' stubs c obj objects r = rela_word s stubs c obj objects r.
Proof. intros H. unfold rela_word. cbv zeta. by rewrite (symbol_word_same s s'). Qed.
(** The word is the same in all later states. *)
Definition lasting s (w : gmap (list Z) Z → option Z) : Prop :=
  ∀ l s', rela_step l s s' → w (unsupported_import_stubs_ s') = w (unsupported_import_stubs_ s).
Lemma symbol_value_run c obj objects i a lo s : stubs_ok lo s →
  ∃ missing s', symbol_value c obj objects i a s = Ok ((symbol_word s (unsupported_import_stubs_ s') c obj objects i a, missing), s') ∧
    stubs_ok lo s' ∧ rela_step [] s s' ∧ lasting s' (λ stubs, symbol_word s stubs c obj objects i a).
Proof.
  intros Hok. unfold lasting, symbol_value, symbol_word. cbv zeta.
  assert (∀ v : option Z, ∃ missing s', Ok ((v, false), s) = Ok ((v, missing), s') ∧ stubs_ok lo s' ∧ rela_step [] s s' ∧
    ∀ l s'', rela_step l s' s'' → v = v) as Hstay by (intros v; exists false, s; split_and!; try done; apply rela_step_refl).
  destruct (_ || _); [apply Hstay|].
  destruct (vaddr_to_file_offset _ _ _) as [off|]; cbn [mbind option_bind]; [|apply Hstay].
  destruct (read_at c off 24) as [sym|]; cbn [mbind option_bind]; [|apply Hstay].
  destruct (negb (sym_shndx sym =? SHN_UNDEF)); [apply Hstay|].
  set (name := read_dyn_string c (so_phdrs obj) (so_dyn obj) (sym_name sym)).
  rewrite (bind_run _ _ s (resolve_android_symbol s name) s) by done.
  destruct (lookup_total objects name (read_dyn_string_no_nul _ _ _ _)) as [b Hb].
  rewrite (bind_run _ _ s (address_of s objects name) s).
  2:{ unfold address_of. destruct (_ =? 0); [|done]. unfold pure. by rewrite Hb. }
  destruct (negb (address_of s objects name =? 0)); [apply Hstay|].
  destruct (ELF64_ST_BIND (sym_info sym) =? STB_WEAK); [apply Hstay|].
  destruct (import_stub_run obj name lo s Hok) as (gpa & s' & Hrun & Hok' & Hstep & Hgpa).
  rewrite (bind_run _ _ _ _ _ Hrun). destruct (unsupported_import_stubs_ s' !! import_key obj name) as [stub|] eqn:Ek; cbn [fmap option_fmap option_map].
  - destruct Hgpa as [-> Hn]. exists true, s'. rewrite Ek. cbn. rewrite (proj2 (Z.eqb_neq _ _)) by done. split_and!; try done.
    intros l s2 (_ & _ & _ & Hsub & _). by rewrite (lookup_weaken _ _ _ _ Ek Hsub).
  - destruct Hgpa as [-> Hn]. exists true, s'. rewrite Ek. split_and!; try done.
    intros l s2 (_ & _ & _ & _ & Hfull & _). destruct (Hfull Hn) as [_ ->]. by rewrite Ek.
Qed.

(** What an entry leaves in its slot. *)
Definition slot_done s c obj objects s' r : Prop :=
  match rela_word s (unsupported_import_stubs_ s') c obj objects r with
  | Some w => word_at (gpu_guest s') (rela_slot obj r) w
  | None => ∀ x, rela_slot obj r <= x < rela_slot obj r + 8 → byte (gpu_guest s') x = byte (gpu_guest s) x
  end.
Lemma rela_entry_run c obj objects r counts lo s :
  entry_ok r → stubs_ok lo s → off_stubs lo s (rela_slot obj r) → word_mapped (gpu_guest s) (rela_slot obj r) →
  ∃ counts' s', apply_rela_entry c obj objects (rela_bytes r) counts s = Ok (counts', s') ∧ stubs_ok lo s' ∧
    rela_step [rela_slot obj r] s s' ∧ slot_done s c obj objects s' r ∧ lasting s' (λ stubs, rela_word s stubs c obj objects r).
Proof.
  intros Hr Hok Hoff Hm. destruct (rela_fields r Hr) as (E1 & E2 & E3). destruct counts as [applied unresolved].
  unfold apply_rela_entry. rewrite E1, E2, E3. cbv zeta. fold (rela_slot obj r).
  match goal with |- context [mbind (M := St gpu) (A := option Z * bool) ?f ?m s] =>
    assert (∃ missing s1, m s = Ok ((rela_word s (unsupported_import_stubs_ s1) c obj objects r, missing), s1) ∧
      stubs_ok lo s1 ∧ rela_step [] s s1 ∧ lasting s1 (λ stubs, rela_word s stubs c obj objects r)) as (missing & s1 & Hrun & Hok1 & Hst1 & Hl1)
  end.
  { unfold rela_word, lasting. cbv zeta. destruct (_ =? R_AARCH64_RELATIVE); [exists false, s; split_and!; try done; apply rela_step_refl|].
    destruct (_ || _); [|exists false, s; split_and!; try done; apply rela_step_refl]. by apply symbol_value_run. }
  rewrite (bind_run _ _ _ _ _ Hrun). cbn [fst snd]. unfold slot_done.
  destruct (rela_word s (unsupported_import_stubs_ s1) c obj objects r) as [w|] eqn:Ew.
  - destruct (stubs_ok_write lo s1 (rela_slot obj r) w Hok1) as (Hok2 & Hst2 & Hw).
    { unfold off_stubs in *. by rewrite (proj1 Hst1). }
    { intros x Hx. destruct Hst1 as (_ & _ & _ & _ & _ & -> & _). by apply Hm. }
    set (s2 := with_guest _ s1) in *. eexists _, s2. split; [done|]. split; [done|]. split; [by apply (rela_step_trans [] _ s s1)|].
    change (unsupported_import_stubs_ s2) with (unsupported_import_stubs_ s1). split; [by rewrite Ew|].
    intros l s3 H3. by apply (Hl1 ([rela_slot obj r] ++ l)), (rela_step_trans _ _ s1 s2).
  - eexists _, s1. split; [done|]. split; [done|]. split; [|split; [|exact Hl1]].
    + destruct Hst1 as (A1 & A2 & A3 & A4 & A5 & A6 & A7). split_and!; try done. intros x _. apply A7. constructor.
    + rewrite Ew. intros x Hx. destruct Hst1 as (A1 & A2 & _ & _ & _ & _ & A7). apply A7; [constructor|].
      destruct Hok1 as (_ & B2 & _). destruct Hok as (C1 & _). unfold off_stubs, stub_end in *. lia.
Qed.

Lemma rela_entries_run c obj objects rs off counts lo s :
  size c < 9223372036854775808 → in_file c off (concat (rela_bytes <$> rs)) → Forall entry_ok rs →
  stubs_ok lo s → ForallOrdPairs words_apart (rela_slot obj <$> rs) →
  Forall (off_stubs lo s) (rela_slot obj <$> rs) → Forall (word_mapped (gpu_guest s)) (rela_slot obj <$> rs) →
  ∃ counts' s', apply_rela_entries (length rs) c obj objects off counts s = Ok (Some counts', s') ∧ stubs_ok lo s' ∧
    rela_step (rela_slot obj <$> rs) s s' ∧ Forall (slot_done s c obj objects s') rs.
Proof.
  intros Hc Hin Hok. revert off counts s Hin. induction Hok as [|r rs Hr Hrs IH]; intros off counts s Hin Hs Hap Hoff Hm.
  { exists counts, s. split; [done|split; [done|split; [apply rela_step_refl|constructor]]]. }
  rewrite fmap_cons in *. cbn [concat] in Hin. apply in_file_app in Hin as [Hin1 Hin2]. rewrite size_rela_bytes in Hin2.
  pose proof (read_at_in c off _ Hc Hin1) as Hrd. rewrite size_rela_bytes in Hrd.
  inversion Hap as [|? ? Har Hap']; subst. apply Forall_cons in Hoff as [Ho Hoff]. apply Forall_cons in Hm as [Hmr Hm].
  destruct (rela_entry_run c obj objects r counts lo s Hr Hs Ho Hmr) as (k & s1 & Hrun & Hs1 & Hst1 & Hd1 & Hl1).
  destruct (IH (off + 24) k s1 Hin2) as (k' & s2 & Hrun2 & Hs2 & Hst2 & Hd2); [done|done| | |].
  { eapply Forall_impl; [exact Hoff|]. intros a. unfold off_stubs. by rewrite (proj1 Hst1). }
  { eapply Forall_impl; [exact Hm|]. intros a Ha x Hx. destruct Hst1 as (_ & _ & _ & _ & _ & -> & _). by apply Ha. }
  exists k', s2. cbn [length apply_rela_entries]. rewrite Hrd. split; [by rewrite (bind_run _ _ _ _ _ Hrun)|]. split; [done|].
  split; [by apply (rela_step_trans [rela_slot obj r] _ s s1)|]. pose proof (proj1 (proj2 (proj2 Hst1))) as Ht1.
  destruct Hst1 as (A1 & A2 & _ & _ & _ & _ & A7). pose proof Hst2 as (B1 & B2 & _ & _ & _ & _ & B7).
  constructor.
  - assert (∀ x, rela_slot obj r <= x < rela_slot obj r + 8 → byte (gpu_guest s2) x = byte (gpu_guest s1) x) as Hk.
    { intros x Hx. apply B7.
      - eapply Forall_impl; [exact Har|]. intros b Hb. unfold words_apart in Hb. lia.
      - destruct Hs2 as (_ & C2 & _). destruct Hs as (D1 & _). unfold off_stubs, stub_end in *. lia. }
    unfold slot_done in *. rewrite (Hl1 _ _ Hst2). destruct (rela_word s _ c obj objects r); [by apply (word_at_ext (gpu_guest s1))|].
    intros x Hx. rewrite Hk by done. by apply Hd1.
  - apply Forall_forall. intros q Hq. pose proof (proj1 (Forall_forall _ _) Hd2 q Hq) as Hdq. unfold slot_done in *.
    rewrite (rela_word_same s s1) in Hdq by done. destruct (rela_word s _ c obj objects q); [done|].
    intros x Hx. rewrite Hdq by done. apply A7.
    + constructor; [|constructor]. pose proof (proj1 (Forall_forall _ _) Har (rela_slot obj q) (list_elem_of_fmap_2 _ _ _ Hq)) as Hb.
      unfold words_apart in Hb. lia.
    + pose proof (proj1 (Forall_forall _ _) Hoff (rela_slot obj q) (list_elem_of_fmap_2 _ _ _ Hq)) as Hb.
      destruct Hs1 as (_ & C2 & _). destruct Hs as (D1 & _). unfold off_stubs, stub_end in *. lia.
Qed.
End Rela.
