(* ===== verification/RunToy.v ===== *)
(** * The guest runner at work

    A guest all of whose memory can be read, a program and a library it needs
    as files, and the theorems on the guest runner at these. *)

From S2P Require Import Prelude Decimal Cxx ApkZip GuestMem Elf HostFile Rela JniEnv JniOnload JniToy RunNames RunNamesProps GpuStubs RunSoLoad RunSoReloc RunSoLoadProps RunSoRelocProps.

(** ** Names *)

Lemma environment_merged_witness :
  getenv (merge_environment [cs "LANG=de_DE"; cs "TERM=xterm"; cs "HOME=/home/me"] [cs "TERM=dumb"; cs "X=1"] true) (cs "TERM")
    = Some (cs "dumb") ∧
  getenv (merge_environment [cs "LANG=de_DE"; cs "TERM=xterm"; cs "HOME=/home/me"] [cs "TERM=dumb"; cs "X=1"] true) (cs "HOME")
    = Some (cs "/data").
Proof.
  split.
  - rewrite environment_merged; [done|decides|repeat constructor|repeat constructor].
  - rewrite environment_merged; [done|decides|repeat constructor|repeat constructor].
Defined.
Lemma signature_parsed_witness :
  parse_jni_parameter_types (cs "(I[JLa/B;)V") = Ok (Some [cs "I"; cs "[J"; cs "La/B;"]).
Proof.
  destruct (signature_parsed (cs "(I[JLa/B;)V")) as (r & -> & Hr); [done|]. f_equal.
  apply Hr. exists [], (cs "V"). split; [done|split; [decides|split; [decides|]]].
  repeat apply Forall_cons_2; [by apply (jt_primitive 73)| | |apply Forall_nil_2].
  - apply (jt_array [74]). by apply (jt_primitive 74).
  - apply (jt_class (cs "a/B")). decides.
Defined.
Lemma java_names : java_name (cs "com/example/a_b/onKey_1") ∧ java_name (cs "com/example/a/b_onKey_1").
Proof. split; cbn; unfold in_u8; repeat split; try lia; done. Qed.
Lemma export_names_distinct_witness :
  (jni_export_base (cs "com/example/a_b") (cs "onKey_1") = jni_export_base (cs "com/example/a_b") (cs "onKey_1") ∧
   cs "com/example/a_b" = cs "com/example/a_b" ∧ cs "onKey_1" = cs "onKey_1") ∧
  jni_export_base (cs "com/example/a_b") (cs "onKey_1") ≠ jni_export_base (cs "com/example/a") (cs "b_onKey_1").
Proof.
  split.
  - split; [done|]. apply export_names_distinct; [apply java_names|apply java_names|decides|decides|reflexivity].
  - intros H. apply export_names_distinct in H as [H _]; [done|apply java_names|apply java_names|decides|decides].
Defined.

(** ** Files *)

(** A file with one segment of a page, whose dynamic section is behind the
    headers, followed by [data]. *)
Definition elf_file (dyn : list (Z * Z)) (data : list Z) : list Z :=
  let dyn_bytes := concat ((λ '(tag, val), le_split 8 tag ++ le_split 8 val) <$> dyn ++ [(DT_NULL, 0)]) in
  let filesz := 176 + size dyn_bytes + size data in
  [127; 69; 76; 70; 2; 1; 1; 0; 0; 0; 0; 0; 0; 0; 0; 0] ++
  le_split 2 3 ++ le_split 2 183 ++ le_split 4 1 ++ le_split 8 0 ++ le_split 8 64 ++ le_split 8 0 ++
  le_split 4 0 ++ le_split 2 64 ++ le_split 2 56 ++ le_split 2 2 ++ le_split 2 0 ++ le_split 2 0 ++ le_split 2 0 ++
  le_split 4 PT_LOAD ++ le_split 4 6 ++ le_split 8 0 ++ le_split 8 0 ++ le_split 8 0 ++
  le_split 8 filesz ++ le_split 8 4096 ++ le_split 8 4096 ++
  le_split 4 PT_DYNAMIC ++ le_split 4 6 ++ le_split 8 176 ++ le_split 8 176 ++ le_split 8 176 ++
  le_split 8 (size dyn_bytes) ++ le_split 8 (size dyn_bytes) ++ le_split 8 8 ++
  dyn_bytes ++ data.
Definition symbol (name info shndx value : Z) : list Z :=
  le_split 4 name ++ [info; 0] ++ le_split 2 shndx ++ le_split 8 value ++ le_split 8 0.
(** The program: it needs the library and libc; a pointer into itself, a
    function of the library, one that is nowhere and one that need not be. *)
Definition app_relas : list rela_entry :=
  [RelaEntry 2048 R_AARCH64_RELATIVE 16; RelaEntry 2056 (4294967296 + R_AARCH64_JUMP_SLOT) 0;
   RelaEntry 2064 (8589934592 + R_AARCH64_GLOB_DAT) 0; RelaEntry 2072 (12884901888 + R_AARCH64_ABS64) 5].
Definition app_file : list Z := Eval vm_compute in
  elf_file [(DT_NEEDED, 1); (DT_NEEDED, 11); (DT_STRTAB, 304); (DT_STRSZ, 40); (DT_SYMTAB, 344); (DT_RELA, 440); (DT_RELASZ, 96)]
    ([0] ++ cs "libdep.so" ++ [0] ++ cs "libc.so" ++ [0] ++ cs "dep_fn" ++ [0] ++ cs "missing" ++ [0; 0; 0; 0; 0; 0; 0] ++
     symbol 0 0 0 0 ++ symbol 19 18 0 0 ++ symbol 26 18 0 0 ++ symbol 26 34 0 0 ++ concat (rela_bytes <$> app_relas)).
(** The library: a function, and packed relocations of three words. *)
Definition dep_relrs : list Z := [2048; 7].
Definition dep_file : list Z := Eval vm_compute in
  elf_file [(DT_STRTAB, 272); (DT_STRSZ, 8); (DT_SYMTAB, 280); (MU_DT_ANDROID_RELR, 328); (MU_DT_ANDROID_RELRSZ, 16)]
    ([0] ++ cs "dep_fn" ++ [0] ++ symbol 0 0 0 0 ++ symbol 1 18 7 1024 ++ word_bytes 8 dep_relrs).
Definition app_path : list Z := cs "/data/app/libapp.so".
Definition dep_path : list Z := cs "/data/app/libdep.so".
#[global] Instance toy_disk : Disk := {
  fopen p := if eq_str p app_path then Some app_file else if eq_str p dep_path then Some dep_file else None
}.
#[global] Instance toy_dirs : Dirs := { path_exists p := Some (match fopen p with Some _ => true | None => false end) }.

Lemma fopen_toy p c : fopen p = Some c → c = app_file ∨ c = dep_file.
Proof.
  unfold fopen, toy_disk. destruct (eq_str p app_path); [intros H; left; by apply (inj Some) in H|].
  destruct (eq_str p dep_path); [intros H; right; by apply (inj Some) in H|done].
Qed.
Definition byte_check (c : list Z) : bool := forallb (λ b, (0 <=? b) && (b <? 256)) c.
Lemma byte_check_bytes c : byte_check c = true → bytes c.
Proof.
  unfold byte_check. rewrite forallb_forall. intros H. apply Forall_forall. intros x Hx.
  specialize (H x (proj1 (list_elem_of_In _ _) Hx)). unfold in_u8. lia.
Qed.
Lemma toy_bytes p c : fopen p = Some c → bytes c.
Proof. intros [->| ->]%fopen_toy; apply byte_check_bytes; vm_cast_no_check (eq_refl true). Qed.
(** The headers of both files. *)
Definition toy_phdrs (filesz dynsz : Z) : list Elf64_Phdr :=
  [Build_Elf64_Phdr PT_LOAD 6 0 0 0 filesz 4096 4096; Build_Elf64_Phdr PT_DYNAMIC 6 176 176 176 dynsz dynsz 8].
Lemma toy_phdrs_ok filesz dynsz : 0 <= filesz <= 4096 → phdrs_ok (toy_phdrs filesz dynsz).
Proof.
  intros Hf. change (loads (toy_phdrs filesz dynsz)) with [Build_Elf64_Phdr PT_LOAD 6 0 0 0 filesz 4096 4096]. unfold phdrs_ok. cbn.
  split; [|repeat constructor]. constructor; [|constructor]. unfold seg_ok, top. cbn. lia.
Qed.
Definition parsed (path : list Z) : DirectSoObject :=
  default (Obj [] [] 0 0 0 [] no_dyn false) (parse_direct_so_metadata path).
Lemma toy_libs p o : parse_direct_so_metadata p = Some o → phdrs_ok (so_phdrs o).
Proof.
  unfold parse_direct_so_metadata. destruct (fopen p) as [c|] eqn:Ec; [|done].
  apply fopen_toy in Ec as [->| ->].
  - change (read_at app_file 0 64) with (Some (take 64 app_file)). cbv iota beta.
    change (negb (is_aarch64 (take 64 app_file))) with false. cbv iota.
    change (read_at app_file (e_phoff_of (take 64 app_file)) (e_phnum_of (take 64 app_file) * 56)) with (Some (take 112 (drop 64 app_file))). cbv iota beta.
    change (phdrs_of_bytes (Z.to_nat (e_phnum_of (take 64 app_file))) (take 112 (drop 64 app_file))) with (toy_phdrs 536 128). cbv zeta.
    destruct (load_range (toy_phdrs 536 128)) as [lo hi]. destruct (lo =? _); [done|]. intros H. apply (inj Some) in H as <-. by apply toy_phdrs_ok.
  - change (read_at dep_file 0 64) with (Some (take 64 dep_file)). cbv iota beta.
    change (negb (is_aarch64 (take 64 dep_file))) with false. cbv iota.
    change (read_at dep_file (e_phoff_of (take 64 dep_file)) (e_phnum_of (take 64 dep_file) * 56)) with (Some (take 112 (drop 64 dep_file))). cbv iota beta.
    change (phdrs_of_bytes (Z.to_nat (e_phnum_of (take 64 dep_file))) (take 112 (drop 64 dep_file))) with (toy_phdrs 344 96). cbv zeta.
    destruct (load_range (toy_phdrs 344 96)) as [lo hi]. destruct (lo =? _); [done|]. intros H. apply (inj Some) in H as <-. by apply toy_phdrs_ok.
Qed.

(** ** Loading *)

(** A guest whose page tables have all of its memory already. *)
#[global] Instance toy_pages : Pages toy_guest := {
  extend_page_tables g a b := (true, g);
  update_perms g a b p := (true, g);
  host_write g a bs := toy_write g a bs;
}.
#[global] Program Instance toy_pages_laws : PagesLaws toy_guest toy_pages := { user g x := true }.
Next Obligation. done. Qed.
Next Obligation. done. Qed.
Next Obligation. done. Qed.
Next Obligation. done. Qed.
Next Obligation. done. Qed.
Next Obligation. done. Qed.
Next Obligation. done. Qed.
Next Obligation. done. Qed.
Next Obligation. done. Qed.
Next Obligation. done. Qed.
Next Obligation. done. Qed.
Next Obligation. done. Qed.
Next Obligation. intros g a bs _ _ Hb. by apply (write_value g a bs). Qed.
Next Obligation. intros g a bs x Hx. by apply (write_other g a bs). Qed.
Next Obligation. done. Qed.
Next Obligation. done. Qed.
Next Obligation. done. Qed.

(** The program at 4 MiB. *)
Definition app_obj : DirectSoObject := Eval vm_compute in set_base 4194304 (parsed app_path).
Lemma app_placed : Forall (λ o, ∃ m, placed m o) [app_obj].
Proof.
  constructor; [|constructor]. exists 4194304. split; [|unfold extent, top; cbn; split; [lia|split; [done|lia]]].
  split; [by apply (toy_phdrs_ok 536 128)|]. change (loads (so_phdrs app_obj)) with [Build_Elf64_Phdr PT_LOAD 6 0 0 0 536 4096 4096].
  split; [decides|split; [decides|split; [done|split; [done|]]]]. constructor; [|constructor]. decides.
Qed.
(** The guest: the stubs are behind the libraries. *)
Definition toy_gpu : gpu := Gpu ∅ 8053063680 ∅ {[cs "libc.so" := {[cs "puts" := 8053063616]}]} ∅ HVC_UNSUPPORTED_IMPORT_BASE.
Definition toy_fuel : nat := Z.to_nat 5000.
Abbreviation toy_load := (load_direct_so_dependencies toy_fuel [app_obj] [cs "/system/lib64"; cs "/data/app"]).
Definition toy_loaded : gpu := left_by toy_gpu toy_load.
Definition dep_obj : DirectSoObject := Eval vm_compute in set_base 6442450944 (parsed dep_path).
Lemma toy_load_run : toy_load toy_gpu = Ok (Some [app_obj; dep_obj], toy_loaded).
Proof. vm_cast_no_check (eq_refl (Ok (Some [app_obj; dep_obj], toy_loaded))). Qed.
#[local] Opaque toy_loaded.
Abbreviation toy_objs := [app_obj; dep_obj].
Lemma dependencies_complete_witness :
  provided [cs "/system/lib64"; cs "/data/app"] toy_gpu toy_objs (cs "libdep.so") ∧
  provided [cs "/system/lib64"; cs "/data/app"] toy_gpu toy_objs (cs "libc.so").
Proof.
  split.
  - apply (dependencies_complete toy_bytes toy_libs [cs "/system/lib64"; cs "/data/app"] [app_obj] app_placed toy_fuel toy_gpu
      toy_objs toy_loaded ltac:(decides) ltac:(decides) toy_load_run app_obj); [left|decides].
  - apply (dependencies_complete toy_bytes toy_libs [cs "/system/lib64"; cs "/data/app"] [app_obj] app_placed toy_fuel toy_gpu
      toy_objs toy_loaded ltac:(decides) ltac:(decides) toy_load_run app_obj); [left|decides].
Defined.

(** ** Relocation *)

Lemma symbol_found_witness :
  ∃ a, lookup_direct_symbol toy_objs (cs "dep_fn") = Ok a ∧ a = 6442451968 ∧
    ∃ obj c tab i value, obj ∈ toy_objs ∧ fopen (so_path obj) = Some c ∧
      vaddr_to_file_offset (so_phdrs obj) (symtab (so_dyn obj)) 24 = Some tab ∧
      1 <= i ∧ symbol_named c obj tab i (cs "dep_fn") value ∧ a = u64 (load_base obj + value).
Proof.
  destruct (symbol_found toy_objs (cs "dep_fn")) as (a & Ha & H); [decides|]. exists a. split; [done|].
  assert (Ok a = Ok 6442451968) as [= ->] by (rewrite <- Ha; vm_cast_no_check (eq_refl (Ok 6442451968))).
  split; [done|]. by apply H.
Defined.

(** Where [bs] is in a file. *)
Lemma in_file_check (c : list Z) off bs :
  bool_decide (take (length bs) (drop (Z.to_nat off) c) = bs) = true → 0 <= off → off <= size c → in_file c off bs.
Proof.
  intros H%bool_decide_eq_true_1 H0 Hl. exists (take (Z.to_nat off) c), (drop (length bs) (drop (Z.to_nat off) c)). split.
  - rewrite <- H at 1. by rewrite !take_drop.
  - unfold size in *. rewrite length_take. lia.
Qed.
Lemma toy_word a : at_check (byte (gpu_guest toy_loaded)) a (le_split 8 0) = true → word_at (gpu_guest toy_loaded) a 0.
Proof. apply at_check_holds. Qed.
Lemma relr_applied_witness :
  ∃ n g', apply_direct_so_relr dep_file (so_phdrs dep_obj) 6442450944 328 16 toy_loaded = Ok (n, with_guest g' toy_loaded) ∧
    word_at g' 6442452992 6442450944 ∧ word_at g' 6442453000 6442450944.
Proof.
  destruct (relr_applied dep_file (so_phdrs dep_obj) 6442450944 328 dep_relrs 328 toy_loaded) as (n & g' & Hr & Hw & _).
  - done.
  - repeat constructor; unfold in_u64; lia.
  - done.
  - done.
  - done.
  - apply in_file_check; [vm_cast_no_check (eq_refl true)|lia|done].
  - change (u64 <$> _) with [6442452992; 6442453000; 6442453008]. unfold words_apart. repeat constructor; lia.
  - repeat constructor.
  - exists n, g'. split; [exact Hr|]. assert (6442450944 = u64 (0 + 6442450944)) as -> by reflexivity.
    assert (in_u64 0) as H0 by (unfold in_u64; lia).
    split; (apply Hw; [decides|exact H0|apply toy_word; vm_cast_no_check (eq_refl true)]).
Defined.
Lemma toy_stubs_ok : stubs_ok 8053063680 toy_loaded.
Proof.
  assert (toy_loaded = with_guest (gpu_guest toy_loaded) toy_gpu) as -> by vm_cast_no_check (eq_refl toy_loaded).
  split; [decides|split; [decides|split; [decides|split; [done|]]]]. intros key gpa. cbn. by rewrite lookup_empty.
Qed.
Definition app_word (r : rela_entry) (w : Z) : Prop :=
  ∀ stubs, rela_word toy_loaded stubs app_file app_obj toy_objs r = Some w.
Lemma app_words :
  Forall2 app_word [RelaEntry 2048 R_AARCH64_RELATIVE 16; RelaEntry 2056 (4294967296 + R_AARCH64_JUMP_SLOT) 0;
    RelaEntry 2072 (12884901888 + R_AARCH64_ABS64) 5] [4194320; 6442451968; 5].
Proof.
  repeat apply Forall2_cons_2; [| | |apply Forall2_nil_2]; intros stubs.
  - vm_cast_no_check (eq_refl (Some 4194320)).
  - vm_cast_no_check (eq_refl (Some 6442451968)).
  - vm_cast_no_check (eq_refl (Some 5)).
Qed.
Lemma app_done r w s' : app_word r w → slot_done toy_loaded app_file app_obj toy_objs s' r → word_at (gpu_guest s') (rela_slot app_obj r) w.
Proof. intros Hw. unfold slot_done. by rewrite Hw. Qed.
